(* ===== verification/_CoqProject ===== *)
-Q . S2P
Prelude.v
Order.v
GoStrings.v
Paths.v
Utf8.v
Digest.v
Digits.v
GoTime.v
Fsm.v
Glob.v
Coverage.v
GoJson.v
Unmarshal.v
UnmarshalSpec.v
GateEngine.v
GateSpec.v
Corroboration.v
CorroborationResult.v
GateScoring.v
Base64.v
GateReport.v
GateReportSpec.v
StrictJson.v
StrictJsonSpec.v
RawJson.v
StrictJsonEqual.v
StrictJsonNumbers.v
StrictJsonCanon.v
StrictJsonRoundTrip.v
StrictJsonMarshal.v
Canonical.v
CanonicalSpec.v
Store.v
Effects.v
EffectsCodec.v
LedgerProtocol.v
Retention.v
RetentionApply.v
LedgerSystem.v
LedgerReplay.v
RetentionSpec.v
LedgerPlans.v
RetentionApplySpec.v
Client.v
ClientSystem.v
Ip.v
Url.v
Publish.v
Publisher.v
ToolPolicy.v
BrokerData.v
Transport.v
TransportSpec.v
BrokerPolicy.v
BrokerPolicySpec.v
BrokerCalls.v
BrokerCallsSpec.v
BrokerModel.v
ModelBudget.v
ContextPack.v
ContextPackOrder.v
ContextPackUsage.v
ContextPackParts.v
ContextPackFiles.v
ContextPackSpec.v
PolicyContract.v
PolicyContractRules.v
PolicyContractSpec.v
PolicyContractResults.v
PolicyPack.v
PolicyExec.v
PolicyGate.v
Status.v
StatusSpec.v
EffectSystem.v
RuntimeProto.v
RuntimeEvents.v
RuntimeReplay.v
RuntimeRecovery.v
