(* ===== verification/Prelude.v ===== *)
(** * Agents Gateway v3: a verification development

    The program (src/v3) runs coding agents against a repository and publishes
    a patch only if a Gate accepted it.  An AgentRun moves through a lifecycle;
    its work is captured as evidence; the Gate evaluates the evidence against a
    declared policy and runs the scripts of the policy contract that the agent
    was given; an optional critic's findings are corroborated and scored;
    a signed report records the decision; the strict JSON contract fixes the
    bytes that cross every boundary.  Side effects such as a publication are
    fenced by a ledger in the object store: the publisher claims a publication
    there before it calls GitHub, and the broker, the only way out of the sandbox
    for tool calls and model requests, claims every tool call that is not a read.
    Retention later deletes what finished runs left behind, the ledger's records
    included.  The runtime reports its progress as a stream of protocol frames, which
    a collector stores and completes once the exit of the process is known.  The
    files model these parts as pure functions of the same shape as
    the Go code and prove what makes them correct.

    ** Parts, files, and the code they model

    - Prelude.v (this file): results of fallible Go code ([result], [let?]), Go's
      [==], the automation ([breflect], [split_guard], [inv_bind]) and generic
      list lemmas.  Order.v: comparison functions as a type class [Ordering],
      and [sort.Slice]/[sort.Strings] as [sort_on].  GoStrings.v, Utf8.v: Go
      strings as bytes, UTF-8, the [strings] functions used.  Digest.v: SHA-256,
      hexadecimal and the digest format ([canonical.ValidDigest]).  Digits.v:
      decimal digit strings.  GoJson.v: [json.Marshal].  Unmarshal.v,
      UnmarshalSpec.v: [json.Unmarshal] as a scanner of bytes, and that it reads
      back what [json.Marshal] writes.  Base64.v: [base64.RawStdEncoding].
      Paths.v: [path.Clean], [path.Base] and [path.Join].
    - Fsm.v: the AgentRun lifecycle (internal/fsm/agentrun.go, fsm.go): the
      transition table with the rows [init] adds, [Apply], [Transition] and the
      in-memory machine.
    - Glob.v, Coverage.v: the scope globs, repository paths and coverage
      requirements of the Gate (internal/gate/glob.go, coverage.go).
    - GateEngine.v, GateSpec.v: the policy engine (internal/gate/engine.go,
      [Evaluate]) and its declarative acceptance condition [acceptable].  The
      closures [add] and [invalid] of [Evaluate] become a list of recorded
      operations ([op]) performed on an explicit state ([eval_state]).
    - Corroboration.v, CorroborationResult.v: routing of critic findings
      (internal/findingcorroboration).
    - GateScoring.v: the scored verdict (internal/gatescoring).
    - GateReport.v, GateReportSpec.v: report building, canonicalisation, signing
      and verification (internal/gate/report.go).  Ed25519 is the parameter
      [Ed25519] with the laws [Ed25519Laws] for keys the package made from a seed
      ([private_key]): keys and signatures have their documented sizes, and what
      [Sign] signs with such a key, [Verify] accepts.  Other keys of 64 bytes, which
      [SignReport] does not refuse, are not covered.
    - StrictJson.v (model) with StrictJsonSpec.v, StrictJsonEqual.v,
      StrictJsonNumbers.v, StrictJsonCanon.v and
      StrictJsonRoundTrip.v: the strict JSON contract (pkg/strictjson).
      RawJson.v: raw messages, as texts.
      StrictJsonMarshal.v: what [json.Marshal] writes is a strict document, and
      its normal form is the same value with sorted members.
    - Canonical.v, CanonicalSpec.v: the canonical form and digest of a resolved
      specification (internal/canonical): the document is filtered of
      credential material at every depth and written with sorted members.
    - GoTime.v: [time.Time] as civil fields and a zone, with RFC 3339 text and
      the order of instants.  Store.v: calls that use a clock, an object store
      and a cluster are programs ([prog]) of requests; [responds] says what a
      store may answer, errors and ambiguous writes included, and [run] is the
      store without failures.
    - Effects.v, EffectsCodec.v: the effect ledger
      (internal/effects/ledger.go): records, their canonical JSON, keys, [Claim]
      and [Commit].
      LedgerProtocol.v: callers that share a ledger take steps in any order
      ([step]); the protocol a caller keeps ([unclaimed], [uncommitted],
      [guarded]) and what it gives.  LedgerSystem.v: claims, commits and retention
      keep it, and the theorems on the whole system.
      LedgerReplay.v: the publisher's sequence.
    - Retention.v, RetentionSpec.v: the planner (internal/retention/retention.go
      and ledger.go); the name checks of k8s.io/apimachinery are the parameter
      [IsDNS1123Subdomain].  RetentionApply.v, RetentionApplySpec.v: the applier
      (internal/retention/applier.go); LedgerPlans.v: which object keys are valid, and
      that planned pairs pass the applier's validation.
    - Client.v, ClientSystem.v: callers of the ledger as programs of ledger calls
      and requests to an outside service (the class [Service]); the discipline a
      caller keeps, and the system of all of them on one ledger.
    - Ip.v, Url.v: [net.ParseIP] and [net/url], as far as the code uses them.
    - Publish.v, Publisher.v: requests, patches and the prepared
      publication, and [Publish] with its GitHub and ledger calls
      (internal/publish/publish.go, client.go).
    - ToolPolicy.v (pkg/toolpolicy/policy.go, with [path.Match]); BrokerData.v, Transport.v,
      BrokerPolicy.v, BrokerCalls.v, BrokerModel.v: the broker
      (internal/broker/broker.go, transport.go, policy.go, calls.go, phase.go,
      model.go): its compiled contract, the addresses it connects to, its
      construction, tool calls, and model requests with their budget.  What a call
      asks of its surroundings (the provider, the upstream server, the resolver,
      the context) may be answered in any way.  The cost estimator is a
      pure function of its arguments.  TransportSpec.v,
      BrokerPolicySpec.v, BrokerCallsSpec.v, ModelBudget.v: the theorems;
      ModelBudget.v runs any number of requests against one budget.
    - Status.v, StatusSpec.v: the status of an AgentRun (internal/status/status.go):
      its bounded projection, validation, JSON and setters.
    - ContextPack.v: the compiler of context packs
      (internal/contextpack/contextpack.go): normalisation of its input, the
      rendered files, the manifest that counts itself, budgets and omission.
      ContextPackOrder.v: the order of the input; ContextPackUsage.v: the
      stabilised usage; ContextPackParts.v, ContextPackFiles.v: the manifest reads
      back, and what an accepted input and the files of a pack look like; ContextPackSpec.v: the theorems on [Compile].
    - PolicyContract.v: the compiler of policy contracts
      (internal/policycontract/policycontract.go): validation, scripts, the
      canonical manifest and its decoding, and the projections for the context
      pack, the self-checks and the Gate.  The name check is the parameter
      [IsDNS1123Subdomain] with the law [DNS1123]: names it accepts are made of
      lowercase letters, digits, dashes and dots.  PolicyContractRules.v,
      PolicyContractSpec.v: the manifest reads back, and which inputs compile and to which rules; PolicyContractResults.v: what decodes, and
      the theorems.  PolicyPack.v: the scripts of a
      contract in a context pack.  PolicyExec.v: the runner of the checks
      (internal/policyexec/policyexec.go), the broker's policy check
      (internal/broker/policycheck.go) and the verifier's projections; the file
      system and the processes are a class [Machine] whose answers are arbitrary.
      PolicyGate.v: from a contract through the runner to the Gate.
    - EffectSystem.v: publications and tool calls on one ledger.
    - RuntimeProto.v: the frames of the runtime protocol
      (pkg/runtimeproto/protocol.go, pkg/proto/runtime.go): parsing, schemas,
      encoding, the order of events and redaction.  RuntimeEvents.v: the collector,
      the repository and the completion from an observed exit
      (internal/runtimeevents: collector.go, store.go, record.go, finalize.go), as
      programs ([eprog]) of requests to the context, the object store and a writer.
      RuntimeReplay.v: records read back, the order of events, undisturbed runs
      ([erun]); RuntimeRecovery.v: runs with any answers ([runs]), histories of a
      collector ([reached]), replay and recovery.

    ** What the theorems show

    - Lifecycle (C1, C4): [Apply] implements the lifecycle contract, and
      publishing is reached only through the whole verification sequence.
    - Context packs (C2, C5, C8): compilation always ends, with a pack or an error
      that means what it says; the order of the input is irrelevant; and a pack
      holds exactly its manifest and the rendered files of the kept entries,
      within every budget, with every other entry recorded as omitted.
    - Status (C3): what the setters build, with or without a clock, follows the
      lifecycle, has its times in order and is valid; a phase set without a clock
      may lack the time that belongs to it.  That the projection is idempotent and exact is a lemma
      of StatusSpec.v.
    - Globs (C7): the memoised matcher decides the declarative meaning of a
      pattern.
    - Gate (C12): the engine accepts exactly the acceptable inputs.  That its
      decisions are well formed for the report layer and independent of the order
      of observations are lemmas of GateReportSpec.v and GateSpec.v.
    - Policy contracts (C6, C11, C13, C14, C16, C32): exactly the valid inputs with
      verified scripts compile, in any order, to one canonical contract; its
      manifest decodes to the same checks; the checks are bound to the manifest
      and to the scripts in the context pack; and the Gate's policy checks pass
      exactly if every blocking script, read with the digest of the contract,
      exited with zero.
    - Critic and scoring (C15, C19, C21): a finding blocks only with independent
      deterministic evidence; a score never outweighs a
      veto; evaluation succeeds exactly on valid inputs, as long as
      every finding has evidence (a finding without any makes [Evaluate] fail:
      [evaluate_rejects_unevidenced]).
    - Report (C23-C25): signature round trip for keys of the package, an accepted report
      implies an accepting Gate, and every decision can be reported.
    - Strict JSON (C26, C27, C29, C30): parsing terminates; parsed values respect
      every bound; [Normalize] is a canonical form for [Equal], which compares
      numbers exactly (StrictJsonEqual.v); and it reads back.
    - Runtime events (C10, C17, C28, C38): in every history, whatever the
      surroundings answer, a collector holds a well-ordered stream that the store
      has confirmed, and completes it only after a terminal event and a known exit;
      a completion is read back and replayed; a replay that succeeds has written the
      referenced bytes; and a stream whose collector is gone is completed from the
      store with the collector's own record.  That holds for lines that read back,
      which [accepted_line_unreadable] shows not all accepted lines do, and for a
      collector that was not rejected: after a trailing line the collector refuses
      and the store still completes ([trailing_line_recovers]).
    - Canonical specifications (C31): outside of exact-argument policies, which are
      kept as they are, no path of a canonical specification passes a member that
      carries credential material, as [credential_member] says it without the
      code's filter; and every other scalar of the document is kept.
    - Ledger (C33-C36): records of UTF-8 text within the size bound read back, while
      the ledger also accepts others ([foreign_claim_conflicts]); under any interleaving of claims,
      commits and retention runs, with failures and ambiguous answers, an effect
      is granted at most once and has one result; and a committed effect of such
      records is replayed, not repeated.
    - Retention (C37, C39): every planned deletion is justified by the inventory,
      and what the planner plans for a ledger root of at most 944 bytes, the applier
      with the same prefixes accepts and carries out.  A guard that
      is not released keeps the applier from any request (RetentionApplySpec.v).
    - Broker (C9, C18, C20, C22): a broker that was built is well formed; prices
      are exact (a lemma of BrokerPolicySpec.v); an upstream server is only asked for what the contract,
      the phase, the budget, the approval and the ledger allow; under any
      interleaving the budget accounts for every reservation and booking and no
      counter wraps; and connections go to public addresses only.
    - Effects (C40): of all publications and tool calls that claim one effect, at
      most one acts.

    ** Bounds and fuel

    Integers are [Z]; instants are nanoseconds, unbounded; bounds of the code are
    explicit guards, and the 64-bit arithmetic of prices and budgets wraps
    ([wrap64]).  The only fuelled
    functions are the recursive descent of StrictJson.v (fuel three times the
    document's length plus four, shown sufficient by [parse_total]), its string
    loop (the length of the input plus one, shown sufficient there too), the
    members and items of raw documents in RawJson.v and RuntimeProto.v (the
    parser's fuel), redaction and the reader of lines in RuntimeProto.v (the length
    of the input plus one, shown sufficient by [redact_ends] and [next_line_ends]),
    [writeAll] in RuntimeEvents.v (every write takes a byte), the groups of an
    IPv6 address in Ip.v, the chunks of a pattern in ToolPolicy.v and
    [strip_front] of GoStrings.v (one per byte), and the loop of [Compile] in
    ContextPack.v (one round per optional entry and one more, shown sufficient by
    [compile_total], which also shows that the code's own sixteen rounds settle
    the usage of a manifest).  The loops over the frames of a stream
    have the code's own bound of [2 ^ 32] rounds ([rounds]).  All other recursion is
    structural.

    ** Not modelled

    Kubernetes reconcilers and workload manifests, the GitHub and S3 adapters
    below their interfaces, inventory listing and process supervision (I/O
    through libraries that are not part of the sources); the broker's HTTP, MCP
    and result-shaping handlers, the reading of Anthropic requests and of usage,
    and the OpenRouter rewriting; the publication of findings as comments; the
    typed decoders that drive [encoding/json] token by token
    ([ParseCanonicalInput], [ParseCanonicalResult], [ParseSignedReport]); error
    texts beyond the sentinel they wrap; the version 2 gateway, which v3
    replaces. *)

From stdpp Require Export base tactics list gmap strings decidable sorting.
From Stdlib Require Export ZArith Lia Bool Ascii.

(** ** Results of fallible Go code

    A Go function that returns [(T, error)] becomes a function into
    [result E T]; [E] is an inductive type of the package's sentinel errors. *)

Inductive result (E A : Type) : Type :=
| Ok (a : A)
| Err (e : E).
Arguments Ok {E A} a.
Arguments Err {E A} e.

Definition result_bind {E A B : Type} (m : result E A) (k : A -> result E B) : result E B :=
  match m with
  | Ok a => k a
  | Err e => Err e
  end.

(** A loop that stops at the first error. *)
Fixpoint fold_result {E S A : Type} (step : S -> A -> result E S) (acc : S) (l : list A) : result E S :=
  match l with
  | [] => Ok acc
  | x :: l' => result_bind (step acc x) (fun acc' => fold_result step acc' l')
  end.

Definition is_ok {E A : Type} (m : result E A) : bool :=
  match m with Ok _ => true | Err _ => false end.

Declare Scope go_scope.
Delimit Scope go_scope with go.

Notation "'let?' x := m 'in' k" := (result_bind m (fun x => k))
  (at level 10, x pattern, m at level 100, k at level 200) : go_scope.
(** Go's [==] on comparable values, and its [!=]. *)
Notation "a =?= b" := (bool_decide (a = b)) (at level 70, no associativity) : go_scope.
Notation "a !=? b" := (negb (bool_decide (a = b))) (at level 70, no associativity) : go_scope.

#[global] Instance result_eq_dec {E A : Type} `{EqDecision E} `{EqDecision A} :
  EqDecision (result E A).
Proof. solve_decision. Defined.

(** ** Automation

    [breflect] turns boolean guards (as the code writes them) into
    propositions; [split_guard] case-splits the conditionals of a goal or of a
    hypothesis. *)

Create Rewrite HintDb breflect.
#[export] Hint Rewrite andb_true_iff andb_false_iff orb_true_iff orb_false_iff
  negb_true_iff negb_false_iff bool_decide_eq_true bool_decide_eq_false
  Z.eqb_eq Z.eqb_neq Z.leb_le Z.leb_gt Z.ltb_lt Z.ltb_ge
  Nat.eqb_eq Nat.eqb_neq Nat.leb_le Nat.leb_gt Nat.ltb_lt Nat.ltb_ge : breflect.

#[global] Arguments Nat.ltb : simpl never.
#[global] Arguments Nat.leb : simpl never.
#[global] Arguments Z.ltb : simpl never.
#[global] Arguments Z.leb : simpl never.
#[global] Arguments Z.eqb : simpl never.

Ltac breflect := autorewrite with breflect in *.

Ltac split_guard :=
  match goal with
  | H : context [if ?b then _ else _] |- _ => let E := fresh "E" in destruct b eqn:E
  | |- context [if ?b then _ else _] => let E := fresh "E" in destruct b eqn:E
  end.

(** Inverts one [result_bind] whose value is known. *)
Ltac inv_bind H :=
  match type of H with
  | result_bind ?m _ = _ =>
      let E := fresh "E" in destruct m eqn:E; cbn [result_bind] in H; try discriminate H
  end.

Lemma result_bind_ok {E A B : Type} (m : result E A) (k : A -> result E B) (b : B) :
  result_bind m k = Ok b <-> exists a, m = Ok a /\ k a = Ok b.
Proof.
  destruct m as [a|e]; cbn; split; try discriminate.
  - intros H. by exists a.
  - intros (a' & Ha & Hk). congruence.
  - by intros (a & Ha & _).
Qed.

(** ** Loops that may fail *)

Lemma fold_result_inv {Er S A : Type} (step : S -> A -> result Er S) (P : S -> Prop) items : forall acc acc',
  (forall x s s', x ∈ items -> P s -> step s x = Ok s' -> P s') -> P acc -> fold_result step acc items = Ok acc' -> P acc'.
Proof.
  induction items as [|x items IH]; intros acc acc' Hs Ha H; cbn in H; [by injection H as <-|].
  destruct (step acc x) as [s'|] eqn:E; [|done]. eapply (IH s'); [|eapply Hs; [left| |]; done|done].
  intros y s1 s2 Hy. apply Hs. by right.
Qed.

Lemma fold_result_all {Er S A : Type} (step : S -> A -> result Er S) (P : A -> Prop) items : forall acc acc',
  (forall s s' x, step s x = Ok s' -> P x) -> fold_result step acc items = Ok acc' -> Forall P items.
Proof.
  induction items as [|x items IH]; intros acc acc' Hs H; [constructor|]. cbn in H.
  destruct (step acc x) as [s|] eqn:E; [|done]. constructor; [by eapply Hs|by eapply IH].
Qed.

Lemma fold_result_snoc {Er S A : Type} (step : S -> A -> result Er S) x l : forall acc,
  fold_result step acc (l ++ [x]) = result_bind (fold_result step acc l) (fun acc' => step acc' x).
Proof.
  induction l as [|y l IH]; intros acc; cbn; [by destruct (step acc x)|]. destruct (step acc y); [apply IH|done].
Qed.

(** ** Generic list lemmas *)

Section Lists.
Context {A : Type}.
Implicit Types (l : list A) (p : A -> bool).

Lemma forallb_true l p : forallb p l = true <-> Forall (fun x => p x = true) l.
Proof.
  rewrite forallb_forall, Forall_forall. by setoid_rewrite list_elem_of_In.
Qed.

Lemma existsb_true l p : existsb p l = true <-> exists x, x ∈ l /\ p x = true.
Proof. rewrite existsb_exists. by setoid_rewrite list_elem_of_In. Qed.

Lemma existsb_false l p : existsb p l = false <-> Forall (fun x => p x = false) l.
Proof.
  induction l as [|x l IH]; cbn.
  - split; [constructor | done].
  - rewrite orb_false_iff, IH, Forall_cons. done.
Qed.

Lemma find_some_elem l p x : find p l = Some x -> x ∈ l /\ p x = true.
Proof. intros H. apply find_some in H. by rewrite list_elem_of_In. Qed.

Lemma find_none_elem l p : find p l = None <-> Forall (fun x => p x = false) l.
Proof.
  induction l as [|x l IH]; cbn.
  - split; [constructor | done].
  - rewrite Forall_cons, <- IH. by destruct (p x); split; intros; destruct_and?; try discriminate.
Qed.
Lemma Forall_sublist (P : A -> Prop) l k : l `sublist_of` k -> Forall P k -> Forall P l.
Proof.
  induction 1; intros Hk; [constructor| |]; inversion Hk; subst; [constructor|]; auto.
Qed.
End Lists.

Lemma sublist_map {A B : Type} (f : A -> B) (l k : list A) :
  l `sublist_of` k -> map f l `sublist_of` map f k.
Proof. induction 1; cbn; by constructor. Qed.

(** Sums of integers over a list. *)
Definition sumZ {A : Type} (g : A -> Z) (l : list A) : Z := foldr (fun x s => (g x + s)%Z) 0%Z l.

Lemma sumZ_app {A : Type} (g : A -> Z) l k : sumZ g (l ++ k) = (sumZ g l + sumZ g k)%Z.
Proof. induction l as [|x l IH]; cbn; [done|]. fold (sumZ g (l ++ k)) (sumZ g l). lia. Qed.

#[global] Instance sumZ_perm {A : Type} (g : A -> Z) : Proper ((≡ₚ) ==> (=)) (sumZ g).
Proof. induction 1; unfold sumZ in *; cbn; try lia; congruence. Qed.

Lemma sumZ_map {A B : Type} (f : A -> B) (g : B -> Z) l : sumZ g (map f l) = sumZ (fun x => g (f x)) l.
Proof. induction l as [|x l IH]; [done|]. cbn. fold (sumZ g (map f l)). by rewrite IH. Qed.

Lemma sumZ_ext {A : Type} (g h : A -> Z) l :
  (forall x, x ∈ l -> g x = h x) -> sumZ g l = sumZ h l.
Proof.
  induction l as [|x l IH]; intros H; [done|]. cbn. fold (sumZ g l) (sumZ h l).
  rewrite H, IH; [done| |]; [|apply list_elem_of_here]. intros y Hy. apply H. by right.
Qed.

Lemma sumZ_le {A : Type} (g h : A -> Z) l :
  (forall x, x ∈ l -> (g x <= h x)%Z) -> (sumZ g l <= sumZ h l)%Z.
Proof.
  induction l as [|x l IH]; intros H; [done|]. cbn. fold (sumZ g l) (sumZ h l).
  pose proof (H x (list_elem_of_here _ _)). assert ((sumZ g l <= sumZ h l)%Z); [|lia].
  apply IH. intros y Hy. apply H. by right.
Qed.
