(* ===== verification/Order.v ===== *)
(** * Total comparisons and sorting

    The code sorts with [sort.Slice] and hand-written [less] functions.  A
    [less] that comes from a lawful comparison determines the sorted slice, so
    an unstable sort is deterministic; this file holds the laws, the
    comparisons they are closed under, and the sort. *)

From S2P Require Import Prelude.
Local Open Scope Z_scope.

(** A comparison function that decides a total order. *)
Class Ordering {A : Type} (cmp : A -> A -> comparison) : Prop := {
  cmp_eq : forall a b, cmp a b = Eq -> a = b;
  cmp_opp : forall a b, cmp b a = CompOpp (cmp a b);
  cmp_trans : forall a b c, cmp a b = Lt -> cmp b c = Lt -> cmp a c = Lt
}.

Lemma cmp_refl {A : Type} (cmp : A -> A -> comparison) `{!Ordering cmp} a : cmp a a = Eq.
Proof. pose proof (cmp_opp a a). by destruct (cmp a a). Qed.

#[global] Instance Z_compare_ordering : Ordering Z.compare.
Proof.
  split.
  - intros a b. apply Z.compare_eq.
  - intros a b. apply Z.compare_antisym.
  - intros a b c. rewrite !Z.compare_lt_iff. lia.
Qed.

Lemma string_compare_lt_le a b : String.compare a b = Lt -> String.le a b.
Proof. intros H. unfold String.le, String.leb. by rewrite H. Qed.

#[global] Instance String_compare_ordering : Ordering String.compare.
Proof.
  split.
  - intros a b. apply String.compare_eq_iff.
  - intros a b. apply String.compare_antisym.
  - intros a b c Hab Hbc.
    assert (Hle : String.le a c) by (etransitivity; by apply string_compare_lt_le).
    unfold String.le, String.leb in Hle. destruct (String.compare a c) eqn:E; try done.
    apply String.compare_eq_iff in E as ->. rewrite String.compare_antisym, Hbc in Hab. done.
Qed.

Definition compare_bool (a b : bool) : comparison :=
  match a, b with false, true => Lt | true, false => Gt | _, _ => Eq end.

#[global] Instance bool_compare_ordering : Ordering compare_bool.
Proof. split; [by intros [] []|by intros [] []|by intros [] [] []]. Qed.

(** [nil] before any value. *)
Definition compare_option {A : Type} (cmp : A -> A -> comparison) (a b : option A) : comparison :=
  match a, b with
  | None, None => Eq
  | None, Some _ => Lt
  | Some _, None => Gt
  | Some x, Some y => cmp x y
  end.

#[global] Instance compare_option_ordering {A : Type} (cmp : A -> A -> comparison) `{!Ordering cmp} :
  Ordering (compare_option cmp).
Proof.
  split.
  - intros [x|] [y|]; cbn; try done. intros H. by rewrite (cmp_eq x y H).
  - intros [x|] [y|]; cbn; try done. apply cmp_opp.
  - intros [x|] [y|] [z|]; cbn; try done. apply cmp_trans.
Qed.

(** First by one key, then by the next. *)
Definition then_by (first second : comparison) : comparison :=
  match first with Eq => second | c => c end.
Definition compare_pair {A B : Type} (cmpA : A -> A -> comparison) (cmpB : B -> B -> comparison)
  (x y : A * B) : comparison := then_by (cmpA x.1 y.1) (cmpB x.2 y.2).

#[global] Instance compare_pair_ordering {A B : Type} cmpA cmpB
  `{!Ordering (A := A) cmpA} `{!Ordering (A := B) cmpB} : Ordering (compare_pair cmpA cmpB).
Proof.
  split.
  - intros [a b] [a' b']. unfold compare_pair, then_by. cbn.
    destruct (cmpA a a') eqn:E; try done. intros H. by rewrite (cmp_eq (cmp := cmpA) _ _ E), (cmp_eq (cmp := cmpB) _ _ H).
  - intros [a b] [a' b']. unfold compare_pair, then_by. cbn.
    rewrite (cmp_opp (cmp := cmpA) a a'), (cmp_opp (cmp := cmpB) b b'). by destruct (cmpA a a').
  - intros [a b] [a' b'] [a'' b'']. unfold compare_pair, then_by. cbn.
    destruct (cmpA a a') eqn:E1, (cmpA a' a'') eqn:E2; try done.
    + rewrite (cmp_eq _ _ E1), (cmp_eq _ _ E2), (cmp_refl cmpA). apply cmp_trans.
    + by rewrite (cmp_eq _ _ E1), E2.
    + by rewrite <- (cmp_eq _ _ E2), E1.
    + by rewrite (cmp_trans _ _ _ E1 E2).
Qed.

(** Comparison of a key that determines the value. *)
Definition compare_on {A B : Type} (key : A -> B) (cmp : B -> B -> comparison) (x y : A) : comparison :=
  cmp (key x) (key y).

Lemma compare_on_ordering {A B : Type} (key : A -> B) cmp `{!Ordering cmp} :
  Inj (=) (=) key -> Ordering (compare_on key cmp).
Proof.
  intros Hinj. unfold compare_on. split.
  - intros x y H. by apply Hinj, (cmp_eq _ _ H).
  - intros x y. apply cmp_opp.
  - intros x y z. apply cmp_trans.
Qed.

(** ** The sort *)

Lemma Sorted_subrelation {A : Type} (R S : relation A) l :
  (forall a b, R a b -> S a b) -> Sorted R l -> Sorted S l.
Proof.
  intros H. induction 1 as [|a l _ IH Hd]; constructor; [done|]. destruct Hd; constructor. auto.
Qed.

Section Sort.
Context {A : Type} (cmp : A -> A -> comparison).

Definition cmp_le (a b : A) : Prop := cmp a b <> Gt.

#[global] Instance cmp_le_dec : RelDecision cmp_le.
Proof. intros a b. unfold cmp_le. apply _. Defined.

Definition sort_by (l : list A) : list A := merge_sort cmp_le l.

Lemma sort_by_perm l : sort_by l ≡ₚ l.
Proof. apply merge_sort_Permutation. Qed.

Context `{!Ordering cmp}.

#[global] Instance cmp_le_total : Total cmp_le.
Proof.
  intros a b. unfold cmp_le. rewrite (cmp_opp (cmp := cmp) a b). destruct (cmp a b); cbn; auto.
Qed.

Lemma cmp_le_cases a b : cmp_le a b <-> a = b \/ cmp a b = Lt.
Proof.
  unfold cmp_le. split.
  - destruct (cmp a b) eqn:E; [left; by apply (cmp_eq (cmp := cmp) a b)|by right|done].
  - intros [->|H]; [by rewrite (cmp_refl cmp)|by rewrite H].
Qed.

#[global] Instance cmp_le_trans : Transitive cmp_le.
Proof.
  intros a b c. rewrite !cmp_le_cases. intros [->|H1] [->|H2]; auto. right. by eapply cmp_trans.
Qed.

#[global] Instance cmp_le_antisymm : AntiSymm (=) cmp_le.
Proof.
  intros a b. rewrite !cmp_le_cases. intros [->|H1] [H2|H2]; auto.
  pose proof (cmp_opp (cmp := cmp) a b) as H. rewrite H1, H2 in H. done.
Qed.

Lemma sort_by_sorted l : Sorted cmp_le (sort_by l).
Proof. apply Sorted_merge_sort, _. Qed.

Lemma sorted_unique_perm l k : Sorted cmp_le l -> Sorted cmp_le k -> l ≡ₚ k -> l = k.
Proof. apply Sorted_unique; apply _. Qed.

Lemma sort_by_unique l k : l ≡ₚ k -> sort_by l = sort_by k.
Proof. intros H. apply sorted_unique_perm; [apply sort_by_sorted..|]. by rewrite !sort_by_perm. Qed.

Lemma sort_by_id l : Sorted cmp_le l -> sort_by l = l.
Proof. intros H. apply sorted_unique_perm; [apply sort_by_sorted|done|apply sort_by_perm]. Qed.
End Sort.

(** Sorting by a key that need not determine the value ([sort.Slice] with a
    [less] on one field).  Distinct keys make the result unique. *)
Section SortOn.
Context {A K : Type} (key : A -> K) (cmp : K -> K -> comparison).

Definition sort_on (l : list A) : list A := sort_by (compare_on key cmp) l.

Lemma sort_on_perm l : sort_on l ≡ₚ l.
Proof. apply sort_by_perm. Qed.

Context `{!Ordering cmp}.

Lemma on_le_key a b : cmp_le (compare_on key cmp) a b <-> cmp_le cmp (key a) (key b).
Proof. done. Qed.

#[global] Instance on_le_total : Total (cmp_le (compare_on key cmp)).
Proof. intros a b. rewrite !on_le_key. apply cmp_le_total, _. Qed.

Lemma sort_on_keys l : Sorted (cmp_le cmp) (map key (sort_on l)).
Proof.
  assert (H : Sorted (cmp_le (compare_on key cmp)) (sort_on l)) by apply Sorted_merge_sort, _.
  induction H as [|a l' _ IH Hd]; cbn; constructor; [done|]. destruct Hd; cbn; constructor. done.
Qed.

Lemma map_key_inj l k :
  NoDup (map key l) -> l ≡ₚ k -> map key l = map key k -> l = k.
Proof.
  intros Hnd Hp Hm. assert (Hall : forall x y, x ∈ l -> y ∈ l -> key x = key y -> x = y).
  { intros x y [i Hi]%list_elem_of_lookup [j Hj]%list_elem_of_lookup He.
    assert (i = j) as ->; [|congruence].
    eapply (NoDup_lookup (map key l)); [done| |]; rewrite list_lookup_fmap_Some; eauto. }
  apply list_eq_same_length with (length l); [by rewrite Hp|done|].
  intros i x y _ Hx Hy. apply Hall.
  - by eapply list_elem_of_lookup_2.
  - rewrite Hp. by eapply list_elem_of_lookup_2.
  - apply (f_equal (lookup i)) in Hm. rewrite !list_lookup_fmap, Hx, Hy in Hm. by injection Hm.
Qed.

Lemma sort_on_unique l k : NoDup (map key l) -> l ≡ₚ k -> sort_on l = sort_on k.
Proof.
  intros Hnd Hp. apply map_key_inj.
  - by rewrite sort_on_perm.
  - by rewrite !sort_on_perm.
  - apply (sorted_unique_perm cmp); [apply sort_on_keys..|]. by rewrite !sort_on_perm, Hp.
Qed.

Lemma sort_on_id l : NoDup (map key l) -> Sorted (cmp_le cmp) (map key l) -> sort_on l = l.
Proof.
  intros Hnd Hs. symmetry. apply map_key_inj; [done|by rewrite sort_on_perm|].
  apply (sorted_unique_perm cmp); [done|apply sort_on_keys|]. by rewrite sort_on_perm.
Qed.

Lemma sort_on_idem l : NoDup (map key l) -> sort_on (sort_on l) = sort_on l.
Proof. intros H. apply sort_on_id; [by rewrite sort_on_perm|apply sort_on_keys]. Qed.
#[global] Instance on_le_trans : Transitive (cmp_le (compare_on key cmp)).
Proof. intros a b c. rewrite !on_le_key. apply cmp_le_trans, _. Qed.

Lemma sort_on_strong l : StronglySorted (cmp_le (compare_on key cmp)) (sort_on l).
Proof. apply StronglySorted_merge_sort; apply _. Qed.
End SortOn.

(** Sorting commutes with a map that keeps the keys. *)
Lemma sort_on_map_by {A B K : Type} (f : A -> B) (key : B -> K) (cmp : K -> K -> comparison) `{!Ordering cmp} (l : list A) :
  NoDup (map (fun a => key (f a)) l) ->
  sort_on key cmp (map f l) = map f (sort_on (fun a => key (f a)) cmp l).
Proof.
  intros Hnd. pose proof (sort_on_perm (fun a => key (f a)) cmp l) as Hp.
  rewrite <- (sort_on_id key cmp (map f (sort_on (fun a => key (f a)) cmp l))).
  - apply sort_on_unique; [apply _|by rewrite map_map|by rewrite Hp].
  - rewrite map_map. by rewrite Hp.
  - rewrite map_map. apply sort_on_keys, _.
Qed.
Lemma sort_on_map {A B : Type} (f : A -> B) (key : B -> string) (l : list A) :
  NoDup (map (fun a => key (f a)) l) ->
  sort_on key String.compare (map f l) = map f (sort_on (fun a => key (f a)) String.compare l).
Proof. apply sort_on_map_by, _. Qed.

Lemma StronglySorted_filter {A : Type} (R : relation A) (P : A -> Prop) `{!forall x, Decision (P x)} l :
  StronglySorted R l -> StronglySorted R (filter P l).
Proof.
  induction 1 as [|x l Hl IH Hx]; [constructor|]. rewrite filter_cons. case_decide; [|done].
  constructor; [done|]. apply Forall_forall. intros y [_ Hy]%list_elem_of_filter.
  by apply (proj1 (Forall_forall _ _) Hx).
Qed.

Lemma compare_pair_le_fst {A B : Type} (cmpA : A -> A -> comparison) (cmpB : B -> B -> comparison) x y :
  cmp_le (compare_pair cmpA cmpB) x y -> cmp_le cmpA x.1 y.1.
Proof. unfold cmp_le, compare_pair, then_by. by destruct (cmpA _ _). Qed.

Lemma sublist_Sorted {A : Type} (R : relation A) `{!Transitive R} l k :
  l `sublist_of` k -> Sorted R k -> Sorted R l.
Proof.
  intros Hs Hk. apply Sorted_StronglySorted in Hk; [|done]. apply StronglySorted_Sorted.
  induction Hs as [|x l k Hs IH|x l k _ IH]; inversion Hk as [|? ? Hk' Hx]; subst; [done| |by apply IH].
  constructor; [by apply IH|]. by eapply Forall_sublist.
Qed.
