(* ===== verification/GoStrings.v ===== *)
(** * Go strings: bytes, UTF-8 runes and the [strings] functions the code uses

    A Go string is an immutable byte sequence; Rocq's [string] is a sequence
    of 8-bit characters, so it is used as is, and [bytes] exposes the byte
    values as integers.  [runes] is the conversion [[]rune(s)] (also the
    iteration [for _, r := range s]): an ill-formed byte decodes to U+FFFD,
    one byte at a time.  [ValidString] is [utf8.ValidString].  [Strings] is
    [sort.Strings]. *)

From S2P Require Import Prelude.
Local Open Scope Z_scope.

Definition byte_of_ascii (c : ascii) : Z := Z.of_N (Ascii.N_of_ascii c).
Definition ascii_of_byte (b : Z) : ascii := Ascii.ascii_of_N (Z.to_N b).

Definition bytes (s : string) : list Z :=
  map byte_of_ascii (String.list_ascii_of_string s).
Definition of_bytes (l : list Z) : string :=
  String.string_of_list_ascii (map ascii_of_byte l).

(** [len(s)], as a Go [int]. *)
Definition len (s : string) : Z := Z.of_nat (String.length s).
(** [len] of a slice. *)
Definition slen {A : Type} (l : list A) : Z := Z.of_nat (length l).

Definition is_byte (b : Z) : Prop := 0 <= b < 256.

Section Bytes.
Lemma byte_of_ascii_range c : is_byte (byte_of_ascii c).
Proof.
  unfold is_byte, byte_of_ascii. pose proof (Ascii.N_ascii_bounded c). lia.
Qed.

Lemma ascii_of_byte_of_ascii c : ascii_of_byte (byte_of_ascii c) = c.
Proof.
  unfold ascii_of_byte, byte_of_ascii. rewrite N2Z.id. apply Ascii.ascii_N_embedding.
Qed.

Lemma byte_of_ascii_of_byte b : is_byte b -> byte_of_ascii (ascii_of_byte b) = b.
Proof.
  unfold is_byte, ascii_of_byte, byte_of_ascii. intros Hb.
  rewrite Ascii.N_ascii_embedding by lia. lia.
Qed.

Lemma bytes_range s : Forall is_byte (bytes s).
Proof.
  unfold bytes. induction (String.list_ascii_of_string s); constructor;
    auto using byte_of_ascii_range.
Qed.

Lemma of_bytes_bytes s : of_bytes (bytes s) = s.
Proof.
  unfold of_bytes, bytes. rewrite map_map.
  rewrite (map_ext _ id) by apply ascii_of_byte_of_ascii.
  rewrite map_id. apply String.string_of_list_ascii_of_string.
Qed.

Lemma bytes_of_bytes l : Forall is_byte l -> bytes (of_bytes l) = l.
Proof.
  intros Hl. unfold of_bytes, bytes.
  rewrite String.list_ascii_of_string_of_list_ascii.
  induction Hl as [|b l Hb _ IH]; cbn; [done|].
  by rewrite IH, byte_of_ascii_of_byte.
Qed.

Lemma bytes_inj s t : bytes s = bytes t -> s = t.
Proof. intros H. rewrite <- (of_bytes_bytes s), <- (of_bytes_bytes t). by f_equal. Qed.

Lemma length_bytes s : length (bytes s) = String.length s.
Proof. unfold bytes. rewrite length_map. induction s; cbn; congruence. Qed.

Lemma slen_nonneg {A : Type} (l : list A) : 0 <= slen l.
Proof. unfold slen. lia. Qed.

Lemma len_bytes s : len s = slen (bytes s).
Proof. unfold len, slen. by rewrite length_bytes. Qed.

Lemma bytes_cons c s : bytes (String c s) = byte_of_ascii c :: bytes s.
Proof. done. Qed.

Lemma bytes_app s t : bytes (s +:+ t) = bytes s ++ bytes t.
Proof. induction s as [|c s IH]; [done|]. change (bytes (String c s +:+ t)) with (byte_of_ascii c :: bytes (s +:+ t)). by rewrite IH. Qed.

Lemma len_app s t : len (s +:+ t) = len s + len t.
Proof. rewrite !len_bytes. unfold slen. rewrite bytes_app, length_app. lia. Qed.

Lemma bytes_nil_iff s : bytes s = [] <-> s = "".
Proof. destruct s; split; done. Qed.
End Bytes.

(** ** UTF-8 *)

Definition RuneError : Z := 0xFFFD.

Definition between (lo hi b : Z) : bool := (lo <=? b) && (b <=? hi).
Definition cont (b : Z) : bool := between 0x80 0xBF b.

(** Bounds of the second byte of a three- or four-byte sequence, from the
    first byte ([acceptRanges] of [unicode/utf8]). *)
Definition second3 (b0 b1 : Z) : bool :=
  if b0 =? 0xE0 then between 0xA0 0xBF b1
  else if b0 =? 0xED then between 0x80 0x9F b1
  else cont b1.
Definition second4 (b0 b1 : Z) : bool :=
  if b0 =? 0xF0 then between 0x90 0xBF b1
  else if b0 =? 0xF4 then between 0x80 0x8F b1
  else cont b1.

Definition rune2 (b0 b1 : Z) : Z := (b0 - 0xC0) * 64 + (b1 - 0x80).
Definition rune3 (b0 b1 b2 : Z) : Z := (b0 - 0xE0) * 4096 + (b1 - 0x80) * 64 + (b2 - 0x80).
Definition rune4 (b0 b1 b2 b3 : Z) : Z :=
  (b0 - 0xF0) * 262144 + (b1 - 0x80) * 4096 + (b2 - 0x80) * 64 + (b3 - 0x80).

(** The runes of a byte sequence, each with whether it was well formed. *)
Fixpoint decode (l : list Z) : list (Z * bool) :=
  match l with
  | [] => []
  | b0 :: r0 =>
    if b0 <? 0x80 then (b0, true) :: decode r0
    else if between 0xC2 0xDF b0 then
      match r0 with
      | b1 :: r1 =>
        if cont b1 then (rune2 b0 b1, true) :: decode r1 else (RuneError, false) :: decode r0
      | [] => [(RuneError, false)]
      end
    else if between 0xE0 0xEF b0 then
      match r0 with
      | b1 :: (b2 :: r2) =>
        if second3 b0 b1 && cont b2 then (rune3 b0 b1 b2, true) :: decode r2
        else (RuneError, false) :: decode r0
      | _ => (RuneError, false) :: decode r0
      end
    else if between 0xF0 0xF4 b0 then
      match r0 with
      | b1 :: (b2 :: (b3 :: r3)) =>
        if second4 b0 b1 && cont b2 && cont b3 then (rune4 b0 b1 b2 b3, true) :: decode r3
        else (RuneError, false) :: decode r0
      | _ => (RuneError, false) :: decode r0
      end
    else (RuneError, false) :: decode r0
  end.

Definition valid_utf8 (l : list Z) : bool := forallb snd (decode l).
Definition ValidString (s : string) : bool := valid_utf8 (bytes s).
Definition runes (s : string) : list Z := map fst (decode (bytes s)).

(** [utf8.EncodeRune] on a valid code point. *)
Definition encode_rune (r : Z) : list Z :=
  if r <? 0x80 then [r]
  else if r <? 0x800 then [0xC0 + r / 64; 0x80 + r mod 64]
  else if r <? 0x10000 then [0xE0 + r / 4096; 0x80 + r / 64 mod 64; 0x80 + r mod 64]
  else [0xF0 + r / 262144; 0x80 + r / 4096 mod 64; 0x80 + r / 64 mod 64; 0x80 + r mod 64].

(** ** The [strings] package *)

Definition slash : Z := 0x2F.

Definition HasPrefix (s p : string) : bool := bool_decide (bytes p `prefix_of` bytes s).
Definition HasSuffix (s p : string) : bool := bool_decide (bytes p `suffix_of` bytes s).

(** [strings.Contains] *)
Fixpoint contains_bytes (l sub : list Z) : bool :=
  bool_decide (sub `prefix_of` l) || match l with [] => false | _ :: l' => contains_bytes l' sub end.
Definition Contains (s sub : string) : bool := contains_bytes (bytes s) (bytes sub).

(** [strings.ContainsAny] for an ASCII cut set. *)
Definition ContainsAny (s chars : string) : bool :=
  existsb (fun b => bool_decide (b ∈ bytes chars)) (bytes s).

(** [strings.Split] for a one-byte separator. *)
Fixpoint split_bytes (sep : Z) (l : list Z) : list (list Z) :=
  match l with
  | [] => [[]]
  | b :: l' =>
    if b =? sep then [] :: split_bytes sep l'
    else match split_bytes sep l' with
         | [] => [[b]]
         | part :: parts => (b :: part) :: parts
         end
  end.
Definition Split (s : string) (sep : Z) : list string := map of_bytes (split_bytes sep (bytes s)).

Definition TrimPrefix (s p : string) : string :=
  if HasPrefix s p then of_bytes (drop (String.length p) (bytes s)) else s.
Definition TrimSuffix (s p : string) : string :=
  if HasSuffix s p then of_bytes (take (String.length s - String.length p) (bytes s)) else s.

(** [strings.TrimLeft], [TrimRight] and [Trim] for a set of ASCII bytes. *)
Fixpoint trim_left (cut : Z -> bool) (l : list Z) : list Z :=
  match l with
  | [] => []
  | b :: l' => if cut b then trim_left cut l' else l
  end.
Definition trim_right (cut : Z -> bool) (l : list Z) : list Z := rev (trim_left cut (rev l)).
Definition Trim (s : string) (b : Z) : string :=
  of_bytes (trim_right (Z.eqb b) (trim_left (Z.eqb b) (bytes s))).

(** [unicode.IsSpace], by the encodings of its members: the ASCII blanks,
    U+0085, U+00A0, U+1680, U+2000 to U+200A, U+2028, U+2029, U+202F, U+205F
    and U+3000. *)
Definition space_encodings : list (list Z) :=
  [[0x09]; [0x0A]; [0x0B]; [0x0C]; [0x0D]; [0x20]; [0xC2; 0x85]; [0xC2; 0xA0];
   [0xE1; 0x9A; 0x80]; [0xE2; 0x80; 0x80]; [0xE2; 0x80; 0x81]; [0xE2; 0x80; 0x82];
   [0xE2; 0x80; 0x83]; [0xE2; 0x80; 0x84]; [0xE2; 0x80; 0x85]; [0xE2; 0x80; 0x86];
   [0xE2; 0x80; 0x87]; [0xE2; 0x80; 0x88]; [0xE2; 0x80; 0x89]; [0xE2; 0x80; 0x8A];
   [0xE2; 0x80; 0xA8]; [0xE2; 0x80; 0xA9]; [0xE2; 0x80; 0xAF]; [0xE2; 0x81; 0x9F];
   [0xE3; 0x80; 0x80]].

(** Removes encodings of [encs] from the front as long as one is there; the
    fuel is the length, and every removal shortens the list. *)
Fixpoint strip_front (encs : list (list Z)) (fuel : nat) (l : list Z) : list Z :=
  match fuel with
  | O => l
  | S fuel' =>
    match find (fun e => bool_decide (e `prefix_of` l)) encs with
    | Some e => strip_front encs fuel' (drop (length e) l)
    | None => l
    end
  end.
Definition trim_space (l : list Z) : list Z :=
  let l1 := strip_front space_encodings (length l) l in
  rev (strip_front (map (@rev Z) space_encodings) (length l1) (rev l1)).
Definition TrimSpace (s : string) : string := of_bytes (trim_space (bytes s)).

(** ** Sorting *)

(** [sort.Strings]: bytewise lexicographic order. *)
Definition Strings (l : list string) : list string := merge_sort String.le l.

Lemma Strings_perm l : Strings l ≡ₚ l.
Proof. apply merge_sort_Permutation. Qed.

Lemma Strings_sorted l : Sorted String.le (Strings l).
Proof. apply Sorted_merge_sort, _. Qed.

(** Two collections with the same members sort to the same slice. *)
Lemma Strings_unique l k : l ≡ₚ k -> Strings l = Strings k.
Proof.
  intros Hp. eapply (Sorted_unique String.le); [apply Strings_sorted.. |].
  by rewrite !Strings_perm.
Qed.

(** [isASCIIAlpha]-style byte classes shared by several packages. *)
Definition is_digit (b : Z) : bool := between 0x30 0x39 b.
Definition is_lower_hex (b : Z) : bool := is_digit b || between 0x61 0x66 b.

(** ** Splitting *)

Section Split.
Context (sep : Z).

(** [strings.Join] of the parts. *)
Fixpoint join (parts : list (list Z)) : list Z :=
  match parts with
  | [] => []
  | [p] => p
  | p :: rest => p ++ sep :: join rest
  end.

Lemma split_bytes_nonempty l : split_bytes sep l <> [].
Proof. destruct l as [|b l]; cbn; [done|]. repeat case_match; done. Qed.

Lemma join_split l : join (split_bytes sep l) = l.
Proof.
  induction l as [|b l IH]; [done|]. cbn.
  pose proof (split_bytes_nonempty l) as Hne.
  destruct (split_bytes sep l) as [|p ps] eqn:Hs; [done|].
  destruct (Z.eqb_spec b sep) as [->|Hb].
  - cbn. by rewrite <- IH.
  - rewrite <- IH. by destruct ps.
Qed.

Lemma split_bytes_free l : Forall (fun p => sep ∉ p) (split_bytes sep l).
Proof.
  induction l as [|b l IH]; cbn.
  - repeat constructor. apply not_elem_of_nil.
  - destruct (Z.eqb_spec b sep) as [->|Hb].
    + constructor; [apply not_elem_of_nil | done].
    + destruct (split_bytes sep l) as [|p ps].
      * repeat constructor. by rewrite list_elem_of_singleton.
      * inversion IH; subst. constructor; [|done]. by rewrite not_elem_of_cons.
Qed.
End Split.

(** ** Runes *)

Lemma between_spec lo hi b : between lo hi b = true <-> lo <= b <= hi.
Proof. unfold between. breflect. done. Qed.

Lemma decode_ascii l :
  Forall (fun b => b < 0x80) l -> decode l = map (fun b => (b, true)) l.
Proof.
  induction 1 as [|b l Hb _ IH]; [done|]. cbn.
  by rewrite (proj2 (Z.ltb_lt _ _) Hb), IH.
Qed.

Lemma runes_ascii s : Forall (fun b => b < 0x80) (bytes s) -> runes s = bytes s.
Proof.
  intros H. unfold runes. rewrite decode_ascii by done. rewrite map_map. apply map_id.
Qed.

Lemma ValidString_ascii s : Forall (fun b => b < 0x80) (bytes s) -> ValidString s = true.
Proof.
  intros H. unfold ValidString, valid_utf8. rewrite decode_ascii by done.
  apply forallb_true. apply Forall_map, Forall_true. done.
Qed.

(** A non-ASCII byte never decodes to an ASCII rune. *)
Lemma decode_head_high b l :
  0x80 <= b -> exists r ok rest, decode (b :: l) = (r, ok) :: rest /\ 0x80 <= r.
Proof.
  intros Hb. cbn. rewrite (proj2 (Z.ltb_ge _ _) Hb).
  assert (He : 0x80 <= RuneError) by (unfold RuneError; lia).
  repeat case_match; try (by eauto 6);
    eexists _, _, _; (split; [done|]);
    unfold rune2, rune3, rune4, second3, second4, cont in *;
    repeat match goal with
    | H : (_ && _) = true |- _ => apply andb_true_iff in H as [??]
    | H : between _ _ _ = true |- _ => apply between_spec in H
    end; repeat case_match; breflect;
    repeat match goal with H : between _ _ _ = true |- _ => apply between_spec in H end; lia.
Qed.

(** Iterating the runes of a string with a predicate that accepts ASCII only
    is iterating its bytes. *)
Lemma decode_forall_ascii (P : Z -> bool) l :
  (forall r, P r = true -> r < 0x80) ->
  forallb P (map fst (decode l)) = forallb P l.
Proof.
  intros HP. induction l as [|b l IH]; [done|].
  destruct (Z.ltb_spec b 0x80) as [Hb|Hb].
  - cbn. rewrite (proj2 (Z.ltb_lt _ _) Hb). cbn. by rewrite IH.
  - destruct (decode_head_high b l Hb) as (r & ok & rest & -> & Hr). cbn.
    destruct (P r) eqn:Er; [apply HP in Er; lia|].
    destruct (P b) eqn:Eb; [apply HP in Eb; lia|]. done.
Qed.

(** An ASCII byte always starts a new rune. *)
Lemma decode_app_ascii l b k :
  0 <= b < 0x80 -> decode (l ++ b :: k) = decode l ++ decode (b :: k).
Proof.
  intros Hb.
  assert (Hc : forall lo hi, 0x80 <= lo -> between lo hi b = false).
  { intros lo hi Hlo. apply not_true_iff_false. rewrite between_spec. lia. }
  assert (H2 : forall b0, second3 b0 b = false /\ second4 b0 b = false).
  { intros b0. unfold second3, second4, cont. rewrite !Hc by lia. by repeat case_match. }
  assert (Hcont : cont b = false) by (by apply Hc).
  induction l as [l IH] using (induction_ltof1 _ (@length _)). unfold ltof in IH.
  destruct l as [|b0 l]; [done|].
  cbn [app]. cbn [decode]. destruct (b0 <? 0x80).
  { rewrite IH by (cbn; lia). done. }
  destruct (between 0xC2 0xDF b0).
  { destruct l as [|b1 l]; cbn [app].
    - by rewrite Hcont.
    - case_match; cbn [app]; f_equal.
      + apply IH. cbn. lia.
      + apply (IH (b1 :: l)). cbn. lia. }
  destruct (between 0xE0 0xEF b0).
  { destruct l as [|b1 [|b2 l]]; cbn [app].
    - destruct k as [|b2 k]; [done|]. rewrite (proj1 (H2 _)). done.
    - rewrite Hcont, andb_false_r. f_equal. apply (IH [b1]). cbn. lia.
    - case_match; cbn [app]; f_equal.
      + apply IH. cbn. lia.
      + apply (IH (b1 :: b2 :: l)). cbn. lia. }
  destruct (between 0xF0 0xF4 b0).
  { destruct l as [|b1 [|b2 [|b3 l]]]; cbn [app].
    - destruct k as [|b2 [|b3 k]]; try done. rewrite (proj2 (H2 _)). done.
    - destruct k as [|b3 k]; [|rewrite Hcont, andb_false_r]; f_equal; apply (IH [b1]); cbn; lia.
    - rewrite Hcont, andb_false_r. f_equal. apply (IH [b1; b2]). cbn. lia.
    - case_match; cbn [app]; f_equal.
      + apply IH. cbn. lia.
      + apply (IH (b1 :: b2 :: b3 :: l)). cbn. lia. }
  cbn [app]. f_equal. apply IH. cbn. lia.
Qed.

(** ** Cutting and splitting *)

Lemma TrimPrefix_app s p : HasPrefix s p = true -> s = p +:+ TrimPrefix s p.
Proof.
  intros H. unfold TrimPrefix. rewrite H. unfold HasPrefix in H. apply bool_decide_eq_true in H as [r Hr].
  apply bytes_inj. rewrite bytes_app, Hr, <- length_bytes, drop_app_length.
  f_equal. rewrite bytes_of_bytes; [done|]. pose proof (bytes_range s) as Hb. rewrite Hr in Hb. by apply Forall_app in Hb as [_ Hb].
Qed.

Lemma TrimSuffix_app s p : HasSuffix s p = true -> s = TrimSuffix s p +:+ p.
Proof.
  intros H. unfold TrimSuffix. rewrite H. unfold HasSuffix in H. apply bool_decide_eq_true in H as [r Hr].
  apply bytes_inj. rewrite bytes_app, <- !length_bytes, Hr, length_app.
  replace (length r + length (bytes p) - length (bytes p))%nat with (length r) by lia. rewrite take_app_length.
  f_equal. rewrite bytes_of_bytes; [done|]. pose proof (bytes_range s) as Hb. rewrite Hr in Hb. by apply Forall_app in Hb as [Hb _].
Qed.

Lemma split_bytes_range sep l : Forall is_byte l -> Forall (Forall is_byte) (split_bytes sep l).
Proof.
  induction 1 as [|b l Hb _ IH]; cbn; [by apply Forall_singleton|]. destruct (b =? sep); [by constructor|].
  destruct (split_bytes sep l); [by apply Forall_singleton, Forall_singleton|]. inversion IH; subst. constructor; [|done].
  by constructor.
Qed.

Lemma bytes_Split s sep : map bytes (Split s sep) = split_bytes sep (bytes s).
Proof.
  unfold Split. rewrite map_map. rewrite <- (map_id (split_bytes sep (bytes s))) at 2. apply map_ext_in.
  intros p Hp. apply bytes_of_bytes. pose proof (split_bytes_range sep _ (bytes_range s)) as H.
  rewrite Forall_forall in H. apply H. by apply list_elem_of_In.
Qed.

Lemma Split_pair s a b : Split s slash = [a; b] -> s = a +:+ "/" +:+ b.
Proof.
  intros H. apply bytes_inj. rewrite <- (join_split slash (bytes s)), <- bytes_Split, H, !bytes_app. done.
Qed.

Lemma split_bytes_app sep l k : sep ∉ l ->
  split_bytes sep (l ++ sep :: k) = l :: split_bytes sep k.
Proof.
  induction l as [|b l IH]; intros Hl; cbn; [by rewrite Z.eqb_refl|]. apply not_elem_of_cons in Hl as [Hb Hl].
  rewrite (proj2 (Z.eqb_neq _ _)) by congruence. by rewrite IH.
Qed.

Lemma split_bytes_whole sep l : sep ∉ l -> split_bytes sep l = [l].
Proof.
  induction l as [|b l IH]; intros Hl; cbn; [done|]. apply not_elem_of_cons in Hl as [Hb Hl].
  rewrite (proj2 (Z.eqb_neq _ _)) by congruence. by rewrite IH.
Qed.

Lemma split_bytes_concat sep l k : split_bytes sep (l ++ sep :: k) = split_bytes sep l ++ split_bytes sep k.
Proof.
  induction l as [|b l IH]; cbn [app split_bytes]; [by rewrite Z.eqb_refl|]. rewrite IH.
  destruct (b =? sep); [done|]. pose proof (split_bytes_nonempty sep l). by destruct (split_bytes sep l).
Qed.

(** A text whose parts are not empty has no leading, trailing or doubled
    separator. *)
Section SplitParts.
Implicit Types l : list Z.

Lemma split_head l : Forall (fun part => part <> []) (split_bytes slash l) ->
  l !! 0%nat <> Some slash.
Proof.
  destruct l as [|b l]; cbn; [done|]. intros Hf [= ->]. rewrite Z.eqb_refl in Hf.
  by inversion Hf.
Qed.

Lemma split_step l b :
  Forall (fun part => part <> []) (tail (split_bytes slash (b :: l))) ->
  Forall (fun part => part <> []) (tail (split_bytes slash l)) /\
  (b = slash -> Forall (fun part => part <> []) (split_bytes slash l)).
Proof.
  cbn. destruct (Z.eqb_spec b slash) as [->|Hb]; cbn.
  - intros Hf. split; [|done]. by destruct Hf; [constructor|].
  - intros Hf. split; [|done]. by destruct (split_bytes slash l).
Qed.

Lemma split_last l : Forall (fun part => part <> []) (tail (split_bytes slash l)) ->
  last l <> Some slash.
Proof.
  induction l as [|b l IH]; [done|]. intros [Hf Hb]%split_step.
  destruct l as [|b' l].
  - cbn. intros [= ->]. specialize (Hb eq_refl). by inversion Hb.
  - rewrite last_cons_cons. auto.
Qed.

Lemma split_no_double l : Forall (fun part => part <> []) (tail (split_bytes slash l)) ->
  contains_bytes l [slash; slash] = false.
Proof.
  induction l as [|b l IH]; [done|]. intros [Hf Hb]%split_step.
  cbn [contains_bytes]. rewrite IH by done. rewrite orb_false_r.
  apply bool_decide_eq_false. intros [k Hk]. cbn in Hk. injection Hk as -> ->.
  by apply (split_head _ (Hb eq_refl)).
Qed.
End SplitParts.

Lemma HasPrefix_slash s : HasPrefix s "/" = true <-> bytes s !! 0%nat = Some slash.
Proof.
  unfold HasPrefix. rewrite bool_decide_eq_true. change (bytes "/") with [slash]. split.
  - intros [k ->]. done.
  - destruct (bytes s) as [|b l]; [done|]. intros [= ->]. by exists l.
Qed.

Lemma HasSuffix_slash s : HasSuffix s "/" = true <-> last (bytes s) = Some slash.
Proof.
  unfold HasSuffix. rewrite bool_decide_eq_true. change (bytes "/") with [slash]. split.
  - intros [k ->]. apply last_snoc.
  - intros [k Hk]%last_Some. by exists k.
Qed.
