(* ===== verification/Paths.v ===== *)
(** * The [path] package *)

From S2P Require Import Prelude GoStrings.
Local Open Scope go_scope.
Local Open Scope string_scope.
Local Open Scope Z_scope.
Local Open Scope list_scope.

Definition dot_segment : list Z := [0x2E].
Definition dotdot_segment : list Z := [0x2E; 0x2E].

(** [path.Clean]: empty and dot elements are dropped, a dot-dot element removes
    the one before it. *)
Fixpoint clean_segments (rooted : bool) (out segments : list (list Z)) : list (list Z) :=
  match segments with
  | [] => out
  | s :: rest =>
    if bool_decide (s = []) || bool_decide (s = dot_segment) then clean_segments rooted out rest
    else if bool_decide (s = dotdot_segment) then
      match last out with
      | Some p => if bool_decide (p = dotdot_segment) then clean_segments rooted (out ++ [s]) rest
                  else clean_segments rooted (removelast out) rest
      | None => if rooted then clean_segments rooted out rest else clean_segments rooted (out ++ [s]) rest
      end
    else clean_segments rooted (out ++ [s]) rest
  end.
Definition path_Clean (l : list Z) : list Z :=
  let rooted := match l with b :: _ => b =? slash | [] => false end in
  let out := join slash (clean_segments rooted [] (split_bytes slash l)) in
  if rooted then slash :: out else if bool_decide (out = []) then dot_segment else out.

(** [path.Base]: the last element, without the slashes after it. *)
Definition path_Base (path : string) : string :=
  if path =?= "" then "."
  else
    let trimmed := trim_right (Z.eqb slash) (bytes path) in
    let base := default [] (last (split_bytes slash trimmed)) in
    if bool_decide (base = []) then "/" else of_bytes base.

(** [path.Join]: the elements that are not empty, joined and cleaned. *)
Definition path_Join (elems : list string) : string :=
  match filter (fun e => e <> "") elems with
  | [] => ""
  | kept => of_bytes (path_Clean (join slash (map bytes kept)))
  end.

(** Elements that cleaning keeps. *)
Definition plain_segment (p : list Z) : Prop := p <> [] /\ p <> dot_segment /\ p <> dotdot_segment.

Lemma clean_plain rooted segments : forall out, Forall plain_segment segments -> clean_segments rooted out segments = out ++ segments.
Proof.
  induction segments as [|p ps IH]; intros out H; [by rewrite app_nil_r|]. inversion H as [|? ? (H1 & H2 & H3)]; subst.
  cbn [clean_segments]. rewrite !bool_decide_eq_false_2 by done. cbn [orb]. rewrite IH by done. by rewrite <- (assoc_L (++)).
Qed.

Lemma path_Clean_plain l : Forall plain_segment (split_bytes slash l) -> path_Clean l = l.
Proof.
  intros H. assert (Hne : Forall (fun part => part <> []) (split_bytes slash l)).
  { eapply Forall_impl; [exact H|]. by intros p [? _]. }
  pose proof (split_head _ Hne) as Hh. unfold path_Clean. cbv zeta. rewrite clean_plain, app_nil_l, join_split by done.
  destruct l as [|b l]; [by inversion Hne|]. cbn in Hh. rewrite (proj2 (Z.eqb_neq b slash)) by congruence. by rewrite bool_decide_eq_false_2.
Qed.
