(* ===== verification/Utf8.v ===== *)
(** * UTF-8: encoding and decoding are inverse

    Well-formed byte sequences are exactly the encodings of sequences of
    Unicode scalar values; [decode] and [encode_rune] (GoStrings.v) are inverse
    on them. *)

From S2P Require Import Prelude GoStrings.
Local Open Scope Z_scope.

(** Unicode scalar values: code points that are not surrogates. *)
Definition scalar (r : Z) : Prop := 0 <= r < 0xD800 \/ 0xE000 <= r < 0x110000.

Definition encode_runes (rs : list Z) : list Z := flat_map encode_rune rs.

Lemma between_false lo hi b : between lo hi b = false <-> b < lo \/ hi < b.
Proof. rewrite <- not_true_iff_false, between_spec. lia. Qed.

Ltac rune_arith := Z.to_euclidean_division_equations; lia.

Lemma decode_encode r k : scalar r -> decode (encode_rune r ++ k) = (r, true) :: decode k.
Proof.
  intros Hr. unfold scalar in Hr. unfold encode_rune.
  destruct (Z.ltb_spec r 0x80) as [H1|H1]; [cbn; by rewrite (proj2 (Z.ltb_lt _ _) H1)|].
  destruct (Z.ltb_spec r 0x800) as [H2|H2].
  { cbn [app decode]. rewrite (proj2 (Z.ltb_ge _ _)) by rune_arith.
    rewrite (proj2 (between_spec _ _ _)) by rune_arith. unfold cont.
    rewrite (proj2 (between_spec 0x80 _ _)) by rune_arith. unfold rune2. do 2 f_equal. rune_arith. }
  destruct (Z.ltb_spec r 0x10000) as [H3|H3].
  { set (b0 := 0xE0 + r / 4096). set (b1 := 0x80 + r / 64 mod 64). set (b2 := 0x80 + r mod 64).
    cbn [app decode].
    assert (Hb : 0xE0 <= b0 <= 0xEF /\ 0x80 <= b1 <= 0xBF /\ 0x80 <= b2 <= 0xBF /\
      (b0 = 0xE0 -> 0xA0 <= b1) /\ (b0 = 0xED -> b1 <= 0x9F) /\ rune3 b0 b1 b2 = r).
    { unfold rune3, b0, b1, b2. split_and!; rune_arith. }
    destruct Hb as (B0 & B1 & B2 & H0 & HD & ->).
    rewrite (proj2 (Z.ltb_ge b0 _)) by lia. rewrite (proj2 (between_false 0xC2 _ _)) by lia.
    rewrite (proj2 (between_spec 0xE0 _ _)) by lia.
    assert (Hs : second3 b0 b1 && cont b2 = true); [|by rewrite Hs].
    unfold second3, cont. apply andb_true_iff. rewrite (between_spec _ _ b2). split; [|lia].
    destruct (Z.eqb_spec b0 0xE0); [apply between_spec; lia|].
    destruct (Z.eqb_spec b0 0xED); apply between_spec; lia. }
  set (b0 := 0xF0 + r / 262144). set (b1 := 0x80 + r / 4096 mod 64). set (b2 := 0x80 + r / 64 mod 64).
  set (b3 := 0x80 + r mod 64). cbn [app decode].
  assert (Hb : 0xF0 <= b0 <= 0xF4 /\ 0x80 <= b1 <= 0xBF /\ 0x80 <= b2 <= 0xBF /\ 0x80 <= b3 <= 0xBF /\
    (b0 = 0xF0 -> 0x90 <= b1) /\ (b0 = 0xF4 -> b1 <= 0x8F) /\ rune4 b0 b1 b2 b3 = r).
  { unfold rune4, b0, b1, b2, b3. split_and!; rune_arith. }
  destruct Hb as (B0 & B1 & B2 & B3 & H0 & HD & ->).
  rewrite (proj2 (Z.ltb_ge b0 _)) by lia. rewrite (proj2 (between_false 0xC2 _ _)) by lia.
  rewrite (proj2 (between_false 0xE0 _ _)) by lia. rewrite (proj2 (between_spec 0xF0 _ _)) by lia.
  assert (Hs : second4 b0 b1 && cont b2 && cont b3 = true); [|by rewrite Hs].
  unfold second4, cont. rewrite !andb_true_iff, (between_spec _ _ b2), (between_spec _ _ b3).
  split_and!; [|lia..]. destruct (Z.eqb_spec b0 0xF0); [apply between_spec; lia|].
  destruct (Z.eqb_spec b0 0xF4); apply between_spec; lia.
Qed.

Lemma decode_encode_runes rs k :
  Forall scalar rs -> decode (encode_runes rs ++ k) = map (fun r => (r, true)) rs ++ decode k.
Proof.
  induction 1 as [|r rs Hr _ IH]; [done|]. cbn [encode_runes flat_map].
  rewrite <- (assoc_L (++)). rewrite decode_encode by done. cbn. by f_equal.
Qed.

Lemma valid_encode_runes rs : Forall scalar rs -> valid_utf8 (encode_runes rs) = true.
Proof.
  intros H. unfold valid_utf8. rewrite <- (app_nil_r (encode_runes rs)), decode_encode_runes by done.
  cbn. rewrite app_nil_r. apply forallb_true, Forall_map, Forall_true. done.
Qed.

Lemma encode_rune2 b0 b1 : 0xC2 <= b0 <= 0xDF -> 0x80 <= b1 <= 0xBF ->
  encode_rune (rune2 b0 b1) = [b0; b1] /\ scalar (rune2 b0 b1).
Proof.
  intros H0 H1. unfold encode_rune, rune2, scalar.
  rewrite (proj2 (Z.ltb_ge _ 0x80)), (proj2 (Z.ltb_lt _ 0x800)) by lia.
  split; [|lia]. repeat f_equal; rune_arith.
Qed.

Lemma encode_rune3 b0 b1 b2 : 0xE0 <= b0 <= 0xEF -> second3 b0 b1 = true -> 0x80 <= b2 <= 0xBF ->
  encode_rune (rune3 b0 b1 b2) = [b0; b1; b2] /\ scalar (rune3 b0 b1 b2).
Proof.
  intros H0 H1 H2. unfold second3, cont in H1.
  assert (Hb : 0x80 <= b1 <= 0xBF /\ (b0 = 0xE0 -> 0xA0 <= b1) /\ (b0 = 0xED -> b1 <= 0x9F)).
  { destruct (Z.eqb_spec b0 0xE0); [|destruct (Z.eqb_spec b0 0xED)]; apply between_spec in H1; lia. }
  unfold encode_rune, rune3, scalar.
  rewrite (proj2 (Z.ltb_ge _ 0x80)), (proj2 (Z.ltb_ge _ 0x800)), (proj2 (Z.ltb_lt _ 0x10000)) by lia.
  split; [|lia]. repeat f_equal; rune_arith.
Qed.

Lemma encode_rune4 b0 b1 b2 b3 :
  0xF0 <= b0 <= 0xF4 -> second4 b0 b1 = true -> 0x80 <= b2 <= 0xBF -> 0x80 <= b3 <= 0xBF ->
  encode_rune (rune4 b0 b1 b2 b3) = [b0; b1; b2; b3] /\ scalar (rune4 b0 b1 b2 b3).
Proof.
  intros H0 H1 H2 H3. unfold second4, cont in H1.
  assert (Hb : 0x80 <= b1 <= 0xBF /\ (b0 = 0xF0 -> 0x90 <= b1) /\ (b0 = 0xF4 -> b1 <= 0x8F)).
  { destruct (Z.eqb_spec b0 0xF0); [|destruct (Z.eqb_spec b0 0xF4)]; apply between_spec in H1; lia. }
  unfold encode_rune, rune4, scalar.
  rewrite (proj2 (Z.ltb_ge _ 0x80)), (proj2 (Z.ltb_ge _ 0x800)), (proj2 (Z.ltb_ge _ 0x10000)) by lia.
  split; [|lia]. repeat f_equal; rune_arith.
Qed.

(** A well-formed sequence is the encoding of its runes. *)
Lemma valid_utf8_runes l :
  valid_utf8 l = true -> Forall (fun b => 0 <= b) l ->
  exists rs, Forall scalar rs /\ l = encode_runes rs.
Proof.
  induction l as [l IH] using (induction_ltof1 _ (@length _)). unfold ltof in IH.
  destruct l as [|b0 l]; intros Hv Hn; [by exists []|]. inversion Hn as [|? ? Hb0 Hn']; subst.
  unfold valid_utf8 in Hv. cbn [decode] in Hv.
  assert (Hstep : forall pre rest r, b0 :: l = pre ++ rest -> (0 < length pre)%nat -> encode_rune r = pre ->
    scalar r -> forallb snd (decode rest) = true ->
    exists rs, Forall scalar rs /\ b0 :: l = encode_runes rs).
  { intros pre rest r Hl Hp He Hr Hd. destruct (IH rest) as (rs & Hrs & ->).
    - rewrite Hl, length_app. lia.
    - done.
    - rewrite Hl in Hn. by apply Forall_app in Hn as [_ ?].
    - exists (r :: rs). split; [by constructor|]. rewrite Hl. cbn. by rewrite He. }
  destruct (Z.ltb_spec b0 0x80) as [H1|H1].
  { apply (Hstep [b0] l b0); [done|cbn; lia| | |done].
    - unfold encode_rune. by rewrite (proj2 (Z.ltb_lt _ _) H1).
    - unfold scalar. lia. }
  destruct (between 0xC2 0xDF b0) eqn:H2.
  { apply between_spec in H2. destruct l as [|b1 r1]; [done|]. destruct (cont b1) eqn:C1; [|done].
    apply between_spec in C1. destruct (encode_rune2 b0 b1 H2 C1) as [He Hs].
    eapply (Hstep [b0; b1] r1); [reflexivity|cbn; lia|exact He|exact Hs|exact Hv]. }
  destruct (between 0xE0 0xEF b0) eqn:H3.
  { apply between_spec in H3. destruct l as [|b1 [|b2 r2]]; [done..|].
    destruct (second3 b0 b1 && cont b2) eqn:C; [|done]. apply andb_true_iff in C as [C1 C2].
    apply between_spec in C2. destruct (encode_rune3 b0 b1 b2 H3 C1 C2) as [He Hs].
    eapply (Hstep [b0; b1; b2] r2); [reflexivity|cbn; lia|exact He|exact Hs|exact Hv]. }
  destruct (between 0xF0 0xF4 b0) eqn:H4; [|done].
  apply between_spec in H4. destruct l as [|b1 [|b2 [|b3 r3]]]; [done..|].
  destruct (second4 b0 b1 && cont b2 && cont b3) eqn:C; [|done].
  apply andb_true_iff in C as [[C1 C2]%andb_true_iff C3].
  apply between_spec in C2, C3. destruct (encode_rune4 b0 b1 b2 b3 H4 C1 C2 C3) as [He Hs].
  eapply (Hstep [b0; b1; b2; b3] r3); [reflexivity|cbn; lia|exact He|exact Hs|exact Hv].
Qed.

(** The bytes of an encoding: ASCII, or above. *)
Lemma encode_rune_bytes r : scalar r ->
  (r < 0x80 /\ encode_rune r = [r]) \/
  (0x80 <= r /\ Forall (fun b => 0x80 <= b < 256) (encode_rune r) /\ encode_rune r <> []).
Proof.
  unfold scalar, encode_rune. intros Hr. destruct (Z.ltb_spec r 0x80) as [H1|H1]; [by left|right].
  split; [done|].
  destruct (r <? 0x800) eqn:H2; [|destruct (r <? 0x10000) eqn:H3]; breflect;
    (split; [|done]); repeat constructor; rune_arith.
Qed.

Lemma encode_runes_bytes rs :
  Forall scalar rs -> Forall is_byte (encode_runes rs).
Proof.
  induction 1 as [|r rs Hr _ IH]; cbn [encode_runes flat_map]; [constructor|]. apply Forall_app. split; [|done].
  destruct (encode_rune_bytes r Hr) as [[H ->]|(_ & H & _)].
  - repeat constructor; unfold scalar in Hr; lia.
  - eapply Forall_impl; [exact H|]. unfold is_byte. cbn. lia.
Qed.

Lemma valid_utf8_app l k :
  valid_utf8 l = true -> valid_utf8 k = true -> Forall (fun b => 0 <= b) l ->
  valid_utf8 (l ++ k) = true.
Proof.
  intros Hl Hk Hn. destruct (valid_utf8_runes l Hl Hn) as (rs & Hrs & ->). unfold valid_utf8.
  rewrite decode_encode_runes by done. rewrite forallb_app. apply andb_true_iff. split; [|done].
  apply forallb_true, Forall_map, Forall_true. done.
Qed.
