(* ===== verification/Digest.v ===== *)
(** * Content digests

    [crypto/sha256] and [encoding/hex] as executable functions (FIPS 180-4),
    and the digest format of src/v3/internal/canonical/resolved_spec.go:
    [sha256:] followed by 64 lowercase hexadecimal digits. *)

From S2P Require Import Prelude GoStrings.
Local Open Scope Z_scope.

(** ** SHA-256 *)

Module Sha256.

Definition mask (x : Z) : Z := Z.land x 0xFFFFFFFF.
Definition add (x y : Z) : Z := mask (x + y).
Definition rotr (n x : Z) : Z := Z.lor (Z.shiftr x n) (mask (Z.shiftl x (32 - n))).
Definition ch (x y z : Z) : Z := Z.lxor (Z.land x y) (Z.land (Z.lxor x 0xFFFFFFFF) z).
Definition maj (x y z : Z) : Z := Z.lxor (Z.land x y) (Z.lxor (Z.land x z) (Z.land y z)).
Definition bsig0 (x : Z) : Z := Z.lxor (rotr 2 x) (Z.lxor (rotr 13 x) (rotr 22 x)).
Definition bsig1 (x : Z) : Z := Z.lxor (rotr 6 x) (Z.lxor (rotr 11 x) (rotr 25 x)).
Definition ssig0 (x : Z) : Z := Z.lxor (rotr 7 x) (Z.lxor (rotr 18 x) (Z.shiftr x 3)).
Definition ssig1 (x : Z) : Z := Z.lxor (rotr 17 x) (Z.lxor (rotr 19 x) (Z.shiftr x 10)).

(** The constants are the leading fractional bits of the cube roots of the
    first 64 primes and of the square roots of the first 8. *)
Definition is_prime (n : Z) : bool :=
  forallb (fun d => negb (n mod Z.of_nat d =? 0)) (seq 2 (Z.to_nat n - 2)).
Definition primes : list Z := filter (fun n => is_prime n) (seqZ 2 310).

(** The integer cube root, by bits from the top. *)
Fixpoint cbrt_bits (n : nat) (x root : Z) : Z :=
  match n with
  | O => root
  | S n' =>
    let root' := root + 2 ^ Z.of_nat n' in
    cbrt_bits n' x (if root' ^ 3 <=? x then root' else root)
  end.

Definition round_constants : list Z :=
  Eval vm_compute in
    map (fun p => cbrt_bits 36 (Z.shiftl p 96) 0 mod 2 ^ 32) (take 64 primes).

Record hstate : Type := HState { ha : Z; hb : Z; hc : Z; hd : Z; he : Z; hf : Z; hg : Z; hh : Z }.

Definition h_init : hstate :=
  Eval vm_compute in
    match map (fun p => Z.sqrt (Z.shiftl p 64) mod 2 ^ 32) (take 8 primes) with
    | [a; b; c; d; e; f; g; h] => HState a b c d e f g h
    | _ => HState 0 0 0 0 0 0 0 0
    end.

(** The message schedule, newest word first. *)
Fixpoint extend (n : nat) (w : list Z) : list Z :=
  match n with
  | O => w
  | S n' =>
    extend n' (add (add (ssig1 (nth 1 w 0)) (nth 6 w 0)) (add (ssig0 (nth 14 w 0)) (nth 15 w 0)) :: w)
  end.

Definition round (s : hstate) (kw : Z * Z) : hstate :=
  let t1 := add (add (hh s) (bsig1 (he s))) (add (ch (he s) (hf s) (hg s)) (add kw.1 kw.2)) in
  let t2 := add (bsig0 (ha s)) (maj (ha s) (hb s) (hc s)) in
  HState (add t1 t2) (ha s) (hb s) (hc s) (add (hd s) t1) (he s) (hf s) (hg s).

Definition be32 (b0 b1 b2 b3 : Z) : Z := b0 * 0x1000000 + b1 * 0x10000 + b2 * 0x100 + b3.

Fixpoint words (l : list Z) : list Z :=
  match l with
  | b0 :: b1 :: b2 :: b3 :: l' => be32 b0 b1 b2 b3 :: words l'
  | _ => []
  end.

Definition compress (s : hstate) (block : list Z) : hstate :=
  let w := rev (extend 48 (rev (words block))) in
  let t := foldl round s (zip round_constants w) in
  HState (add (ha s) (ha t)) (add (hb s) (hb t)) (add (hc s) (hc t)) (add (hd s) (hd t))
         (add (he s) (he t)) (add (hf s) (hf t)) (add (hg s) (hg t)) (add (hh s) (hh t)).

Definition be_bytes (n : nat) (x : Z) : list Z :=
  map (fun i => Z.shiftr x (8 * Z.of_nat i) mod 256) (rev (seq 0 n)).

Definition pad (msg : list Z) : list Z :=
  msg ++ [0x80] ++ replicate (Z.to_nat ((55 - slen msg) mod 64)) 0 ++ be_bytes 8 (8 * slen msg).

(** Splits into 64-byte blocks; [n] bounds the number of blocks. *)
Fixpoint blocks (n : nat) (l : list Z) : list (list Z) :=
  match n, l with
  | O, _ | _, [] => []
  | S n', _ => take 64 l :: blocks n' (drop 64 l)
  end.

Definition Sum256 (msg : list Z) : list Z :=
  let p := pad msg in
  let s := foldl compress h_init (blocks (length p) p) in
  be_bytes 4 (ha s) ++ be_bytes 4 (hb s) ++ be_bytes 4 (hc s) ++ be_bytes 4 (hd s) ++
  be_bytes 4 (he s) ++ be_bytes 4 (hf s) ++ be_bytes 4 (hg s) ++ be_bytes 4 (hh s).

Lemma be_bytes_length n x : length (be_bytes n x) = n.
Proof. unfold be_bytes. by rewrite length_map, length_rev, length_seq. Qed.

Lemma be_bytes_range n x : Forall is_byte (be_bytes n x).
Proof.
  apply Forall_map, Forall_forall. intros i _. unfold is_byte.
  apply Z.mod_pos_bound. lia.
Qed.

Lemma Sum256_length msg : length (Sum256 msg) = 32%nat.
Proof. unfold Sum256. by rewrite !length_app, !be_bytes_length. Qed.

Lemma Sum256_range msg : Forall is_byte (Sum256 msg).
Proof. unfold Sum256. repeat apply Forall_app_2; apply be_bytes_range. Qed.

End Sha256.

(** ** Hexadecimal *)

Definition hex_digit (d : Z) : Z := if d <? 10 then 0x30 + d else 0x61 + (d - 10).

(** [hex.EncodeToString] *)
Definition hex_bytes (l : list Z) : list Z :=
  flat_map (fun b => [hex_digit (b / 16); hex_digit (b mod 16)]) l.
Definition EncodeToString (l : list Z) : string := of_bytes (hex_bytes l).

(** ** The digest format *)

Definition DigestPrefix : string := "sha256:".

(** [canonical.ValidDigest].  The loop ranges over runes; the guard on them
    accepts ASCII only. *)
Definition ValidDigest (value : string) : bool :=
  if negb (len value =? len DigestPrefix + 32 * 2) || negb (HasPrefix value DigestPrefix)
  then false
  else forallb (fun r => is_digit r || between 0x61 0x66 r)
         (map fst (decode (drop (String.length DigestPrefix) (bytes value)))).

(** [DigestPrefix + hex.EncodeToString(sum[:])] of [sha256.Sum256(body)]. *)
Definition digestBytes (body : list Z) : string :=
  DigestPrefix +:+ EncodeToString (Sha256.Sum256 body).

(** ** Lemmas *)

Lemma hex_digit_range d : 0 <= d < 16 -> is_lower_hex (hex_digit d) = true.
Proof.
  intros Hd. unfold hex_digit, is_lower_hex, is_digit. apply orb_true_iff.
  rewrite !between_spec. destruct (Z.ltb_spec d 10); lia.
Qed.

Lemma lower_hex_bounds b : is_lower_hex b = true -> 0x30 <= b <= 0x66.
Proof. unfold is_lower_hex, is_digit. rewrite orb_true_iff, !between_spec. lia. Qed.

Lemma lower_hex_ascii b : is_digit b || between 0x61 0x66 b = true -> b < 0x80.
Proof. intros H%lower_hex_bounds. lia. Qed.

Lemma hex_bytes_lower l :
  Forall is_byte l -> Forall (fun b => is_lower_hex b = true) (hex_bytes l).
Proof.
  induction 1 as [|b l Hb _ IH]; cbn; [constructor|]. unfold is_byte in Hb.
  repeat constructor; try apply hex_digit_range; try done.
  - split; [apply Z.div_pos; lia | apply Z.div_lt_upper_bound; lia].
  - apply Z.mod_pos_bound. lia.
Qed.

Lemma hex_bytes_length l : length (hex_bytes l) = (2 * length l)%nat.
Proof. unfold hex_bytes. induction l; cbn in *; lia. Qed.

Lemma lower_hex_byte l :
  Forall (fun b => is_lower_hex b = true) l -> Forall is_byte l.
Proof. intros H. eapply Forall_impl; [exact H|]. intros b Hb%lower_hex_bounds. unfold is_byte. lia. Qed.

Lemma bytes_EncodeToString l : Forall is_byte l -> bytes (EncodeToString l) = hex_bytes l.
Proof. intros H. apply bytes_of_bytes, lower_hex_byte, hex_bytes_lower, H. Qed.

Lemma HasPrefix_app p s : HasPrefix (p +:+ s) p = true.
Proof. unfold HasPrefix. apply bool_decide_eq_true. rewrite bytes_app. by eexists. Qed.

(** A digest is the prefix followed by 64 lowercase hexadecimal bytes. *)
Lemma ValidDigest_spec v :
  ValidDigest v = true <->
  exists h, bytes v = bytes DigestPrefix ++ h /\ length h = 64%nat /\
            Forall (fun b => is_lower_hex b = true) h.
Proof.
  unfold ValidDigest. split.
  - split_guard; [done|]. intros Hf. breflect. destruct E as [Hl Hp].
    unfold HasPrefix in Hp. apply bool_decide_eq_true in Hp as [h Hh]. exists h.
    rewrite !len_bytes in Hl. unfold slen in Hl. rewrite Hh in Hl, Hf.
    rewrite length_app in Hl. split; [done|]. split; [lia|].
    change (String.length DigestPrefix) with (length (bytes DigestPrefix)) in Hf.
    rewrite drop_app_length, decode_forall_ascii in Hf by apply lower_hex_ascii.
    by apply forallb_true in Hf.
  - intros (h & Hv & Hl & Hh). unfold HasPrefix. rewrite !len_bytes, Hv. unfold slen.
    rewrite length_app, Hl. change (Z.of_nat (length (bytes DigestPrefix) + 64) =? _) with true.
    rewrite bool_decide_eq_true_2 by (by eexists). cbn [negb orb].
    change (String.length DigestPrefix) with (length (bytes DigestPrefix)).
    rewrite drop_app_length, decode_forall_ascii by apply lower_hex_ascii.
    by apply forallb_true.
Qed.

Lemma ValidDigest_digestBytes body : ValidDigest (digestBytes body) = true.
Proof.
  apply ValidDigest_spec. eexists. unfold digestBytes. rewrite bytes_app.
  split; [done|]. rewrite bytes_EncodeToString by apply Sha256.Sum256_range.
  split.
  - by rewrite hex_bytes_length, Sha256.Sum256_length.
  - apply hex_bytes_lower, Sha256.Sum256_range.
Qed.

Example sha256_abc :
  digestBytes (bytes "abc") =
  "sha256:ba7816bf8f01cfea414140de5dae2223b00361a396177a9cb410ff61f20015ad".
Proof. vm_compute. reflexivity. Qed.
