(* ===== verification/Digits.v ===== *)
(** * Decimal digit strings

    The value of a sequence of ASCII digits, and the facts about leading and
    trailing zeros that the decimal contracts of the gate (coverage.go) and of
    strictjson share. *)

From stdpp Require Import pretty.
From S2P Require Import Prelude GoStrings.
Local Open Scope Z_scope.

Definition zero : Z := 0x30.

Definition digits (l : list Z) : Prop := Forall (fun b => is_digit b = true) l.

Lemma pow10_pos {A : Type} (l : list A) : 0 < 10 ^ slen l.
Proof. apply Z.pow_pos_nonneg; [lia|apply slen_nonneg]. Qed.

(** The number written by [l] in base ten. *)
Definition digits_val (l : list Z) : Z := foldl (fun acc b => 10 * acc + (b - zero)) 0 l.

Lemma is_digit_range b : is_digit b = true <-> 0 <= b - zero <= 9.
Proof. unfold is_digit, zero. rewrite between_spec. lia. Qed.

Lemma digits_byte l : digits l -> Forall is_byte l.
Proof.
  intros H. eapply Forall_impl; [exact H|]. intros b Hb%is_digit_range.
  unfold is_byte, zero in *. lia.
Qed.

Lemma foldl_digits acc l :
  foldl (fun acc b => 10 * acc + (b - zero)) acc l = acc * 10 ^ slen l + digits_val l.
Proof.
  unfold digits_val. revert acc. induction l as [|b l IH]; intros acc; cbn [foldl].
  - unfold slen. cbn. lia.
  - rewrite IH, (IH (10 * 0 + _)). unfold slen. cbn [length].
    rewrite Nat2Z.inj_succ, Z.pow_succ_r by lia. ring.
Qed.

Lemma digits_val_app l k : digits_val (l ++ k) = digits_val l * 10 ^ slen k + digits_val k.
Proof. unfold digits_val at 1. rewrite foldl_app. apply foldl_digits. Qed.

Lemma digits_val_cons b l : digits_val (b :: l) = (b - zero) * 10 ^ slen l + digits_val l.
Proof.
  change (b :: l) with ([b] ++ l). rewrite digits_val_app.
  unfold digits_val at 1. cbn [foldl]. ring.
Qed.

Lemma digits_val_snoc l b : digits_val (l ++ [b]) = 10 * digits_val l + (b - zero).
Proof. rewrite digits_val_app. unfold digits_val at 2, slen. cbn. lia. Qed.

Lemma digits_val_bound l : digits l -> 0 <= digits_val l < 10 ^ slen l.
Proof.
  induction 1 as [|b l Hb _ IH]; [unfold slen; cbn; lia|].
  rewrite digits_val_cons. apply is_digit_range in Hb. unfold slen in *. cbn [length].
  rewrite Nat2Z.inj_succ, Z.pow_succ_r by lia. nia.
Qed.

(** Equally long digit strings with the same value are the same. *)
Lemma digits_val_inj l k :
  digits l -> digits k -> length l = length k -> digits_val l = digits_val k -> l = k.
Proof.
  intros Hl. revert k. induction Hl as [|b l Hb Hl IH]; intros k Hk Hlen Hv.
  - by destruct k.
  - destruct k as [|c k]; [done|]. inversion Hk; subst.
    rewrite !digits_val_cons in Hv. cbn in Hlen. unfold slen in Hv.
    assert (length l = length k) as Hlk by lia. rewrite Hlk in Hv.
    pose proof (digits_val_bound l Hl) as Bl. pose proof (digits_val_bound k ltac:(done)) as Bk.
    unfold slen in Bl, Bk. rewrite Hlk in Bl.
    assert (b = c) as -> by nia. f_equal. apply IH; [done|lia|nia].
Qed.

Lemma trim_left_app cut l : exists pre, l = pre ++ trim_left cut l /\ Forall (fun b => cut b = true) pre.
Proof.
  induction l as [|b l (pre & Hl & Hp)]; [by exists []|]. cbn.
  destruct (cut b) eqn:Hb.
  - exists (b :: pre). cbn. rewrite <- Hl. by repeat constructor.
  - by exists [].
Qed.

Lemma trim_left_head cut l b : head (trim_left cut l) = Some b -> cut b = false.
Proof.
  induction l as [|c l IH]; [done|]. cbn. destruct (cut c) eqn:Hc; [done|].
  cbn. congruence.
Qed.

Lemma trim_right_app cut l : exists suf, l = trim_right cut l ++ suf /\ Forall (fun b => cut b = true) suf.
Proof.
  destruct (trim_left_app cut (rev l)) as (pre & Hl & Hp). exists (rev pre). split.
  - unfold trim_right. rewrite <- rev_app_distr, <- Hl. by rewrite rev_involutive.
  - by apply Forall_rev.
Qed.

Lemma trim_right_last cut l b : last (trim_right cut l) = Some b -> cut b = false.
Proof.
  unfold trim_right. intros H. apply (trim_left_head cut (rev l)).
  rewrite <- (rev_involutive (trim_left _ _)). apply last_Some in H as [k ->].
  by rewrite rev_app_distr.
Qed.

Lemma digits_val_zeros l : Forall (fun b => Z.eqb zero b = true) l -> digits_val l = 0.
Proof.
  induction 1 as [|b l Hb _ IH]; [done|]. apply Z.eqb_eq in Hb as <-.
  rewrite digits_val_cons, IH. unfold zero. lia.
Qed.

(** The longest prefix of digits. *)
Fixpoint span_digits (l : list Z) : list Z * list Z :=
  match l with
  | b :: l' => if is_digit b then let '(d, r) := span_digits l' in (b :: d, r) else ([], l)
  | [] => ([], [])
  end.

Lemma span_digits_spec l d r :
  span_digits l = (d, r) ->
  l = d ++ r /\ digits d /\ (forall b, head r = Some b -> is_digit b = false).
Proof.
  revert d r. induction l as [|b l IH]; intros d r; cbn.
  - intros [= <- <-]. split_and!; [done|constructor|done].
  - destruct (is_digit b) eqn:Hb.
    + destruct (span_digits l) as [d' r'] eqn:E. intros [= <- <-].
      destruct (IH _ _ eq_refl) as (-> & Hd & Hr). split_and!; [done|by constructor|done].
    + intros [= <- <-]. split_and!; [done|constructor|]. cbn. congruence.
Qed.

Lemma span_digits_app d r :
  digits d -> (forall b, head r = Some b -> is_digit b = false) -> span_digits (d ++ r) = (d, r).
Proof.
  intros Hd Hr. induction Hd as [|b d Hb _ IH]; cbn.
  - destruct r as [|c r]; [done|]. cbn. by rewrite (Hr c eq_refl).
  - by rewrite Hb, IH.
Qed.

(** A number without leading zeros has as many digits as its size demands. *)
Lemma integer_val_bound b l : digits (b :: l) -> b <> zero ->
  10 ^ slen l <= digits_val (b :: l) < 10 ^ (slen l + 1).
Proof.
  intros Hd Hb. inversion Hd as [|? ? Hb' Hl]; subst.
  pose proof (digits_val_bound (b :: l) Hd) as Hu. pose proof (digits_val_bound l Hl).
  unfold slen in *. cbn [length] in Hu. rewrite Nat2Z.inj_succ, <- Z.add_1_r in Hu.
  rewrite digits_val_cons in *. apply is_digit_range in Hb'. unfold slen in *.
  unfold zero in *. nia.
Qed.

(** ** Printed integers *)

Lemma pretty_char_digit x : (x < 10)%N ->
  is_digit (byte_of_ascii (pretty_N_char x)) = true /\ byte_of_ascii (pretty_N_char x) - zero = Z.of_N x.
Proof.
  intros Hx. assert (H : In x [0; 1; 2; 3; 4; 5; 6; 7; 8; 9]%N) by (cbn; lia).
  cbn in H. destruct_or!; subst; try done; split; reflexivity.
Qed.

Lemma pretty_N_go_digits x : forall s, exists l,
  bytes (pretty_N_go x s) = l ++ bytes s /\ digits l /\ digits_val l = Z.of_N x /\
  (x = 0%N -> l = []) /\ (x <> 0%N -> exists b k, l = b :: k /\ b <> zero).
Proof.
  induction (N.lt_wf_0 x) as [x _ IH]; intros s.
  destruct (decide (x = 0%N)) as [->|Hx]; [exists []; by split_and!; [|constructor| | |]|].
  rewrite pretty_N_go_step by lia.
  destruct (IH (x `div` 10)%N) with (s := String (pretty_N_char (x `mod` 10)) s) as (l & Hl & Hd & Hv & H0 & Hp).
  { apply N.div_lt; lia. }
  destruct (pretty_char_digit (x `mod` 10)) as [Hc Hz]; [by apply N.mod_lt|].
  exists (l ++ [byte_of_ascii (pretty_N_char (x `mod` 10))]). split_and!.
  - rewrite Hl, bytes_cons, <- (assoc_L (++)). done.
  - apply Forall_app. split; [done|]. by apply Forall_singleton.
  - rewrite digits_val_snoc, Hv, Hz. rewrite (N.div_mod x 10) at 3 by done. lia.
  - done.
  - intros _. destruct (decide (x `div` 10 = 0)%N) as [E|E].
    + rewrite (H0 E). eexists _, _. split; [done|]. intros Hb. rewrite Hb in Hz.
      pose proof (N.div_mod x 10 ltac:(done)). lia.
    + destruct (Hp E) as (b & k & -> & Hb). cbn. eauto.
Qed.

Lemma pretty_positive_digits (p : positive) : exists l,
  bytes (pretty p) = l /\ digits l /\ digits_val l = Zpos p /\ exists b k, l = b :: k /\ b <> zero.
Proof.
  unfold pretty, pretty_positive, pretty, pretty_N. rewrite decide_False by done.
  destruct (pretty_N_go_digits (Npos p) "") as (l & Hl & Hd & Hv & _ & Hn).
  exists l. rewrite Hl, app_nil_r. split_and!; try done. by apply Hn.
Qed.
