(* ===== verification/GoTime.v ===== *)
(** * Times (package time, as the ledger and retention use it)

    A [time.Time] is its civil fields in its own zone and the zone's offset in
    minutes, which is what [MarshalJSON] writes and [UnmarshalJSON] reads; order
    and difference are those of the instants. *)

From S2P Require Import Prelude GoStrings Digits.
Local Open Scope go_scope.
Local Open Scope string_scope.
Local Open Scope Z_scope.
Local Open Scope list_scope.

Record Time : Type := MkTime {
  Year : Z; Month : Z; Day : Z; Hour : Z; Minute : Z; Second : Z; Nanosecond : Z;
  Zone : Z (* minutes east of UTC *)
}.
#[global] Instance Time_eq_dec : EqDecision Time.
Proof. solve_decision. Defined.

(** ** Calendar *)

Definition isLeap (y : Z) : bool := (y mod 4 =? 0) && (negb (y mod 100 =? 0) || (y mod 400 =? 0)).
Definition daysIn (m y : Z) : Z := if m =? 2 then (if isLeap y then 29 else 28) else 30 + (m + m / 8) mod 2.

(** Days of the year before the first of month [m]. *)
Definition daysBefore (m y : Z) : Z := sumZ (fun i => daysIn i y) (seqZ 1 (m - 1)).
(** Days before the first of January of [y], from the first of January of year 1. *)
Definition daysBeforeYear (y : Z) : Z := 365 * (y - 1) + (y - 1) / 4 - (y - 1) / 100 + (y - 1) / 400.

(** Fields in their ranges, as every [time.Time] has them. *)
Definition civil (t : Time) : bool :=
  between 1 12 (Month t) && between 1 (daysIn (Month t) (Year t)) (Day t) && between 0 23 (Hour t) &&
  between 0 59 (Minute t) && between 0 59 (Second t) && between 0 999999999 (Nanosecond t).

(** The instant, in nanoseconds from the first of January of year 1, UTC: the
    zero value of [time.Time]. *)
Definition instant (t : Time) : Z :=
  let day := daysBeforeYear (Year t) + daysBefore (Month t) (Year t) + (Day t - 1) in
  (((day * 24 + Hour t) * 60 + Minute t - Zone t) * 60 + Second t) * 1000000000 + Nanosecond t.

Definition IsZero (t : Time) : bool := instant t =? 0.
Definition After (t u : Time) : bool := instant u <? instant t.

(** The zero [time.Time]. *)
Definition zeroTime : Time := MkTime 1 1 1 0 0 0 0 0.

Example instant_tests :
  (IsZero zeroTime, instant (MkTime 1970 1 1 0 0 0 0 0), instant (MkTime 2024 3 1 2 0 0 5 120))
  = (true, 62135596800 * 1000000000, (1709251200 + 62135596800) * 1000000000 + 5).
Proof. vm_compute. reflexivity. Qed.

(** ** RFC 3339 *)

(** The last [n] decimal digits of [x]. *)
Fixpoint padded (n : nat) (x : Z) : list Z :=
  match n with
  | O => []
  | S n' => padded n' (x / 10) ++ [zero + x mod 10]
  end.

Definition dash : Z := 0x2D.
Definition colon_byte : Z := 0x3A.
Definition dot : Z := 0x2E.
Definition plus : Z := 0x2B.
Definition char_T : Z := 0x54.
Definition char_Z : Z := 0x5A.

Definition format_fraction (nsec : Z) : list Z :=
  if nsec =? 0 then [] else dot :: trim_right (Z.eqb zero) (padded 9 nsec).
Definition format_zone (zone : Z) : list Z :=
  if zone =? 0 then [char_Z]
  else (if zone <? 0 then dash else plus) :: padded 2 (Z.abs zone / 60) ++ colon_byte :: padded 2 (Z.abs zone mod 60).

(** [Time.AppendFormat] of [time.RFC3339Nano]. *)
Definition format_time (t : Time) : list Z :=
  padded 4 (Year t) ++ dash :: padded 2 (Month t) ++ dash :: padded 2 (Day t) ++ char_T ::
  padded 2 (Hour t) ++ colon_byte :: padded 2 (Minute t) ++ colon_byte :: padded 2 (Second t) ++
  format_fraction (Nanosecond t) ++ format_zone (Zone t).

(** The text of [MarshalJSON], which refuses years of other than four digits
    and offsets of a day or more. *)
Definition MarshalTime (t : Time) : option string :=
  if between 0 9999 (Year t) && (Z.abs (Zone t) <? 24 * 60) then Some (of_bytes (format_time t)) else None.

Definition time_uint (n : nat) (lo hi : Z) (l : list Z) : option (Z * list Z) :=
  let ds := take n l in
  if (slen ds =? Z.of_nat n) && forallb is_digit ds && between lo hi (digits_val ds)
  then Some (digits_val ds, drop n l) else None.

Definition time_sep (b : Z) (l : list Z) : option (list Z) :=
  match l with c :: rest => if c =? b then Some rest else None | [] => None end.

(** [parseNanoseconds]: digits beyond the ninth are dropped. *)
Definition time_fraction (l : list Z) : Z * list Z :=
  match l with
  | p :: d :: _ =>
    if (p =? dot) && is_digit d then
      let ds := (span_digits (drop 1 l)).1 in
      (digits_val (take 9 ds) * 10 ^ (9 - slen (take 9 ds)), drop (1 + length ds) l)
    else (0, l)
  | _ => (0, l)
  end.

Definition time_zone (l : list Z) : option Z :=
  match l with
  | s :: rest =>
    if (s =? char_Z) && (slen rest =? 0) then Some 0
    else if negb ((s =? dash) || (s =? plus)) then None
    else
      '(hr, l1) ← time_uint 2 0 23 rest;
      l2 ← time_sep colon_byte l1;
      '(mm, l3) ← time_uint 2 0 59 l2;
      if negb (slen l3 =? 0) then None
      else Some (if s =? dash then - (hr * 60 + mm) else hr * 60 + mm)
  | [] => None
  end.

(** [parseRFC3339].  [UnmarshalJSON] falls back to the lenient [Parse] when this
    fails; a time it accepts only that way is spelt differently by
    [MarshalJSON]. *)
Definition parseRFC3339 (l : list Z) : option Time :=
  '(year, l) ← time_uint 4 0 9999 l;
  l ← time_sep dash l;
  '(month, l) ← time_uint 2 1 12 l;
  l ← time_sep dash l;
  '(day, l) ← time_uint 2 1 (daysIn month year) l;
  l ← time_sep char_T l;
  '(hour, l) ← time_uint 2 0 23 l;
  l ← time_sep colon_byte l;
  '(minute, l) ← time_uint 2 0 59 l;
  l ← time_sep colon_byte l;
  '(second, l) ← time_uint 2 0 59 l;
  let '(nsec, l) := time_fraction l in
  zone ← time_zone l;
  Some (MkTime year month day hour minute second nsec zone).

Definition UnmarshalTime (s : string) : option Time := parseRFC3339 (bytes s).

Example time_tests :
  map (fun s => UnmarshalTime s ≫= MarshalTime)
    ["2024-02-29T23:59:59.120Z"; "2024-02-29T23:59:59-07:30"; "2023-02-29T00:00:00Z"; "2024-01-01T00:00:00+24:00"]
  = [Some "2024-02-29T23:59:59.12Z"; Some "2024-02-29T23:59:59-07:30"; None; None].
Proof. vm_compute. reflexivity. Qed.

(** ** Round trip *)

Lemma padded_length n x : length (padded n x) = n.
Proof. revert x. induction n as [|n IH]; intros x; [done|]. cbn. rewrite length_app, IH. cbn. lia. Qed.

Lemma padded_digits n x : digits (padded n x).
Proof.
  revert x. induction n as [|n IH]; intros x; [constructor|]. apply Forall_app. split; [apply IH|].
  repeat constructor. apply is_digit_range. pose proof (Z.mod_pos_bound x 10). unfold zero. lia.
Qed.

Lemma padded_val n x : 0 <= x < 10 ^ Z.of_nat n -> digits_val (padded n x) = x.
Proof.
  revert x. induction n as [|n IH]; intros x Hx; [cbn in *; lia|]. cbn [padded].
  rewrite Nat2Z.inj_succ, Z.pow_succ_r in Hx by lia. rewrite digits_val_snoc, IH.
  - pose proof (Z.div_mod x 10). unfold zero. lia.
  - split; [apply Z.div_pos; lia|]. apply Z.div_lt_upper_bound; lia.
Qed.

Lemma time_uint_padded n lo hi x k : lo <= x <= hi -> 0 <= x < 10 ^ Z.of_nat n ->
  time_uint n lo hi (padded n x ++ k) = Some (x, k).
Proof.
  intros Hr Hx. unfold time_uint.
  rewrite take_app_length', drop_app_length' by (by rewrite padded_length). rewrite padded_val by done.
  unfold slen. rewrite padded_length, Z.eqb_refl, (proj2 (between_spec _ _ _) Hr).
  by rewrite (proj2 (forallb_true _ _) (padded_digits n x)).
Qed.

Lemma time_sep_cons b k : time_sep b (b :: k) = Some k.
Proof. cbn. by rewrite Z.eqb_refl. Qed.

Lemma digits_trim n : trim_right (Z.eqb zero) (padded n 0) = [] /\ forall x, 0 < x < 10 ^ Z.of_nat n ->
  exists d ds z, trim_right (Z.eqb zero) (padded n x) = d :: ds /\ digits (d :: ds) /\
    (length (d :: ds) + z = n)%nat /\ x = digits_val (d :: ds) * 10 ^ Z.of_nat z.
Proof.
  split.
  - destruct (trim_right _ (padded n 0)) as [|b l] eqn:E; [done|]. exfalso.
    destruct (last (b :: l)) as [c|] eqn:Ec; [|by apply last_None in Ec].
    rewrite <- E in Ec. pose proof (trim_right_last _ _ _ Ec) as Hc. apply last_Some in Ec as [l' El].
    destruct (trim_right_app (Z.eqb zero) (padded n 0)) as (suf & Es & _). rewrite El in Es.
    assert (Hall : Forall (fun b => b = zero) (padded n 0)).
    { clear. induction n as [|n IH]; [constructor|]. cbn [padded]. apply Forall_app. split; [apply IH|by repeat constructor]. }
    rewrite Es, !Forall_app, Forall_singleton in Hall. destruct Hall as [[_ ->] _]. by rewrite Z.eqb_refl in Hc.
  - intros x Hx. destruct (trim_right_app (Z.eqb zero) (padded n x)) as (suf & Es & Hs).
    pose proof (padded_digits n x) as Hd. rewrite Es in Hd. apply Forall_app in Hd as [Hd _].
    assert (Hv : x = digits_val (trim_right (Z.eqb zero) (padded n x)) * 10 ^ slen suf).
    { rewrite <- (padded_val n x) at 1 by lia. rewrite Es at 1. rewrite digits_val_app.
      rewrite (digits_val_zeros suf) by done. lia. }
    pose proof (padded_length n x) as Hl. rewrite Es, length_app in Hl.
    destruct (trim_right _ (padded n x)) as [|d ds]; [cbn in Hv; lia|]. exists d, ds, (length suf). done.
Qed.

Lemma zone_head_not_fraction zone k : exists b l, format_zone zone ++ k = b :: l /\ (b =? dot) = false /\ is_digit b = false.
Proof.
  unfold format_zone. destruct (zone =? 0); [by eexists _, _|]. destruct (zone <? 0); by eexists _, _.
Qed.

Lemma time_fraction_format nsec zone : 0 <= nsec < 1000000000 ->
  time_fraction (format_fraction nsec ++ format_zone zone) = (nsec, format_zone zone).
Proof.
  intros Hn. destruct (zone_head_not_fraction zone []) as (b & l & El & Hb & Hd). rewrite app_nil_r in El.
  unfold format_fraction. destruct (Z.eqb_spec nsec 0) as [->|Hz].
  - cbn [app]. rewrite El. unfold time_fraction. destruct l; [done|]. by rewrite Hb.
  - destruct (digits_trim 9) as [_ Ht]. destruct (Ht nsec ltac:(cbn; lia)) as (d & ds & z & -> & Hds & Hl & Hv).
    cbn [app]. unfold time_fraction. rewrite Z.eqb_refl. inversion Hds as [|? ? Hd0 _].
    rewrite Hd0. cbn [andb]. change (drop 1 (dot :: ?x)) with x.
    change (d :: ds ++ format_zone zone) with ((d :: ds) ++ format_zone zone).
    rewrite span_digits_app; [|done|rewrite El; by intros ? [= <-]]. cbn [fst].
    rewrite take_ge by lia. f_equal.
    + rewrite Hv at 1. do 2 f_equal. unfold slen. lia.
    + change (drop (1 + length (d :: ds)) (dot :: (d :: ds) ++ format_zone zone))
        with (drop (length (d :: ds)) ((d :: ds) ++ format_zone zone)). by rewrite drop_app_length.
Qed.

Lemma time_zone_format zone : Z.abs zone < 24 * 60 -> time_zone (format_zone zone) = Some zone.
Proof.
  intros Hz. unfold format_zone. destruct (Z.eqb_spec zone 0) as [->|H0]; [done|].
  assert (Hh : 0 <= Z.abs zone / 60 <= 23) by (split; [apply Z.div_pos; lia|apply Z.lt_succ_r, Z.div_lt_upper_bound; lia]).
  assert (Hm : 0 <= Z.abs zone mod 60 <= 59) by (pose proof (Z.mod_pos_bound (Z.abs zone) 60); lia).
  pose proof (Z.div_mod (Z.abs zone) 60) as Hdm. unfold time_zone.
  assert (Hp : forall s, time_uint 2 0 23 (padded 2 (Z.abs zone / 60) ++ s) = Some (Z.abs zone / 60, s))
    by (intros s; apply time_uint_padded; cbn; lia).
  assert (Hq : time_uint 2 0 59 (padded 2 (Z.abs zone mod 60)) = Some (Z.abs zone mod 60, []))
    by (rewrite <- (app_nil_r (padded _ _)); apply time_uint_padded; cbn; lia).
  destruct (Z.ltb_spec zone 0).
  - change (dash =? char_Z) with false. change (dash =? dash) with true. cbn [andb orb negb].
    rewrite Hp. cbn [mbind option_bind]. rewrite time_sep_cons. cbn [mbind option_bind]. rewrite Hq. cbn. f_equal. lia.
  - change (plus =? char_Z) with false. change (plus =? dash) with false. change (plus =? plus) with true. cbn [andb orb negb].
    rewrite Hp. cbn [mbind option_bind]. rewrite time_sep_cons. cbn [mbind option_bind]. rewrite Hq. cbn. f_equal. lia.
Qed.

Lemma civil_spec t : civil t = true <->
  1 <= Month t <= 12 /\ 1 <= Day t <= daysIn (Month t) (Year t) /\ 0 <= Hour t <= 23 /\ 0 <= Minute t <= 59 /\
  0 <= Second t <= 59 /\ 0 <= Nanosecond t <= 999999999.
Proof. unfold civil. rewrite !andb_true_iff, !between_spec. tauto. Qed.

Lemma daysIn_bound m y : daysIn m y <= 31.
Proof. unfold daysIn. destruct (m =? 2); [destruct (isLeap y); lia|]. pose proof (Z.mod_pos_bound (m + m / 8) 2). lia. Qed.

Lemma format_time_ascii t : Forall (fun b => 0 < b < 0x80) (format_time t).
Proof.
  assert (Hd : forall l, digits l -> Forall (fun b => 0 < b < 0x80) l).
  { intros l H. eapply Forall_impl; [exact H|]. intros b Hb%is_digit_range. unfold zero in *. lia. }
  assert (Hp : forall n x, Forall (fun b => 0 < b < 0x80) (padded n x)) by (intros; apply Hd, padded_digits).
  assert (Hs : forall c, (0 <? c) && (c <? 0x80) = true -> 0 < c < 0x80) by (intros; lia).
  unfold format_time, format_fraction, format_zone.
  repeat first [apply Hp | (apply Forall_app; split) | (apply Forall_cons; split; [by apply Hs|])].
  - destruct (_ =? 0); [constructor|]. apply Forall_cons. split; [by apply Hs|].
    destruct (trim_right_app (Z.eqb zero) (padded 9 (Nanosecond t))) as (suf & E & _).
    pose proof (Hp 9%nat (Nanosecond t)) as H. rewrite E in H. by apply Forall_app in H as [H _].
  - destruct (_ =? 0); [apply Forall_singleton; by apply Hs|]. destruct (_ <? 0);
      repeat first [apply Hp | (apply Forall_app; split) | (apply Forall_cons; split; [by apply Hs|])].
Qed.

Lemma bytes_format_time t : bytes (of_bytes (format_time t)) = format_time t.
Proof.
  apply bytes_of_bytes. eapply Forall_impl; [apply format_time_ascii|]. intros b [? ?]. unfold is_byte. lia.
Qed.

Lemma UnmarshalTime_MarshalTime t s : civil t = true -> MarshalTime t = Some s -> UnmarshalTime s = Some t.
Proof.
  intros (Hmo & Hda & Hho & Hmi & Hse & Hns)%civil_spec. unfold MarshalTime.
  destruct (between 0 9999 (Year t)) eqn:Hy; [|done]. destruct (Z.ltb_spec (Z.abs (Zone t)) (24 * 60)) as [Hz|]; [|done].
  intros [= <-]. apply between_spec in Hy. unfold UnmarshalTime. rewrite bytes_format_time.
  unfold parseRFC3339, format_time. pose proof (daysIn_bound (Month t) (Year t)).
  repeat first [rewrite time_uint_padded by (cbn; lia) | rewrite time_sep_cons]; cbn [mbind option_bind].
  repeat (rewrite ?time_uint_padded by (cbn; lia); rewrite ?time_sep_cons; cbn [mbind option_bind]).
  rewrite time_fraction_format by lia. rewrite time_zone_format by done. cbn [mbind option_bind]. by destruct t.
Qed.
