(* ===== verification/Fsm.v ===== *)
(** * The AgentRun lifecycle (src/v3/internal/fsm)

    [agentrun.go] keeps an event table and the functions that consult it;
    [fsm.go] keeps the phase-to-phase checks on the same table.  Phases and
    events are Go string types, so an arbitrary string may reach any of these
    functions: [Phase] and [Event] are [string], and the declared values are
    constants.  The inductive relation [lifecycle] is the abstract contract,
    written without the table; the theorems relate the table-driven functions
    to it. *)

From S2P Require Import Prelude.
Local Open Scope go_scope.
Local Open Scope string_scope.
Local Open Scope list_scope.

Definition Phase := string.

Definition PhasePending : Phase := "Pending".
Definition PhaseCloning : Phase := "Cloning".
Definition PhaseWorking : Phase := "Working".
Definition PhaseCapturing : Phase := "Capturing".
Definition PhaseVerifying : Phase := "Verifying".
Definition PhaseGated : Phase := "Gated".
Definition PhasePublishing : Phase := "Publishing".
Definition PhaseSucceeded : Phase := "Succeeded".
Definition PhaseRejected : Phase := "Rejected".
Definition PhaseFailed : Phase := "Failed".
Definition PhaseCancelled : Phase := "Cancelled".
Definition PhaseUnknownEffect : Phase := "UnknownEffect".

Definition Event := string.

Definition EventStartCloning : Event := "start-cloning".
Definition EventCloneSucceeded : Event := "clone-succeeded".
Definition EventWorkSucceeded : Event := "work-succeeded".
Definition EventCaptureSucceeded : Event := "capture-succeeded".
Definition EventVerifySucceeded : Event := "verify-succeeded".
Definition EventGateAccepted : Event := "gate-accepted".
Definition EventGateRejected : Event := "gate-rejected".
Definition EventShadowRejected : Event := "shadow-rejected-publish".
Definition EventSucceededNoPublish : Event := "succeeded-without-publish".
Definition EventPublishSucceeded : Event := "publish-succeeded".
Definition EventShadowPublished : Event := "shadow-publish-succeeded".
Definition EventFailed : Event := "failed".
Definition EventCancelled : Event := "cancelled".
Definition EventUnknownEffect : Event := "unknown-effect".

(** The package's sentinel errors, and the three unnamed errors that
    [ValidateTransition] builds with [fmt.Errorf]. *)
Inductive error : Type :=
| ErrInvalidPhase
| ErrInvalidTransition
| ErrTerminalPhase
| ErrUnknownEvent
| ErrUnknownPhases
| ErrFromTerminal
| ErrNotAllowed.

#[global] Instance error_eq_dec : EqDecision error.
Proof. solve_decision. Defined.

Record EventTransition : Type := {
  From : Phase;
  Evt : Event;
  To : Phase
}.

Definition row (f : Phase) (e : Event) (t : Phase) : EventTransition :=
  {| From := f; Evt := e; To := t |}.

(** The literal of [transitionTable], before [init] extends it. *)
Definition transitionRows : list EventTransition :=
  [ row PhasePending EventStartCloning PhaseCloning;
    row PhaseCloning EventCloneSucceeded PhaseWorking;
    row PhaseWorking EventWorkSucceeded PhaseCapturing;
    row PhaseCapturing EventCaptureSucceeded PhaseVerifying;
    row PhaseVerifying EventVerifySucceeded PhaseGated;
    row PhaseVerifying EventGateRejected PhaseRejected;
    row PhaseGated EventGateAccepted PhasePublishing;
    row PhaseGated EventGateRejected PhaseRejected;
    row PhaseGated EventShadowRejected PhasePublishing;
    row PhaseGated EventSucceededNoPublish PhaseSucceeded;
    row PhasePublishing EventPublishSucceeded PhaseSucceeded;
    row PhasePublishing EventShadowPublished PhaseRejected;
    row PhasePublishing EventUnknownEffect PhaseUnknownEffect ].

Definition activePhases : list Phase :=
  [ PhasePending; PhaseCloning; PhaseWorking; PhaseCapturing; PhaseVerifying;
    PhaseGated; PhasePublishing ].

(** The rows [init] appends for one active phase. *)
Definition init_rows (phase : Phase) : list EventTransition :=
  [ row phase EventFailed PhaseFailed; row phase EventCancelled PhaseCancelled ]
  ++ (if phase !=? PhasePublishing
      then [ row phase EventUnknownEffect PhaseUnknownEffect ] else []).

(** The table after package initialisation; [TransitionTable] returns a copy
    of it. *)
Definition transitionTable : list EventTransition :=
  transitionRows ++ flat_map init_rows activePhases.

Definition IsKnownPhase (phase : Phase) : bool :=
  bool_decide (phase ∈
    [ PhasePending; PhaseCloning; PhaseWorking; PhaseCapturing; PhaseVerifying;
      PhaseGated; PhasePublishing; PhaseSucceeded; PhaseRejected; PhaseFailed;
      PhaseCancelled; PhaseUnknownEffect ]).

Definition IsTerminal (phase : Phase) : bool :=
  bool_decide (phase ∈
    [ PhaseSucceeded; PhaseRejected; PhaseFailed; PhaseCancelled; PhaseUnknownEffect ]).

Definition ValidatePhase (phase : Phase) : option error :=
  if negb (IsKnownPhase phase) then Some ErrInvalidPhase else None.

Definition IsActive (phase : Phase) : bool := IsKnownPhase phase && negb (IsTerminal phase).

Definition knownEvent (event : Event) : bool :=
  bool_decide (event ∈
    [ EventStartCloning; EventCloneSucceeded; EventWorkSucceeded; EventCaptureSucceeded;
      EventVerifySucceeded; EventGateAccepted; EventGateRejected; EventShadowRejected;
      EventSucceededNoPublish; EventPublishSucceeded; EventShadowPublished; EventFailed;
      EventCancelled; EventUnknownEffect ]).

(** [Apply] returns the new phase and a nil error, or the unchanged phase and
    an error. *)
Definition Apply (phase : Phase) (event : Event) : Phase * option error :=
  match ValidatePhase phase with
  | Some err => (phase, Some err)
  | None =>
    if IsTerminal phase then (phase, Some ErrTerminalPhase)
    else
      match find (fun t => (From t =?= phase) && (Evt t =?= event)) transitionTable with
      | Some t => (To t, None)
      | None =>
        if negb (knownEvent event) then (phase, Some ErrUnknownEvent)
        else (phase, Some ErrInvalidTransition)
      end
  end.

Definition CanTransition (from to : Phase) : bool :=
  if negb (IsKnownPhase from) || negb (IsKnownPhase to) then false
  else if from =?= to then negb (IsTerminal from)
  else existsb (fun t => (From t =?= from) && (To t =?= to)) transitionTable.

Definition ValidateTransition (from to : Phase) : option error :=
  if negb (IsKnownPhase from) || negb (IsKnownPhase to) then Some ErrUnknownPhases
  else if CanTransition from to then None
  else if IsTerminal from then Some ErrFromTerminal
  else Some ErrNotAllowed.

Definition Transition (from to : Phase) : Phase * option error :=
  match ValidateTransition from to with
  | Some err => (from, Some err)
  | None => (to, None)
  end.

(** [TransitionTo] wraps the unnamed error in a sentinel. *)
Definition TransitionTo (from to : Phase) : option error :=
  match ValidatePhase from with
  | Some err => Some err
  | None =>
    match ValidatePhase to with
    | Some err => Some err
    | None =>
      match ValidateTransition from to with
      | Some _ => if IsTerminal from then Some ErrTerminalPhase else Some ErrInvalidTransition
      | None => None
      end
    end
  end.

(** The in-memory façade.  A method receiver may be nil. *)
Record Machine : Type := { phase : Phase }.

Definition New (initial : Phase) : result error Machine :=
  match ValidatePhase initial with
  | Some err => Err err
  | None => Ok {| phase := initial |}
  end.

Definition Machine_Phase (m : option Machine) : Phase :=
  match m with
  | None => ""
  | Some m => phase m
  end.

Definition Machine_Apply (m : option Machine) (event : Event) : option Machine * option error :=
  match m with
  | None => (None, Some ErrInvalidPhase)
  | Some m =>
    match Apply (phase m) event with
    | (_, Some err) => (Some m, Some err)
    | (next, None) => (Some {| phase := next |}, None)
    end
  end.

Definition Machine_Cancel (m : option Machine) := Machine_Apply m EventCancelled.
Definition Machine_MarkUnknownEffect (m : option Machine) := Machine_Apply m EventUnknownEffect.

(** A controller that feeds a sequence of observed events to a machine, and
    the events the machine accepted. *)
Fixpoint drive (m : option Machine) (events : list Event) : option Machine * list Event :=
  match events with
  | [] => (m, [])
  | e :: rest =>
    match Machine_Apply m e with
    | (m', None) => let '(m'', accepted) := drive m' rest in (m'', e :: accepted)
    | (m', Some _) => drive m' rest
    end
  end.

(** ** The abstract contract *)

Inductive lifecycle : Phase -> Event -> Phase -> Prop :=
| lc_start : lifecycle PhasePending EventStartCloning PhaseCloning
| lc_clone : lifecycle PhaseCloning EventCloneSucceeded PhaseWorking
| lc_work : lifecycle PhaseWorking EventWorkSucceeded PhaseCapturing
| lc_capture : lifecycle PhaseCapturing EventCaptureSucceeded PhaseVerifying
| lc_verify : lifecycle PhaseVerifying EventVerifySucceeded PhaseGated
| lc_reject p : p ∈ [PhaseVerifying; PhaseGated] ->
    lifecycle p EventGateRejected PhaseRejected
| lc_publish e : e ∈ [EventGateAccepted; EventShadowRejected] ->
    lifecycle PhaseGated e PhasePublishing
| lc_no_publish : lifecycle PhaseGated EventSucceededNoPublish PhaseSucceeded
| lc_published : lifecycle PhasePublishing EventPublishSucceeded PhaseSucceeded
| lc_shadow : lifecycle PhasePublishing EventShadowPublished PhaseRejected
| lc_fail p : IsActive p = true -> lifecycle p EventFailed PhaseFailed
| lc_cancel p : IsActive p = true -> lifecycle p EventCancelled PhaseCancelled
| lc_unknown p : IsActive p = true -> lifecycle p EventUnknownEffect PhaseUnknownEffect.

(** Accepted event sequences, and where they lead. *)
Inductive lifecycle_trace : Phase -> list Event -> Phase -> Prop :=
| lt_nil p : lifecycle_trace p [] p
| lt_cons p e q es r : lifecycle p e q -> lifecycle_trace q es r -> lifecycle_trace p (e :: es) r.

(** Position of a phase on the way to a terminal one. *)
Definition rank (p : Phase) : nat :=
  match list_find (fun q => q = p) activePhases with
  | Some (i, _) => 7 - i
  | None => 0
  end.

(** ** Lemmas *)

(** Enumerates the members of a concrete list. *)
Ltac enum H :=
  repeat (apply list_elem_of_In in H; cbn in H);
  repeat destruct H as [H|H]; try contradiction.

Lemma active_elem p : IsActive p = true <-> p ∈ activePhases.
Proof.
  unfold IsActive, IsKnownPhase, IsTerminal. split; intros H.
  - breflect. destruct H as [Hk Ht]. enum Hk; subst; first [by repeat constructor | by destruct Ht; repeat constructor].
  - enum H; subst; reflexivity.
Qed.

Lemma table_lifecycle t : t ∈ transitionTable -> lifecycle (From t) (Evt t) (To t).
Proof.
  revert t. apply Forall_forall. cbv [transitionTable].
  repeat constructor.
Qed.

Lemma lifecycle_active p e q : lifecycle p e q -> IsActive p = true.
Proof.
  inversion 1 as [| | | | |? Hin|? Hin| | | | | |]; subst; try done.
  enum Hin; subst; done.
Qed.

Lemma Apply_lifecycle p e q : Apply p e = (q, None) <-> lifecycle p e q.
Proof.
  split.
  - unfold Apply. destruct (ValidatePhase p); [done|].
    destruct (IsTerminal p); [done|].
    destruct (find _ _) as [t|] eqn:Hf; [|by destruct (negb _)].
    intros [= <-]. apply find_some_elem in Hf as [Hin Hg]. breflect.
    destruct Hg as [<- <-]. by apply table_lifecycle.
  - intros H. inversion H; subst; try reflexivity;
      match goal with
      | Hin : _ ∈ _ |- _ => enum Hin; subst; reflexivity
      | Ha : IsActive _ = true |- _ =>
          apply active_elem in Ha; enum Ha; subst; reflexivity
      end.
Qed.

Lemma Apply_error_unchanged p e q err : Apply p e = (q, Some err) -> q = p.
Proof. unfold Apply, ValidatePhase. repeat split_guard; try (by intros [= <-]); repeat case_match; congruence. Qed.

Lemma lifecycle_rank p e q : lifecycle p e q -> (rank q < rank p)%nat.
Proof.
  intros H. inversion H; subst; try (vm_compute; lia);
    match goal with
    | Hin : _ ∈ _ |- _ => enum Hin; subst; vm_compute; lia
    | Ha : IsActive _ = true |- _ => apply active_elem in Ha; enum Ha; subst; vm_compute; lia
    end.
Qed.

Lemma trace_length p es q : lifecycle_trace p es q -> (length es + rank q <= rank p)%nat.
Proof.
  induction 1 as [|p e q es r Hs _ IH]; cbn; [lia|].
  apply lifecycle_rank in Hs. lia.
Qed.

Lemma drive_trace m events m' acc :
  drive (Some m) events = (m', acc) ->
  exists q, m' = Some {| phase := q |} /\ lifecycle_trace (phase m) acc q.
Proof.
  revert m m' acc. induction events as [|e rest IH]; intros m m' acc; cbn.
  - intros [= <- <-]. exists (phase m). destruct m. split; [done|constructor].
  - destruct (Apply (phase m) e) as [next [err|]] eqn:Ha.
    + intros Hd. by apply IH in Hd.
    + destruct (drive _ rest) as [m'' acc'] eqn:Hd. intros [= <- <-].
      apply IH in Hd as (q & -> & Ht). exists q. split; [done|].
      econstructor; [by apply Apply_lifecycle | done].
Qed.

Lemma rank_bound p : (rank p <= 7)%nat.
Proof. unfold rank. case_match; [case_match; lia | lia]. Qed.

Lemma terminal_not_active p : IsTerminal p = true -> IsActive p = false.
Proof. unfold IsActive. intros ->. by rewrite andb_false_r. Qed.

Lemma terminal_trace p es q : IsTerminal p = true -> lifecycle_trace p es q -> es = [] /\ q = p.
Proof.
  intros Ht. inversion 1 as [|? e q' es' ? Hs]; subst; [done|].
  apply lifecycle_active in Hs. rewrite terminal_not_active in Hs by done. discriminate.
Qed.

(** The continuations of a phase, computed from the table. *)
Definition steps (p : Phase) : list (Event * Phase) :=
  map (fun t => (Evt t, To t)) (filter (fun t => From t = p) transitionTable).

Lemma lifecycle_steps p e q : lifecycle p e q -> (e, q) ∈ steps p.
Proof.
  intros H. assert (Ha := lifecycle_active _ _ _ H).
  apply Apply_lifecycle in H. unfold Apply in H.
  destruct (ValidatePhase p); [done|]. destruct (IsTerminal p); [done|].
  destruct (find _ _) as [t|] eqn:Hf; [|by destruct (negb _)].
  injection H as <-. apply find_some_elem in Hf as [Hin Hg]. breflect.
  destruct Hg as [Hp <-]. apply list_elem_of_fmap. exists t.
  split; [done|]. by apply list_elem_of_filter.
Qed.

Lemma trace_steps p es q :
  lifecycle_trace p es q ->
  (es = [] /\ q = p) \/
  exists e p' es', es = e :: es' /\ (e, p') ∈ steps p /\ lifecycle_trace p' es' q.
Proof.
  inversion 1; subst; [by left | right]. naive_solver eauto using lifecycle_steps.
Qed.

(** Follows every accepted trace from a concrete phase. *)
Ltac follow H :=
  let e := fresh "e" in let p' := fresh "p'" in let es := fresh "es" in let Hin := fresh "Hin" in
  apply trace_steps in H as [[-> H]|(e & p' & es & -> & Hin & H)];
  [ try discriminate H
  | apply list_elem_of_In in Hin; vm_compute in Hin;
    repeat (destruct Hin as [Hin|Hin]; [injection Hin as <- <-|]); try contradiction ].

(** ** Theorems *)

(** C1. The table-driven [Apply] implements the lifecycle contract exactly:
    it succeeds with phase [q] precisely on the transitions the contract
    allows, and on any error it returns the phase it was given. *)
Theorem apply_refines_lifecycle p e :
  (forall q, Apply p e = (q, None) <-> lifecycle p e q) /\
  (forall q err, Apply p e = (q, Some err) -> q = p).
Proof.
  split; intros; [apply Apply_lifecycle | by eapply Apply_error_unchanged].
Qed.

(** Whatever events a controller feeds to a machine, in whatever order
    and with however many repetitions, at most seven are accepted: every run
    settles. *)
Theorem drive_terminates m events :
  (length (drive (Some m) events).2 <= 7)%nat.
Proof.
  destruct (drive (Some m) events) as [m' acc] eqn:Hd.
  apply drive_trace in Hd as (q & _ & Ht). apply trace_length in Ht.
  pose proof (rank_bound (phase m)). cbn. lia.
Qed.

(** A terminal phase is absorbing: no sequence of events moves a machine
    out of it, so an ambiguous external effect ([UnknownEffect]) or a
    cancellation is never retried. *)
Theorem terminal_absorbing m events (Ht : IsTerminal (phase m) = true) :
  drive (Some m) events = (Some m, []).
Proof.
  destruct (drive (Some m) events) as [m' acc] eqn:Hd.
  apply drive_trace in Hd as (q & -> & Htr).
  apply terminal_trace in Htr as [-> ->]; [|done]. by destruct m.
Qed.

Lemma terminal_absorbing_witness :
  drive (Some {| phase := PhaseUnknownEffect |}) [EventStartCloning; EventFailed]
  = (Some {| phase := PhaseUnknownEffect |}, []).
Proof. apply terminal_absorbing. reflexivity. Defined.

(** C4. No phase of verification can be skipped: a run that starts at Pending
    reaches Publishing only by cloning, working, capturing and verifying in
    that order and then a gate decision, and reaches Succeeded only through
    the same prefix. *)
Theorem publish_requires_gate events es q
  (Hd : drive (Some {| phase := PhasePending |}) events = (Some {| phase := q |}, es)) :
  let verified := [EventStartCloning; EventCloneSucceeded; EventWorkSucceeded;
                   EventCaptureSucceeded; EventVerifySucceeded] in
  (q = PhasePublishing ->
     es = verified ++ [EventGateAccepted] \/ es = verified ++ [EventShadowRejected]) /\
  (q = PhaseSucceeded ->
     es = verified ++ [EventSucceededNoPublish] \/
     es = verified ++ [EventGateAccepted; EventPublishSucceeded] \/
     es = verified ++ [EventShadowRejected; EventPublishSucceeded]).
Proof.
  apply drive_trace in Hd as (q' & [= <-] & Ht). cbn in Ht.
  split; intros ->; do 8 (try follow Ht); auto.
Qed.

Definition happy_path : list Event :=
  [EventStartCloning; EventCloneSucceeded; EventWorkSucceeded; EventCaptureSucceeded;
   EventVerifySucceeded; EventGateAccepted].

Lemma publish_requires_gate_witness :
  drive (Some {| phase := PhasePending |}) happy_path
    = (Some {| phase := PhasePublishing |}, happy_path) /\
  (happy_path = take 5 happy_path ++ [EventGateAccepted] \/
   happy_path = take 5 happy_path ++ [EventShadowRejected]).
Proof.
  split; [reflexivity|].
  exact (proj1 (publish_requires_gate happy_path happy_path PhasePublishing eq_refl) eq_refl).
Defined.

Lemma CanTransition_spec a b :
  CanTransition a b = true <->
  (a = b /\ IsActive a = true) \/ (exists e, lifecycle a e b).
Proof.
  unfold CanTransition. split.
  - destruct (negb _ || negb _) eqn:Hk; [done|]. breflect. destruct Hk as [Hka Hkb].
    split_guard; breflect.
    + intros Ht. left. split; [done|]. unfold IsActive. by rewrite Hka, Ht.
    + intros Hx. right. apply existsb_true in Hx as (t & Hin & Hg). breflect.
      destruct Hg as [<- <-]. exists (Evt t). by apply table_lifecycle.
  - intros [[-> Ha]|[e H]].
    + apply active_elem in Ha. enum Ha; subst; reflexivity.
    + assert (Ha := lifecycle_active _ _ _ H). apply lifecycle_steps in H.
      apply active_elem in Ha. enum Ha; subst;
        apply list_elem_of_In in H; vm_compute in H;
        repeat (destruct H as [H|H]; [injection H as <- <-; reflexivity|]); contradiction.
Qed.

(** Direct phase updates cannot jump the lifecycle: [Transition] accepts
    exactly the idempotent observation of an active phase and the phase pairs
    some event connects, and otherwise leaves the phase as it was. *)
Theorem transition_respects_events a b :
  ((exists q, Transition a b = (q, None)) <->
     (a = b /\ IsActive a = true) \/ (exists e, Apply a e = (b, None))) /\
  (forall q, Transition a b = (q, None) -> q = b) /\
  (forall q err, Transition a b = (q, Some err) -> q = a).
Proof.
  unfold Transition. split; [|split; intros q; case_match; congruence].
  setoid_rewrite Apply_lifecycle. rewrite <- CanTransition_spec.
  unfold ValidateTransition, CanTransition.
  destruct (negb _ || negb _) eqn:Hk.
  - split; [intros [q Hq]; discriminate | done].
  - repeat split_guard; split; intros Hx; first [done | by destruct Hx | by eexists].
Qed.

Lemma lifecycle_known_event p e q : lifecycle p e q -> knownEvent e = true.
Proof.
  inversion 1 as [| | | | |? Hin|? Hin| | | | | |]; subst; try done.
  enum Hin; subst; done.
Qed.

Lemma terminal_known p : IsTerminal p = true -> IsKnownPhase p = true.
Proof.
  unfold IsTerminal. intros H. breflect. enum H; subst; reflexivity.
Qed.

(** [Apply] as one case analysis. *)
Lemma Apply_cases p e :
  (IsKnownPhase p = false /\ Apply p e = (p, Some ErrInvalidPhase)) \/
  (IsTerminal p = true /\ Apply p e = (p, Some ErrTerminalPhase)) \/
  (IsActive p = true /\ exists q, lifecycle p e q /\ Apply p e = (q, None)) \/
  (IsActive p = true /\ (forall q, ~ lifecycle p e q) /\
     Apply p e = (p, Some (if knownEvent e then ErrInvalidTransition else ErrUnknownEvent))).
Proof.
  setoid_rewrite <- Apply_lifecycle. unfold Apply, ValidatePhase, IsActive.
  destruct (IsKnownPhase p); cbn [negb andb]; [|by left]. right.
  destruct (IsTerminal p); cbn [negb andb]; [by left|]. right.
  destruct (find _ _) as [t|]; [left; eauto|right].
  destruct (knownEvent e); cbn [negb]; (split; [done|split; [|done]]); by intros q [=].
Qed.

(** Every outcome of [Apply] is classified: an undeclared phase, a
    terminal phase, an undeclared event and a forbidden pair are the four
    errors, each reported exactly in its case, and an active phase always
    accepts failure, cancellation and the unknown-effect stop. *)
Theorem apply_outcomes p e :
  (snd (Apply p e) = Some ErrInvalidPhase <-> IsKnownPhase p = false) /\
  (snd (Apply p e) = Some ErrTerminalPhase <-> IsTerminal p = true) /\
  (snd (Apply p e) = Some ErrUnknownEvent <-> IsActive p = true /\ knownEvent e = false) /\
  (snd (Apply p e) = Some ErrInvalidTransition <->
     IsActive p = true /\ knownEvent e = true /\ forall q, ~ lifecycle p e q) /\
  (IsActive p = true <->
     Apply p EventFailed = (PhaseFailed, None) /\
     Apply p EventCancelled = (PhaseCancelled, None) /\
     Apply p EventUnknownEffect = (PhaseUnknownEffect, None)).
Proof.
  assert (Hstop : IsActive p = true <-> Apply p EventFailed = (PhaseFailed, None) /\
    Apply p EventCancelled = (PhaseCancelled, None) /\
    Apply p EventUnknownEffect = (PhaseUnknownEffect, None)).
  { rewrite !Apply_lifecycle. split; [by repeat constructor|].
    intros (H & _). by eapply lifecycle_active. }
  destruct (Apply_cases p e) as [[Hp Ha]|[[Hp Ha]|[[Hp (q & Hl & Ha)]|(Hp & Hl & Ha)]]];
    rewrite Ha; cbn; (split_and!; [.. | exact Hstop]); clear Hstop Ha;
    pose proof (terminal_known p); pose proof (terminal_not_active p);
    unfold IsActive in *; try (apply lifecycle_known_event in Hl as Hke);
    destruct (IsKnownPhase p), (IsTerminal p), (knownEvent e); naive_solver.
Qed.
