(* ===== verification/Glob.v ===== *)
(** * Repository paths and scope globs (src/v3/internal/gate/glob.go)

    [validRepoPath] is the path contract of the Gate; [compileGlob] and
    [compiledGlob.match] decide scope patterns.  The matcher of the code is a
    backtracking search over pattern and value indices with a memo table; it
    is modelled with that table, and related to the declarative relation [gm]
    on rune lists. *)

From S2P Require Import Prelude GoStrings.
Local Open Scope go_scope.
Local Open Scope Z_scope.

Definition MaxPathBytes : Z := 512.
Definition MaxPatternBytes : Z := 512.

(** Runes of the pattern language. *)
Definition star : Z := 0x2A.
Definition question : Z := 0x3F.
Definition lbracket : Z := 0x5B.
Definition rbracket : Z := 0x5D.
Definition bang : Z := 0x21.
Definition caret : Z := 0x5E.
Definition dash : Z := 0x2D.
Definition backslash : Z := 0x5C.

Definition isASCIIAlpha (b : Z) : bool := between 0x61 0x7A b || between 0x41 0x5A b.

(** [len(v) >= 2 && isASCIIAlpha(v[0]) && v[1] == ':'] *)
Definition drivePrefix (l : list Z) : bool :=
  match l with
  | b0 :: b1 :: _ => isASCIIAlpha b0 && (b1 =? 0x3A)
  | _ => false
  end.

Definition dot_component (part : list Z) : bool :=
  (part =?= []) || (part =?= [0x2E]) || (part =?= [0x2E; 0x2E]).

Definition validRepoPath (value : string) : bool :=
  let b := bytes value in
  if (value =?= "") || (MaxPathBytes <? len value) || negb (ValidString value) then false
  else if existsb (Z.eqb 0) b || existsb (Z.eqb backslash) b then false
  else if HasPrefix value "/" || drivePrefix b then false
  else if HasSuffix value "/" || Contains value "//" then false
  else forallb (fun part => negb (dot_component part)) (split_bytes slash b).

(** [classEnd(pattern, start)]: the index of the bracket that closes the class
    opened at [start]. *)
Fixpoint find_close (l : list Z) (index : nat) : option nat :=
  match l with
  | [] => None
  | r :: l' => if r =? rbracket then Some index else find_close l' (S index)
  end.

Definition class_negated (r : option Z) : bool :=
  match r with Some r => (r =? bang) || (r =? caret) | None => false end.

Definition classEnd (pattern : list Z) (start : nat) : option nat :=
  if negb (pattern !! start =?= Some lbracket) then None
  else
    let index := S start in
    let negated := class_negated (pattern !! index) in
    let index := if negated then S index else index in
    let contentStart := if negated then S (S start) else S start in
    let close i :=
      match find_close (drop i pattern) i with
      | Some e => if (contentStart <? e)%nat then Some e else None
      | None => None
      end in
    if pattern !! index =?= Some rbracket then
      (* a leading bracket is a member only when another one closes the class *)
      match find_close (drop (S index) pattern) (S index) with
      | None => None
      | Some _ => close (S index)
      end
    else close index.

(** The member loop of [classMatches]. *)
Fixpoint class_found (class : list Z) (value : Z) : bool :=
  match class with
  | [] => false
  | lo :: rest =>
    match rest with
    | d :: hi :: rest' =>
      if (d =? dash) && negb (hi =? rbracket)
      then ((lo <=? value) && (value <=? hi)) || class_found rest' value
      else (lo =? value) || class_found rest value
    | _ => (lo =? value) || class_found rest value
    end
  end.

Definition classMatches (class : list Z) (value : Z) : bool :=
  match class with
  | [] => false
  | r :: rest =>
    let negated := (r =? bang) || (r =? caret) in
    let class := if negated then rest else class in
    match class with
    | r' :: rest' =>
      if r' =? rbracket then
        if value =? rbracket then negb negated
        else xorb negated (class_found rest' value)
      else xorb negated (class_found class value)
    | [] => xorb negated (class_found class value)
    end
  end.

Inductive glob_error : Type :=
| ErrInvalidGlob
| ErrForbiddenCharacter
| ErrNotRelative
| ErrNegation
| ErrTraversal
| ErrUnterminatedClass
| ErrNul.

(** The validation loop of [compileGlob] from index [i]; the fuel bounds the
    number of iterations. *)
Fixpoint scan_pattern (fuel : nat) (runes : list Z) (i : nat) : option glob_error :=
  match fuel with
  | O => None
  | S fuel' =>
    match runes !! i with
    | None => None
    | Some r =>
      if r =? lbracket then
        match classEnd runes i with
        | None => Some ErrUnterminatedClass
        | Some e => scan_pattern fuel' runes (S e)
        end
      else if r =? 0 then Some ErrNul
      else scan_pattern fuel' runes (S i)
    end
  end.

Definition compileGlob (pattern : string) : result glob_error (list Z) :=
  let b := bytes pattern in
  if (pattern =?= "") || (MaxPatternBytes <? len pattern) || negb (ValidString pattern)
  then Err ErrInvalidGlob
  else if existsb (Z.eqb 0) b || existsb (Z.eqb backslash) b then Err ErrForbiddenCharacter
  else if HasPrefix pattern "/" || drivePrefix b || HasSuffix pattern "/" || Contains pattern "//"
  then Err ErrNotRelative
  else if HasPrefix pattern "!" then Err ErrNegation
  else if existsb dot_component (split_bytes slash b) then Err ErrTraversal
  else
    let runes := runes pattern in
    match scan_pattern (length runes) runes 0 with
    | Some e => Err e
    | None => Ok runes
    end.

(** ** The matcher *)

(** The maps [seen] and [memo] of [match]. *)
Record table : Type := {
  seen : gset (nat * nat);
  memo : gmap (nat * nat) bool
}.

Definition mark (key : nat * nat) (t : table) : table :=
  {| seen := {[key]} ∪ seen t; memo := memo t |}.
Definition record (key : nat * nat) (r : bool) (t : table) : table :=
  {| seen := seen t; memo := <[key := r]> (memo t) |}.

(** Tries the candidates in order and stops at the first success, threading
    the table. *)
Fixpoint try_each (w : nat -> table -> bool * table) (cands : list nat) (t : table) : bool * table :=
  match cands with
  | [] => (false, t)
  | next :: rest =>
    match w next t with
    | (true, t') => (true, t')
    | (false, t') => try_each w rest t'
    end
  end.

(** The number of leading stars, and what follows them. *)
Fixpoint star_run (l : list Z) : nat * list Z :=
  match l with
  | [] => (0%nat, [])
  | r :: l' => if r =? star then let '(n, rest) := star_run l' in (S n, rest) else (0%nat, l)
  end.

(** [for next := j; next <= len(value) && (next == j || value[next-1] != '/'); next++] *)
Fixpoint segment_candidates (rest : list Z) (next : nat) : list nat :=
  next :: match rest with
          | [] => []
          | r :: rest' => if r =? slash then [] else segment_candidates rest' (S next)
          end.

(** [for next := j; next < len(value); next++] with [value[next] == '/']. *)
Fixpoint slash_candidates (rest : list Z) (next : nat) : list nat :=
  match rest with
  | [] => []
  | r :: rest' =>
    if r =? slash then next :: slash_candidates rest' (S next) else slash_candidates rest' (S next)
  end.

Definition doubleStarComponent (pattern : list Z) (start fin : nat) : bool :=
  let leftBoundary := (start =? 0)%nat || (pattern !! (start - 1)%nat =?= Some slash) in
  let rightBoundary := (fin =? length pattern)%nat || (pattern !! fin =?= Some slash) in
  leftBoundary && rightBoundary.

Section Match.
Context (pattern value : list Z).

(** [walk(patternIndex, valueIndex)].  Every call strictly increases the
    pattern index, so [S (length pattern)] nested calls are enough. *)
Fixpoint walk (fuel : nat) (i j : nat) (t : table) : bool * table :=
  match fuel with
  | O => (false, t)
  | S fuel' =>
    if bool_decide ((i, j) ∈ seen t) then (default false (memo t !! (i, j)), t)
    else
      let t := mark (i, j) t in
      let '(result, t) :=
        if (i =? length pattern)%nat then ((j =? length value)%nat, t)
        else if pattern !! i =?= Some star then
          let starEnd := (i + (star_run (drop i pattern)).1)%nat in
          let double := (2 <=? starEnd - i)%nat && doubleStarComponent pattern i starEnd in
          if double && (starEnd <? length pattern)%nat && (pattern !! starEnd =?= Some slash) then
            match walk fuel' (S starEnd) j t with
            | (true, t) => (true, t)
            | (false, t) =>
              try_each (fun next t => walk fuel' (S starEnd) (S next) t)
                (slash_candidates (drop j value) j) t
            end
          else if double then
            try_each (fun next t => walk fuel' starEnd next t) (seq j (S (length value - j))) t
          else
            try_each (fun next t => walk fuel' starEnd next t)
              (segment_candidates (drop j value) j) t
        else
          match value !! j, pattern !! i with
          | Some r, Some token =>
            if token =? question then
              if negb (r =? slash) then walk fuel' (S i) (S j) t else (false, t)
            else if token =? lbracket then
              match classEnd pattern i with
              | Some e =>
                if negb (r =? slash) && classMatches (take (e - S i) (drop (S i) pattern)) r
                then walk fuel' (S e) (S j) t else (false, t)
              | None => (false, t)
              end
            else if token =? r then walk fuel' (S i) (S j) t else (false, t)
          | _, _ => (false, t)
          end in
      (result, record (i, j) result t)
  end.

Definition compiledGlob_match : bool :=
  (walk (S (length pattern)) 0 0 {| seen := ∅; memo := ∅ |}).1.
End Match.

Definition matchGlob (pattern value : string) : bool :=
  if negb (validRepoPath value) then false
  else match compileGlob pattern with
       | Err _ => false
       | Ok compiled => compiledGlob_match compiled (runes value)
       end.

Example glob_tests :
  map (fun '(p, v) => matchGlob p v)
    [("src/**", "src/a/b.go"); ("src/*.go", "src/a/b.go"); ("**/x?.go", "a/b/x1.go");
     ("[!a-c]*", "d.md"); ("a/**/z", "a/z"); ("a**b", "a/b"); ("/abs", "abs")]%string
  = [true; false; true; true; true; false; false].
Proof. vm_compute. reflexivity. Qed.

(** ** The declarative meaning of a pattern *)

(** [**] as a whole path component: at least two stars, at a component start
    ([b]), before a separator or the end. *)
Definition is_double (b : bool) (n : nat) (rest : list Z) : bool :=
  (2 <=? n)%nat && b && match rest with [] => true | r :: _ => r =? slash end.

(** [gm b p v]: pattern [p] matches value [v]; [b] says that [p] starts at a
    component boundary of the whole pattern. *)
Inductive gm : bool -> list Z -> list Z -> Prop :=
| gm_end b : gm b [] []
| gm_segment b p n rest seg v :
    star_run p = (S n, rest) -> is_double b (S n) rest = false ->
    slash ∉ seg -> gm false rest v -> gm b p (seg ++ v)
| gm_components b p n rest pre v :
    star_run p = (n, slash :: rest) -> is_double b n (slash :: rest) = true ->
    pre = [] \/ last pre = Some slash -> gm true rest v -> gm b p (pre ++ v)
| gm_everything b p n v :
    star_run p = (n, []) -> is_double b n [] = true -> gm b p v
| gm_question b p r v : r <> slash -> gm false p v -> gm b (question :: p) (r :: v)
| gm_class b p e r v :
    classEnd (lbracket :: p) 0 = Some e -> r <> slash ->
    classMatches (take (e - 1) p) r = true -> gm false (drop e p) v ->
    gm b (lbracket :: p) (r :: v)
| gm_literal b c p v :
    c ∉ [star; question; lbracket] -> gm (c =? slash) p v -> gm b (c :: p) (c :: v).

(** ** The matcher implements the relation *)

Lemma star_run_spec l n rest :
  star_run l = (n, rest) -> l = replicate n star ++ rest /\ rest !! 0%nat <> Some star.
Proof.
  revert n rest. induction l as [|r l IH]; intros n rest; cbn.
  - by intros [= <- <-].
  - destruct (Z.eqb_spec r star) as [->|Hr].
    + destruct (star_run l) as [m rest'] eqn:E. intros [= <- <-].
      destruct (IH _ _ eq_refl) as [-> Hn]. done.
    + intros [= <- <-]. cbn. split; [done|]. congruence.
Qed.

Lemma star_run_drop l n rest : star_run l = (n, rest) -> drop n l = rest /\ (n <= length l)%nat.
Proof.
  intros H. apply star_run_spec in H as [-> _]. split.
  - by rewrite drop_app_length' by (by rewrite length_replicate).
  - rewrite length_app, length_replicate. lia.
Qed.

Lemma star_run_head l n rest r : star_run l = (S n, rest) -> l !! 0%nat = Some r -> r = star.
Proof. intros Hs. apply star_run_spec in Hs as [-> _]. cbn. congruence. Qed.

Lemma find_close_shift l k i :
  find_close l (i + k)%nat = (fun e => (i + e)%nat) <$> find_close l k.
Proof.
  revert k. induction l as [|r l IH]; intros k; cbn; [done|].
  case_match; [done|]. rewrite <- IH. f_equal. lia.
Qed.

Lemma find_close_bound l k e : find_close l k = Some e -> (k <= e < k + length l)%nat.
Proof.
  revert k. induction l as [|r l IH]; intros k; cbn; [done|].
  case_match; [intros [= <-]; lia|]. intros Hc%IH. lia.
Qed.

Lemma classEnd_shift p i :
  classEnd p i = (fun e => (i + e)%nat) <$> classEnd (drop i p) 0.
Proof.
  unfold classEnd. rewrite !lookup_drop, Nat.add_0_r.
  case_match; [done|]. cbv zeta.
  replace (i + 1)%nat with (S i) by lia.
  set (ng := class_negated (p !! S i)).
  replace (drop i p !! (if ng then 2 else 1)%nat) with (p !! (if ng then S (S i) else S i))
    by (rewrite lookup_drop; destruct ng; f_equal; lia).
  rewrite !drop_drop.
  replace (i + S (if ng then 2 else 1))%nat with (S (if ng then S (S i) else S i))
    by (destruct ng; lia).
  replace (i + (if ng then 2 else 1))%nat with (if ng then S (S i) else S i)
    by (destruct ng; lia).
  assert (Hs : forall l k k' c c', k = (i + k')%nat -> c = (i + c')%nat ->
    match find_close l k with
    | Some e => if (c <? e)%nat then Some e else None | None => None end =
    (fun e => (i + e)%nat) <$>
    match find_close l k' with
    | Some e => if (c' <? e)%nat then Some e else None | None => None end).
  { intros l k k' c c' -> ->. rewrite find_close_shift.
    destruct (find_close l k') as [e|]; [|done]. cbn.
    destruct (Nat.ltb_spec c' e), (Nat.ltb_spec (i + c') (i + e)); try done; lia. }
  case_match.
  - set (l := drop _ p).
    rewrite (Hs l _ (S (if ng then 2 else 1)) _ (if ng then 2 else 1))%nat by (destruct ng; lia).
    replace (S (if ng then S (S i) else S i)) with (i + S (if ng then 2 else 1))%nat
      by (destruct ng; lia).
    rewrite find_close_shift. by destruct (find_close l _).
  - apply Hs; destruct ng; lia.
Qed.

Lemma classEnd_bound p i e : classEnd p i = Some e -> (i < e < length p)%nat.
Proof.
  unfold classEnd. case_match; [done|]. cbv zeta.
  assert (Hb : forall k c n, find_close (drop k p) k = Some n ->
    (if (c <? n)%nat then Some n else None) = Some e -> (c < e < length p)%nat).
  { intros k c n E. apply find_close_bound in E. rewrite length_drop in E.
    destruct (Nat.ltb_spec c n); [intros [= <-]; lia | done]. }
  destruct (bool_decide (_ = Some rbracket));
    (destruct (find_close _ _) eqn:E; [|done]); intros Hx;
    apply (Hb _ _ _ E) in Hx; destruct (class_negated _); lia.
Qed.

Lemma find_close_lookup l k e : find_close l k = Some e -> l !! (e - k)%nat = Some rbracket.
Proof.
  revert k. induction l as [|r l IH]; intros k; cbn; [done|].
  destruct (Z.eqb_spec r rbracket) as [->|].
  - intros [= <-]. by rewrite Nat.sub_diag.
  - intros Hc. assert (Hb := find_close_bound _ _ _ Hc). apply IH in Hc.
    by replace (e - k)%nat with (S (e - S k)) by lia.
Qed.

Lemma classEnd_lookup p i e : classEnd p i = Some e -> p !! e = Some rbracket.
Proof.
  unfold classEnd. case_match; [done|]. cbv zeta.
  assert (Hb : forall k c n, find_close (drop k p) k = Some n ->
    (if (c <? n)%nat then Some n else None) = Some e -> p !! e = Some rbracket).
  { intros k c n E. assert (Hk := find_close_bound _ _ _ E). apply find_close_lookup in E.
    rewrite lookup_drop in E. replace (k + (n - k))%nat with n in E by lia.
    case_match; congruence. }
  destruct (bool_decide (_ = Some rbracket));
    (destruct (find_close _ _) eqn:E; [|done]); apply (Hb _ _ _ E).
Qed.

(** Inversion of [gm], by the shape of the pattern. *)

Lemma gm_nil_iff b v : gm b [] v <-> v = [].
Proof.
  split; [|intros ->; constructor].
  inversion 1 as [ |??????? Hs|??????? Hs|???? Hs Hd| | | ]; subst; cbn in *; try done.
  by injection Hs as <-.
Qed.

(** Compares two runs of stars read off the same pattern. *)
Ltac inv_run :=
  repeat match goal with
  | H : star_run (?c :: _) = _ |- _ =>
      cbn in H; destruct (Z.eqb_spec c star); simplify_eq; try done
  | H : star_run ?p = _, H' : star_run ?p = _ |- _ => rewrite H in H'; simplify_eq
  | H : star_run (?c :: _) = _ |- _ => cbn in H; simplify_eq
  | H : is_double _ 0 _ = true |- _ => discriminate H
  | H : star_run [] = (S _, _) |- _ => discriminate H
  | H : ?c ∉ _ |- _ => progress (try (destruct H; repeat constructor; done))
  end.

Lemma gm_star_iff b p n rest v :
  star_run p = (S n, rest) ->
  gm b p v <->
  if is_double b (S n) rest then
    match rest with
    | [] => True
    | _ :: rest' => exists pre v', v = pre ++ v' /\ (pre = [] \/ last pre = Some slash) /\ gm true rest' v'
    end
  else exists seg v', v = seg ++ v' /\ slash ∉ seg /\ gm false rest v'.
Proof.
  intros Hs. split.
  - intros Hg. inversion Hg; subst; inv_run;
      try match goal with Hd : is_double _ _ _ = _ |- _ => rewrite Hd end; eauto.
  - destruct (is_double b (S n) rest) eqn:Hd.
    + destruct rest as [|r rest]; [by eauto using gm|].
      unfold is_double in Hd. apply andb_true_iff in Hd as Hr. destruct Hr as [_ Hr%Z.eqb_eq].
      subst r. intros (pre & v' & -> & Hpre & Hv). eauto using gm.
    + intros (seg & v' & -> & Hseg & Hv). eauto using gm.
Qed.

(** What one token other than a star consumes. *)
Definition token_step (c : Z) (p : list Z) (r : Z) (v : list Z) : Prop :=
  if c =? question then r <> slash /\ gm false p v
  else if c =? lbracket then
    exists e, classEnd (c :: p) 0 = Some e /\ r <> slash /\
      classMatches (take (e - 1) p) r = true /\ gm false (drop e p) v
  else c = r /\ gm (c =? slash) p v.

Lemma gm_token_iff b c p v :
  c <> star -> gm b (c :: p) v <-> exists r v', v = r :: v' /\ token_step c p r v'.
Proof.
  intros Hc. unfold token_step. split.
  - intros Hg. inversion Hg; subst; inv_run; eexists _, _; (split; [done|]).
    + by rewrite Z.eqb_refl.
    + change (lbracket =? question) with false. rewrite Z.eqb_refl. eauto.
    + destruct (Z.eqb_spec c question), (Z.eqb_spec c lbracket); try done; set_solver.
  - intros (r & v' & -> & H). destruct (Z.eqb_spec c question) as [->|Hq].
    + destruct H. by constructor.
    + destruct (Z.eqb_spec c lbracket) as [->|Hb].
      * destruct H as (e & ? & ? & ? & ?). by eapply gm_class.
      * destruct H as [-> Hv]. constructor; [|done].
        rewrite !not_elem_of_cons. split_and!; try done. apply not_elem_of_nil.
Qed.

Lemma ex_Some_eq {A : Type} (x : A) (P : A -> Prop) :
  (exists y, Some x = Some y /\ P y) <-> P x.
Proof. naive_solver. Qed.

Section MatchSpec.
Context (pattern value : list Z).

Definition boundary (i : nat) : bool :=
  (i =? 0)%nat || (pattern !! (i - 1)%nat =?= Some slash).
Definition spec (i j : nat) : Prop := gm (boundary i) (drop i pattern) (drop j value).

(** Every key of [seen] is settled with the right answer, or belongs to a
    call that is still open. *)
Definition table_ok (open : nat * nat -> Prop) (t : table) : Prop :=
  forall k, k ∈ seen t ->
    (exists b, memo t !! k = Some b /\ (b = true <-> spec k.1 k.2)) \/ open k.

Definition answers (open : nat * nat -> Prop) (P : Prop) (o : bool * table) : Prop :=
  (o.1 = true <-> P) /\ table_ok open o.2.

Lemma answers_false open (P : Prop) t : table_ok open t -> ~ P -> answers open P (false, t).
Proof. intros Ht HP. split; cbn; [split; done | done]. Qed.

Lemma answers_iff open (P Q : Prop) o : (P <-> Q) -> answers open P o -> answers open Q o.
Proof. unfold answers. tauto. Qed.

Lemma try_each_answers open (P : nat -> Prop) w cands t :
  table_ok open t ->
  (forall n t', n ∈ cands -> table_ok open t' -> answers open (P n) (w n t')) ->
  answers open (exists n, n ∈ cands /\ P n) (try_each w cands t).
Proof.
  revert t. induction cands as [|n cands IH]; intros t Ht Hw; cbn.
  - apply answers_false; [done|]. intros (n & Hn & _). by apply not_elem_of_nil in Hn.
  - specialize (Hw n t) as Hn. destruct Hn as [Hr Ht']; [by constructor|done|].
    destruct (w n t) as [[] t']; cbn in *.
    + split; cbn; [|done]. split; [|done]. intros _. exists n. split; [by constructor|by apply Hr].
    + eapply answers_iff; [|apply IH; [done|]].
      * setoid_rewrite elem_of_cons. naive_solver.
      * intros m t'' Hm. apply Hw. by constructor.
Qed.

Lemma segment_candidates_spec l k n :
  n ∈ segment_candidates l k <->
  (k <= n <= k + length l)%nat /\ slash ∉ take (n - k) l.
Proof.
  revert k. induction l as [|r l IH]; intros k; cbn [segment_candidates].
  - rewrite list_elem_of_singleton. cbn. rewrite take_nil. split; [intros ->|].
    + split; [lia|apply not_elem_of_nil].
    + lia.
  - rewrite elem_of_cons. destruct (Z.eqb_spec r slash) as [->|Hr].
    + split.
      * intros [->|Hn]; [|by apply not_elem_of_nil in Hn].
        split; [cbn; lia|]. rewrite Nat.sub_diag. apply not_elem_of_nil.
      * intros [Hb Hn]. destruct (n - k)%nat eqn:E; [left; lia|].
        exfalso. apply Hn. cbn. constructor.
    + rewrite IH. cbn [length]. split.
      * intros [->|[Hb Hn]]; [split; [lia|rewrite Nat.sub_diag; apply not_elem_of_nil]|].
        split; [lia|]. replace (n - k)%nat with (S (n - S k)) by lia. cbn.
        by rewrite not_elem_of_cons.
      * intros [Hb Hn]. destruct (decide (n = k)) as [->|]; [by left|right].
        split; [lia|]. replace (n - k)%nat with (S (n - S k)) in Hn by lia. cbn in Hn.
        by apply not_elem_of_cons in Hn as [_ ?].
Qed.

Lemma slash_candidates_spec l k n :
  n ∈ slash_candidates l k <-> (k <= n)%nat /\ l !! (n - k)%nat = Some slash.
Proof.
  revert k. induction l as [|r l IH]; intros k; cbn [slash_candidates].
  - rewrite lookup_nil. split; [intros H; by apply not_elem_of_nil in H | by intros [_ ?]].
  - assert (Hs : (S k <= n)%nat /\ l !! (n - S k)%nat = Some slash <->
                 (k <= n)%nat /\ n <> k /\ (r :: l) !! (n - k)%nat = Some slash).
    { split; intros H; destruct_and?.
      - replace (n - k)%nat with (S (n - S k)) by lia. cbn. split_and!; [lia..|done].
      - replace (n - k)%nat with (S (n - S k)) in * by lia. cbn in *. split; [lia|done]. }
    destruct (Z.eqb_spec r slash) as [->|Hr]; [rewrite elem_of_cons|]; rewrite IH, Hs.
    + destruct (decide (n = k)) as [->|]; [|naive_solver].
      rewrite Nat.sub_diag. naive_solver.
    + destruct (decide (n = k)) as [->|]; [|naive_solver].
      rewrite Nat.sub_diag. cbn. naive_solver congruence.
Qed.

Lemma boundary_S i r : pattern !! i = Some r -> boundary (S i) = (r =? slash).
Proof.
  intros Hr. unfold boundary. rewrite (Nat.sub_0_r i : (S i - 1 = i)%nat), Hr. cbn.
  destruct (Z.eqb_spec r slash) as [->|]; [by apply bool_decide_eq_true|].
  apply bool_decide_eq_false. congruence.
Qed.

Lemma star_run_lookup i n rest k :
  star_run (drop i pattern) = (n, rest) -> (k < n)%nat -> pattern !! (i + k)%nat = Some star.
Proof.
  intros [Hd _]%star_run_spec Hk. rewrite <- lookup_drop, Hd, lookup_app_l.
  - by apply lookup_replicate_2.
  - by rewrite length_replicate.
Qed.

Lemma double_is_double i n rest :
  star_run (drop i pattern) = (S n, rest) ->
  (2 <=? i + S n - i)%nat && doubleStarComponent pattern i (i + S n) =
  is_double (boundary i) (S n) rest.
Proof.
  intros Hs. apply star_run_drop in Hs as [Hd Hl]. rewrite length_drop in Hl.
  rewrite drop_drop in Hd. unfold doubleStarComponent, is_double, boundary.
  replace (i + S n - i)%nat with (S n) by lia. rewrite andb_assoc. f_equal.
  pose proof (lookup_drop pattern (i + S n) 0) as Hlk. rewrite Hd, Nat.add_0_r in Hlk.
  destruct rest as [|r rest]; cbn in Hlk; rewrite <- Hlk.
  - apply (f_equal length) in Hd. rewrite length_drop in Hd. cbn in Hd.
    apply orb_true_iff. left. apply Nat.eqb_eq. lia.
  - rewrite (proj2 (Nat.eqb_neq _ _)).
    + cbn. destruct (Z.eqb_spec r slash) as [->|]; [by apply bool_decide_eq_true|].
      apply bool_decide_eq_false. congruence.
    + apply (f_equal length) in Hd. rewrite length_drop in Hd. cbn in Hd. lia.
Qed.

Lemma boundary_after_stars i n rest :
  star_run (drop i pattern) = (S n, rest) -> boundary (i + S n) = false.
Proof.
  intros Hs. rewrite Nat.add_succ_r. erewrite boundary_S; [|eapply star_run_lookup; [done|lia]].
  done.
Qed.

(** The three readings of a run of stars, on indices. *)

Lemma spec_components i j n rest :
  star_run (drop i pattern) = (S n, slash :: rest) ->
  is_double (boundary i) (S n) (slash :: rest) = true ->
  spec i j <->
  spec (S (i + S n)) j \/
  exists m, m ∈ slash_candidates (drop j value) j /\ spec (S (i + S n)) (S m).
Proof.
  intros Hs Hd. unfold spec at 1. rewrite (gm_star_iff _ _ _ _ _ Hs), Hd.
  assert (Hdr := proj1 (star_run_drop _ _ _ Hs)). rewrite drop_drop in Hdr.
  assert (Hlk : pattern !! (i + S n)%nat = Some slash)
    by (rewrite <- (Nat.add_0_r (i + S n)), <- lookup_drop, Hdr; done).
  assert (Hsp : forall m, spec (S (i + S n)) m <-> gm true rest (drop m value)).
  { intros m. unfold spec. rewrite (boundary_S _ _ Hlk), Z.eqb_refl.
    by rewrite <- Nat.add_1_r, <- drop_drop, Hdr. }
  setoid_rewrite Hsp. setoid_rewrite slash_candidates_spec. split.
  - intros (pre & v' & Hv & Hpre & Hg). destruct Hpre as [->|Hl].
    + left. by rewrite Hv.
    + right. apply last_Some in Hl as [pre' ->].
      exists (j + length pre')%nat. split; [split; [lia|]|].
      * replace (j + length pre' - j)%nat with (length pre') by lia.
        rewrite Hv, <- app_assoc. by apply list_lookup_middle.
      * rewrite <- Nat.add_succ_r, <- drop_drop, Hv.
        rewrite drop_app_length' by (rewrite length_app; cbn; lia). done.
  - intros [Hg|(m & [Hm Hl] & Hg)].
    + exists [], (drop j value). auto.
    + exists (take (S (m - j)) (drop j value)), (drop (S m) value).
      split; [|split; [right|done]].
      * replace (S m) with (j + S (m - j))%nat by lia.
        by rewrite <- drop_drop, take_drop.
      * rewrite (take_S_r _ _ slash) by done. by rewrite last_snoc.
Qed.

Lemma spec_everything i j n :
  star_run (drop i pattern) = (S n, []) ->
  is_double (boundary i) (S n) [] = true -> (j <= length value)%nat ->
  spec i j <-> exists m, m ∈ seq j (S (length value - j)) /\ spec (i + S n) m.
Proof.
  intros Hs Hd Hj. unfold spec at 1. rewrite (gm_star_iff _ _ _ _ _ Hs), Hd.
  assert (Hdr := proj1 (star_run_drop _ _ _ Hs)). rewrite drop_drop in Hdr.
  split; [intros _|done]. exists (length value). split.
  - apply elem_of_seq. lia.
  - unfold spec. rewrite Hdr, drop_all. constructor.
Qed.

Lemma spec_segment i j n rest :
  star_run (drop i pattern) = (S n, rest) ->
  is_double (boundary i) (S n) rest = false -> (j <= length value)%nat ->
  spec i j <->
  exists m, m ∈ segment_candidates (drop j value) j /\ spec (i + S n) m.
Proof.
  intros Hs Hd Hj. unfold spec at 1. rewrite (gm_star_iff _ _ _ _ _ Hs), Hd.
  assert (Hdr := proj1 (star_run_drop _ _ _ Hs)). rewrite drop_drop in Hdr.
  unfold spec. rewrite (boundary_after_stars _ _ _ Hs), Hdr.
  setoid_rewrite segment_candidates_spec. rewrite length_drop. split.
  - intros (seg & v' & Hv & Hseg & Hg). exists (j + length seg)%nat.
    assert (Hl := f_equal length Hv). rewrite length_drop, length_app in Hl.
    replace (j + length seg - j)%nat with (length seg) by lia.
    rewrite <- drop_drop, Hv, take_app_length, drop_app_length.
    split; [split; [lia|done]|done].
  - intros (m & [Hm Hseg] & Hg). exists (take (m - j) (drop j value)), (drop m value).
    split_and!; [|done|done].
    replace (drop m value) with (drop (m - j) (drop j value)) by (rewrite drop_drop; f_equal; lia).
    by rewrite take_drop.
Qed.

Lemma spec_token i j c :
  pattern !! i = Some c -> c <> star ->
  spec i j <-> exists r, value !! j = Some r /\
               token_step c (drop (S i) pattern) r (drop (S j) value).
Proof.
  intros Hc Hns. unfold spec. rewrite (drop_S _ _ _ Hc), gm_token_iff by done. split.
  - intros (r & v' & Hv & Ht). exists r.
    assert (Hr : value !! j = Some r)
      by (rewrite <- (Nat.add_0_r j), <- lookup_drop, Hv; done).
    split; [done|]. rewrite (drop_S _ _ _ Hr) in Hv. by injection Hv as <-.
  - intros (r & Hr & Ht). exists r, (drop (S j) value). by rewrite (drop_S _ _ _ Hr).
Qed.

Lemma table_ok_mark open key t :
  table_ok open t -> table_ok (fun k => k = key \/ open k) (mark key t).
Proof.
  intros Ht k. unfold mark. cbn. rewrite elem_of_union, elem_of_singleton.
  intros [->|Hk]; [auto|]. destruct (Ht k Hk); auto.
Qed.

Lemma answers_record open key (b : bool * table) :
  ~ open key ->
  answers (fun k => k = key \/ open k) (spec key.1 key.2) b ->
  answers open (spec key.1 key.2) (b.1, record key b.1 b.2).
Proof.
  intros Hno [Hb Ht]. split; cbn; [done|]. intros k Hk. cbn in Hk.
  destruct (decide (k = key)) as [->|Hne].
  - left. exists b.1. cbn. by rewrite lookup_insert_eq.
  - destruct (Ht k Hk) as [(r & Hr & Hs)|[|]]; [|done|by right].
    left. exists r. cbn. by rewrite lookup_insert_ne.
Qed.

Section Step.
Context (fuel : nat) (open : nat * nat -> Prop) (i j : nat).
Context (Hi : (i <= length pattern)%nat) (Hj : (j <= length value)%nat).
(** Calls at a larger pattern index are answered correctly. *)
Context (IH : forall i' j' t, (i < i' <= length pattern)%nat -> (j' <= length value)%nat ->
  table_ok open t -> answers open (spec i' j') (walk pattern value fuel i' j' t)).

Lemma walk_stars t n rest :
  table_ok open t -> star_run (drop i pattern) = (S n, rest) ->
  let starEnd := (i + S n)%nat in
  let double := (2 <=? starEnd - i)%nat && doubleStarComponent pattern i starEnd in
  answers open (spec i j)
    (if double && (starEnd <? length pattern)%nat && (pattern !! starEnd =?= Some slash) then
       match walk pattern value fuel (S starEnd) j t with
       | (true, t) => (true, t)
       | (false, t) =>
         try_each (fun next t => walk pattern value fuel (S starEnd) (S next) t)
           (slash_candidates (drop j value) j) t
       end
     else if double then
       try_each (fun next t => walk pattern value fuel starEnd next t)
         (seq j (S (length value - j))) t
     else
       try_each (fun next t => walk pattern value fuel starEnd next t)
         (segment_candidates (drop j value) j) t).
Proof.
  intros Ht Hs. cbv zeta. rewrite (double_is_double _ _ _ Hs).
  destruct (star_run_drop _ _ _ Hs) as [Hdr Hlen]. rewrite drop_drop in Hdr.
  rewrite length_drop in Hlen.
  pose proof (lookup_drop pattern (i + S n) 0) as Hlk. rewrite Hdr, Nat.add_0_r in Hlk.
  destruct (is_double (boundary i) (S n) rest) eqn:Hd; cbn [andb].
  - destruct rest as [|r rest]; cbn in Hlk.
    + rewrite <- Hlk. rewrite andb_false_r.
      eapply answers_iff; [symmetry; by apply spec_everything|].
      apply try_each_answers; [done|]. intros m t' Hm Ht'. apply IH; [lia| |done].
      apply elem_of_seq in Hm. lia.
    + assert (r = slash) as -> by
        (unfold is_double in Hd; apply andb_true_iff in Hd as [_ Hr%Z.eqb_eq]; done).
      assert (Hlt := lookup_lt_Some _ _ _ (eq_sym Hlk)).
      rewrite <- Hlk, (proj2 (Nat.ltb_lt _ _) Hlt), bool_decide_eq_true_2 by done. cbn [andb].
      eapply answers_iff; [symmetry; by eapply spec_components|].
      destruct (IH (S (i + S n)) j t) as [Hr1 Ht1]; [lia..|done|].
      destruct (walk _ _ _ _ _ _) as [[] t1]; cbn in Hr1, Ht1.
      { split; [|done]. cbn. tauto. }
      eapply answers_iff; [|apply (try_each_answers open (fun m => spec (S (i + S n)) (S m)))].
      * tauto || (split; [by right|]; intros [H|H]; [by apply Hr1 in H|done]).
      * done.
      * intros m t' [Hm Hv]%slash_candidates_spec Ht'. apply IH; [lia| |done].
        apply lookup_lt_Some in Hv. rewrite length_drop in Hv. lia.
  - eapply answers_iff; [symmetry; by eapply spec_segment|].
    apply try_each_answers; [done|].
    intros m t' [Hm _]%segment_candidates_spec Ht'. rewrite length_drop in Hm.
    apply IH; [lia|lia|done].
Qed.

Lemma walk_token t c :
  table_ok open t -> pattern !! i = Some c -> c <> star ->
  answers open (spec i j)
    match value !! j, pattern !! i with
    | Some r, Some token =>
      if token =? question then
        if negb (r =? slash) then walk pattern value fuel (S i) (S j) t else (false, t)
      else if token =? lbracket then
        match classEnd pattern i with
        | Some e =>
          if negb (r =? slash) && classMatches (take (e - S i) (drop (S i) pattern)) r
          then walk pattern value fuel (S e) (S j) t else (false, t)
        | None => (false, t)
        end
      else if token =? r then walk pattern value fuel (S i) (S j) t else (false, t)
    | _, _ => (false, t)
    end.
Proof.
  intros Ht Hc Hns. rewrite Hc.
  eapply answers_iff; [symmetry; by apply spec_token|].
  assert (Hip := lookup_lt_Some _ _ _ Hc).
  destruct (value !! j) as [r|] eqn:Hr;
    [|apply answers_false; [done|]; by intros (? & ? & _)].
  assert (Hjv := lookup_lt_Some _ _ _ Hr).
  eapply answers_iff; [symmetry; apply ex_Some_eq|]. unfold token_step.
  destruct (Z.eqb_spec c question) as [->|Hq]; [|destruct (Z.eqb_spec c lbracket) as [->|Hb]].
  - destruct (Z.eqb_spec r slash) as [->|Hrs]; cbn [negb].
    + apply answers_false; tauto.
    + eapply answers_iff; [|apply IH; [lia|lia|done]].
      unfold spec. rewrite (boundary_S _ _ Hc). change (question =? slash) with false. tauto.
  - rewrite <- (drop_S _ _ _ Hc). pose proof (classEnd_shift pattern i) as Hsh.
    destruct (classEnd (drop i pattern) 0) as [e|]; cbn in Hsh; rewrite Hsh.
    + assert (Hb := classEnd_bound _ _ _ Hsh). assert (Hl := classEnd_lookup _ _ _ Hsh).
      replace (i + e - S i)%nat with (e - 1)%nat by lia.
      eapply answers_iff; [symmetry; apply ex_Some_eq|].
      destruct (Z.eqb_spec r slash) as [->|Hrs]; cbn [negb andb];
        [apply answers_false; tauto|].
      destruct (classMatches _ _); [|apply answers_false; [done|]; by intros (_ & ? & _)].
      eapply answers_iff; [|apply IH; [lia|lia|done]].
      unfold spec. rewrite (boundary_S _ _ Hl). change (rbracket =? slash) with false.
      rewrite drop_drop. replace (S i + e)%nat with (S (i + e)) by lia. tauto.
    + apply answers_false; [done|]. by intros (? & ? & _).
  - destruct (Z.eqb_spec c r) as [->|Hcr]; [|apply answers_false; tauto].
    eapply answers_iff; [|apply IH; [lia|lia|done]].
    unfold spec. rewrite (boundary_S _ _ Hc). tauto.
Qed.
End Step.

Lemma walk_answers fuel : forall i j t open,
  (i <= length pattern)%nat -> (j <= length value)%nat -> (length pattern - i < fuel)%nat ->
  table_ok open t -> (forall k, open k -> (k.1 < i)%nat) ->
  answers open (spec i j) (walk pattern value fuel i j t).
Proof.
  induction fuel as [|fuel IHf]; intros i j t open Hi Hj Hf Ht Hopen; [lia|].
  cbn [walk]. destruct (bool_decide ((i, j) ∈ seen t)) eqn:Hseen.
  { apply bool_decide_eq_true in Hseen. destruct (Ht _ Hseen) as [(b & Hb & Hs)|Ho].
    - rewrite Hb. split; done.
    - apply Hopen in Ho. cbn in Ho. lia. }
  match goal with |- answers _ _ (let '(r, t) := ?B in _) =>
    cut (answers (fun k => k = (i, j) \/ open k) (spec i j) B) end.
  { intros HB. match goal with |- answers _ _ (let '(r, t) := ?B in _) =>
      replace (let '(r, t) := B in (r, record (i, j) r t))
        with (B.1, record (i, j) B.1 B.2) by (by destruct B) end.
    apply (answers_record open (i, j)); [|done]. intros Ho%Hopen. cbn in Ho. lia. }
  assert (Ht' := table_ok_mark open (i, j) t Ht).
  assert (IH : forall i' j' t, (i < i' <= length pattern)%nat -> (j' <= length value)%nat ->
    table_ok (fun k => k = (i, j) \/ open k) t ->
    answers (fun k => k = (i, j) \/ open k) (spec i' j') (walk pattern value fuel i' j' t)).
  { intros i' j' t1 Hi' Hj' Ht1. apply IHf; try lia; [done|].
    intros k [->|Ho]; [cbn; lia|]. apply Hopen in Ho. lia. }
  destruct (Nat.eqb_spec i (length pattern)) as [->|Hne].
  { split; [|done]. cbn. unfold spec. rewrite drop_all, gm_nil_iff, Nat.eqb_eq.
    split; [intros ->; apply drop_all|]. intros Hv%(f_equal length).
    rewrite length_drop in Hv. cbn in Hv. lia. }
  destruct (lookup_lt_is_Some_2 pattern i) as [c Hc]; [lia|].
  destruct (decide (c = star)) as [->|Hns].
  - rewrite (bool_decide_eq_true_2 (pattern !! i = Some star)) by done.
    destruct (star_run (drop i pattern)) as [[|n] rest] eqn:Hs.
    { rewrite (drop_S _ _ _ Hc) in Hs. cbn in Hs. by destruct (star_run _). }
    cbn [fst]. by eapply walk_stars.
  - rewrite (bool_decide_eq_false_2 (pattern !! i = Some star)) by congruence.
    by eapply walk_token.
Qed.
End MatchSpec.

Lemma compiledGlob_match_spec pattern value :
  compiledGlob_match pattern value = true <-> gm true pattern value.
Proof.
  destruct (walk_answers pattern value (S (length pattern)) 0 0
    {| seen := ∅; memo := ∅ |} (fun _ => False)) as [Hr _]; [lia..| |done|exact Hr].
  intros k Hk. by apply not_elem_of_empty in Hk.
Qed.

(** ** Paths *)

Lemma dot_component_nonempty part : dot_component part = false -> part <> [].
Proof. intros H ->. discriminate. Qed.

(** [validRepoPath] without the redundant tests: the component condition
    already excludes absolute paths, trailing and doubled separators. *)
Lemma validRepoPath_iff value :
  validRepoPath value = true <->
  len value <= MaxPathBytes /\ ValidString value = true /\
  0 ∉ bytes value /\ backslash ∉ bytes value /\ drivePrefix (bytes value) = false /\
  Forall (fun part => dot_component part = false) (split_bytes slash (bytes value)).
Proof.
  assert (Hex : forall c, existsb (Z.eqb c) (bytes value) = false <-> c ∉ bytes value).
  { intros c. rewrite <- not_true_iff_false, existsb_true. split.
    - intros H Hc. apply H. exists c. by rewrite Z.eqb_refl.
    - intros H (x & Hx & ->%Z.eqb_eq). done. }
  unfold validRepoPath. split.
  - repeat (split_guard; [done|]). intros Hf. apply forallb_true in Hf. breflect.
    destruct_and!. rewrite <- !Hex. split_and!; try done.
    eapply Forall_impl; [exact Hf|]. intros part Hp. by apply negb_true_iff in Hp.
  - intros (Hl & Hu & H0 & Hbs & Hdr & Hf).
    assert (Hne : Forall (fun part => part <> []) (split_bytes slash (bytes value))).
    { eapply Forall_impl; [exact Hf|]. apply dot_component_nonempty. }
    assert (Htl : Forall (fun part => part <> []) (tail (split_bytes slash (bytes value)))).
    { by destruct Hne; [constructor|]. }
    assert (Hn : value <> "") by (intros ->; by inversion Hne).
    rewrite bool_decide_eq_false_2 by done.
    rewrite (proj2 (Z.ltb_ge _ _) Hl), Hu. cbn [orb negb].
    rewrite (proj2 (Hex 0) H0), (proj2 (Hex backslash) Hbs), Hdr. cbn [orb].
    assert (HasPrefix value "/" = false) as ->
      by (apply not_true_iff_false; rewrite HasPrefix_slash; by apply split_head).
    assert (HasSuffix value "/" = false) as ->
      by (apply not_true_iff_false; rewrite HasSuffix_slash; by apply split_last). cbn [orb].
    unfold Contains. change (bytes "//") with [slash; slash].
    rewrite split_no_double by done. apply forallb_true.
    eapply Forall_impl; [exact Hf|]. cbn. by intros part ->.
Qed.

Lemma compileGlob_runes pattern rs : compileGlob pattern = Ok rs -> rs = runes pattern.
Proof.
  unfold compileGlob. repeat (split_guard; [done|]). case_match; congruence.
Qed.

(** ** Counting separators *)

Definition slashes (l : list Z) : nat := length (filter (fun r => r = slash) l).

Lemma slashes_app l k : slashes (l ++ k) = (slashes l + slashes k)%nat.
Proof. unfold slashes. by rewrite filter_app, length_app. Qed.

Lemma slashes_none l : slash ∉ l -> slashes l = 0%nat.
Proof.
  intros H. unfold slashes. apply length_zero_iff_nil. induction l as [|r l IH]; [done|].
  rewrite not_elem_of_cons in H. destruct H. rewrite filter_cons_False by congruence. auto.
Qed.

Lemma slashes_drop n l : (slashes (drop n l) <= slashes l)%nat.
Proof. rewrite <- (take_drop n l) at 2. rewrite slashes_app. lia. Qed.

(** No two adjacent stars. *)
Definition single_stars (p : list Z) : Prop :=
  forall i, ~ (p !! i = Some star /\ p !! S i = Some star).

Lemma single_stars_drop n p : single_stars p -> single_stars (drop n p).
Proof.
  intros H i. rewrite !lookup_drop. replace (n + S i)%nat with (S (n + i)) by lia. apply H.
Qed.

Lemma single_stars_run p n rest : single_stars p -> star_run p = (n, rest) -> (n <= 1)%nat.
Proof.
  intros H [-> _]%star_run_spec. destruct n as [|[|n]]; [lia..|].
  exfalso. apply (H 0%nat). done.
Qed.

Lemma gm_slashes b p v : gm b p v -> single_stars p -> (slashes v <= slashes p)%nat.
Proof.
  induction 1 as [b|b p n rest seg v Hs Hd Hseg _ IH|b p n rest pre v Hs Hd _ _ _
    |b p n v Hs Hd|b p r v Hr _ IH|b p e r v He Hr _ _ IH|b c p v Hc _ IH]; intros Hp.
  - done.
  - rewrite slashes_app, slashes_none by done. destruct (star_run_drop _ _ _ Hs) as [<- _].
    etrans; [apply IH, single_stars_drop, Hp|]. apply slashes_drop.
  - apply single_stars_run in Hs; [|done]. destruct n as [|[|n]]; by try lia.
  - apply single_stars_run in Hs; [|done]. destruct n as [|[|n]]; by try lia.
  - apply (single_stars_drop 1) in Hp. apply IH in Hp.
    unfold slashes in *. rewrite !filter_cons_False by done. done.
  - apply (single_stars_drop (S e)) in Hp. cbn in Hp. apply IH in Hp.
    pose proof (slashes_drop e p). unfold slashes in *.
    rewrite !filter_cons_False by done. lia.
  - apply (single_stars_drop 1) in Hp. apply IH in Hp.
    unfold slashes in *. rewrite !filter_cons. case_decide; cbn; lia.
Qed.

(** ** Literal directories *)

(** A pattern prefix without metacharacters. *)
Definition plain (p : list Z) : Prop := Forall (fun c => c ∉ [star; question; lbracket]) p.

Lemma gm_plain b p rest v :
  plain p -> rest <> [] ->
  gm b (p ++ slash :: rest) v <-> exists w, v = p ++ slash :: w /\ gm true rest w.
Proof.
  intros Hp Hr. revert b v.
  assert (Hlit : forall b c q v, c ∉ [star; question; lbracket] ->
    gm b (c :: q) v <-> exists w, v = c :: w /\ gm (c =? slash) q w).
  { intros b c q v Hc. rewrite !not_elem_of_cons in Hc. destruct_and!.
    rewrite gm_token_iff by done. unfold token_step.
    destruct (Z.eqb_spec c question), (Z.eqb_spec c lbracket); try done.
    split; [intros (r & w & -> & -> & Hg); eauto | intros (w & -> & Hg); eauto 6]. }
  induction Hp as [|c p Hc _ IH]; intros b v; cbn [app].
  - rewrite Hlit by set_solver. rewrite Z.eqb_refl. done.
  - rewrite Hlit by done. setoid_rewrite IH. naive_solver.
Qed.

Lemma gm_everything_iff w : gm true [star; star] w.
Proof. eapply gm_everything; reflexivity. Qed.

Lemma runes_app_ascii s t :
  Forall (fun b => b < 0x80) (bytes t) -> runes (s +:+ t) = runes s ++ bytes t.
Proof.
  intros Ht. unfold runes. rewrite bytes_app. pose proof (bytes_range t) as Hr.
  destruct (bytes t) as [|b k]; [by rewrite !app_nil_r|].
  inversion Ht; inversion Hr; subst.
  match goal with H : is_byte b |- _ => unfold is_byte in H end.
  rewrite decode_app_ascii by lia. rewrite map_app.
  rewrite (decode_ascii (b :: k)) by done. rewrite map_map. f_equal. apply map_id.
Qed.

(** ** Theorems *)

(** C7. The memoised backtracking search decides exactly the declarative
    meaning of the pattern: [matchGlob] answers true if and only if the path
    is valid, the pattern compiles, and the relation [gm] relates their
    runes. *)
Theorem matchGlob_decides pattern value :
  matchGlob pattern value = true <->
  validRepoPath value = true /\
  exists rs, compileGlob pattern = Ok rs /\ gm true rs (runes value).
Proof.
  unfold matchGlob. destruct (validRepoPath value); cbn [negb]; [|naive_solver].
  destruct (compileGlob pattern) as [rs|e].
  - rewrite compiledGlob_match_spec. naive_solver.
  - naive_solver.
Qed.

(** An accepted repository path is a bounded, well-formed, relative name
    without traversal: it is at most 512 bytes of UTF-8, has no NUL, no
    backslash and no drive prefix, and every component between separators is
    nonempty and neither [.] nor [..]; nothing else is rejected. *)
Theorem validRepoPath_contract value :
  validRepoPath value = true <->
  len value <= 512 /\ ValidString value = true /\
  0 ∉ bytes value /\ backslash ∉ bytes value /\ drivePrefix (bytes value) = false /\
  forall part, part ∈ split_bytes slash (bytes value) ->
    part <> [] /\ part <> bytes "." /\ part <> bytes "..".
Proof.
  rewrite validRepoPath_iff, Forall_forall. unfold dot_component.
  assert (Hd : forall part : list Z,
    (part =?= []) || (part =?= [0x2E]) || (part =?= [0x2E; 0x2E]) = false <->
    part <> [] /\ part <> bytes "." /\ part <> bytes "..").
  { intros part. change (bytes ".") with [0x2E]. change (bytes "..") with [0x2E; 0x2E].
    breflect. tauto. }
  setoid_rewrite Hd. done.
Qed.

(** A pattern without [**] cannot reach below the directory depth it
    spells out: a path it matches has at most as many separators as the
    pattern. *)
Theorem single_star_depth pattern value rs
  (Hc : compileGlob pattern = Ok rs) (Hs : single_stars rs)
  (Hm : matchGlob pattern value = true) :
  (slashes (runes value) <= slashes rs)%nat.
Proof.
  unfold matchGlob in Hm. destruct (validRepoPath value); [|done]. rewrite Hc in Hm.
  apply compiledGlob_match_spec in Hm. by eapply gm_slashes.
Qed.

Lemma single_stars_decide p : forallb (fun i => negb ((p !! i =?= Some star) && (p !! S i =?= Some star)))
  (seq 0 (length p)) = true -> single_stars p.
Proof.
  intros H i [H1 H2]. apply forallb_true, Forall_forall with (x := i) in H.
  - rewrite !bool_decide_eq_true_2 in H by done. done.
  - apply elem_of_seq. apply lookup_lt_Some in H1. lia.
Qed.

Lemma single_star_depth_witness : (slashes (runes "src/a.go") <= slashes (runes "src/*.go"))%nat.
Proof.
  apply (single_star_depth "src/*.go" "src/a.go").
  - vm_compute. reflexivity.
  - apply single_stars_decide. vm_compute. reflexivity.
  - vm_compute. reflexivity.
Defined.

(** The usual scope pattern [dir/**] over a directory name without
    metacharacters matches exactly the valid paths below that directory. *)
Theorem directory_scope dir value
  (Hc : is_ok (compileGlob (dir +:+ "/**")) = true) (Hp : plain (runes dir)) :
  matchGlob (dir +:+ "/**") value = true <->
  validRepoPath value = true /\ exists below, runes value = runes dir ++ slash :: below.
Proof.
  unfold matchGlob. destruct (validRepoPath value); cbn [negb]; [|naive_solver].
  destruct (compileGlob (dir +:+ "/**")) as [rs|e] eqn:E; [|done].
  apply compileGlob_runes in E as ->. rewrite compiledGlob_match_spec.
  rewrite runes_app_ascii by (repeat constructor; vm_compute; done).
  change (bytes "/**") with (slash :: [star; star]). rewrite gm_plain by done.
  split.
  - intros (w & Hw & _). eauto.
  - intros (_ & w & Hw). exists w. split; [done|]. apply gm_everything_iff.
Qed.

Lemma directory_scope_witness : matchGlob "docs/v3/**" "docs/v3/adr/1.md" = true.
Proof.
  apply (directory_scope "docs/v3" "docs/v3/adr/1.md").
  - vm_compute. reflexivity.
  - unfold plain. apply (proj1 (bool_decide_eq_true _)). vm_compute. reflexivity.
  - split; [vm_compute; reflexivity|]. exists (bytes "adr/1.md"). vm_compute. reflexivity.
Defined.
