(* ===== verification/Coverage.v ===== *)
(** * Coverage requirements (src/v3/internal/gate/coverage.go)

    A coverage requirement is an operator and a bounded decimal; observations
    are decimals.  Decimals are exact rationals ([big.Rat]), never floating
    point.  [normalizeDecimal] is the canonical spelling stored in signed
    evidence. *)

From S2P Require Import Prelude GoStrings Digits.
From Stdlib Require Import QArith.
Local Open Scope go_scope.
Local Open Scope Z_scope.

Definition dot : Z := 0x2E.
Definition minus : Z := 0x2D.

Definition split_sign (l : list Z) : bool * list Z :=
  match l with
  | b :: l' => if b =? minus then (true, l') else (false, l)
  | [] => (false, [])
  end.

(** [0|[1-9][0-9]*] *)
Definition integer_part (int : list Z) : bool :=
  match int with
  | [] => false
  | [b] => is_digit b
  | b :: _ => negb (b =? zero)
  end.

(** [decimalPattern], with the sign, the integer and the fraction it matched. *)
Definition decimalPattern (l : list Z) : option (bool * list Z * list Z) :=
  let '(neg, l) := split_sign l in
  let '(int, rest) := span_digits l in
  if negb (integer_part int) then None
  else match rest with
       | [] => Some (neg, int, [])
       | b :: frac =>
         if (b =? dot) && negb (frac =?= []) && forallb is_digit frac
         then Some (neg, int, frac) else None
       end.

(** [new(big.Rat).SetString] on a matched decimal. *)
Definition rat (neg : bool) (int frac : list Z) : Q :=
  Qmake ((if neg then -1 else 1) * digits_val (int ++ frac)) (Z.to_pos (10 ^ slen frac)).

Definition parseDecimal (value : string) : option Q :=
  if (len value =? 0) || (64 <? len value) then None
  else match decimalPattern (bytes value) with
       | None => None
       | Some (neg, int, frac) => Some (rat neg int frac)
       end.

Inductive coverageOperator : Type :=
| coverageGreaterEqual
| coverageGreater
| coverageEqual
| coverageLessEqual
| coverageLess.

(** The prefixes, in the order the code tries them. *)
Definition operators : list (string * coverageOperator) :=
  [(">=", coverageGreaterEqual); ("<=", coverageLessEqual); ("==", coverageEqual);
   (">", coverageGreater); ("<", coverageLess)]%string.

Definition parseCoverageRequirement (value : string) : option (coverageOperator * Q) :=
  if (len value =? 0) || (64 <? len value) then None
  else
    let value := TrimSpace value in
    match find (fun item => HasPrefix value item.1) operators with
    | None => None
    | Some (prefix, op) =>
      match parseDecimal (TrimSpace (TrimPrefix value prefix)) with
      | None => None
      | Some parsed => Some (op, parsed)
      end
    end.

Definition validCoverageRequirement (value : string) : bool :=
  match parseCoverageRequirement value with Some _ => true | None => false end.

Definition coverageSatisfies (requirement observed : string) : bool :=
  match parseCoverageRequirement requirement with
  | None => false
  | Some (operator, expected) =>
    match parseDecimal observed with
    | None => false
    | Some actual =>
      match operator, (actual ?= expected)%Q with
      | coverageGreaterEqual, (Eq | Gt) => true
      | coverageGreater, Gt => true
      | coverageEqual, Eq => true
      | coverageLessEqual, (Eq | Lt) => true
      | coverageLess, Lt => true
      | _, _ => false
      end
    end
  end.

(** [strings.SplitN(value, ".", 2)] *)
Fixpoint split_dot (l : list Z) : list Z * option (list Z) :=
  match l with
  | [] => ([], None)
  | b :: l' =>
    if b =? dot then ([], Some l')
    else let '(p, q) := split_dot l' in (b :: p, q)
  end.

Definition normalizeDecimal (value : string) : option string :=
  match parseDecimal value with
  | None => None
  | Some _ =>
    let '(negative, b) := split_sign (bytes value) in
    let '(part0, part1) := split_dot b in
    let integer := trim_left (Z.eqb zero) part0 in
    let integer := if integer =?= [] then [zero] else integer in
    let fraction := match part1 with Some f => trim_right (Z.eqb zero) f | None => [] end in
    if fraction =?= [] then
      if integer =?= [zero] then Some "0"%string
      else if negative then Some (of_bytes (minus :: integer))
      else Some (of_bytes integer)
    else
      let result := integer ++ dot :: fraction in
      if negative && negb (result =?= [zero]) then Some (of_bytes (minus :: result))
      else Some (of_bytes result)
  end.

Example normalize_tests :
  map normalizeDecimal ["-0.50"; "007"; "-0.00"; "12.0"; "1.250"; "+1"]%string
  = [Some "-0.5"; None; Some "0"; Some "12"; Some "1.25"; None]%string.
Proof. vm_compute. reflexivity. Qed.

(** ** Canonical decimals *)

(** The integers the pattern accepts: [0], or no leading zero. *)
Lemma integer_part_cases int :
  digits int -> integer_part int = true ->
  int = [zero] \/ (exists b l, int = b :: l /\ b <> zero).
Proof.
  intros Hd. destruct int as [|b [|c l]]; cbn; [done| |].
  - intros _. destruct (decide (b = zero)) as [->|]; [by left|right; eauto].
  - intros Hb%negb_true_iff%Z.eqb_neq. right. eauto.
Qed.

Lemma trim_integer int :
  digits int -> integer_part int = true ->
  (if trim_left (Z.eqb zero) int =?= [] then [zero] else trim_left (Z.eqb zero) int) = int.
Proof.
  intros Hd Hi. destruct (integer_part_cases int Hd Hi) as [->|(b & l & -> & Hb)]; [done|].
  cbn. rewrite (proj2 (Z.eqb_neq _ _)) by done. done.
Qed.

(** Integer parts are determined by their value. *)
Lemma integer_part_inj i1 i2 :
  digits i1 -> digits i2 -> integer_part i1 = true -> integer_part i2 = true ->
  digits_val i1 = digits_val i2 -> i1 = i2.
Proof.
  intros H1 H2 P1 P2 Hv.
  destruct (integer_part_cases i1 H1 P1) as [->|(b1 & l1 & -> & Hb1)],
           (integer_part_cases i2 H2 P2) as [->|(b2 & l2 & -> & Hb2)]; [done| | |].
  - pose proof (integer_val_bound b2 l2 H2 Hb2). pose proof (pow10_pos l2).
    change (digits_val [zero]) with 0 in Hv. lia.
  - pose proof (integer_val_bound b1 l1 H1 Hb1). pose proof (pow10_pos l1).
    change (digits_val [zero]) with 0 in Hv. lia.
  - pose proof (integer_val_bound b1 l1 H1 Hb1) as B1. pose proof (integer_val_bound b2 l2 H2 Hb2) as B2.
    apply digits_val_inj; [done..| |done]. cbn. rewrite Hv in B1. f_equal.
    assert (slen l1 = slen l2); [|unfold slen in *; lia].
    destruct (Z.lt_trichotomy (slen l1) (slen l2)) as [Hlt|[|Hlt]]; [|done|]; exfalso.
    + pose proof (Z.pow_le_mono_r 10 (slen l1 + 1) (slen l2)). lia.
    + pose proof (Z.pow_le_mono_r 10 (slen l2 + 1) (slen l1)). lia.
Qed.

Definition no_trailing_zero (frac : list Z) : Prop := last frac <> Some zero.

Lemma scale_le i1 f1 i2 f2 :
  digits f2 -> no_trailing_zero f2 ->
  digits_val (i1 ++ f1) * 10 ^ slen f2 = digits_val (i2 ++ f2) * 10 ^ slen f1 ->
  slen f2 <= slen f1.
Proof.
  intros Hd Hz He. destruct (Z.le_gt_cases (slen f2) (slen f1)) as [|Hlt]; [done|exfalso].
  destruct (last f2) as [b|] eqn:Hl.
  - apply last_Some in Hl as [f ->]. unfold no_trailing_zero in Hz. rewrite last_snoc in Hz.
    apply Forall_app in Hd as [_ Hb]. apply Forall_singleton, is_digit_range in Hb.
    replace (slen (f ++ [b])) with (slen f1 + 1 + (slen (f ++ [b]) - slen f1 - 1)) in He by lia.
    assert (Hp := slen_nonneg f1). unfold slen in Hlt, Hp.
    rewrite !Z.pow_add_r in He by (unfold slen; lia).
    rewrite app_assoc, digits_val_snoc in He.
    set (x := digits_val (i2 ++ f)) in *. set (y := digits_val (i1 ++ f1)) in *.
    set (p := 10 ^ slen f1) in *. set (q := 10 ^ (slen (f ++ [b]) - slen f1 - 1)) in *.
    assert (0 < p) by apply pow10_pos.
    assert (y * 10 * q = 10 * x + (b - zero)) by (change (10 ^ 1) with 10 in He; nia).
    assert (b <> zero) by congruence. lia.
  - apply last_None in Hl as ->. unfold slen in Hlt. cbn in Hlt. lia.
Qed.

Lemma canonical_parts_inj i1 f1 i2 f2 :
  digits i1 -> digits f1 -> digits i2 -> digits f2 ->
  integer_part i1 = true -> integer_part i2 = true ->
  no_trailing_zero f1 -> no_trailing_zero f2 ->
  digits_val (i1 ++ f1) * 10 ^ slen f2 = digits_val (i2 ++ f2) * 10 ^ slen f1 ->
  i1 = i2 /\ f1 = f2.
Proof.
  intros Hi1 Hf1 Hi2 Hf2 P1 P2 Z1 Z2 He.
  assert (Hle1 := scale_le _ _ _ _ Hf2 Z2 He).
  assert (Hle2 := scale_le _ _ _ _ Hf1 Z1 (eq_sym He)).
  assert (Hs : slen f1 = slen f2) by lia. rewrite Hs in He.
  assert (Hp := pow10_pos f2).
  apply Z.mul_reg_r in He; [|lia]. rewrite !digits_val_app, Hs in He.
  pose proof (digits_val_bound f1 Hf1) as B1. pose proof (digits_val_bound f2 Hf2) as B2.
  rewrite Hs in B1. assert (digits_val i1 = digits_val i2) by nia.
  split; [by apply integer_part_inj|]. apply digits_val_inj; [done..| |nia].
  unfold slen in Hs. lia.
Qed.

(** The text of a decimal. *)
Definition spell (neg : bool) (int frac : list Z) : list Z :=
  (if neg then [minus] else []) ++ int ++ match frac with [] => [] | _ => dot :: frac end.

Record parts_ok (int frac : list Z) : Prop := {
  po_int : digits int;
  po_frac : digits frac;
  po_integer : integer_part int = true
}.

Lemma split_sign_spell neg int frac :
  parts_ok int frac -> split_sign (spell neg int frac) = (neg, spell false int frac).
Proof.
  intros [Hi _ Hp]. unfold spell. destruct neg; [done|]. cbn [app].
  destruct int as [|b int]; [done|]. inversion Hi as [|? ? Hb]; subst. cbn.
  apply is_digit_range in Hb. rewrite (proj2 (Z.eqb_neq b minus)); [done|].
  unfold zero, minus in *. lia.
Qed.

Lemma decimalPattern_spell neg int frac :
  parts_ok int frac -> decimalPattern (spell neg int frac) = Some (neg, int, frac).
Proof.
  intros Hok. unfold decimalPattern. rewrite split_sign_spell by done. destruct Hok as [Hi Hf Hp].
  unfold spell. cbn [app]. rewrite span_digits_app; [|done|].
  - rewrite Hp. cbn [negb]. destruct frac as [|b frac]; [done|].
    rewrite Z.eqb_refl, bool_decide_eq_false_2 by done. cbn [andb negb].
    by rewrite (proj2 (forallb_true _ _) Hf).
  - intros b. destruct frac; cbn; [done|]. by intros [= <-].
Qed.

Lemma decimalPattern_spec l neg int frac :
  decimalPattern l = Some (neg, int, frac) -> l = spell neg int frac /\ parts_ok int frac.
Proof.
  unfold decimalPattern. destruct (split_sign l) as [n l'] eqn:Hs.
  destruct (span_digits l') as [d r] eqn:Hd. apply span_digits_spec in Hd as (-> & Hdig & _).
  destruct (integer_part d) eqn:Hi; [|done]. cbn [negb].
  assert (Hl : l = (if n then [minus] else []) ++ d ++ r).
  { destruct l as [|b l]; cbn in Hs; [injection Hs as <- <-; done|].
    destruct (Z.eqb_spec b minus) as [->|]; injection Hs as <- <-; done. }
  destruct r as [|b r].
  - intros [= <- <- <-]. split; [done|]. by split; [|constructor|].
  - destruct ((b =? dot) && _ && _) eqn:Hg; [|done]. intros [= <- <- <-]. breflect.
    destruct Hg as [[-> Hne] Hf]. split; [|by split; [|apply forallb_true|]].
    unfold spell. by destruct r.
Qed.

Lemma split_dot_spell int frac :
  parts_ok int frac ->
  split_dot (spell false int frac) = (int, match frac with [] => None | _ => Some frac end).
Proof.
  intros [Hi _ _]. unfold spell. cbn [app]. induction Hi as [|b int Hb _ IH]; cbn.
  - destruct frac; [done|]. cbn. done.
  - apply is_digit_range in Hb.
    rewrite (proj2 (Z.eqb_neq b dot)) by (unfold zero, dot in *; lia). by rewrite IH.
Qed.

Lemma spell_bytes neg int frac : parts_ok int frac -> Forall is_byte (spell neg int frac).
Proof.
  intros [Hi Hf _]. unfold spell. apply Forall_app. split.
  - destruct neg; repeat constructor; unfold minus; lia.
  - apply Forall_app. split; [by apply digits_byte|].
    destruct frac; [constructor|]. constructor; [unfold is_byte, dot; lia|by apply digits_byte].
Qed.

Definition canon_frac (frac : list Z) : list Z := trim_right (Z.eqb zero) frac.
Definition canon_neg (neg : bool) (int frac : list Z) : bool :=
  neg && negb ((int =?= [zero]) && (canon_frac frac =?= [])).
(** The canonical spelling. *)
Definition canon (neg : bool) (int frac : list Z) : list Z :=
  spell (canon_neg neg int frac) int (canon_frac frac).

Lemma canon_frac_ok int frac : parts_ok int frac -> parts_ok int (canon_frac frac).
Proof.
  intros [Hi Hf Hp]. split; [done| |done].
  destruct (trim_right_app (Z.eqb zero) frac) as (suf & He & _). rewrite He in Hf.
  by apply Forall_app in Hf as [? _].
Qed.

Lemma canon_frac_no_zero frac : no_trailing_zero (canon_frac frac).
Proof. intros H%trim_right_last. discriminate. Qed.

Lemma normalize_canon v neg int frac :
  len v <= 64 -> decimalPattern (bytes v) = Some (neg, int, frac) ->
  normalizeDecimal v = Some (of_bytes (canon neg int frac)).
Proof.
  intros Hlen Hp. assert (Hs := decimalPattern_spec _ _ _ _ Hp). destruct Hs as [Hv Hok].
  unfold normalizeDecimal, parseDecimal.
  assert (len v <> 0).
  { rewrite len_bytes, Hv. destruct Hok as [Hi _ Hint]. unfold spell, slen. rewrite !length_app.
    destruct int; [done|]. cbn. lia. }
  rewrite (proj2 (Z.eqb_neq _ _)) by done. rewrite (proj2 (Z.ltb_ge _ _)) by done.
  cbn [orb]. rewrite Hp. rewrite Hv, split_sign_spell, split_dot_spell by done.
  destruct Hok as [Hi Hf Hint]. rewrite trim_integer by done.
  unfold canon, canon_neg, canon_frac.
  assert (Hfr : match match frac with [] => None | _ :: _ => Some frac end with
     | Some f => trim_right (Z.eqb zero) f | None => [] end = trim_right (Z.eqb zero) frac)
    by (by destruct frac).
  rewrite Hfr. clear Hfr. destruct (trim_right (Z.eqb zero) frac) as [|c fr] eqn:Ht.
  - rewrite bool_decide_eq_true_2 by done. rewrite andb_true_r. unfold spell. rewrite app_nil_r.
    destruct (decide (int = [zero])) as [->|Hne].
    + rewrite bool_decide_eq_true_2 by done. cbn [negb]. by rewrite andb_false_r.
    + rewrite bool_decide_eq_false_2 by done. cbn [negb]. rewrite andb_true_r.
      by destruct neg.
  - rewrite (bool_decide_eq_false_2 (c :: fr = [])) by done. rewrite andb_false_r.
    rewrite (bool_decide_eq_false_2 (int ++ dot :: c :: fr = [zero])).
    + cbn [negb]. rewrite andb_true_r. unfold spell. by destruct neg.
    + intros Heq%(f_equal length). rewrite length_app in Heq. cbn in Heq. lia.
Qed.

Lemma canon_length neg int frac :
  slen (canon neg int frac) <= slen (spell neg int frac).
Proof.
  destruct (trim_right_app (Z.eqb zero) frac) as (suf & He & _). fold (canon_frac frac) in He.
  assert (Hf : (length (canon_frac frac) <= length frac)%nat)
    by (rewrite He at 2; rewrite length_app; lia).
  unfold canon, spell, slen. rewrite !length_app.
  assert ((length (if canon_neg neg int frac then [minus] else []) <=
    length (if neg then [minus] else []))%nat)
    by (unfold canon_neg; destruct neg; [destruct (negb _)|]; cbn; lia).
  revert Hf. generalize (canon_frac frac). intros [|c fr] Hf; destruct frac; cbn in *; lia.
Qed.

Lemma digits_val_canon int frac :
  digits_val (int ++ frac) * 10 ^ slen (canon_frac frac) =
  digits_val (int ++ canon_frac frac) * 10 ^ slen frac.
Proof.
  destruct (trim_right_app (Z.eqb zero) frac) as (suf & He & Hz). fold (canon_frac frac) in He.
  revert He. generalize (canon_frac frac). intros cf ->.
  rewrite app_assoc, digits_val_app, (digits_val_zeros suf) by done.
  replace (slen (cf ++ suf)) with (slen cf + slen suf)
    by (unfold slen; rewrite length_app; lia).
  rewrite Z.pow_add_r by apply slen_nonneg. ring.
Qed.

Lemma digits_zero_canonical int frac :
  parts_ok int (canon_frac frac) -> digits_val (int ++ canon_frac frac) = 0 ->
  int = [zero] /\ canon_frac frac = [].
Proof.
  intros [Hi Hf Hp] Hv.
  apply (canonical_parts_inj int (canon_frac frac) [zero] []); try done.
  - by repeat constructor.
  - constructor.
  - apply canon_frac_no_zero.
  - rewrite Hv. reflexivity.
Qed.

Lemma rat_eq neg1 i1 f1 neg2 i2 f2 :
  (rat neg1 i1 f1 == rat neg2 i2 f2)%Q <->
  (if neg1 then -1 else 1) * digits_val (i1 ++ f1) * 10 ^ slen f2 =
  (if neg2 then -1 else 1) * digits_val (i2 ++ f2) * 10 ^ slen f1.
Proof.
  unfold Qeq, rat. cbn [Qnum Qden]. by rewrite !Z2Pos.id by apply pow10_pos.
Qed.

Lemma canon_value neg int frac :
  parts_ok int frac ->
  (rat (canon_neg neg int frac) int (canon_frac frac) == rat neg int frac)%Q.
Proof.
  intros Hok. apply rat_eq. pose proof (digits_val_canon int frac) as He.
  unfold canon_neg. destruct neg; cbn [andb]; [|lia].
  destruct ((int =?= [zero]) && (canon_frac frac =?= [])) eqn:Hz; cbn [negb]; [|lia].
  breflect. destruct Hz as [-> Hz]. rewrite Hz in *.
  change (digits_val ([zero] ++ [])) with 0 in *. change (10 ^ slen (@nil Z)) with 1 in *. lia.
Qed.

Lemma canon_unique n1 i1 f1 n2 i2 f2 :
  parts_ok i1 f1 -> parts_ok i2 f2 ->
  (rat n1 i1 f1 == rat n2 i2 f2)%Q -> canon n1 i1 f1 = canon n2 i2 f2.
Proof.
  intros H1 H2 Hq.
  assert (C1 := canon_frac_ok _ _ H1). assert (C2 := canon_frac_ok _ _ H2).
  rewrite <- (canon_value n1 i1 f1 H1), <- (canon_value n2 i2 f2 H2), rat_eq in Hq.
  unfold canon. set (m1 := canon_neg n1 i1 f1) in *. set (m2 := canon_neg n2 i2 f2) in *.
  pose proof (digits_val_bound (i1 ++ canon_frac f1)) as B1.
  pose proof (digits_val_bound (i2 ++ canon_frac f2)) as B2.
  destruct C1 as [Ci1 Cf1 Cp1], C2 as [Ci2 Cf2 Cp2].
  specialize (B1 ltac:(by apply Forall_app)). specialize (B2 ltac:(by apply Forall_app)).
  pose proof (pow10_pos (canon_frac f1)). pose proof (pow10_pos (canon_frac f2)).
  assert (digits_val (i1 ++ canon_frac f1) * 10 ^ slen (canon_frac f2) =
          digits_val (i2 ++ canon_frac f2) * 10 ^ slen (canon_frac f1)) as Habs
    by (destruct m1, m2; nia).
  destruct (canonical_parts_inj i1 (canon_frac f1) i2 (canon_frac f2)) as [Hi Hf];
    try done; try apply canon_frac_no_zero. rewrite Hi, Hf. f_equal.
  destruct (decide (digits_val (i2 ++ canon_frac f2) = 0)) as [Hz|Hnz].
  - apply digits_zero_canonical in Hz as [Hz1 Hz2]; [|done].
    subst m1 m2. unfold canon_neg. rewrite Hi, Hf, Hz1, Hz2.
    rewrite !bool_decide_eq_true_2 by done. by rewrite !andb_false_r.
  - destruct m1, m2; try done; exfalso; nia.
Qed.

Lemma parse_canon v neg int frac :
  len v <= 64 -> bytes v = spell neg int frac -> parts_ok int frac ->
  let n := of_bytes (canon neg int frac) in
  decimalPattern (bytes n) = Some (canon_neg neg int frac, int, canon_frac frac) /\
  len n <= 64 /\
  parseDecimal n = Some (rat (canon_neg neg int frac) int (canon_frac frac)).
Proof.
  intros Hl Hs Hok n. assert (Hc := canon_frac_ok _ _ Hok).
  assert (Hb : bytes n = canon neg int frac) by (by apply bytes_of_bytes, spell_bytes).
  assert (Hp : decimalPattern (bytes n) = Some (canon_neg neg int frac, int, canon_frac frac))
    by (rewrite Hb; by apply decimalPattern_spell).
  assert (Hn : len n <= 64).
  { rewrite len_bytes, Hb. rewrite len_bytes, Hs in Hl. pose proof (canon_length neg int frac). lia. }
  split_and!; [done..|]. unfold parseDecimal. rewrite Hp.
  rewrite (proj2 (Z.eqb_neq _ _)), (proj2 (Z.ltb_ge _ _)); [done..|].
  rewrite len_bytes, Hb. destruct Hc as [_ _ Hint]. unfold canon, spell, slen.
  rewrite !length_app. destruct int; [done|]. cbn. lia.
Qed.

Lemma normalize_facts v q :
  parseDecimal v = Some q ->
  exists n qn,
    normalizeDecimal v = Some n /\ parseDecimal n = Some qn /\ (qn == q)%Q /\
    normalizeDecimal n = Some n /\
    (forall w qw, parseDecimal w = Some qw -> (qw == q)%Q -> normalizeDecimal w = Some n).
Proof.
  intros Hv. unfold parseDecimal in Hv. destruct ((len v =? 0) || (64 <? len v)) eqn:Hl; [done|]. breflect.
  destruct Hl as [_ Hl]. destruct (decimalPattern (bytes v)) as [[[neg int] frac]|] eqn:Hp; [|done].
  injection Hv as <-. destruct (decimalPattern_spec _ _ _ _ Hp) as [Hs Hok].
  assert (Hc := canon_frac_ok _ _ Hok).
  exists (of_bytes (canon neg int frac)), (rat (canon_neg neg int frac) int (canon_frac frac)).
  assert (Hn := parse_canon v neg int frac Hl Hs Hok). destruct Hn as (Hb & Hn & Hpn).
  split_and!; [by apply normalize_canon | done | by apply canon_value | |].
  - rewrite (normalize_canon _ _ _ _ Hn Hb). do 2 f_equal.
    apply canon_unique; [done..|]. by apply canon_value.
  - intros w qw Hw Hq. unfold parseDecimal in Hw.
    destruct ((len w =? 0) || (64 <? len w)) eqn:Hlw; [done|]. breflect.
    destruct (decimalPattern (bytes w)) as [[[neg' int'] frac']|] eqn:Hp'; [|done].
    injection Hw as <-. rewrite (normalize_canon _ _ _ _ (proj2 Hlw) Hp'). do 2 f_equal.
    apply canon_unique; [by eapply decimalPattern_spec|done|done].
Qed.

Lemma normalizeDecimal_fixed v n : normalizeDecimal v = Some n -> normalizeDecimal n = Some n.
Proof.
  intros H. destruct (parseDecimal v) as [q|] eqn:E.
  - destruct (normalize_facts v q E) as (m & qm & Hm & _ & _ & Hf & _). congruence.
  - unfold normalizeDecimal in H. by rewrite E in H.
Qed.

(** [normalizeDecimal] is a canonical form of bounded decimals: it is
    defined exactly where [parseDecimal] is, keeps the exact value, is a fixed
    point of itself, and two decimals with the same value get the same
    spelling. *)
Theorem normalizeDecimal_canonical v q (Hv : parseDecimal v = Some q) :
  exists n qn,
    normalizeDecimal v = Some n /\ parseDecimal n = Some qn /\ (qn == q)%Q /\
    normalizeDecimal n = Some n /\
    (forall w qw, parseDecimal w = Some qw -> (qw == q)%Q -> normalizeDecimal w = Some n).
Proof. by apply normalize_facts. Qed.

Lemma normalizeDecimal_canonical_witness :
  exists n qn, normalizeDecimal "-03.50" = None /\
    normalizeDecimal "-3.50" = Some n /\ parseDecimal n = Some qn /\ (qn == (-35 # 10))%Q.
Proof.
  destruct (normalizeDecimal_canonical "-3.50" (-350 # 100)) as (n & qn & H1 & H2 & H3 & _).
  - vm_compute. reflexivity.
  - exists n, qn. split_and!; [vm_compute; reflexivity|exact H1|exact H2|].
    rewrite H3. vm_compute. reflexivity.
Defined.
