(* ===== verification/GoJson.v ===== *)
(** * [encoding/json]: the encoder

    [json.Marshal] of the values the code marshals: a struct is translated to
    the tree of its fields in declaration order ([json]) and written compactly
    ([Marshal]).  Strings use HTML-safe escaping, ill-formed UTF-8 is replaced
    by U+FFFD; a nil slice is [null], an empty one is [[]]. *)

From S2P Require Import Prelude GoStrings Digest.
From stdpp Require Import pretty.
Local Open Scope Z_scope.

Definition quote : Z := 0x22.
Definition bslash : Z := 0x5C.

(** [\uXXXX] with lowercase hexadecimal digits. *)
Definition unicode_escape (r : Z) : list Z :=
  [bslash; 0x75; hex_digit (r / 4096 mod 16); hex_digit (r / 256 mod 16);
   hex_digit (r / 16 mod 16); hex_digit (r mod 16)].

Definition html_unsafe (r : Z) : bool := (r =? 0x3C) || (r =? 0x3E) || (r =? 0x26).

(** One rune of the source string; [ok] is false for an ill-formed byte. *)
Definition json_rune (item : Z * bool) : list Z :=
  let '(r, ok) := item in
  if negb ok then unicode_escape RuneError
  else if (r =? quote) || (r =? bslash) then [bslash; r]
  else if r =? 0x08 then [bslash; 0x62]
  else if r =? 0x0C then [bslash; 0x66]
  else if r =? 0x0A then [bslash; 0x6E]
  else if r =? 0x0D then [bslash; 0x72]
  else if r =? 0x09 then [bslash; 0x74]
  else if (r <? 0x20) || html_unsafe r then unicode_escape r
  else if (r =? 0x2028) || (r =? 0x2029) then unicode_escape r
  else encode_rune r.

Definition json_string (l : list Z) : list Z :=
  quote :: flat_map json_rune (decode l) ++ [quote].

Example json_string_test :
  of_bytes (json_string (bytes "a<b\c")) = of_bytes ([0x22] ++ bytes "a\u003cb\\c" ++ [0x22]).
Proof. vm_compute. reflexivity. Qed.

(** A comma-separated sequence. *)
Fixpoint commas (items : list (list Z)) : list Z :=
  match items with
  | [] => []
  | [x] => x
  | x :: rest => x ++ 0x2C :: commas rest
  end.

(** ** Trees *)

Inductive json : Type :=
| JNull
| JBool (b : bool)
| JInt (n : Z)
| JString (s : string)
| JArray (items : list json)
| JObject (fields : list (string * json)).

Fixpoint Marshal (v : json) : list Z :=
  match v with
  | JNull => bytes "null"
  | JBool true => bytes "true"
  | JBool false => bytes "false"
  | JInt n => bytes (pretty n)
  | JString s => json_string (bytes s)
  | JArray items => 0x5B :: commas (map Marshal items) ++ [0x5D]
  | JObject fields =>
    0x7B :: commas (map (fun f => json_string (bytes f.1) ++ 0x3A :: Marshal f.2) fields) ++ [0x7D]
  end.

(** A Go slice: [None] is nil, which differs from an empty slice. *)
Notation slice A := (option (list A)).
Definition elems {A : Type} (s : slice A) : list A := match s with Some l => l | None => [] end.
(** [append([]T(nil), l...)] is nil when [l] is empty. *)
Definition append_nil {A : Type} (l : list A) : slice A := match l with [] => None | _ => Some l end.

Definition json_slice {A : Type} (f : A -> json) (s : slice A) : json :=
  match s with Some l => JArray (map f l) | None => JNull end.

(** Fields tagged [omitempty]: a nil pointer, or an empty string. *)
Definition omit_nil {A : Type} (name : string) (f : A -> json) (o : option A) : list (string * json) :=
  match o with Some v => [(name, f v)] | None => [] end.
Definition omit_empty (name value : string) : list (string * json) :=
  if bool_decide (value = "") then [] else [(name, JString value)].

Lemma elems_append_nil {A : Type} (l : list A) : elems (append_nil l) = l.
Proof. by destruct l. Qed.

(** Induction on trees. *)
Section JsonInd.
Context (P : json -> Prop).
Context (Hnull : P JNull) (Hbool : forall b, P (JBool b)) (Hint : forall n, P (JInt n)).
Context (Hstring : forall s, P (JString s)).
Context (Harray : forall items, Forall P items -> P (JArray items)).
Context (Hobject : forall fields, Forall (fun f => P f.2) fields -> P (JObject fields)).

Fixpoint json_induction (v : json) : P v :=
  match v with
  | JNull => Hnull
  | JBool b => Hbool b
  | JInt n => Hint n
  | JString s => Hstring s
  | JArray items =>
    Harray items ((fix go l : Forall P l :=
      match l with
      | [] => @List.Forall_nil _ _
      | x :: l' => @List.Forall_cons _ P x l' (json_induction x) (go l')
      end) items)
  | JObject fields =>
    Hobject fields ((fix go l : Forall (fun f => P f.2) l :=
      match l with
      | [] => @List.Forall_nil _ _
      | x :: l' => @List.Forall_cons _ (fun f => P f.2) x l' (json_induction x.2) (go l')
      end) fields)
  end.
End JsonInd.

(** ** Sizes *)

Lemma json_rune_len item : (length (json_rune item) <= 6)%nat.
Proof.
  destruct item as [r ok]. unfold json_rune. repeat (case_match; cbn; [lia|]); unfold encode_rune.
  repeat case_match; cbn; lia.
Qed.

Lemma decode_length l : (length (decode l) <= length l)%nat.
Proof.
  remember (length l) as n eqn:Hn. assert (Hle : (length l <= n)%nat) by lia. clear Hn.
  revert l Hle. induction n as [|n IH]; intros l Hle; [destruct l; cbn in *; lia|].
  destruct l as [|b0 r0]; cbn [decode]; [cbn; lia|]. cbn in Hle.
  assert (H0 : (length (decode r0) <= n)%nat) by (apply IH; lia).
  repeat case_match; subst; cbn [length] in *; try lia;
    match goal with |- context [decode ?r] => assert ((length (decode r) <= n)%nat) by (apply IH; lia) end; lia.
Qed.

Lemma json_string_len l : slen (json_string l) <= 6 * slen l + 2.
Proof.
  unfold json_string, slen. cbn [length]. rewrite length_app. cbn [length].
  pose proof (decode_length l) as Hd.
  assert (Hf : (length (flat_map json_rune (decode l)) <= 6 * length (decode l))%nat).
  { generalize (decode l) as k. induction k as [|x k IH]; cbn [flat_map length]; [lia|].
    rewrite length_app. pose proof (json_rune_len x). lia. }
  lia.
Qed.

Lemma commas_len items : slen (commas items) <= sumZ (fun x => slen x + 1) items.
Proof.
  induction items as [|x [|y rest] IH].
  - unfold slen. cbn. lia.
  - unfold slen. cbn. lia.
  - change (sumZ (fun x => slen x + 1) (x :: y :: rest)) with
      (slen x + 1 + sumZ (fun x => slen x + 1) (y :: rest)).
    assert (Hl : slen (x ++ 0x2C :: commas (y :: rest)) = slen x + 1 + slen (commas (y :: rest)))
      by (unfold slen; rewrite length_app; cbn [length]; lia).
    change (commas (x :: y :: rest)) with (x ++ 0x2C :: commas (y :: rest)). lia.
Qed.

Lemma sumZ_bound {A : Type} (g : A -> Z) b l :
  Forall (fun x => g x <= b) l -> sumZ g l <= b * slen l.
Proof.
  induction 1 as [|x l Hx _ IH]; cbn [sumZ foldr]; [unfold slen; cbn; lia|]. fold (sumZ g l).
  unfold slen in *. cbn [length]. lia.
Qed.

Lemma marshal_array_len {A : Type} (f : A -> json) b (l : list A) :
  Forall (fun x => slen (Marshal (f x)) <= b) l -> slen (Marshal (JArray (map f l))) <= 2 + (b + 1) * slen l.
Proof.
  intros H. cbn [Marshal]. unfold slen at 1. cbn [length]. rewrite length_app. cbn [length].
  pose proof (commas_len (map Marshal (map f l))) as Hc. rewrite map_map, sumZ_map in Hc.
  assert (Hs : sumZ (fun x => slen (Marshal (f x)) + 1) l <= (b + 1) * slen l).
  { apply sumZ_bound. eapply Forall_impl; [exact H|]. cbn. intros; lia. }
  rewrite map_map. unfold slen in *. lia.
Qed.

Lemma marshal_object_len fields :
  slen (Marshal (JObject fields)) <=
  2 + sumZ (fun f : string * json => 6 * len f.1 + 4 + slen (Marshal f.2)) fields.
Proof.
  cbn [Marshal]. unfold slen at 1. cbn [length]. rewrite length_app. cbn [length].
  pose proof (commas_len (map (fun f : string * json => json_string (bytes f.1) ++ 0x3A :: Marshal f.2) fields)) as Hc.
  rewrite sumZ_map in Hc.
  assert (Hs : sumZ (fun f : string * json => slen (json_string (bytes f.1) ++ 0x3A :: Marshal f.2) + 1) fields <=
    sumZ (fun f : string * json => 6 * len f.1 + 4 + slen (Marshal f.2)) fields).
  { apply sumZ_le. intros f _. pose proof (json_string_len (bytes f.1)) as Hj. rewrite len_bytes.
    unfold slen in *. rewrite length_app. cbn [length]. lia. }
  unfold slen in *. lia.
Qed.
