(* ===== verification/Unmarshal.v ===== *)
(** * [encoding/json]: the decoder

    [json.Unmarshal] reads a document with a state machine over its bytes, a
    stack for the open arrays and objects; the machine here builds the tree of
    the document ([tree]).  A struct is then filled from the members of an object:
    a member goes to the field of its name, or else to the field whose name
    differs in case only, and members of other names are ignored unless the
    decoder disallows them ([known]).  The objects
    the code reads have no repeated members, for which the last one counts here. *)

From stdpp Require Import pretty.
From S2P Require Import Prelude GoStrings Utf8 Digest Digits GoJson.
Local Open Scope go_scope.
Local Open Scope string_scope.
Local Open Scope Z_scope.
Local Open Scope list_scope.

(** A number is kept as its spelling. *)
Inductive tree : Type :=
| VNull
| VBool (b : bool)
| VNumber (lexeme : list Z)
| VString (s : string)
| VArray (items : list tree)
| VObject (members : list (string * tree)).

(** ** Strings *)

(** What stands between the quotes: bytes, escaped characters and the code units
    of the [\u] escapes. *)
Inductive item : Type := Raw (b : Z) | Esc (r : Z) | Uni (u : Z).

(** Ill-formed bytes become U+FFFD. *)
Definition sanitize (l : list Z) : list Z := flat_map (fun r => encode_rune r.1) (decode l).

Definition is_surrogate (u : Z) : bool := between 0xD800 0xDFFF u.
(** [utf16.DecodeRune] *)
Definition surrogate_pair (u v : Z) : option Z :=
  if between 0xD800 0xDBFF u && between 0xDC00 0xDFFF v then Some ((u - 0xD800) * 1024 + (v - 0xDC00) + 0x10000) else None.

Fixpoint unquote (run : list Z) (items : list item) : list Z :=
  match items with
  | [] => sanitize run
  | Raw b :: rest => unquote (run ++ [b]) rest
  | Esc r :: rest => sanitize run ++ r :: unquote [] rest
  | Uni u :: rest =>
    sanitize run ++
    (if is_surrogate u then
       match rest with
       | Uni v :: rest' =>
         match surrogate_pair u v with
         | Some r => encode_rune r ++ unquote [] rest'
         | None => encode_rune RuneError ++ unquote [] rest
         end
       | _ => encode_rune RuneError ++ unquote [] rest
       end
     else encode_rune u ++ unquote [] rest)
  end.

(** ** The parser *)

Inductive token : Type :=
| TValue (v : tree)
| TString (s : string)
| TOpenArray | TCloseArray | TOpenObject | TCloseObject | TComma | TColon.

(** The open arrays and objects; [FMember] is an object whose next value has the
    given name. *)
Inductive frame : Type :=
| FArray (items : list tree)
| FObject (members : list (string * tree))
| FMember (members : list (string * tree)) (key : string).

Inductive expected : Type := WantValue | WantValueOrEnd | WantKey | WantKeyOrEnd | WantColon | AfterValue.
Inductive pstate : Type := Reading (want : expected) (stack : list frame) | Complete (v : tree).

Definition maxNestingDepth : Z := 10000.

Definition put (v : tree) (stack : list frame) : option pstate :=
  match stack with
  | [] => Some (Complete v)
  | FArray items :: rest => Some (Reading AfterValue (FArray (items ++ [v]) :: rest))
  | FMember members key :: rest => Some (Reading AfterValue (FObject (members ++ [(key, v)]) :: rest))
  | FObject _ :: _ => None
  end.

Definition open (f : frame) (want : expected) (stack : list frame) : option pstate :=
  if maxNestingDepth <? slen (f :: stack) then None else Some (Reading want (f :: stack)).

Definition read_value (t : token) (stack : list frame) : option pstate :=
  match t with
  | TValue v => put v stack
  | TString s => put (VString s) stack
  | TOpenArray => open (FArray []) WantValueOrEnd stack
  | TOpenObject => open (FObject []) WantKeyOrEnd stack
  | _ => None
  end.

Definition read_token (p : pstate) (t : token) : option pstate :=
  match p with
  | Complete _ => None
  | Reading want stack =>
    match want, t, stack with
    | WantValueOrEnd, TCloseArray, FArray items :: rest => put (VArray items) rest
    | WantValueOrEnd, _, _ => read_value t stack
    | WantValue, _, _ => read_value t stack
    | WantKeyOrEnd, TCloseObject, FObject members :: rest => put (VObject members) rest
    | WantKeyOrEnd, TString key, FObject members :: rest => Some (Reading WantColon (FMember members key :: rest))
    | WantKey, TString key, FObject members :: rest => Some (Reading WantColon (FMember members key :: rest))
    | WantColon, TColon, _ => Some (Reading WantValue stack)
    | AfterValue, TComma, FArray _ :: _ => Some (Reading WantValue stack)
    | AfterValue, TComma, FObject _ :: _ => Some (Reading WantKey stack)
    | AfterValue, TCloseArray, FArray items :: rest => put (VArray items) rest
    | AfterValue, TCloseObject, FObject members :: rest => put (VObject members) rest
    | _, _, _ => None
    end
  end.

(** ** The scanner *)

(** The part of a number that was read last. *)
Inductive number_part : Type := NMinus | NZero | NInt | NDot | NFrac | NExp | NSign | NExpInt.
Definition number_done (n : number_part) : bool :=
  match n with NZero | NInt | NFrac | NExpInt => true | _ => false end.

Definition number_next (n : number_part) (b : Z) : option number_part :=
  let digit := is_digit b in
  let exp := (b =? 0x65) || (b =? 0x45) in
  match n with
  | NMinus => if b =? 0x30 then Some NZero else if digit then Some NInt else None
  | NZero => if b =? 0x2E then Some NDot else if exp then Some NExp else None
  | NInt => if digit then Some NInt else if b =? 0x2E then Some NDot else if exp then Some NExp else None
  | NDot => if digit then Some NFrac else None
  | NFrac => if digit then Some NFrac else if exp then Some NExp else None
  | NExp => if (b =? 0x2B) || (b =? 0x2D) then Some NSign else if digit then Some NExpInt else None
  | NSign => if digit then Some NExpInt else None
  | NExpInt => if digit then Some NExpInt else None
  end.

Inductive scan : Type :=
| Idle
| InString (items : list item)
| InEscape (items : list item)
| InHex (items : list item) (count : nat) (u : Z)
| InNumber (part : number_part) (lexeme : list Z)
| InLiteral (rest : list Z) (v : tree).

Definition hex_digit_value (b : Z) : option Z :=
  if is_digit b then Some (b - 0x30)
  else if between 0x61 0x66 b then Some (b - 0x61 + 10)
  else if between 0x41 0x46 b then Some (b - 0x41 + 10)
  else None.

Definition json_blank (b : Z) : bool := (b =? 0x20) || (b =? 0x09) || (b =? 0x0A) || (b =? 0x0D).

Definition punctuation (b : Z) : option token :=
  if b =? 0x7B then Some TOpenObject else if b =? 0x7D then Some TCloseObject
  else if b =? 0x5B then Some TOpenArray else if b =? 0x5D then Some TCloseArray
  else if b =? 0x2C then Some TComma else if b =? 0x3A then Some TColon else None.

(** The meaning of a byte after a backslash, [\u] apart. *)
Definition escaped (b : Z) : option Z :=
  if (b =? quote) || (b =? bslash) || (b =? 0x2F) then Some b
  else if b =? 0x62 then Some 0x08 else if b =? 0x66 then Some 0x0C else if b =? 0x6E then Some 0x0A
  else if b =? 0x72 then Some 0x0D else if b =? 0x74 then Some 0x09 else None.

Definition idle_byte (p : pstate) (b : Z) : option (scan * pstate) :=
  if json_blank b then Some (Idle, p)
  else match punctuation b with
  | Some t => p' ← read_token p t; Some (Idle, p')
  | None =>
    if b =? quote then Some (InString [], p)
    else if b =? 0x2D then Some (InNumber NMinus [b], p)
    else if b =? 0x30 then Some (InNumber NZero [b], p)
    else if is_digit b then Some (InNumber NInt [b], p)
    else if b =? 0x74 then Some (InLiteral (bytes "rue") (VBool true), p)
    else if b =? 0x66 then Some (InLiteral (bytes "alse") (VBool false), p)
    else if b =? 0x6E then Some (InLiteral (bytes "ull") VNull, p)
    else None
  end.

(** Ends a number that the next byte does not continue. *)
Definition settle (s : scan * pstate) : option (scan * pstate) :=
  match s with
  | (InNumber part lexeme, p) => if number_done part then p' ← read_token p (TValue (VNumber lexeme)); Some (Idle, p') else None
  | _ => Some s
  end.

Definition string_byte (items : list item) (p : pstate) (b : Z) : option (scan * pstate) :=
  if b =? quote then p' ← read_token p (TString (of_bytes (unquote [] items))); Some (Idle, p')
  else if b =? bslash then Some (InEscape items, p)
  else if b <? 0x20 then None
  else Some (InString (items ++ [Raw b]), p).

Definition scan_byte (s : scan * pstate) (b : Z) : option (scan * pstate) :=
  let '(mode, p) := s in
  match mode with
  | Idle => idle_byte p b
  | InString items => string_byte items p b
  | InEscape items =>
    if b =? 0x75 then Some (InHex items 0 0, p)
    else r ← escaped b; Some (InString (items ++ [Esc r]), p)
  | InHex items count u =>
    d ← hex_digit_value b;
    let u := u * 16 + d in
    Some (if bool_decide (count = 3%nat) then InString (items ++ [Uni u]) else InHex items (S count) u, p)
  | InNumber part lexeme =>
    match number_next part b with
    | Some part' => Some (InNumber part' (lexeme ++ [b]), p)
    | None => s' ← settle s; idle_byte s'.2 b
    end
  | InLiteral rest v =>
    match rest with
    | c :: rest' =>
      if b =? c then
        match rest' with
        | [] => p' ← read_token p (TValue v); Some (Idle, p')
        | _ => Some (InLiteral rest' v, p)
        end
      else None
    | [] => None
    end
  end.

Definition scan_bytes (s : option (scan * pstate)) (l : list Z) : option (scan * pstate) :=
  foldl (fun s b => s' ← s; scan_byte s' b) s l.

Definition parse_tree (document : list Z) : option tree :=
  s ← scan_bytes (Some (Idle, Reading WantValue [])) document;
  s' ← settle s;
  match s' with
  | (Idle, Complete v) => Some v
  | _ => None
  end.

(** ** Structs *)

(** Names that differ in case only: the ASCII letters, and the two other
    characters that fold to one of them. *)
Definition fold_rune (r : Z) : Z :=
  if between 0x61 0x7A r then r - 0x20 else if r =? 0x17F then 0x53 else if r =? 0x212A then 0x4B else r.
Definition fold_name (name : string) : list Z := map fold_rune (runes name).

(** The field that a member is for. *)
Definition field_of (names : list string) (key : string) : option string :=
  if bool_decide (key ∈ names) then Some key else find (fun name => bool_decide (fold_name name = fold_name key)) names.

Definition field (names : list string) (members : list (string * tree)) (name : string) : option tree :=
  snd <$> last (filter (fun m => field_of names m.1 = Some name) members).

Definition int64 (n : Z) : bool := between (- 2 ^ 63) (2 ^ 63 - 1) n.

(** [strconv.ParseInt] of a number's spelling. *)
Definition ParseInt (lexeme : list Z) : option Z :=
  let '(negative, digits) := match lexeme with 0x2D :: rest => (true, rest) | _ => (false, lexeme) end in
  if bool_decide (digits = []) || negb (forallb is_digit digits) then None
  else
    let n := if (negative : bool) then - digits_val digits else digits_val digits in
    if int64 n then Some n else None.

(** A null and a member that is not there leave the field as it was. *)
Definition string_field (v : option tree) : option string :=
  match v with
  | None | Some VNull => Some ""
  | Some (VString s) => Some s
  | _ => None
  end.
Definition int_field (v : option tree) : option Z :=
  match v with
  | None | Some VNull => Some 0
  | Some (VNumber lexeme) => ParseInt lexeme
  | _ => None
  end.
Definition list_field {A : Type} (decode : tree -> option A) (v : option tree) : option (list A) :=
  match v with
  | None | Some VNull => Some []
  | Some (VArray items) => mapM decode items
  | _ => None
  end.
Definition struct_field {A : Type} (decode : list (string * tree) -> option A) (v : option tree) : option A :=
  match v with
  | None | Some VNull => decode []
  | Some (VObject members) => decode members
  | _ => None
  end.
Definition struct_item {A : Type} (decode : list (string * tree) -> option A) (v : tree) : option A := struct_field decode (Some v).

(** [DisallowUnknownFields]: every member is for some field. *)
Definition known {A : Type} (names : list string) (decode : list (string * tree) -> option A) (members : list (string * tree)) : option A :=
  if forallb (fun m => bool_decide (is_Some (field_of names m.1))) members then decode members else None.
