(* ===== verification/UnmarshalSpec.v ===== *)
(** * What [json.Marshal] writes, [json.Unmarshal] reads *)

From stdpp Require Import pretty.
From S2P Require Import Prelude GoStrings Utf8 Digest Digits GoJson Unmarshal.
Local Open Scope go_scope.
Local Open Scope string_scope.
Local Open Scope Z_scope.
Local Open Scope list_scope.

(** ** Strings *)

Lemma decode_scalar l : Forall (fun b => 0 <= b) l -> Forall (fun r => scalar r.1) (decode l).
Proof.
  induction l as [l IH] using (induction_ltof1 _ (@length _)). unfold ltof in IH.
  destruct l as [|b0 l]; intros Hn; [constructor|]. inversion Hn as [|? ? Hb0 Hn']; subst.
  assert (Hbad : scalar RuneError) by (unfold scalar, RuneError; lia).
  assert (Htail : Forall (fun r => scalar r.1) ((RuneError, false) :: decode l)) by (constructor; [done|]; apply IH; [cbn; lia|done]).
  cbn [decode]. destruct (Z.ltb_spec b0 0x80) as [H1|H1].
  { constructor; [unfold scalar; cbn; lia|]. apply IH; [cbn; lia|done]. }
  destruct (between 0xC2 0xDF b0) eqn:H2.
  { apply between_spec in H2. destruct l as [|b1 r1]; [by repeat constructor|]. destruct (cont b1) eqn:C1; [|done].
    apply between_spec in C1. constructor; [by apply (encode_rune2 b0 b1)|]. apply IH; [cbn; lia|by inversion Hn']. }
  destruct (between 0xE0 0xEF b0) eqn:H3.
  { apply between_spec in H3. destruct l as [|b1 [|b2 r2]]; [done..|]. destruct (second3 b0 b1 && cont b2) eqn:C; [|done].
    apply andb_true_iff in C as [C1 C2]. apply between_spec in C2. constructor; [by apply (encode_rune3 b0 b1 b2)|].
    apply IH; [cbn; lia|]. by do 2 (apply Forall_cons in Hn' as [_ Hn']). }
  destruct (between 0xF0 0xF4 b0) eqn:H4; [|done].
  apply between_spec in H4. destruct l as [|b1 [|b2 [|b3 r3]]]; [done..|]. destruct (second4 b0 b1 && cont b2 && cont b3) eqn:C; [|done].
  apply andb_true_iff in C as [[C1 C2]%andb_true_iff C3]. apply between_spec in C2, C3. constructor; [by apply (encode_rune4 b0 b1 b2 b3)|].
  apply IH; [cbn; lia|]. by do 3 (apply Forall_cons in Hn' as [_ Hn']).
Qed.

Lemma bytes_scalar s : Forall (fun r => scalar r.1) (decode (bytes s)).
Proof. apply decode_scalar. eapply Forall_impl; [apply bytes_range|]. unfold is_byte. cbn. lia. Qed.

Lemma scan_app s l k : scan_bytes s (l ++ k) = scan_bytes (scan_bytes s l) k.
Proof. apply foldl_app. Qed.

Lemma scan_cons s b l : scan_bytes (Some s) (b :: l) = scan_bytes (scan_byte s b) l.
Proof. done. Qed.

(** How a rune of a written string is read. *)
Definition rune_items (r : Z * bool) : list item :=
  let '(r, ok) := r in
  if negb ok then [Uni RuneError]
  else if (r =? quote) || (r =? bslash) || (r =? 0x08) || (r =? 0x0C) || (r =? 0x0A) || (r =? 0x0D) || (r =? 0x09) then [Esc r]
  else if (r <? 0x20) || html_unsafe r || (r =? 0x2028) || (r =? 0x2029) then [Uni r]
  else map Raw (encode_rune r).

Lemma hex_value_of_digit x : 0 <= x < 16 -> hex_digit_value (hex_digit x) = Some x.
Proof.
  intros H. assert (Hin : In x [0;1;2;3;4;5;6;7;8;9;10;11;12;13;14;15]) by (cbn; lia). cbn in Hin.
  repeat destruct Hin as [<-|Hin]; done.
Qed.

Lemma scan_hex its p count u x : 0 <= x < 16 ->
  scan_byte (InHex its count u, p) (hex_digit x) =
  Some (if bool_decide (count = 3%nat) then InString (its ++ [Uni (u * 16 + x)]) else InHex its (S count) (u * 16 + x), p).
Proof. intros H. cbn [scan_byte]. by rewrite hex_value_of_digit. Qed.

Lemma scan_unicode its p r : 0 <= r < 0x10000 -> scan_bytes (Some (InString its, p)) (unicode_escape r) = Some (InString (its ++ [Uni r]), p).
Proof.
  intros Hr. unfold unicode_escape. rewrite scan_cons. change (scan_byte (InString its, p) bslash) with (Some (InEscape its, p)).
  rewrite scan_cons. change (scan_byte (InEscape its, p) 0x75) with (Some (InHex its 0 0, p)).
  rewrite scan_cons, scan_hex by (apply Z.mod_pos_bound; lia). rewrite bool_decide_eq_false_2 by done.
  rewrite scan_cons, scan_hex by (apply Z.mod_pos_bound; lia). rewrite bool_decide_eq_false_2 by done.
  rewrite scan_cons, scan_hex by (apply Z.mod_pos_bound; lia). rewrite bool_decide_eq_false_2 by done.
  rewrite scan_cons, scan_hex by (apply Z.mod_pos_bound; lia). rewrite bool_decide_eq_true_2 by done.
  cbn [scan_bytes foldl]. do 5 f_equal. f_equal. Z.to_euclidean_division_equations. lia.
Qed.

Lemma scan_raw its p l : Forall (fun b => 0x20 <= b /\ b <> quote /\ b <> bslash) l ->
  scan_bytes (Some (InString its, p)) l = Some (InString (its ++ map Raw l), p).
Proof.
  intros H. revert its. induction H as [|b l (H1 & H2 & H3) _ IH]; intros its; [by rewrite app_nil_r|].
  rewrite scan_cons. cbn [scan_byte]. unfold string_byte. rewrite (proj2 (Z.eqb_neq _ _) H2), (proj2 (Z.eqb_neq _ _) H3), (proj2 (Z.ltb_ge _ _) H1).
  rewrite IH, <- app_assoc. done.
Qed.

Lemma scan_escape its p r c : (c =? 0x75) = false -> escaped c = Some r ->
  scan_bytes (Some (InString its, p)) [bslash; c] = Some (InString (its ++ [Esc r]), p).
Proof. intros Hc He. rewrite scan_cons. change (scan_byte (InString its, p) bslash) with (Some (InEscape its, p)). cbn. by rewrite Hc, He. Qed.

Lemma scan_rune its p r : scalar r.1 -> scan_bytes (Some (InString its, p)) (json_rune r) = Some (InString (its ++ rune_items r), p).
Proof.
  destruct r as [r ok]. cbn [fst]. intros Hs. unfold json_rune, rune_items. destruct ok; cbn [negb]; [|by apply scan_unicode].
  destruct (Z.eqb_spec r quote) as [->|Hq]; [by apply scan_escape|]. destruct (Z.eqb_spec r bslash) as [->|Hb]; [by apply scan_escape|]. cbn [orb].
  destruct (Z.eqb_spec r 0x08) as [->|]; [by apply scan_escape|]. destruct (Z.eqb_spec r 0x0C) as [->|]; [by apply scan_escape|].
  destruct (Z.eqb_spec r 0x0A) as [->|]; [by apply scan_escape|]. destruct (Z.eqb_spec r 0x0D) as [->|]; [by apply scan_escape|].
  destruct (Z.eqb_spec r 0x09) as [->|]; [by apply scan_escape|]. cbn [orb].
  assert (Hr0 : 0 <= r) by (unfold scalar in Hs; lia).
  destruct (Z.ltb_spec r 0x20); cbn [orb]; [apply scan_unicode; lia|].
  destruct (html_unsafe r) eqn:Hu; cbn [orb]; [apply scan_unicode; unfold html_unsafe in Hu; rewrite !orb_true_iff, !Z.eqb_eq in Hu; lia|].
  destruct (Z.eqb_spec r 0x2028) as [->|]; cbn [orb]; [by apply scan_unicode|]. destruct (Z.eqb_spec r 0x2029) as [->|]; [by apply scan_unicode|].
  apply scan_raw. destruct (encode_rune_bytes r Hs) as [[_ ->]|(_ & Hh & _)]; [by repeat constructor|].
  eapply Forall_impl; [exact Hh|]. unfold quote, bslash. cbn. lia.
Qed.

Lemma scan_runes l : forall its p, Forall (fun r => scalar r.1) l ->
  scan_bytes (Some (InString its, p)) (flat_map json_rune l) = Some (InString (its ++ flat_map rune_items l), p).
Proof.
  induction l as [|r l IH]; intros its p H; [by rewrite app_nil_r|]. inversion_clear H as [|? ? Hr Hl]. cbn [flat_map].
  rewrite scan_app, scan_rune, IH, <- app_assoc by done. done.
Qed.

Lemma sanitize_runes rs : Forall scalar rs -> sanitize (encode_runes rs) = encode_runes rs.
Proof.
  intros H. unfold sanitize. rewrite <- (app_nil_r (encode_runes rs)) at 1. rewrite decode_encode_runes by done. cbn [decode]. rewrite app_nil_r.
  clear H. induction rs as [|r rs IH]; [done|]. cbn. f_equal. exact IH.
Qed.

Lemma unquote_raw l : forall run items, unquote run (map Raw l ++ items) = unquote (run ++ l) items.
Proof. induction l as [|b l IH]; intros run items; [by rewrite app_nil_r|]. cbn [map app unquote]. rewrite IH, <- app_assoc. done. Qed.

(** Only surrogates look at the next item. *)
Lemma unquote_uni run r items : is_surrogate r = false -> unquote run (Uni r :: items) = sanitize run ++ encode_rune r ++ unquote [] items.
Proof. intros H. cbn [unquote]. by rewrite H. Qed.

Lemma unquote_esc run r items : unquote run (Esc r :: items) = sanitize run ++ r :: unquote [] items.
Proof. done. Qed.

Lemma scalar_not_surrogate r : scalar r -> is_surrogate r = false.
Proof. unfold scalar, is_surrogate. rewrite between_false. lia. Qed.

Lemma encode_ascii r : r < 0x80 -> encode_rune r = [r].
Proof. intros H. unfold encode_rune. by rewrite (proj2 (Z.ltb_lt _ _) H). Qed.

Lemma unquote_runes l : Forall (fun r => scalar r.1 /\ (r.2 = false -> r.1 = RuneError)) l -> forall rs, Forall scalar rs ->
  unquote (encode_runes rs) (flat_map rune_items l) = encode_runes rs ++ flat_map (fun r => encode_rune r.1) l.
Proof.
  induction 1 as [|[r ok] l [Hr Hbad] _ IH]; intros rs Hrs; [cbn; by rewrite app_nil_r, sanitize_runes|]. cbn [fst snd] in *.
  assert (Hnil : unquote [] (flat_map rune_items l) = flat_map (fun r => encode_rune r.1) l) by (apply (IH []); constructor).
  assert (Huni : unquote (encode_runes rs) (Uni r :: flat_map rune_items l) = encode_runes rs ++ encode_rune r ++ flat_map (fun r => encode_rune r.1) l).
  { rewrite unquote_uni, sanitize_runes, Hnil by (done || by apply scalar_not_surrogate). done. }
  cbn [flat_map fst]. unfold rune_items at 1. destruct ok; cbn [negb]; [|rewrite Hbad in * by done; exact Huni].
  destruct (_ || _ || _ || _ || _ || _ || _) eqn:E1 in |- *.
  - change ([Esc r] ++ flat_map rune_items l) with (Esc r :: flat_map rune_items l). rewrite unquote_esc, sanitize_runes, Hnil by done. rewrite encode_ascii; [done|]. rewrite !orb_true_iff, !Z.eqb_eq in E1. unfold quote, bslash in E1. lia.
  - destruct (_ || _ || _ || _) in |- *; [exact Huni|]. rewrite unquote_raw.
    assert (He : encode_runes rs ++ encode_rune r = encode_runes (rs ++ [r])) by (unfold encode_runes; by rewrite flat_map_app; cbn; rewrite app_nil_r).
    rewrite He, IH, <- He, <- app_assoc by (apply Forall_app; split; [done|by apply Forall_singleton]). done.
Qed.

Lemma decode_bad l : Forall (fun r => r.2 = false -> r.1 = RuneError) (decode l).
Proof.
  induction l as [l IH] using (induction_ltof1 _ (@length _)). unfold ltof in IH. destruct l as [|b0 l]; [constructor|].
  cbn [decode]. repeat case_match; constructor; try done; apply IH; cbn; lia.
Qed.

Lemma unquote_string s : unquote [] (flat_map rune_items (decode (bytes s))) = sanitize (bytes s).
Proof. apply (unquote_runes _ ltac:(apply Forall_and; split; [apply bytes_scalar|apply decode_bad]) []). constructor. Qed.

Definition sanitized (s : string) : string := of_bytes (sanitize (bytes s)).

Lemma sanitized_valid s : ValidString s = true -> sanitized s = s.
Proof.
  intros H. unfold sanitized. destruct (valid_utf8_runes _ H) as (rs & Hrs & E).
  - eapply Forall_impl; [apply bytes_range|]. unfold is_byte. cbn. lia.
  - rewrite E, sanitize_runes, <- E by done. apply of_bytes_bytes.
Qed.

(** A written string is read as one token. *)
Lemma scan_string p s : scan_bytes (Some (Idle, p)) (json_string (bytes s)) = p' ← read_token p (TString (sanitized s)); Some (Idle, p').
Proof.
  unfold json_string. rewrite scan_cons. change (scan_byte (Idle, p) quote) with (Some (InString [], p)).
  rewrite scan_app, scan_runes by apply bytes_scalar. rewrite scan_cons. cbn [scan_byte app]. unfold string_byte. rewrite Z.eqb_refl, unquote_string. done.
Qed.

(** ** Documents *)

Fixpoint tree_of (j : json) : tree :=
  match j with
  | JNull => VNull
  | JBool b => VBool b
  | JInt n => VNumber (bytes (pretty n))
  | JString s => VString (sanitized s)
  | JArray items => VArray (map tree_of items)
  | JObject fields => VObject (map (fun f => (sanitized f.1, tree_of f.2)) fields)
  end.

Fixpoint nesting (j : json) : Z :=
  match j with
  | JArray items => 1 + foldr (fun x n => Z.max (nesting x) n) 0 items
  | JObject fields => 1 + foldr (fun f n => Z.max (nesting f.2) n) 0 fields
  | _ => 0
  end.

Definition integer_part (part : number_part) : Prop := part = NZero \/ part = NInt.

(** The bytes [l] take the parser from [p] to [p'], up to a number whose end is
    not yet seen. *)
Definition reads (l : list Z) (p p' : pstate) : Prop :=
  exists s, scan_bytes (Some (Idle, p)) l = Some s /\ settle s = Some (Idle, p') /\
    (s = (Idle, p') \/ exists part lexeme q, s = (InNumber part lexeme, q) /\ integer_part part).

Definition closing (b : Z) : Prop := b = 0x2C \/ b = 0x5D \/ b = 0x7D.

Lemma reads_idle l p p' : scan_bytes (Some (Idle, p)) l = Some (Idle, p') -> reads l p p'.
Proof. intros H. exists (Idle, p'). split_and!; [done|done|by left]. Qed.

Lemma number_closing part b : integer_part part -> closing b -> number_next part b = None.
Proof. by intros [-> | ->] [-> |[-> | ->]]. Qed.

Lemma reads_then l p p' b k s : reads l p p' -> closing b -> scan_bytes (idle_byte p' b) k = s -> scan_bytes (Some (Idle, p)) (l ++ b :: k) = s.
Proof.
  intros (s0 & Hs & Hse & Hc) Hb Hk. rewrite scan_app, Hs, scan_cons. destruct Hc as [->|(part & lexeme & q & -> & Hp)]; [exact Hk|].
  rewrite <- Hk. f_equal. cbn [scan_byte]. rewrite (number_closing _ _ Hp Hb), Hse. done.
Qed.

Lemma reads_string p s p' : read_token p (TString (sanitized s)) = Some p' -> reads (json_string (bytes s)) p p'.
Proof. intros H. apply reads_idle. by rewrite scan_string, H. Qed.

Lemma scan_digits l : forall lexeme p, digits l -> scan_bytes (Some (InNumber NInt lexeme, p)) l = Some (InNumber NInt (lexeme ++ l), p).
Proof.
  induction l as [|b l IH]; intros lexeme p H; [by rewrite app_nil_r|]. inversion_clear H as [|? ? Hb Hl]. rewrite scan_cons. cbn [scan_byte number_next].
  rewrite Hb, IH, <- app_assoc by done. done.
Qed.

Lemma positive_spelling (n : positive) : exists b l, bytes (pretty n) = b :: l /\ is_digit b = true /\ b <> zero /\ digits l.
Proof.
  destruct (pretty_positive_digits n) as (l & -> & Hd & _ & b & k & -> & Hb). inversion_clear Hd. eauto 6.
Qed.

Lemma idle_digit p b : is_digit b = true -> b <> zero -> scan_byte (Idle, p) b = Some (InNumber NInt [b], p).
Proof.
  intros Hd%is_digit_range Hb. unfold zero in *. assert (Hin : In b [0x31;0x32;0x33;0x34;0x35;0x36;0x37;0x38;0x39]) by (cbn; lia). cbn in Hin.
  repeat destruct Hin as [<-|Hin]; done.
Qed.

Lemma reads_int (n : Z) p p' : read_token p (TValue (VNumber (bytes (pretty n)))) = Some p' -> reads (bytes (pretty n)) p p'.
Proof.
  intros Hp.
  assert (Hs : exists part, scan_bytes (Some (Idle, p)) (bytes (pretty n)) = Some (InNumber part (bytes (pretty n)), p) /\ integer_part part).
  { destruct n as [|n|n].
    - exists NZero. split; [done|by left].
    - change (pretty (Z.pos n)) with (pretty n). destruct (positive_spelling n) as (b & l & -> & Hb & Hz & Hl). exists NInt. split; [|by right].
      rewrite scan_cons, idle_digit, scan_digits by done. done.
    - change (bytes (pretty (Z.neg n))) with (0x2D :: bytes (pretty n)). destruct (positive_spelling n) as (b & l & -> & Hb & Hz & Hl).
      exists NInt. split; [|by right]. rewrite scan_cons. change (scan_byte (Idle, p) 45) with (Some (InNumber NMinus [0x2D], p)).
      rewrite scan_cons. cbn [scan_byte number_next]. rewrite Hb. change (b =? 0x30) with (b =? zero). rewrite (proj2 (Z.eqb_neq _ _) Hz).
      rewrite scan_digits by done. done. }
  destruct Hs as (part & Hs & Hpart). eexists. split; [exact Hs|]. split.
  - cbn [settle]. assert (number_done part = true) as ->; [|by rewrite Hp]. by destruct Hpart as [-> | ->].
  - right. eauto.
Qed.

(** A value is read at any place where one is wanted. *)
Definition value_place (p : pstate) (stack : list frame) : Prop := p = Reading WantValue stack \/ p = Reading WantValueOrEnd stack.
Definition reads_back (j : json) : Prop := forall p stack p', value_place p stack -> nesting j + slen stack <= maxNestingDepth ->
  put (tree_of j) stack = Some p' -> reads (Marshal j) p p'.

Lemma place_token p stack t : value_place p stack -> (t = TCloseArray -> False) -> read_token p t = read_value t stack.
Proof. intros [->| ->] H; [done|]. destruct t; done. Qed.

Lemma nesting_nonneg j : 0 <= nesting j.
Proof.
  induction j as [| | | |items IH|fields IH] using json_induction; cbn [nesting]; try lia.
  - induction IH; cbn [foldr]; lia.
  - induction IH; cbn [foldr]; lia.
Qed.

Lemma items_read items : Forall reads_back items -> forall acc p stack, value_place p (FArray acc :: stack) -> items <> [] ->
  foldr (fun x n => Z.max (nesting x) n) 0 items + slen (FArray acc :: stack) <= maxNestingDepth ->
  reads (commas (map Marshal items)) p (Reading AfterValue (FArray (acc ++ map tree_of items) :: stack)).
Proof.
  induction 1 as [|x items Hx _ IH]; intros acc p stack Hp Hne Hn; [done|]. cbn [foldr] in Hn.
  assert (Hr : reads (Marshal x) p (Reading AfterValue (FArray (acc ++ [tree_of x]) :: stack))) by (eapply Hx; [exact Hp|lia|done]).
  destruct items as [|y items]; [exact Hr|].
  change (commas (map Marshal (x :: y :: items))) with (Marshal x ++ 0x2C :: commas (map Marshal (y :: items))).
  destruct (IH (acc ++ [tree_of x]) (Reading WantValue (FArray (acc ++ [tree_of x]) :: stack)) stack) as (s & Hs & Hse & Hc); [by left|done|unfold slen in *; cbn in *; lia|].
  rewrite <- app_assoc in Hse, Hc. exists s. split_and!; [|exact Hse|exact Hc]. eapply reads_then; [exact Hr|by left|exact Hs].
Qed.

Lemma close_array w items stack : w = WantValueOrEnd \/ w = AfterValue ->
  idle_byte (Reading w (FArray items :: stack)) 0x5D = p' ← put (VArray items) stack; Some (Idle, p').
Proof. by intros [-> | ->]. Qed.
Lemma close_object w members stack : w = WantKeyOrEnd \/ w = AfterValue ->
  idle_byte (Reading w (FObject members :: stack)) 0x7D = p' ← put (VObject members) stack; Some (Idle, p').
Proof. by intros [-> | ->]. Qed.

Lemma array_reads_back items : Forall reads_back items -> reads_back (JArray items).
Proof.
  intros H p stack p' Hp Hn Hput. cbn [nesting] in Hn. cbn [Marshal tree_of] in *. apply reads_idle. rewrite scan_cons.
  assert (Hopen : scan_byte (Idle, p) 0x5B = Some (Idle, Reading WantValueOrEnd (FArray [] :: stack))).
  { change (scan_byte (Idle, p) 0x5B) with (p' ← read_token p TOpenArray; Some (Idle, p')). rewrite (place_token p stack) by done. cbn [read_value].
    unfold open. assert (0 <= foldr (fun x n => Z.max (nesting x) n) 0 items) by (clear; induction items; cbn [foldr]; lia).
    rewrite (proj2 (Z.ltb_ge _ _)) by (unfold slen in *; cbn [length]; lia). done. }
  rewrite Hopen. destruct items as [|x items]; [cbn [map commas app] in *; rewrite scan_cons; cbn [scan_byte]; rewrite close_array, Hput by auto; done|].
  eapply reads_then; [apply (items_read _ H); [by right|done|unfold slen in *; cbn [length]; lia]|by right; left|].
  rewrite close_array by auto. cbn [app]. by rewrite Hput.
Qed.

Lemma member_read name j acc p stack : p = Reading WantKey (FObject acc :: stack) \/ p = Reading WantKeyOrEnd (FObject acc :: stack) ->
  reads_back j -> nesting j + slen (FObject acc :: stack) <= maxNestingDepth ->
  reads (json_string (bytes name) ++ 0x3A :: Marshal j) p (Reading AfterValue (FObject (acc ++ [(sanitized name, tree_of j)]) :: stack)).
Proof.
  intros Hp Hj Hn. destruct (Hj (Reading WantValue (FMember acc (sanitized name) :: stack)) (FMember acc (sanitized name) :: stack)
    (Reading AfterValue (FObject (acc ++ [(sanitized name, tree_of j)]) :: stack))) as (s & Hs & Hrest); [by left|exact Hn|done|].
  exists s. split; [|exact Hrest]. rewrite scan_app, scan_string. by destruct Hp as [-> | ->].
Qed.

Lemma fields_read fields : Forall (fun f => reads_back f.2) fields -> forall acc p stack,
  p = Reading WantKey (FObject acc :: stack) \/ p = Reading WantKeyOrEnd (FObject acc :: stack) -> fields <> [] ->
  foldr (fun f n => Z.max (nesting f.2) n) 0 fields + slen (FObject acc :: stack) <= maxNestingDepth ->
  reads (commas (map (fun f => json_string (bytes f.1) ++ 0x3A :: Marshal f.2) fields)) p
    (Reading AfterValue (FObject (acc ++ map (fun f => (sanitized f.1, tree_of f.2)) fields) :: stack)).
Proof.
  induction 1 as [|[name j] fields Hx _ IH]; intros acc p stack Hp Hne Hn; [done|]. cbn [foldr snd] in *.
  assert (Hr : reads (json_string (bytes name) ++ 0x3A :: Marshal j) p (Reading AfterValue (FObject (acc ++ [(sanitized name, tree_of j)]) :: stack)))
    by (apply member_read; [done|done|lia]).
  destruct fields as [|y fields]; [exact Hr|].
  destruct (IH (acc ++ [(sanitized name, tree_of j)]) (Reading WantKey (FObject (acc ++ [(sanitized name, tree_of j)]) :: stack)) stack) as (s & Hs & Hse & Hc);
    [by left|done|unfold slen in *; cbn in *; lia|].
  rewrite <- app_assoc in Hse, Hc. exists s. split_and!; [|exact Hse|exact Hc]. eapply reads_then; [exact Hr|by left|exact Hs].
Qed.

Lemma object_reads_back fields : Forall (fun f => reads_back f.2) fields -> reads_back (JObject fields).
Proof.
  intros H p stack p' Hp Hn Hput. cbn [nesting] in Hn. cbn [Marshal tree_of] in *. apply reads_idle. rewrite scan_cons.
  assert (Hopen : scan_byte (Idle, p) 0x7B = Some (Idle, Reading WantKeyOrEnd (FObject [] :: stack))).
  { change (scan_byte (Idle, p) 0x7B) with (p' ← read_token p TOpenObject; Some (Idle, p')). rewrite (place_token p stack) by done. cbn [read_value].
    unfold open. assert (0 <= foldr (fun f n => Z.max (nesting f.2) n) 0 fields) by (clear; induction fields; cbn [foldr]; lia).
    rewrite (proj2 (Z.ltb_ge _ _)) by (unfold slen in *; cbn [length]; lia). done. }
  rewrite Hopen. destruct fields as [|x fields]; [cbn [map commas app] in *; rewrite scan_cons; cbn [scan_byte]; rewrite close_object, Hput by auto; done|].
  eapply reads_then; [apply (fields_read _ H); [by right|done|unfold slen in *; cbn [length]; lia]|by right; right|].
  rewrite close_object by auto. cbn [app]. by rewrite Hput.
Qed.

Lemma scalar_place p stack v p' : value_place p stack -> put v stack = Some p' -> read_token p (TValue v) = Some p'.
Proof. intros Hp Hput. by rewrite (place_token p stack). Qed.

Lemma scan_literals p : scan_bytes (Some (Idle, p)) (bytes "null") = (p' ← read_token p (TValue VNull); Some (Idle, p')) /\
  scan_bytes (Some (Idle, p)) (bytes "true") = (p' ← read_token p (TValue (VBool true)); Some (Idle, p')) /\
  scan_bytes (Some (Idle, p)) (bytes "false") = (p' ← read_token p (TValue (VBool false)); Some (Idle, p')).
Proof. done. Qed.

Lemma marshal_reads j : reads_back j.
Proof.
  induction j as [|b|n|s|items IH|fields IH] using json_induction; [..|by apply array_reads_back|by apply object_reads_back];
    intros p stack p' Hp Hn Hput; cbn [Marshal tree_of] in *.
  - apply reads_idle. pose proof (scalar_place _ _ _ _ Hp Hput) as Ht. by rewrite (proj1 (scan_literals p)), Ht.
  - apply reads_idle. pose proof (scalar_place _ _ _ _ Hp Hput) as Ht. destruct (scan_literals p) as (_ & Ht1 & Ht2).
    destruct b; [rewrite Ht1|rewrite Ht2]; by rewrite Ht.
  - apply reads_int. by apply (scalar_place _ stack).
  - apply reads_string. by rewrite (place_token p stack).
Qed.

(** A document that [Marshal] wrote is read as its tree. *)
Lemma parse_marshal j : nesting j <= maxNestingDepth -> parse_tree (Marshal j) = Some (tree_of j).
Proof.
  intros Hn. destruct (marshal_reads j (Reading WantValue []) [] (Complete (tree_of j))) as (s & Hs & Hse & _); [by left|unfold slen; cbn; lia|done|].
  unfold parse_tree. rewrite Hs. cbn [mbind option_bind]. by rewrite Hse.
Qed.

(** ** Structs *)

Definition members_of (fields : list (string * json)) : list (string * tree) := map (fun f => (sanitized f.1, tree_of f.2)) fields.

Lemma members_app a b : members_of (a ++ b) = members_of a ++ members_of b.
Proof. apply map_app. Qed.

Lemma field_nil names n : field names [] n = None.
Proof. done. Qed.
Lemma field_app names a b n : field names (a ++ b) n = field names b n ∪ field names a n.
Proof.
  unfold field. rewrite filter_app, last_app. destruct (last (filter _ b)) as [[? v]|]; cbn; [by destruct (last (filter _ a))|].
  by destruct (last (filter _ a)).
Qed.

(** Names of fields are plain text. *)
Definition plain_name (names : list string) (k : string) : bool := bool_decide (k ∈ names) && ValidString k.

Lemma field_one names k v n : plain_name names k = true -> field names (members_of [(k, v)]) n = if k =?= n then Some (tree_of v) else None.
Proof.
  unfold plain_name. rewrite andb_true_iff, bool_decide_eq_true. intros [Hk Hv]. unfold field, members_of. cbn [map fst snd]. rewrite sanitized_valid by done.
  unfold field_of. rewrite filter_cons. cbn [fst]. rewrite bool_decide_eq_true_2 by done. case_bool_decide as E.
  - subst. by rewrite decide_True.
  - by rewrite decide_False by congruence.
Qed.
Lemma field_cons names k v rest n : plain_name names k = true ->
  field names (members_of ((k, v) :: rest)) n = field names (members_of rest) n ∪ (if k =?= n then Some (tree_of v) else None).
Proof. intros H. rewrite <- (field_one names k v n) by done. by rewrite <- field_app, <- members_app. Qed.
Lemma field_omit_empty names k s n : plain_name names k = true ->
  field names (members_of (omit_empty k s)) n = if k =?= n then (if s =?= "" then None else Some (VString (sanitized s))) else None.
Proof. intros H. unfold omit_empty. case_bool_decide as E; [cbn; by case_bool_decide|]. by apply field_one. Qed.

Lemma string_read s : ValidString s = true -> string_field (Some (tree_of (JString s))) = Some s.
Proof. intros H. cbn. by rewrite sanitized_valid. Qed.
Lemma string_read_omitted s : ValidString s = true -> string_field (if s =?= "" then None else Some (VString (sanitized s))) = Some s.
Proof. intros H. case_bool_decide as E; [by subst|]. cbn. by rewrite sanitized_valid. Qed.

Lemma digits_forallb l : digits l -> forallb is_digit l = true.
Proof. intros H. by apply forallb_true. Qed.

Lemma ParseInt_pretty n : int64 n = true -> ParseInt (bytes (pretty n)) = Some n.
Proof.
  intros H. destruct n as [|n|n]; [done| |].
  - change (pretty (Z.pos n)) with (pretty n). destruct (pretty_positive_digits n) as (l & -> & Hd & Hv & b & k & -> & Hb). unfold ParseInt.
    pose proof (Forall_inv Hd) as Hb'. apply is_digit_range in Hb'. unfold zero in *.
    destruct (Z.eq_dec b 0x2D) as [->|Hm]; [lia|].
    assert (E : (match b :: k with 0x2D :: rest => (true, rest) | _ => (false, b :: k) end) = (false, b :: k)).
    { destruct b as [|b|b]; [done| |done]. repeat (destruct b as [b|b|]; try done). }
    rewrite E. rewrite bool_decide_eq_false_2, digits_forallb by done. cbn [orb negb]. by rewrite Hv, H.
  - change (bytes (pretty (Z.neg n))) with (0x2D :: bytes (pretty n)). destruct (pretty_positive_digits n) as (l & -> & Hd & Hv & b & k & -> & Hb).
    unfold ParseInt. rewrite bool_decide_eq_false_2, digits_forallb by done. cbn [orb negb]. rewrite Hv. change (- Z.pos n) with (Z.neg n). by rewrite H.
Qed.
Lemma int_read n : int64 n = true -> int_field (Some (tree_of (JInt n))) = Some n.
Proof. apply ParseInt_pretty. Qed.

Lemma list_read {A : Type} (f : A -> json) (dec : tree -> option A) l : Forall (fun x => dec (tree_of (f x)) = Some x) l ->
  list_field dec (Some (tree_of (JArray (map f l)))) = Some l.
Proof. intros H. cbn [tree_of list_field]. induction H as [|x l Hx _ IH]; [done|]. cbn. rewrite Hx. cbn. cbn in IH. by rewrite IH. Qed.

(** Finds the member of a constant name in a written struct. *)
Ltac const_names :=
  repeat match goal with
  | |- context [bool_decide (?a = ?b)] =>
    let r := eval vm_compute in (bool_decide (a = b)) in
    lazymatch r with true => idtac | false => idtac end;
    change (bool_decide (a = b)) with r; cbv iota
  end.
Ltac find_field :=
  repeat (rewrite ?members_app, ?field_app; (rewrite field_cons by reflexivity) || (rewrite field_omit_empty by reflexivity));
  rewrite ?field_nil; const_names; rewrite ?(left_id_L None (∪)), ?(right_id_L None (∪)).
