(* ===== verification/GateEngine.v ===== *)
(** * The Gate decision engine (src/v3/internal/gate/engine.go)

    [Evaluate] turns the declared policy and the verifier's bounded
    observations into a list of named checks and a verdict.  In the code,
    [Evaluate] and its helpers append to the check list through the closures
    [add] and [invalid]; nothing they decide depends on what the closures have
    done so far.  The model therefore lists the calls of each block in order
    ([op]) and performs them on the closure state ([perform]). *)

From S2P Require Import Prelude GoStrings Digest GoJson Glob Coverage.
From stdpp Require Import pretty.
Local Open Scope go_scope.
Local Open Scope Z_scope.

Definition MaxChangedPaths : Z := 4096.
Definition MaxScopePatterns : Z := 256.
Definition MaxCommands : Z := 32.
Definition MaxCommandEvidence : Z := 32.
Definition MaxChecks : Z := 64.
Definition MaxObservedFiles : Z := MaxChangedPaths.
Definition MaxObservedLines : Z := 1000000000.
Definition MaxDurationMillis : Z := 24 * 60 * 60 * 1000.
Definition MaxStatusMessage : Z := 2048.

(** [Verdict] is a Go string type: a hand-built decision may hold any string. *)
Definition Verdict : Type := string.
Definition Accepted : Verdict := "Accepted"%string.
Definition Rejected : Verdict := "Rejected"%string.

(** [v1alpha1.TestStrength] is a string type; an unknown value must fail. *)
Definition TestStrengthNone : string := "none".
Definition TestStrengthNewTestsFailOnBase : string := "newTestsMustFailOnBase".

Record GateCheck : Type := { Name : string; Passed : bool; Message : string }.

Record ScopeSpec : Type := { Paths : list string; Forbidden : list string }.

Record VerifyCommand : Type := { Argv : list string; Shell : option string }.

(** The fields of [GateRequirements] the engine reads. *)
Record GateRequirements : Type := {
  ScopeRespected : bool;
  TestStrength : string;
  CoverageDelta : string;
  MaxFilesChanged : Z;
  MaxDiffLines : Z;
  NoBinaryFiles : bool
}.

(** Pointer fields are options: nil is missing evidence. *)
Record CommandObservation : Type := {
  co_Index : Z;
  co_ExitCode : option Z;
  co_EvidenceDigest : string;
  co_DurationMillis : option Z
}.

#[global] Instance CommandObservation_eq_dec : EqDecision CommandObservation.
Proof. solve_decision. Defined.

Record PolicyRule : Type := {
  pr_RuleID : string;
  pr_ContractDigest : string;
  pr_ScriptDigest : string;
  pr_Blocking : bool;
  pr_HasScript : bool
}.

Record PolicyObservation : Type := {
  po_RuleID : string;
  po_ContractDigest : string;
  po_ScriptDigest : string;
  po_ExitCode : option Z;
  po_Skipped : bool
}.

Record Observations : Type := {
  ob_ChangedPaths : list string;
  ob_FilesChanged : option Z;
  ob_LinesChanged : option Z;
  ob_HasBinaryFiles : option bool;
  ob_CoverageDelta : option string;
  ob_NewTestsFailOnBase : option bool;
  ob_Commands : list CommandObservation;
  ob_PolicyChecks : list PolicyObservation
}.

Record Input : Type := {
  in_Scope : ScopeSpec;
  in_Requirements : GateRequirements;
  in_Commands : list VerifyCommand;
  in_PolicyRules : list PolicyRule;
  in_Observations : Observations
}.

(** [ReportCommand] and [EvidenceSummary] of report.go. *)
Record ReportCommand : Type := {
  rc_Index : Z;
  rc_ConfigDigest : string;
  rc_Observed : bool;
  rc_ExitCode : option Z;
  rc_EvidenceDigest : string;
  rc_DurationMillis : option Z
}.

Record EvidenceSummary : Type := {
  es_ChangedPaths : list string;
  es_FilesChanged : option Z;
  es_LinesChanged : option Z;
  es_HasBinaryFiles : option bool;
  es_CoverageDelta : option string;
  es_NewTestsFailOnBase : option bool
}.

Record Decision : Type := {
  d_Verdict : Verdict;
  d_Checks : list GateCheck;
  d_evaluated : bool;
  d_commandRecords : list ReportCommand;
  d_evidence : EvidenceSummary
}.

Definition Decision_Accepted (d : Decision) : bool := d_Verdict d =?= Accepted.

(** ** The check list *)

(** The variables [checks], [checkNames] and [inputInvalid]. *)
Record eval_state : Type := {
  checks : list GateCheck;
  checkNames : gset string;
  inputInvalid : bool
}.

Definition set_invalid (st : eval_state) : eval_state :=
  {| checks := checks st; checkNames := checkNames st; inputInvalid := true |}.

(** The closure [add]. *)
Definition add (name : string) (passed : bool) (message : string) (st : eval_state) : eval_state :=
  if MaxChecks <=? slen (checks st) then set_invalid st
  else if (len name =? 0) || (128 <? len name) || negb (ValidString name) then set_invalid st
  else if bool_decide (name ∈ checkNames st) then set_invalid st
  else
    let message :=
      if MaxStatusMessage <? len message
      then of_bytes (take (Z.to_nat MaxStatusMessage) (bytes message)) else message in
    {| checks := checks st ++ [{| Name := name; Passed := passed; Message := message |}];
       checkNames := {[name]} ∪ checkNames st;
       inputInvalid := inputInvalid st |}.

(** The closure [invalid]. *)
Definition invalid (name message : string) (st : eval_state) : eval_state :=
  add name false message (set_invalid st).

Inductive op : Type :=
| Add (name : string) (passed : bool) (message : string)
| Invalid (name message : string).

Definition perform (st : eval_state) (o : op) : eval_state :=
  match o with
  | Add name passed message => add name passed message st
  | Invalid name message => invalid name message st
  end.

Definition op_when (cond : bool) (o : op) : list op := if cond then [o] else [].

(** A check whose message depends on whether it passed. *)
Definition check_op (name : string) (passed : bool) (good bad : string) : op :=
  Add name passed (if passed then good else bad).

(** ** Observations *)

(** [sha256DigestPattern] is [^sha256:[a-f0-9]{64}$]. *)
Definition validSHA256Digest (value : string) : bool :=
  (len value =? len "sha256:" + 64) && HasPrefix value "sha256:" &&
  forallb is_lower_hex (drop (String.length "sha256:") (bytes value)).

Definition validEvidenceDigest (value : string) : bool := validSHA256Digest value.

Definition validCounter (value : option Z) (maximum : Z) : bool :=
  match value with
  | Some v => (0 <=? v) && (v <=? maximum)
  | None => false
  end.

Definition validDuration (value : option Z) : bool :=
  match value with
  | Some v => (0 <=? v) && (v <=? MaxDurationMillis)
  | None => true
  end.

(** Go's [<] on strings. *)
Definition string_lt (a b : string) : bool := String.ltb a b.

Definition commandObservationLess (left right : CommandObservation) : bool :=
  if co_Index left !=? co_Index right then co_Index left <? co_Index right
  else
    let by_digest :=
      if co_EvidenceDigest left !=? co_EvidenceDigest right
      then string_lt (co_EvidenceDigest left) (co_EvidenceDigest right)
      else match co_DurationMillis left, co_DurationMillis right with
           | None, Some _ => true
           | Some _, None => false
           | Some l, Some r => l <? r
           | None, None => false
           end in
    match co_ExitCode left, co_ExitCode right with
    | None, Some _ => true
    | Some _, None => false
    | Some l, Some r => if negb (l =? r) then l <? r else by_digest
    | None, None => by_digest
    end.

(** Not [commandObservationLess right left]: the order [sort.Slice] leaves. *)
Definition commandObservationLe (left right : CommandObservation) : Prop :=
  commandObservationLess right left = false.

#[global] Instance commandObservationLe_dec : RelDecision commandObservationLe.
Proof. intros l r. unfold commandObservationLe. apply _. Defined.

(** The marker that replaces an unacceptable path: a single NUL byte. *)
Definition path_marker : string := of_bytes [0].

Definition normalizeObservations (input : Observations) : Observations :=
  {| ob_ChangedPaths :=
       if slen (ob_ChangedPaths input) <=? MaxChangedPaths
       then Strings (map (fun p => if negb (validRepoPath p) then path_marker else p)
                         (ob_ChangedPaths input))
       else [];
     ob_FilesChanged := ob_FilesChanged input;
     ob_LinesChanged := ob_LinesChanged input;
     ob_HasBinaryFiles := ob_HasBinaryFiles input;
     ob_CoverageDelta := ob_CoverageDelta input;
     ob_NewTestsFailOnBase := ob_NewTestsFailOnBase input;
     ob_Commands :=
       if slen (ob_Commands input) <=? MaxCommandEvidence
       then merge_sort commandObservationLe (ob_Commands input) else [];
     ob_PolicyChecks := if slen (ob_PolicyChecks input) <=? 512 then ob_PolicyChecks input else [] |}.

(** First occurrences of the valid paths. *)
Fixpoint unique_valid (seen : gset string) (l : list string) : list string :=
  match l with
  | [] => []
  | p :: l' =>
    if validRepoPath p && negb (bool_decide (p ∈ seen))
    then p :: unique_valid ({[p]} ∪ seen) l' else unique_valid seen l'
  end.

Definition summary (o : Observations) : EvidenceSummary :=
  {| es_ChangedPaths := Strings (unique_valid ∅ (ob_ChangedPaths o));
     es_FilesChanged :=
       if negb (validCounter (ob_FilesChanged o) MaxObservedFiles) then None else ob_FilesChanged o;
     es_LinesChanged :=
       if negb (validCounter (ob_LinesChanged o) MaxObservedLines) then None else ob_LinesChanged o;
     es_HasBinaryFiles := ob_HasBinaryFiles o;
     es_CoverageDelta :=
       match ob_CoverageDelta o with Some c => normalizeDecimal c | None => None end;
     es_NewTestsFailOnBase := ob_NewTestsFailOnBase o |}.

(** [validateChangedPaths]: whether all paths are valid, and whether one is
    repeated. *)
Fixpoint validateChangedPaths_from (seen : gset string) (paths : list string) : bool * bool :=
  match paths with
  | [] => (true, false)
  | item :: rest =>
    let '(valid, duplicate) := validateChangedPaths_from ({[item]} ∪ seen) rest in
    (validRepoPath item && valid, bool_decide (item ∈ seen) || duplicate)
  end.
Definition validateChangedPaths (paths : list string) : bool * bool :=
  validateChangedPaths_from ∅ paths.

Definition validatePatterns (patterns : list string) : bool :=
  if MaxScopePatterns <? slen patterns then false
  else forallb (fun pattern => is_ok (compileGlob pattern)) patterns.

Definition pathsRespectScope (paths : list string) (scope : ScopeSpec) : bool :=
  forallb (fun item =>
    existsb (fun pattern => matchGlob pattern item) (Paths scope) &&
    negb (existsb (fun pattern => matchGlob pattern item) (Forbidden scope))) paths.

(** ** Commands *)

Definition validVerifyCommand (command : VerifyCommand) : bool :=
  let argv := 0 <? slen (Argv command) in
  let shell := match Shell command with Some s => s !=? "" | None => false end in
  if Bool.eqb argv shell || (64 <? slen (Argv command)) then false
  else if shell && match Shell command with
                   | Some s => (4096 <? len s) || negb (ValidString s)
                   | None => false
                   end then false
  else forallb (fun arg => negb ((len arg =? 0) || (4096 <? len arg) || negb (ValidString arg)))
         (Argv command).

(** [json.Marshal] of a [VerifyCommand]: both fields carry [omitempty]. *)
Definition marshalVerifyCommand (command : VerifyCommand) : list Z :=
  let argv :=
    match Argv command with
    | [] => []
    | args => [json_string (bytes "argv") ++ bytes ":[" ++
               commas (map (fun a => json_string (bytes a)) args) ++ bytes "]"]
    end in
  let shell :=
    match Shell command with
    | Some s => [json_string (bytes "shell") ++ bytes ":" ++ json_string (bytes s)]
    | None => []
    end in
  bytes "{" ++ commas (argv ++ shell) ++ bytes "}".

Definition digestVerifyCommand (command : VerifyCommand) : string :=
  if negb (validVerifyCommand command) then "sha256:" +:+ of_bytes (replicate 64 0x30)
  else digestBytes (marshalVerifyCommand command).

(** [fmt.Sprintf("verification.command.%03d", index)] *)
Definition pad3 (s : string) : string :=
  if (String.length s <? 3)%nat then of_bytes (replicate (3 - String.length s) 0x30) +:+ s else s.
Definition command_check_name (index : nat) : string :=
  "verification.command." +:+ pad3 (pretty index).

(** The observations recorded for one command, in order. *)
Definition items_at (index : Z) (observed : list CommandObservation) : list CommandObservation :=
  filter (fun item => co_Index item = index) observed.

(** The loop over the observations: an index out of range or seen before. *)
Fixpoint observed_invalid (n : Z) (before observed : list CommandObservation) : bool :=
  match observed with
  | [] => false
  | item :: rest =>
    (co_Index item <? 0) || (n <=? co_Index item) || (0 <? slen (items_at (co_Index item) before)) ||
    observed_invalid n (before ++ [item]) rest
  end.

(** One iteration of the loop over the configured commands: the record, the
    [add] call and whether the evidence is invalid. *)
Definition evaluate_command (observed : list CommandObservation) (index : nat) (command : VerifyCommand)
  : ReportCommand * op * bool :=
  let items := items_at (Z.of_nat index) observed in
  let blank := {| rc_Index := Z.of_nat index; rc_ConfigDigest := digestVerifyCommand command;
                  rc_Observed := false; rc_ExitCode := None; rc_EvidenceDigest := "";
                  rc_DurationMillis := None |} in
  match items with
  | [item] =>
    let validEvidence :=
      match co_ExitCode item with Some _ => true | None => false end &&
      validEvidenceDigest (co_EvidenceDigest item) && validDuration (co_DurationMillis item) in
    let record :=
      if validEvidence
      then {| rc_Index := Z.of_nat index; rc_ConfigDigest := digestVerifyCommand command;
              rc_Observed := true; rc_ExitCode := co_ExitCode item;
              rc_EvidenceDigest := co_EvidenceDigest item;
              rc_DurationMillis := co_DurationMillis item |}
      else blank in
    let passed := validVerifyCommand command && validEvidence && (co_ExitCode item =?= Some 0) in
    (record,
     check_op (command_check_name index) passed
       "verification command passed with recorded evidence"
       "verification command failed or its evidence is missing/invalid", false)
  | _ => (blank, Add (command_check_name index) false
                   "verification command evidence is missing or duplicated", true)
  end.

Definition evaluateCommands (configured : list VerifyCommand) (observed : list CommandObservation)
  : list ReportCommand * list op * bool :=
  let configured := take (Z.to_nat MaxCommands) configured in
  let results := imap (evaluate_command observed) configured in
  (map (fun r => r.1.1) results, map (fun r => r.1.2) results,
   observed_invalid (slen configured) [] observed || existsb snd results).

(** ** Policy checks *)

Definition policyFailureMessage (count : Z) (kind : string) : string :=
  if count =? 0 then "no " +:+ kind +:+ " policy checks failed"
  else pretty count +:+ " " +:+ kind +:+ " policy check(s) failed".

(** The loop over the rules: the map [expected], the contract digest and
    whether the configuration is valid. *)
Record rule_acc : Type := {
  expected : gmap string PolicyRule;
  contractDigest : string;
  rulesValid : bool
}.

Definition rule_step (acc : rule_acc) (rule : PolicyRule) : rule_acc :=
  let bad := (pr_RuleID rule =?= "") || negb (ValidDigest (pr_ContractDigest rule)) ||
             (pr_HasScript rule && negb (ValidDigest (pr_ScriptDigest rule))) ||
             (negb (pr_HasScript rule) && (pr_ScriptDigest rule !=? "")) in
  let mismatch := (contractDigest acc !=? "") && (contractDigest acc !=? pr_ContractDigest rule) in
  let exists_ := match expected acc !! pr_RuleID rule with Some _ => true | None => false end in
  {| expected := <[pr_RuleID rule := rule]> (expected acc);
     contractDigest := if contractDigest acc =?= "" then pr_ContractDigest rule else contractDigest acc;
     rulesValid := rulesValid acc && negb bad && negb mismatch && negb exists_ |}.

(** The loop over the observations. *)
Record obs_acc : Type := {
  seenRules : gset string;
  obsValid : bool;
  blockingFailures : Z;
  advisoryFailures : Z
}.

Definition policy_passed (rule : PolicyRule) (observation : PolicyObservation) : bool :=
  if negb (pr_HasScript rule)
  then po_Skipped observation && (po_ScriptDigest observation =?= "") &&
       (po_ExitCode observation =?= None)
  else (po_ScriptDigest observation =?= pr_ScriptDigest rule) && (po_ExitCode observation =?= Some 0).

Definition obs_step (rules : rule_acc) (acc : obs_acc) (observation : PolicyObservation) : obs_acc :=
  let bad := (po_RuleID observation =?= "") ||
             (po_ContractDigest observation !=? contractDigest rules) in
  let dup := bool_decide (po_RuleID observation ∈ seenRules acc) in
  let valid := obsValid acc && negb bad && negb dup in
  let seen := {[po_RuleID observation]} ∪ seenRules acc in
  match expected rules !! po_RuleID observation with
  | None => {| seenRules := seen; obsValid := false;
               blockingFailures := blockingFailures acc; advisoryFailures := advisoryFailures acc |}
  | Some rule =>
    let failed := negb (policy_passed rule observation) in
    {| seenRules := seen; obsValid := valid;
       blockingFailures := blockingFailures acc + (if failed && pr_Blocking rule then 1 else 0);
       advisoryFailures := advisoryFailures acc + (if failed && negb (pr_Blocking rule) then 1 else 0) |}
  end.

Definition evaluatePolicyChecks (rules : list PolicyRule) (observations : list PolicyObservation)
  : list op :=
  if (slen rules =? 0) && (slen observations =? 0) then []
  else if (slen rules =? 0) || (slen observations =? 0) then
    [Add "policy.evidence" false "policy contract or policy evidence is missing"]
  else
    let r := foldl rule_step {| expected := ∅; contractDigest := ""; rulesValid := true |} rules in
    let o := foldl (obs_step r)
               {| seenRules := ∅; obsValid := true; blockingFailures := 0; advisoryFailures := 0 |}
               observations in
    let configValid :=
      rulesValid r && obsValid o && (size (seenRules o) =? size (expected r))%nat in
    [Add "policy.evidence" configValid "policy observations match the immutable contract";
     Add "policy.blocking" (configValid && (blockingFailures o =? 0))
       (policyFailureMessage (blockingFailures o) "blocking");
     Add "policy.advisory" true (policyFailureMessage (advisoryFailures o) "advisory")].

(** ** Evaluate *)

Section Evaluate.
Context (input : Input).

Definition req : GateRequirements := in_Requirements input.
Definition obs : Observations := normalizeObservations (in_Observations input).

Definition pathValid : bool := (validateChangedPaths (ob_ChangedPaths obs)).1.
Definition duplicatePath : bool := (validateChangedPaths (ob_ChangedPaths obs)).2.
Definition allowValid : bool := validatePatterns (Paths (in_Scope input)).
Definition forbidValid : bool := validatePatterns (Forbidden (in_Scope input)).

Definition needFiles : bool := ScopeRespected req || (0 <? MaxFilesChanged req).
Definition needLines : bool := 0 <? MaxDiffLines req.
Definition needBinary : bool := NoBinaryFiles req.
Definition needCoverage : bool := TrimSpace (CoverageDelta req) !=? "".
Definition needTests : bool := TestStrength req =?= TestStrengthNewTestsFailOnBase.

Definition files_passed : bool :=
  match ob_FilesChanged obs with
  | Some n =>
    validCounter (Some n) MaxObservedFiles && (n =? slen (ob_ChangedPaths obs)) &&
    (if 0 <? MaxFilesChanged req then n <=? MaxFilesChanged req else true)
  | None => false
  end.

Definition lines_passed : bool :=
  match ob_LinesChanged obs with
  | Some n => validCounter (Some n) MaxObservedLines && (n <=? MaxDiffLines req)
  | None => false
  end.

Definition binary_passed : bool :=
  match ob_HasBinaryFiles obs with Some b => negb b | None => false end.

Definition scope_passed : bool :=
  pathValid && negb duplicatePath && allowValid && forbidValid &&
  pathsRespectScope (ob_ChangedPaths obs) (in_Scope input).

Definition coverage_passed : bool :=
  match ob_CoverageDelta obs with
  | Some observed => coverageSatisfies (CoverageDelta req) observed
  | None => false
  end.

Definition tests_passed : bool :=
  match ob_NewTestsFailOnBase obs with Some b => b | None => false end.

(** The bounds and well-formedness of the input. *)
Definition input_ops : list op :=
  op_when ((MaxChangedPaths <? slen (ob_ChangedPaths (in_Observations input))) ||
           (MaxCommandEvidence <? slen (ob_Commands (in_Observations input))))
    (Invalid "input.bounds" "bounded observation limit exceeded") ++
  op_when (MaxScopePatterns <? slen (Paths (in_Scope input)) + slen (Forbidden (in_Scope input)))
    (Invalid "input.scope.bounds" "bounded scope pattern limit exceeded") ++
  op_when (MaxCommands <? slen (in_Commands input))
    (Invalid "configuration.commands" "verification command limit exceeded") ++
  op_when ((512 <? slen (in_PolicyRules input)) ||
           (512 <? slen (ob_PolicyChecks (in_Observations input))))
    (Invalid "policy.bounds" "policy check limit exceeded") ++
  op_when (negb pathValid || duplicatePath)
    (Invalid "observations.paths" "changed path evidence is not normalized") ++
  op_when (negb allowValid || negb forbidValid)
    (Invalid "configuration.scope" "scope contains an invalid glob").

(** The enabled requirements. *)
Definition requirement_ops : list op :=
  op_when needFiles
    (check_op (if 0 <? MaxFilesChanged req then "files.max" else "files.evidence") files_passed
       "file count is within the configured bound"
       "file count evidence is missing, inconsistent, or over the configured bound") ++
  op_when needLines
    (check_op "diff.lines.max" lines_passed "diff line count is within the configured bound"
       "diff line count evidence is missing, invalid, or over the configured bound") ++
  op_when needBinary
    (check_op "binary.none" binary_passed "patch contains no binary files"
       "binary-file evidence is missing or the patch contains a binary file") ++
  op_when (ScopeRespected req)
    (check_op "scope.respected" scope_passed "all changed paths are allowed and not forbidden"
       "a changed path is outside the allowlist, forbidden, or path evidence is invalid") ++
  op_when needCoverage
    (check_op "coverage.delta" coverage_passed
       "coverage delta satisfies the configured requirement"
       "coverage delta evidence is missing, malformed, or below the configured requirement") ++
  op_when needTests
    (check_op "tests.new-fail-on-base" tests_passed "new tests fail on the pristine base revision"
       "new-tests-on-base evidence is missing or the tests pass on the base revision").

Definition command_results : list ReportCommand * list op * bool :=
  evaluateCommands (in_Commands input) (ob_Commands obs).

(** The checks after the requirements. *)
Definition configuration_ops : list op :=
  op_when command_results.2
    (Invalid "verification.evidence"
       "verification command evidence is malformed or contains an unknown command") ++
  op_when (slen (in_Commands input) =? 0)
    (Invalid "configuration.commands" "at least one verification command is required") ++
  evaluatePolicyChecks (in_PolicyRules input) (ob_PolicyChecks obs) ++
  op_when ((TestStrength req !=? TestStrengthNone) && negb needTests)
    (Invalid "configuration.test-strength" "unsupported test-strength policy") ++
  op_when (TestStrength req =?= "")
    (Invalid "configuration.test-strength" "test-strength policy is missing") ++
  op_when ((CoverageDelta req !=? "") && negb (validCoverageRequirement (CoverageDelta req)))
    (Invalid "configuration.coverage" "coverage requirement is malformed") ++
  op_when ((MaxFilesChanged req <? 0) || (MaxDiffLines req <? 0))
    (Invalid "configuration.bounds" "configured file or line bound is negative").

Definition evaluation_ops : list op :=
  input_ops ++ requirement_ops ++ command_results.1.2 ++ configuration_ops.

Definition Evaluate : Decision :=
  let st := foldl perform {| checks := []; checkNames := ∅; inputInvalid := false |} evaluation_ops in
  let final_checks :=
    if inputInvalid st && (slen (checks st) =? 0)
    then [{| Name := "input.valid"; Passed := false; Message := "gate input is invalid" |}]
    else checks st in
  let bad := inputInvalid st || existsb (fun check => negb (Passed check)) final_checks in
  {| d_Verdict := if negb bad then Accepted else Rejected;
     d_Checks := final_checks;
     d_evaluated := true;
     d_commandRecords := command_results.1.1;
     d_evidence := summary obs |}.
End Evaluate.

(** ** Lemmas: performing a sequence of calls *)

Definition op_name (o : op) : string :=
  match o with Add name _ _ | Invalid name _ => name end.
Definition op_passed (o : op) : bool :=
  match o with Add _ passed _ => passed | Invalid _ _ => false end.
Definition op_is_invalid (o : op) : bool :=
  match o with Add _ _ _ => false | Invalid _ _ => true end.

(** Names with the closure that uses them.  Only [invalid] reuses a name. *)
Definition signature (o : op) : string * bool := (op_name o, op_is_invalid o).

Definition name_ok (name : string) : bool :=
  negb ((len name =? 0) || (128 <? len name) || negb (ValidString name)).

(** Every pair of equal names in the sequence belongs to [invalid] calls. *)
Fixpoint names_ok (sigs : list (string * bool)) : bool :=
  match sigs with
  | [] => true
  | (name, inv) :: rest =>
    name_ok name &&
    forallb (fun s => (s.1 !=? name) || (s.2 && inv)) rest && names_ok rest
  end.

(** All calls [Evaluate] may make, in order. *)
Definition input_signatures : list (string * bool) :=
  [("input.bounds", true); ("input.scope.bounds", true); ("configuration.commands", true);
   ("policy.bounds", true); ("observations.paths", true); ("configuration.scope", true)]%string.
Definition requirement_signatures : list (string * bool) :=
  [("files.max", false); ("files.evidence", false); ("diff.lines.max", false);
   ("binary.none", false); ("scope.respected", false); ("coverage.delta", false);
   ("tests.new-fail-on-base", false)]%string.
Definition command_signatures (n : nat) : list (string * bool) :=
  map (fun i => (command_check_name i, false)) (seq 0 n).
Definition configuration_signatures : list (string * bool) :=
  [("verification.evidence", true); ("configuration.commands", true);
   ("policy.evidence", false); ("policy.blocking", false); ("policy.advisory", false);
   ("configuration.test-strength", true); ("configuration.test-strength", true);
   ("configuration.coverage", true); ("configuration.bounds", true)]%string.
Definition all_signatures : list (string * bool) :=
  input_signatures ++ requirement_signatures ++ command_signatures 32 ++ configuration_signatures.

Lemma all_signatures_ok : names_ok all_signatures = true.
Proof. vm_compute. reflexivity. Qed.

Lemma names_ok_sublist l k : l `sublist_of` k -> names_ok k = true -> names_ok l = true.
Proof.
  induction 1 as [|[name inv] l k Hs IH|[name inv] l k Hs IH]; cbn; [done| |].
  - intros H. breflect. destruct H as [[Hn Hf] Hk]. split_and!; [done| |auto].
    rewrite forallb_true in *. by eapply Forall_sublist.
  - intros H. breflect. destruct_and!. auto.
Qed.

Lemma names_ok_split l s k :
  names_ok (l ++ s :: k) = true ->
  name_ok s.1 = true /\ (forall s', s' ∈ l -> s'.1 = s.1 -> s'.2 = true /\ s.2 = true).
Proof.
  induction l as [|[n i] l IH]; cbn [app names_ok].
  - destruct s as [n i]. intros H. breflect. destruct_and!. split; [done|].
    intros s' Hs'. by apply not_elem_of_nil in Hs'.
  - intros H. breflect. destruct H as [[_ Hf] Hl]. destruct (IH Hl) as [Hs Hd].
    split; [done|]. intros s' [->|Hin]%elem_of_cons; [|by apply Hd].
    cbn. intros Hn. apply forallb_true, Forall_forall with (x := s) in Hf; [|set_solver].
    breflect. destruct Hf as [Hf|[? ?]]; [by destruct Hf|done].
Qed.

Definition op_message (o : op) : string :=
  match o with Add _ _ message | Invalid _ message => message end.
(** The check an operation records when nothing drops it. *)
Definition op_check (o : op) : GateCheck :=
  {| Name := op_name o; Passed := op_passed o; Message := op_message o |}.

Record performed (done : list op) (st : eval_state) : Prop := {
  pf_from : forall c, c ∈ checks st -> exists o, o ∈ done /\ c = op_check o;
  pf_all : forall o, o ∈ done ->
    exists c, c ∈ checks st /\ Name c = op_name o /\ Passed c = op_passed o;
  pf_names : forall n, n ∈ checkNames st <-> n ∈ map Name (checks st);
  pf_nodup : NoDup (map Name (checks st));
  pf_invalid : inputInvalid st = true -> exists o, o ∈ done /\ op_passed o = false;
  pf_length : (length (checks st) <= length done)%nat
}.

Definition eval_start : eval_state :=
  {| checks := []; checkNames := ∅; inputInvalid := false |}.

Lemma performed_start : performed [] eval_start.
Proof. split; cbn; try done; try set_solver. constructor. Qed.

(** A call that is not dropped. *)
Lemma performed_fresh done st o st' :
  performed done st ->
  op_name o ∉ checkNames st ->
  checks st' = checks st ++ [op_check o] ->
  checkNames st' = {[op_name o]} ∪ checkNames st ->
  (inputInvalid st' = true -> inputInvalid st = true \/ op_passed o = false) ->
  performed (done ++ [o]) st'.
Proof.
  intros [Hf Ha Hn Hd Hi Hl] Hfresh Hc Hs Hinv. split.
  - rewrite Hc. intros c [Hin|Hin]%elem_of_app.
    + destruct (Hf c Hin) as (o' & Ho & ->). exists o'. set_solver.
    + exists o. set_solver.
  - rewrite Hc. intros o' [Hin|Hin%list_elem_of_singleton]%elem_of_app.
    + destruct (Ha o' Hin) as (c & Hin' & ?). exists c. set_solver.
    + subst o'. exists (op_check o). set_solver.
  - intros n. rewrite Hs, Hc, map_app, elem_of_union, elem_of_app, elem_of_singleton.
    cbn. rewrite list_elem_of_singleton. rewrite Hn. tauto.
  - rewrite Hc, map_app. apply NoDup_app. split_and!; [done| |apply NoDup_singleton].
    intros n Hin. cbn. rewrite list_elem_of_singleton. intros ->. apply Hfresh. by apply Hn.
  - intros H. destruct (Hinv H) as [Hi'|Hp].
    + destruct (Hi Hi') as (o' & ? & ?). exists o'. set_solver.
    + exists o. set_solver.
  - rewrite Hc, !length_app. cbn. lia.
Qed.

(** A call whose name was used before, by an [invalid] call like itself. *)
Lemma performed_dropped done st o :
  performed done st -> op_passed o = false ->
  (exists o', o' ∈ done /\ op_name o' = op_name o /\ op_passed o' = false) ->
  performed (done ++ [o]) (set_invalid st).
Proof.
  intros [Hf Ha Hn Hd Hi Hl] Hp (o' & Ho' & Hname & Hp'). split; cbn; try done.
  - intros c Hin. destruct (Hf c Hin) as (o'' & ? & ->). exists o''. set_solver.
  - intros o'' [Hin|Hin%list_elem_of_singleton]%elem_of_app; [by apply Ha|]. subst o''.
    destruct (Ha o' Ho') as (c & Hc & Hcn & Hcp). exists c. split_and!; congruence || done.
  - intros _. exists o. set_solver.
  - rewrite length_app. lia.
Qed.

Lemma performed_step done st o k :
  names_ok (map signature (done ++ o :: k)) = true -> (length done < 64)%nat ->
  len (op_message o) <= MaxStatusMessage ->
  performed done st -> performed (done ++ [o]) (perform st o).
Proof.
  intros Hnames Hlen Hmsg Hst. rewrite map_app in Hnames. cbn [map] in Hnames.
  apply names_ok_split in Hnames as [Hok Hdup]. cbn in Hok.
  assert (Hadd : forall st', checks st' = checks st -> checkNames st' = checkNames st ->
    add (op_name o) (op_passed o) (op_message o) st' =
    if bool_decide (op_name o ∈ checkNames st) then set_invalid st'
    else {| checks := checks st ++ [op_check o]; checkNames := {[op_name o]} ∪ checkNames st;
            inputInvalid := inputInvalid st' |}).
  { intros st' Hc Hs. unfold add. rewrite Hc, Hs.
    rewrite (proj2 (Z.leb_gt _ _)) by (pose proof (pf_length _ _ Hst); unfold slen, MaxChecks; lia).
    unfold name_ok in Hok. apply negb_true_iff in Hok. rewrite Hok.
    by rewrite (proj2 (Z.ltb_ge _ _) Hmsg). }
  destruct (decide (op_name o ∈ checkNames st)) as [Hin|Hin].
  - assert (Hset : op_is_invalid o = true -> perform st o = set_invalid st).
    { specialize (Hadd (set_invalid st) eq_refl eq_refl).
      rewrite bool_decide_eq_true_2 in Hadd by done. by destruct o. }
    apply (pf_names _ _ Hst), list_elem_of_fmap in Hin as (c & Hn & Hc).
    destruct (pf_from _ _ Hst c Hc) as (o' & Ho' & ->). cbn in Hn.
    destruct (Hdup (signature o')) as [Hi' Hi].
    { apply list_elem_of_fmap. by exists o'. } { done. }
    cbn in Hi, Hi'. rewrite Hset by done. apply performed_dropped; [done|by destruct o|].
    exists o'. split_and!; [done..|by destruct o'].
  - assert (Hset : perform st o =
      {| checks := checks st ++ [op_check o]; checkNames := {[op_name o]} ∪ checkNames st;
         inputInvalid := inputInvalid st || op_is_invalid o |}).
    { pose proof (Hadd st eq_refl eq_refl) as H1.
      pose proof (Hadd (set_invalid st) eq_refl eq_refl) as H2.
      rewrite bool_decide_eq_false_2 in H1, H2 by done.
      destruct o; cbn [perform]; [rewrite orb_false_r; exact H1|rewrite orb_true_r; exact H2]. }
    rewrite Hset. eapply performed_fresh; try done. cbn.
    destruct o; [rewrite orb_false_r; by left | by right].
Qed.

Lemma performed_all ops :
  names_ok (map signature ops) = true -> (length ops <= 64)%nat ->
  Forall (fun o => len (op_message o) <= MaxStatusMessage) ops ->
  performed ops (foldl perform eval_start ops).
Proof.
  intros Hn Hl Hm. rewrite <- (take_drop (length ops) ops) at 2.
  assert (H : forall n, (n <= length ops)%nat ->
    performed (take n ops) (foldl perform eval_start (take n ops))).
  { induction n as [|n IH]; intros Hle; [apply performed_start|].
    destruct (lookup_lt_is_Some_2 ops n) as [o Ho]; [lia|].
    rewrite (take_S_r _ _ _ Ho), foldl_app. cbn [foldl].
    apply performed_step with (k := drop (S n) ops).
    - by rewrite take_drop_middle.
    - rewrite length_take. lia.
    - by apply (Forall_lookup_1 _ _ _ _ Hm Ho).
    - apply IH. lia. }
  rewrite drop_all, app_nil_r. rewrite firstn_all. rewrite <- (firstn_all ops) at 1.
  specialize (H (length ops) ltac:(lia)). by rewrite firstn_all in *.
Qed.

Lemma sublist_when b o rest k :
  map signature rest `sublist_of` k ->
  map signature (op_when b o ++ rest) `sublist_of` signature o :: k.
Proof. intros H. destruct b; cbn; by constructor. Qed.

Lemma sublist_when_last b o k : signature o = k -> map signature (op_when b o) `sublist_of` [k].
Proof. intros <-. destruct b; cbn; repeat constructor. Qed.

Lemma input_sublist input : map signature (input_ops input) `sublist_of` input_signatures.
Proof. unfold input_ops. repeat apply sublist_when. by apply sublist_when_last. Qed.

Lemma requirement_sublist input :
  map signature (requirement_ops input) `sublist_of` requirement_signatures.
Proof.
  unfold requirement_ops. rewrite map_app.
  apply (sublist_app _ [_; _]); [|repeat apply sublist_when; by apply sublist_when_last].
  unfold check_op. destruct (needFiles input); [|repeat constructor]. cbn.
  destruct (0 <? MaxFilesChanged (req input)); repeat constructor.
Qed.

Lemma evaluate_command_signature observed i c :
  signature (evaluate_command observed i c).1.2 = (command_check_name i, false).
Proof. unfold evaluate_command. by repeat case_match. Qed.

Lemma command_ops_signatures configured observed :
  map signature (evaluateCommands configured observed).1.2 =
  command_signatures (min 32 (length configured)).
Proof.
  unfold evaluateCommands, command_signatures. cbn [fst snd]. rewrite map_map.
  change (Z.to_nat MaxCommands) with 32%nat.
  rewrite <- (length_take configured 32). generalize (take 32 configured). clear configured.
  intros l. apply list_eq. intros i. rewrite !list_lookup_fmap, list_lookup_imap.
  destruct (l !! i) as [c|] eqn:E; cbn.
  - rewrite lookup_seq_lt by (by eapply lookup_lt_Some). cbn.
    by rewrite evaluate_command_signature.
  - rewrite lookup_seq_ge; [done|]. by apply lookup_ge_None.
Qed.

Lemma command_sublist input :
  map signature (command_results input).1.2 `sublist_of` command_signatures 32.
Proof.
  unfold command_results. rewrite command_ops_signatures. unfold command_signatures.
  set (n := min 32 _). assert (Hn : (n <= 32)%nat) by (unfold n; lia). clearbody n.
  replace 32%nat with (n + (32 - n))%nat by lia. rewrite seq_app, map_app.
  rewrite <- (app_nil_r (map _ (seq 0 n))) at 1. apply sublist_app; [done|apply sublist_nil_l].
Qed.

Lemma policy_sublist rules observations :
  map signature (evaluatePolicyChecks rules observations) `sublist_of`
  [("policy.evidence", false); ("policy.blocking", false); ("policy.advisory", false)]%string.
Proof. unfold evaluatePolicyChecks. repeat case_match; repeat constructor. Qed.

Lemma configuration_sublist input :
  map signature (configuration_ops input) `sublist_of` configuration_signatures.
Proof.
  unfold configuration_ops. do 2 apply sublist_when. rewrite map_app.
  apply (sublist_app _ [_; _; _]); [apply policy_sublist|].
  repeat apply sublist_when. by apply sublist_when_last.
Qed.

Lemma evaluation_sublist input :
  map signature (evaluation_ops input) `sublist_of` all_signatures.
Proof.
  unfold evaluation_ops, all_signatures. rewrite !map_app.
  repeat apply sublist_app;
    auto using input_sublist, requirement_sublist, command_sublist, configuration_sublist.
Qed.

(** ** Messages *)

(** A message that a report accepts unchanged. *)
Definition message_ok (m : string) : bool :=
  (len m <=? 1024) && ValidString m && negb (existsb (Z.eqb 0) (bytes m)).

Lemma policyFailureMessage_ok kind n :
  kind ∈ ["blocking"; "advisory"]%string -> 0 <= n <= 512 ->
  message_ok (policyFailureMessage n kind) = true.
Proof.
  intros Hk Hn.
  assert (H : forallb (fun i => message_ok (policyFailureMessage (Z.of_nat i) "blocking") &&
    message_ok (policyFailureMessage (Z.of_nat i) "advisory")) (seq 0 513) = true)
    by (vm_compute; reflexivity).
  apply forallb_true, Forall_forall with (x := Z.to_nat n) in H; [|apply elem_of_seq; lia].
  rewrite Z2Nat.id in H by lia. apply andb_true_iff in H as [??].
  apply list_elem_of_In in Hk. cbn in Hk. destruct Hk as [<-|[<-|[]]]; done.
Qed.

Lemma obs_step_counts r acc o :
  0 <= blockingFailures acc -> 0 <= advisoryFailures acc ->
  0 <= blockingFailures (obs_step r acc o) <= blockingFailures acc + 1 /\
  0 <= advisoryFailures (obs_step r acc o) <= advisoryFailures acc + 1.
Proof. unfold obs_step. repeat case_match; cbn; lia. Qed.

Lemma obs_fold_counts r l acc :
  0 <= blockingFailures acc -> 0 <= advisoryFailures acc ->
  0 <= blockingFailures (foldl (obs_step r) acc l) <= blockingFailures acc + slen l /\
  0 <= advisoryFailures (foldl (obs_step r) acc l) <= advisoryFailures acc + slen l.
Proof.
  revert acc. induction l as [|o l IH]; intros acc Hb Ha; unfold slen in *; cbn [foldl length]; [lia|].
  destruct (obs_step_counts r acc o Hb Ha). destruct (IH (obs_step r acc o)); lia.
Qed.

Lemma policy_messages_ok rules observations :
  slen observations <= 512 ->
  Forall (fun o => message_ok (op_message o) = true) (evaluatePolicyChecks rules observations).
Proof.
  intros Hl. unfold evaluatePolicyChecks.
  destruct (_ && _); [constructor|]. destruct (_ || _); [repeat constructor|].
  cbv zeta. set (r := foldl rule_step _ _). 
  pose proof (obs_fold_counts r observations
    {| seenRules := ∅; obsValid := true; blockingFailures := 0; advisoryFailures := 0 |}) as Hc.
  cbn in Hc. destruct Hc; [lia..|].
  repeat constructor; cbn; apply policyFailureMessage_ok; try lia; set_solver.
Qed.

Lemma message_invalid name message b :
  message_ok message = true ->
  Forall (fun o => message_ok (op_message o) = true) (op_when b (Invalid name message)).
Proof. intros H. destruct b; repeat constructor; done. Qed.

Lemma message_check name passed good bad b :
  message_ok good = true -> message_ok bad = true ->
  Forall (fun o => message_ok (op_message o) = true) (op_when b (check_op name passed good bad)).
Proof. intros H1 H2. destruct b; repeat constructor. cbn. by destruct passed. Qed.

Lemma command_messages_ok configured observed :
  Forall (fun o => message_ok (op_message o) = true) (evaluateCommands configured observed).1.2.
Proof.
  unfold evaluateCommands. cbn [fst snd]. apply Forall_map.
  apply Forall_lookup. intros i x. rewrite list_lookup_imap.
  destruct (_ !! i); [|done]. intros [= <-]. unfold evaluate_command, check_op.
  repeat case_match; reflexivity.
Qed.

Lemma evaluation_messages_ok input :
  Forall (fun o => message_ok (op_message o) = true) (evaluation_ops input).
Proof.
  unfold evaluation_ops, input_ops, requirement_ops, configuration_ops.
  repeat apply Forall_app_2;
    first [apply message_invalid; reflexivity | apply message_check; reflexivity | idtac].
  - apply command_messages_ok.
  - apply policy_messages_ok. unfold obs, normalizeObservations. cbn.
    destruct (Z.leb_spec (slen (ob_PolicyChecks (in_Observations input))) 512); [done|].
    unfold slen. cbn. lia.
Qed.
