(* ===== verification/GateSpec.v ===== *)
(** * What the Gate promises (src/v3/internal/gate/engine.go)

    The declarative condition under which a patch is acceptable, and the
    theorems that [GateEngine.Evaluate] decides it, reports it faithfully and
    does not depend on the order of the observations. *)

From S2P Require Import Prelude Order GoStrings Digest GoJson Glob Coverage GateEngine.
Local Open Scope go_scope.
Local Open Scope Z_scope.

(** ** The acceptance condition *)

(** Exactly one observation is recorded for command [i], and it shows success. *)
Definition command_evidenced (observed : list CommandObservation) (i : nat) (command : VerifyCommand)
  : Prop :=
  validVerifyCommand command = true /\
  exists item, items_at (Z.of_nat i) observed = [item] /\ co_ExitCode item = Some 0 /\
    validEvidenceDigest (co_EvidenceDigest item) = true /\
    validDuration (co_DurationMillis item) = true.

Definition commands_evidenced (configured : list VerifyCommand) (observed : list CommandObservation)
  : Prop :=
  0 < slen configured <= MaxCommands /\ slen observed <= MaxCommandEvidence /\
  (forall item, item ∈ observed -> 0 <= co_Index item < slen configured) /\
  (forall i command, configured !! i = Some command -> command_evidenced observed i command).

Definition rule_wf (contract : string) (rule : PolicyRule) : Prop :=
  pr_RuleID rule <> "" /\ pr_ContractDigest rule = contract /\
  (if pr_HasScript rule then ValidDigest (pr_ScriptDigest rule) = true else pr_ScriptDigest rule = "").

(** The policy evidence answers every rule of one contract exactly once, and
    no blocking rule failed. *)
Definition policy_evidenced (rules : list PolicyRule) (observations : list PolicyObservation) : Prop :=
  (rules = [] /\ observations = []) \/
  exists contract,
    ValidDigest contract = true /\ rules <> [] /\
    slen rules <= 512 /\ slen observations <= 512 /\
    Forall (rule_wf contract) rules /\ NoDup (map pr_RuleID rules) /\
    Forall (fun o => po_ContractDigest o = contract) observations /\
    map po_RuleID observations ≡ₚ map pr_RuleID rules /\
    (forall rule o, rule ∈ rules -> o ∈ observations -> po_RuleID o = pr_RuleID rule ->
       pr_Blocking rule = true -> policy_passed rule o = true).

Definition in_scope (scope : ScopeSpec) (p : string) : Prop :=
  (exists pattern, pattern ∈ Paths scope /\ matchGlob pattern p = true) /\
  (forall pattern, pattern ∈ Forbidden scope -> matchGlob pattern p = false).

Record acceptable (input : Input) : Prop := {
  acc_path_bound : slen (ob_ChangedPaths (in_Observations input)) <= MaxChangedPaths;
  acc_paths : Forall (fun p => validRepoPath p = true) (ob_ChangedPaths (in_Observations input));
  acc_paths_once : NoDup (ob_ChangedPaths (in_Observations input));
  acc_patterns :
    slen (Paths (in_Scope input)) + slen (Forbidden (in_Scope input)) <= MaxScopePatterns /\
    Forall (fun p => is_ok (compileGlob p) = true)
      (Paths (in_Scope input) ++ Forbidden (in_Scope input));
  acc_scope : ScopeRespected (in_Requirements input) = true ->
    Forall (in_scope (in_Scope input)) (ob_ChangedPaths (in_Observations input));
  acc_files :
    ScopeRespected (in_Requirements input) = true \/ 0 < MaxFilesChanged (in_Requirements input) ->
    ob_FilesChanged (in_Observations input) = Some (slen (ob_ChangedPaths (in_Observations input)));
  acc_files_max : 0 < MaxFilesChanged (in_Requirements input) ->
    slen (ob_ChangedPaths (in_Observations input)) <= MaxFilesChanged (in_Requirements input);
  acc_lines : 0 < MaxDiffLines (in_Requirements input) ->
    exists n, ob_LinesChanged (in_Observations input) = Some n /\
      0 <= n <= Z.min MaxObservedLines (MaxDiffLines (in_Requirements input));
  acc_nonnegative :
    0 <= MaxFilesChanged (in_Requirements input) /\ 0 <= MaxDiffLines (in_Requirements input);
  acc_binary : NoBinaryFiles (in_Requirements input) = true ->
    ob_HasBinaryFiles (in_Observations input) = Some false;
  acc_tests :
    TestStrength (in_Requirements input) = TestStrengthNone \/
    TestStrength (in_Requirements input) = TestStrengthNewTestsFailOnBase /\
    ob_NewTestsFailOnBase (in_Observations input) = Some true;
  acc_coverage :
    CoverageDelta (in_Requirements input) = "" \/
    validCoverageRequirement (CoverageDelta (in_Requirements input)) = true /\
    (TrimSpace (CoverageDelta (in_Requirements input)) <> "" ->
     exists observed, ob_CoverageDelta (in_Observations input) = Some observed /\
       coverageSatisfies (CoverageDelta (in_Requirements input)) observed = true);
  acc_commands : commands_evidenced (in_Commands input) (ob_Commands (in_Observations input));
  acc_policy : policy_evidenced (in_PolicyRules input) (ob_PolicyChecks (in_Observations input))
}.

(** ** The verdict *)

Lemma evaluation_performed input :
  performed (evaluation_ops input) (foldl perform eval_start (evaluation_ops input)).
Proof.
  pose proof (evaluation_sublist input) as Hs. apply performed_all.
  - eapply names_ok_sublist; [exact Hs|apply all_signatures_ok].
  - apply sublist_length in Hs. rewrite length_map in Hs.
    assert (H : length all_signatures = 54%nat) by reflexivity. lia.
  - eapply Forall_impl; [apply evaluation_messages_ok|]. cbn. intros o Ho. unfold message_ok in Ho.
    breflect. destruct_and!. unfold MaxStatusMessage. lia.
Qed.

Lemma evaluation_nonempty input : evaluation_ops input <> [].
Proof.
  intros Hnil. unfold evaluation_ops in Hnil.
  do 2 (apply app_eq_nil in Hnil as [_ Hnil]). apply app_eq_nil in Hnil as [Hr Hc].
  unfold configuration_ops in Hc. apply app_eq_nil in Hc as [_ Hc]. apply app_eq_nil in Hc as [Hc _].
  apply (f_equal (map signature)) in Hr. unfold command_results in Hr.
  rewrite command_ops_signatures in Hr. unfold slen in Hc.
  destruct (in_Commands input); [discriminate Hc|]. discriminate Hr.
Qed.

Lemma evaluate_checks input :
  d_Checks (Evaluate input) = checks (foldl perform eval_start (evaluation_ops input)).
Proof.
  pose proof (evaluation_performed input) as Hp. unfold Evaluate. cbn [d_Checks].
  fold eval_start. set (st := foldl perform _ _) in *.
  destruct (inputInvalid st && _) eqn:E; [|done]. breflect. destruct E as [Hi Hz].
  destruct (pf_invalid _ _ Hp Hi) as (o & Ho & _). destruct (pf_all _ _ Hp o Ho) as (c & Hc & _).
  unfold slen in Hz. destruct (checks st); [by apply not_elem_of_nil in Hc|cbn in Hz; lia].
Qed.

Lemma evaluate_accepted input :
  d_Verdict (Evaluate input) = Accepted <->
  Forall (fun o => op_passed o = true) (evaluation_ops input).
Proof.
  pose proof (evaluation_performed input) as Hp. pose proof (evaluate_checks input) as Hc.
  unfold Evaluate in *. cbn [d_Verdict d_Checks] in *. rewrite Hc. fold eval_start.
  set (st := foldl perform _ _) in *.
  rewrite Forall_forall. split.
  - intros H o Ho. destruct (inputInvalid st); [done|]. cbn in H.
    destruct (existsb _ _) eqn:E; [done|]. apply existsb_false in E.
    destruct (pf_all _ _ Hp o Ho) as (c & Hc' & _ & Hpass). rewrite <- Hpass.
    rewrite Forall_forall in E. specialize (E c Hc'). by apply negb_false_iff in E.
  - intros H. destruct (inputInvalid st) eqn:Hi.
    { destruct (pf_invalid _ _ Hp Hi) as (o & Ho & Hf). rewrite (H o Ho) in Hf. done. }
    cbn. destruct (existsb _ _) eqn:E; [|done]. apply existsb_true in E as (c & Hin & Hf).
    destruct (pf_from _ _ Hp c Hin) as (o & Ho & ->). cbn in Hf. by rewrite (H o Ho) in Hf.
Qed.

(** ** Each block of checks *)

Notation all_passed := (Forall (fun o => op_passed o = true)).

Lemma when_passed b o : all_passed (op_when b o) <-> (b = true -> op_passed o = true).
Proof.
  destruct b; cbn; [rewrite Forall_singleton; tauto|]. split; [done|constructor].
Qed.

Lemma when_invalid b name message : all_passed (op_when b (Invalid name message)) <-> b = false.
Proof. rewrite when_passed. destruct b; cbn; intuition discriminate. Qed.

Lemma when_check b name passed good bad :
  all_passed (op_when b (check_op name passed good bad)) <-> (b = true -> passed = true).
Proof. by rewrite when_passed. Qed.

(** Changed paths *)

Lemma validateChangedPaths_from_spec seen l :
  ((validateChangedPaths_from seen l).1 = true <-> Forall (fun p => validRepoPath p = true) l) /\
  ((validateChangedPaths_from seen l).2 = false <-> NoDup l /\ (forall p, p ∈ l -> p ∉ seen)).
Proof.
  revert seen. induction l as [|p l IH]; intros seen; cbn [validateChangedPaths_from].
  - cbn. rewrite NoDup_nil, Forall_nil. set_solver.
  - destruct (IH ({[p]} ∪ seen)) as [IH1 IH2].
    destruct (validateChangedPaths_from _ l) as [v d]. cbn in *.
    rewrite andb_true_iff, IH1, Forall_cons, orb_false_iff, IH2, bool_decide_eq_false, NoDup_cons.
    split; [done|]. set_solver.
Qed.

Definition mark (p : string) : string := if negb (validRepoPath p) then path_marker else p.

Lemma marked_valid l :
  Forall (fun p => validRepoPath p = true) (map mark l) <-> Forall (fun p => validRepoPath p = true) l.
Proof.
  rewrite Forall_map. apply Forall_iff. intros p. unfold mark.
  destruct (validRepoPath p) eqn:E; cbn [negb]; [by rewrite E|done].
Qed.

Lemma marked_id l : Forall (fun p => validRepoPath p = true) l -> map mark l = l.
Proof.
  induction 1 as [|p l Hp _ IH]; [done|]. cbn. unfold mark at 1. by rewrite Hp, IH.
Qed.

Section Blocks.
Context (input : Input).
Notation raw := (in_Observations input).

Lemma paths_obs :
  slen (ob_ChangedPaths raw) <= MaxChangedPaths ->
  ob_ChangedPaths (obs input) = Strings (map mark (ob_ChangedPaths raw)).
Proof. intros H. unfold obs, normalizeObservations. cbn. by rewrite (proj2 (Z.leb_le _ _) H). Qed.

Lemma paths_ok :
  slen (ob_ChangedPaths raw) <= MaxChangedPaths ->
  pathValid input = true /\ duplicatePath input = false <->
  Forall (fun p => validRepoPath p = true) (ob_ChangedPaths raw) /\ NoDup (ob_ChangedPaths raw).
Proof.
  intros H. unfold pathValid, duplicatePath, validateChangedPaths. rewrite (paths_obs H).
  destruct (validateChangedPaths_from_spec ∅ (Strings (map mark (ob_ChangedPaths raw)))) as [-> ->].
  rewrite Strings_perm, marked_valid. split; intros [Hv Hd]; (split; [done|]);
    rewrite (marked_id _ Hv) in *; [by destruct Hd|]. split; [done|set_solver].
Qed.

Lemma paths_perm :
  slen (ob_ChangedPaths raw) <= MaxChangedPaths ->
  Forall (fun p => validRepoPath p = true) (ob_ChangedPaths raw) ->
  ob_ChangedPaths (obs input) ≡ₚ ob_ChangedPaths raw.
Proof. intros H Hv. by rewrite (paths_obs H), (marked_id _ Hv), Strings_perm. Qed.
End Blocks.

(** Commands *)

Lemma items_at_perm i l k : l ≡ₚ k -> items_at i l ≡ₚ items_at i k.
Proof. intros H. unfold items_at. by rewrite H. Qed.

Lemma items_at_none i l : slen (items_at i l) = 0 <-> (forall item, item ∈ l -> co_Index item <> i).
Proof.
  unfold slen, items_at. split.
  - intros H item Hin Hi. destruct (filter _ l) as [|x k] eqn:E; [|cbn in H; lia].
    assert (Hf : item ∈ filter (fun x => co_Index x = i) l) by (by apply list_elem_of_filter).
    rewrite E in Hf. by apply not_elem_of_nil in Hf.
  - intros H. destruct (filter _ l) as [|x k] eqn:E; [done|].
    assert (Hx : x ∈ filter (fun x => co_Index x = i) l) by (rewrite E; apply list_elem_of_here).
    apply list_elem_of_filter in Hx as [Hi Hx]. by destruct (H x).
Qed.

Lemma observed_invalid_spec n before l :
  observed_invalid n before l = false <->
  (forall item, item ∈ l -> 0 <= co_Index item < n) /\ NoDup (map co_Index l) /\
  (forall item, item ∈ l -> co_Index item ∉ map co_Index before).
Proof.
  revert before. induction l as [|x l IH]; intros before; cbn [observed_invalid map].
  - rewrite NoDup_nil. set_solver.
  - rewrite !orb_false_iff, IH, NoDup_cons, !Z.ltb_ge, Z.leb_gt, map_app.
    assert (H0 : slen (items_at (co_Index x) before) <= 0 <->
                 co_Index x ∉ map co_Index before).
    { assert (Hp : 0 <= slen (items_at (co_Index x) before)) by (unfold slen; lia).
      rewrite list_elem_of_fmap. split.
      - intros Hle (y & Hy & Hin).
        by apply (proj1 (items_at_none (co_Index x) before) ltac:(lia) y Hin).
      - intros Hn. apply Z.eq_le_incl, items_at_none. intros y Hy He. apply Hn. by exists y. }
    rewrite H0. setoid_rewrite elem_of_cons. setoid_rewrite elem_of_app. cbn [map].
    setoid_rewrite list_elem_of_singleton. split.
    + intros (((? & ?) & ?) & Hr & Hd & Hb). split_and!; [|intros Hin|done|].
      * intros item [->|Hi]; [lia|auto].
      * apply list_elem_of_fmap in Hin as (y & Hy & Hin). by destruct (Hb y Hin); right.
      * intros item [->|Hi]; [done|]. intros ?. by destruct (Hb item Hi); left.
    + intros (Hr & (Hx & Hd) & Hb). split_and!; [apply Hr; by left..|apply Hb; by left|auto|done|].
      intros item Hi [Hin|Heq]; [by destruct (Hb item); auto|].
      apply Hx. rewrite <- Heq. apply list_elem_of_fmap. by exists item.
Qed.

(** One command: its check passes exactly when it is evidenced. *)
Lemma evaluate_command_passed observed i command :
  op_passed (evaluate_command observed i command).1.2 = true <->
  command_evidenced observed i command.
Proof.
  unfold evaluate_command, command_evidenced.
  destruct (items_at (Z.of_nat i) observed) as [|item [|item' rest]]; cbn.
  - split; [done|]. intros (_ & x & Hx & _). done.
  - rewrite !andb_true_iff, bool_decide_eq_true. split.
    + intros ((Hv & (_ & Hd) & Hm) & He). eauto 10.
    + intros (Hv & x & [= <-] & He & Hd & Hm). by rewrite He.
  - split; [done|]. intros (_ & x & Hx & _). done.
Qed.

Lemma evaluate_command_bad observed i command :
  command_evidenced observed i command -> (evaluate_command observed i command).2 = false.
Proof.
  intros (_ & x & Hx & _). unfold evaluate_command. by rewrite Hx.
Qed.

Lemma command_evidenced_perm observed observed' i command :
  observed ≡ₚ observed' -> command_evidenced observed i command -> command_evidenced observed' i command.
Proof.
  intros Hp (Hv & item & Hi & Hrest). split; [done|]. exists item. split; [|done].
  apply Permutation_singleton_r. rewrite <- Hi. symmetry. by apply items_at_perm.
Qed.

Lemma two_positions {A : Type} (l : list A) a b x y :
  l !! a = Some x -> l !! b = Some y -> a <> b -> exists k, l ≡ₚ x :: y :: k.
Proof.
  intros Hx Hy Hab. pose proof (delete_Permutation l a x Hx) as Hp.
  assert (Hin : y ∈ delete a l).
  { apply list_elem_of_lookup. exists (if decide (b < a)%nat then b else Nat.pred b).
    rewrite list_lookup_delete. destruct (decide (b < a)%nat).
    - by rewrite decide_True.
    - rewrite decide_False by lia. by replace (S (Nat.pred b)) with b by lia. }
  apply elem_of_Permutation in Hin as [k Hk]. exists k. by rewrite Hp, Hk.
Qed.

(** Evidence for every command, each observation in range: no index repeats. *)
Lemma evidenced_nodup (configured : list VerifyCommand) observed :
  (forall item, item ∈ observed -> 0 <= co_Index item < slen configured) ->
  (forall i command, configured !! i = Some command -> command_evidenced observed i command) ->
  NoDup (map co_Index observed).
Proof.
  intros Hr He. apply NoDup_alt. intros a b i Ha Hb.
  apply list_lookup_fmap_Some in Ha as (x & -> & Hx).
  apply list_lookup_fmap_Some in Hb as (y & Hxy & Hy).
  destruct (decide (a = b)) as [|Hab]; [done|]. exfalso.
  pose proof (Hr x (list_elem_of_lookup_2 _ _ _ Hx)) as Hrange. unfold slen in Hrange.
  destruct (lookup_lt_is_Some_2 configured (Z.to_nat (co_Index x))) as [c Hc]; [lia|].
  destruct (He _ _ Hc) as (_ & z & Hz & _). rewrite Z2Nat.id in Hz by lia.
  destruct (two_positions _ _ _ _ _ Hx Hy Hab) as [k Hk].
  apply (items_at_perm (co_Index x)), Permutation_length in Hk. rewrite Hz in Hk.
  unfold items_at in Hk. rewrite !filter_cons_True in Hk by done. cbn in Hk. lia.
Qed.

Lemma commands_block configured observed :
  0 < slen configured <= MaxCommands -> slen observed <= MaxCommandEvidence ->
  all_passed (evaluateCommands configured observed).1.2 /\ (evaluateCommands configured observed).2 = false
  <-> commands_evidenced configured observed.
Proof.
  intros Hn Ho. unfold commands_evidenced, evaluateCommands. cbn [fst snd].
  rewrite take_ge by (unfold slen, MaxCommands in *; lia).
  assert (Heach : all_passed (map (fun r => r.1.2) (imap (evaluate_command observed) configured)) <->
    (forall i command, configured !! i = Some command -> command_evidenced observed i command)).
  { rewrite Forall_map, Forall_lookup. setoid_rewrite list_lookup_imap. split.
    - intros H i c Hc. apply evaluate_command_passed. apply (H i). by rewrite Hc.
    - intros H i x Hx. destruct (configured !! i) as [c|] eqn:Hc; [|done].
      injection Hx as <-. by apply evaluate_command_passed, H. }
  rewrite Heach, orb_false_iff, observed_invalid_spec. split.
  - intros (He & (Hr & _) & _). done.
  - intros (_ & _ & Hr & He). split_and!; [done|done| | |].
    + by eapply evidenced_nodup.
    + intros item _. apply not_elem_of_nil.
    + apply existsb_false, Forall_lookup. intros i x. rewrite list_lookup_imap.
      destruct (configured !! i) as [c|] eqn:Hc; [|done]. intros [= <-].
      by apply evaluate_command_bad, He.
Qed.

Lemma commands_evidenced_perm configured observed observed' :
  observed ≡ₚ observed' ->
  commands_evidenced configured observed -> commands_evidenced configured observed'.
Proof.
  intros Hp (Hn & Ho & Hr & He). split_and!; try done.
  - lia.
  - lia.
  - unfold slen in *. apply Permutation_length in Hp. lia.
  - intros item. rewrite <- Hp. apply Hr.
  - intros i c Hc. by eapply command_evidenced_perm; [|apply He].
Qed.

(** Policy rules and observations *)

Definition rules_start : rule_acc := {| expected := ∅; contractDigest := ""; rulesValid := true |}.
Definition rules_of (rules : list PolicyRule) : rule_acc := foldl rule_step rules_start rules.

Lemma rules_of_snoc rules rule : rules_of (rules ++ [rule]) = rule_step (rules_of rules) rule.
Proof. unfold rules_of. by rewrite foldl_app. Qed.

Lemma expected_dom rules id : is_Some (expected (rules_of rules) !! id) <-> id ∈ map pr_RuleID rules.
Proof.
  induction rules as [|rule rules IH] using rev_ind.
  - cbn. rewrite lookup_empty. split; [by intros [? ?]|set_solver].
  - rewrite rules_of_snoc, map_app, elem_of_app, <- IH. cbn. rewrite list_elem_of_singleton.
    destruct (decide (pr_RuleID rule = id)) as [<-|Hne].
    + rewrite lookup_insert_eq. by split; eauto.
    + rewrite lookup_insert_ne by done. split; [by left|]. by intros [?|?].
Qed.

Lemma expected_elem rules id rule :
  expected (rules_of rules) !! id = Some rule -> rule ∈ rules /\ pr_RuleID rule = id.
Proof.
  induction rules as [|rule' rules IH] using rev_ind; [done|].
  rewrite rules_of_snoc. cbn. intros [[<- <-]|[_ H]]%lookup_insert_Some; set_solver.
Qed.

Lemma expected_spec rules id rule :
  NoDup (map pr_RuleID rules) ->
  expected (rules_of rules) !! id = Some rule <-> rule ∈ rules /\ pr_RuleID rule = id.
Proof.
  intros Hnd. split; [apply expected_elem|]. intros [Hin <-].
  destruct (proj2 (expected_dom rules (pr_RuleID rule))) as [rule' Hr].
  { apply list_elem_of_fmap. by exists rule. }
  rewrite Hr. f_equal. apply expected_elem in Hr as [Hin' Heq].
  apply list_elem_of_lookup in Hin as [i Hi], Hin' as [j Hj].
  assert (i = j) as ->; [|congruence].
  eapply (NoDup_lookup (map pr_RuleID rules)); [done| |];
    rewrite list_lookup_fmap_Some; eauto.
Qed.

Lemma expected_size rules :
  NoDup (map pr_RuleID rules) -> size (expected (rules_of rules)) = length rules.
Proof.
  induction rules as [|rule rules IH] using rev_ind; [done|].
  rewrite map_app, rules_of_snoc, length_app. cbn. intros (Hnd & Hdis & _)%NoDup_app.
  rewrite map_size_insert_None, IH by (try done; apply eq_None_not_Some; rewrite expected_dom; set_solver).
  lia.
Qed.

Lemma ValidDigest_empty : ValidDigest "" = false.
Proof. reflexivity. Qed.

Lemma rules_contract contract rules :
  contract <> "" -> rules <> [] -> Forall (rule_wf contract) rules ->
  contractDigest (rules_of rules) = contract.
Proof.
  intros Hc. induction rules as [|rule rules IH] using rev_ind; [done|]. intros _ [Ha Hw]%Forall_app.
  apply Forall_singleton in Hw as (_ & Hw & _). rewrite rules_of_snoc. cbn.
  destruct (decide (rules = [])) as [->|Hne]; [done|].
  rewrite IH by done. by rewrite bool_decide_eq_false_2.
Qed.

(** The loop over the rules accepts exactly the well-formed rules of one
    contract with distinct ids. *)
Lemma rules_valid rules :
  rules <> [] ->
  rulesValid (rules_of rules) = true <->
  exists contract, ValidDigest contract = true /\ contractDigest (rules_of rules) = contract /\
    Forall (rule_wf contract) rules /\ NoDup (map pr_RuleID rules).
Proof.
  induction rules as [|rule rules IH] using rev_ind; [done|]. intros _.
  pose proof (expected_dom rules (pr_RuleID rule)) as Hdom.
  rewrite rules_of_snoc, map_app. unfold rule_step. cbn.
  set (r := rules_of rules) in *.
  assert (Hex : negb (match expected r !! pr_RuleID rule with Some _ => true | None => false end) = true
                <-> pr_RuleID rule ∉ map pr_RuleID rules).
  { rewrite <- Hdom. destruct (expected r !! _).
    - split; [done|]. intros []. eauto.
    - split; [by intros _ [? ?]|done]. }
  assert (Hwf : negb ((pr_RuleID rule =?= "") || negb (ValidDigest (pr_ContractDigest rule)) ||
             (pr_HasScript rule && negb (ValidDigest (pr_ScriptDigest rule))) ||
             (negb (pr_HasScript rule) && (pr_ScriptDigest rule !=? ""))) = true <->
     ValidDigest (pr_ContractDigest rule) = true /\ rule_wf (pr_ContractDigest rule) rule).
  { unfold rule_wf. destruct (pr_HasScript rule); cbn; breflect; intuition. }
  rewrite !andb_true_iff, Hwf, Hex.
  setoid_rewrite NoDup_app. setoid_rewrite Forall_app. setoid_rewrite Forall_singleton.
  destruct (decide (rules = [])) as [->|Hne].
  - cbn. split.
    + intros (((_ & Hv & Hw) & _) & _). exists (pr_ContractDigest rule).
      split_and!; try done; [apply NoDup_nil_2| |apply NoDup_singleton].
      intros x Hx. by apply not_elem_of_nil in Hx.
    + intros (c & Hc & Hcd & (_ & Hw) & _). destruct Hw as (H1 & <- & H3).
      split_and!; try done; set_solver.
  - destruct (IH Hne) as [IH1 IH2]. split.
    + intros (((Hr & Hv & Hw) & Hm) & Hn). destruct (IH1 Hr) as (c & Hc & Hcd & Hall & Hnd).
      exists c. assert (Hcne : c <> "") by (intros ->; by rewrite ValidDigest_empty in Hc).
      rewrite Hcd in Hm |- *. breflect. destruct Hm as [Hm|Hm]; [done|].
      rewrite bool_decide_eq_false_2 by done.
      split_and!; try done; [by rewrite Hm|set_solver|apply NoDup_singleton].
    + intros (c & Hc & Hcd & (Hall & Hw) & Hnd & Hdis & _).
      assert (Hcne : c <> "") by (intros ->; by rewrite ValidDigest_empty in Hc).
      assert (Hrc : contractDigest r = c) by (by apply rules_contract).
      destruct Hw as (Hid & <- & Hs). rewrite Hrc, (bool_decide_eq_true_2 (pr_ContractDigest rule = pr_ContractDigest rule)) by done.
      split_and!; try done; [|by rewrite andb_false_r|set_solver].
      apply IH2. exists (pr_ContractDigest rule). done.
Qed.

Definition obs_start : obs_acc :=
  {| seenRules := ∅; obsValid := true; blockingFailures := 0; advisoryFailures := 0 |}.
Definition observed_of (r : rule_acc) (l : list PolicyObservation) : obs_acc :=
  foldl (obs_step r) obs_start l.

Lemma observed_of_snoc r l o : observed_of r (l ++ [o]) = obs_step r (observed_of r l) o.
Proof. unfold observed_of. by rewrite foldl_app. Qed.

Lemma seen_spec r l : seenRules (observed_of r l) = list_to_set (map po_RuleID l).
Proof.
  induction l as [|o l IH] using rev_ind; [done|].
  rewrite observed_of_snoc, map_app, list_to_set_app_L. unfold obs_step.
  case_match; cbn; rewrite IH; set_solver.
Qed.

(** The loop over the observations accepts each expected rule at most once. *)
Lemma observed_valid r l :
  obsValid (observed_of r l) = true <->
  Forall (fun o => po_RuleID o <> "" /\ po_ContractDigest o = contractDigest r /\
                   is_Some (expected r !! po_RuleID o)) l /\ NoDup (map po_RuleID l).
Proof.
  induction l as [|o l IH] using rev_ind.
  - split; [|done]. intros _. split; [constructor|apply NoDup_nil_2].
  - rewrite observed_of_snoc, map_app, NoDup_app, Forall_app, Forall_singleton. unfold obs_step.
    rewrite seen_spec. destruct (expected r !! po_RuleID o) as [rule|] eqn:E; cbn.
    + rewrite !andb_true_iff, IH. breflect. rewrite elem_of_list_to_set.
      split.
      * intros (([Hl Hnd] & Hid & Hc) & Hn). split_and!; eauto using NoDup_singleton. set_solver.
      * intros ([Hl (Hid & Hc & _)] & Hnd & Hdis & _). split_and!; try done. set_solver.
    + split; [done|]. intros ([_ (_ & _ & [? ?])] & _). done.
Qed.

Lemma blocking_spec r l :
  blockingFailures (observed_of r l) = 0 <->
  forall o rule, o ∈ l -> expected r !! po_RuleID o = Some rule -> pr_Blocking rule = true ->
    policy_passed rule o = true.
Proof.
  induction l as [|o l IH] using rev_ind; [split; [set_solver|done]|].
  rewrite observed_of_snoc. setoid_rewrite elem_of_app. setoid_rewrite list_elem_of_singleton.
  assert (Hnn : 0 <= blockingFailures (observed_of r l)) by (apply obs_fold_counts; cbn; lia).
  unfold obs_step. destruct (expected r !! po_RuleID o) as [rule|] eqn:E; cbn.
  - destruct (negb (policy_passed rule o) && pr_Blocking rule) eqn:Ef.
    + split; [lia|]. intros H. breflect. destruct Ef as [Hp Hb].
      specialize (H o rule (or_intror eq_refl) E Hb). congruence.
    + rewrite Z.add_0_r, IH. split; [|eauto]. intros H o' rule' [Hin| ->] He Hb; [eauto|].
      assert (rule' = rule) as -> by congruence. rewrite Hb, andb_true_r in Ef. by apply negb_false_iff.
  - rewrite IH. split; [|eauto]. intros H o' rule' [Hin| ->] He Hb; [eauto|congruence].
Qed.

(** The observations answer the rules of one contract, each exactly once. *)
Lemma policy_config rules observations :
  rules <> [] ->
  rulesValid (rules_of rules) && obsValid (observed_of (rules_of rules) observations) &&
  (size (seenRules (observed_of (rules_of rules) observations)) =? size (expected (rules_of rules)))%nat
  = true <->
  exists contract,
    ValidDigest contract = true /\ Forall (rule_wf contract) rules /\ NoDup (map pr_RuleID rules) /\
    Forall (fun o => po_ContractDigest o = contract) observations /\
    map po_RuleID observations ≡ₚ map pr_RuleID rules.
Proof.
  intros Hne. rewrite !andb_true_iff, Nat.eqb_eq, rules_valid, observed_valid by done. split.
  - intros (((c & Hc & Hcd & Hwf & Hnd) & [Hall Hndo]) & Hsize).
    exists c. rewrite Forall_forall in Hall. split_and!; try done.
    + apply Forall_forall. intros o Hin. rewrite <- Hcd. by apply Hall.
    + apply submseteq_length_Permutation.
      * apply NoDup_submseteq; [done|]. intros id (o & -> & Hin)%list_elem_of_fmap.
        apply expected_dom. by apply Hall.
      * rewrite !length_map. rewrite expected_size in Hsize by done.
        rewrite seen_spec, size_list_to_set, length_map in Hsize by done. lia.
  - intros (c & Hc & Hwf & Hnd & Hall & Hperm).
    assert (Hcne : c <> "") by (intros ->; by rewrite ValidDigest_empty in Hc).
    assert (Hcd : contractDigest (rules_of rules) = c) by (by apply rules_contract).
    split_and!; [by exists c| |by rewrite Hperm|].
    + rewrite Forall_forall in *. intros o Hin. rewrite expected_dom, <- Hperm, Hcd.
      assert (Hid : po_RuleID o ∈ map po_RuleID observations) by (apply list_elem_of_fmap; eauto).
      split_and!; [|by apply Hall|done]. rewrite Hperm in Hid.
      apply list_elem_of_fmap in Hid as (rule & -> & Hrin).
      by apply (proj1 (Forall_forall _ _) Hwf).
    + rewrite expected_size, seen_spec, size_list_to_set by (done || by rewrite Hperm).
      by rewrite (Permutation_length Hperm), length_map.
Qed.

Lemma policy_block rules observations :
  slen rules <= 512 -> slen observations <= 512 ->
  all_passed (evaluatePolicyChecks rules observations) <-> policy_evidenced rules observations.
Proof.
  intros Hr Ho. unfold evaluatePolicyChecks, policy_evidenced.
  destruct (decide (rules = [])) as [->|Hne]; destruct (decide (observations = [])) as [->|Hno].
  - split; [by left|constructor].
  - destruct observations; [done|]. cbn -[slen]. replace (_ && _) with false by done. replace (_ || _) with true by done. rewrite Forall_singleton.
    split; [done|]. intros [[_ ?]|(? & _ & ? & _)]; done.
  - destruct rules; [done|]. replace (_ && _) with false by done. replace (_ || _) with true by done. rewrite Forall_singleton. split; [done|].
    intros [[? _]|(? & _ & _ & _ & _ & _ & _ & _ & Hp & _)]; [done|]. by apply Permutation_nil_l in Hp.
  - replace (_ && _) with false by (by destruct rules). 
    replace (_ || _) with false by (by destruct rules, observations).
    fold rules_start obs_start. cbv zeta.
    change (foldl rule_step rules_start rules) with (rules_of rules).
    change (foldl (obs_step (rules_of rules)) obs_start observations)
      with (observed_of (rules_of rules) observations).
    rewrite !Forall_cons, Forall_nil. cbn [op_passed].
    rewrite (andb_true_iff _ (_ =? 0)), Z.eqb_eq, policy_config, blocking_spec by done. split.
    + intros (_ & [(c & Hc & Hwf & Hnd & Hall & Hperm) Hb] & _).
      right. exists c. split_and!; try done.
      intros rule o Hin Hino Hid. apply Hb; [done|]. by apply expected_spec.
    + intros [[? _]|(c & Hc & _ & _ & _ & Hwf & Hnd & Hall & Hperm & Hb)]; [done|].
      split_and!; try done; try (exists c; done).
      intros o rule Hin He Hbl. apply expected_spec in He as [Hrin Hid]; [|done]. by apply Hb.
Qed.

(** The three blocks of [Evaluate]. *)
Section Conditions.
Context (input : Input).
Notation raw := (in_Observations input).
Notation required := (in_Requirements input).

Record bounded : Prop := {
  bd_paths : slen (ob_ChangedPaths raw) <= MaxChangedPaths;
  bd_evidence : slen (ob_Commands raw) <= MaxCommandEvidence;
  bd_patterns : slen (Paths (in_Scope input)) + slen (Forbidden (in_Scope input)) <= MaxScopePatterns;
  bd_commands : slen (in_Commands input) <= MaxCommands;
  bd_rules : slen (in_PolicyRules input) <= 512;
  bd_policies : slen (ob_PolicyChecks raw) <= 512;
  bd_valid : Forall (fun p => validRepoPath p = true) (ob_ChangedPaths raw);
  bd_once : NoDup (ob_ChangedPaths raw);
  bd_globs : Forall (fun p => is_ok (compileGlob p) = true)
               (Paths (in_Scope input) ++ Forbidden (in_Scope input))
}.

Lemma validatePatterns_spec patterns :
  slen patterns <= MaxScopePatterns ->
  validatePatterns patterns = true <-> Forall (fun p => is_ok (compileGlob p) = true) patterns.
Proof.
  intros H. unfold validatePatterns. rewrite (proj2 (Z.ltb_ge _ _) H). apply forallb_true.
Qed.

Lemma input_block : all_passed (input_ops input) <-> bounded.
Proof.
  unfold input_ops. rewrite !Forall_app, !when_invalid. rewrite !orb_false_iff, !negb_false_iff, !Z.ltb_ge.
  unfold allowValid, forbidValid.
  pose proof (slen_nonneg (Paths (in_Scope input))). pose proof (slen_nonneg (Forbidden (in_Scope input))).
  split.
  - intros ((? & ?) & ? & ? & (? & ?) & Hp & Hg). apply paths_ok in Hp as [? ?]; [|done].
    rewrite !validatePatterns_spec in Hg by lia. split; try done. by apply Forall_app.
  - intros [? ? ? ? ? ? Hv Ho Hg]. rewrite Forall_app in Hg.
    rewrite !validatePatterns_spec by lia. split_and!; try apply Hg; try lia; by apply paths_ok.
Qed.

Lemma scope_ok :
  bounded ->
  scope_passed input = true <-> Forall (in_scope (in_Scope input)) (ob_ChangedPaths raw).
Proof.
  intros Hb. destruct (proj2 (paths_ok input (bd_paths Hb))) as [Hpv Hpd].
  { split; [apply (bd_valid Hb)|apply (bd_once Hb)]. }
  unfold scope_passed, allowValid, forbidValid. rewrite Hpv, Hpd. cbn [negb andb].
  pose proof (bd_patterns Hb). pose proof (slen_nonneg (Paths (in_Scope input))).
  pose proof (slen_nonneg (Forbidden (in_Scope input))).
  destruct (proj1 (Forall_app _ _ _) (bd_globs Hb)) as [Hg1 Hg2].
  rewrite (proj2 (validatePatterns_spec (Paths (in_Scope input)) ltac:(lia)) Hg1),
    (proj2 (validatePatterns_spec (Forbidden (in_Scope input)) ltac:(lia)) Hg2). cbn [andb].
  unfold pathsRespectScope. rewrite forallb_true, (paths_perm input (bd_paths Hb) (bd_valid Hb)).
  apply Forall_iff. intros p. unfold in_scope.
  rewrite andb_true_iff, existsb_true, negb_true_iff, existsb_false, Forall_forall. done.
Qed.

Lemma files_ok :
  bounded ->
  files_passed input = true <->
  ob_FilesChanged raw = Some (slen (ob_ChangedPaths raw)) /\
  (0 < MaxFilesChanged required -> slen (ob_ChangedPaths raw) <= MaxFilesChanged required).
Proof.
  intros Hb. unfold files_passed, req.
  assert (Hl : slen (ob_ChangedPaths (obs input)) = slen (ob_ChangedPaths raw)).
  { unfold slen. by rewrite (paths_perm input (bd_paths Hb) (bd_valid Hb)). }
  rewrite Hl. change (ob_FilesChanged (obs input)) with (ob_FilesChanged raw).
  destruct (ob_FilesChanged raw) as [n|]; [|split; [done|by intros [? _]]].
  pose proof (bd_paths Hb). pose proof (slen_nonneg (ob_ChangedPaths raw)).
  rewrite !andb_true_iff. cbn [validCounter]. rewrite andb_true_iff, !Z.leb_le, Z.eqb_eq.
  unfold MaxObservedFiles. destruct (Z.ltb_spec 0 (MaxFilesChanged required)).
  - rewrite Z.leb_le. split.
    + intros ((_ & ->) & ?). split; [done|lia].
    + intros [Hn ?]. simplify_eq. lia.
  - split; [intros ((_ & ->) & _); split; [done|lia]|]. intros [Hn _]. simplify_eq. lia.
Qed.

Lemma lines_ok :
  lines_passed input = true <->
  exists n, ob_LinesChanged raw = Some n /\ 0 <= n <= Z.min MaxObservedLines (MaxDiffLines required).
Proof.
  unfold lines_passed, req. change (ob_LinesChanged (obs input)) with (ob_LinesChanged raw).
  destruct (ob_LinesChanged raw) as [n|]; [|split; [done|by intros (? & ? & _)]].
  cbn [validCounter]. rewrite !andb_true_iff, !Z.leb_le. split.
  - intros ((? & ?) & ?). exists n. split; [done|lia].
  - intros (? & [= <-] & ?). lia.
Qed.

Lemma requirement_block :
  bounded ->
  all_passed (requirement_ops input) <->
  (ScopeRespected required = true -> Forall (in_scope (in_Scope input)) (ob_ChangedPaths raw)) /\
  (ScopeRespected required = true \/ 0 < MaxFilesChanged required ->
   ob_FilesChanged raw = Some (slen (ob_ChangedPaths raw)) /\
   (0 < MaxFilesChanged required -> slen (ob_ChangedPaths raw) <= MaxFilesChanged required)) /\
  (0 < MaxDiffLines required -> exists n, ob_LinesChanged raw = Some n /\
     0 <= n <= Z.min MaxObservedLines (MaxDiffLines required)) /\
  (NoBinaryFiles required = true -> ob_HasBinaryFiles raw = Some false) /\
  (TrimSpace (CoverageDelta required) <> "" ->
   exists observed, ob_CoverageDelta raw = Some observed /\
     coverageSatisfies (CoverageDelta required) observed = true) /\
  (TestStrength required = TestStrengthNewTestsFailOnBase -> ob_NewTestsFailOnBase raw = Some true).
Proof.
  intros Hb. unfold requirement_ops. rewrite !Forall_app, !when_check, scope_ok, files_ok, lines_ok by done.
  unfold needFiles, needLines, needBinary, needCoverage, needTests, req.
  rewrite orb_true_iff, !Z.ltb_lt, negb_true_iff, bool_decide_eq_true, bool_decide_eq_false.
  assert (H1 : binary_passed input = true <-> ob_HasBinaryFiles raw = Some false).
  { unfold binary_passed. change (ob_HasBinaryFiles (obs input)) with (ob_HasBinaryFiles raw).
    destruct (ob_HasBinaryFiles raw) as [[]|]; cbn; split; congruence. }
  assert (H2 : tests_passed input = true <-> ob_NewTestsFailOnBase raw = Some true).
  { unfold tests_passed. change (ob_NewTestsFailOnBase (obs input)) with (ob_NewTestsFailOnBase raw).
    destruct (ob_NewTestsFailOnBase raw) as [[]|]; cbn; split; congruence. }
  assert (H3 : coverage_passed input = true <-> exists observed, ob_CoverageDelta raw = Some observed /\
     coverageSatisfies (CoverageDelta required) observed = true).
  { unfold coverage_passed. change (ob_CoverageDelta (obs input)) with (ob_CoverageDelta raw).
    destruct (ob_CoverageDelta raw) as [c|]; split; [eauto|by intros (? & [= <-] & ?)|done|].
    by intros (? & ? & _). }
  rewrite H1, H2, H3. tauto.
Qed.

Lemma configuration_block :
  bounded ->
  all_passed (command_results input).1.2 /\ all_passed (configuration_ops input) <->
  commands_evidenced (in_Commands input) (ob_Commands raw) /\
  policy_evidenced (in_PolicyRules input) (ob_PolicyChecks raw) /\
  (TestStrength required = TestStrengthNone \/
   TestStrength required = TestStrengthNewTestsFailOnBase) /\
  (CoverageDelta required = "" \/ validCoverageRequirement (CoverageDelta required) = true) /\
  0 <= MaxFilesChanged required /\ 0 <= MaxDiffLines required.
Proof.
  intros Hb. unfold configuration_ops. rewrite !Forall_app, !when_invalid.
  unfold command_results. set (sorted := ob_Commands (obs input)).
  assert (Hperm : sorted ≡ₚ ob_Commands raw).
  { unfold sorted, obs, normalizeObservations. cbn. rewrite (proj2 (Z.leb_le _ _) (bd_evidence Hb)).
    apply merge_sort_Permutation. }
  assert (Hlen : slen sorted <= MaxCommandEvidence).
  { pose proof (bd_evidence Hb). unfold slen in *. by rewrite Hperm. }
  replace (ob_PolicyChecks (obs input)) with (ob_PolicyChecks raw).
  2:{ unfold obs, normalizeObservations. cbn. by rewrite (proj2 (Z.leb_le _ _) (bd_policies Hb)). }
  rewrite policy_block by apply Hb.
  assert (Hcmd : (all_passed (evaluateCommands (in_Commands input) sorted).1.2 /\
    (evaluateCommands (in_Commands input) sorted).2 = false) /\ (slen (in_Commands input) =? 0) = false
    <-> commands_evidenced (in_Commands input) (ob_Commands raw)).
  { rewrite Z.eqb_neq. pose proof (slen_nonneg (in_Commands input)). pose proof (bd_commands Hb). split.
    - intros [H1 H2]. apply commands_block in H1; [|lia|done]. by eapply commands_evidenced_perm.
    - intros Hc. split; [|destruct Hc; lia].
      apply commands_block; [destruct Hc; lia|done|]. by eapply commands_evidenced_perm. }
  assert (Htest : (TestStrength required !=? TestStrengthNone) && negb (needTests input) = false /\
     (TestStrength required =?= "") = false <->
     TestStrength required = TestStrengthNone \/ TestStrength required = TestStrengthNewTestsFailOnBase).
  { unfold needTests, req. rewrite andb_false_iff, !negb_false_iff, !bool_decide_eq_true, bool_decide_eq_false.
    split; [tauto|]. intros [-> | ->]; (split; [by auto|discriminate]). }
  assert (Hcov : (CoverageDelta required !=? "") &&
      negb (validCoverageRequirement (CoverageDelta required)) = false <->
      CoverageDelta required = "" \/ validCoverageRequirement (CoverageDelta required) = true).
  { by rewrite andb_false_iff, !negb_false_iff, bool_decide_eq_true. }
  unfold req. rewrite orb_false_iff, !Z.ltb_ge, Hcov, <- Hcmd, <- Htest. tauto.
Qed.

Lemma acceptable_ops : acceptable input <-> all_passed (evaluation_ops input).
Proof.
  unfold evaluation_ops. rewrite !Forall_app, input_block. split.
  - intros [A1 A2 A3 A4 A5 A6 A7 A8 A9 A10 A11 A12 A13 A14].
    assert (Hpol : slen (in_PolicyRules input) <= 512 /\ slen (ob_PolicyChecks raw) <= 512).
    { destruct A14 as [[-> ->]|(c & _ & _ & ? & ? & _)]; [by cbn|done]. }
    assert (Hb : bounded) by (destruct A13 as (? & ? & _); split; tauto).
    split; [done|]. rewrite requirement_block, configuration_block by done.
    split_and!; try tauto; [|intros Ht].
    + intros Hcov. destruct A12 as [E|[_ A12]]; [by rewrite E in Hcov|auto].
    + destruct A11 as [E|[_ E]]; [by rewrite E in Ht|done].
  - intros (Hb & Hr & Hc). rewrite requirement_block in Hr by done.
    rewrite configuration_block in Hc by done. destruct Hr as (R1 & R2 & R3 & R4 & R5 & R6).
    destruct Hc as (C1 & C2 & C3 & C4 & C5). split; try done; try apply Hb; try tauto.
    + split; apply Hb.
Qed.
End Conditions.

(** C12. The Gate accepts a patch exactly when the acceptance condition holds:
    paths are valid, distinct and in scope, every enabled requirement has
    evidence that meets it, every configured command has exactly one passing
    recorded observation, the policy evidence answers the contract, and the
    configuration itself is well formed.  Missing, malformed, duplicated or
    oversized evidence can only reject. *)
Theorem evaluate_decides input : Decision_Accepted (Evaluate input) = true <-> acceptable input.
Proof.
  unfold Decision_Accepted. by rewrite bool_decide_eq_true, evaluate_accepted, acceptable_ops.
Qed.

(** ** Order of the observations *)

Definition observation_key (o : CommandObservation) : Z * (option Z * (string * option Z)) :=
  (co_Index o, (co_ExitCode o, (co_EvidenceDigest o, co_DurationMillis o))).

Definition compare_observation : CommandObservation -> CommandObservation -> comparison :=
  compare_on observation_key
    (compare_pair Z.compare (compare_pair (compare_option Z.compare)
      (compare_pair String.compare (compare_option Z.compare)))).

#[global] Instance compare_observation_ordering : Ordering compare_observation.
Proof. apply compare_on_ordering; [apply _|]. intros [] [] [=]. by subst. Qed.

(** [commandObservationLess] is the strict part of a total order. *)
Lemma commandObservationLess_compare l r :
  commandObservationLess l r = match compare_observation l r with Lt => true | _ => false end.
Proof.
  unfold commandObservationLess, compare_observation, compare_on, compare_pair, observation_key.
  cbn [fst snd].
  destruct (bool_decide_reflect (co_Index l = co_Index r)) as [->|Hi]; cbn [negb].
  2:{ unfold Z.ltb. destruct (Z.compare_spec (co_Index l) (co_Index r)); done. }
  rewrite Z.compare_refl. cbn [then_by].
  assert (Hd : forall m n, (if co_EvidenceDigest l !=? co_EvidenceDigest r
      then string_lt (co_EvidenceDigest l) (co_EvidenceDigest r)
      else match m, n with
           | None, Some _ => true | Some _, None => false
           | Some l, Some r => l <? r | None, None => false end) =
     match then_by (String.compare (co_EvidenceDigest l) (co_EvidenceDigest r))
          (compare_option Z.compare m n) with Lt => true | _ => false end).
  { intros m n. destruct (bool_decide_reflect (co_EvidenceDigest l = co_EvidenceDigest r)) as [->|Hn];
      cbn [negb].
    - rewrite (cmp_refl String.compare). by destruct m, n.
    - unfold string_lt, String.ltb.
      destruct (String.compare _ _) eqn:E; try done. by apply (cmp_eq (cmp := String.compare)) in E. }
  rewrite Hd. destruct (co_ExitCode l) as [x|], (co_ExitCode r) as [y|];
    cbn [compare_option then_by]; try done.
  rewrite Z.eqb_compare. unfold Z.ltb. by destruct (x ?= y).
Qed.

Lemma commandObservationLe_cmp l r : commandObservationLe l r <-> cmp_le compare_observation l r.
Proof.
  unfold commandObservationLe, cmp_le. rewrite commandObservationLess_compare.
  rewrite (cmp_opp (cmp := compare_observation) l r). by destruct (compare_observation l r).
Qed.

Lemma command_sort_unique l k :
  l ≡ₚ k -> merge_sort commandObservationLe l = merge_sort commandObservationLe k.
Proof.
  assert (Ht : Total commandObservationLe).
  { intros a b. rewrite !commandObservationLe_cmp. apply (cmp_le_total compare_observation). }
  assert (Hs : forall l, Sorted (cmp_le compare_observation) (merge_sort commandObservationLe l)).
  { intros l'. apply (Sorted_subrelation commandObservationLe); [|apply Sorted_merge_sort, Ht].
    intros a b. by apply commandObservationLe_cmp. }
  intros H. apply (sorted_unique_perm compare_observation); [apply Hs..|].
  by rewrite !merge_sort_Permutation.
Qed.

(** The same input with its changed paths and command observations reordered. *)
Definition reordered (input input' : Input) : Prop :=
  in_Scope input' = in_Scope input /\ in_Requirements input' = in_Requirements input /\
  in_Commands input' = in_Commands input /\ in_PolicyRules input' = in_PolicyRules input /\
  let o := in_Observations input in let o' := in_Observations input' in
  ob_ChangedPaths o' ≡ₚ ob_ChangedPaths o /\ ob_Commands o' ≡ₚ ob_Commands o /\
  ob_FilesChanged o' = ob_FilesChanged o /\ ob_LinesChanged o' = ob_LinesChanged o /\
  ob_HasBinaryFiles o' = ob_HasBinaryFiles o /\ ob_CoverageDelta o' = ob_CoverageDelta o /\
  ob_NewTestsFailOnBase o' = ob_NewTestsFailOnBase o /\ ob_PolicyChecks o' = ob_PolicyChecks o.

Lemma reordered_normalize input input' :
  reordered input input' ->
  normalizeObservations (in_Observations input') = normalizeObservations (in_Observations input) /\
  slen (ob_ChangedPaths (in_Observations input')) = slen (ob_ChangedPaths (in_Observations input)) /\
  slen (ob_Commands (in_Observations input')) = slen (ob_Commands (in_Observations input)).
Proof.
  intros (_ & _ & _ & _ & Hp & Hc & H1 & H2 & H3 & H4 & H5 & H6).
  assert (Hl1 : slen (ob_ChangedPaths (in_Observations input')) =
                slen (ob_ChangedPaths (in_Observations input))) by (unfold slen; by rewrite Hp).
  assert (Hl2 : slen (ob_Commands (in_Observations input')) =
                slen (ob_Commands (in_Observations input))) by (unfold slen; by rewrite Hc).
  split_and!; [|done..]. unfold normalizeObservations.
  rewrite Hl1, Hl2, H1, H2, H3, H4, H5, H6, (command_sort_unique _ _ Hc).
  f_equal. destruct (_ <=? _); [|done]. apply Strings_unique. by rewrite Hp.
Qed.

(** The decision, its checks, its command records and its evidence
    summary do not depend on the order in which changed paths and command
    observations were recorded. *)
Theorem evaluate_order_independent input input' (Hr : reordered input input') :
  Evaluate input' = Evaluate input.
Proof.
  pose proof (reordered_normalize _ _ Hr) as (Hn & Hl1 & Hl2).
  destruct Hr as (Hs & Hq & Hc & Hp & _ & _ & _ & _ & _ & _ & _ & Hpo).
  assert (Hops : evaluation_ops input' = evaluation_ops input /\
    command_results input' = command_results input /\ obs input' = obs input).
  { assert (Hobs : obs input' = obs input) by exact Hn.
    assert (Hreq : req input' = req input) by exact Hq.
    assert (Hcmd : command_results input' = command_results input)
      by (unfold command_results; by rewrite Hobs, Hc).
    split_and!; [|done..]. unfold evaluation_ops. rewrite Hcmd. f_equal; [|f_equal; [|f_equal]].
    - unfold input_ops, pathValid, duplicatePath, allowValid, forbidValid.
      by rewrite Hobs, Hl1, Hl2, Hs, Hc, Hp, Hpo.
    - unfold requirement_ops, needFiles, needLines, needBinary, needCoverage, needTests, files_passed,
        lines_passed, binary_passed, scope_passed, coverage_passed, tests_passed, pathValid,
        duplicatePath, allowValid, forbidValid.
      by rewrite Hobs, Hreq, Hs.
    - unfold configuration_ops, needTests. by rewrite Hobs, Hreq, Hcmd, Hc, Hp. }
  destruct Hops as (Ho & Hcmd & Hobs). unfold Evaluate. by rewrite Ho, Hcmd, Hobs.
Qed.

(** ** A concrete patch *)

Definition sample_digest : string := "sha256:" +:+ of_bytes (replicate 64 0x61).

Definition sample_observations (paths : list string) : Observations :=
  {| ob_ChangedPaths := paths; ob_FilesChanged := Some 2; ob_LinesChanged := Some 10;
     ob_HasBinaryFiles := Some false; ob_CoverageDelta := Some "1.50"%string; ob_NewTestsFailOnBase := None;
     ob_Commands := [{| co_Index := 0; co_ExitCode := Some 0; co_EvidenceDigest := sample_digest;
                        co_DurationMillis := Some 12 |}];
     ob_PolicyChecks := [] |}.

Definition sample_input (paths : list string) : Input :=
  {| in_Scope := {| Paths := ["src/**"%string]; Forbidden := ["src/secret/**"%string] |};
     in_Requirements :=
       {| ScopeRespected := true; TestStrength := TestStrengthNone; CoverageDelta := ">= 0.5";
          MaxFilesChanged := 5; MaxDiffLines := 100; NoBinaryFiles := true |};
     in_Commands := [{| Argv := ["go"; "test"]%string; Shell := None |}];
     in_PolicyRules := [];
     in_Observations := sample_observations paths |}.

Example sample_accepted :
  Decision_Accepted (Evaluate (sample_input ["src/b.go"; "src/a.go"]%string)) = true.
Proof. vm_compute. reflexivity. Qed.

Example sample_out_of_scope :
  Decision_Accepted (Evaluate (sample_input ["src/b.go"; "src/secret/a.go"]%string)) = false.
Proof. vm_compute. reflexivity. Qed.

Lemma evaluate_order_independent_witness :
  Evaluate (sample_input ["src/a.go"; "src/b.go"]%string) =
  Evaluate (sample_input ["src/b.go"; "src/a.go"]%string).
Proof.
  apply (evaluate_order_independent (sample_input ["src/b.go"; "src/a.go"]%string)).
  unfold reordered. split_and!; try reflexivity. apply perm_swap.
Defined.
