(* ===== verification/Corroboration.v ===== *)
(** * Routing of critic findings (src/v3/internal/findingcorroboration)

    A critic's finding blocks a candidate only when independently validated,
    deterministic evidence bound to that finding corroborates it.  The file
    models the typed contract, its validators, the digest that seals an
    evidence value, [Corroborate] and the normalizers of its input and result.
    The text of error messages is not modelled: an error is [ErrInvalidInput]
    with the field it names (without element indices), or [ErrNonCanonical]. *)

From S2P Require Import Prelude Order GoStrings Digest GoJson.
Local Open Scope go_scope.
Local Open Scope Z_scope.

Definition SchemaVersion : string := "agents.astatide.com/finding-corroboration/v1alpha1".

Definition MaxInputBytes : Z := 1048576.
Definition MaxResultBytes : Z := 524288.
Definition MaxFindings : Z := 256.
Definition MaxEvidence : Z := 1024.
Definition MaxFindingIDBytes : Z := 128.
Definition MaxEvidenceIDBytes : Z := 128.
Definition MaxRuleIDBytes : Z := 128.
Definition MaxValidatorBytes : Z := 128.
Definition MaxPathBytes : Z := 1024.
Definition MaxMessageBytes : Z := 4096.
Definition MaxCommandBytes : Z := 2048.
Definition MaxToolBytes : Z := 128.
Definition MaxRelationBytes : Z := 256.
Definition MaxClaimBytes : Z := 4096.
Definition MaxEvidenceDescriptionBytes : Z := 2048.
Definition MaxEvidenceMatches : Z := 1048576.

Inductive error : Type :=
| ErrInvalidInput (field : string)
| ErrNonCanonical.

Definition invalid {A : Type} (field : string) : result error A := Err (ErrInvalidInput field).

(** ** Data *)

(** [EvidenceClass], [Route] and [Outcome] are Go string types: any string
    can occur, the constants are the known ones. *)
Definition EvidenceClassReproduction : string := "reproduction".
Definition EvidenceClassStatic : string := "static".
Definition EvidenceClassSymbolGraph : string := "symbol-graph".
Definition EvidenceClassPolicy : string := "policy".
Definition EvidenceClassModelAssertion : string := "model-assertion".
Definition RouteBlocking : string := "blocking".
Definition RouteAdvisory : string := "advisory".
Definition OutcomePassed : string := "passed".
Definition OutcomeFailed : string := "failed".

Record Location : Type := { StartLine : Z; StartColumn : Z; EndLine : Z; EndColumn : Z }.

#[global] Instance Location_eq_dec : EqDecision Location.
Proof. solve_decision. Defined.

Record CriticFinding : Type := {
  f_ID : string; f_Path : string; f_Location : Location; f_RuleID : string; f_Message : string
}.

Record EvidenceBinding : Type := {
  b_FindingID : string; b_Path : string; b_Location : Location; b_RuleID : string
}.

Record EvidenceValidation : Type := {
  v_Validator : string; v_Deterministic : bool; v_Independent : bool
}.

Record ReproductionEvidence : Type := {
  rp_Command : string; rp_Base : string; rp_Candidate : string
}.
Record StaticEvidence : Type := { st_Tool : string; st_Matched : bool; st_MatchCount : Z }.
Record SymbolGraphEvidence : Type := { sg_Relation : string; sg_Matched : bool; sg_MatchCount : Z }.
Record PolicyEvidence : Type := { pe_PolicyID : string; pe_Violated : bool }.
Record ModelAssertionEvidence : Type := { ma_Model : string; ma_Claim : string }.

Record Evidence : Type := {
  e_ID : string;
  e_Class : string;
  e_Binding : EvidenceBinding;
  e_Immutable : bool;
  e_Digest : string;
  e_ArtifactDigest : string;
  e_Validation : EvidenceValidation;
  e_Reproduction : option ReproductionEvidence;
  e_Static : option StaticEvidence;
  e_SymbolGraph : option SymbolGraphEvidence;
  e_Policy : option PolicyEvidence;
  e_ModelAssertion : option ModelAssertionEvidence
}.

Record CorroborationInput : Type := {
  ci_SchemaVersion : string;
  ci_Findings : slice CriticFinding;
  ci_Evidence : slice Evidence
}.

Record EvidenceDecision : Type := {
  ed_ID : string;
  ed_Class : string;
  ed_Digest : string;
  ed_Deterministic : bool;
  ed_Independent : bool;
  ed_Corroborates : bool;
  ed_Route : string
}.

Record FindingDecision : Type := {
  fd_Finding : CriticFinding;
  fd_Route : string;
  fd_Reason : string;
  fd_Evidence : slice EvidenceDecision
}.

Record Counts : Type := {
  TotalFindings : Z;
  BlockingFindings : Z;
  AdvisoryFindings : Z;
  DeterministicEvidence : Z;
  CorroboratingEvidence : Z;
  ModelAssertions : Z
}.

#[global] Instance Counts_eq_dec : EqDecision Counts.
Proof. solve_decision. Defined.

Record CorroborationResult : Type := {
  cr_SchemaVersion : string;
  cr_Findings : slice FindingDecision;
  cr_Counts : Counts
}.

(** ** [json.Marshal] of the wire types *)

Local Open Scope string_scope.
Local Open Scope list_scope.

Definition json_Location (l : Location) : json :=
  JObject [("startLine", JInt (StartLine l)); ("startColumn", JInt (StartColumn l));
           ("endLine", JInt (EndLine l)); ("endColumn", JInt (EndColumn l))].
Definition json_CriticFinding (f : CriticFinding) : json :=
  JObject [("id", JString (f_ID f)); ("path", JString (f_Path f));
           ("location", json_Location (f_Location f)); ("ruleID", JString (f_RuleID f));
           ("message", JString (f_Message f))].
Definition json_EvidenceBinding (b : EvidenceBinding) : json :=
  JObject [("findingID", JString (b_FindingID b)); ("path", JString (b_Path b));
           ("location", json_Location (b_Location b)); ("ruleID", JString (b_RuleID b))].
Definition json_EvidenceValidation (v : EvidenceValidation) : json :=
  JObject [("validator", JString (v_Validator v)); ("deterministic", JBool (v_Deterministic v));
           ("independent", JBool (v_Independent v))].
Definition json_Reproduction (r : ReproductionEvidence) : json :=
  JObject [("command", JString (rp_Command r)); ("base", JString (rp_Base r));
           ("candidate", JString (rp_Candidate r))].
Definition json_Static (s : StaticEvidence) : json :=
  JObject [("tool", JString (st_Tool s)); ("matched", JBool (st_Matched s));
           ("matchCount", JInt (st_MatchCount s))].
Definition json_SymbolGraph (s : SymbolGraphEvidence) : json :=
  JObject [("relation", JString (sg_Relation s)); ("matched", JBool (sg_Matched s));
           ("matchCount", JInt (sg_MatchCount s))].
Definition json_Policy (p : PolicyEvidence) : json :=
  JObject [("policyID", JString (pe_PolicyID p)); ("violated", JBool (pe_Violated p))].
Definition json_ModelAssertion (m : ModelAssertionEvidence) : json :=
  JObject [("model", JString (ma_Model m)); ("claim", JString (ma_Claim m))].

Definition json_Evidence (e : Evidence) : json :=
  JObject ([("id", JString (e_ID e)); ("class", JString (e_Class e));
            ("binding", json_EvidenceBinding (e_Binding e)); ("immutable", JBool (e_Immutable e));
            ("digest", JString (e_Digest e)); ("artifactDigest", JString (e_ArtifactDigest e));
            ("validation", json_EvidenceValidation (e_Validation e))] ++
           omit_nil "reproduction" json_Reproduction (e_Reproduction e) ++
           omit_nil "static" json_Static (e_Static e) ++
           omit_nil "symbolGraph" json_SymbolGraph (e_SymbolGraph e) ++
           omit_nil "policy" json_Policy (e_Policy e) ++
           omit_nil "modelAssertion" json_ModelAssertion (e_ModelAssertion e)).

Definition json_CorroborationInput (i : CorroborationInput) : json :=
  JObject [("schemaVersion", JString (ci_SchemaVersion i));
           ("findings", json_slice json_CriticFinding (ci_Findings i));
           ("evidence", json_slice json_Evidence (ci_Evidence i))].

Definition json_EvidenceDecision (e : EvidenceDecision) : json :=
  JObject [("id", JString (ed_ID e)); ("class", JString (ed_Class e)); ("digest", JString (ed_Digest e));
           ("deterministic", JBool (ed_Deterministic e)); ("independent", JBool (ed_Independent e));
           ("corroborates", JBool (ed_Corroborates e)); ("route", JString (ed_Route e))].
Definition json_FindingDecision (f : FindingDecision) : json :=
  JObject [("finding", json_CriticFinding (fd_Finding f)); ("route", JString (fd_Route f));
           ("reason", JString (fd_Reason f));
           ("evidence", json_slice json_EvidenceDecision (fd_Evidence f))].
Definition json_Counts (c : Counts) : json :=
  JObject [("totalFindings", JInt (TotalFindings c)); ("blockingFindings", JInt (BlockingFindings c));
           ("advisoryFindings", JInt (AdvisoryFindings c));
           ("deterministicEvidence", JInt (DeterministicEvidence c));
           ("corroboratingEvidence", JInt (CorroboratingEvidence c));
           ("modelAssertions", JInt (ModelAssertions c))].
Definition json_CorroborationResult (r : CorroborationResult) : json :=
  JObject [("schemaVersion", JString (cr_SchemaVersion r));
           ("findings", json_slice json_FindingDecision (cr_Findings r));
           ("counts", json_Counts (cr_Counts r))].
Local Close Scope string_scope.

(** ** Validators *)

(** [digestPattern] *)
Definition validDigest (value : string) : bool :=
  (len value =? len "sha256:" + 64) && HasPrefix value "sha256:" &&
  forallb is_lower_hex (drop (String.length "sha256:") (bytes value)).

Definition is_alnum (b : Z) : bool :=
  between 0x41 0x5A b || between 0x61 0x7A b || is_digit b.
Definition token_tail (b : Z) : bool :=
  is_alnum b || (b =? 0x5F) || (b =? 0x2E) || (b =? 0x3A) || (b =? 0x2F) || (b =? 0x2D).
(** [tokenPattern] is [^[A-Za-z0-9][A-Za-z0-9_.:/-]{0,127}$]. *)
Definition tokenPattern (value : string) : bool :=
  match bytes value with
  | [] => false
  | b :: rest => is_alnum b && forallb token_tail rest && (slen rest <=? 127)
  end.

Definition validateToken (value : string) (maxBytes : Z) (field : string) : result error unit :=
  if value =?= "" then invalid field
  else if maxBytes <? len value then invalid field
  else if negb (ValidString value) || negb (tokenPattern value) then invalid field
  else Ok tt.

(** [unicode.IsControl], and the tables [unicode.Cf], [Zl] and [Zp]. *)
Definition is_control (r : Z) : bool := (r <? 0x20) || between 0x7F 0x9F r.
Definition format_ranges : list (Z * Z) :=
  [(0xAD, 0xAD); (0x600, 0x605); (0x61C, 0x61C); (0x6DD, 0x6DD); (0x70F, 0x70F); (0x890, 0x891);
   (0x8E2, 0x8E2); (0x180E, 0x180E); (0x200B, 0x200F); (0x202A, 0x202E); (0x2060, 0x2064);
   (0x2066, 0x206F); (0xFEFF, 0xFEFF); (0xFFF9, 0xFFFB); (0x110BD, 0x110BD); (0x110CD, 0x110CD);
   (0x13430, 0x1343F); (0x1BCA0, 0x1BCA3); (0x1D173, 0x1D17A); (0xE0001, 0xE0001);
   (0xE0020, 0xE007F)].
Definition is_format (r : Z) : bool :=
  existsb (fun p => between p.1 p.2 r) format_ranges || (r =? 0x2028) || (r =? 0x2029).

Definition has_nul (s : string) : bool := existsb (Z.eqb 0) (bytes s).

Definition validateMessage (value : string) (maxBytes : Z) (field : string) : result error unit :=
  if value =?= "" then invalid field
  else if maxBytes <? len value then invalid field
  else if negb (ValidString value) || has_nul value then invalid field
  else if existsb (fun r =>
            (is_control r && negb (r =? 0x0A) && negb (r =? 0x0D) && negb (r =? 0x09)) || is_format r)
          (runes value) then invalid field
  else Ok tt.

Definition validatePath (value : string) : result error unit :=
  if value =?= "" then invalid "path"
  else if MaxPathBytes <? len value then invalid "path"
  else if negb (ValidString value) || has_nul value then invalid "path"
  else if existsb (fun r => is_control r || is_format r) (runes value) then invalid "path"
  else if HasPrefix value "/" || Contains value "\" then invalid "path"
  else if existsb (fun part => (part =?= "") || (part =?= ".") || (part =?= "..")) (Split value slash)
       then invalid "path"
  else Ok tt.

Definition maxCoordinate : Z := 1000000000.

Definition validateLocation (location : Location) : result error unit :=
  if (StartLine location <? 1) || (maxCoordinate <? StartLine location) ||
     (EndLine location <? 1) || (maxCoordinate <? EndLine location) then invalid "location"
  else if (StartColumn location <? 1) || (maxCoordinate <? StartColumn location) ||
          (EndColumn location <? 1) || (maxCoordinate <? EndColumn location) then invalid "location"
  else if (EndLine location <? StartLine location) ||
          ((EndLine location =? StartLine location) && (EndColumn location <? StartColumn location))
       then invalid "location"
  else Ok tt.

Definition validateFinding (finding : CriticFinding) : result error unit :=
  let? _ := validateToken (f_ID finding) MaxFindingIDBytes "finding.id" in
  let? _ := validatePath (f_Path finding) in
  let? _ := validateLocation (f_Location finding) in
  let? _ := validateToken (f_RuleID finding) MaxRuleIDBytes "finding.ruleID" in
  validateMessage (f_Message finding) MaxMessageBytes "finding.message".

Definition validateBinding (binding : EvidenceBinding) : result error unit :=
  let? _ := validateToken (b_FindingID binding) MaxFindingIDBytes "binding.findingID" in
  let? _ := validatePath (b_Path binding) in
  let? _ := validateLocation (b_Location binding) in
  validateToken (b_RuleID binding) MaxRuleIDBytes "binding.ruleID".

Definition isKnownEvidenceClass (class : string) : bool :=
  (class =?= EvidenceClassReproduction) || (class =?= EvidenceClassStatic) ||
  (class =?= EvidenceClassSymbolGraph) || (class =?= EvidenceClassPolicy) ||
  (class =?= EvidenceClassModelAssertion).

Definition present {A : Type} (o : option A) : bool := match o with Some _ => true | None => false end.

Definition validatePayloadShape (evidence : Evidence) : result error unit :=
  let one {A : Type} (o : option A) : Z := if present o then 1 else 0 in
  let count := one (e_Reproduction evidence) + one (e_Static evidence) + one (e_SymbolGraph evidence) +
               one (e_Policy evidence) + one (e_ModelAssertion evidence) in
  if negb (count =? 1) then invalid "evidence"
  else if (e_Class evidence =?= EvidenceClassReproduction) && negb (present (e_Reproduction evidence))
       then invalid "evidence.reproduction"
  else if (e_Class evidence =?= EvidenceClassStatic) && negb (present (e_Static evidence))
       then invalid "evidence.static"
  else if (e_Class evidence =?= EvidenceClassSymbolGraph) && negb (present (e_SymbolGraph evidence))
       then invalid "evidence.symbolGraph"
  else if (e_Class evidence =?= EvidenceClassPolicy) && negb (present (e_Policy evidence))
       then invalid "evidence.policy"
  else if (e_Class evidence =?= EvidenceClassModelAssertion) && negb (present (e_ModelAssertion evidence))
       then invalid "evidence.modelAssertion"
  else Ok tt.

Definition validOutcome (o : string) : bool := (o =?= OutcomePassed) || (o =?= OutcomeFailed).

Definition validateReproduction (evidence : ReproductionEvidence) : result error unit :=
  let? _ := validateMessage (rp_Command evidence) MaxCommandBytes "reproduction.command" in
  if negb (validOutcome (rp_Base evidence)) then invalid "reproduction.base"
  else if negb (validOutcome (rp_Candidate evidence)) then invalid "reproduction.candidate"
  else Ok tt.

Definition validateStatic (evidence : StaticEvidence) : result error unit :=
  let? _ := validateToken (st_Tool evidence) MaxToolBytes "static.tool" in
  if (st_MatchCount evidence <? 0) || (MaxEvidenceMatches <? st_MatchCount evidence)
  then invalid "static.matchCount"
  else if negb (Bool.eqb (st_Matched evidence) (0 <? st_MatchCount evidence)) then invalid "static"
  else Ok tt.

Definition validateSymbolGraph (evidence : SymbolGraphEvidence) : result error unit :=
  let? _ := validateMessage (sg_Relation evidence) MaxRelationBytes "symbolGraph.relation" in
  if (sg_MatchCount evidence <? 0) || (MaxEvidenceMatches <? sg_MatchCount evidence)
  then invalid "symbolGraph.matchCount"
  else if negb (Bool.eqb (sg_Matched evidence) (0 <? sg_MatchCount evidence)) then invalid "symbolGraph"
  else Ok tt.

Definition validatePolicy (evidence : PolicyEvidence) (ruleID : string) : result error unit :=
  let? _ := validateToken (pe_PolicyID evidence) MaxRuleIDBytes "policy.policyID" in
  if pe_PolicyID evidence !=? ruleID then invalid "policy.policyID" else Ok tt.

Definition validateModelAssertion (evidence : ModelAssertionEvidence) : result error unit :=
  let? _ := validateToken (ma_Model evidence) MaxValidatorBytes "modelAssertion.model" in
  validateMessage (ma_Claim evidence) MaxClaimBytes "modelAssertion.claim".

(** [evidence.Digest = value] on a copy, and [evidence.Immutable = true]. *)
Definition with_digest (e : Evidence) (digest : string) : Evidence :=
  {| e_ID := e_ID e; e_Class := e_Class e; e_Binding := e_Binding e; e_Immutable := e_Immutable e;
     e_Digest := digest; e_ArtifactDigest := e_ArtifactDigest e; e_Validation := e_Validation e;
     e_Reproduction := e_Reproduction e; e_Static := e_Static e; e_SymbolGraph := e_SymbolGraph e;
     e_Policy := e_Policy e; e_ModelAssertion := e_ModelAssertion e |}.
Definition made_immutable (e : Evidence) : Evidence :=
  {| e_ID := e_ID e; e_Class := e_Class e; e_Binding := e_Binding e; e_Immutable := true;
     e_Digest := e_Digest e; e_ArtifactDigest := e_ArtifactDigest e; e_Validation := e_Validation e;
     e_Reproduction := e_Reproduction e; e_Static := e_Static e; e_SymbolGraph := e_SymbolGraph e;
     e_Policy := e_Policy e; e_ModelAssertion := e_ModelAssertion e |}.

Definition digestEvidence (evidence : Evidence) : string :=
  "sha256:" +:+ EncodeToString (Sha256.Sum256 (Marshal (json_Evidence (with_digest evidence "")))).

(** The [switch] over the class.  A nil payload of the selected class would
    panic; [validatePayloadShape] has excluded it. *)
Definition validatePayload (evidence : Evidence) : result error unit :=
  if e_Class evidence =?= EvidenceClassReproduction then
    match e_Reproduction evidence with Some p => validateReproduction p | None => Ok tt end
  else if e_Class evidence =?= EvidenceClassStatic then
    match e_Static evidence with Some p => validateStatic p | None => Ok tt end
  else if e_Class evidence =?= EvidenceClassSymbolGraph then
    match e_SymbolGraph evidence with Some p => validateSymbolGraph p | None => Ok tt end
  else if e_Class evidence =?= EvidenceClassPolicy then
    match e_Policy evidence with
    | Some p => validatePolicy p (b_RuleID (e_Binding evidence))
    | None => Ok tt
    end
  else if e_Class evidence =?= EvidenceClassModelAssertion then
    match e_ModelAssertion evidence with Some p => validateModelAssertion p | None => Ok tt end
  else Ok tt.

Definition validateEvidence (evidence : Evidence) (requireDigest : bool) : result error unit :=
  let? _ := validateToken (e_ID evidence) MaxEvidenceIDBytes "evidence.id" in
  if negb (isKnownEvidenceClass (e_Class evidence)) then invalid "evidence.class" else
  let? _ := validateBinding (e_Binding evidence) in
  if negb (e_Immutable evidence) then invalid "evidence.immutable"
  else if negb (validDigest (e_ArtifactDigest evidence)) then invalid "evidence.artifactDigest"
  else if requireDigest && negb (validDigest (e_Digest evidence)) then invalid "evidence.digest"
  else if negb requireDigest && (e_Digest evidence !=? "") then invalid "evidence.digest"
  else
  let? _ := validateToken (v_Validator (e_Validation evidence)) MaxValidatorBytes
              "evidence.validation.validator" in
  let? _ := validatePayloadShape evidence in
  let? _ := validatePayload evidence in
  if requireDigest && (e_Digest evidence !=? digestEvidence evidence) then invalid "evidence.digest"
  else Ok tt.

Definition SealEvidence (evidence : Evidence) : result error Evidence :=
  let evidence := with_digest (made_immutable evidence) "" in
  let? _ := validateEvidence evidence false in
  Ok (with_digest evidence (digestEvidence evidence)).

Definition EvidenceDigest (evidence : Evidence) : result error string :=
  if negb (e_Immutable evidence) then invalid "evidence.immutable" else
  let evidence := with_digest evidence "" in
  let? _ := validateEvidence evidence false in
  Ok (digestEvidence evidence).

Definition sameLocation (left right : Location) : bool := left =?= right.

Definition sameBinding (finding : CriticFinding) (binding : EvidenceBinding) : bool :=
  (f_ID finding =?= b_FindingID binding) && (f_Path finding =?= b_Path binding) &&
  (f_RuleID finding =?= b_RuleID binding) && sameLocation (f_Location finding) (b_Location binding).

(** ** Input *)

(** The loop over the findings: the map [findingByID]. *)
Definition finding_step (acc : gmap string CriticFinding) (finding : CriticFinding)
  : result error (gmap string CriticFinding) :=
  let? _ := validateFinding finding in
  match acc !! f_ID finding with
  | Some _ => invalid "findings.id"
  | None => Ok (<[f_ID finding := finding]> acc)
  end.

(** The loop over the evidence: [seenEvidenceID] and [seenArtifact]. *)
Record evidence_acc : Type := { seenEvidenceID : gset string; seenArtifact : gmap string string }.

Definition evidence_step (findingByID : gmap string CriticFinding) (acc : evidence_acc)
  (evidence : Evidence) : result error evidence_acc :=
  let? _ := validateEvidence evidence true in
  if bool_decide (e_ID evidence ∈ seenEvidenceID acc) then invalid "evidence.id" else
  match findingByID !! b_FindingID (e_Binding evidence) with
  | None => invalid "evidence.binding.findingID"
  | Some finding =>
    if negb (sameBinding finding (e_Binding evidence)) then invalid "evidence.binding" else
    match seenArtifact acc !! e_ArtifactDigest evidence with
    | Some _ => invalid "evidence.artifactDigest"
    | None => Ok {| seenEvidenceID := {[e_ID evidence]} ∪ seenEvidenceID acc;
                    seenArtifact := <[e_ArtifactDigest evidence := f_ID finding]> (seenArtifact acc) |}
    end
  end.

Definition evidence_sort_key (e : Evidence) : string * string := (e_ID e, e_Class e).

Definition normalizeInput (input : CorroborationInput)
  : result error (CorroborationInput * gmap string CriticFinding) :=
  if ci_SchemaVersion input !=? SchemaVersion then invalid "schemaVersion"
  else if negb (present (ci_Findings input)) || (MaxFindings <? slen (elems (ci_Findings input)))
       then invalid "findings"
  else if negb (present (ci_Evidence input)) || (MaxEvidence <? slen (elems (ci_Evidence input)))
       then invalid "evidence"
  else
  let? findingByID := fold_result finding_step ∅ (elems (ci_Findings input)) in
  let? _ := fold_result (evidence_step findingByID) {| seenEvidenceID := ∅; seenArtifact := ∅ |}
              (elems (ci_Evidence input)) in
  let normalized :=
    {| ci_SchemaVersion := ci_SchemaVersion input;
       ci_Findings := Some (sort_on f_ID String.compare (elems (ci_Findings input)));
       ci_Evidence := Some (sort_on evidence_sort_key (compare_pair String.compare String.compare)
                              (elems (ci_Evidence input))) |} in
  if MaxInputBytes <? slen (Marshal (json_CorroborationInput normalized)) then invalid "input"
  else Ok (normalized, findingByID).

Definition CanonicalInputBytes (input : CorroborationInput) : result error (list Z) :=
  let? (normalized, _) := normalizeInput input in
  let encoded := Marshal (json_CorroborationInput normalized) in
  if MaxInputBytes <? slen encoded then invalid "input" else Ok encoded.

(** ** Routing *)

Definition evidenceCorroborates (evidence : Evidence) : bool :=
  if e_Class evidence =?= EvidenceClassReproduction then
    match e_Reproduction evidence with
    | Some p => (rp_Base p =?= OutcomeFailed) && (rp_Candidate p =?= OutcomePassed)
    | None => false
    end
  else if e_Class evidence =?= EvidenceClassStatic then
    match e_Static evidence with Some p => st_Matched p && (0 <? st_MatchCount p) | None => false end
  else if e_Class evidence =?= EvidenceClassSymbolGraph then
    match e_SymbolGraph evidence with Some p => sg_Matched p && (0 <? sg_MatchCount p) | None => false end
  else if e_Class evidence =?= EvidenceClassPolicy then
    match e_Policy evidence with Some p => pe_Violated p | None => false end
  else false.

Definition advisoryReason (evidence : list Evidence) : string :=
  if slen evidence =? 0 then "no evidence supplied"
  else if existsb (fun item => e_Class item =?= EvidenceClassModelAssertion) evidence
       then "model assertion is advisory-only"
  else "no independently validated deterministic corroboration".

Definition isModel (item : Evidence) : bool := e_Class item =?= EvidenceClassModelAssertion.
Definition validatedDeterministic (item : Evidence) : bool :=
  negb (isModel item) && v_Deterministic (e_Validation item) && v_Independent (e_Validation item).

Definition b2z (b : bool) : Z := if b then 1 else 0.

(** The body of the loop over one finding's evidence. *)
Definition decide_evidence (item : Evidence) : EvidenceDecision :=
  let corroborates := evidenceCorroborates item in
  {| ed_ID := e_ID item; ed_Class := e_Class item; ed_Digest := e_Digest item;
     ed_Deterministic := v_Deterministic (e_Validation item);
     ed_Independent := v_Independent (e_Validation item);
     ed_Corroborates := corroborates;
     ed_Route := if validatedDeterministic item && corroborates then RouteBlocking else RouteAdvisory |}.

Definition count_evidence (counts : Counts) (item : Evidence) : Counts :=
  let corroborates := evidenceCorroborates item in
  {| TotalFindings := TotalFindings counts;
     BlockingFindings := BlockingFindings counts;
     AdvisoryFindings := AdvisoryFindings counts;
     DeterministicEvidence := DeterministicEvidence counts + b2z (validatedDeterministic item);
     CorroboratingEvidence :=
       CorroboratingEvidence counts + b2z (corroborates && validatedDeterministic item);
     ModelAssertions := ModelAssertions counts + b2z (isModel item) |}.

Definition is_blocking_item (item : Evidence) : bool :=
  validatedDeterministic item && evidenceCorroborates item.

Definition count_finding (blocking : bool) (counts : Counts) : Counts :=
  {| TotalFindings := TotalFindings counts;
     BlockingFindings := BlockingFindings counts + b2z blocking;
     AdvisoryFindings := AdvisoryFindings counts + b2z (negb blocking);
     DeterministicEvidence := DeterministicEvidence counts;
     CorroboratingEvidence := CorroboratingEvidence counts;
     ModelAssertions := ModelAssertions counts |}.

(** [evidenceByFinding[finding.ID]]: the normalized evidence of one finding. *)
Definition evidence_of (evidence : list Evidence) (id : string) : list Evidence :=
  filter (fun e => b_FindingID (e_Binding e) = id) evidence.

(** One iteration of the loop over the findings: the decision, and the counts. *)
Definition decide_finding (all_evidence : list Evidence) (finding : CriticFinding) : FindingDecision :=
  let evidence := evidence_of all_evidence (f_ID finding) in
  let blocking := existsb is_blocking_item evidence in
  {| fd_Finding := finding;
     fd_Route := if blocking then RouteBlocking else RouteAdvisory;
     fd_Reason := if blocking then "independently validated deterministic corroboration"
                  else advisoryReason evidence;
     fd_Evidence := Some (map decide_evidence evidence) |}.

Definition route_finding (all_evidence : list Evidence) (acc : Counts * list FindingDecision)
  (finding : CriticFinding) : Counts * list FindingDecision :=
  let evidence := evidence_of all_evidence (f_ID finding) in
  (count_finding (existsb is_blocking_item evidence) (foldl count_evidence acc.1 evidence),
   acc.2 ++ [decide_finding all_evidence finding]).

Definition start_counts (total : Z) : Counts :=
  {| TotalFindings := total; BlockingFindings := 0; AdvisoryFindings := 0;
     DeterministicEvidence := 0; CorroboratingEvidence := 0; ModelAssertions := 0 |}.

(** ** Results *)

Definition validateRoute (route : string) (field : string) : result error unit :=
  if (route !=? RouteBlocking) && (route !=? RouteAdvisory) then invalid field else Ok tt.

Definition validateResultEvidence (evidence : EvidenceDecision) (field : string) : result error unit :=
  let? _ := validateToken (ed_ID evidence) MaxEvidenceIDBytes field in
  if negb (isKnownEvidenceClass (ed_Class evidence)) then invalid field
  else if negb (validDigest (ed_Digest evidence)) then invalid field
  else validateRoute (ed_Route evidence) field.

(** The variables of [normalizeResult]'s loops. *)
Record result_acc : Type := {
  derived : Counts;
  seenFindings : gset string;
  seenEvidenceIDs : gset string;
  seenEvidenceDigests : gset string;
  totalEvidence : Z
}.

(** [validatedDeterministic] of a result's evidence entry. *)
Definition decided_deterministic (e : EvidenceDecision) : bool :=
  (ed_Class e !=? EvidenceClassModelAssertion) && ed_Deterministic e && ed_Independent e.
Definition decided_blocking (e : EvidenceDecision) : bool :=
  (ed_Class e !=? EvidenceClassModelAssertion) && decided_deterministic e && ed_Corroborates e.

Definition result_evidence_step (acc : result_acc) (evidence : EvidenceDecision)
  : result error result_acc :=
  let? _ := validateResultEvidence evidence "result.findings.evidence" in
  if bool_decide (ed_ID evidence ∈ seenEvidenceIDs acc) then invalid "result.findings.evidence.id"
  else if bool_decide (ed_Digest evidence ∈ seenEvidenceDigests acc)
       then invalid "result.findings.evidence.digest"
  else
  let c := derived acc in
  let model := ed_Class evidence =?= EvidenceClassModelAssertion in
  let derived' :=
    {| TotalFindings := TotalFindings c; BlockingFindings := BlockingFindings c;
       AdvisoryFindings := AdvisoryFindings c;
       DeterministicEvidence := DeterministicEvidence c + b2z (decided_deterministic evidence);
       CorroboratingEvidence :=
         CorroboratingEvidence c + b2z (decided_deterministic evidence && ed_Corroborates evidence);
       ModelAssertions := ModelAssertions c + b2z model |} in
  let expectedRoute := if decided_blocking evidence then RouteBlocking else RouteAdvisory in
  if ed_Route evidence !=? expectedRoute then invalid "result.findings.evidence.route"
  else if model && ed_Corroborates evidence then invalid "result.findings.evidence.corroborates"
  else Ok {| derived := derived'; seenFindings := seenFindings acc;
             seenEvidenceIDs := {[ed_ID evidence]} ∪ seenEvidenceIDs acc;
             seenEvidenceDigests := {[ed_Digest evidence]} ∪ seenEvidenceDigests acc;
             totalEvidence := totalEvidence acc |}.

Definition result_finding_step (acc : result_acc) (decision : FindingDecision)
  : result error result_acc :=
  let id := f_ID (fd_Finding decision) in
  let evidence := elems (fd_Evidence decision) in
  let? _ := validateFinding (fd_Finding decision) in
  if bool_decide (id ∈ seenFindings acc) then invalid "result.findings.finding.id" else
  let? _ := validateRoute (fd_Route decision) "result.findings.route" in
  let? _ := validateMessage (fd_Reason decision) MaxEvidenceDescriptionBytes "result.findings.reason" in
  if negb (present (fd_Evidence decision)) || (MaxEvidence <? slen evidence)
  then invalid "result.findings.evidence" else
  let total := totalEvidence acc + slen evidence in
  if MaxEvidence <? total then invalid "result.evidence" else
  let? acc' := fold_result result_evidence_step
    {| derived := derived acc; seenFindings := {[id]} ∪ seenFindings acc;
       seenEvidenceIDs := seenEvidenceIDs acc; seenEvidenceDigests := seenEvidenceDigests acc;
       totalEvidence := total |} evidence in
  let findingBlocking := existsb decided_blocking evidence in
  if fd_Route decision !=? (if findingBlocking then RouteBlocking else RouteAdvisory)
  then invalid "result.findings.route"
  else Ok {| derived := count_finding findingBlocking (derived acc');
             seenFindings := seenFindings acc'; seenEvidenceIDs := seenEvidenceIDs acc';
             seenEvidenceDigests := seenEvidenceDigests acc'; totalEvidence := totalEvidence acc' |}.

Definition sort_evidence (d : FindingDecision) (copied : list EvidenceDecision -> slice EvidenceDecision)
  : FindingDecision :=
  {| fd_Finding := fd_Finding d; fd_Route := fd_Route d; fd_Reason := fd_Reason d;
     fd_Evidence := copied (sort_on ed_ID String.compare (elems (fd_Evidence d))) |}.

Definition normalizeResult (result : CorroborationResult) : Prelude.result error CorroborationResult :=
  if cr_SchemaVersion result !=? SchemaVersion then invalid "result.schemaVersion"
  else if negb (present (cr_Findings result)) || (MaxFindings <? slen (elems (cr_Findings result)))
       then invalid "result.findings"
  else
  let findings := elems (cr_Findings result) in
  let? acc := fold_result result_finding_step
    {| derived := start_counts (slen findings); seenFindings := ∅; seenEvidenceIDs := ∅;
       seenEvidenceDigests := ∅; totalEvidence := 0 |} findings in
  if cr_Counts result !=? derived acc then invalid "result.counts"
  else Ok {| cr_SchemaVersion := cr_SchemaVersion result;
             cr_Findings := Some (map (fun d => sort_evidence d Some)
                                    (sort_on (fun d => f_ID (fd_Finding d)) String.compare findings));
             cr_Counts := derived acc |}.

Definition CanonicalResultBytes (result : CorroborationResult) : Prelude.result error (list Z) :=
  let? copyResult := normalizeResult result in
  let encoded := Marshal (json_CorroborationResult copyResult) in
  if MaxResultBytes <? slen encoded then invalid "result" else Ok encoded.

Definition routed (normalized : CorroborationInput) : CorroborationResult :=
  let findings := elems (ci_Findings normalized) in
  let '(counts, decisions) :=
    foldl (route_finding (elems (ci_Evidence normalized))) (start_counts (slen findings), []) findings in
  {| cr_SchemaVersion := SchemaVersion; cr_Findings := Some decisions; cr_Counts := counts |}.

Definition Corroborate (input : CorroborationInput) : result error CorroborationResult :=
  let? (normalized, _) := normalizeInput input in
  let result := routed normalized in
  match CanonicalResultBytes result with
  | Err _ => invalid "result"
  | Ok _ => Ok result
  end.

(** ** Lemmas: the loops over the input *)

Definition findings_map (l : list CriticFinding) : gmap string CriticFinding :=
  list_to_map (map (fun f => (f_ID f, f)) l).

Definition findings_ok (l : list CriticFinding) : Prop :=
  Forall (fun f => validateFinding f = Ok tt) l /\ NoDup (map f_ID l).

Lemma findings_map_lookup l id f :
  NoDup (map f_ID l) -> findings_map l !! id = Some f <-> f ∈ l /\ f_ID f = id.
Proof.
  intros Hnd. unfold findings_map. rewrite <- elem_of_list_to_map.
  - rewrite list_elem_of_fmap. split.
    + intros (g & [= -> ->] & Hin). done.
    + intros [Hin <-]. by exists f.
  - by rewrite <- list_fmap_compose.
Qed.

Lemma fold_findings acc l m :
  fold_result finding_step acc l = Ok m <->
  (findings_ok l /\ (forall f, f ∈ l -> acc !! f_ID f = None)) /\ m = findings_map l ∪ acc.
Proof.
  unfold findings_ok, findings_map.
  revert acc. induction l as [|f l IH]; intros acc; cbn [fold_result map].
  - rewrite list_to_map_nil, (left_id_L ∅ (∪)), NoDup_nil, Forall_nil. split.
    + intros [= ->]. split_and!; try done. set_solver.
    + intros [_ ->]. done.
  - unfold finding_step at 1. rewrite NoDup_cons, Forall_cons.
    destruct (validateFinding f) as [[]|e] eqn:Ev; cbn [result_bind].
    2:{ split; [done|]. intros ((([? _] & _) & _) & _). done. }
    destruct (acc !! f_ID f) as [g|] eqn:Ea; cbn [result_bind].
    { split; [done|]. intros ((_ & Hf) & _). rewrite (Hf f) in Ea by apply list_elem_of_here. done. }
    rewrite IH, list_to_map_cons. split.
    + intros (((Hv & Hnd) & Hacc) & ->).
      assert (Hnotin : f_ID f ∉ map f_ID l).
      { intros (g & Hg & Hin)%list_elem_of_fmap. specialize (Hacc g Hin).
        rewrite <- Hg, lookup_insert_eq in Hacc. done. }
      split_and!; try done.
      * intros g [->|Hin]%elem_of_cons; [done|]. specialize (Hacc g Hin).
        by apply lookup_insert_None in Hacc as [? _].
      * rewrite <- insert_union_l, insert_union_r; [done|].
        apply not_elem_of_list_to_map. by rewrite <- list_fmap_compose.
    + intros (((Hv & Hnotin & Hnd) & Hacc) & ->). split_and!; try tauto.
      * intros g Hin. apply lookup_insert_None. split; [apply Hacc; set_solver|].
        intros Heq. apply Hnotin. rewrite Heq. apply list_elem_of_fmap. by exists g.
      * rewrite <- insert_union_l, insert_union_r; [done|].
        apply not_elem_of_list_to_map. by rewrite <- list_fmap_compose.
Qed.

Definition evidence_ok (findings : list CriticFinding) (e : Evidence) : Prop :=
  validateEvidence e true = Ok tt /\
  exists f, f ∈ findings /\ sameBinding f (e_Binding e) = true.

Definition evidences_ok (findings : list CriticFinding) (l : list Evidence) : Prop :=
  Forall (evidence_ok findings) l /\ NoDup (map e_ID l) /\ NoDup (map e_ArtifactDigest l).

Lemma sameBinding_id f b : sameBinding f b = true -> f_ID f = b_FindingID b.
Proof. unfold sameBinding. intros H. breflect. tauto. Qed.

Lemma fold_evidence findings acc l :
  NoDup (map f_ID findings) ->
  is_ok (fold_result (evidence_step (findings_map findings)) acc l) = true <->
  evidences_ok findings l /\
  (forall e, e ∈ l -> e_ID e ∉ seenEvidenceID acc /\ seenArtifact acc !! e_ArtifactDigest e = None).
Proof.
  intros Hnd. unfold evidences_ok. revert acc. induction l as [|e l IH]; intros acc; cbn [fold_result map].
  - rewrite !NoDup_nil, Forall_nil. cbn. set_solver.
  - unfold evidence_step at 1. rewrite !NoDup_cons, Forall_cons. unfold evidence_ok at 1.
    destruct (validateEvidence e true) as [[]|err] eqn:Ev; cbn [result_bind].
    2:{ split; [done|]. intros (([[? _] _] & _) & _). done. }
    case_bool_decide as Hseen; cbn [result_bind].
    { split; [done|]. intros (_ & Hf). destruct (Hf e (list_elem_of_here _ _)). done. }
    destruct (findings_map findings !! b_FindingID (e_Binding e)) as [f|] eqn:Ef; cbn [result_bind].
    2:{ split; [done|]. intros (([[_ (f & Hf & Hs)] _] & _) & _).
        assert (Hx : findings_map findings !! b_FindingID (e_Binding e) = Some f).
        { apply findings_map_lookup; [done|]. split; [done|by apply sameBinding_id]. }
        congruence. }
    apply findings_map_lookup in Ef as [Hfin Hfid]; [|done].
    assert (Hbind : (exists f, f ∈ findings /\ sameBinding f (e_Binding e) = true) <->
                    sameBinding f (e_Binding e) = true).
    { split; [|by exists f]. intros (g & Hg & Hs). apply sameBinding_id in Hs as Hid.
      assert (Hsame : findings_map findings !! f_ID g = Some g) by (by apply findings_map_lookup).
      assert (Hsame' : findings_map findings !! f_ID f = Some f) by (by apply findings_map_lookup).
      rewrite Hfid in Hsame'. rewrite Hid in Hsame. congruence. }
    rewrite Hbind. destruct (sameBinding f (e_Binding e)) eqn:Es; cbn [negb result_bind].
    2:{ split; [done|]. intros (([[_ ?] _] & _) & _). done. }
    destruct (seenArtifact acc !! e_ArtifactDigest e) as [prev|] eqn:Ea; cbn [result_bind].
    { split; [done|]. intros (_ & Hf). destruct (Hf e (list_elem_of_here _ _)). congruence. }
    rewrite IH. cbn [seenEvidenceID seenArtifact]. split.
    + intros ((Hall & Hn1 & Hn2) & Hacc).
      assert (Hfresh : e_ID e ∉ map e_ID l /\ e_ArtifactDigest e ∉ map e_ArtifactDigest l).
      { split; intros (g & Hg & Hin)%list_elem_of_fmap; destruct (Hacc g Hin) as [H1 H2]; [set_solver|].
        apply lookup_insert_None in H2 as [_ H2]. congruence. }
      split_and!; try tauto. intros g [->|Hin]%elem_of_cons; [done|].
      destruct (Hacc g Hin) as [H1 H2]. apply lookup_insert_None in H2 as [H2 _]. set_solver.
    + intros (((_ & Hall) & (Hf1 & Hn1) & Hf2 & Hn2) & Hacc). split_and!; try done.
      intros g Hin. destruct (Hacc g) as [H1 H2]; [set_solver|].
      assert (e_ID g ∈ map e_ID l /\ e_ArtifactDigest g ∈ map e_ArtifactDigest l) as [? ?].
      { split; apply list_elem_of_fmap; by exists g. }
      split; [set_solver|]. apply lookup_insert_None. split; [done|]. congruence.
Qed.

Lemma normalizeInput_ok input n m :
  normalizeInput input = Ok (n, m) <->
  exists findings evidence,
    ci_SchemaVersion input = SchemaVersion /\
    ci_Findings input = Some findings /\ slen findings <= MaxFindings /\ findings_ok findings /\
    ci_Evidence input = Some evidence /\ slen evidence <= MaxEvidence /\ evidences_ok findings evidence /\
    n = {| ci_SchemaVersion := SchemaVersion;
           ci_Findings := Some (sort_on f_ID String.compare findings);
           ci_Evidence := Some (sort_on evidence_sort_key (compare_pair String.compare String.compare)
                                  evidence) |} /\
    m = findings_map findings /\ slen (Marshal (json_CorroborationInput n)) <= MaxInputBytes.
Proof.
  unfold normalizeInput. destruct (ci_Findings input) as [fs|]; cbn [present elems negb orb].
  2:{ split; [by case_match|]. by intros (fs & es & _ & ? & _). }
  destruct (ci_Evidence input) as [es|]; cbn [present elems negb orb].
  2:{ split; [by repeat case_match|]. by intros (? & ? & _ & _ & _ & _ & ? & _). }
  case_bool_decide as Hs; cbn [negb].
  2:{ split; [done|]. by intros (? & ? & ? & _). }
  destruct (Z.ltb_spec MaxFindings (slen fs)).
  { split; [done|]. intros (? & ? & _ & [= <-] & ? & _). lia. }
  destruct (Z.ltb_spec MaxEvidence (slen es)).
  { split; [done|]. intros (? & ? & _ & _ & _ & _ & [= <-] & ? & _). lia. }
  destruct (fold_result finding_step ∅ fs) as [fm|err] eqn:Ef; cbn [result_bind].
  2:{ split; [done|]. intros (? & ? & _ & [= <-] & _ & Hok & _).
      assert (Hx : fold_result finding_step ∅ fs = Ok (findings_map fs ∪ ∅)).
      { apply fold_findings. split; [split; [done|]|done]. intros. apply lookup_empty. }
      congruence. }
  apply fold_findings in Ef as [[Hok _] ->]. rewrite (right_id_L ∅ (∪)).
  pose proof (fold_evidence fs {| seenEvidenceID := ∅; seenArtifact := ∅ |} es (proj2 Hok)) as He.
  cbn [seenEvidenceID seenArtifact] in He.
  destruct (fold_result (evidence_step _) _ es) as [ea|err] eqn:Ee; cbn [result_bind is_ok] in *.
  2:{ split; [done|]. intros (? & ? & _ & [= <-] & _ & _ & [= <-] & _ & Hev & _).
      destruct He as [_ He]. discriminate He. split; [done|]. set_solver. }
  destruct (proj1 He eq_refl) as [Hev _]. rewrite Hs.
  match goal with |- context [MaxInputBytes <? ?x] => destruct (Z.ltb_spec MaxInputBytes x) end.
  { split; [done|]. intros (? & ? & _ & [= <-] & _ & _ & [= <-] & _ & _ & -> & _ & ?). lia. }
  split.
  - intros [= <- <-]. exists fs, es. done.
  - intros (? & ? & _ & [= <-] & _ & _ & [= <-] & _ & _ & -> & -> & _). done.
Qed.

Lemma routed_spec n :
  elems (cr_Findings (routed n)) = map (decide_finding (elems (ci_Evidence n))) (elems (ci_Findings n)).
Proof.
  unfold routed. generalize (start_counts (slen (elems (ci_Findings n)))). intros c.
  assert (H : forall l acc, (foldl (route_finding (elems (ci_Evidence n))) acc l).2 =
    acc.2 ++ map (decide_finding (elems (ci_Evidence n))) l).
  { induction l as [|f l IH]; intros acc; cbn [foldl map]; [by rewrite app_nil_r|].
    rewrite IH. cbn. by rewrite <- app_assoc. }
  specialize (H (elems (ci_Findings n)) (c, [])). by destruct (foldl _ _ _).
Qed.

Lemma routed_eta n :
  routed n = {| cr_SchemaVersion := SchemaVersion; cr_Findings := cr_Findings (routed n);
                cr_Counts := cr_Counts (routed n) |}.
Proof. unfold routed. by destruct (foldl _ _ _) as [c d]. Qed.

(** ** Routing *)

(** What it takes to block: sealed evidence bound to exactly this finding, of
    a deterministic class, validated deterministically and independently,
    whose observation corroborates the finding. *)
Definition independently_corroborates (e : Evidence) (f : CriticFinding) : Prop :=
  sameBinding f (e_Binding e) = true /\ validateEvidence e true = Ok tt /\
  e_Class e <> EvidenceClassModelAssertion /\
  v_Deterministic (e_Validation e) = true /\ v_Independent (e_Validation e) = true /\
  evidenceCorroborates e = true.

Lemma blocking_item_iff e :
  is_blocking_item e = true <->
  e_Class e <> EvidenceClassModelAssertion /\ v_Deterministic (e_Validation e) = true /\
  v_Independent (e_Validation e) = true /\ evidenceCorroborates e = true.
Proof.
  unfold is_blocking_item, validatedDeterministic, isModel. breflect. tauto.
Qed.

Lemma bound_evidence findings es f e :
  findings_ok findings -> evidences_ok findings es -> f ∈ findings ->
  e ∈ evidence_of es (f_ID f) <-> e ∈ es /\ sameBinding f (e_Binding e) = true.
Proof.
  intros [_ Hnd] [Hall _] Hf. unfold evidence_of. rewrite list_elem_of_filter. split.
  - intros [Hid Hin]. split; [done|]. rewrite Forall_forall in Hall.
    destruct (Hall e Hin) as (_ & g & Hg & Hs). apply sameBinding_id in Hs as Hgid.
    assert (H1 : findings_map findings !! f_ID f = Some f) by (by apply findings_map_lookup).
    assert (H2 : findings_map findings !! f_ID f = Some g) by (apply findings_map_lookup; [done|]; split; congruence).
    congruence.
  - intros [Hin Hs]. split; [|done]. symmetry. by apply sameBinding_id.
Qed.

Lemma findings_ok_perm l k : l ≡ₚ k -> findings_ok l -> findings_ok k.
Proof. intros H. unfold findings_ok. by rewrite H. Qed.

Lemma evidences_ok_perm findings findings' l k :
  findings ≡ₚ findings' -> l ≡ₚ k -> evidences_ok findings l -> evidences_ok findings' k.
Proof.
  intros Hf H (Hall & Hn1 & Hn2). unfold evidences_ok. split; [|split; by rewrite <- H]. rewrite <- H.
  eapply Forall_impl; [exact Hall|]. intros e (Hv & f & Hin & Hs). split; [done|].
  exists f. split; [by rewrite <- Hf|done].
Qed.

(** C15. A finding blocks if and only if some sealed evidence of the input is
    bound to exactly that finding, is not a model assertion, was validated as
    deterministic and independent, and corroborates it.  Every finding of the
    input is decided exactly once, in order of its ID. *)
Theorem corroborate_routing input result (H : Corroborate input = Ok result) :
  map fd_Finding (elems (cr_Findings result)) = sort_on f_ID String.compare (elems (ci_Findings input)) /\
  Forall (fun d =>
    (fd_Route d = RouteBlocking <->
     exists e, e ∈ elems (ci_Evidence input) /\ independently_corroborates e (fd_Finding d)) /\
    (fd_Route d = RouteBlocking \/ fd_Route d = RouteAdvisory)) (elems (cr_Findings result)).
Proof.
  unfold Corroborate in H. destruct (normalizeInput input) as [[n m]|] eqn:En; [|done].
  cbn [result_bind] in H. destruct (CanonicalResultBytes _); [|done]. injection H as <-.
  apply normalizeInput_ok in En as (fs & es & _ & Hf & _ & Hfok & He & _ & Heok & -> & _).
  rewrite routed_spec, Hf, He. cbn [elems ci_Findings ci_Evidence]. split.
  { rewrite map_map. cbn. apply map_id. }
  set (es' := sort_on evidence_sort_key _ es).
  assert (Hp : es' ≡ₚ es) by apply sort_on_perm.
  apply Forall_map, Forall_forall. intros f Hin. rewrite sort_on_perm in Hin. cbn.
  destruct (existsb is_blocking_item (evidence_of es' (f_ID f))) eqn:Eb.
  - split; [|by left]. split; [|done]. intros _. apply existsb_true in Eb as (e & Hein & Hbl).
    eapply bound_evidence in Hein as [Hein Hs]; [|done|by eapply evidences_ok_perm|done].
    rewrite Hp in Hein. exists e. split; [done|]. apply blocking_item_iff in Hbl. split; [done|].
    split; [|tauto]. by apply (proj1 (Forall_forall _ _) (proj1 Heok)).
  - split; [|by right]. split; [done|]. intros (e & Hein & Hs & Hv & Hrest).
    rewrite existsb_false, Forall_forall in Eb.
    assert (Hb : is_blocking_item e = true) by (apply blocking_item_iff; tauto).
    rewrite Eb in Hb; [done|].
    eapply bound_evidence; [done|by eapply evidences_ok_perm|done|]. by rewrite Hp.
Qed.

(** ** The published result is well formed *)

(** [validateEvidence] with its digest: the facts the result repeats. *)
Lemma validateEvidence_facts e :
  validateEvidence e true = Ok tt ->
  validateToken (e_ID e) MaxEvidenceIDBytes "evidence.id" = Ok tt /\
  isKnownEvidenceClass (e_Class e) = true /\ validDigest (e_Digest e) = true /\
  e_Digest e = digestEvidence e.
Proof.
  unfold validateEvidence. intros H.
  destruct (validateToken (e_ID e) _ _) as [[]|]; [cbn [result_bind] in H|discriminate H].
  destruct (isKnownEvidenceClass _); [cbn [negb] in H|discriminate H].
  inv_bind H. destruct (e_Immutable e); [cbn [negb] in H|discriminate H].
  destruct (validDigest (e_ArtifactDigest e)); [cbn [negb] in H|discriminate H].
  destruct (validDigest (e_Digest e)); [cbn [negb andb] in H|discriminate H].
  inv_bind H. inv_bind H. inv_bind H. case_bool_decide; [|discriminate H]. done.
Qed.

Lemma validateToken_field v n f f' : validateToken v n f = Ok tt -> validateToken v n f' = Ok tt.
Proof. unfold validateToken. by repeat case_match. Qed.

Lemma model_never_corroborates e :
  e_Class e = EvidenceClassModelAssertion -> evidenceCorroborates e = false.
Proof. intros H. unfold evidenceCorroborates. by rewrite H. Qed.

Lemma decided_blocking_item e : decided_blocking (decide_evidence e) = is_blocking_item e.
Proof.
  unfold decided_blocking, decided_deterministic, is_blocking_item, validatedDeterministic, isModel.
  cbn. by destruct (bool_decide _).
Qed.

Definition add_evidence (acc : result_acc) (es : list Evidence) : result_acc :=
  {| derived := foldl count_evidence (derived acc) es; seenFindings := seenFindings acc;
     seenEvidenceIDs := list_to_set (map e_ID es) ∪ seenEvidenceIDs acc;
     seenEvidenceDigests := list_to_set (map e_Digest es) ∪ seenEvidenceDigests acc;
     totalEvidence := totalEvidence acc |}.

Lemma result_evidence_ok acc e :
  validateEvidence e true = Ok tt -> e_ID e ∉ seenEvidenceIDs acc ->
  e_Digest e ∉ seenEvidenceDigests acc ->
  result_evidence_step acc (decide_evidence e) = Ok (add_evidence acc [e]).
Proof.
  intros Hv Hid Hd. apply validateEvidence_facts in Hv as (Ht & Hk & Hdig & _).
  unfold result_evidence_step. cbn [decide_evidence ed_ID ed_Digest ed_Route ed_Class ed_Corroborates].
  rewrite !bool_decide_eq_false_2 by done. unfold validateResultEvidence. cbn.
  rewrite (validateToken_field _ _ _ _ Ht), Hk, Hdig. cbn [result_bind negb].
  assert (Hr : validateRoute (ed_Route (decide_evidence e)) "result.findings.evidence" = Ok tt).
  { cbn. by destruct (_ && _). }
  cbn in Hr. rewrite Hr. cbn [result_bind].
  change (decided_blocking _) with (decided_blocking (decide_evidence e)).
  change (decided_deterministic _) with (decided_deterministic (decide_evidence e)).
  rewrite decided_blocking_item. fold (is_blocking_item e).
  rewrite bool_decide_eq_true_2 by done. cbn [negb].
  replace (_ && evidenceCorroborates e) with false.
  2:{ case_bool_decide; [|done]. by rewrite model_never_corroborates. }
  unfold add_evidence. cbn. unfold decided_deterministic, validatedDeterministic, isModel, count_evidence. cbn.
  do 2 f_equal; [|set_solver..]. unfold validatedDeterministic, isModel. f_equal; f_equal; f_equal. apply andb_comm.
Qed.

Lemma fold_result_evidence acc es :
  Forall (fun e => validateEvidence e true = Ok tt) es ->
  NoDup (map e_ID es) -> NoDup (map e_Digest es) ->
  (forall e, e ∈ es -> e_ID e ∉ seenEvidenceIDs acc /\ e_Digest e ∉ seenEvidenceDigests acc) ->
  fold_result result_evidence_step acc (map decide_evidence es) = Ok (add_evidence acc es).
Proof.
  revert acc. induction es as [|e es IH]; intros acc Hv Hi Hd Hacc; cbn [map fold_result].
  - unfold add_evidence. cbn. rewrite !(left_id_L ∅ (∪)). by destruct acc.
  - apply Forall_cons in Hv as [Hv Hvs]. cbn in Hi, Hd.
    apply NoDup_cons in Hi as [Hi1 Hi], Hd as [Hd1 Hd].
    destruct (Hacc e (list_elem_of_here _ _)) as [H1 H2].
    rewrite result_evidence_ok by done. cbn [result_bind].
    rewrite IH; [|done..|].
    + unfold add_evidence. cbn. f_equal. f_equal; set_solver.
    + intros e' Hin. destruct (Hacc e') as [H3 H4]; [set_solver|].
      assert (e_ID e' ∈ map e_ID es /\ e_Digest e' ∈ map e_Digest es) as [? ?]
        by (split; apply list_elem_of_fmap; eauto).
      cbn. split; intros Hx; apply elem_of_union in Hx; set_solver.
Qed.

Lemma validateFinding_reason blocking evidence :
  validateMessage (if blocking : bool then "independently validated deterministic corroboration"%string
                   else advisoryReason evidence) MaxEvidenceDescriptionBytes "result.findings.reason" = Ok tt.
Proof.
  destruct blocking; [vm_compute; reflexivity|]. unfold advisoryReason.
  destruct (_ =? 0); [vm_compute; reflexivity|]. destruct (existsb _ _); vm_compute; reflexivity.
Qed.

Definition add_finding (es : list Evidence) (acc : result_acc) (f : CriticFinding) : result_acc :=
  let evidence := evidence_of es (f_ID f) in
  let acc' := add_evidence acc evidence in
  {| derived := count_finding (existsb is_blocking_item evidence) (derived acc');
     seenFindings := {[f_ID f]} ∪ seenFindings acc;
     seenEvidenceIDs := seenEvidenceIDs acc'; seenEvidenceDigests := seenEvidenceDigests acc';
     totalEvidence := totalEvidence acc + slen evidence |}.

Lemma existsb_map_decide es : existsb decided_blocking (map decide_evidence es) = existsb is_blocking_item es.
Proof. induction es as [|e es IH]; cbn [map existsb]; [done|]. by rewrite decided_blocking_item, IH. Qed.

Lemma result_finding_ok es acc f :
  validateFinding f = Ok tt -> f_ID f ∉ seenFindings acc ->
  Forall (fun e => validateEvidence e true = Ok tt) (evidence_of es (f_ID f)) ->
  NoDup (map e_ID (evidence_of es (f_ID f))) -> NoDup (map e_Digest (evidence_of es (f_ID f))) ->
  (forall e, e ∈ evidence_of es (f_ID f) ->
     e_ID e ∉ seenEvidenceIDs acc /\ e_Digest e ∉ seenEvidenceDigests acc) ->
  0 <= totalEvidence acc -> totalEvidence acc + slen (evidence_of es (f_ID f)) <= MaxEvidence ->
  result_finding_step acc (decide_finding es f) = Ok (add_finding es acc f).
Proof.
  intros Hf Hs Hv Hi Hd Hacc Hpos Hmax. unfold result_finding_step.
  cbn [decide_finding fd_Finding fd_Evidence fd_Route fd_Reason elems present negb orb].
  rewrite Hf. cbn [result_bind]. rewrite bool_decide_eq_false_2 by done.
  replace (validateRoute _ _) with (@Ok error unit tt) by (by destruct (existsb _ _)).
  cbn [result_bind]. rewrite validateFinding_reason. cbn [result_bind].
  assert (Hlen : slen (map decide_evidence (evidence_of es (f_ID f))) = slen (evidence_of es (f_ID f)))
    by (unfold slen; by rewrite length_map).
  rewrite Hlen, !(proj2 (Z.ltb_ge _ _)) by lia.
  rewrite fold_result_evidence by done. cbn [result_bind]. rewrite existsb_map_decide.
  rewrite bool_decide_eq_true_2 by done. done.
Qed.

Lemma evidence_of_other es id id' :
  id <> id' -> evidence_of (filter (fun e => b_FindingID (e_Binding e) <> id) es) id' = evidence_of es id'.
Proof.
  intros Hne. unfold evidence_of. rewrite list_filter_filter. apply list_filter_iff.
  intros e. split; [tauto|]. intros <-. done.
Qed.

(** Every evidence item is bound to one finding, so the findings' evidence
    does not exceed the total. *)
Lemma evidence_total ids es :
  NoDup ids -> (length (concat (map (evidence_of es) ids)) <= length es)%nat.
Proof.
  revert es. induction ids as [|id ids IH]; intros es Hnd; cbn [map concat]; [cbn; lia|].
  apply NoDup_cons in Hnd as [Hid Hnd]. rewrite length_app.
  set (others := filter (fun e => b_FindingID (e_Binding e) <> id) es).
  assert (Hsplit : (length (evidence_of es id) + length others = length es)%nat).
  { rewrite <- length_app. unfold evidence_of, others.
    by rewrite (filter_app_complement (fun e => b_FindingID (e_Binding e) = id) es). }
  assert (Hsame : map (evidence_of es) ids = map (evidence_of others) ids).
  { apply map_ext_in. intros id' Hin. symmetry. apply evidence_of_other.
    intros ->. apply Hid. by apply list_elem_of_In. }
  rewrite Hsame. specialize (IH others Hnd). lia.
Qed.

Section Published.
Context (es : list Evidence).
Hypothesis Hvalid : Forall (fun e => validateEvidence e true = Ok tt) es.
Hypothesis Hids : NoDup (map e_ID es).
Hypothesis Hdigests : NoDup (map e_Digest es).

Lemma evidence_of_facts id :
  Forall (fun e => validateEvidence e true = Ok tt) (evidence_of es id) /\
  NoDup (map e_ID (evidence_of es id)) /\ NoDup (map e_Digest (evidence_of es id)).
Proof.
  assert (Hsub : evidence_of es id `sublist_of` es).
  { unfold evidence_of. clear. induction es as [|e l IH]; [constructor|].
    rewrite filter_cons. case_decide; by constructor. }
  split_and!.
  - by eapply Forall_sublist.
  - eapply sublist_NoDup; [exact Hids|]. by apply sublist_map.
  - eapply sublist_NoDup; [exact Hdigests|]. by apply sublist_map.
Qed.

Lemma key_determines {K : Type} (key : Evidence -> K) e e' :
  NoDup (map key es) -> e ∈ es -> e' ∈ es -> key e = key e' -> e = e'.
Proof.
  intros Hnd [i Hi]%list_elem_of_lookup [j Hj]%list_elem_of_lookup Hk.
  assert (i = j) as ->; [|congruence].
  eapply (NoDup_lookup (map key es)); [done| |]; rewrite list_lookup_fmap_Some; eauto.
Qed.

(** The loop of [normalizeResult] over freshly routed findings. *)
Lemma fold_result_findings acc fs :
  Forall (fun f => validateFinding f = Ok tt) fs -> NoDup (map f_ID fs) ->
  (forall f, f ∈ fs -> f_ID f ∉ seenFindings acc) ->
  (forall f e, f ∈ fs -> e ∈ evidence_of es (f_ID f) ->
     e_ID e ∉ seenEvidenceIDs acc /\ e_Digest e ∉ seenEvidenceDigests acc) ->
  0 <= totalEvidence acc ->
  totalEvidence acc + Z.of_nat (length (concat (map (evidence_of es) (map f_ID fs)))) <= MaxEvidence ->
  fold_result result_finding_step acc (map (decide_finding es) fs) = Ok (foldl (add_finding es) acc fs).
Proof.
  revert acc. induction fs as [|f fs IH]; intros acc Hf Hnd Hseen Hev Hpos Hmax; [done|].
  cbn [map fold_result foldl concat] in *. rewrite length_app in Hmax.
  apply Forall_cons in Hf as [Hf Hfs]. apply NoDup_cons in Hnd as [Hid Hnd].
  destruct (evidence_of_facts (f_ID f)) as (H1 & H2 & H3).
  rewrite result_finding_ok; try done; [|apply Hseen; set_solver|intros e; apply Hev; set_solver|unfold slen; lia].
  cbn [result_bind]. apply IH; try done; cbn [add_finding seenFindings seenEvidenceIDs seenEvidenceDigests
    totalEvidence add_evidence]; unfold slen in *; try lia.
  - intros g Hg. assert (f_ID g ∈ map f_ID fs) by (apply list_elem_of_fmap; eauto).
    specialize (Hseen g). set_solver.
  - intros g e Hg He. destruct (Hev g e) as [Hi Hd]; [set_solver|done|].
    assert (Hgid : f_ID g ∈ map f_ID fs) by (apply list_elem_of_fmap; eauto).
    assert (Hother : forall e', e' ∈ evidence_of es (f_ID f) -> e' <> e).
    { intros e' He' ->. unfold evidence_of in He, He'.
      apply list_elem_of_filter in He as [He _], He' as [He' _]. congruence. }
    assert (Hin : forall id x, x ∈ evidence_of es id -> x ∈ es)
      by (intros id x Hx; by apply list_elem_of_filter in Hx as [_ ?]).
    split; intros [Hx|?]%elem_of_union; try done;
      apply elem_of_list_to_set, list_elem_of_fmap in Hx as (e' & Heq & He'); apply (Hother e' He');
      [apply (key_determines e_ID)|apply (key_determines e_Digest)]; eauto.
Qed.

Lemma derived_counts fs acc c decisions :
  derived acc = c ->
  derived (foldl (add_finding es) acc fs) = (foldl (route_finding es) (c, decisions) fs).1.
Proof.
  revert acc c decisions. induction fs as [|f fs IH]; intros acc c decisions Hc; cbn [foldl]; [done|].
  unfold route_finding at 2. cbn [fst snd]. apply IH. cbn. by rewrite Hc.
Qed.
End Published.

Lemma decided_sorted es id :
  NoDup (map e_ID (evidence_of (sort_on evidence_sort_key (compare_pair String.compare String.compare) es) id)) ->
  let d := map decide_evidence
    (evidence_of (sort_on evidence_sort_key (compare_pair String.compare String.compare) es) id) in
  sort_on ed_ID String.compare d = d.
Proof.
  intros Hnd d. assert (Hids : map ed_ID d = map e_ID (evidence_of
    (sort_on evidence_sort_key (compare_pair String.compare String.compare) es) id))
    by (unfold d; by rewrite map_map).
  apply sort_on_id; [apply _|by rewrite Hids|]. rewrite Hids. apply StronglySorted_Sorted.
  eapply StronglySorted_fmap; [|apply StronglySorted_filter, sort_on_strong; apply _].
  intros x y Hxy. apply on_le_key, compare_pair_le_fst in Hxy. exact Hxy.
Qed.

(** A routed result is accepted by [normalizeResult], unchanged. *)
Lemma routed_canonical input n m :
  normalizeInput input = Ok (n, m) -> NoDup (map e_Digest (elems (ci_Evidence input))) ->
  normalizeResult (routed n) = Ok (routed n).
Proof.
  intros Hn Hd. apply normalizeInput_ok in Hn as (fs & es & _ & Hf & Hfl & Hfok & He & Hel & Heok & -> & _).
  rewrite He in Hd. cbn [elems] in Hd. set (fs' := sort_on f_ID _ fs).
  set (es' := sort_on evidence_sort_key _ es).
  assert (Hfp : fs' ≡ₚ fs) by apply sort_on_perm. assert (Hep : es' ≡ₚ es) by apply sort_on_perm.
  apply (findings_ok_perm _ fs') in Hfok; [|done]. apply (evidences_ok_perm _ fs' _ es') in Heok; [|done..].
  destruct Heok as (Hev & Hids & _). rewrite <- Hep in Hd.
  assert (Hvalid : Forall (fun e => validateEvidence e true = Ok tt) es')
    by (eapply Forall_impl; [exact Hev|]; by intros e [? _]).
  pose proof (routed_spec {| ci_SchemaVersion := SchemaVersion; ci_Findings := Some fs';
    ci_Evidence := Some es' |}) as Hr. cbn [elems ci_Findings ci_Evidence] in Hr.
  unfold normalizeResult. set (r := routed _) in *.
  assert (Hsome : cr_Findings r = Some (map (decide_finding es') fs'))
    by (rewrite <- Hr; unfold r, routed; by destruct (foldl _ _ _)).
  replace (cr_SchemaVersion r) with SchemaVersion by (unfold r, routed; by destruct (foldl _ _ _)).
  rewrite bool_decide_eq_true_2 by done. cbn [negb]. rewrite Hsome. cbn [present elems negb orb].
  assert (Hl : slen (map (decide_finding es') fs') = slen fs) by (unfold slen; by rewrite length_map, Hfp).
  rewrite Hl, (proj2 (Z.ltb_ge _ _) Hfl).
  rewrite (fold_result_findings es'); try done; try apply Hfok; try set_solver.
  2:{ cbn [totalEvidence]. pose proof (evidence_total (map f_ID fs') es' (proj2 Hfok)) as Ht.
      assert (Hlen : length es' = length es) by (by rewrite Hep). unfold slen in Hel. lia. }
  cbn [result_bind].
  rewrite (derived_counts es' fs' _ (start_counts (slen fs)) []) by done.
  assert (Hc : cr_Counts r = (foldl (route_finding es') (start_counts (slen fs), []) fs').1).
  { unfold r, routed. cbn [elems ci_Findings ci_Evidence].
    replace (slen fs') with (slen fs) by (unfold slen; by rewrite Hfp). by destruct (foldl _ _ _). }
  rewrite <- Hc, (bool_decide_eq_true_2 (cr_Counts r = cr_Counts r) eq_refl). cbn [negb]. f_equal.
  transitivity {| cr_SchemaVersion := SchemaVersion; cr_Findings := cr_Findings r; cr_Counts := cr_Counts r |}.
  2:{ symmetry. apply routed_eta. }
  rewrite Hsome. f_equal. f_equal.
  rewrite (sort_on_id _ String.compare (map (decide_finding es') fs')).
  - rewrite map_map. apply map_ext. intros f. unfold sort_evidence, decide_finding.
    cbn [fd_Finding fd_Route fd_Reason fd_Evidence elems]. do 2 f_equal.
    apply decided_sorted. by apply evidence_of_facts.
  - rewrite map_map. apply Hfok.
  - rewrite map_map. apply sort_on_keys, _.
Qed.

(** Whenever the input is valid, its sealed digests are distinct and the
    result fits the size bound, [Corroborate] succeeds; what it returns is its
    own canonical form: counts, routes and order recompute to the same
    value. *)
Theorem corroborate_succeeds input n m (Hn : normalizeInput input = Ok (n, m))
  (Hd : NoDup (map e_Digest (elems (ci_Evidence input))))
  (Hsize : slen (Marshal (json_CorroborationResult (routed n))) <= MaxResultBytes) :
  Corroborate input = Ok (routed n) /\ normalizeResult (routed n) = Ok (routed n).
Proof.
  pose proof (routed_canonical _ _ _ Hn Hd) as Hr. split; [|done].
  unfold Corroborate. rewrite Hn. cbn [result_bind]. unfold CanonicalResultBytes. rewrite Hr. cbn [result_bind].
  by rewrite (proj2 (Z.ltb_ge _ _) Hsize).
Qed.

(** The routing of a critic run does not depend on the order in which
    findings and evidence were supplied. *)
Theorem corroborate_order_independent input input' result
  (Hs : ci_SchemaVersion input' = ci_SchemaVersion input)
  (Hf : elems (ci_Findings input') ≡ₚ elems (ci_Findings input) /\
        present (ci_Findings input') = present (ci_Findings input))
  (He : elems (ci_Evidence input') ≡ₚ elems (ci_Evidence input) /\
        present (ci_Evidence input') = present (ci_Evidence input))
  (H : Corroborate input = Ok result) :
  Corroborate input' = Ok result.
Proof.
  unfold Corroborate in *. destruct (normalizeInput input) as [[n m]|] eqn:En; [|done].
  assert (Hn : exists m', normalizeInput input' = Ok (n, m')).
  { apply normalizeInput_ok in En as (fs & es & Hv & Hfs & Hfl & Hfok & Hes & Hel & Heok & -> & -> & Hsz).
    rewrite Hfs in Hf. rewrite Hes in He. destruct (ci_Findings input') as [fs'|] eqn:Hfs'; [|by destruct Hf].
    destruct (ci_Evidence input') as [es'|] eqn:Hes'; [|by destruct He]. cbn [elems] in Hf, He.
    destruct Hf as [Hf _]. destruct He as [He _].
    exists (findings_map fs'). apply normalizeInput_ok. exists fs', es'.
    assert (Hl1 : slen fs' = slen fs) by (unfold slen; by rewrite Hf).
    assert (Hl2 : slen es' = slen es) by (unfold slen; by rewrite He).
    rewrite Hs, Hfs', Hes', Hl1, Hl2. split_and!; try done.
    - eapply findings_ok_perm; [|exact Hfok]. by symmetry.
    - eapply evidences_ok_perm; [..|exact Heok]; by symmetry.
    - rewrite (sort_on_unique f_ID String.compare fs fs') by (apply Hfok || by symmetry).
      rewrite (sort_on_unique evidence_sort_key _ es es'); [done| |by symmetry].
      destruct Heok as (_ & Hid & _). eapply (NoDup_fmap_1 fst).
      by rewrite <- list_fmap_compose. }
  destruct Hn as [m' Hn']. rewrite Hn'. exact H.
Qed.

(** ** A concrete critic run *)

Definition sample_location : Location :=
  {| StartLine := 1; StartColumn := 1; EndLine := 1; EndColumn := 2 |}.

Definition sample_finding (id : string) : CriticFinding :=
  {| f_ID := id; f_Path := "pkg/a.go"; f_Location := sample_location; f_RuleID := "quality";
     f_Message := "static issue" |}.

Definition sample_raw_evidence : Evidence :=
  {| e_ID := "static-evidence"; e_Class := EvidenceClassStatic;
     e_Binding := {| b_FindingID := "bug"; b_Path := "pkg/a.go"; b_Location := sample_location;
                     b_RuleID := "quality" |};
     e_Immutable := false; e_Digest := "";
     e_ArtifactDigest := "sha256:" +:+ of_bytes (replicate 64 0x61);
     e_Validation := {| v_Validator := "ast-grep"; v_Deterministic := true; v_Independent := true |};
     e_Reproduction := None;
     e_Static := Some {| st_Tool := "ast-grep"; st_Matched := true; st_MatchCount := 1 |};
     e_SymbolGraph := None; e_Policy := None; e_ModelAssertion := None |}.

Definition sample_evidence : Evidence :=
  Eval vm_compute in match SealEvidence sample_raw_evidence with Ok e => e | Err _ => sample_raw_evidence end.

Definition sample_run (findings : list CriticFinding) : CorroborationInput :=
  {| ci_SchemaVersion := SchemaVersion; ci_Findings := Some findings; ci_Evidence := Some [sample_evidence] |}.

Definition sample_findings : list CriticFinding := [sample_finding "bug"; sample_finding "note"].

Lemma corroborate_routing_witness :
  exists result, Corroborate (sample_run sample_findings) = Ok result /\
    map fd_Finding (elems (cr_Findings result)) = sort_on f_ID String.compare sample_findings /\
    map fd_Route (elems (cr_Findings result)) = [RouteBlocking; RouteAdvisory].
Proof.
  destruct (Corroborate (sample_run sample_findings)) as [r|] eqn:E; [|vm_compute in E; discriminate E].
  exists r. split; [reflexivity|]. split.
  - exact (proj1 (corroborate_routing _ _ E)).
  - vm_compute in E. injection E as <-. reflexivity.
Defined.

Lemma corroborate_succeeds_witness :
  exists n m, normalizeInput (sample_run sample_findings) = Ok (n, m) /\
    Corroborate (sample_run sample_findings) = Ok (routed n).
Proof.
  assert (Hsize : match normalizeInput (sample_run sample_findings) with
                  | Ok (n, _) => slen (Marshal (json_CorroborationResult (routed n))) <=? MaxResultBytes
                  | Err _ => false
                  end = true) by (vm_compute; reflexivity).
  destruct (normalizeInput (sample_run sample_findings)) as [[n m]|] eqn:E; [|discriminate Hsize].
  exists n, m. split; [reflexivity|]. apply (corroborate_succeeds _ n m E).
  - apply NoDup_singleton.
  - by apply Z.leb_le.
Defined.

Lemma corroborate_order_independent_witness :
  exists result, Corroborate (sample_run sample_findings) = Ok result /\
    Corroborate (sample_run (rev sample_findings)) = Ok result.
Proof.
  destruct (Corroborate (sample_run sample_findings)) as [r|] eqn:E; [|vm_compute in E; discriminate E].
  exists r. split; [reflexivity|].
  apply (corroborate_order_independent (sample_run sample_findings) (sample_run (rev sample_findings)) r);
    [reflexivity|split; [apply perm_swap|reflexivity]|split; reflexivity|exact E].
Defined.
