(* ===== verification/CorroborationResult.v ===== *)
(** * Canonical corroboration results

    [normalizeResult] of src/v3/internal/findingcorroboration walks the
    findings in the order supplied, with running counts and sets of seen
    identifiers.  This file characterises the walk independently of the order
    and shows that the canonical form is a fixed point of it. *)

From S2P Require Import Prelude Order GoStrings Digest GoJson Corroboration.
Local Open Scope go_scope.
Local Open Scope Z_scope.

Definition evidence_entry_ok (e : EvidenceDecision) : Prop :=
  validateResultEvidence e "result.findings.evidence" = Ok tt /\
  ed_Route e = (if decided_blocking e then RouteBlocking else RouteAdvisory) /\
  (ed_Class e =?= EvidenceClassModelAssertion) && ed_Corroborates e = false.

(** The counts after a list of evidence entries. *)
Definition count_entries (c : Counts) (l : list EvidenceDecision) : Counts :=
  {| TotalFindings := TotalFindings c; BlockingFindings := BlockingFindings c;
     AdvisoryFindings := AdvisoryFindings c;
     DeterministicEvidence := DeterministicEvidence c + sumZ (fun e => b2z (decided_deterministic e)) l;
     CorroboratingEvidence :=
       CorroboratingEvidence c + sumZ (fun e => b2z (decided_deterministic e && ed_Corroborates e)) l;
     ModelAssertions :=
       ModelAssertions c + sumZ (fun e => b2z (ed_Class e =?= EvidenceClassModelAssertion)) l |}.

Definition after_entries (acc : result_acc) (l : list EvidenceDecision) : result_acc :=
  {| derived := count_entries (derived acc) l; seenFindings := seenFindings acc;
     seenEvidenceIDs := list_to_set (map ed_ID l) ∪ seenEvidenceIDs acc;
     seenEvidenceDigests := list_to_set (map ed_Digest l) ∪ seenEvidenceDigests acc;
     totalEvidence := totalEvidence acc |}.

Lemma result_evidence_step_spec acc e acc' :
  result_evidence_step acc e = Ok acc' <->
  evidence_entry_ok e /\ ed_ID e ∉ seenEvidenceIDs acc /\ ed_Digest e ∉ seenEvidenceDigests acc /\
  acc' = after_entries acc [e].
Proof.
  unfold result_evidence_step, evidence_entry_ok.
  destruct (validateResultEvidence _ _) as [[]|]; cbn [result_bind].
  2:{ split; [done|]. by intros [[? _] _]. }
  case_bool_decide as Hi. { split; [done|]. by intros (_ & ? & _). }
  case_bool_decide as Hd. { split; [done|]. by intros (_ & _ & ? & _). }
  case_bool_decide as Hr; cbn [negb]. 2:{ split; [done|]. by intros ((_ & ? & _) & _). }
  destruct (_ && ed_Corroborates e) eqn:Em. { split; [done|]. by intros ((_ & _ & ?) & _). }
  assert (Ha : after_entries acc [e] =
    {| derived := count_entries (derived acc) [e]; seenFindings := seenFindings acc;
       seenEvidenceIDs := {[ed_ID e]} ∪ seenEvidenceIDs acc;
       seenEvidenceDigests := {[ed_Digest e]} ∪ seenEvidenceDigests acc;
       totalEvidence := totalEvidence acc |}).
  { unfold after_entries. cbn. f_equal; set_solver. }
  rewrite Ha. unfold count_entries. cbn. rewrite !Z.add_0_r. split; [intros [= <-]; done|].
  by intros (_ & _ & _ & ->).
Qed.

Lemma after_entries_app acc l k : after_entries (after_entries acc l) k = after_entries acc (l ++ k).
Proof.
  unfold after_entries, count_entries. cbn. rewrite !sumZ_app, !map_app, !list_to_set_app_L, !Z.add_assoc.
  f_equal; set_solver.
Qed.

Lemma fold_entries acc l acc' :
  fold_result result_evidence_step acc l = Ok acc' <->
  Forall evidence_entry_ok l /\ NoDup (map ed_ID l) /\ NoDup (map ed_Digest l) /\
  (forall e, e ∈ l -> ed_ID e ∉ seenEvidenceIDs acc /\ ed_Digest e ∉ seenEvidenceDigests acc) /\
  acc' = after_entries acc l.
Proof.
  revert acc. induction l as [|e l IH]; intros acc; cbn [fold_result map].
  - rewrite !NoDup_nil, Forall_nil.
    assert (Ha : after_entries acc [] = acc).
    { unfold after_entries, count_entries. cbn. rewrite !Z.add_0_r, !(left_id_L ∅ (∪)).
      by destruct acc as [[] ? ? ? ?]. }
    rewrite Ha. split; [intros [= <-]|by intros (_ & _ & _ & _ & ->)]. split_and!; try done; set_solver.
  - rewrite !NoDup_cons, Forall_cons. split.
    + intros H. apply result_bind_ok in H as (acc1 & H1 & H2).
      apply result_evidence_step_spec in H1 as (Hok & Hi & Hd & ->).
      apply IH in H2 as (Hall & Hn1 & Hn2 & Hacc & ->).
      assert (Hfresh : ed_ID e ∉ map ed_ID l /\ ed_Digest e ∉ map ed_Digest l).
      { split; intros (e' & He' & Hin)%list_elem_of_fmap; destruct (Hacc e' Hin) as [? ?]; cbn in *; set_solver. }
      split_and!; try tauto; [|by rewrite after_entries_app].
      intros e' [->|Hin]%elem_of_cons; [done|]. destruct (Hacc e' Hin). cbn in *. set_solver.
    + intros ((Hok & Hall) & (Hi & Hn1) & (Hd & Hn2) & Hacc & ->).
      destruct (Hacc e (list_elem_of_here _ _)) as [He1 He2].
      apply result_bind_ok. exists (after_entries acc [e]).
      split; [by apply result_evidence_step_spec|]. apply IH. split_and!; try done.
      * intros e' Hin. destruct (Hacc e') as [? ?]; [set_solver|].
        assert (ed_ID e' ∈ map ed_ID l /\ ed_Digest e' ∈ map ed_Digest l) as [? ?]
          by (split; apply list_elem_of_fmap; eauto).
        cbn. set_solver.
      * by rewrite after_entries_app.
Qed.

(** ** The walk over the findings *)

Definition entries (d : FindingDecision) : list EvidenceDecision := elems (fd_Evidence d).
Definition finding_blocking (d : FindingDecision) : bool := existsb decided_blocking (entries d).
Definition decision_id (d : FindingDecision) : string := f_ID (fd_Finding d).
Definition all_entries (l : list FindingDecision) : list EvidenceDecision := concat (map entries l).

Definition finding_entry_ok (d : FindingDecision) : Prop :=
  validateFinding (fd_Finding d) = Ok tt /\
  validateRoute (fd_Route d) "result.findings.route" = Ok tt /\
  validateMessage (fd_Reason d) MaxEvidenceDescriptionBytes "result.findings.reason" = Ok tt /\
  present (fd_Evidence d) = true /\ slen (entries d) <= MaxEvidence /\
  Forall evidence_entry_ok (entries d) /\
  fd_Route d = (if finding_blocking d then RouteBlocking else RouteAdvisory).

Definition count_decisions (c : Counts) (l : list FindingDecision) : Counts :=
  {| TotalFindings := TotalFindings c;
     BlockingFindings := BlockingFindings c + sumZ (fun d => b2z (finding_blocking d)) l;
     AdvisoryFindings := AdvisoryFindings c + sumZ (fun d => b2z (negb (finding_blocking d))) l;
     DeterministicEvidence :=
       DeterministicEvidence c + sumZ (fun e => b2z (decided_deterministic e)) (all_entries l);
     CorroboratingEvidence := CorroboratingEvidence c +
       sumZ (fun e => b2z (decided_deterministic e && ed_Corroborates e)) (all_entries l);
     ModelAssertions := ModelAssertions c +
       sumZ (fun e => b2z (ed_Class e =?= EvidenceClassModelAssertion)) (all_entries l) |}.

Definition after_decisions (acc : result_acc) (l : list FindingDecision) : result_acc :=
  {| derived := count_decisions (derived acc) l;
     seenFindings := list_to_set (map decision_id l) ∪ seenFindings acc;
     seenEvidenceIDs := list_to_set (map ed_ID (all_entries l)) ∪ seenEvidenceIDs acc;
     seenEvidenceDigests := list_to_set (map ed_Digest (all_entries l)) ∪ seenEvidenceDigests acc;
     totalEvidence := totalEvidence acc + slen (all_entries l) |}.

Lemma all_entries_cons d l : all_entries (d :: l) = entries d ++ all_entries l.
Proof. done. Qed.

Lemma all_entries_app l k : all_entries (l ++ k) = all_entries l ++ all_entries k.
Proof. unfold all_entries. by rewrite map_app, concat_app. Qed.

Lemma after_decisions_app acc l k :
  after_decisions (after_decisions acc l) k = after_decisions acc (l ++ k).
Proof.
  unfold after_decisions, count_decisions. cbn.
  rewrite !all_entries_app, !sumZ_app, !map_app, !list_to_set_app_L, !Z.add_assoc.
  unfold slen. rewrite length_app, Nat2Z.inj_add, !Z.add_assoc. f_equal; set_solver.
Qed.

(** The entries of one finding are new: distinct among themselves and from
    those seen before. *)
Definition entries_fresh (acc : result_acc) (l : list EvidenceDecision) : Prop :=
  NoDup (map ed_ID l) /\ NoDup (map ed_Digest l) /\
  (forall e, e ∈ l -> ed_ID e ∉ seenEvidenceIDs acc /\ ed_Digest e ∉ seenEvidenceDigests acc).

Lemma result_finding_step_spec acc d acc' :
  result_finding_step acc d = Ok acc' <->
  finding_entry_ok d /\ decision_id d ∉ seenFindings acc /\
  totalEvidence acc + slen (entries d) <= MaxEvidence /\ entries_fresh acc (entries d) /\
  acc' = after_decisions acc [d].
Proof.
  unfold result_finding_step, finding_entry_ok, entries_fresh.
  fold (entries d) (decision_id d) (finding_blocking d).
  destruct (validateFinding _) as [[]|]; cbn [result_bind].
  2:{ split; [done|]. by intros ((? & _) & _). }
  case_bool_decide as Hs. { split; [done|]. by intros (_ & ? & _). }
  destruct (validateRoute _ _) as [[]|]; cbn [result_bind].
  2:{ split; [done|]. by intros ((_ & ? & _) & _). }
  destruct (validateMessage _ _ _) as [[]|]; cbn [result_bind].
  2:{ split; [done|]. by intros ((_ & _ & ? & _) & _). }
  destruct (present (fd_Evidence d)); cbn [negb orb].
  2:{ split; [done|]. by intros ((_ & _ & _ & ? & _) & _). }
  destruct (Z.ltb_spec MaxEvidence (slen (entries d))).
  { split; [done|]. intros ((_ & _ & _ & _ & ? & _) & _). lia. }
  destruct (Z.ltb_spec MaxEvidence (totalEvidence acc + slen (entries d))).
  { split; [done|]. intros (_ & _ & ? & _). lia. }
  assert (Hafter : forall b, b = finding_blocking d ->
    let acc1 := after_entries {| derived := derived acc; seenFindings := {[decision_id d]} ∪ seenFindings acc;
       seenEvidenceIDs := seenEvidenceIDs acc; seenEvidenceDigests := seenEvidenceDigests acc;
       totalEvidence := totalEvidence acc + slen (entries d) |} (entries d) in
    {| derived := count_finding b (derived acc1); seenFindings := seenFindings acc1;
       seenEvidenceIDs := seenEvidenceIDs acc1; seenEvidenceDigests := seenEvidenceDigests acc1;
       totalEvidence := totalEvidence acc1 |} = after_decisions acc [d]).
  { intros b -> acc1. unfold acc1, after_decisions, after_entries, count_decisions, count_entries, count_finding,
      all_entries. cbn. rewrite !app_nil_r, !Z.add_0_r. f_equal. set_solver. }
  split.
  - intros Hstep. apply result_bind_ok in Hstep as (acc1 & H1 & H2).
    apply fold_entries in H1 as (Hall & Hn1 & Hn2 & Hacc & ->). cbn in Hacc.
    case_bool_decide as Hr; [|discriminate H2]. cbn [negb] in H2. injection H2 as <-.
    rewrite Hafter by done. done.
  - intros ((_ & _ & _ & _ & _ & Hall & Hr) & _ & _ & (Hn1 & Hn2 & Hacc) & ->).
    apply result_bind_ok. eexists. split.
    { apply fold_entries. split_and!; try done. }
    rewrite bool_decide_eq_true_2 by done. cbn [negb]. by rewrite Hafter.
Qed.

Lemma fold_decisions acc l acc' :
  fold_result result_finding_step acc l = Ok acc' <->
  Forall finding_entry_ok l /\ NoDup (map decision_id l) /\
  (forall d, d ∈ l -> decision_id d ∉ seenFindings acc) /\
  (l <> [] -> totalEvidence acc + slen (all_entries l) <= MaxEvidence) /\
  entries_fresh acc (all_entries l) /\ acc' = after_decisions acc l.
Proof.
  revert acc. induction l as [|d l IH]; intros acc; cbn [fold_result map].
  - assert (Ha : after_decisions acc [] = acc).
    { unfold after_decisions, count_decisions, all_entries. cbn.
      rewrite !Z.add_0_r, !(left_id_L ∅ (∪)). by destruct acc as [[] ? ? ? ?]. }
    rewrite Ha, NoDup_nil, Forall_nil. split; [intros [= <-]|by intros (_ & _ & _ & _ & _ & ->)].
    split_and!; try done; try set_solver. unfold entries_fresh. cbn. rewrite !NoDup_nil. set_solver.
  - rewrite NoDup_cons, Forall_cons, all_entries_cons. unfold entries_fresh in *.
    setoid_rewrite map_app. setoid_rewrite NoDup_app. setoid_rewrite elem_of_app.
    pose proof (Nat2Z.is_nonneg (length (all_entries l))).
    assert (Hlen : slen (entries d ++ all_entries l) = slen (entries d) + slen (all_entries l))
      by (unfold slen; rewrite length_app; lia).
    rewrite Hlen. split.
    + intros Hstep. apply result_bind_ok in Hstep as (acc1 & H1 & H2).
      apply result_finding_step_spec in H1 as (Hok & Hs & Htot & (Hn1 & Hn2 & Hacc) & ->).
      apply IH in H2 as (Hall & Hnd & Hseen & Htot2 & (Hm1 & Hm2 & Hacc2) & ->).
      unfold all_entries in Hacc2 at 1. cbn in Hseen, Htot2, Hacc2. rewrite app_nil_r in Htot2, Hacc2.
      fold (all_entries l) in Hacc2.
      split_and!; try done.
      * intros (g & Hg & Hin)%list_elem_of_fmap. specialize (Hseen g Hin). set_solver.
      * intros g [->|Hin]%elem_of_cons; [done|]. specialize (Hseen g Hin). set_solver.
      * intros _. destruct l; [unfold all_entries, slen; cbn; unfold slen in *; lia|].
        specialize (Htot2 ltac:(done)). lia.
      * intros x Hx (e & -> & Hin)%list_elem_of_fmap. destruct (Hacc2 e Hin) as [Hi _]. set_solver.
      * intros x Hx (e & -> & Hin)%list_elem_of_fmap. destruct (Hacc2 e Hin) as [_ Hi]. set_solver.
      * intros e [Hin|Hin]; [by apply Hacc|]. destruct (Hacc2 e Hin). set_solver.
      * by rewrite after_decisions_app.
    + intros ((Hok & Hall) & (Hid & Hnd) & Hseen & Htot & ((Hn1 & Hx1 & Hm1) & (Hn2 & Hx2 & Hm2) & Hacc) & ->).
      specialize (Htot ltac:(done)). apply result_bind_ok. exists (after_decisions acc [d]). split.
      { apply result_finding_step_spec. split_and!; try done; [apply Hseen; set_solver|unfold slen in *; lia|].
        split_and!; try done. intros e He. apply Hacc. by left. }
      apply IH. unfold all_entries at 2 3. cbn. rewrite app_nil_r. fold (all_entries l).
      split_and!; try done.
      * intros g Hin. specialize (Hseen g ltac:(set_solver)).
        assert (decision_id g ∈ map decision_id l) by (apply list_elem_of_fmap; eauto). set_solver.
      * intros _. lia.
      * intros e Hin. destruct (Hacc e (or_intror Hin)) as [Ha1 Ha2].
        assert (ed_ID e ∈ map ed_ID (all_entries l) /\ ed_Digest e ∈ map ed_Digest (all_entries l)) as [? ?]
          by (split; apply list_elem_of_fmap; eauto).
        split; intros [Hy|?]%elem_of_union; try done; apply elem_of_list_to_set in Hy; [by eapply Hx1|by eapply Hx2].
      * by rewrite after_decisions_app.
Qed.

(** ** Canonical form *)

(** What [normalizeResult] demands of the findings, in any order. *)
Record findings_wf (l : list FindingDecision) : Prop := {
  fw_bound : slen l <= MaxFindings;
  fw_each : Forall finding_entry_ok l;
  fw_ids : NoDup (map decision_id l);
  fw_total : slen (all_entries l) <= MaxEvidence;
  fw_entry_ids : NoDup (map ed_ID (all_entries l));
  fw_entry_digests : NoDup (map ed_Digest (all_entries l))
}.

Definition canonical_findings (l : list FindingDecision) : list FindingDecision :=
  map (fun d => sort_evidence d Some) (sort_on decision_id String.compare l).

Lemma normalizeResult_spec r n :
  normalizeResult r = Ok n <->
  exists l, cr_SchemaVersion r = SchemaVersion /\ cr_Findings r = Some l /\ findings_wf l /\
    cr_Counts r = count_decisions (start_counts (slen l)) l /\
    n = {| cr_SchemaVersion := SchemaVersion; cr_Findings := Some (canonical_findings l);
           cr_Counts := count_decisions (start_counts (slen l)) l |}.
Proof.
  unfold normalizeResult. destruct (cr_Findings r) as [l|]; cbn [present elems negb orb].
  2:{ split; [by case_match|]. by intros (? & _ & ? & _). }
  case_bool_decide as Hs; cbn [negb]. 2:{ split; [done|]. by intros (? & ? & _). }
  destruct (Z.ltb_spec MaxFindings (slen l)).
  { split; [done|]. intros (? & _ & [= <-] & [? _ _ _ _ _] & _). lia. }
  set (start := {| derived := _; seenFindings := _; seenEvidenceIDs := _; seenEvidenceDigests := _;
                   totalEvidence := _ |}).
  assert (Hwf : forall acc, fold_result result_finding_step start l = Ok acc <->
    findings_wf l /\ acc = after_decisions start l).
  { intros acc. rewrite fold_decisions. unfold entries_fresh. cbn. split.
    - intros (? & ? & _ & Ht & (? & ? & _) & ->). split; [|done]. split; try done.
      destruct l; [unfold all_entries, slen, MaxEvidence; cbn; lia|]. by apply Ht.
    - intros ([] & ->). split_and!; try done; set_solver. }
  split.
  - intros Hn. apply result_bind_ok in Hn as (acc & Hacc & Hn). apply Hwf in Hacc as [Hok ->].
    case_bool_decide as Hc; [|discriminate Hn]. cbn [negb] in Hn. injection Hn as <-.
    exists l. rewrite Hs. done.
  - intros (? & _ & [= <-] & Hok & Hc & ->). apply result_bind_ok. exists (after_decisions start l).
    split; [by apply Hwf|]. cbn [derived after_decisions start]. rewrite Hc.
    rewrite bool_decide_eq_true_2 by done. cbn [negb]. by rewrite Hs.
Qed.

Lemma entries_sorted d : entries (sort_evidence d Some) ≡ₚ entries d.
Proof. unfold entries, sort_evidence. cbn. apply sort_on_perm. Qed.

Lemma existsb_perm {A : Type} (p : A -> bool) l k : l ≡ₚ k -> existsb p l = existsb p k.
Proof.
  intros H. apply eq_true_iff_eq. rewrite !existsb_true.
  split; intros (x & Hx & Hp); exists x; [rewrite <- H|rewrite H]; done.
Qed.

Lemma finding_blocking_sorted d : finding_blocking (sort_evidence d Some) = finding_blocking d.
Proof. apply existsb_perm, entries_sorted. Qed.

Lemma finding_entry_ok_sorted d : finding_entry_ok d -> finding_entry_ok (sort_evidence d Some).
Proof.
  intros (H1 & H2 & H3 & H4 & H5 & H6 & H7). unfold finding_entry_ok.
  rewrite finding_blocking_sorted. split_and!; try done.
  - unfold slen in *. by rewrite entries_sorted.
  - by rewrite entries_sorted.
Qed.

Lemma all_entries_sorted l : all_entries (map (fun d => sort_evidence d Some) l) ≡ₚ all_entries l.
Proof.
  induction l as [|d l IH]; [done|]. cbn [map]. rewrite !all_entries_cons. by rewrite IH, entries_sorted.
Qed.

Lemma all_entries_perm l k : l ≡ₚ k -> all_entries l ≡ₚ all_entries k.
Proof.
  induction 1 as [|d l k _ IH|d d' l|]; [done| | |by etransitivity]; rewrite !all_entries_cons.
  - by rewrite IH.
  - rewrite !app_assoc. by rewrite (Permutation_app_comm (entries d')).
Qed.

Lemma canonical_entries l : all_entries (canonical_findings l) ≡ₚ all_entries l.
Proof. unfold canonical_findings. rewrite all_entries_sorted. apply all_entries_perm, sort_on_perm. Qed.

Lemma canonical_ids l : map decision_id (canonical_findings l) = map decision_id (sort_on decision_id String.compare l).
Proof. unfold canonical_findings. by rewrite map_map. Qed.

Lemma canonical_wf l : findings_wf l -> findings_wf (canonical_findings l).
Proof.
  intros [H1 H2 H3 H4 H5 H6]. split.
  - unfold slen, canonical_findings in *. by rewrite length_map, sort_on_perm.
  - unfold canonical_findings. apply Forall_map. rewrite sort_on_perm.
    eapply Forall_impl; [exact H2|]. apply finding_entry_ok_sorted.
  - by rewrite canonical_ids, sort_on_perm.
  - unfold slen in *. by rewrite canonical_entries.
  - by rewrite canonical_entries.
  - by rewrite canonical_entries.
Qed.

Lemma canonical_counts l c : count_decisions c (canonical_findings l) = count_decisions c l.
Proof.
  unfold count_decisions. rewrite !canonical_entries. unfold canonical_findings. rewrite !sumZ_map.
  rewrite (sumZ_perm _ _ _ (sort_on_perm _ _ l)), (sumZ_perm _ _ _ (sort_on_perm _ _ l)).
  f_equal; f_equal; apply sumZ_ext; intros d _; by rewrite finding_blocking_sorted.
Qed.

Lemma entries_nodup l d : findings_wf l -> d ∈ l -> NoDup (map ed_ID (entries d)).
Proof.
  intros Hl Hin. pose proof (fw_entry_ids _ Hl) as Hnd. clear Hl.
  induction l as [|x l IH]; [by apply not_elem_of_nil in Hin|].
  rewrite all_entries_cons, map_app in Hnd. apply NoDup_app in Hnd as (Hx & _ & Hl).
  apply elem_of_cons in Hin as [->|Hin]; auto.
Qed.

Lemma canonical_idem l : findings_wf l -> canonical_findings (canonical_findings l) = canonical_findings l.
Proof.
  intros Hl. pose proof (canonical_wf _ Hl) as Hc. unfold canonical_findings at 1.
  rewrite (sort_on_id _ String.compare (canonical_findings l)); [|apply Hc|].
  2:{ rewrite canonical_ids. apply sort_on_keys, _. }
  unfold canonical_findings. rewrite map_map. apply map_ext_in. intros d Hin%list_elem_of_In.
  rewrite sort_on_perm in Hin. unfold sort_evidence. cbn [fd_Finding fd_Route fd_Reason fd_Evidence elems].
  do 2 f_equal. apply sort_on_idem; [apply _|]. by apply (entries_nodup l).
Qed.

Lemma canonical_fixed r n : normalizeResult r = Ok n -> normalizeResult n = Ok n.
Proof.
  intros H. apply normalizeResult_spec in H as (l & _ & _ & Hwf & _ & ->). apply normalizeResult_spec.
  exists (canonical_findings l). cbn.
  assert (Hlen : slen (canonical_findings l) = slen l)
    by (unfold slen, canonical_findings; by rewrite length_map, sort_on_perm).
  rewrite Hlen, canonical_counts, canonical_idem by done. split_and!; try done. by apply canonical_wf.
Qed.

(** The canonical form of a corroboration result is a fixed point: what
    [normalizeResult] returns is accepted again and returned unchanged, so the
    bytes and digest of a result do not depend on how often it was
    canonicalised. *)
Theorem normalizeResult_idempotent r n (H : normalizeResult r = Ok n) : normalizeResult n = Ok n.
Proof. by eapply canonical_fixed. Qed.

Lemma normalizeResult_idempotent_witness :
  exists r n, Corroborate (sample_run sample_findings) = Ok r /\ normalizeResult r = Ok n /\
    normalizeResult n = Ok n.
Proof.
  destruct (Corroborate (sample_run sample_findings)) as [r|] eqn:E; [|vm_compute in E; discriminate E].
  destruct (normalizeResult r) as [n|] eqn:En.
  - exists r, n. split_and!; [done..|]. exact (normalizeResult_idempotent r n En).
  - exfalso. vm_compute in E. injection E as <-. vm_compute in En. discriminate En.
Defined.
