(* ===== verification/GateScoring.v ===== *)
(** * Gate scoring (src/v3/internal/gatescoring)

    Combines the deterministic execution checks with the routed critic result
    into a fixed-point score and a verdict.  Basis points are [int32] values
    in 0..10000 and their products are computed in [int64], so no operation
    wraps; the theorems state the bounds. *)

From S2P Require Import Prelude Order GoStrings Digest GoJson Corroboration CorroborationResult.
Local Open Scope go_scope.
Local Open Scope Z_scope.

Definition SchemaVersion : string := "agents.astatide.com/gate-scoring/v1alpha1".
Definition MaxExecutionChecks : Z := 64.
Definition MaxReasonBytes : Z := 256.
Definition MaxBlockingReasons : Z := MaxExecutionChecks + Corroboration.MaxFindings.
Definition MaxResultBytes : Z := 1048576.
(** [v1alpha1.GateScoreScale] and [v1alpha1.MaxCriticFindings] *)
Definition GateScoreScale : Z := 10000.
Definition MaxCriticFindings : Z := 256.

Inductive error : Type :=
| ErrInvalidInput (field : string)
| ErrNonCanonical.

Definition invalid {A : Type} (field : string) : result error A := Err (ErrInvalidInput field).

(** [Verdict] is a Go string type. *)
Definition Accepted : string := "Accepted".
Definition Rejected : string := "Rejected".

(** [v1alpha1.GateCriticSignalSpec] and [v1alpha1.GateSignalsSpec] *)
Record GateCriticSignalSpec : Type := {
  WeightBasisPoints : Z; ModelRouteRef : string; MaxFindings : Z
}.
Record GateSignalsSpec : Type := {
  ExecutionWeightBasisPoints : Z;
  Critic : option GateCriticSignalSpec;
  MinScoreBasisPoints : Z
}.

Record ExecutionCheck : Type := { ec_Name : string; ec_Passed : bool; ec_Blocking : bool }.
Record ExecutionSignal : Type := { ScoreBasisPoints : Z; Checks : slice ExecutionCheck }.

Record Input : Type := {
  in_Signals : option GateSignalsSpec;
  in_Execution : ExecutionSignal;
  in_Critic : option CorroborationResult
}.

Record Result : Type := {
  r_SchemaVersion : string;
  r_Signals : GateSignalsSpec;
  r_ExecutionScoreBasisPoints : Z;
  r_CriticScoreBasisPoints : Z;
  r_WeightedScoreBasisPoints : Z;
  r_ExecutionChecks : slice ExecutionCheck;
  r_CriticResult : option CorroborationResult;
  r_BlockingReasons : slice string;
  r_Verdict : string
}.

(** ** [json.Marshal] of a result *)

Local Open Scope string_scope.
Local Open Scope list_scope.

Definition json_GateCriticSignalSpec (c : GateCriticSignalSpec) : json :=
  JObject [("weightBasisPoints", JInt (WeightBasisPoints c)); ("modelRouteRef", JString (ModelRouteRef c));
           ("maxFindings", JInt (MaxFindings c))].
Definition json_GateSignalsSpec (s : GateSignalsSpec) : json :=
  JObject ([("executionWeightBasisPoints", JInt (ExecutionWeightBasisPoints s))] ++
           omit_nil "critic" json_GateCriticSignalSpec (Critic s) ++
           [("minScoreBasisPoints", JInt (MinScoreBasisPoints s))]).
Definition json_ExecutionCheck (c : ExecutionCheck) : json :=
  JObject [("name", JString (ec_Name c)); ("passed", JBool (ec_Passed c));
           ("blocking", JBool (ec_Blocking c))].
Definition json_Result (r : Result) : json :=
  JObject ([("schemaVersion", JString (r_SchemaVersion r)); ("signals", json_GateSignalsSpec (r_Signals r));
            ("executionScoreBasisPoints", JInt (r_ExecutionScoreBasisPoints r));
            ("criticScoreBasisPoints", JInt (r_CriticScoreBasisPoints r));
            ("weightedScoreBasisPoints", JInt (r_WeightedScoreBasisPoints r));
            ("executionChecks", json_slice json_ExecutionCheck (r_ExecutionChecks r))] ++
           omit_nil "criticResult" json_CorroborationResult (r_CriticResult r) ++
           [("blockingReasons", json_slice JString (r_BlockingReasons r));
            ("verdict", JString (r_Verdict r))]).
Local Close Scope string_scope.

(** ** Validation *)

(** The loop over one part of a route reference; [index] is the byte offset
    of the rune, as in a Go [range] over a string. *)
Definition route_rune_ok (n : Z) (index r : Z) : bool :=
  between 0x61 0x7A r || between 0x30 0x39 r || ((r =? 0x2D) && (0 <? index) && (index <? n - 1)).

Fixpoint route_part_ok (n index : Z) (part : list (Z * bool)) : bool :=
  match part with
  | [] => true
  | (r, ok) :: rest =>
    route_rune_ok n index r &&
    route_part_ok n (index + (if ok : bool then slen (encode_rune r) else 1)) rest
  end.

Definition validRouteRef (value : string) : bool :=
  if (value =?= "") || (253 <? len value) || (TrimSpace value !=? value) ||
     existsb (fun b => (b =? 0) || (b =? 0x0D) || (b =? 0x0A)) (bytes value) then false
  else
    let parts := split_bytes 0x2E (bytes value) in
    forallb (fun part => negb (part =?= [])) (tail parts) &&
    forallb (fun part => route_part_ok (slen part) 0 (decode part)) parts.

Definition normalizeSignals (input : option GateSignalsSpec) : result error GateSignalsSpec :=
  match input with
  | None => Ok {| ExecutionWeightBasisPoints := GateScoreScale; Critic := None;
                  MinScoreBasisPoints := GateScoreScale |}
  | Some output =>
    if (ExecutionWeightBasisPoints output <? 0) || (GateScoreScale <? ExecutionWeightBasisPoints output)
    then invalid "signals.executionWeightBasisPoints"
    else if (MinScoreBasisPoints output <? 0) || (GateScoreScale <? MinScoreBasisPoints output)
    then invalid "signals.minScoreBasisPoints"
    else
    match Critic output with
    | None =>
      if negb (ExecutionWeightBasisPoints output =? GateScoreScale) ||
         negb (MinScoreBasisPoints output =? GateScoreScale) then invalid "signals" else Ok output
    | Some critic =>
      if (WeightBasisPoints critic <? 1) || (GateScoreScale <? WeightBasisPoints critic)
      then invalid "signals.critic.weightBasisPoints"
      else if (ExecutionWeightBasisPoints output <? 1) ||
              negb (ExecutionWeightBasisPoints output + WeightBasisPoints critic =? GateScoreScale)
      then invalid "signals"
      else if negb (validRouteRef (ModelRouteRef critic)) then invalid "signals.critic.modelRouteRef"
      else if (MaxFindings critic <? 1) || (MaxCriticFindings <? MaxFindings critic)
      then invalid "signals.critic.maxFindings"
      else Ok output
    end
  end.

(** [checkNamePattern] is the token pattern of findingcorroboration. *)
Definition validCheckName (value : string) : bool :=
  (0 <? len value) && (len value <=? 128) && ValidString value && tokenPattern value.

(** The loop over the sorted checks; [previous] is the name before. *)
Fixpoint execution_reasons (previous : option string) (checks : list ExecutionCheck)
  : result error (list string) :=
  match checks with
  | [] => Ok []
  | check :: rest =>
    if negb (validCheckName (ec_Name check)) then invalid "execution.checks.name"
    else if previous =?= Some (ec_Name check) then invalid "execution.checks"
    else
    let? reasons := execution_reasons (Some (ec_Name check)) rest in
    Ok (if ec_Blocking check && negb (ec_Passed check)
        then ("execution." +:+ ec_Name check) :: reasons else reasons)
  end.

Definition normalizeExecution (input : ExecutionSignal) : result error (ExecutionSignal * list string) :=
  if (ScoreBasisPoints input <? 0) || (GateScoreScale <? ScoreBasisPoints input)
  then invalid "execution.scoreBasisPoints"
  else
  let checks := elems (Checks input) in
  if negb (present (Checks input)) || (slen checks =? 0) || (MaxExecutionChecks <? slen checks)
  then invalid "execution.checks"
  else
  let sorted := sort_on ec_Name String.compare checks in
  let? reasons := execution_reasons None sorted in
  Ok ({| ScoreBasisPoints := ScoreBasisPoints input; Checks := append_nil sorted |}, reasons).

Definition normalizeCriticResult (input : CorroborationResult) (maxFindings : Z)
  : result error CorroborationResult :=
  if maxFindings <? slen (elems (cr_Findings input)) then invalid "critic.result.findings"
  else
  match CanonicalResultBytes input with
  | Err _ => invalid "critic corroboration"
  | Ok _ =>
    Ok {| cr_SchemaVersion := cr_SchemaVersion input;
          cr_Findings :=
            Some (map (fun d => sort_evidence d append_nil)
                    (sort_on (fun d => f_ID (fd_Finding d)) String.compare (elems (cr_Findings input))));
          cr_Counts := cr_Counts input |}
  end.

(** ** Scores and reasons *)

Definition criticScoreFor (result : CorroborationResult) : Z :=
  if 0 <? BlockingFindings (cr_Counts result) then 0 else GateScoreScale.

Definition criticBlockingReasons (result : CorroborationResult) : list string :=
  map (fun d => "critic." +:+ f_ID (fd_Finding d))
    (filter (fun d => fd_Route d = RouteBlocking) (elems (cr_Findings result))).

Definition weightedScore (execution : Z) (signals : GateSignalsSpec) (critic : Z) : result error Z :=
  if (execution <? 0) || (GateScoreScale <? execution) || (critic <? 0) || (GateScoreScale <? critic)
  then invalid "score"
  else
  let criticWeight := match Critic signals with Some c => WeightBasisPoints c | None => 0 end in
  if negb (ExecutionWeightBasisPoints signals + criticWeight =? GateScoreScale) then invalid "signals"
  else
  let numerator := execution * ExecutionWeightBasisPoints signals + critic * criticWeight in
  Ok (Z.quot numerator GateScoreScale).

Definition reason_ok (reason : string) : bool :=
  negb ((len reason =? 0) || (MaxReasonBytes <? len reason) || negb (ValidString reason) ||
        existsb (fun b => (b =? 0) || (b =? 0x0D) || (b =? 0x0A) || (b =? 0x09) || (b =? 0x20))
          (bytes reason)).

(** The loop over the sorted reasons: drop the ill-formed, keep one of equal
    neighbours; [last] is the reason kept last. *)
Fixpoint unique_reasons (last : option string) (l : list string) : list string :=
  match l with
  | [] => []
  | reason :: rest =>
    if negb (reason_ok reason) then unique_reasons last rest
    else if last =?= Some reason then unique_reasons last rest
    else reason :: unique_reasons (Some reason) rest
  end.

Definition normalizeReasons (input : list string) : list string :=
  let unique := unique_reasons None (Strings input) in
  if MaxBlockingReasons <? slen unique then take (Z.to_nat MaxBlockingReasons) unique else unique.

(** ** Evaluation *)

(** The critic part of [Evaluate] and [canonicalizeResult]: the normalized
    result, the score and the reasons. *)
Definition critic_part (signals : GateSignalsSpec) (input : option CorroborationResult) (field : string)
  : result error (option CorroborationResult * Z * list string) :=
  match Critic signals, input with
  | Some _, None => invalid field
  | Some critic, Some r =>
    let? normalized := normalizeCriticResult r (MaxFindings critic) in
    Ok (Some normalized, criticScoreFor normalized, criticBlockingReasons normalized)
  | None, Some _ => invalid field
  | None, None => Ok (None, GateScoreScale, [])
  end.

Definition canonicalizeResult (input : Result) : result error Result :=
  if r_SchemaVersion input !=? SchemaVersion then invalid "result.schemaVersion" else
  let? signals := normalizeSignals (Some (r_Signals input)) in
  let? (execution, executionReasons) := normalizeExecution
    {| ScoreBasisPoints := r_ExecutionScoreBasisPoints input; Checks := r_ExecutionChecks input |} in
  let? (criticPart, criticReasons) := critic_part signals (r_CriticResult input) "result.criticResult" in
  let '(criticResult, criticScore) := criticPart in
  let? weighted := weightedScore (ScoreBasisPoints execution) signals criticScore in
  let reasons := normalizeReasons (executionReasons ++ criticReasons) in
  let reasons :=
    if weighted <? MinScoreBasisPoints signals
    then normalizeReasons (reasons ++ ["score.minimum"%string]) else reasons in
  let verdict := if negb (slen reasons =? 0) then Rejected else Accepted in
  if negb (r_CriticScoreBasisPoints input =? criticScore) ||
     negb (r_WeightedScoreBasisPoints input =? weighted) ||
     negb (present (r_BlockingReasons input)) || (elems (r_BlockingReasons input) !=? reasons) ||
     (r_Verdict input !=? verdict) then invalid ""
  else Ok {| r_SchemaVersion := SchemaVersion; r_Signals := signals;
             r_ExecutionScoreBasisPoints := ScoreBasisPoints execution;
             r_CriticScoreBasisPoints := criticScore; r_WeightedScoreBasisPoints := weighted;
             r_ExecutionChecks := Checks execution; r_CriticResult := criticResult;
             r_BlockingReasons := Some reasons; r_Verdict := verdict |}.

Definition Evaluate (input : Input) : result error Result :=
  let? signals := normalizeSignals (in_Signals input) in
  let? (execution, executionReasons) := normalizeExecution (in_Execution input) in
  let? (criticPart, criticReasons) := critic_part signals (in_Critic input) "critic" in
  let '(criticResult, criticScore) := criticPart in
  let? weighted := weightedScore (ScoreBasisPoints execution) signals criticScore in
  let reasons := executionReasons ++ criticReasons ++
    (if weighted <? MinScoreBasisPoints signals then ["score.minimum"%string] else []) in
  let reasons := normalizeReasons reasons in
  let verdict := if 0 <? slen reasons then Rejected else Accepted in
  canonicalizeResult
    {| r_SchemaVersion := SchemaVersion; r_Signals := signals;
       r_ExecutionScoreBasisPoints := ScoreBasisPoints execution;
       r_CriticScoreBasisPoints := criticScore; r_WeightedScoreBasisPoints := weighted;
       r_ExecutionChecks := Checks execution; r_CriticResult := criticResult;
       r_BlockingReasons := Some reasons; r_Verdict := verdict |}.

Definition CanonicalResultBytes (result : Result) : Prelude.result error (list Z) :=
  let? normalized := canonicalizeResult result in
  let encoded := Marshal (json_Result normalized) in
  if MaxResultBytes <? slen encoded then invalid "result" else Ok encoded.

Definition ResultDigest (result : Result) : Prelude.result error string :=
  let? encoded := CanonicalResultBytes result in
  Ok (DigestPrefix +:+ EncodeToString (Sha256.Sum256 encoded)).

(** ** Lemmas: reasons *)

Lemma token_tail_range b : token_tail b = true -> 0x2D <= b < 0x80.
Proof. unfold token_tail, is_alnum, is_digit, between. lia. Qed.

Lemma tokenPattern_bytes v :
  tokenPattern v = true -> Forall (fun b => 0x2D <= b < 0x80) (bytes v) /\ 0 < len v <= 128.
Proof.
  unfold tokenPattern. rewrite len_bytes. destruct (bytes v) as [|b rest]; [done|].
  intros H. breflect. destruct H as [[Ha Hr] Hl]. unfold slen in *. cbn. split; [|lia].
  apply Forall_cons. split; [apply token_tail_range; unfold token_tail; by rewrite Ha|].
  apply forallb_true in Hr. eapply Forall_impl; [exact Hr|]. apply token_tail_range.
Qed.

(** A reason built from a prefix of printable ASCII and a token is never
    dropped by [normalizeReasons]. *)
Lemma reason_ok_token prefix v :
  forallb (fun b => between 0x2D 0x7F b) (bytes prefix) = true -> 0 < len prefix <= 16 ->
  tokenPattern v = true -> reason_ok (prefix +:+ v) = true.
Proof.
  intros Hp Hl Hv. apply tokenPattern_bytes in Hv as [Hb Hlen].
  assert (Hall : Forall (fun b => 0x2D <= b < 0x80) (bytes (prefix +:+ v))).
  { rewrite bytes_app. apply Forall_app. split; [|done]. apply forallb_true in Hp.
    eapply Forall_impl; [exact Hp|]. cbn. unfold between. intros b ?. lia. }
  unfold reason_ok. rewrite negb_true_iff, !orb_false_iff, negb_false_iff. split_and!.
  - rewrite len_app. lia.
  - rewrite len_app. unfold MaxReasonBytes. lia.
  - apply ValidString_ascii. eapply Forall_impl; [exact Hall|]. cbn. intros; lia.
  - apply existsb_false. eapply Forall_impl; [exact Hall|]. cbn. intros b ?. lia.
Qed.

Lemma validCheckName_token v : validCheckName v = true -> tokenPattern v = true.
Proof. unfold validCheckName. intros H. breflect. tauto. Qed.

Lemma validateToken_token v n f : validateToken v n f = Ok tt -> tokenPattern v = true.
Proof. unfold validateToken. repeat case_match; try done. breflect. tauto. Qed.

Lemma unique_in last l x : x ∈ unique_reasons last l -> x ∈ l /\ reason_ok x = true.
Proof.
  revert last. induction l as [|r l IH]; intros last; cbn [unique_reasons]; [set_solver|].
  destruct (reason_ok r) eqn:E; cbn [negb].
  2:{ intros Hx. destruct (IH last Hx). set_solver. }
  case_bool_decide; [intros Hx; destruct (IH last Hx); set_solver|].
  intros [->|Hx]%elem_of_cons; [set_solver|]. destruct (IH _ Hx). set_solver.
Qed.

Lemma unique_complete last l x :
  x ∈ l -> reason_ok x = true -> last = Some x \/ x ∈ unique_reasons last l.
Proof.
  revert last. induction l as [|r l IH]; intros last Hin Hok; [set_solver|]. cbn [unique_reasons].
  apply elem_of_cons in Hin as [<-|Hin].
  - rewrite Hok. cbn [negb]. case_bool_decide; [by left|]. right. apply list_elem_of_here.
  - destruct (reason_ok r); cbn [negb]; [|by apply IH].
    case_bool_decide; [by apply IH|]. right.
    apply elem_of_cons. destruct (IH (Some r) Hin Hok) as [[=]|?]; [left; congruence|by right].
Qed.

Lemma unique_sorted last l :
  StronglySorted String.le l -> (forall x y, last = Some x -> y ∈ l -> String.le x y) ->
  StronglySorted String.le (unique_reasons last l) /\ NoDup (unique_reasons last l) /\
  (forall x, last = Some x -> x ∉ unique_reasons last l).
Proof.
  intros Hs. revert last. induction Hs as [|r l Hl IH Hr]; intros last Hlast; cbn [unique_reasons].
  { split_and!; [constructor|apply NoDup_nil_2|]. intros x _. apply not_elem_of_nil. }
  assert (Hkeep : StronglySorted String.le (unique_reasons last l) /\ NoDup (unique_reasons last l) /\
    (forall x, last = Some x -> x ∉ unique_reasons last l)).
  { apply IH. intros x y Hx Hy. apply (Hlast x); [done|]. by right. }
  destruct (reason_ok r); cbn [negb]; [|done]. case_bool_decide as Hne; [done|].
  rewrite Forall_forall in Hr.
  destruct (IH (Some r)) as (H1 & H2 & H3). { intros x y [= <-] Hy. by apply Hr. }
  split_and!.
  - constructor; [done|]. apply Forall_forall. intros y [Hy _]%unique_in. by apply Hr.
  - apply NoDup_cons. split; [by apply H3|done].
  - intros x Hx [->|Hin]%elem_of_cons; [done|]. apply unique_in in Hin as [Hin _].
    assert (x = r) as ->; [|done]. apply (anti_symm String.le); [|by apply Hr].
    apply Hlast; [done|]. by left.
Qed.

(** The distinct well-formed reasons in order. *)
Lemma unique_spec l :
  let u := unique_reasons None (Strings l) in
  StronglySorted String.le u /\ NoDup u /\ (forall x, x ∈ u <-> x ∈ l /\ reason_ok x = true).
Proof.
  destruct (unique_sorted None (Strings l)) as (H1 & H2 & _).
  { apply Sorted_StronglySorted; [apply _|apply Strings_sorted]. } { done. }
  split_and!; try done. intros x. split.
  - intros [Hx Hok]%unique_in. split; [|done]. by rewrite Strings_perm in Hx.
  - intros [Hx Hok]. rewrite <- (Strings_perm l) in Hx.
    destruct (unique_complete None _ _ Hx Hok); done.
Qed.

Lemma unique_ext l k :
  (forall x, reason_ok x = true -> x ∈ l <-> x ∈ k) ->
  unique_reasons None (Strings l) = unique_reasons None (Strings k).
Proof.
  intros H. destruct (unique_spec l) as (Hs1 & Hn1 & He1), (unique_spec k) as (Hs2 & Hn2 & He2).
  apply (StronglySorted_unique String.le); [done..|]. apply NoDup_Permutation; [done..|].
  intros x. rewrite He1, He2. split; intros [Hx Hok]; (split; [|done]); by apply H.
Qed.

Lemma normalizeReasons_nil l :
  Forall (fun x => reason_ok x = true) l -> normalizeReasons l = [] <-> l = [].
Proof.
  intros Hok. destruct (unique_spec l) as (_ & _ & Hin). unfold normalizeReasons.
  split; [|by intros ->]. intros Hnil. destruct l as [|x l]; [done|]. exfalso.
  assert (Hx : x ∈ unique_reasons None (Strings (x :: l))).
  { apply Hin. apply Forall_cons in Hok as [Hok _]. split; [by left|done]. }
  destruct (unique_reasons None (Strings (x :: l))) as [|y u]; [by apply not_elem_of_nil in Hx|].
  by destruct (_ <? _).
Qed.

(** A minimum-score reason is added to reasons that were normalized already. *)
Lemma normalizeReasons_again l s :
  slen (unique_reasons None (Strings l)) <= MaxBlockingReasons ->
  normalizeReasons (normalizeReasons l ++ [s]) = normalizeReasons (l ++ [s]).
Proof.
  intros Hb. unfold normalizeReasons at 2. rewrite (proj2 (Z.ltb_ge _ _) Hb).
  unfold normalizeReasons. rewrite (unique_ext (_ ++ [s]) (l ++ [s])); [done|].
  intros x Hok. destruct (unique_spec l) as (_ & _ & Hin). rewrite !elem_of_app, Hin. tauto.
Qed.

Lemma unique_length l : slen (unique_reasons None (Strings l)) <= slen l.
Proof.
  destruct (unique_spec l) as (_ & Hnd & Hin). unfold slen.
  assert (Hsub : unique_reasons None (Strings l) ⊆+ l).
  { apply NoDup_submseteq; [done|]. intros x Hx. by apply Hin. }
  apply submseteq_length in Hsub. lia.
Qed.

(** ** Lemmas: execution checks *)

Definition blocking_failure (c : ExecutionCheck) : bool := ec_Blocking c && negb (ec_Passed c).
Definition failure_reasons (l : list ExecutionCheck) : list string :=
  map (fun c => "execution." +:+ ec_Name c) (filter (fun c => blocking_failure c = true) l).

Lemma execution_reasons_spec prev l rs :
  StronglySorted (cmp_le String.compare) (map ec_Name l) ->
  (forall x y, prev = Some x -> y ∈ map ec_Name l -> cmp_le String.compare x y) ->
  execution_reasons prev l = Ok rs <->
  Forall (fun c => validCheckName (ec_Name c) = true) l /\ NoDup (map ec_Name l) /\
  (forall x, prev = Some x -> x ∉ map ec_Name l) /\ rs = failure_reasons l.
Proof.
  revert prev rs. induction l as [|c l IH]; intros prev rs Hs Hprev; cbn [execution_reasons map].
  - rewrite Forall_nil, NoDup_nil. split; [intros [= <-]; set_solver|]. by intros (_ & _ & _ & ->).
  - cbn in Hs, Hprev. apply StronglySorted_cons in Hs as [Hc Hs].
    rewrite Forall_cons, NoDup_cons. destruct (validCheckName (ec_Name c)); cbn [negb].
    2:{ split; [done|]. by intros ([? _] & _). }
    case_bool_decide as Hp.
    { split; [done|]. intros (_ & _ & Hn & _). exfalso. apply (Hn _ Hp). by left. }
    assert (Hreason : failure_reasons (c :: l) = if blocking_failure c
      then ("execution." +:+ ec_Name c) :: failure_reasons l else failure_reasons l).
    { unfold failure_reasons. rewrite filter_cons. by destruct (blocking_failure c). }
    rewrite Hreason. fold (blocking_failure c). rewrite Forall_forall in Hc.
    assert (Hrest : forall rs', execution_reasons (Some (ec_Name c)) l = Ok rs' <->
      Forall (fun c => validCheckName (ec_Name c) = true) l /\ NoDup (map ec_Name l) /\
      (forall x, Some (ec_Name c) = Some x -> x ∉ map ec_Name l) /\ rs' = failure_reasons l).
    { intros rs'. apply IH; [done|]. intros x y [= <-] Hy. by apply Hc. }
    split.
    + intros H. apply result_bind_ok in H as (rs' & H1 & H2).
      apply Hrest in H1 as (Hv & Hnd & Hn & ->). injection H2 as <-.
      split_and!; try done; [by apply Hn|]. intros x Hx [->|Hin]%elem_of_cons; [done|].
      assert (x = ec_Name c) as ->; [|done].
      apply (anti_symm (cmp_le String.compare)); [apply Hprev; [done|by left]|by apply Hc].
    + intros ((_ & Hv) & (Hn & Hnd) & _ & ->). apply result_bind_ok. exists (failure_reasons l).
      split; [|done]. apply Hrest. split_and!; try done. by intros x [= <-].
Qed.

Lemma normalizeExecution_spec input ex rs :
  normalizeExecution input = Ok (ex, rs) <->
  0 <= ScoreBasisPoints input <= GateScoreScale /\
  exists l, Checks input = Some l /\ 0 < slen l <= MaxExecutionChecks /\
    Forall (fun c => validCheckName (ec_Name c) = true) l /\ NoDup (map ec_Name l) /\
    ex = {| ScoreBasisPoints := ScoreBasisPoints input;
            Checks := Some (sort_on ec_Name String.compare l) |} /\
    rs = failure_reasons (sort_on ec_Name String.compare l).
Proof.
  unfold normalizeExecution.
  destruct (_ || _) eqn:Es.
  { split; [done|]. intros [? _]. breflect. lia. }
  breflect. destruct (Checks input) as [l|]; cbn [present elems negb orb].
  2:{ split; [done|]. by intros (_ & ? & ? & _). }
  destruct (_ || _) eqn:El.
  { split; [done|]. intros (_ & ? & [= <-] & ? & _). breflect. lia. }
  breflect. set (sorted := sort_on ec_Name String.compare l).
  assert (Hperm : sorted ≡ₚ l) by apply sort_on_perm.
  assert (Hsome : append_nil sorted = Some sorted).
  { apply Permutation_length in Hperm. destruct sorted; [|done]. unfold slen in El. cbn in Hperm. lia. }
  rewrite Hsome. unfold slen in *.
  assert (Hspec : forall rs, execution_reasons None sorted = Ok rs <->
    Forall (fun c => validCheckName (ec_Name c) = true) l /\ NoDup (map ec_Name l) /\
    rs = failure_reasons sorted).
  { intros rs'. rewrite execution_reasons_spec; [|apply Sorted_StronglySorted; [apply _|apply sort_on_keys, _]|done].
    assert (Hv : Forall (fun c => validCheckName (ec_Name c) = true) sorted <->
      Forall (fun c => validCheckName (ec_Name c) = true) l) by (by rewrite Hperm).
    assert (Hn : NoDup (map ec_Name sorted) <-> NoDup (map ec_Name l)) by (by rewrite Hperm).
    rewrite Hv, Hn. split; [tauto|]. intros (? & ? & ?). split_and!; done. }
  split.
  - intros H. apply result_bind_ok in H as (rs' & H1 & H2). apply Hspec in H1 as (Hv & Hnd & ->).
    injection H2 as <- <-. split; [lia|]. exists l. split_and!; try done; lia.
  - intros (_ & l' & [= <-] & _ & Hv & Hnd & -> & ->). apply result_bind_ok.
    exists (failure_reasons sorted). split; [|done]. by apply Hspec.
Qed.

Lemma normalizeExecution_idem input ex rs :
  normalizeExecution input = Ok (ex, rs) -> normalizeExecution ex = Ok (ex, rs).
Proof.
  intros (Hs & l & _ & Hl & Hv & Hnd & -> & ->)%normalizeExecution_spec. apply normalizeExecution_spec.
  split; [done|]. exists (sort_on ec_Name String.compare l). cbn [Checks ScoreBasisPoints].
  rewrite (sort_on_idem ec_Name String.compare l Hnd).
  pose proof (sort_on_perm ec_Name String.compare l) as Hp. set (sorted := sort_on _ _ l) in *.
  assert (Hlen : slen sorted = slen l) by (unfold slen; by rewrite Hp).
  split_and!; try done; [lia|lia|by rewrite Hp..].
Qed.

Lemma failure_reasons_ok l :
  Forall (fun c => validCheckName (ec_Name c) = true) l ->
  Forall (fun x => reason_ok x = true) (failure_reasons l) /\ slen (failure_reasons l) <= slen l.
Proof.
  intros Hv. unfold failure_reasons, slen. rewrite length_map. split.
  - apply Forall_map, Forall_forall. intros c [_ Hc]%list_elem_of_filter.
    apply (proj1 (Forall_forall _ _) Hv) in Hc. apply reason_ok_token; [reflexivity|done|by apply validCheckName_token].
  - pose proof (length_filter (fun c => blocking_failure c = true) l). lia.
Qed.

(** ** Lemmas: the critic result *)

Definition has_evidence (r : CorroborationResult) : Prop :=
  Forall (fun d => entries d <> []) (elems (cr_Findings r)).

Lemma normalizeCriticResult_spec r limit n :
  normalizeCriticResult r limit = Ok n <->
  exists l m, cr_Findings r = Some l /\ slen l <= limit /\ findings_wf l /\ normalizeResult r = Ok m /\
    slen (Marshal (json_CorroborationResult m)) <= Corroboration.MaxResultBytes /\
    n = {| cr_SchemaVersion := Corroboration.SchemaVersion;
           cr_Findings := Some (map (fun d => sort_evidence d append_nil)
                                  (sort_on decision_id String.compare l));
           cr_Counts := cr_Counts r |}.
Proof.
  unfold normalizeCriticResult. destruct (Z.ltb_spec limit (slen (elems (cr_Findings r)))) as [Hl|Hl].
  { split; [done|]. intros (l & m & Hs & ? & _). rewrite Hs in Hl. cbn in Hl. lia. }
  unfold Corroboration.CanonicalResultBytes. destruct (normalizeResult r) as [m|] eqn:E; cbn [result_bind].
  2:{ split; [done|]. by intros (? & ? & _ & _ & _ & ? & _). }
  destruct (Z.ltb_spec Corroboration.MaxResultBytes (slen (Marshal (json_CorroborationResult m)))) as [Hb|Hb].
  { split; [done|]. intros (? & ? & _ & _ & _ & [= <-] & ? & _). lia. }
  pose proof E as (l & Hv & Hf & Hwf & _)%normalizeResult_spec. rewrite Hf in *. rewrite Hv. cbn [elems] in *.
  split.
  - intros [= <-]. exists l, m. done.
  - intros (? & ? & [= <-] & _ & _ & _ & _ & ->). done.
Qed.

Lemma sort_evidence_nonempty d : entries d <> [] -> sort_evidence d append_nil = sort_evidence d Some.
Proof.
  intros Hd. unfold sort_evidence. f_equal. fold (entries d).
  pose proof (sort_on_perm ed_ID String.compare (entries d)) as Hp.
  destruct (sort_on ed_ID String.compare (entries d)); [|done]. by apply Permutation_nil_l in Hp.
Qed.

(** With evidence for every finding, the projection is the canonical result. *)
Lemma critic_projection r m l :
  normalizeResult r = Ok m -> cr_Findings r = Some l -> Forall (fun d => entries d <> []) l ->
  {| cr_SchemaVersion := Corroboration.SchemaVersion;
     cr_Findings := Some (map (fun d => sort_evidence d append_nil) (sort_on decision_id String.compare l));
     cr_Counts := cr_Counts r |} = m.
Proof.
  intros (l' & _ & Hf & _ & Hc & ->)%normalizeResult_spec Hl Hne. rewrite Hf in Hl. injection Hl as ->.
  rewrite Hc. f_equal. f_equal. unfold canonical_findings. apply map_ext_in. intros d Hin%list_elem_of_In.
  rewrite sort_on_perm in Hin. apply sort_evidence_nonempty. by apply (proj1 (Forall_forall _ _) Hne).
Qed.

Lemma canonical_has_evidence l :
  Forall (fun d => entries d <> []) l -> Forall (fun d => entries d <> []) (canonical_findings l).
Proof.
  intros H. unfold canonical_findings. apply Forall_map. rewrite sort_on_perm.
  eapply Forall_impl; [exact H|]. cbv beta. intros d Hd Hnil. apply Hd.
  pose proof (entries_sorted d) as Hp. rewrite Hnil in Hp. by apply Permutation_nil_l in Hp.
Qed.

(** A second normalization succeeds exactly when every finding has evidence,
    and then changes nothing. *)
Lemma critic_again r limit n :
  normalizeCriticResult r limit = Ok n ->
  (has_evidence r -> normalizeCriticResult n limit = Ok n) /\
  (forall n', normalizeCriticResult n limit = Ok n' -> has_evidence r).
Proof.
  intros H. pose proof H as (l & m & Hl & Hlim & Hwf & Hm & Hb & ->)%normalizeCriticResult_spec.
  unfold has_evidence. rewrite Hl. cbn [elems]. split.
  - intros Hne. rewrite (critic_projection _ _ _ Hm Hl Hne). pose proof (canonical_fixed _ _ Hm) as Hfix.
    pose proof Hm as (l' & _ & Hl' & _ & _ & Hmeq)%normalizeResult_spec.
    rewrite Hl in Hl'. injection Hl' as <-.
    assert (Hmf : cr_Findings m = Some (canonical_findings l)) by (by rewrite Hmeq).
    apply normalizeCriticResult_spec. exists (canonical_findings l), m. split_and!; try done.
    + unfold canonical_findings, slen in *. by rewrite length_map, sort_on_perm.
    + by apply canonical_wf.
    + symmetry. apply critic_projection; try done. by apply canonical_has_evidence.
  - intros n' (l1 & m1 & Hl1 & _ & Hwf1 & _)%normalizeCriticResult_spec. cbn in Hl1.
    injection Hl1 as <-. pose proof (fw_each _ Hwf1) as Hall.
    rewrite Forall_map, sort_on_perm in Hall. eapply Forall_impl; [exact Hall|].
    intros d (_ & _ & _ & Hp & _) Hnil. unfold sort_evidence in Hp. cbn in Hp.
    fold (entries d) in Hp. by rewrite Hnil in Hp.
Qed.

Lemma blocking_count l :
  Forall finding_entry_ok l ->
  sumZ (fun d => b2z (finding_blocking d)) l = slen (filter (fun d => fd_Route d = RouteBlocking) l).
Proof.
  induction 1 as [|d l (_ & _ & _ & _ & _ & _ & Hr) _ IH]; [done|].
  rewrite filter_cons. cbn [sumZ foldr]. fold (sumZ (fun d => b2z (finding_blocking d)) l). rewrite IH.
  unfold slen. destruct (finding_blocking d).
  - rewrite decide_True by done. cbn [length b2z]. lia.
  - rewrite decide_False by (rewrite Hr; discriminate). cbn [b2z]. lia.
Qed.

(** Score and reasons of a valid critic result agree: zero exactly with a
    blocking finding, one reason per blocking finding. *)
Lemma critic_facts r limit n :
  normalizeCriticResult r limit = Ok n ->
  (criticScoreFor n = 0 \/ criticScoreFor n = GateScoreScale) /\
  slen (criticBlockingReasons n) <= Corroboration.MaxFindings /\
  Forall (fun x => reason_ok x = true) (criticBlockingReasons n) /\
  (criticBlockingReasons n = [] <-> Forall (fun d => fd_Route d <> RouteBlocking) (elems (cr_Findings r))) /\
  (criticScoreFor n = 0 <-> criticBlockingReasons n <> []).
Proof.
  intros (l & m & Hl & Hlim & Hwf & Hm & Hb & ->)%normalizeCriticResult_spec.
  pose proof Hm as (l' & _ & Hl' & _ & Hc & _)%normalizeResult_spec. rewrite Hl in Hl'. injection Hl' as <-.
  unfold criticScoreFor, criticBlockingReasons. cbn [cr_Findings cr_Counts elems]. rewrite Hl. cbn [elems].
  set (l1 := map _ (sort_on decision_id String.compare l)).
  set (blocking := filter (fun d => fd_Route d = RouteBlocking) l1).
  assert (Hp : map fd_Finding l1 ≡ₚ map fd_Finding l /\ map fd_Route l1 ≡ₚ map fd_Route l).
  { unfold l1. rewrite !map_map. cbn. by rewrite sort_on_perm. }
  assert (Hlen : length blocking = length (filter (fun d => fd_Route d = RouteBlocking) l)).
  { destruct Hp as [_ Hp]. unfold blocking. clear -Hp.
    assert (Hf : forall k : list FindingDecision, length (filter (fun d => fd_Route d = RouteBlocking) k) =
      length (filter (fun s => s = RouteBlocking) (map fd_Route k))).
    { induction k as [|d k IH]; [done|]. cbn [map]. rewrite !filter_cons. by case_decide; cbn; rewrite IH. }
    by rewrite !Hf, Hp. }
  assert (Hcount : BlockingFindings (cr_Counts r) = Z.of_nat (length blocking)).
  { rewrite Hc. cbn. rewrite (blocking_count l) by apply Hwf. unfold slen. lia. }
  assert (Hnil : map (fun d => "critic." +:+ f_ID (fd_Finding d)) blocking = [] <-> length blocking = 0%nat).
  { destruct blocking; cbn; split; done. }
  rewrite Hcount. split_and!.
  - destruct (_ <? _); auto.
  - unfold slen. rewrite length_map, Hlen. pose proof (length_filter (fun d => fd_Route d = RouteBlocking) l).
    pose proof (fw_bound _ Hwf). unfold slen in *. lia.
  - apply Forall_map, Forall_forall. intros d [_ Hd]%list_elem_of_filter.
    apply reason_ok_token; [reflexivity|done|].
    assert (Hin : fd_Finding d ∈ map fd_Finding l).
    { rewrite <- (proj1 Hp). apply list_elem_of_fmap. by exists d. }
    apply list_elem_of_fmap in Hin as (d' & -> & Hin').
    destruct (proj1 (Forall_forall _ _) (fw_each _ Hwf) d' Hin') as (Hv & _).
    unfold validateFinding in Hv. destruct (validateToken (f_ID _) _ _) as [[]|] eqn:Et; [|done].
    by eapply validateToken_token.
  - rewrite Hnil, Hlen. split.
    + intros Hz. apply Forall_forall. intros d Hin Hr.
      assert (d ∈ filter (fun d => fd_Route d = RouteBlocking) l) by (by apply list_elem_of_filter).
      destruct (filter _ l); [set_solver|done].
    + intros Hall. destruct (filter _ l) as [|d k] eqn:Ef; [done|].
      assert (Hin : d ∈ filter (fun d => fd_Route d = RouteBlocking) l) by (rewrite Ef; apply list_elem_of_here).
      apply list_elem_of_filter in Hin as [Hr Hin]. by destruct (proj1 (Forall_forall _ _) Hall d Hin).
  - rewrite Hnil. destruct (Z.ltb_spec 0 (Z.of_nat (length blocking))); unfold GateScoreScale; split; lia.
Qed.

(** ** Evaluation *)

Definition criticWeight (s : GateSignalsSpec) : Z :=
  match Critic s with Some c => WeightBasisPoints c | None => 0 end.

Lemma normalizeSignals_facts input s :
  normalizeSignals input = Ok s ->
  normalizeSignals (Some s) = Ok s /\ 0 <= ExecutionWeightBasisPoints s /\ 0 <= criticWeight s /\
  ExecutionWeightBasisPoints s + criticWeight s = GateScoreScale /\
  0 <= MinScoreBasisPoints s <= GateScoreScale /\
  match Critic s with Some c => 1 <= MaxFindings c <= MaxCriticFindings | None => True end.
Proof.
  intros H. destruct input as [o|].
  - assert (s = o) as ->. { unfold normalizeSignals in H. repeat case_match; try discriminate H; by injection H. }
    split; [done|]. unfold normalizeSignals in H. unfold criticWeight.
    destruct (_ || _) eqn:E1 in H; [done|]. destruct (_ || _) eqn:E2 in H; [done|].
    destruct (Critic o) as [c|].
    + destruct (_ || _) eqn:E3 in H; [done|]. destruct (_ || _) eqn:E4 in H; [done|].
      destruct (negb _) in H; [done|]. destruct (_ || _) eqn:E6 in H; [done|]. breflect. lia.
    + destruct (_ || _) eqn:E3 in H; [done|]. breflect. lia.
  - cbn in H. injection H as <-. split; [done|]. cbn. unfold GateScoreScale. lia.
Qed.

Lemma weightedScore_ok e s c :
  0 <= e <= GateScoreScale -> 0 <= c <= GateScoreScale ->
  0 <= ExecutionWeightBasisPoints s -> 0 <= criticWeight s ->
  ExecutionWeightBasisPoints s + criticWeight s = GateScoreScale ->
  let w := (e * ExecutionWeightBasisPoints s + c * criticWeight s) / GateScoreScale in
  weightedScore e s c = Ok w /\ Z.min e c <= w <= Z.max e c.
Proof.
  intros He Hc Hw1 Hw2 Hsum w. unfold weightedScore. fold (criticWeight s).
  replace (_ || _) with false by (symmetry; breflect; lia).
  rewrite (proj2 (Z.eqb_eq _ _) Hsum). cbn [negb].
  assert (Hpos : 0 <= e * ExecutionWeightBasisPoints s + c * criticWeight s) by nia.
  rewrite Z.quot_div_nonneg by (unfold GateScoreScale; lia). split; [done|].
  unfold w, GateScoreScale in *. split.
  - apply Z.div_le_lower_bound; [lia|]. nia.
  - apply Z.div_le_upper_bound; [lia|]. nia.
Qed.

(** What [Evaluate] computes from its normalized parts. *)
Definition scored (signals : GateSignalsSpec) (execution : ExecutionSignal)
  (critic : option CorroborationResult) (criticScore weighted : Z) (reasons : list string) : Result :=
  {| r_SchemaVersion := SchemaVersion; r_Signals := signals;
     r_ExecutionScoreBasisPoints := ScoreBasisPoints execution;
     r_CriticScoreBasisPoints := criticScore; r_WeightedScoreBasisPoints := weighted;
     r_ExecutionChecks := Checks execution; r_CriticResult := critic;
     r_BlockingReasons := Some reasons;
     r_Verdict := if 0 <? slen reasons then Rejected else Accepted |}.

Definition all_reasons (signals : GateSignalsSpec) (weighted : Z) (executionReasons criticReasons : list string)
  : list string :=
  executionReasons ++ criticReasons ++
  (if weighted <? MinScoreBasisPoints signals then ["score.minimum"%string] else []).

(** Every critic finding has evidence, where a critic is enabled. *)
Definition critic_evidenced (critic : option CorroborationResult) : Prop :=
  match critic with Some r => has_evidence r | None => True end.

Lemma critic_part_facts signals critic field cr cs rs :
  critic_part signals critic field = Ok (cr, cs, rs) ->
  0 <= cs <= GateScoreScale /\ slen rs <= Corroboration.MaxFindings /\
  Forall (fun x => reason_ok x = true) rs /\ (cs = 0 <-> rs <> []) /\
  (rs = [] <-> match critic with
               | Some r => Forall (fun d => fd_Route d <> RouteBlocking) (elems (cr_Findings r))
               | None => True
               end).
Proof.
  unfold critic_part. destruct (Critic signals) as [c|], critic as [r|]; try done.
  - intros H. apply result_bind_ok in H as (n & Hn & H). injection H as <- <- <-.
    destruct (critic_facts _ _ _ Hn) as (Hs & Hl & Hok & Hnil & Hz).
    split_and!; try tauto; destruct Hs as [-> | ->]; unfold GateScoreScale; lia.
  - intros [= <- <- <-]. unfold GateScoreScale. split_and!; try done; try lia.
Qed.

Lemma critic_part_again signals critic field cr cs rs field' :
  critic_part signals critic field = Ok (cr, cs, rs) ->
  (critic_evidenced critic -> critic_part signals cr field' = Ok (cr, cs, rs)) /\
  (forall x, critic_part signals cr field' = Ok x -> critic_evidenced critic).
Proof.
  unfold critic_part, critic_evidenced. destruct (Critic signals) as [c|], critic as [r|]; try done.
  - intros H. apply result_bind_ok in H as (n & Hn & H). injection H as <- <- <-.
    destruct (critic_again _ _ _ Hn) as [H1 H2]. split.
    + intros He. by rewrite (H1 He).
    + intros x Hx. apply result_bind_ok in Hx as (n' & Hn' & _). by eapply H2.
  - intros [= <- <- <-]. done.
Qed.

Lemma reasons_agree signals weighted er cr :
  slen er <= MaxExecutionChecks -> slen cr <= Corroboration.MaxFindings ->
  (if weighted <? MinScoreBasisPoints signals
   then normalizeReasons (normalizeReasons (er ++ cr) ++ ["score.minimum"%string])
   else normalizeReasons (er ++ cr)) = normalizeReasons (all_reasons signals weighted er cr).
Proof.
  intros He Hc. unfold all_reasons. rewrite app_assoc. destruct (_ <? _); [|by rewrite app_nil_r].
  apply normalizeReasons_again. etransitivity; [apply unique_length|].
  unfold slen, MaxBlockingReasons in *. rewrite length_app. lia.
Qed.

Lemma verdict_agree (l : list string) :
  (if negb (slen l =? 0) then Rejected else Accepted) = (if 0 <? slen l then Rejected else Accepted).
Proof. destruct l; done. Qed.

(** [canonicalizeResult] on what [Evaluate] has computed. *)
Lemma canonicalize_scored signals execution er cr cs weighted rs :
  normalizeSignals (Some signals) = Ok signals -> normalizeExecution execution = Ok (execution, er) ->
  slen er <= MaxExecutionChecks -> slen rs <= Corroboration.MaxFindings ->
  weightedScore (ScoreBasisPoints execution) signals cs = Ok weighted ->
  let r := scored signals execution cr cs weighted (normalizeReasons (all_reasons signals weighted er rs)) in
  critic_part signals cr "result.criticResult" = Ok (cr, cs, rs) -> canonicalizeResult r = Ok r.
Proof.
  intros Hs He Hle Hlr Hw r Hc. unfold canonicalizeResult. cbn [r scored r_SchemaVersion r_Signals
    r_ExecutionScoreBasisPoints r_ExecutionChecks r_CriticResult r_CriticScoreBasisPoints
    r_WeightedScoreBasisPoints r_BlockingReasons r_Verdict].
  rewrite bool_decide_eq_true_2 by done. cbn [negb]. rewrite Hs. cbn [result_bind].
  destruct execution as [sc ch]. cbn [ScoreBasisPoints Checks] in *. rewrite He. cbn [result_bind].
  rewrite Hc. cbn [result_bind ScoreBasisPoints Checks]. rewrite Hw. cbn [result_bind].
  rewrite reasons_agree by done. rewrite verdict_agree. cbn [present elems negb].
  rewrite !Z.eqb_refl, !bool_decide_eq_true_2 by done. done.
Qed.

Lemma evaluate_spec input r :
  Evaluate input = Ok r <->
  exists signals execution er cr cs rs weighted,
    normalizeSignals (in_Signals input) = Ok signals /\
    normalizeExecution (in_Execution input) = Ok (execution, er) /\
    critic_part signals (in_Critic input) "critic" = Ok (cr, cs, rs) /\
    critic_evidenced (in_Critic input) /\
    weightedScore (ScoreBasisPoints execution) signals cs = Ok weighted /\
    r = scored signals execution cr cs weighted (normalizeReasons (all_reasons signals weighted er rs)).
Proof.
  unfold Evaluate. destruct (normalizeSignals (in_Signals input)) as [s|] eqn:Es; cbn [result_bind].
  2:{ split; [done|]. by intros (? & ? & ? & ? & ? & ? & ? & ? & _). }
  destruct (normalizeExecution (in_Execution input)) as [[ex er]|] eqn:Ee; cbn [result_bind].
  2:{ split; [done|]. by intros (? & ? & ? & ? & ? & ? & ? & _ & ? & _). }
  destruct (critic_part s (in_Critic input) "critic") as [[[cr cs] rs]|] eqn:Ec; cbn [result_bind].
  2:{ split; [done|]. intros (? & ? & ? & ? & ? & ? & ? & [= <-] & _ & ? & _). congruence. }
  destruct (weightedScore (ScoreBasisPoints ex) s cs) as [w|] eqn:Ew; cbn [result_bind].
  2:{ split; [done|]. intros (? & ? & ? & ? & ? & ? & ? & [= <-] & [= <- <-] & Hc & _ & ? & _). congruence. }
  pose proof Es as (Hs & _)%normalizeSignals_facts. pose proof Ee as Hex%normalizeExecution_idem.
  pose proof Ec as (_ & Hlr & _)%critic_part_facts.
  assert (Hle : slen er <= MaxExecutionChecks).
  { apply normalizeExecution_spec in Ee as (_ & l & _ & Hl & Hv & _ & _ & ->).
    pose proof (sort_on_perm ec_Name String.compare l) as Hp.
    assert (Hlen : slen (sort_on ec_Name String.compare l) = slen l) by (unfold slen; by rewrite Hp).
    destruct (failure_reasons_ok (sort_on ec_Name String.compare l)) as [_ ?]; [by rewrite Hp|]. lia. }
  destruct (critic_part_again _ _ _ _ _ _ "result.criticResult" Ec) as [Hagain Hneed].
  fold (all_reasons s w er rs). set (reasons := normalizeReasons (all_reasons s w er rs)).
  fold (scored s ex cr cs w reasons). split.
  - intros H. assert (He : critic_evidenced (in_Critic input)).
    { unfold canonicalizeResult in H. cbn [scored r_SchemaVersion r_Signals r_ExecutionScoreBasisPoints
        r_ExecutionChecks r_CriticResult] in H.
      rewrite bool_decide_eq_true_2 in H by done. cbn [negb] in H. rewrite Hs in H. cbn [result_bind] in H.
      inv_bind H. destruct a as [ex' er']. inv_bind H. by eapply Hneed. }
    exists s, ex, er, cr, cs, rs, w. split_and!; try done.
    pose proof (canonicalize_scored s ex er cr cs w rs Hs Hex Hle Hlr Ew (Hagain He)) as Hcan.
    cbv zeta in Hcan. fold reasons in Hcan.
    change (canonicalizeResult (scored s ex cr cs w reasons) = Ok r) in H.
    rewrite Hcan in H. injection H as <-. done.
  - intros (? & ? & ? & ? & ? & ? & ? & [= <-] & [= <- <-] & Hc & He & Hw & ->).
    rewrite Ec in Hc. injection Hc as <- <- <-. rewrite Ew in Hw. injection Hw as <-.
    by apply canonicalize_scored; [..|apply Hagain].
Qed.

Lemma all_reasons_ok signals weighted er rs :
  Forall (fun x => reason_ok x = true) er -> Forall (fun x => reason_ok x = true) rs ->
  Forall (fun x => reason_ok x = true) (all_reasons signals weighted er rs).
Proof.
  intros He Hr. unfold all_reasons. apply Forall_app_2; [done|]. apply Forall_app_2; [done|].
  destruct (_ <? _); repeat constructor.
Qed.

(** At most 64 execution reasons, 256 critic reasons and the minimum-score
    reason compete for 320 places; the last in order gives way, and that is
    never a veto. *)
Lemma veto_kept signals weighted er rs x :
  slen er <= MaxExecutionChecks -> slen rs <= Corroboration.MaxFindings ->
  reason_ok x = true -> String.compare x "score.minimum" = Lt -> x ∈ er ++ rs ->
  x ∈ normalizeReasons (all_reasons signals weighted er rs).
Proof.
  intros He Hr Hok Hlt Hin. destruct (unique_spec (all_reasons signals weighted er rs)) as (Hs & Hnd & Hu).
  unfold normalizeReasons. set (u := unique_reasons None _) in *.
  assert (Hx : x ∈ u).
  { apply Hu. split; [|done]. unfold all_reasons. rewrite app_assoc. apply elem_of_app. by left. }
  destruct (Z.ltb_spec MaxBlockingReasons (slen u)) as [Hlong|]; [|done].
  change (Z.to_nat MaxBlockingReasons) with 320%nat. unfold slen, MaxBlockingReasons, MaxExecutionChecks,
    Corroboration.MaxFindings in *.
  rewrite <- (take_drop 320 u) in Hx. apply elem_of_app in Hx as [Hx|Hx]; [done|]. exfalso.
  assert (Hsm : "score.minimum"%string ∈ u).
  { destruct (decide ("score.minimum"%string ∈ u)) as [|Hno]; [done|exfalso].
    assert (Hsub : u ⊆+ er ++ rs).
    { apply NoDup_submseteq; [done|]. intros y Hy. apply Hu in Hy as Hy'. destruct Hy' as [Hy' _].
      unfold all_reasons in Hy'. rewrite app_assoc in Hy'. apply elem_of_app in Hy' as [?|Hy']; [done|].
      destruct (_ <? _); [|set_solver]. apply list_elem_of_singleton in Hy' as ->. done. }
    apply submseteq_length in Hsub. rewrite length_app in Hsub. lia. }
  assert (Hlen : (length u <= 321)%nat).
  { pose proof (unique_length (all_reasons signals weighted er rs)) as Hul. fold u in Hul.
    unfold slen, all_reasons in Hul. rewrite !length_app in Hul.
    destruct (_ <? _); cbn [length] in Hul; lia. }
  assert (Hdrop : drop 320 u = [x]).
  { destruct (drop 320 u) as [|y [|z k]] eqn:Ed; [by apply not_elem_of_nil in Hx| |].
    - by apply list_elem_of_singleton in Hx as ->.
    - apply (f_equal length) in Ed. rewrite length_drop in Ed. cbn in Ed. lia. }
  rewrite <- (take_drop 320 u), elem_of_app, Hdrop in Hsm.
  destruct Hsm as [Hsm|Hsm%list_elem_of_singleton]; [|by rewrite <- Hsm in Hlt].
  assert (Hle : String.le "score.minimum" x).
  { rewrite <- (take_drop 320 u) in Hs. apply StronglySorted_app in Hs as (Hcross & _). by apply Hcross. }
  unfold String.le, String.leb in Hle. rewrite String.compare_antisym, Hlt in Hle. done.
Qed.

Lemma failure_reasons_nil l :
  failure_reasons l = [] <-> Forall (fun c => ec_Blocking c = true -> ec_Passed c = true) l.
Proof.
  unfold failure_reasons. induction l as [|c l IH]; [done|].
  rewrite filter_cons, Forall_cons, <- IH. case_decide as Hb; unfold blocking_failure in Hb.
  - cbn. split; [done|]. breflect. destruct Hb as [Hb Hp]. intros [H _]. rewrite H in Hp; done.
  - destruct (ec_Blocking c), (ec_Passed c); cbn in *; intuition.
Qed.

(** C19. A score never outweighs a veto.  When evaluation succeeds, the
    verdict is Accepted exactly when every blocking check passed, no critic
    finding is routed as blocking and the weighted score reaches the minimum;
    the score is the weighted mean of both signals rounded down, between them;
    and each failed blocking check and each blocking finding is named among
    the blocking reasons. *)
Theorem evaluate_verdict input r (H : Evaluate input = Ok r) :
  let checks := elems (Checks (in_Execution input)) in
  let findings := match in_Critic input with Some c => elems (cr_Findings c) | None => [] end in
  let e := ScoreBasisPoints (in_Execution input) in
  (r_Verdict r = Accepted \/ r_Verdict r = Rejected) /\
  (r_Verdict r = Accepted <->
   Forall (fun c => ec_Blocking c = true -> ec_Passed c = true) checks /\
   Forall (fun d => fd_Route d <> RouteBlocking) findings /\
   MinScoreBasisPoints (r_Signals r) <= r_WeightedScoreBasisPoints r) /\
  r_WeightedScoreBasisPoints r =
    (e * ExecutionWeightBasisPoints (r_Signals r) +
     r_CriticScoreBasisPoints r * criticWeight (r_Signals r)) / GateScoreScale /\
  Z.min e (r_CriticScoreBasisPoints r) <= r_WeightedScoreBasisPoints r <= Z.max e (r_CriticScoreBasisPoints r) /\
  (r_CriticScoreBasisPoints r = 0 <-> ~ Forall (fun d => fd_Route d <> RouteBlocking) findings) /\
  (forall c, c ∈ checks -> ec_Blocking c = true -> ec_Passed c = false ->
     ("execution." +:+ ec_Name c) ∈ elems (r_BlockingReasons r)).
Proof.
  apply evaluate_spec in H as (s & ex & er & cr & cs & rs & w & Hs & He & Hc & _ & Hw & ->).
  destruct (normalizeSignals_facts _ _ Hs) as (_ & Hw1 & Hw2 & Hsum & Hmin & _).
  destruct (critic_part_facts _ _ _ _ _ _ Hc) as (Hcs & Hlr & Hokr & Hz & Hnil).
  apply normalizeExecution_spec in He as (Hsc & l & Hl & Hbl & Hv & _ & -> & ->).
  rewrite Hl. cbn [scored r_Verdict r_Signals r_WeightedScoreBasisPoints r_CriticScoreBasisPoints
    r_BlockingReasons elems ScoreBasisPoints] in *.
  destruct (weightedScore_ok _ _ _ Hsc Hcs Hw1 Hw2 Hsum) as [Hwok Hbounds].
  rewrite Hwok in Hw. injection Hw as <-. set (w := (_ + _) / _) in *.
  pose proof (sort_on_perm ec_Name String.compare l) as Hp. set (sorted := sort_on _ _ l) in *.
  destruct (failure_reasons_ok sorted) as [Hoke Hle]; [by rewrite Hp|].
  assert (Hle' : slen (failure_reasons sorted) <= MaxExecutionChecks).
  { assert (slen sorted = slen l) by (unfold slen; by rewrite Hp). lia. }
  set (reasons := normalizeReasons _).
  assert (Hver : (0 <? slen reasons) = false <->
    failure_reasons sorted = [] /\ rs = [] /\ MinScoreBasisPoints s <= w).
  { rewrite Z.ltb_ge. transitivity (reasons = []).
    { unfold slen. destruct reasons; cbn; split; try done; lia. }
    unfold reasons. rewrite normalizeReasons_nil by (by apply all_reasons_ok).
    unfold all_reasons. destruct (Z.ltb_spec w (MinScoreBasisPoints s)).
    - split; [|lia]. intros E. by apply app_eq_nil in E as [_ [_ E]%app_eq_nil].
    - rewrite app_nil_r. split; [intros [-> ->]%app_eq_nil; done|]. by intros (-> & -> & _). }
  assert (Hfail : failure_reasons sorted = [] <->
    Forall (fun c => ec_Blocking c = true -> ec_Passed c = true) l).
  { rewrite <- Hp. apply failure_reasons_nil. }
  assert (Hnil' : rs = [] <-> Forall (fun d => fd_Route d <> RouteBlocking)
    match in_Critic input with Some c => elems (cr_Findings c) | None => [] end).
  { rewrite Hnil. by destruct (in_Critic input). }
  split_and!; try done.
  - destruct (_ <? _); auto.
  - rewrite <- Hfail, <- Hnil', <- Hver. by destruct (0 <? slen reasons).
  - apply Hbounds.
  - apply Hbounds.
  - by rewrite <- Hnil'.
  - intros c Hin Hbk Hps. apply veto_kept; try done.
    + apply reason_ok_token; [reflexivity|done|]. apply validCheckName_token.
      by apply (proj1 (Forall_forall _ _) Hv).
    + apply elem_of_app. left. apply list_elem_of_fmap. exists c. split; [done|].
      apply list_elem_of_filter. rewrite Hp. unfold blocking_failure. by rewrite Hbk, Hps.
Qed.

Lemma evaluate_fixed input r : Evaluate input = Ok r -> canonicalizeResult r = Ok r.
Proof.
  intros H. pose proof H as (s & ex & er & cr & cs & rs & w & Hs & He & Hc & Hev & Hw & ->)%evaluate_spec.
  unfold Evaluate in H. rewrite Hs, He in H. cbn [result_bind] in H. rewrite Hc in H.
  cbn [result_bind] in H. rewrite Hw in H. exact H.
Qed.

(** A result of [Evaluate] is its own canonical form, so its bytes and
    digest are reproducible from the stored value. *)
Theorem evaluate_canonical input r (H : Evaluate input = Ok r) : canonicalizeResult r = Ok r.
Proof. by eapply evaluate_fixed. Qed.

Lemma evaluate_exists input s ex er :
  normalizeSignals (in_Signals input) = Ok s -> normalizeExecution (in_Execution input) = Ok (ex, er) ->
  (exists r, Evaluate input = Ok r) <->
  (exists x, critic_part s (in_Critic input) "critic" = Ok x) /\ critic_evidenced (in_Critic input).
Proof.
  intros Es Ee. setoid_rewrite evaluate_spec. split.
  - intros (r & s0 & ex0 & er0 & cr & cs & rs & w & Hs & He & Hc & Hev & _).
    rewrite Es in Hs. injection Hs as <-. eauto.
  - intros ([[[cr cs] rs] Hc] & Hev). pose proof Hc as (Hcs & _)%critic_part_facts.
    destruct (normalizeSignals_facts _ _ Es) as (_ & Hw1 & Hw2 & Hsum & _).
    pose proof Ee as (Hsc & l & _ & _ & _ & _ & Hex & _)%normalizeExecution_spec.
    assert (Hsc' : 0 <= ScoreBasisPoints ex <= GateScoreScale) by (by rewrite Hex).
    destruct (weightedScore_ok _ _ _ Hsc' Hcs Hw1 Hw2 Hsum) as [Hw _].
    do 8 eexists. split_and!; done.
Qed.

Lemma critic_part_exists signals critic field :
  (exists x, critic_part signals critic field = Ok x) /\ critic_evidenced critic <->
  match Critic signals, critic with
  | Some c, Some result =>
    slen (elems (cr_Findings result)) <= MaxFindings c /\
    is_ok (Corroboration.CanonicalResultBytes result) = true /\
    Forall (fun d => elems (fd_Evidence d) <> []) (elems (cr_Findings result))
  | None, None => True
  | _, _ => False
  end.
Proof.
  unfold critic_part, critic_evidenced, has_evidence, entries. destruct (Critic signals) as [c|], critic as [r|].
  - unfold normalizeCriticResult. destruct (Z.ltb_spec (MaxFindings c) (slen (elems (cr_Findings r)))).
    { split; [by intros [[? ?] _]|lia]. }
    destruct (Corroboration.CanonicalResultBytes r); cbn.
    + split; [intros [_ ?]; done|]. intros (_ & _ & ?). eauto.
    + split; [intros [[x Hx] _]; done|]. by intros (_ & ? & _).
  - split; [by intros [[? ?] _]|done].
  - split; [by intros [[? ?] _]|done].
  - split; [done|]. split; [eauto|done].
Qed.

Lemma is_ok_exists {E A : Type} (m : Prelude.result E A) : is_ok m = true <-> exists a, m = Ok a.
Proof. destruct m; cbn; split; [eauto|done|done|by intros [? ?]]. Qed.

(** When [Evaluate] succeeds. *)
Lemma evaluate_succeeds input :
  is_ok (Evaluate input) = true <->
  is_ok (normalizeSignals (in_Signals input)) = true /\
  is_ok (normalizeExecution (in_Execution input)) = true /\
  match match in_Signals input with Some s => Critic s | None => None end, in_Critic input with
  | Some c, Some result =>
    slen (elems (cr_Findings result)) <= MaxFindings c /\
    is_ok (Corroboration.CanonicalResultBytes result) = true /\
    Forall (fun d => elems (fd_Evidence d) <> []) (elems (cr_Findings result))
  | None, None => True
  | _, _ => False
  end.
Proof.
  rewrite !is_ok_exists. destruct (normalizeSignals (in_Signals input)) as [s|] eqn:Es.
  2:{ split; [|by intros [[? ?] _]]. intros [r Hr]. unfold Evaluate in Hr. by rewrite Es in Hr. }
  destruct (normalizeExecution (in_Execution input)) as [[ex er]|] eqn:Ee.
  2:{ split; [|by intros (_ & [? ?] & _)]. intros [r Hr]. unfold Evaluate in Hr. by rewrite Es, Ee in Hr. }
  assert (Hcr : match in_Signals input with Some s => Critic s | None => None end = Critic s).
  { destruct (in_Signals input) as [o|]; [|by injection Es as <-].
    unfold normalizeSignals in Es. repeat case_match; try discriminate Es; by injection Es as <-. }
  rewrite Hcr, (evaluate_exists _ _ _ _ Es Ee), critic_part_exists. split; [|tauto]. eauto.
Qed.

(** C21. When every finding of the critic carries some evidence, [Evaluate] fails
    only on malformed input: it succeeds exactly on valid signals, valid execution
    evidence and, with a critic enabled, a valid corroboration result of at most the
    configured number of findings; a critic's result without a critic in the
    signals, or the reverse, is an error. *)
Theorem evaluate_succeeds_iff input (Hevidence : critic_evidenced (in_Critic input)) :
  is_ok (Evaluate input) = true <->
  is_ok (normalizeSignals (in_Signals input)) = true /\
  is_ok (normalizeExecution (in_Execution input)) = true /\
  match match in_Signals input with Some s => Critic s | None => None end, in_Critic input with
  | Some c, Some result => slen (elems (cr_Findings result)) <= MaxFindings c /\ is_ok (Corroboration.CanonicalResultBytes result) = true
  | None, None => True
  | _, _ => False
  end.
Proof.
  rewrite evaluate_succeeds. destruct (match in_Signals input with Some s => _ | None => _ end), (in_Critic input) as [r|]; try done.
  cbn [critic_evidenced] in Hevidence. unfold has_evidence, entries in Hevidence. tauto.
Qed.

(** ** A concrete evaluation *)

Definition sample_signals : GateSignalsSpec :=
  {| ExecutionWeightBasisPoints := 6000;
     Critic := Some {| WeightBasisPoints := 4000; ModelRouteRef := "critic-route"; MaxFindings := 8 |};
     MinScoreBasisPoints := 9000 |}.

Definition sample_scoring (findings : list CriticFinding) (passed : bool) : Input :=
  {| in_Signals := Some sample_signals;
     in_Execution := {| ScoreBasisPoints := 10000;
       Checks := Some [{| ec_Name := "tests"; ec_Passed := passed; ec_Blocking := true |}] |};
     in_Critic := match Corroborate (sample_run findings) with Ok r => Some r | Err _ => None end |}.

Lemma evaluate_verdict_witness :
  exists r, Evaluate (sample_scoring [sample_finding "bug"] false) = Ok r /\
    r_CriticScoreBasisPoints r = 0 /\ r_Verdict r = Rejected /\
    "execution.tests"%string ∈ elems (r_BlockingReasons r).
Proof.
  destruct (Evaluate (sample_scoring [sample_finding "bug"] false)) as [r|] eqn:E;
    [|vm_compute in E; discriminate E].
  exists r. split; [reflexivity|].
  destruct (evaluate_verdict _ _ E) as (_ & _ & _ & _ & _ & Hveto). split_and!.
  - vm_compute in E. by injection E as <-.
  - vm_compute in E. by injection E as <-.
  - refine (Hveto {| ec_Name := "tests"; ec_Passed := false; ec_Blocking := true |} _ eq_refl eq_refl).
    apply list_elem_of_here.
Defined.

Lemma evaluate_canonical_witness :
  exists r, Evaluate (sample_scoring [sample_finding "bug"] true) = Ok r /\ canonicalizeResult r = Ok r.
Proof.
  destruct (Evaluate (sample_scoring [sample_finding "bug"] true)) as [r|] eqn:E;
    [|vm_compute in E; discriminate E].
  exists r. split; [reflexivity|]. exact (evaluate_canonical _ _ E).
Defined.

Lemma evaluate_succeeds_iff_witness : critic_evidenced (in_Critic (sample_scoring [sample_finding "bug"] true)) /\
  is_ok (Evaluate (sample_scoring [sample_finding "bug"] true)) = true.
Proof.
  assert (H : critic_evidenced (in_Critic (sample_scoring [sample_finding "bug"] true))) by (vm_compute; repeat constructor; discriminate).
  split; [exact H|]. apply (evaluate_succeeds_iff _ H). vm_compute. split_and!; try reflexivity. discriminate.
Defined.

(** The finding "note" has no evidence: routing succeeds, scoring fails. *)
Example evaluate_rejects_unevidenced :
  is_ok (Corroborate (sample_run sample_findings)) = true /\
  Evaluate (sample_scoring sample_findings true) = Err (ErrInvalidInput "critic corroboration").
Proof. split; vm_compute; reflexivity. Qed.

(** A reference that starts with a dot has an empty first label, which the
    API pattern for route names excludes. *)
Example validRouteRef_leading_dot : validRouteRef ".critic" = true /\ validRouteRef "critic..route" = false.
Proof. split; vm_compute; reflexivity. Qed.
