(* ===== verification/Base64.v ===== *)
(** * [base64.RawStdEncoding]

    The unpadded standard encoding the report envelope uses for its public
    key and signature.  The decoder skips carriage returns and newlines and
    does not reject non-zero trailing bits, as the Go decoder does without
    [Strict]. *)

From S2P Require Import Prelude GoStrings.
Local Open Scope Z_scope.

Definition sextet (d : Z) : Z :=
  if d <? 26 then 0x41 + d
  else if d <? 52 then 0x61 + (d - 26)
  else if d <? 62 then 0x30 + (d - 52)
  else if d =? 62 then 0x2B else 0x2F.

Definition unsextet (b : Z) : option Z :=
  if between 0x41 0x5A b then Some (b - 0x41)
  else if between 0x61 0x7A b then Some (b - 0x61 + 26)
  else if between 0x30 0x39 b then Some (b - 0x30 + 52)
  else if b =? 0x2B then Some 62
  else if b =? 0x2F then Some 63
  else None.

Fixpoint encode (l : list Z) : list Z :=
  match l with
  | [] => []
  | [a] => [sextet (a / 4); sextet (a mod 4 * 16)]
  | [a; b] => [sextet (a / 4); sextet (a mod 4 * 16 + b / 16); sextet (b mod 16 * 4)]
  | a :: b :: c :: rest =>
    sextet (a / 4) :: sextet (a mod 4 * 16 + b / 16) :: sextet (b mod 16 * 4 + c / 64) ::
    sextet (c mod 64) :: encode rest
  end.

(** Groups of four digits; a final group of one digit is an error. *)
Fixpoint decode_digits (l : list Z) : option (list Z) :=
  match l with
  | [] => Some []
  | [_] => None
  | [a; b] => Some [a * 4 + b / 16]
  | [a; b; c] => Some [a * 4 + b / 16; b mod 16 * 16 + c / 4]
  | a :: b :: c :: d :: rest =>
    match decode_digits rest with
    | Some tail => Some (a * 4 + b / 16 :: b mod 16 * 16 + c / 4 :: c mod 4 * 64 + d :: tail)
    | None => None
    end
  end.

Definition EncodeToString (l : list Z) : string := of_bytes (encode l).
Definition DecodeString (s : string) : option (list Z) :=
  match mapM unsextet (filter (fun b => b <> 0x0D /\ b <> 0x0A) (bytes s)) with
  | Some digits => decode_digits digits
  | None => None
  end.

Lemma sextet_range d : 0 <= d < 64 -> 0x2B <= sextet d <= 0x7A /\ unsextet (sextet d) = Some d.
Proof.
  intros H.
  assert (Hall : forallb (fun n => let d := Z.of_nat n in
    (0x2B <=? sextet d) && (sextet d <=? 0x7A) && bool_decide (unsextet (sextet d) = Some d))
    (seq 0 64) = true) by (vm_compute; reflexivity).
  apply forallb_true, Forall_forall with (x := Z.to_nat d) in Hall; [|apply elem_of_seq; lia].
  rewrite Z2Nat.id in Hall by lia. breflect. destruct Hall as [[? ?] ?]. split; [lia|done].
Qed.

(** Induction by three bytes at a time. *)
Lemma triples_ind (P : list Z -> Prop) :
  P [] -> (forall a, P [a]) -> (forall a b, P [a; b]) ->
  (forall a b c l, P l -> P (a :: b :: c :: l)) -> forall l, P l.
Proof.
  intros H0 H1 H2 H3. fix IH 1. intros [|a [|b [|c l]]]; [done|apply H1|apply H2|apply H3, IH].
Qed.

Definition digit (d : Z) : Prop := 0 <= d < 64.

(** The digits the encoder writes. *)
Fixpoint digits (l : list Z) : list Z :=
  match l with
  | [] => []
  | [a] => [a / 4; a mod 4 * 16]
  | [a; b] => [a / 4; a mod 4 * 16 + b / 16; b mod 16 * 4]
  | a :: b :: c :: rest =>
    a / 4 :: a mod 4 * 16 + b / 16 :: b mod 16 * 4 + c / 64 :: c mod 64 :: digits rest
  end.

Lemma encode_digits l : encode l = map sextet (digits l).
Proof. induction l as [| | |a b c l IH] using triples_ind; cbn; [done..|]. by rewrite IH. Qed.

Lemma digits_range l : Forall is_byte l -> Forall digit (digits l).
Proof.
  unfold is_byte, digit. induction l as [|a|a b|a b c l IH] using triples_ind; intros H;
    repeat (apply Forall_cons in H as [? H]); cbn; repeat constructor; auto; Z.div_mod_to_equations; lia.
Qed.

Lemma decode_digits_spec l : Forall is_byte l -> decode_digits (digits l) = Some l.
Proof.
  unfold is_byte. induction l as [|a|a b|a b c l IH] using triples_ind; intros H;
    repeat (apply Forall_cons in H as [? H]); cbn; [done|..].
  - do 2 f_equal. Z.div_mod_to_equations; lia.
  - do 2 f_equal; [|f_equal]; Z.div_mod_to_equations; lia.
  - rewrite IH by done. do 2 f_equal; [|f_equal; [|f_equal]]; Z.div_mod_to_equations; lia.
Qed.

Lemma unsextet_digits ds :
  Forall digit ds ->
  mapM unsextet (filter (fun b => b <> 0x0D /\ b <> 0x0A) (map sextet ds)) = Some ds.
Proof.
  induction 1 as [|d ds Hd _ IH]; [done|]. cbn [map]. destruct (sextet_range d Hd) as [Hr Hu].
  rewrite filter_cons, decide_True by lia. cbn. by rewrite Hu, IH.
Qed.

Lemma DecodeString_EncodeToString l : Forall is_byte l -> DecodeString (EncodeToString l) = Some l.
Proof.
  intros Hl. unfold DecodeString, EncodeToString. rewrite encode_digits.
  pose proof (digits_range l Hl) as Hd. rewrite bytes_of_bytes.
  - by rewrite unsextet_digits, decode_digits_spec.
  - apply Forall_map. eapply Forall_impl; [exact Hd|]. cbn. intros d H.
    destruct (sextet_range d H). unfold is_byte. lia.
Qed.

Lemma EncodeToString_len l : Forall is_byte l -> len (EncodeToString l) <= 4 * slen l.
Proof.
  intros Hl. unfold EncodeToString. rewrite len_bytes, bytes_of_bytes.
  - unfold slen. induction l as [|a|a b|a b c l IH] using triples_ind; cbn; try lia.
    repeat (apply Forall_cons in Hl as [_ Hl]). specialize (IH Hl). cbn in IH. lia.
  - rewrite encode_digits. apply Forall_map. eapply Forall_impl; [by apply digits_range|]. cbn. intros d H.
    destruct (sextet_range d H). unfold is_byte. lia.
Qed.
