(* ===== verification/GateReport.v ===== *)
(** * Verification reports (src/v3/internal/gate/report.go)

    A Gate decision becomes a canonical report that binds the run, the
    immutable inputs, the evidence, the checks and the scoring projection, and
    the report is signed with Ed25519.  [Decision] and the observation types
    come from [GateEngine], scoring from [GateScoring].  Lists stand for
    slices whose nil-ness is lost: every list of a report is copied with
    [append([]T(nil), ...)], so an empty one is nil. *)

From S2P Require Import Prelude Order GoStrings Digest GoJson Coverage Glob Corroboration.
From S2P Require Import CorroborationResult GateScoring GateEngine Base64.
Local Open Scope go_scope.
Local Open Scope Z_scope.

Definition ReportSchemaVersion : string := "agents.astatide.com/verification/v1beta1".
Definition MaxRunUIDBytes : Z := 128.
Definition MaxReportMessageBytes : Z := 1024.
Definition MaxReportBytes : Z := 8388608.
Definition MaxSkillDigests : Z := 32.
Definition MaxHelperImages : Z := 16.
Definition MaxVerifierImageBytes : Z := 512.
Definition MaxReportCheckNameBytes : Z := 128.
Definition MaxReportCommandRecords : Z := MaxCommands.
Definition MaxReportChangedPathBytes : Z := MaxChangedPaths * Glob.MaxPathBytes.
Definition maxReportSignatureEncoding : Z := 256.

Record ImageEvidence : Type := { im_Name : string; im_Digest : string }.

Record RouteEvidence : Type := {
  ro_Name : string; ro_UID : string; ro_Generation : Z; ro_Provider : string; ro_Family : string
}.

Record ScoringEvidence : Type := {
  se_ResultDigest : string;
  se_ExecutionWeightBasisPoints : Z;
  se_CriticWeightBasisPoints : Z;
  se_MinScoreBasisPoints : Z;
  se_ExecutionScoreBasisPoints : Z;
  se_CriticScoreBasisPoints : Z;
  se_WeightedScoreBasisPoints : Z;
  se_BlockingReasons : list string;
  se_CriticRoute : option RouteEvidence;
  se_CorroborationArtifactDigest : string
}.

Record ScoringContext : Type := {
  sc_Result : GateScoring.Result;
  sc_CriticRoute : option RouteEvidence;
  sc_CorroborationArtifactDigest : string
}.

Record ReportContext : Type := {
  rx_RunUID : string;
  rx_SpecDigest : string;
  rx_BaseSHA : string;
  rx_PatchDigest : string;
  rx_GateUID : string;
  rx_GateGeneration : Z;
  rx_RuntimeImageDigest : string;
  rx_VerifierImageDigest : string;
  rx_HelperImageDigests : list ImageEvidence;
  rx_SkillDigests : list string;
  rx_Scoring : option ScoringContext
}.

Record VerificationReport : Type := {
  vr_SchemaVersion : string;
  vr_RunUID : string;
  vr_SpecDigest : string;
  vr_BaseSHA : string;
  vr_PatchDigest : string;
  vr_GateUID : string;
  vr_GateGeneration : Z;
  vr_RuntimeImageDigest : string;
  vr_VerifierImageDigest : string;
  vr_HelperImageDigests : list ImageEvidence;
  vr_SkillDigests : list string;
  vr_Evidence : EvidenceSummary;
  vr_Commands : list ReportCommand;
  vr_Checks : list GateCheck;
  vr_Scoring : ScoringEvidence;
  vr_Verdict : string;
  vr_builtByGate : bool
}.

Record SignedReport : Type := {
  sr_Report : VerificationReport;
  sr_Algorithm : string;
  sr_PublicKey : string;
  sr_Signature : string
}.

(** ** [json.Marshal] of a report *)

Local Open Scope string_scope.
Local Open Scope list_scope.

Definition json_list {A : Type} (f : A -> json) (l : list A) : json := json_slice f (append_nil l).

Definition json_ImageEvidence (i : ImageEvidence) : json :=
  JObject [("name", JString (im_Name i)); ("digest", JString (im_Digest i))].
Definition json_RouteEvidence (r : RouteEvidence) : json :=
  JObject [("name", JString (ro_Name r)); ("uid", JString (ro_UID r));
           ("generation", JInt (ro_Generation r)); ("provider", JString (ro_Provider r));
           ("family", JString (ro_Family r))].
Definition json_EvidenceSummary (e : EvidenceSummary) : json :=
  JObject ([("changedPaths", json_list JString (es_ChangedPaths e))] ++
           omit_nil "filesChanged" JInt (es_FilesChanged e) ++
           omit_nil "linesChanged" JInt (es_LinesChanged e) ++
           omit_nil "hasBinaryFiles" JBool (es_HasBinaryFiles e) ++
           omit_nil "coverageDelta" JString (es_CoverageDelta e) ++
           omit_nil "newTestsFailOnBase" JBool (es_NewTestsFailOnBase e)).
Definition json_ReportCommand (c : ReportCommand) : json :=
  JObject ([("index", JInt (rc_Index c)); ("configDigest", JString (rc_ConfigDigest c));
            ("observed", JBool (rc_Observed c))] ++
           omit_nil "exitCode" JInt (rc_ExitCode c) ++
           omit_empty "evidenceDigest" (rc_EvidenceDigest c) ++
           omit_nil "durationMillis" JInt (rc_DurationMillis c)).
Definition json_GateCheck (c : GateCheck) : json :=
  JObject ([("name", JString (Name c)); ("passed", JBool (Passed c))] ++ omit_empty "message" (Message c)).
Definition json_ScoringEvidence (s : ScoringEvidence) : json :=
  JObject ([("resultDigest", JString (se_ResultDigest s));
            ("executionWeightBasisPoints", JInt (se_ExecutionWeightBasisPoints s));
            ("criticWeightBasisPoints", JInt (se_CriticWeightBasisPoints s));
            ("minScoreBasisPoints", JInt (se_MinScoreBasisPoints s));
            ("executionScoreBasisPoints", JInt (se_ExecutionScoreBasisPoints s));
            ("criticScoreBasisPoints", JInt (se_CriticScoreBasisPoints s));
            ("weightedScoreBasisPoints", JInt (se_WeightedScoreBasisPoints s));
            ("blockingReasons", json_list JString (se_BlockingReasons s))] ++
           omit_nil "criticRoute" json_RouteEvidence (se_CriticRoute s) ++
           omit_empty "corroborationArtifactDigest" (se_CorroborationArtifactDigest s)).
Definition json_VerificationReport (r : VerificationReport) : json :=
  JObject [("schemaVersion", JString (vr_SchemaVersion r)); ("runUID", JString (vr_RunUID r));
           ("specDigest", JString (vr_SpecDigest r)); ("baseSHA", JString (vr_BaseSHA r));
           ("patchDigest", JString (vr_PatchDigest r)); ("gateUID", JString (vr_GateUID r));
           ("gateGeneration", JInt (vr_GateGeneration r));
           ("runtimeImageDigest", JString (vr_RuntimeImageDigest r));
           ("verifierImageDigest", JString (vr_VerifierImageDigest r));
           ("helperImageDigests", json_list json_ImageEvidence (vr_HelperImageDigests r));
           ("skillDigests", json_list JString (vr_SkillDigests r));
           ("evidence", json_EvidenceSummary (vr_Evidence r));
           ("commands", json_list json_ReportCommand (vr_Commands r));
           ("checks", json_list json_GateCheck (vr_Checks r));
           ("scoring", json_ScoringEvidence (vr_Scoring r)); ("verdict", JString (vr_Verdict r))].
Local Close Scope string_scope.

(** ** Validation *)

Definition blank_set (b : Z) : bool :=
  (b =? 0) || (b =? 0x0D) || (b =? 0x0A) || (b =? 0x09) || (b =? 0x20).
(** [strings.ContainsAny(value, "\x00\r\n\t ")] *)
Definition contains_blank (s : string) : bool := existsb blank_set (bytes s).

Definition validRunUID (value : string) : bool :=
  (0 <? len value) && (len value <=? MaxRunUIDBytes) && ValidString value && negb (contains_blank value).

(** [baseSHAPattern] is [^[a-f0-9]{40,64}$]. *)
Definition baseSHAPattern (value : string) : bool :=
  forallb is_lower_hex (bytes value) && (40 <=? len value) && (len value <=? 64).

(** [imageDigestPattern] is [^.+@sha256:[a-f0-9]{64}$]: the last 72 bytes are
    fixed, [.] is any character but a newline. *)
Definition imageDigestPattern (value : string) : bool :=
  let l := bytes value in
  let n := (length l - 72)%nat in
  (72 <? slen l) && forallb (fun b => negb (b =? 0x0A)) (take n l) &&
  bool_decide (bytes "@sha256:" `prefix_of` drop n l) && forallb is_lower_hex (drop (n + 8) l).

(** [imageRolePattern] is [^[a-z][a-z0-9-]{0,62}$]. *)
Definition imageRolePattern (value : string) : bool :=
  match bytes value with
  | [] => false
  | b :: rest =>
    between 0x61 0x7A b &&
    forallb (fun c => between 0x61 0x7A c || between 0x30 0x39 c || (c =? 0x2D)) rest && (slen rest <=? 62)
  end.

Definition validRouteEvidence (route : RouteEvidence) : bool :=
  validRunUID (ro_Name route) && validRunUID (ro_UID route) && (0 <? ro_Generation route) &&
  validRunUID (ro_Provider route) && validRunUID (ro_Family route).

Definition validateCheck (check : GateCheck) : result string unit :=
  if (len (Name check) =? 0) || (MaxReportCheckNameBytes <? len (Name check)) ||
     negb (ValidString (Name check)) || has_nul (Name check) then Err "report check name is invalid"
  else if (MaxReportMessageBytes <? len (Message check)) || negb (ValidString (Message check)) ||
          has_nul (Message check) then Err "report check message is invalid"
  else Ok tt.

Definition check_step (seen : gset string) (check : GateCheck) : result string (gset string) :=
  let? _ := validateCheck check in
  if bool_decide (Name check ∈ seen) then Err "decision contains duplicate check names"
  else Ok ({[Name check]} ∪ seen).

Definition validateDecision (decision : Decision) : result string unit :=
  if (slen (d_Checks decision) =? 0) || (MaxChecks <? slen (d_Checks decision))
  then Err "decision check count is out of bounds" else
  let? _ := fold_result check_step ∅ (d_Checks decision) in
  let computed := if existsb (fun check => negb (Passed check)) (d_Checks decision)
                  then Rejected else Accepted in
  if d_Verdict decision !=? computed then Err "decision verdict does not match checks"
  else if MaxReportCommandRecords <? slen (d_commandRecords decision)
       then Err "decision command record count is out of bounds"
  else Ok tt.

(** ** Canonical collections *)

(** No two neighbours with the same key. *)
Fixpoint adjacent_equal (keys : list string) : bool :=
  match keys with
  | a :: ((b :: _) as rest) => (a =?= b) || adjacent_equal rest
  | _ => false
  end.

Definition canonicalizeHelpers (images : list ImageEvidence) : result string (list ImageEvidence) :=
  if (slen images =? 0) || (MaxHelperImages <? slen images)
  then Err "helper image evidence count is out of bounds" else
  let sorted := sort_on im_Name String.compare images in
  if existsb (fun image => negb (imageRolePattern (im_Name image)) ||
                (MaxVerifierImageBytes <? len (im_Digest image)) ||
                negb (imageDigestPattern (im_Digest image)) || contains_blank (im_Digest image)) sorted
  then Err "helper image evidence is invalid"
  else if adjacent_equal (map im_Name sorted) then Err "helper image evidence contains duplicate roles"
  else Ok sorted.

Definition canonicalizeSkills (digests : list string) : result string (list string) :=
  if MaxSkillDigests <? slen digests then Err "skill digest count is out of bounds"
  else if existsb (fun d => negb (validSHA256Digest d)) digests then Err "skill digest list is invalid"
  else
  let sorted := Strings digests in
  if existsb (fun d => negb (validSHA256Digest d)) sorted || adjacent_equal sorted
  then Err "skill digest list is invalid" else Ok sorted.

(** The loop over the paths with the running byte total. *)
Fixpoint path_bytes (total : Z) (paths : list string) : result string Z :=
  match paths with
  | [] => Ok total
  | p :: rest =>
    if negb (validRepoPath p) then Err "report changed paths are invalid"
    else if MaxReportChangedPathBytes <? total + len p then Err "report changed path bytes are out of bounds"
    else path_bytes (total + len p) rest
  end.

Definition canonicalizeEvidence (input : EvidenceSummary) : result string EvidenceSummary :=
  if MaxChangedPaths <? slen (es_ChangedPaths input) then Err "report changed path count is out of bounds" else
  let? _ := path_bytes 0 (es_ChangedPaths input) in
  let sorted := Strings (es_ChangedPaths input) in
  if existsb (fun p => negb (validRepoPath p)) sorted || adjacent_equal sorted
  then Err "report changed paths are invalid"
  else if present (es_FilesChanged input) && negb (validCounter (es_FilesChanged input) MaxObservedFiles)
       then Err "report file count is invalid"
  else if present (es_LinesChanged input) && negb (validCounter (es_LinesChanged input) MaxObservedLines)
       then Err "report line count is invalid"
  else
  let? coverage :=
    match es_CoverageDelta input with
    | None => Ok None
    | Some c => match normalizeDecimal c with
                | Some normalized => Ok (Some normalized)
                | None => Err "report coverage delta is invalid"%string
                end
    end in
  Ok {| es_ChangedPaths := sorted; es_FilesChanged := es_FilesChanged input;
        es_LinesChanged := es_LinesChanged input; es_HasBinaryFiles := es_HasBinaryFiles input;
        es_CoverageDelta := coverage; es_NewTestsFailOnBase := es_NewTestsFailOnBase input |}.

(** One record of the loop over the sorted commands; [previous] is the index
    before. *)
Fixpoint command_records (previous : option Z) (items : list ReportCommand) : result string unit :=
  match items with
  | [] => Ok tt
  | item :: rest =>
    if (rc_Index item <? 0) || (MaxCommands <=? rc_Index item) || negb (validSHA256Digest (rc_ConfigDigest item))
    then Err "report command record is invalid"
    else if previous =?= Some (rc_Index item) then Err "report command records contain duplicate indexes"
    else if rc_Observed item &&
            (negb (present (rc_ExitCode item)) || negb (validEvidenceDigest (rc_EvidenceDigest item)) ||
             negb (validDuration (rc_DurationMillis item)))
         then Err "observed report command is missing evidence"
    else if negb (rc_Observed item) &&
            (present (rc_ExitCode item) || (rc_EvidenceDigest item !=? "") || present (rc_DurationMillis item))
         then Err "missing report command contains evidence"
    else command_records (Some (rc_Index item)) rest
  end.

Definition canonicalizeCommands (input : list ReportCommand) : result string (list ReportCommand) :=
  if MaxReportCommandRecords <? slen input then Err "report command count is out of bounds" else
  let sorted := sort_on rc_Index Z.compare input in
  let? _ := command_records None sorted in
  Ok sorted.

Definition canonicalizeChecks (input : list GateCheck) : result string (list GateCheck) :=
  if MaxChecks <? slen input then Err "report check count is out of bounds" else
  let? _ := fold_result (fun _ check => validateCheck check) tt input in
  let sorted := sort_on Name String.compare input in
  if adjacent_equal (map Name sorted) then Err "report checks contain duplicate names" else Ok sorted.

Definition score_in_range (v : Z) : bool := negb ((v <? 0) || (GateScoreScale <? v)).

Definition containsString (values : list string) (want : string) : bool :=
  existsb (fun value => value =?= want) values.

Definition canonicalizeScoring (input : ScoringEvidence) (checks : list GateCheck)
  : result string ScoringEvidence :=
  if negb (validSHA256Digest (se_ResultDigest input)) then Err "scoring result digest is invalid"
  else if negb (score_in_range (se_ExecutionWeightBasisPoints input)) ||
          negb (score_in_range (se_CriticWeightBasisPoints input)) ||
          negb (score_in_range (se_MinScoreBasisPoints input)) ||
          negb (score_in_range (se_ExecutionScoreBasisPoints input)) ||
          negb (score_in_range (se_CriticScoreBasisPoints input)) ||
          negb (score_in_range (se_WeightedScoreBasisPoints input))
       then Err "scoring integer value is outside 0..10000"
  else if negb (se_ExecutionWeightBasisPoints input + se_CriticWeightBasisPoints input =? GateScoreScale)
       then Err "scoring weights do not sum to 10000"
  else
  let weighted := Z.quot (se_ExecutionScoreBasisPoints input * se_ExecutionWeightBasisPoints input +
                          se_CriticScoreBasisPoints input * se_CriticWeightBasisPoints input)
                    GateScoreScale in
  if negb (se_WeightedScoreBasisPoints input =? weighted) then Err "scoring weighted value is inconsistent"
  else if MaxBlockingReasons <? slen (se_BlockingReasons input)
       then Err "scoring blocking reason count is out of bounds"
  else if existsb (fun reason => (len reason =? 0) || (MaxReasonBytes <? len reason) ||
                     negb (ValidString reason) || contains_blank reason) (se_BlockingReasons input)
       then Err "scoring blocking reason is invalid"
  else
  let reasons := Strings (se_BlockingReasons input) in
  if adjacent_equal reasons then Err "scoring blocking reasons contain duplicates"
  else if existsb (fun check => negb (Passed check) &&
                     negb (containsString reasons ("execution." +:+ Name check))) checks
       then Err "scoring does not preserve a failed Gate check as a blocking reason"
  else if (se_CriticWeightBasisPoints input =? 0) &&
          (negb (se_ExecutionWeightBasisPoints input =? GateScoreScale) ||
           negb (se_MinScoreBasisPoints input =? GateScoreScale) ||
           negb (se_CriticScoreBasisPoints input =? GateScoreScale) ||
           negb (se_WeightedScoreBasisPoints input =? se_ExecutionScoreBasisPoints input) ||
           present (se_CriticRoute input) || (se_CorroborationArtifactDigest input !=? ""))
       then Err "execution-only scoring is not the explicit 10000-point form"
  else if negb (se_CriticWeightBasisPoints input =? 0) &&
          ((se_CriticWeightBasisPoints input <? 1) || (se_ExecutionWeightBasisPoints input <? 1) ||
           negb (match se_CriticRoute input with Some route => validRouteEvidence route | None => false end) ||
           negb (validSHA256Digest (se_CorroborationArtifactDigest input)))
       then Err "critic scoring is missing route or corroboration provenance"
  else Ok {| se_ResultDigest := se_ResultDigest input;
             se_ExecutionWeightBasisPoints := se_ExecutionWeightBasisPoints input;
             se_CriticWeightBasisPoints := se_CriticWeightBasisPoints input;
             se_MinScoreBasisPoints := se_MinScoreBasisPoints input;
             se_ExecutionScoreBasisPoints := se_ExecutionScoreBasisPoints input;
             se_CriticScoreBasisPoints := se_CriticScoreBasisPoints input;
             se_WeightedScoreBasisPoints := se_WeightedScoreBasisPoints input;
             se_BlockingReasons := reasons; se_CriticRoute := se_CriticRoute input;
             se_CorroborationArtifactDigest := se_CorroborationArtifactDigest input |}.

Definition scoringVerdictFromProjection (scoring : ScoringEvidence) : string :=
  if negb (slen (se_BlockingReasons scoring) =? 0) ||
     (se_WeightedScoreBasisPoints scoring <? se_MinScoreBasisPoints scoring)
  then GateScoring.Rejected else GateScoring.Accepted.

(** ** The report *)

Definition validImageDigest (digest : string) : bool :=
  negb ((len digest =? 0) || (MaxVerifierImageBytes <? len digest) || negb (ValidString digest) ||
        negb (imageDigestPattern digest) || contains_blank digest).

Definition canonicalizeReport (input : VerificationReport) : result string VerificationReport :=
  if vr_SchemaVersion input !=? ReportSchemaVersion then Err "unsupported verification report schema"
  else if negb (validRunUID (vr_RunUID input)) then Err "invalid report run UID"
  else if negb (validSHA256Digest (vr_SpecDigest input)) || negb (validSHA256Digest (vr_PatchDigest input))
       then Err "invalid report content digest"
  else if negb (baseSHAPattern (vr_BaseSHA input)) || (64 <? len (vr_BaseSHA input))
       then Err "invalid report base SHA"
  else if negb (validRunUID (vr_GateUID input)) || (vr_GateGeneration input <=? 0)
       then Err "invalid report Gate identity"
  else if negb (validImageDigest (vr_RuntimeImageDigest input)) ||
          negb (validImageDigest (vr_VerifierImageDigest input)) then Err "invalid image digest"
  else
  let? helpers := canonicalizeHelpers (vr_HelperImageDigests input) in
  let? skills := canonicalizeSkills (vr_SkillDigests input) in
  let? evidence := canonicalizeEvidence (vr_Evidence input) in
  let? commands := canonicalizeCommands (vr_Commands input) in
  let? checks := canonicalizeChecks (vr_Checks input) in
  let? scoring := canonicalizeScoring (vr_Scoring input) checks in
  let computed := scoringVerdictFromProjection scoring in
  if (slen checks =? 0) || (vr_Verdict input !=? computed) then Err "report verdict does not match checks"
  else Ok {| vr_SchemaVersion := vr_SchemaVersion input; vr_RunUID := vr_RunUID input;
             vr_SpecDigest := vr_SpecDigest input; vr_BaseSHA := vr_BaseSHA input;
             vr_PatchDigest := vr_PatchDigest input; vr_GateUID := vr_GateUID input;
             vr_GateGeneration := vr_GateGeneration input;
             vr_RuntimeImageDigest := vr_RuntimeImageDigest input;
             vr_VerifierImageDigest := vr_VerifierImageDigest input;
             vr_HelperImageDigests := helpers; vr_SkillDigests := skills; vr_Evidence := evidence;
             vr_Commands := commands; vr_Checks := checks; vr_Scoring := scoring;
             vr_Verdict := computed; vr_builtByGate := vr_builtByGate input |}.

Definition validateScoringBinding (result : GateScoring.Result) (decision : Decision)
  (route : option RouteEvidence) (corroborationDigest : string) : Prelude.result string unit :=
  let checks := elems (r_ExecutionChecks result) in
  if negb (slen checks =? slen (d_Checks decision))
  then Err "scoring result does not cover every Gate check" else
  let expected := sort_on Name String.compare (d_Checks decision) in
  if existsb (fun p => (ec_Name p.1 !=? Name p.2) || negb (Bool.eqb (ec_Passed p.1) (Passed p.2)) ||
                negb (ec_Blocking p.1)) (zip checks expected)
  then Err "scoring result is not bound to the deterministic Gate checks"
  else
  match Critic (r_Signals result) with
  | None =>
    if present route || (corroborationDigest !=? "") || present (r_CriticResult result) ||
       negb (r_CriticScoreBasisPoints result =? GateScoreScale) ||
       negb (ExecutionWeightBasisPoints (r_Signals result) =? GateScoreScale) ||
       negb (MinScoreBasisPoints (r_Signals result) =? GateScoreScale)
    then Err "execution-only scoring contains critic provenance" else Ok tt
  | Some critic =>
    match route with
    | None => Err "critic scoring is missing a valid route identity"
    | Some ro =>
      if negb (validRouteEvidence ro) then Err "critic scoring is missing a valid route identity"
      else if ro_Name ro !=? ModelRouteRef critic
           then Err "critic route identity does not match the resolved scoring route"
      else if negb (validSHA256Digest corroborationDigest)
           then Err "critic scoring is missing a corroboration artifact digest"
      else if negb (present (r_CriticResult result))
           then Err "critic scoring is missing its corroboration result"
      else Ok tt
    end
  end.

(** Errors of the scoring package, wrapped. *)
Definition wrap {E A : Type} (message : string) (m : result E A) : result string A :=
  match m with Ok a => Ok a | Err _ => Err message end.

Definition scoringForReport (context : ReportContext) (decision : Decision)
  : result string (ScoringEvidence * string) :=
  let? (bound, corroborationDigest) :=
    match rx_Scoring context with
    | None =>
      let checks := map (fun check => {| ec_Name := Name check; ec_Passed := Passed check;
                                         ec_Blocking := true |}) (d_Checks decision) in
      let executionScore := if Decision_Accepted decision then GateScoreScale else 0 in
      let? result := wrap "materialize execution-only scoring"
        (GateScoring.Evaluate {| in_Signals := None;
           in_Execution := {| ScoreBasisPoints := executionScore; Checks := Some checks |};
           in_Critic := None |}) in
      Ok ((result, None), ""%string)
    | Some scoring => Ok ((sc_Result scoring, sc_CriticRoute scoring), sc_CorroborationArtifactDigest scoring)
    end in
  let '(result, route) := bound in
  let? _ := wrap "canonicalize Gate scoring result" (GateScoring.CanonicalResultBytes result) in
  let? resultDigest := wrap "digest Gate scoring result" (GateScoring.ResultDigest result) in
  let? _ := validateScoringBinding result decision route corroborationDigest in
  let criticWeight := match Critic (r_Signals result) with Some c => WeightBasisPoints c | None => 0 end in
  Ok ({| se_ResultDigest := resultDigest;
         se_ExecutionWeightBasisPoints := ExecutionWeightBasisPoints (r_Signals result);
         se_CriticWeightBasisPoints := criticWeight;
         se_MinScoreBasisPoints := MinScoreBasisPoints (r_Signals result);
         se_ExecutionScoreBasisPoints := r_ExecutionScoreBasisPoints result;
         se_CriticScoreBasisPoints := r_CriticScoreBasisPoints result;
         se_WeightedScoreBasisPoints := r_WeightedScoreBasisPoints result;
         se_BlockingReasons := elems (r_BlockingReasons result);
         se_CriticRoute := route; se_CorroborationArtifactDigest := corroborationDigest |},
      r_Verdict result).

Definition BuildReport (context : ReportContext) (decision : Decision) : result string VerificationReport :=
  if negb (d_evaluated decision) then Err "gate decision was not produced by Evaluate" else
  let? _ := validateDecision decision in
  let? (scoring, scoringVerdict) := scoringForReport context decision in
  canonicalizeReport
    {| vr_SchemaVersion := ReportSchemaVersion; vr_RunUID := rx_RunUID context;
       vr_SpecDigest := rx_SpecDigest context; vr_BaseSHA := rx_BaseSHA context;
       vr_PatchDigest := rx_PatchDigest context; vr_GateUID := rx_GateUID context;
       vr_GateGeneration := rx_GateGeneration context;
       vr_RuntimeImageDigest := rx_RuntimeImageDigest context;
       vr_VerifierImageDigest := rx_VerifierImageDigest context;
       vr_HelperImageDigests := rx_HelperImageDigests context; vr_SkillDigests := rx_SkillDigests context;
       vr_Evidence := d_evidence decision; vr_Commands := d_commandRecords decision;
       vr_Checks := d_Checks decision; vr_Scoring := scoring; vr_Verdict := scoringVerdict;
       vr_builtByGate := true |}.

Definition CanonicalReportBytes (report : VerificationReport) : result string (list Z) :=
  let? normalized := canonicalizeReport report in
  let encoded := Marshal (json_VerificationReport normalized) in
  if MaxReportBytes <? slen encoded then Err "verification report exceeds bounded size" else Ok encoded.

Definition ReportDigest (report : VerificationReport) : result string string :=
  let? bytes := CanonicalReportBytes report in
  Ok (digestBytes bytes).

(** ** Signatures

    [crypto/ed25519] is a parameter: keys of a seed, their public keys, signing
    and verification. *)
Record Ed25519 : Type := {
  ed_NewKeyFromSeed : list Z -> list Z;
  ed_Public : list Z -> list Z;
  ed_Sign : list Z -> list Z -> list Z;
  ed_Verify : list Z -> list Z -> list Z -> bool
}.

Definition PrivateKeySize : Z := 64.
Definition PublicKeySize : Z := 32.
Definition SignatureSize : Z := 64.

Definition SeedSize : Z := 32.

(** A private key that the package made: of a seed, as [GenerateKey] and
    [NewKeyFromSeed] make it.  Other lists of 64 bytes need not be key pairs. *)
Definition private_key (E : Ed25519) (k : list Z) : Prop :=
  exists seed, slen seed = SeedSize /\ Forall is_byte seed /\ k = ed_NewKeyFromSeed E seed.

(** What the package documents of such keys: sizes, and that a signature verifies
    under the public key of the key that made it. *)
Class Ed25519Laws (E : Ed25519) : Prop := {
  public_bytes : forall k, private_key E k -> slen (ed_Public E k) = PublicKeySize /\ Forall is_byte (ed_Public E k);
  sign_bytes : forall k m, private_key E k -> slen (ed_Sign E k m) = SignatureSize /\ Forall is_byte (ed_Sign E k m);
  verify_sign : forall k m, private_key E k -> ed_Verify E (ed_Public E k) m (ed_Sign E k m) = true
}.

Section Signing.
Context (E : Ed25519).

Definition SignReport (report : VerificationReport) (privateKey : list Z) : result string SignedReport :=
  if negb (slen privateKey =? PrivateKeySize) then Err "invalid Ed25519 private key length"
  else if negb (vr_builtByGate report) then Err "report was not produced by BuildReport"
  else
  let? normalized := canonicalizeReport report in
  let payload := Marshal (json_VerificationReport normalized) in
  Ok {| sr_Report := normalized; sr_Algorithm := "Ed25519";
        sr_PublicKey := Base64.EncodeToString (ed_Public E privateKey);
        sr_Signature := Base64.EncodeToString (ed_Sign E privateKey payload) |}.

(** [trustedPublicKey] may be nil. *)
Definition VerifySignedReport (signed : SignedReport) (trustedPublicKey : option (list Z))
  : result string unit :=
  if sr_Algorithm signed !=? "Ed25519" then Err "unsupported report signature algorithm" else
  match DecodeString (sr_PublicKey signed) with
  | None => Err "invalid report public key"
  | Some publicKey =>
    if negb (slen publicKey =? PublicKeySize) then Err "invalid report public key" else
    match DecodeString (sr_Signature signed) with
    | None => Err "invalid report signature"
    | Some signature =>
      if negb (slen signature =? SignatureSize) || (maxReportSignatureEncoding <? len (sr_Signature signed))
      then Err "invalid report signature"
      else if match trustedPublicKey with
              | Some trusted => negb (slen trusted =? PublicKeySize) || (publicKey !=? trusted)
              | None => false
              end then Err "report signer is not trusted"
      else
      let? payload := CanonicalReportBytes (sr_Report signed) in
      if negb (ed_Verify E publicKey payload signature) then Err "verification report signature is invalid"
      else Ok tt
    end
  end.
End Signing.
