(* ===== verification/GateReportSpec.v ===== *)
(** * What a verification report promises (src/v3/internal/gate/report.go)

    The canonical form of a report is a fixed point, a signed report verifies
    under the signer's key, an accepted report contains no failed check, and
    every decision of the Gate can be reported. *)

From S2P Require Import Prelude Order GoStrings Digest GoJson Coverage Glob Corroboration.
From S2P Require Import CorroborationResult GateScoring GateEngine GateSpec Base64 GateReport.
Local Open Scope go_scope.
Local Open Scope Z_scope.

(** ** Sorted collections without duplicates *)

Lemma adjacent_equal_nodup keys :
  Sorted (cmp_le String.compare) keys -> adjacent_equal keys = false <-> NoDup keys.
Proof.
  intros Hs. induction keys as [|a keys IH]; [by rewrite NoDup_nil|].
  apply Sorted_inv in Hs as [Hs Hhd]. specialize (IH Hs). destruct keys as [|b rest].
  { split; [intros _; apply NoDup_singleton|done]. }
  cbn [adjacent_equal]. rewrite orb_false_iff, bool_decide_eq_false.
  change (adjacent_equal (b :: rest) = false) with (adjacent_equal (b :: rest) = false) in IH.
  rewrite IH, (NoDup_cons a). inversion Hhd as [|? ? Hab]; subst. split.
  - intros [Hne Hnd]. split; [|done]. intros [->|Hin]%elem_of_cons; [done|].
    apply Sorted_StronglySorted in Hs; [|apply _]. apply StronglySorted_cons in Hs as [Hall _].
    apply (proj1 (Forall_forall _ _) Hall) in Hin. apply Hne. by apply (anti_symm (cmp_le String.compare)).
  - intros [Hnin Hnd]. split; [|done]. intros ->. apply Hnin. by left.
Qed.

Lemma Strings_cmp_sorted l : Sorted (cmp_le String.compare) (Strings l).
Proof.
  eapply Sorted_subrelation; [|apply Strings_sorted]. intros a b. unfold String.le, String.leb, cmp_le.
  by destruct (String.compare a b).
Qed.

Lemma Strings_idem l : Strings (Strings l) = Strings l.
Proof. apply Strings_unique, Strings_perm. Qed.

Lemma existsb_Strings p l : existsb p (Strings l) = existsb p l.
Proof. apply existsb_perm, Strings_perm. Qed.

(** ** Each canonicalizer is a projection *)

Lemma canonicalizeHelpers_idem l n : canonicalizeHelpers l = Ok n -> canonicalizeHelpers n = Ok n.
Proof.
  unfold canonicalizeHelpers. destruct (_ || _) eqn:E1; [done|].
  set (sorted := sort_on im_Name String.compare l).
  destruct (existsb _ sorted) eqn:E2; [done|]. destruct (adjacent_equal _) eqn:E3; [done|].
  intros [= <-]. apply adjacent_equal_nodup in E3 as Hnd; [|apply sort_on_keys, _].
  rewrite (sort_on_id im_Name String.compare sorted Hnd (sort_on_keys _ _ _)). rewrite E2, E3.
  assert (Hlen : slen sorted = slen l) by (unfold slen, sorted; by rewrite sort_on_perm).
  by rewrite Hlen, E1.
Qed.

Lemma canonicalizeSkills_idem l n : canonicalizeSkills l = Ok n -> canonicalizeSkills n = Ok n.
Proof.
  unfold canonicalizeSkills. destruct (_ <? _) eqn:E1; [done|]. destruct (existsb _ l) eqn:E2; [done|].
  destruct (_ || _) eqn:E3; [done|]. intros [= <-]. rewrite Strings_idem, existsb_Strings, E2.
  assert (Hlen : slen (Strings l) = slen l) by (unfold slen; by rewrite Strings_perm).
  rewrite existsb_Strings, E2 in E3. rewrite Hlen, E1. by rewrite E3.
Qed.

Lemma path_bytes_spec total paths :
  0 <= total <= MaxReportChangedPathBytes ->
  is_ok (path_bytes total paths) = true <->
  Forall (fun p => validRepoPath p = true) paths /\ total + sumZ len paths <= MaxReportChangedPathBytes.
Proof.
  revert total. induction paths as [|p paths IH]; intros total Ht; cbn [path_bytes].
  - rewrite Forall_nil. cbn. lia.
  - rewrite Forall_cons. cbn [sumZ foldr]. fold (sumZ len paths).
    assert (Hsum : 0 <= sumZ len paths).
    { clear. induction paths as [|p l IH]; cbn; [lia|]. fold (sumZ len l). unfold len at 1. lia. }
    assert (Hp : 0 <= len p) by (unfold len; lia).
    destruct (validRepoPath p); cbn [negb]; [|split; [done|]; by intros [[? _] _]].
    destruct (Z.ltb_spec MaxReportChangedPathBytes (total + len p)).
    + split; [done|]. intros [_ ?]. lia.
    + rewrite IH by lia. rewrite Z.add_assoc. tauto.
Qed.

Lemma canonicalizeEvidence_idem e n : canonicalizeEvidence e = Ok n -> canonicalizeEvidence n = Ok n.
Proof.
  unfold canonicalizeEvidence. destruct (_ <? _) eqn:E1; [done|].
  destruct (path_bytes 0 (es_ChangedPaths e)) as [t|] eqn:E2; [|done]. cbn [result_bind].
  destruct (existsb _ _ || _) eqn:E3; [done|]. destruct (present (es_FilesChanged e) && _) eqn:E4; [done|].
  destruct (present (es_LinesChanged e) && _) eqn:E5; [done|].
  destruct (match es_CoverageDelta e with Some _ => _ | None => _ end) as [c|] eqn:E6; [|done].
  cbn [result_bind]. intros [= <-]. cbn [es_ChangedPaths es_FilesChanged es_LinesChanged es_HasBinaryFiles
    es_CoverageDelta es_NewTestsFailOnBase].
  assert (Hlen : slen (Strings (es_ChangedPaths e)) = slen (es_ChangedPaths e))
    by (unfold slen; by rewrite Strings_perm).
  rewrite Hlen, E1, Strings_idem.
  assert (Hp : is_ok (path_bytes 0 (Strings (es_ChangedPaths e))) = true).
  { assert (Hok : is_ok (path_bytes 0 (es_ChangedPaths e)) = true) by (by rewrite E2).
    apply path_bytes_spec in Hok as [Hv Hs]; [|done]. apply path_bytes_spec; [done|].
    rewrite (sumZ_perm len _ _ (Strings_perm _)). split; [by rewrite Strings_perm|done]. }
  destruct (path_bytes 0 (Strings _)); [|done]. cbn [result_bind]. rewrite E3, E4, E5.
  destruct (es_CoverageDelta e) as [d|]; [|by injection E6 as <-].
  destruct (normalizeDecimal d) as [d'|] eqn:Ed; [|done]. injection E6 as <-.
  by rewrite (normalizeDecimal_fixed _ _ Ed).
Qed.

(** The loop over the commands accepts records with distinct indexes. *)
Lemma command_records_nodup prev l :
  StronglySorted (cmp_le Z.compare) (map rc_Index l) ->
  (forall x y, prev = Some x -> y ∈ map rc_Index l -> cmp_le Z.compare x y) ->
  command_records prev l = Ok tt ->
  NoDup (map rc_Index l) /\ (forall x, prev = Some x -> x ∉ map rc_Index l).
Proof.
  revert prev. induction l as [|c l IH]; intros prev Hs Hprev; cbn [command_records map].
  { intros _. split; [apply NoDup_nil_2|]. intros x _. apply not_elem_of_nil. }
  destruct (_ || _); [done|]. case_bool_decide as Hp; [done|].
  destruct (_ && _); [done|]. destruct (_ && _); [done|]. intros H. cbn in Hs, Hprev.
  apply StronglySorted_cons in Hs as [Hc Hs]. rewrite Forall_forall in Hc.
  destruct (IH (Some (rc_Index c)) Hs) as [Hnd Hn]; [|done|].
  { intros x y [= <-] Hy. by apply Hc. }
  split; [apply NoDup_cons; split; [by apply Hn|done]|].
  intros x Hx [->|Hin]%elem_of_cons; [done|]. apply Hp. rewrite Hx. f_equal.
  apply (anti_symm (cmp_le Z.compare)); [apply Hprev; [done|by left]|by apply Hc].
Qed.

Lemma canonicalizeCommands_idem l n : canonicalizeCommands l = Ok n -> canonicalizeCommands n = Ok n.
Proof.
  unfold canonicalizeCommands. destruct (_ <? _) eqn:E1; [done|].
  set (sorted := sort_on rc_Index Z.compare l).
  destruct (command_records None sorted) as [[]|] eqn:E2; [|done]. cbn [result_bind]. intros [= <-].
  assert (Hss : StronglySorted (cmp_le Z.compare) (map rc_Index sorted))
    by (apply Sorted_StronglySorted; [apply _|apply sort_on_keys, _]).
  destruct (command_records_nodup None sorted Hss) as [Hnd _]; [done|done|].
  rewrite (sort_on_id rc_Index Z.compare sorted Hnd (sort_on_keys _ _ _)), E2. cbn [result_bind].
  assert (Hlen : slen sorted = slen l) by (unfold slen, sorted; by rewrite sort_on_perm).
  by rewrite Hlen, E1.
Qed.

Lemma fold_validateCheck l :
  fold_result (fun _ check => validateCheck check) tt l = Ok tt <->
  Forall (fun c => validateCheck c = Ok tt) l.
Proof.
  induction l as [|c l IH]; cbn [fold_result]; [by rewrite Forall_nil|]. rewrite Forall_cons, <- IH.
  destruct (validateCheck c) as [[]|]; cbn [result_bind]; [tauto|]. split; [done|]. by intros [? _].
Qed.

Lemma canonicalizeChecks_spec l n :
  canonicalizeChecks l = Ok n <->
  slen l <= MaxChecks /\ Forall (fun c => validateCheck c = Ok tt) l /\ NoDup (map Name l) /\
  n = sort_on Name String.compare l.
Proof.
  unfold canonicalizeChecks. destruct (Z.ltb_spec MaxChecks (slen l)) as [Hl|Hl].
  { split; [done|]. intros [? _]. lia. }
  destruct (fold_result _ tt l) as [[]|] eqn:E; cbn [result_bind].
  2:{ split; [done|]. intros (_ & Hv & _). apply fold_validateCheck in Hv. congruence. }
  apply fold_validateCheck in E. pose proof (sort_on_perm Name String.compare l) as Hp.
  destruct (adjacent_equal _) eqn:E3.
  - split; [done|]. intros (_ & _ & Hnd & _). rewrite <- Hp in Hnd.
    apply adjacent_equal_nodup in Hnd; [congruence|apply sort_on_keys, _].
  - apply adjacent_equal_nodup in E3; [|apply sort_on_keys, _]. rewrite Hp in E3.
    split; [by intros [= <-]|]. by intros (_ & _ & _ & ->).
Qed.

Lemma canonicalizeChecks_idem l n : canonicalizeChecks l = Ok n -> canonicalizeChecks n = Ok n.
Proof.
  intros (Hl & Hv & Hnd & ->)%canonicalizeChecks_spec. apply canonicalizeChecks_spec.
  rewrite (sort_on_idem Name String.compare l Hnd). pose proof (sort_on_perm Name String.compare l) as Hp.
  set (sorted := sort_on Name String.compare l) in *.
  assert (Hlen : slen sorted = slen l) by (unfold slen; by rewrite Hp).
  split_and!; [lia|by rewrite Hp|by rewrite Hp|done].
Qed.

Lemma canonicalizeScoring_idem s checks n :
  canonicalizeScoring s checks = Ok n -> canonicalizeScoring n checks = Ok n.
Proof.
  unfold canonicalizeScoring.
  destruct (negb (validSHA256Digest _)) eqn:E1; [done|]. destruct (_ || _) eqn:E2 at 1; [done|].
  destruct (negb (_ =? _)) eqn:E3 at 1; [done|]. destruct (negb (_ =? _)) eqn:E4 at 1; [done|].
  destruct (_ <? _) eqn:E5; [done|]. destruct (existsb _ (se_BlockingReasons s)) eqn:E6; [done|].
  destruct (adjacent_equal _) eqn:E7; [done|]. destruct (existsb _ checks) eqn:E8; [done|].
  destruct (_ && _) eqn:E9 at 1; [done|]. destruct (_ && _) eqn:E10 at 1; [done|]. intros [= <-].
  cbn [se_ResultDigest se_ExecutionWeightBasisPoints se_CriticWeightBasisPoints se_MinScoreBasisPoints
    se_ExecutionScoreBasisPoints se_CriticScoreBasisPoints se_WeightedScoreBasisPoints se_BlockingReasons
    se_CriticRoute se_CorroborationArtifactDigest].
  assert (Hlen : slen (Strings (se_BlockingReasons s)) = slen (se_BlockingReasons s))
    by (unfold slen; by rewrite Strings_perm).
  by rewrite E1, E2, E3, E4, Hlen, E5, existsb_Strings, E6, Strings_idem, E7, E8, E9, E10.
Qed.

(** Passes one error guard of a computation known to succeed. *)
Ltac skip_guard H :=
  match type of H with (if ?b then Err _ else _) = _ => destruct b; [discriminate H|] end.

(** The parts of a canonical report. *)
Lemma canonicalizeReport_parts r n :
  canonicalizeReport r = Ok n ->
  canonicalizeHelpers (vr_HelperImageDigests r) = Ok (vr_HelperImageDigests n) /\
  canonicalizeSkills (vr_SkillDigests r) = Ok (vr_SkillDigests n) /\
  canonicalizeEvidence (vr_Evidence r) = Ok (vr_Evidence n) /\
  canonicalizeCommands (vr_Commands r) = Ok (vr_Commands n) /\
  canonicalizeChecks (vr_Checks r) = Ok (vr_Checks n) /\
  canonicalizeScoring (vr_Scoring r) (vr_Checks n) = Ok (vr_Scoring n) /\
  vr_Verdict r = scoringVerdictFromProjection (vr_Scoring n) /\ slen (vr_Checks n) <> 0 /\
  n = {| vr_SchemaVersion := vr_SchemaVersion r; vr_RunUID := vr_RunUID r;
         vr_SpecDigest := vr_SpecDigest r; vr_BaseSHA := vr_BaseSHA r;
         vr_PatchDigest := vr_PatchDigest r; vr_GateUID := vr_GateUID r;
         vr_GateGeneration := vr_GateGeneration r; vr_RuntimeImageDigest := vr_RuntimeImageDigest r;
         vr_VerifierImageDigest := vr_VerifierImageDigest r;
         vr_HelperImageDigests := vr_HelperImageDigests n; vr_SkillDigests := vr_SkillDigests n;
         vr_Evidence := vr_Evidence n; vr_Commands := vr_Commands n; vr_Checks := vr_Checks n;
         vr_Scoring := vr_Scoring n; vr_Verdict := vr_Verdict r; vr_builtByGate := vr_builtByGate r |}.
Proof.
  unfold canonicalizeReport. intros H. do 6 skip_guard H.
  apply result_bind_ok in H as (helpers & H1 & H). apply result_bind_ok in H as (skills & H2 & H).
  apply result_bind_ok in H as (evidence & H3 & H). apply result_bind_ok in H as (commands & H4 & H).
  apply result_bind_ok in H as (checks & H5 & H). apply result_bind_ok in H as (scoring & H6 & H).
  destruct (_ || _) eqn:E in H; [done|]. injection H as <-. breflect. destruct E as [E1 E2].
  cbn [vr_HelperImageDigests vr_SkillDigests vr_Evidence vr_Commands vr_Checks vr_Scoring vr_Verdict].
  split_and!; try done. by rewrite E2.
Qed.

Lemma canonical_report_fixed r n : canonicalizeReport r = Ok n -> canonicalizeReport n = Ok n.
Proof.
  intros H. pose proof (canonicalizeReport_parts _ _ H) as (H1 & H2 & H3 & H4 & H5 & H6 & Hv & Hne & Hn).
  apply canonicalizeHelpers_idem in H1. apply canonicalizeSkills_idem in H2.
  apply canonicalizeEvidence_idem in H3. apply canonicalizeCommands_idem in H4.
  apply canonicalizeChecks_idem in H5. apply canonicalizeScoring_idem in H6.
  unfold canonicalizeReport in H |- *.
  assert (Heq : vr_SchemaVersion n = vr_SchemaVersion r /\ vr_RunUID n = vr_RunUID r /\
    vr_SpecDigest n = vr_SpecDigest r /\ vr_BaseSHA n = vr_BaseSHA r /\ vr_PatchDigest n = vr_PatchDigest r /\
    vr_GateUID n = vr_GateUID r /\ vr_GateGeneration n = vr_GateGeneration r /\
    vr_RuntimeImageDigest n = vr_RuntimeImageDigest r /\
    vr_VerifierImageDigest n = vr_VerifierImageDigest r /\ vr_Verdict n = vr_Verdict r /\
    vr_builtByGate n = vr_builtByGate r) by (rewrite Hn; done).
  destruct Heq as (-> & -> & -> & -> & -> & -> & -> & -> & -> & -> & ->).
  do 6 skip_guard H. rewrite H1. cbn [result_bind]. rewrite H2. cbn [result_bind].
  rewrite H3. cbn [result_bind]. rewrite H4. cbn [result_bind]. rewrite H5. cbn [result_bind]. rewrite H6.
  cbn [result_bind]. rewrite (proj2 (Z.eqb_neq _ _) Hne), <- Hv, bool_decide_eq_true_2 by done.
  cbn [negb orb]. f_equal. by rewrite Hn at 7.
Qed.

(** The canonical form of a report is a fixed point: canonicalising it
    again succeeds and changes nothing, so the bytes that are signed, stored,
    digested and verified are the same. *)
Theorem canonicalizeReport_idempotent r n (H : canonicalizeReport r = Ok n) : canonicalizeReport n = Ok n.
Proof. by eapply canonical_report_fixed. Qed.

(** ** Decisions of the Gate *)

Lemma fold_check_step seen l :
  is_ok (fold_result check_step seen l) = true <->
  Forall (fun c => validateCheck c = Ok tt) l /\ NoDup (map Name l) /\ (forall c, c ∈ l -> Name c ∉ seen).
Proof.
  revert seen. induction l as [|c l IH]; intros seen; cbn [fold_result map].
  { rewrite Forall_nil, NoDup_nil. cbn. set_solver. }
  rewrite Forall_cons, NoDup_cons. unfold check_step at 1.
  destruct (validateCheck c) as [[]|]; cbn [result_bind]; [|split; [done|]; by intros [[? _] _]].
  case_bool_decide as Hs; cbn [result_bind].
  { split; [done|]. intros (_ & _ & Hn). exfalso. apply (Hn c); [by left|done]. }
  rewrite IH. split.
  - intros (Hv & Hnd & Hn). split_and!; try done.
    + intros (c' & He & Hin)%list_elem_of_fmap. apply (Hn c' Hin). set_solver.
    + intros c' [->|Hin]%elem_of_cons; [done|]. specialize (Hn c' Hin). set_solver.
  - intros ((_ & Hv) & (Hc & Hnd) & Hn). split_and!; try done. intros c' Hin.
    assert (Name c' ∈ map Name l) by (apply list_elem_of_fmap; eauto).
    specialize (Hn c' ltac:(by right)). set_solver.
Qed.

(** Every name the Gate may use is acceptable to a report and to scoring. *)
Definition report_name (name : string) : bool :=
  negb ((len name =? 0) || (MaxReportCheckNameBytes <? len name) || negb (ValidString name) || has_nul name) &&
  validCheckName name.

Lemma all_names_ok : forallb (fun s => report_name s.1) all_signatures = true.
Proof. vm_compute. reflexivity. Qed.

Lemma evaluation_name input o : o ∈ evaluation_ops input -> report_name (op_name o) = true.
Proof.
  intros Hin. pose proof all_names_ok as Hall. apply forallb_true in Hall.
  pose proof (Forall_sublist _ _ _ (evaluation_sublist input) Hall) as Hs.
  apply (proj1 (Forall_forall _ _) Hs (signature o)). apply list_elem_of_fmap. by exists o.
Qed.

Lemma evaluate_checks_valid input c :
  c ∈ d_Checks (Evaluate input) -> validateCheck c = Ok tt /\ validCheckName (Name c) = true.
Proof.
  rewrite evaluate_checks. intros Hc. destruct (pf_from _ _ (evaluation_performed input) c Hc) as (o & Ho & ->).
  pose proof (evaluation_name input o Ho) as Hn. unfold report_name in Hn. apply andb_true_iff in Hn as [Hn Hv].
  apply negb_true_iff in Hn.
  pose proof (proj1 (Forall_forall _ _) (evaluation_messages_ok input) o Ho) as Hm. cbn in Hm.
  unfold message_ok in Hm. rewrite !andb_true_iff, negb_true_iff, Z.leb_le in Hm.
  destruct Hm as [[Hl Hu] Hz]. split; [|done]. unfold validateCheck. cbn [op_check Name Message]. rewrite Hn.
  unfold has_nul. rewrite Hu, Hz. rewrite (proj2 (Z.ltb_ge _ _)) by (unfold MaxReportMessageBytes; lia). done.
Qed.

Lemma evaluate_checks_count input :
  0 < slen (d_Checks (Evaluate input)) <= MaxChecks /\ NoDup (map Name (d_Checks (Evaluate input))).
Proof.
  rewrite evaluate_checks. pose proof (evaluation_performed input) as Hp. split; [|apply Hp].
  pose proof (pf_length _ _ Hp) as Hl. pose proof (sublist_length _ _ (evaluation_sublist input)) as Hs.
  rewrite length_map in Hs. assert (Hn : length all_signatures = 54%nat) by reflexivity.
  unfold slen, MaxChecks. split; [|lia].
  pose proof (evaluation_nonempty input) as Hne. destruct (evaluation_ops input) as [|o ops] eqn:E; [done|].
  destruct (pf_all _ _ Hp o ltac:(by left)) as (c & Hc & _).
  destruct (checks _); [by apply not_elem_of_nil in Hc|cbn; lia].
Qed.

Lemma evaluate_verdict_checks input :
  d_Verdict (Evaluate input) =
  if existsb (fun check => negb (Passed check)) (d_Checks (Evaluate input)) then Rejected else Accepted.
Proof.
  pose proof (evaluate_accepted input) as Ha. pose proof (evaluation_performed input) as Hp.
  assert (Hcase : d_Verdict (Evaluate input) = Accepted \/ d_Verdict (Evaluate input) = Rejected).
  { unfold Evaluate. cbn [d_Verdict]. destruct (negb _); auto. }
  assert (Hiff : Forall (fun o => op_passed o = true) (evaluation_ops input) <->
    existsb (fun check => negb (Passed check)) (d_Checks (Evaluate input)) = false).
  { rewrite evaluate_checks, existsb_false, !Forall_forall. split.
    - intros Hall c Hc. destruct (pf_from _ _ Hp c Hc) as (o & Ho & ->). cbn. by rewrite (Hall o Ho).
    - intros Hall o Ho. destruct (pf_all _ _ Hp o Ho) as (c & Hc & _ & <-).
      specialize (Hall c Hc). by apply negb_false_iff in Hall. }
  rewrite Hiff in Ha. destruct (existsb _ _).
  - destruct Hcase as [H|H]; [|done]. apply Ha in H. done.
  - by apply Ha.
Qed.

Lemma evaluate_records input : slen (d_commandRecords (Evaluate input)) <= MaxReportCommandRecords.
Proof.
  unfold Evaluate, command_results, evaluateCommands. cbn [d_commandRecords fst]. unfold slen.
  rewrite length_map, length_imap, length_take. unfold MaxReportCommandRecords, MaxCommands. lia.
Qed.

Lemma evaluate_decision_valid input : validateDecision (Evaluate input) = Ok tt.
Proof.
  destruct (evaluate_checks_count input) as [[H1 H2] Hnd]. unfold validateDecision.
  rewrite (proj2 (Z.eqb_neq _ _)) by lia. rewrite (proj2 (Z.ltb_ge _ _)) by done. cbn [orb].
  assert (Hok : is_ok (fold_result check_step ∅ (d_Checks (Evaluate input))) = true).
  { apply fold_check_step. split_and!; [|done|set_solver].
    apply Forall_forall. intros c Hc. by apply evaluate_checks_valid in Hc as [? _]. }
  destruct (fold_result check_step ∅ _); [|done]. cbn [result_bind].
  rewrite evaluate_verdict_checks, bool_decide_eq_true_2 by done. cbn [negb].
  by rewrite (proj2 (Z.ltb_ge _ _) (evaluate_records input)).
Qed.

(** Every decision the engine produces is well formed as the report layer
    demands: between 1 and 64 checks with distinct valid names and valid
    messages, a verdict that agrees with the checks, and at most 32 command
    records. *)
Theorem evaluate_validates input : validateDecision (Evaluate input) = Ok tt.
Proof. apply evaluate_decision_valid. Qed.

(** ** Accepted reports *)

Lemma scoring_accepts s checks n :
  canonicalizeScoring s checks = Ok n -> scoringVerdictFromProjection n = GateScoring.Accepted ->
  Forall (fun c => Passed c = true) checks /\ se_BlockingReasons n = [] /\
  se_MinScoreBasisPoints n <= se_WeightedScoreBasisPoints n.
Proof.
  intros H Hv. unfold scoringVerdictFromProjection in Hv.
  destruct (_ || _) eqn:E in Hv; [done|]. breflect. destruct E as [Hz Hw].
  assert (Hnil : se_BlockingReasons n = []).
  { unfold slen in Hz. destruct (se_BlockingReasons n); [done|cbn in Hz; lia]. }
  split_and!; [|done|lia].
  unfold canonicalizeScoring in H. do 6 skip_guard H.
  destruct (adjacent_equal _) in H; [done|]. destruct (existsb _ checks) eqn:E8 in H; [done|].
  do 2 skip_guard H. injection H as <-. cbn in Hnil. rewrite Hnil in E8.
  apply existsb_false in E8. eapply Forall_impl; [exact E8|]. cbn. intros c Hc.
  by rewrite andb_true_r, negb_false_iff in Hc.
Qed.

(** C24. A report whose canonical form says Accepted contains only passed
    checks, names no blocking reason and meets the minimum score; so a report
    built from a decision is Accepted only if the Gate accepted, whatever
    scoring was supplied. *)
Theorem accepted_report_sound context decision report
  (Hb : BuildReport context decision = Ok report) (Ha : vr_Verdict report = GateScoring.Accepted) :
  Decision_Accepted decision = true /\ Forall (fun c => Passed c = true) (d_Checks decision) /\
  vr_Checks report ≡ₚ d_Checks decision /\
  se_BlockingReasons (vr_Scoring report) = [] /\
  se_MinScoreBasisPoints (vr_Scoring report) <= se_WeightedScoreBasisPoints (vr_Scoring report).
Proof.
  unfold BuildReport in Hb. skip_guard Hb.
  destruct (validateDecision decision) as [[]|] eqn:Hd; [|done]. cbn [result_bind] in Hb.
  apply result_bind_ok in Hb as ([scoring verdict] & _ & Hb).
  pose proof (canonicalizeReport_parts _ _ Hb) as (_ & _ & _ & _ & Hc & Hs & Hv & _ & Hn).
  cbn [vr_Checks vr_Scoring vr_Verdict] in Hc, Hs, Hv.
  assert (Hver : scoringVerdictFromProjection (vr_Scoring report) = GateScoring.Accepted).
  { rewrite <- Hv. rewrite Hn in Ha. exact Ha. }
  destruct (scoring_accepts _ _ _ Hs Hver) as (Hall & Hnil & Hmin).
  apply canonicalizeChecks_spec in Hc as (_ & _ & _ & Hsort).
  assert (Hp : vr_Checks report ≡ₚ d_Checks decision) by (rewrite Hsort; apply sort_on_perm).
  rewrite Hp in Hall. split_and!; try done. unfold validateDecision in Hd. skip_guard Hd.
  apply result_bind_ok in Hd as (seen & _ & Hd). unfold Decision_Accepted.
  destruct (existsb _ _) eqn:E in Hd.
  { apply existsb_true in E as (c & Hin & Hf). apply (proj1 (Forall_forall _ _) Hall) in Hin.
    by rewrite Hin in Hf. }
  apply bool_decide_eq_true. destruct (bool_decide_reflect (d_Verdict decision = Accepted)); [done|].
  discriminate Hd.
Qed.

(** ** Signatures *)

Section SigningProofs.
Context (E : Ed25519) `{!Ed25519Laws E}.

Lemma sign_then_verify report key signed trusted : private_key E key ->
  SignReport E report key = Ok signed ->
  slen (Marshal (json_VerificationReport (sr_Report signed))) <= MaxReportBytes ->
  trusted = None \/ trusted = Some (ed_Public E key) ->
  VerifySignedReport E signed trusted = Ok tt.
Proof.
  intros Hk. unfold SignReport. destruct (negb _) in |- *; [done|].
  destruct (vr_builtByGate report); [cbn [negb]|done].
  destruct (canonicalizeReport report) as [n|] eqn:En; [|done]. cbn [result_bind].
  set (payload := Marshal (json_VerificationReport n)). intros Heq Hsize Ht. injection Heq as <-.
  cbn [sr_Report] in Hsize. fold payload in Hsize.
  destruct (public_bytes key Hk) as [Hpl Hpb]. destruct (sign_bytes key payload Hk) as [Hsl Hsb].
  unfold VerifySignedReport. cbn [sr_Algorithm sr_PublicKey sr_Signature sr_Report].
  rewrite bool_decide_eq_true_2 by done. cbn [negb].
  pose proof (EncodeToString_len _ Hsb) as Hlen. rewrite Hsl in Hlen.
  rewrite (DecodeString_EncodeToString _ Hpb), Hpl, Z.eqb_refl. cbn [negb].
  rewrite (DecodeString_EncodeToString _ Hsb), Hsl, Z.eqb_refl. cbn [negb orb].
  rewrite (proj2 (Z.ltb_ge maxReportSignatureEncoding _)) by (unfold maxReportSignatureEncoding, SignatureSize in *; lia).
  replace (match trusted with Some t => _ | None => _ end) with false.
  2:{ destruct Ht as [-> | ->]; [done|]. rewrite Hpl, bool_decide_eq_true_2 by done. done. }
  unfold CanonicalReportBytes. rewrite (canonical_report_fixed _ _ En). cbn [result_bind]. fold payload.
  rewrite (proj2 (Z.ltb_ge _ _) Hsize). cbn [result_bind]. by rewrite verify_sign.
Qed.
End SigningProofs.

(** C23. A report that [SignReport] signed with a key of the ed25519 package
    verifies under the public key of that key, and also without a trusted key,
    provided its canonical bytes are within the 8 MiB bound that only the verifier
    checks. *)
Theorem signed_report_verifies (E : Ed25519) (L : Ed25519Laws E) report key signed
  (Hk : private_key E key) (Hs : SignReport E report key = Ok signed)
  (Hsize : slen (Marshal (json_VerificationReport (sr_Report signed))) <= MaxReportBytes) :
  VerifySignedReport E signed (Some (ed_Public E key)) = Ok tt /\ VerifySignedReport E signed None = Ok tt.
Proof. split; eapply sign_then_verify; eauto. Qed.

(** ** Every decision can be reported *)

Lemma validSHA256Digest_eq v : validSHA256Digest v = ValidDigest v.
Proof.
  apply eq_true_iff_eq. rewrite ValidDigest_spec. unfold validSHA256Digest, HasPrefix.
  change (String.length "sha256:") with (length (bytes DigestPrefix)).
  change "sha256:"%string with DigestPrefix. rewrite !andb_true_iff, Z.eqb_eq, bool_decide_eq_true, !len_bytes.
  unfold slen. split.
  - intros ((Hl & [h Hh]) & Hf). exists h. rewrite Hh in Hl, Hf. rewrite length_app in Hl.
    rewrite drop_app_length in Hf. apply forallb_true in Hf. split_and!; [done|lia|done].
  - intros (h & -> & Hl & Hf). rewrite length_app, drop_app_length, forallb_true.
    split_and!; [lia|by eexists|done].
Qed.

Lemma validDigest_digestBytes body : validSHA256Digest (digestBytes body) = true.
Proof. rewrite validSHA256Digest_eq. apply ValidDigest_digestBytes. Qed.

(** Evidence of a decision *)

Lemma unique_valid_spec seen l :
  Forall (fun p => validRepoPath p = true) (unique_valid seen l) /\ NoDup (unique_valid seen l) /\
  (forall p, p ∈ unique_valid seen l -> p ∉ seen) /\ (length (unique_valid seen l) <= length l)%nat.
Proof.
  revert seen. induction l as [|p l IH]; intros seen; cbn [unique_valid].
  { split_and!; [constructor|apply NoDup_nil_2|set_solver|cbn; lia]. }
  destruct (validRepoPath p) eqn:Ev; cbn [andb].
  2:{ destruct (IH seen) as (H1 & H2 & H3 & H4). split_and!; try done. cbn. lia. }
  case_bool_decide as Hs; cbn [negb].
  { destruct (IH seen) as (H1 & H2 & H3 & H4). split_and!; try done. cbn. lia. }
  destruct (IH ({[p]} ∪ seen)) as (H1 & H2 & H3 & H4). split_and!.
  - by constructor.
  - apply NoDup_cons. split; [|done]. intros Hin. specialize (H3 p Hin). set_solver.
  - intros q [->|Hin]%elem_of_cons; [done|]. specialize (H3 q Hin). set_solver.
  - cbn. lia.
Qed.

Lemma validRepoPath_len p : validRepoPath p = true -> 0 <= len p <= Glob.MaxPathBytes.
Proof.
  unfold validRepoPath. destruct (_ || _) eqn:E; [done|]. intros _. breflect. unfold len in *. lia.
Qed.

Lemma summary_canonical o :
  slen (ob_ChangedPaths o) <= MaxChangedPaths -> canonicalizeEvidence (summary o) = Ok (summary o).
Proof.
  intros Hl. destruct (unique_valid_spec ∅ (ob_ChangedPaths o)) as (Hv & Hnd & _ & Hlen).
  unfold canonicalizeEvidence, summary. cbn [es_ChangedPaths es_FilesChanged es_LinesChanged es_CoverageDelta
    es_HasBinaryFiles es_NewTestsFailOnBase].
  set (paths := unique_valid ∅ (ob_ChangedPaths o)) in *.
  assert (Hl' : slen (Strings paths) <= MaxChangedPaths) by (unfold slen in *; rewrite Strings_perm; lia).
  rewrite (proj2 (Z.ltb_ge _ _) Hl').
  assert (Hp : is_ok (path_bytes 0 (Strings paths)) = true).
  { apply path_bytes_spec; [done|]. rewrite (sumZ_perm len _ _ (Strings_perm _)), Z.add_0_l.
    split; [by rewrite Strings_perm|].
    transitivity (Glob.MaxPathBytes * slen paths).
    - apply sumZ_bound. eapply Forall_impl; [exact Hv|]. intros p Hp. by apply validRepoPath_len.
    - unfold slen in *. unfold MaxReportChangedPathBytes, Glob.MaxPathBytes, MaxChangedPaths in *. lia. }
  destruct (path_bytes 0 (Strings paths)); [|done]. cbn [result_bind]. rewrite Strings_idem, existsb_Strings.
  replace (existsb _ paths) with false.
  2:{ symmetry. apply existsb_false. eapply Forall_impl; [exact Hv|]. cbn. by intros p ->. }
  rewrite (proj2 (adjacent_equal_nodup (Strings paths) (Strings_cmp_sorted _))) by (by rewrite Strings_perm).
  cbn [orb].
  assert (Hcount : forall v m, present (if negb (validCounter v m) then None else v) &&
    negb (validCounter (if negb (validCounter v m) then None else v) m) = false).
  { intros v m. destruct (validCounter v m) eqn:E; cbn; [by rewrite E, andb_false_r|done]. }
  rewrite !Hcount. destruct (ob_CoverageDelta o) as [c|]; [|done].
  destruct (normalizeDecimal c) as [d|] eqn:Ed; [|done]. cbn [result_bind].
  by rewrite (normalizeDecimal_fixed _ _ Ed).
Qed.

Lemma obs_paths_bound input : slen (ob_ChangedPaths (obs input)) <= MaxChangedPaths.
Proof.
  unfold obs, normalizeObservations. cbn [ob_ChangedPaths].
  destruct (Z.leb_spec (slen (ob_ChangedPaths (in_Observations input))) MaxChangedPaths).
  - unfold slen in *. by rewrite Strings_perm, length_map.
  - unfold slen, MaxChangedPaths. cbn. lia.
Qed.

(** Command records of a decision *)

Lemma digestVerifyCommand_valid c : validSHA256Digest (digestVerifyCommand c) = true.
Proof.
  unfold digestVerifyCommand. destruct (negb _); [vm_compute; reflexivity|apply validDigest_digestBytes].
Qed.

Lemma command_records_from observed configured k prev :
  (k + length configured <= 32)%nat -> (forall x, prev = Some x -> x < Z.of_nat k) ->
  command_records prev (imap (fun i c => (evaluate_command observed (k + i) c).1.1) configured) = Ok tt.
Proof.
  revert k prev. induction configured as [|c configured IH]; intros k prev Hk Hprev; [done|].
  cbn [imap]. rewrite Nat.add_0_r. cbn [length] in Hk.
  assert (Hrec : exists ob ex dg du, (evaluate_command observed k c).1.1 =
    {| rc_Index := Z.of_nat k; rc_ConfigDigest := digestVerifyCommand c; rc_Observed := ob;
       rc_ExitCode := ex; rc_EvidenceDigest := dg; rc_DurationMillis := du |} /\
    if ob : bool then present ex = true /\ validEvidenceDigest dg = true /\ validDuration du = true
    else ex = None /\ dg = ""%string /\ du = None).
  { unfold evaluate_command. destruct (items_at _ observed) as [|item [|item' rest]]; cbn [fst];
      try (do 4 eexists; split; [reflexivity|done]).
    destruct (_ && validDuration _) eqn:Ev; do 4 eexists; (split; [reflexivity|]); cbn; [|done].
    rewrite !andb_true_iff in Ev. destruct Ev as [[Hx Hd] Hu]. by split_and!. }
  destruct Hrec as (ob & ex & dg & du & -> & Hob). cbn [command_records rc_Index rc_ConfigDigest rc_Observed
    rc_ExitCode rc_EvidenceDigest rc_DurationMillis].
  rewrite digestVerifyCommand_valid, (proj2 (Z.ltb_ge _ 0)), (proj2 (Z.leb_gt _ _)) by (unfold MaxCommands; lia).
  cbn [negb orb]. rewrite bool_decide_eq_false_2.
  2:{ intros Hp. specialize (Hprev _ Hp). lia. }
  replace (ob && _) with false.
  2:{ destruct ob; [|done]. destruct Hob as (-> & -> & ->). done. }
  replace (negb ob && _) with false.
  2:{ destruct ob; [done|]. destruct Hob as (-> & -> & ->). done. }
  rewrite (imap_ext _ (fun i c => (evaluate_command observed (S k + i) c).1.1)).
  2:{ intros i x _. cbn. do 3 f_equal. lia. }
  apply IH; [lia|]. intros x [= <-]. lia.
Qed.

Lemma decision_commands_canonical input :
  canonicalizeCommands (d_commandRecords (Evaluate input)) = Ok (d_commandRecords (Evaluate input)).
Proof.
  unfold canonicalizeCommands. rewrite (proj2 (Z.ltb_ge _ _) (evaluate_records input)).
  assert (Hrec : d_commandRecords (Evaluate input) =
    imap (fun i c => (evaluate_command (ob_Commands (obs input)) (0 + i) c).1.1)
      (take 32 (in_Commands input))).
  { unfold Evaluate, command_results, evaluateCommands. cbn [d_commandRecords fst].
    change (Z.to_nat MaxCommands) with 32%nat. by rewrite fmap_imap. }
  set (records := d_commandRecords (Evaluate input)) in *.
  assert (Hidx : map rc_Index records = map Z.of_nat (seq 0 (length records))).
  { rewrite Hrec. clear. generalize (take 32 (in_Commands input)) as l. intros l.
    rewrite length_imap. apply list_eq. intros i. rewrite !list_lookup_fmap, list_lookup_imap.
    destruct (l !! i) as [c|] eqn:E; cbn.
    - rewrite lookup_seq_lt by (by eapply lookup_lt_Some). cbn. unfold evaluate_command. by repeat case_match.
    - rewrite lookup_seq_ge; [done|]. by apply lookup_ge_None. }
  rewrite sort_on_id.
  - rewrite Hrec, command_records_from; [done| |done]. rewrite length_take. lia.
  - apply _.
  - rewrite Hidx. apply NoDup_fmap_2; [apply _|apply NoDup_seq].
  - rewrite Hidx. generalize (length records) as n. generalize 0%nat as k. intros k n. revert k.
    induction n as [|n IH]; intros k; cbn; constructor; [apply IH|]. destruct n; cbn; constructor.
    unfold cmp_le. rewrite (proj2 (Z.compare_lt_iff _ _)); [done|lia].
Qed.

(** Execution-only scoring of a decision *)

Definition check_of (c : GateCheck) : ExecutionCheck :=
  {| ec_Name := Name c; ec_Passed := Passed c; ec_Blocking := true |}.

Definition default_signals : GateSignalsSpec :=
  {| ExecutionWeightBasisPoints := GateScoreScale; Critic := None; MinScoreBasisPoints := GateScoreScale |}.

(** The scoring result that [scoringForReport] materializes. *)
Definition execution_only (checks : list GateCheck) (score : Z) : GateScoring.Result :=
  let sorted := map check_of (sort_on Name String.compare checks) in
  scored default_signals {| ScoreBasisPoints := score; Checks := Some sorted |} None GateScoreScale score
    (normalizeReasons (all_reasons default_signals score (failure_reasons sorted) [])).

Lemma execution_only_evaluates checks score :
  score = 0 \/ score = GateScoreScale -> 0 < slen checks <= MaxExecutionChecks ->
  Forall (fun c => validCheckName (Name c) = true) checks -> NoDup (map Name checks) ->
  GateScoring.Evaluate {| in_Signals := None;
    in_Execution := {| ScoreBasisPoints := score; Checks := Some (map check_of checks) |};
    in_Critic := None |} = Ok (execution_only checks score).
Proof.
  intros Hsc Hl Hv Hnd. apply evaluate_spec.
  exists default_signals, {| ScoreBasisPoints := score;
    Checks := Some (map check_of (sort_on Name String.compare checks)) |},
    (failure_reasons (map check_of (sort_on Name String.compare checks))), None, GateScoreScale, [], score.
  split_and!; try done.
  - apply normalizeExecution_spec. cbn [in_Execution ScoreBasisPoints Checks]. split.
    { unfold GateScoreScale in *. lia. }
    exists (map check_of checks). rewrite sort_on_map by done. split_and!; try done.
    + unfold slen in *. rewrite length_map. lia.
    + unfold slen in *. rewrite length_map. lia.
    + by rewrite Forall_map.
    + by rewrite map_map.
  - destruct Hsc as [-> | ->]; reflexivity.
Qed.

Lemma reason_len reason : reason_ok reason = true -> len reason <= MaxReasonBytes.
Proof. unfold reason_ok. intros H. breflect. lia. Qed.

Lemma normalizeReasons_bounds l :
  slen (normalizeReasons l) <= MaxBlockingReasons /\
  Forall (fun r => reason_ok r = true) (normalizeReasons l) /\ NoDup (normalizeReasons l) /\
  Sorted String.le (normalizeReasons l).
Proof.
  destruct (unique_spec l) as (Hs & Hnd & Hin). unfold normalizeReasons. set (u := unique_reasons _ _) in *.
  assert (Hok : Forall (fun r => reason_ok r = true) u).
  { apply Forall_forall. intros r Hr. by apply Hin in Hr as [_ ?]. }
  assert (Hsub : forall n, take n u `sublist_of` u).
  { intros n. rewrite <- (take_drop n u) at 2. apply sublist_inserts_r. done. }
  destruct (Z.ltb_spec MaxBlockingReasons (slen u)).
  - split_and!.
    + unfold slen. rewrite length_take. unfold MaxBlockingReasons, MaxExecutionChecks, Corroboration.MaxFindings. lia.
    + eapply Forall_sublist; [apply Hsub|exact Hok].
    + eapply sublist_NoDup; [exact Hnd|apply Hsub].
    + apply StronglySorted_Sorted. rewrite <- (take_drop (Z.to_nat MaxBlockingReasons) u) in Hs.
      by apply StronglySorted_app in Hs as (_ & ? & _).
  - split_and!; try done. by apply StronglySorted_Sorted.
Qed.

(** The encoded result stays within its bound. *)
Lemma execution_only_size checks score :
  score = 0 \/ score = GateScoreScale -> slen checks <= MaxExecutionChecks ->
  Forall (fun c => validCheckName (Name c) = true) checks ->
  slen (Marshal (json_Result (execution_only checks score))) <= GateScoring.MaxResultBytes.
Proof.
  intros Hsc Hl Hv. unfold execution_only. set (sorted := map check_of _).
  set (reasons := normalizeReasons _). destruct (normalizeReasons_bounds
    (all_reasons default_signals score (failure_reasons sorted) [])) as (Hrl & Hrok & _). fold reasons in Hrl, Hrok.
  assert (Hsorted : slen sorted <= MaxExecutionChecks /\ Forall (fun c => len (ec_Name c) <= 128) sorted).
  { unfold sorted. split.
    - unfold slen in *. by rewrite length_map, sort_on_perm.
    - apply Forall_map. rewrite sort_on_perm. eapply Forall_impl; [exact Hv|]. cbn. intros c Hc.
      unfold validCheckName in Hc. breflect. lia. }
  destruct Hsorted as [Hsl Hsn].
  assert (Hchecks : slen (Marshal (JArray (map json_ExecutionCheck sorted))) <= 2 + (1000 + 1) * slen sorted).
  { apply marshal_array_len. eapply Forall_impl; [exact Hsn|]. cbv beta. intros c Hc.
    etransitivity; [apply marshal_object_len|]. cbn [sumZ foldr fst snd].
    pose proof (json_string_len (bytes (ec_Name c))) as Hj. rewrite <- len_bytes in Hj.
    assert (Hb : forall b, slen (Marshal (JBool b)) <= 5) by (intros []; vm_compute; discriminate).
    pose proof (Hb (ec_Passed c)). pose proof (Hb (ec_Blocking c)). change (Marshal (JString (ec_Name c))) with (json_string (bytes (ec_Name c))).
    change (len "name") with 4. change (len "passed") with 6. change (len "blocking") with 8. lia. }
  assert (Hreasons : slen (Marshal (JArray (map JString reasons))) <= 2 + (1538 + 1) * slen reasons).
  { apply marshal_array_len. eapply Forall_impl; [exact Hrok|]. cbv beta. intros r Hr. apply reason_len in Hr.
    change (Marshal (JString r)) with (json_string (bytes r)).
    pose proof (json_string_len (bytes r)) as Hj. rewrite <- len_bytes in Hj. unfold MaxReasonBytes in Hr. lia. }
  etransitivity; [apply marshal_object_len|].
  assert (Hverdict : slen (Marshal (JString (if 0 <? slen reasons then GateScoring.Rejected else GateScoring.Accepted))) <= 20)
    by (destruct (_ <? _); vm_compute; discriminate).
  assert (Hscore : slen (Marshal (JInt score)) <= 20) by (destruct Hsc as [-> | ->]; vm_compute; discriminate).
  assert (Hsig : slen (Marshal (json_GateSignalsSpec default_signals)) <= 100) by (vm_compute; discriminate).
  assert (Hscale : slen (Marshal (JInt GateScoreScale)) <= 20) by (vm_compute; discriminate).
  assert (Hschema : slen (Marshal (JString GateScoring.SchemaVersion)) <= 100) by (vm_compute; discriminate).
  cbn [scored json_Result r_SchemaVersion r_Signals r_ExecutionScoreBasisPoints r_CriticScoreBasisPoints
    r_WeightedScoreBasisPoints r_ExecutionChecks r_CriticResult r_BlockingReasons r_Verdict ScoreBasisPoints Checks
    omit_nil app sumZ foldr fst snd json_slice].
  change (len "schemaVersion") with 13. change (len "signals") with 7. change (len "executionScoreBasisPoints") with 25.
  change (len "criticScoreBasisPoints") with 22. change (len "weightedScoreBasisPoints") with 24.
  change (len "executionChecks") with 15. change (len "blockingReasons") with 15. change (len "verdict") with 7.
  unfold GateScoring.MaxResultBytes, MaxBlockingReasons, MaxExecutionChecks, Corroboration.MaxFindings in *. lia.
Qed.

Lemma execution_only_fixed checks score :
  score = 0 \/ score = GateScoreScale -> 0 < slen checks <= MaxExecutionChecks ->
  Forall (fun c => validCheckName (Name c) = true) checks -> NoDup (map Name checks) ->
  GateScoring.CanonicalResultBytes (execution_only checks score) =
  Ok (Marshal (json_Result (execution_only checks score))).
Proof.
  intros Hsc Hl Hv Hnd. unfold GateScoring.CanonicalResultBytes.
  rewrite (evaluate_fixed _ _ (execution_only_evaluates checks score Hsc Hl Hv Hnd)). cbn [result_bind].
  by rewrite (proj2 (Z.ltb_ge _ _) (execution_only_size checks score Hsc ltac:(lia) Hv)).
Qed.

Lemma execution_only_bound decision score :
  validateScoringBinding (execution_only (d_Checks decision) score) decision None "" = Ok tt.
Proof.
  unfold validateScoringBinding, execution_only, scored. cbn [r_ExecutionChecks elems Checks r_Signals default_signals
    Critic r_CriticResult r_CriticScoreBasisPoints ExecutionWeightBasisPoints MinScoreBasisPoints present].
  set (sorted := sort_on Name String.compare (d_Checks decision)).
  replace (slen (map check_of sorted)) with (slen (d_Checks decision))
    by (unfold slen, sorted; by rewrite length_map, sort_on_perm).
  rewrite Z.eqb_refl. cbn [negb].
  replace (existsb _ (zip _ sorted)) with false; [done|].
  generalize sorted as l. induction l as [|c l IH]; [done|]. cbn [map zip zip_with existsb fst snd].
  rewrite <- IH. cbn. rewrite bool_decide_eq_true_2, eqb_reflx by done. done.
Qed.

(** The projection that a report carries for an execution-only result. *)
Definition execution_projection (checks : list GateCheck) (score : Z) : ScoringEvidence :=
  let r := execution_only checks score in
  {| se_ResultDigest := digestBytes (Marshal (json_Result r));
     se_ExecutionWeightBasisPoints := GateScoreScale; se_CriticWeightBasisPoints := 0;
     se_MinScoreBasisPoints := GateScoreScale; se_ExecutionScoreBasisPoints := score;
     se_CriticScoreBasisPoints := GateScoreScale; se_WeightedScoreBasisPoints := score;
     se_BlockingReasons := elems (r_BlockingReasons r); se_CriticRoute := None;
     se_CorroborationArtifactDigest := "" |}.

Lemma scoringForReport_execution_only context decision score :
  rx_Scoring context = None -> score = (if Decision_Accepted decision then GateScoreScale else 0) ->
  0 < slen (d_Checks decision) <= MaxExecutionChecks ->
  Forall (fun c => validCheckName (Name c) = true) (d_Checks decision) -> NoDup (map Name (d_Checks decision)) ->
  scoringForReport context decision =
  Ok (execution_projection (d_Checks decision) score, r_Verdict (execution_only (d_Checks decision) score)).
Proof.
  intros Hn Hscore Hl Hv Hnd. unfold scoringForReport. rewrite Hn, <- Hscore.
  assert (Hsc : score = 0 \/ score = GateScoreScale) by (destruct (Decision_Accepted decision); auto).
  change (fun check => {| ec_Name := Name check; ec_Passed := Passed check; ec_Blocking := true |}) with check_of.
  rewrite execution_only_evaluates by done. cbn [wrap result_bind].
  unfold GateScoring.ResultDigest. rewrite execution_only_fixed by done. cbn [wrap result_bind].
  rewrite execution_only_bound. cbn [result_bind]. done.
Qed.

Lemma projection_canonical checks score :
  score = 0 \/ score = GateScoreScale -> slen checks <= MaxExecutionChecks ->
  Forall (fun c => validCheckName (Name c) = true) checks ->
  (score = GateScoreScale <-> Forall (fun c => Passed c = true) checks) ->
  canonicalizeScoring (execution_projection checks score) (sort_on Name String.compare checks) =
    Ok (execution_projection checks score) /\
  scoringVerdictFromProjection (execution_projection checks score) =
    r_Verdict (execution_only checks score) /\
  r_Verdict (execution_only checks score) =
    (if bool_decide (score = GateScoreScale) then GateScoring.Accepted else GateScoring.Rejected).
Proof.
  intros Hsc Hl Hv Hpass. unfold execution_projection, execution_only, scored.
  set (sorted := sort_on Name String.compare checks).
  set (failures := failure_reasons (map check_of sorted)).
  cbn [r_BlockingReasons elems r_Verdict]. set (reasons := normalizeReasons _).
  pose proof (sort_on_perm Name String.compare checks) as Hp. fold sorted in Hp.
  destruct (normalizeReasons_bounds (all_reasons default_signals score failures [])) as (Hrl & Hrok & Hrnd & Hrs).
  fold reasons in Hrl, Hrok, Hrnd, Hrs.
  destruct (failure_reasons_ok (map check_of sorted)) as [Hfok Hflen].
  { rewrite Forall_map. cbn. by rewrite Hp. }
  fold failures in Hfok, Hflen. unfold slen in Hflen. rewrite length_map, Hp in Hflen. fold (slen checks) in Hflen.
  fold (slen failures) in Hflen.
  assert (Hnil : reasons = [] <-> score = GateScoreScale).
  { unfold reasons. rewrite normalizeReasons_nil by (apply all_reasons_ok; [done|constructor]).
    unfold all_reasons. cbn [app default_signals MinScoreBasisPoints].
    destruct Hsc as [-> | ->]; cbn; [split; [by intros [_ ?]%app_eq_nil|done]|].
    rewrite app_nil_r. split; [done|]. intros _. apply failure_reasons_nil.
    rewrite Forall_map. cbn. rewrite Hp. eapply Forall_impl; [by apply Hpass|]. auto. }
  assert (Hverdict : (0 <? slen reasons) = negb (bool_decide (score = GateScoreScale))).
  { destruct (bool_decide_reflect (score = GateScoreScale)) as [H|H].
    - by rewrite (proj2 Hnil H).
    - destruct reasons; [by destruct H; apply Hnil|]. done. }
  split_and!.
  - unfold canonicalizeScoring. cbn [se_ResultDigest se_ExecutionWeightBasisPoints se_CriticWeightBasisPoints
      se_MinScoreBasisPoints se_ExecutionScoreBasisPoints se_CriticScoreBasisPoints se_WeightedScoreBasisPoints
      se_BlockingReasons se_CriticRoute se_CorroborationArtifactDigest].
    rewrite validDigest_digestBytes. cbn [negb].
    replace (_ || negb (score_in_range score)) with false by (destruct Hsc as [-> | ->]; reflexivity).
    replace (negb (GateScoreScale + 0 =? GateScoreScale)) with false by reflexivity.
    replace (negb (score =? _)) with false by (destruct Hsc as [-> | ->]; reflexivity).
    rewrite (proj2 (Z.ltb_ge _ _) Hrl).
    replace (existsb _ reasons) with false.
    2:{ symmetry. apply existsb_false. eapply Forall_impl; [exact Hrok|]. cbv beta. intros r Hr.
        unfold reason_ok in Hr. apply negb_true_iff in Hr. exact Hr. }
    assert (Hid : Strings reasons = reasons).
    { apply (Sorted_unique String.le); [apply Strings_sorted|done|apply Strings_perm]. }
    rewrite Hid, (proj2 (adjacent_equal_nodup reasons ltac:(rewrite <- Hid; apply Strings_cmp_sorted)) Hrnd).
    replace (existsb _ sorted) with false; [by destruct Hsc as [-> | ->]|].
    symmetry. apply existsb_false, Forall_forall. intros c Hin. destruct (Passed c) eqn:Epc; [done|]. cbn [negb andb].
    apply negb_false_iff. unfold containsString. apply existsb_true. exists ("execution." +:+ Name c).
    split; [|by apply bool_decide_eq_true]. apply veto_kept.
    + lia.
    + done.
    + apply reason_ok_token; [reflexivity|done|]. apply validCheckName_token.
      rewrite Hp in Hin. by apply (proj1 (Forall_forall _ _) Hv).
    + done.
    + rewrite app_nil_r. apply list_elem_of_fmap. exists (check_of c). split; [done|].
      apply list_elem_of_filter. unfold blocking_failure. cbn. rewrite Epc. split; [done|].
      apply list_elem_of_fmap. by exists c.
  - unfold scoringVerdictFromProjection. cbn [se_BlockingReasons se_WeightedScoreBasisPoints se_MinScoreBasisPoints].
    assert (Hz : negb (slen reasons =? 0) = (0 <? slen reasons)) by (by destruct reasons). rewrite Hz, Hverdict.
    destruct Hsc as [-> | ->]; reflexivity.
  - rewrite Hverdict. by destruct (bool_decide _).
Qed.

(** The identity part of a context, as [canonicalizeReport] checks it. *)
Definition context_ok (context : ReportContext) : Prop :=
  validRunUID (rx_RunUID context) = true /\
  validSHA256Digest (rx_SpecDigest context) = true /\ validSHA256Digest (rx_PatchDigest context) = true /\
  baseSHAPattern (rx_BaseSHA context) = true /\
  validRunUID (rx_GateUID context) = true /\ 0 < rx_GateGeneration context /\
  validImageDigest (rx_RuntimeImageDigest context) = true /\
  validImageDigest (rx_VerifierImageDigest context) = true /\
  is_ok (canonicalizeHelpers (rx_HelperImageDigests context)) = true /\
  is_ok (canonicalizeSkills (rx_SkillDigests context)) = true.

(** C25. The Gate can always report what it decided: for every input and every
    well-formed context without a critic, building the report of the
    engine's decision succeeds, and the report has the decision's verdict and
    exactly its checks. *)
Theorem decision_reportable context input (Hs : rx_Scoring context = None) (Hc : context_ok context) :
  exists report, BuildReport context (Evaluate input) = Ok report /\
    vr_Verdict report = d_Verdict (Evaluate input) /\
    vr_Checks report = sort_on Name String.compare (d_Checks (Evaluate input)) /\
    vr_Evidence report = d_evidence (Evaluate input) /\ vr_builtByGate report = true.
Proof.
  set (d := Evaluate input). set (score := if Decision_Accepted d then GateScoreScale else 0).
  destruct (evaluate_checks_count input) as [Hl Hnd]. fold d in Hl, Hnd.
  assert (Hv : Forall (fun c => validCheckName (Name c) = true) (d_Checks d)).
  { apply Forall_forall. intros c Hin. by apply evaluate_checks_valid in Hin as [_ ?]. }
  assert (Hsc : score = 0 \/ score = GateScoreScale) by (unfold score; destruct (Decision_Accepted d); auto).
  assert (Hpass : score = GateScoreScale <-> Forall (fun c => Passed c = true) (d_Checks d)).
  { unfold score, Decision_Accepted. pose proof (evaluate_verdict_checks input) as Hvd. fold d in Hvd. rewrite Hvd.
    destruct (existsb _ _) eqn:E.
    - rewrite bool_decide_eq_false_2 by done. split; [done|]. intros Hall.
      apply existsb_true in E as (c & Hin & Hf). apply (proj1 (Forall_forall _ _) Hall) in Hin. by rewrite Hin in Hf.
    - rewrite bool_decide_eq_true_2 by done. split; [|done]. intros _. apply existsb_false in E.
      eapply Forall_impl; [exact E|]. cbn. intros c Hcc. by apply negb_false_iff in Hcc. }
  destruct (projection_canonical (d_Checks d) score Hsc ltac:(unfold MaxChecks, MaxExecutionChecks in *; lia) Hv Hpass)
    as (Hcan & Hver & Hval).
  destruct Hc as (H1 & H2 & H3 & H4 & H5 & H6 & H7 & H8 & H9 & H10).
  destruct (canonicalizeHelpers (rx_HelperImageDigests context)) as [helpers|] eqn:Eh; [|done].
  destruct (canonicalizeSkills (rx_SkillDigests context)) as [skills|] eqn:Ek; [|done].
  assert (Hchecks : canonicalizeChecks (d_Checks d) = Ok (sort_on Name String.compare (d_Checks d))).
  { apply canonicalizeChecks_spec. split_and!; try done; [lia|]. apply Forall_forall. intros c Hin.
    by apply evaluate_checks_valid in Hin as [? _]. }
  eexists. split.
  { unfold BuildReport. fold d. change (d_evaluated d) with true. cbn [negb].
    rewrite (evaluate_decision_valid input : validateDecision d = Ok tt). cbn [result_bind].
    rewrite (scoringForReport_execution_only context d score) by
      (done || (unfold MaxChecks, MaxExecutionChecks in *; lia)). cbn [result_bind].
    unfold canonicalizeReport. cbn [vr_SchemaVersion vr_RunUID vr_SpecDigest vr_PatchDigest vr_BaseSHA vr_GateUID
      vr_GateGeneration vr_RuntimeImageDigest vr_VerifierImageDigest vr_HelperImageDigests vr_SkillDigests vr_Evidence
      vr_Commands vr_Checks vr_Scoring vr_Verdict vr_builtByGate].
    rewrite bool_decide_eq_true_2 by done. rewrite H1, H2, H3, H4, H5, H7, H8. cbn [negb orb].
    rewrite (proj2 (Z.ltb_ge 64 _)) by (unfold baseSHAPattern in H4; breflect; lia).
    rewrite (proj2 (Z.leb_gt _ 0)) by done. rewrite Eh. cbn [result_bind]. rewrite Ek. cbn [result_bind].
    change (d_evidence d) with (summary (obs input)). rewrite (summary_canonical _ (obs_paths_bound input)).
    cbn [result_bind]. rewrite (decision_commands_canonical input : canonicalizeCommands (d_commandRecords d) = _). cbn [result_bind].
    rewrite Hchecks. cbn [result_bind]. rewrite Hcan. cbn [result_bind]. rewrite Hver.
    replace (slen (sort_on Name String.compare (d_Checks d)) =? 0) with false.
    2:{ symmetry. apply Z.eqb_neq. unfold slen in *. rewrite sort_on_perm. lia. }
    rewrite bool_decide_eq_true_2 by done. cbn [negb orb]. reflexivity. }
  cbn [vr_Verdict vr_Checks vr_Evidence vr_builtByGate]. split_and!; try done.
  rewrite Hval. pose proof (evaluate_verdict_checks input) as Hvd. fold d in Hvd. rewrite Hvd.
  destruct (existsb _ _) eqn:E.
  - rewrite bool_decide_eq_false_2; [done|]. rewrite Hpass. intros Hall.
    apply existsb_true in E as (c & Hin & Hf). apply (proj1 (Forall_forall _ _) Hall) in Hin. by rewrite Hin in Hf.
  - rewrite bool_decide_eq_true_2; [done|]. rewrite Hpass. apply existsb_false in E.
    eapply Forall_impl; [exact E|]. cbn. intros c Hcc. by apply negb_false_iff in Hcc.
Qed.

(** ** A concrete report *)

Definition sample_context : ReportContext :=
  {| rx_RunUID := "run-1"; rx_SpecDigest := sample_digest; rx_BaseSHA := of_bytes (replicate 40 0x61);
     rx_PatchDigest := sample_digest; rx_GateUID := "gate-1"; rx_GateGeneration := 1;
     rx_RuntimeImageDigest := "runtime@" +:+ sample_digest; rx_VerifierImageDigest := "verifier@" +:+ sample_digest;
     rx_HelperImageDigests := [{| im_Name := "clone"; im_Digest := "clone@" +:+ sample_digest |}];
     rx_SkillDigests := []; rx_Scoring := None |}.

Definition sample_patch : Input := sample_input ["src/b.go"; "src/a.go"]%string.

Lemma sample_context_ok : context_ok sample_context.
Proof. repeat split; vm_compute; reflexivity. Qed.

Lemma decision_reportable_witness :
  exists report, BuildReport sample_context (Evaluate sample_patch) = Ok report /\
    vr_Verdict report = Accepted.
Proof.
  destruct (decision_reportable sample_context sample_patch eq_refl sample_context_ok) as (r & Hr & Hv & _).
  exists r. split; [exact Hr|]. rewrite Hv. vm_compute. reflexivity.
Defined.

Lemma sample_report_ok : is_ok (BuildReport sample_context (Evaluate sample_patch)) = true.
Proof. vm_compute. reflexivity. Qed.

Lemma canonicalizeReport_idempotent_witness :
  exists report, BuildReport sample_context (Evaluate sample_patch) = Ok report /\
    canonicalizeReport report = Ok report.
Proof.
  destruct (BuildReport sample_context (Evaluate sample_patch)) as [r|] eqn:E;
    [|pose proof sample_report_ok as H; rewrite E in H; discriminate H].
  exists r. split; [done|]. unfold BuildReport in E. cbn [d_evaluated Evaluate negb] in E.
  apply result_bind_ok in E as ([] & _ & E). apply result_bind_ok in E as ([s v] & _ & E).
  exact (canonicalizeReport_idempotent _ _ E).
Defined.

Lemma accepted_report_sound_witness :
  exists report, BuildReport sample_context (Evaluate sample_patch) = Ok report /\
    vr_Verdict report = GateScoring.Accepted /\ Decision_Accepted (Evaluate sample_patch) = true.
Proof.
  destruct (BuildReport sample_context (Evaluate sample_patch)) as [r|] eqn:E;
    [|pose proof sample_report_ok as H; rewrite E in H; discriminate H].
  assert (Ha : vr_Verdict r = GateScoring.Accepted).
  { vm_compute in E. injection E as <-. reflexivity. }
  exists r. split_and!; [done|done|]. exact (proj1 (accepted_report_sound _ _ _ E Ha)).
Defined.

(** A stand-in for Ed25519 that satisfies its laws: a key is a seed and its digest,
    which is the public key; a signature is the digest of public key and message,
    twice.  A key whose halves do not belong together is still a list of 64 bytes. *)
Definition toy_signature (public m : list Z) : list Z := Sha256.Sum256 (public ++ m) ++ Sha256.Sum256 (public ++ m).
Definition toy_ed25519 : Ed25519 :=
  {| ed_NewKeyFromSeed := fun seed => seed ++ Sha256.Sum256 seed;
     ed_Public := fun k => drop 32 k;
     ed_Sign := fun k m => toy_signature (Sha256.Sum256 (take 32 k)) m;
     ed_Verify := fun public m s => bool_decide (s = toy_signature public m) |}.

Lemma toy_public k : private_key toy_ed25519 k -> ed_Public toy_ed25519 k = Sha256.Sum256 (take 32 k).
Proof.
  intros (seed & Hl & _ & ->). assert (E : length seed = 32%nat) by (unfold slen, SeedSize in Hl; lia).
  cbn [ed_Public ed_NewKeyFromSeed toy_ed25519]. by rewrite <- E, take_app_length, drop_app_length.
Qed.
Lemma toy_laws : Ed25519Laws toy_ed25519.
Proof.
  split.
  - intros k Hk. rewrite toy_public by done. split; [unfold slen; by rewrite Sha256.Sum256_length|apply Sha256.Sum256_range].
  - intros k m _. cbn [ed_Sign toy_ed25519]. unfold toy_signature. split.
    + unfold slen. by rewrite length_app, !Sha256.Sum256_length.
    + apply Forall_app. split; apply Sha256.Sum256_range.
  - intros k m Hk. rewrite toy_public by done. by apply bool_decide_eq_true.
Qed.

Definition sample_key : list Z := ed_NewKeyFromSeed toy_ed25519 (replicate 32 1).
Lemma sample_key_made : private_key toy_ed25519 sample_key.
Proof. exists (replicate 32 1). split; [reflexivity|]. split; [by repeat constructor|reflexivity]. Qed.

Lemma signed_report_verifies_witness :
  exists report signed, BuildReport sample_context (Evaluate sample_patch) = Ok report /\
    SignReport toy_ed25519 report sample_key = Ok signed /\
    VerifySignedReport toy_ed25519 signed None = Ok tt.
Proof.
  assert (Hs : match BuildReport sample_context (Evaluate sample_patch) with
    | Ok r => match SignReport toy_ed25519 r sample_key with
              | Ok s => slen (Marshal (json_VerificationReport (sr_Report s))) <=? MaxReportBytes
              | Err _ => false end
    | Err _ => false end = true) by (vm_compute; reflexivity).
  destruct (BuildReport sample_context (Evaluate sample_patch)) as [r|] eqn:E; [|discriminate Hs].
  destruct (SignReport toy_ed25519 r sample_key) as [signed|] eqn:Es; [|discriminate Hs].
  exists r, signed. split_and!; [reflexivity|exact Es|].
  apply (signed_report_verifies toy_ed25519 toy_laws r sample_key signed sample_key_made Es).
  by apply Z.leb_le.
Defined.
