(* ===== verification/StrictJson.v ===== *)
(** * The strict JSON contract (src/v3/pkg/strictjson/strictjson.go)

    The bounded parser, structural equality and canonical writer used at
    capability, persistence and replay boundaries.

    The parser's state is the unread part of the document ([data[pos:]]); every
    method takes it and returns what is left.  [make(map[string]Value)] is the
    association list of the members in the order they were inserted; the parser
    keeps its keys distinct, and lookups and [len] are those of the map.  The
    recursion of [parseValue] and the loop of [parseString] carry fuel, which
    [parse] sets from the length of the document; [OutOfFuel] is the model's own
    error, and StrictJsonSpec proves it is never returned. *)

From stdpp Require Import pretty.
From S2P Require Import Prelude Order GoStrings Digest Digits GoJson.
Local Open Scope go_scope.
Local Open Scope string_scope.
Local Open Scope Z_scope.
Local Open Scope list_scope.

Definition MaxDocumentBytes : Z := Z.shiftl 1 20.
Definition MaxNumberLexemeBytes : Z := Z.shiftl 16 10.
Definition MaxMantissaDigits : Z := 8192.
Definition MaxAbsExponent : Z := 4096.
Definition MaxIntegerDigits : Z := 12288.
Definition MaxFractionDigits : Z := 4096.
Definition maxDepth : Z := 128.
Definition maxObjectMembers : Z := 1024.
Definition maxArrayItems : Z := 1024.
Definition maxStringBytes : Z := Z.shiftl 64 10.
Definition maxExponentDigits : Z := 6.

Inductive error : Type :=
| ErrInvalid
| ErrNotObject
| ErrDuplicateKey
| ErrNumberBudget
| ErrLimit
| OutOfFuel.

(** [digits] holds the significand's ASCII digits; zero has none. *)
Record decimal : Type := { negative : bool; significand : list Z; exponent : Z }.
Definition zero_decimal : decimal := {| negative := false; significand := []; exponent := 0 |}.

Inductive Value : Type :=
| nullValue
| booleanValue (boolean : bool)
| stringValue (s : string)
| numberValue (number : decimal)
| objectValue (object : list (string * Value))
| arrayValue (array : list Value).

(** ** Lexical helpers *)

Definition char_t : Z := 0x74.
Definition char_f : Z := 0x66.
Definition char_n : Z := 0x6E.
Definition char_u : Z := 0x75.
Definition char_e : Z := 0x65.
Definition char_E : Z := 0x45.
Definition lbrace : Z := 0x7B.
Definition rbrace : Z := 0x7D.
Definition lbracket : Z := 0x5B.
Definition rbracket : Z := 0x5D.
Definition comma : Z := 0x2C.
Definition colon : Z := 0x3A.
Definition plus : Z := 0x2B.
Definition minus : Z := 0x2D.
Definition dot : Z := 0x2E.

Definition is_blank (b : Z) : bool := (b =? 0x20) || (b =? 0x09) || (b =? 0x0A) || (b =? 0x0D).

Definition skipSpace (l : list Z) : list Z := trim_left is_blank l.

Definition consume (want : Z) (l : list Z) : option (list Z) :=
  match l with
  | b :: rest => if b =? want then Some rest else None
  | [] => None
  end.

Definition consumeLiteral (literal : string) (l : list Z) : option (list Z) :=
  if bool_decide (bytes literal `prefix_of` l) then Some (drop (String.length literal) l) else None.

Definition isValueDelimiter (value : Z) : bool :=
  (value =? comma) || (value =? rbracket) || (value =? rbrace) || is_blank value.

(** ** Strings *)

Definition hex_value (digit : Z) : option Z :=
  if between 0x30 0x39 digit then Some (digit - 0x30)
  else if between 0x61 0x66 digit then Some (digit - 0x61 + 10)
  else if between 0x41 0x46 digit then Some (digit - 0x41 + 10)
  else None.

Definition parseHexEscape (l : list Z) : result error (Z * list Z) :=
  match l with
  | d1 :: d2 :: d3 :: d4 :: rest =>
    match hex_value d1, hex_value d2, hex_value d3, hex_value d4 with
    | Some v1, Some v2, Some v3, Some v4 => Ok (((v1 * 16 + v2) * 16 + v3) * 16 + v4, rest)
    | _, _, _, _ => Err ErrInvalid
    end
  | _ => Err ErrInvalid
  end.

(** The bytes an escape stands for; [l] follows the backslash. *)
Definition parse_unicode_escape (l : list Z) : result error (list Z * list Z) :=
  let? (code, rest) := parseHexEscape l in
  if code =? 0 then Err ErrInvalid
  else if between 0xD800 0xDBFF code then
    match rest with
    | b1 :: b2 :: rest' =>
      if negb (b1 =? bslash) || negb (b2 =? char_u) then Err ErrInvalid
      else match parseHexEscape rest' with
           | Ok (low, rest'') =>
             if (low <? 0xDC00) || (0xDFFF <? low) then Err ErrInvalid
             else Ok (encode_rune (0x10000 + Z.shiftl (code - 0xD800) 10 + (low - 0xDC00)), rest'')
           | Err _ => Err ErrInvalid
           end
    | _ => Err ErrInvalid
    end
  else if between 0xDC00 0xDFFF code then Err ErrInvalid
  else Ok (encode_rune code, rest).

Definition parse_escape (l : list Z) : result error (list Z * list Z) :=
  match l with
  | [] => Err ErrInvalid
  | escape :: rest =>
    if (escape =? quote) || (escape =? bslash) || (escape =? slash) then Ok ([escape], rest)
    else if escape =? 0x62 then Ok ([0x08], rest)
    else if escape =? 0x66 then Ok ([0x0C], rest)
    else if escape =? 0x6E then Ok ([0x0A], rest)
    else if escape =? 0x72 then Ok ([0x0D], rest)
    else if escape =? 0x74 then Ok ([0x09], rest)
    else if escape =? char_u then parse_unicode_escape rest
    else Err ErrInvalid
  end.

(** The longest prefix of non-ASCII bytes. *)
Fixpoint span_high (l : list Z) : list Z * list Z :=
  match l with
  | b :: l' => if 0x80 <=? b then let '(d, r) := span_high l' in (b :: d, r) else ([], l)
  | [] => ([], [])
  end.

(** One turn of the loop, for a byte that is not the closing quote: the bytes
    it appends to [decoded] and the input left. *)
Definition string_step (current : Z) (rest : list Z) : result error (list Z * list Z) :=
  if current =? bslash then parse_escape rest
  else if current <? 0x20 then Err ErrInvalid
  else if current <? 0x80 then Ok ([current], rest)
  else
    let '(chunk, after) := span_high (current :: rest) in
    if negb (valid_utf8 chunk) then Err ErrInvalid else Ok (chunk, after).

Fixpoint string_loop (fuel : nat) (decoded l : list Z) : result error (list Z * list Z) :=
  match fuel with
  | O => Err OutOfFuel
  | S fuel =>
    match l with
    | [] => Err ErrInvalid
    | current :: rest =>
      if current =? quote then
        if maxStringBytes <? slen decoded then Err ErrLimit else Ok (decoded, rest)
      else
        let? (appended, rest') := string_step current rest in
        if maxStringBytes <? slen (decoded ++ appended) then Err ErrLimit
        else string_loop fuel (decoded ++ appended) rest'
    end
  end.

Definition parseString (l : list Z) : result error (string * list Z) :=
  match consume quote l with
  | None => Err ErrInvalid
  | Some rest =>
    let? (decoded, after) := string_loop (S (length rest)) [] rest in
    Ok (of_bytes decoded, after)
  end.

(** ** Numbers *)

Fixpoint exponent_loop (exponentDigits exponent : Z) (l : list Z) : result error (Z * list Z) :=
  match l with
  | b :: rest =>
    if is_digit b then
      if maxExponentDigits <? exponentDigits + 1 then Err ErrNumberBudget
      else
      let digit := b - zero in
      if Z.quot (MaxAbsExponent - digit) 10 <? exponent then Err ErrNumberBudget
      else if MaxAbsExponent <? exponent * 10 + digit then Err ErrNumberBudget
      else exponent_loop (exponentDigits + 1) (exponent * 10 + digit) rest
    else Ok (exponent, l)
  | [] => Ok (exponent, [])
  end.

(** The integer digits: [0], or a digit string without a leading zero. *)
Definition parse_integer (l : list Z) : result error (list Z * list Z) :=
  match l with
  | [] => Err ErrInvalid
  | b :: rest =>
    if b =? zero then
      match rest with
      | c :: _ => if is_digit c then Err ErrInvalid else Ok ([b], rest)
      | [] => Ok ([b], rest)
      end
    else if between 0x31 0x39 b then Ok (span_digits l)
    else Err ErrInvalid
  end.

Definition parse_fraction (l : list Z) : result error (list Z * list Z) :=
  match consume dot l with
  | None => Ok ([], l)
  | Some rest =>
    let '(fraction, after) := span_digits rest in
    if fraction =?= [] then Err ErrInvalid else Ok (fraction, after)
  end.

Definition parse_exponent (l : list Z) : result error (Z * list Z) :=
  match l with
  | b :: rest =>
    if (b =? char_e) || (b =? char_E) then
      let '(exponentNegative, start) :=
        match consume minus rest with
        | Some r => (true, r)
        | None => (false, match consume plus rest with Some r => r | None => rest end)
        end in
      let? (exponent, after) := exponent_loop 0 0 start in
      if slen after =? slen start then Err ErrInvalid
      else Ok (if exponentNegative then - exponent else exponent, after)
    else Ok (0, l)
  | [] => Ok (0, l)
  end.

(** Placement of the decimal point: the trimmed significand and its exponent. *)
Definition place_decimal (neg : bool) (mantissa : list Z) (fractionDigits exp : Z) : result error decimal :=
  if MaxMantissaDigits <? slen mantissa then Err ErrNumberBudget
  else
  let trimmed := trim_left (Z.eqb zero) mantissa in
  if trimmed =?= [] then
    let fractionalDigits := if exp <? 0 then fractionDigits + - exp else fractionDigits in
    if MaxFractionDigits <? fractionalDigits then Err ErrNumberBudget else Ok zero_decimal
  else
  let kept := trim_right (Z.eqb zero) trimmed in
  let trailingZeros := slen trimmed - slen kept in
  let exp := exp + (trailingZeros - fractionDigits) in
  let integerDigits := slen kept + exp in
  if (MaxAbsExponent <? exp) || (exp <? - MaxAbsExponent) || (MaxIntegerDigits <? integerDigits)
     || (exp <? - MaxFractionDigits)
  then Err ErrNumberBudget
  else Ok {| negative := neg; significand := kept; exponent := exp |}.

Definition parseNumber (l : list Z) : result error (decimal * list Z) :=
  let '(neg, l1) := match consume minus l with Some r => (true, r) | None => (false, l) end in
  let? (integer, l2) := parse_integer l1 in
  let? (fraction, l3) := parse_fraction l2 in
  let? (exp, l4) := parse_exponent l3 in
  if MaxNumberLexemeBytes <? slen l - slen l4 then Err ErrNumberBudget
  else if match l4 with b :: _ => negb (isValueDelimiter b) | [] => false end then Err ErrInvalid
  else
  let? d := place_decimal neg (integer ++ fraction) (slen fraction) exp in
  Ok (d, l4).

(** ** Values *)

Definition has_key {A : Type} (key : string) (members : list (string * A)) : bool :=
  existsb (fun m => m.1 =?= key) members.

Fixpoint parseValue (fuel : nat) (depth : Z) (l : list Z) {struct fuel} : result error (Value * list Z) :=
  match fuel with
  | O => Err OutOfFuel
  | S fuel =>
    if maxDepth <? depth then Err ErrLimit
    else
    match l with
    | [] => Err ErrInvalid
    | b :: _ =>
      if b =? char_n then
        match consumeLiteral "null" l with Some r => Ok (nullValue, r) | None => Err ErrInvalid end
      else if b =? char_t then
        match consumeLiteral "true" l with Some r => Ok (booleanValue true, r) | None => Err ErrInvalid end
      else if b =? char_f then
        match consumeLiteral "false" l with Some r => Ok (booleanValue false, r) | None => Err ErrInvalid end
      else if b =? quote then
        let? (s, r) := parseString l in Ok (stringValue s, r)
      else if b =? lbrace then parseObject fuel depth l
      else if b =? lbracket then parseArray fuel depth l
      else if (b =? minus) || is_digit b then
        let? (d, r) := parseNumber l in Ok (numberValue d, r)
      else Err ErrInvalid
    end
  end
with parseObject (fuel : nat) (depth : Z) (l : list Z) {struct fuel} : result error (Value * list Z) :=
  match fuel with
  | O => Err OutOfFuel
  | S fuel =>
    let l1 := skipSpace (drop 1 l) in
    match consume rbrace l1 with
    | Some r => Ok (objectValue [], r)
    | None => object_loop fuel depth [] l1
    end
  end
with object_loop (fuel : nat) (depth : Z) (object : list (string * Value)) (l : list Z) {struct fuel}
  : result error (Value * list Z) :=
  match fuel with
  | O => Err OutOfFuel
  | S fuel =>
    if maxObjectMembers <=? slen object then Err ErrLimit
    else if match l with b :: _ => negb (b =? quote) | [] => true end then Err ErrInvalid
    else
    let? (key, l1) := parseString l in
    if has_key key object then Err ErrDuplicateKey
    else
    match consume colon (skipSpace l1) with
    | None => Err ErrInvalid
    | Some l2 =>
      let? (child, l3) := parseValue fuel (depth + 1) (skipSpace l2) in
      let object := object ++ [(key, child)] in
      let l4 := skipSpace l3 in
      match consume rbrace l4 with
      | Some r => Ok (objectValue object, r)
      | None =>
        match consume comma l4 with
        | None => Err ErrInvalid
        | Some l5 => object_loop fuel depth object (skipSpace l5)
        end
      end
    end
  end
with parseArray (fuel : nat) (depth : Z) (l : list Z) {struct fuel} : result error (Value * list Z) :=
  match fuel with
  | O => Err OutOfFuel
  | S fuel =>
    let l1 := skipSpace (drop 1 l) in
    match consume rbracket l1 with
    | Some r => Ok (arrayValue [], r)
    | None => array_loop fuel depth [] l1
    end
  end
with array_loop (fuel : nat) (depth : Z) (array : list Value) (l : list Z) {struct fuel}
  : result error (Value * list Z) :=
  match fuel with
  | O => Err OutOfFuel
  | S fuel =>
    if maxArrayItems <=? slen array then Err ErrLimit
    else
    let? (child, l1) := parseValue fuel (depth + 1) l in
    let array := array ++ [child] in
    let l2 := skipSpace l1 in
    match consume rbracket l2 with
    | Some r => Ok (arrayValue array, r)
    | None =>
      match consume comma l2 with
      | None => Err ErrInvalid
      | Some l3 => array_loop fuel depth array (skipSpace l3)
      end
    end
  end.

(** Each byte pays for at most three calls. *)
Definition value_fuel (l : list Z) : nat := 3 * length l + 4.

Definition parse (document : list Z) : result error Value :=
  if (slen document =? 0) || (MaxDocumentBytes <? slen document) || negb (valid_utf8 document)
  then Err ErrInvalid
  else
  let l := skipSpace document in
  if slen l =? 0 then Err ErrInvalid
  else
  let? (value, rest) := parseValue (value_fuel l) 0 l in
  if negb (slen (skipSpace rest) =? 0) then Err ErrInvalid else Ok value.

Definition is_object (v : Value) : bool := match v with objectValue _ => true | _ => false end.

Definition Validate (document : list Z) : result error unit :=
  let? _ := parse document in Ok tt.

Definition ValidateObject (document : list Z) : result error unit :=
  let? value := parse document in
  if negb (is_object value) then Err ErrNotObject else Ok tt.

(** ** Comparison *)

Definition signedMagnitudeCompare (magnitude : Z) (neg : bool) : Z :=
  if neg then - magnitude else magnitude.

(** The digit loop, [n] indices from the current position; a position past the
    end reads ['0']. *)
Fixpoint compare_digits (n : nat) (left right : list Z) : Z :=
  match n with
  | O => 0
  | S n =>
    let leftDigit := match left with b :: _ => b | [] => zero end in
    let rightDigit := match right with b :: _ => b | [] => zero end in
    if leftDigit <? rightDigit then -1
    else if rightDigit <? leftDigit then 1
    else compare_digits n (tail left) (tail right)
  end.

Definition compareMagnitude (left right : decimal) : Z :=
  let leftPosition := slen (significand left) + exponent left in
  let rightPosition := slen (significand right) + exponent right in
  if leftPosition <? rightPosition then -1
  else if rightPosition <? leftPosition then 1
  else compare_digits (Nat.max (length (significand left)) (length (significand right)))
         (significand left) (significand right).

Definition compareDecimal (left right : decimal) : Z :=
  if (significand left =?= []) || (significand right =?= []) then
    if significand left =?= significand right then 0
    else if significand left =?= [] then signedMagnitudeCompare (-1) (negative right)
    else signedMagnitudeCompare 1 (negative left)
  else if negative left !=? negative right then if negative left then -1 else 1
  else
  let comparison := compareMagnitude left right in
  if negative left then - comparison else comparison.

(** [object[key]] *)
Fixpoint member {A : Type} (key : string) (members : list (string * A)) : option A :=
  match members with
  | [] => None
  | (k, v) :: rest => if k =?= key then Some v else member key rest
  end.

Fixpoint equalValue (left right : Value) : bool :=
  match left, right with
  | nullValue, nullValue => true
  | booleanValue a, booleanValue b => bool_decide (a = b)
  | stringValue a, stringValue b => a =?= b
  | numberValue a, numberValue b => compareDecimal a b =? 0
  | objectValue a, objectValue b =>
    (slen a =? slen b) &&
    forallb (fun m => match member m.1 b with
                      | None => false
                      | Some rightChild => equalValue m.2 rightChild
                      end) a
  | arrayValue a, arrayValue b =>
    (slen a =? slen b) &&
    (fix items (a b : list Value) : bool :=
       match a, b with
       | x :: a', y :: b' => equalValue x y && items a' b'
       | _, _ => true
       end) a b
  | _, _ => false
  end.

Definition Equal (left right : list Z) : bool :=
  match parse left, parse right with
  | Ok l, Ok r => equalValue l r
  | _, _ => false
  end.

Definition EqualObjects (expected actual : list Z) : bool :=
  match parse expected, parse actual with
  | Ok l, Ok r => is_object l && is_object r && equalValue l r
  | _, _ => false
  end.

(** ** The canonical writer *)

Definition canonicalDecimal (value : decimal) : list Z :=
  if significand value =?= [] then [zero]
  else
  let prefix := if negative value then [minus] else [] in
  if exponent value =? 0 then prefix ++ significand value
  else if 0 <? exponent value then
    prefix ++ significand value ++ replicate (Z.to_nat (exponent value)) zero
  else prefix ++ significand value ++ char_e :: bytes (pretty (exponent value)).

(** Objects are written in the order of their sorted keys.  [json.Marshal] of a
    string cannot fail, so neither can the writer. *)
Fixpoint writeValue (value : Value) : list Z :=
  match value with
  | nullValue => bytes "null"
  | booleanValue true => bytes "true"
  | booleanValue false => bytes "false"
  | stringValue s => json_string (bytes s)
  | numberValue d => canonicalDecimal d
  | objectValue object =>
    lbrace :: commas (map (fun m => json_string (bytes m.1) ++ colon :: m.2)
                        (sort_on fst String.compare (map (fun m => (m.1, writeValue m.2)) object)))
      ++ [rbrace]
  | arrayValue array => lbracket :: commas (map writeValue array) ++ [rbracket]
  end.

Definition Normalize (document : list Z) : result error (list Z) :=
  let? value := parse document in Ok (writeValue value).

(** Test documents are written with apostrophes for quotation marks. *)
Definition doc (s : string) : list Z := map (fun b => if b =? 0x27 then 0x22 else b) (bytes s).

Example parse_tests :
  map (fun s => match Normalize (doc s) with Ok l => Some (of_bytes l) | Err _ => None end)
    ["{'b':[1.50,-0e3, 120],'a':null}"; "{'a':1,'a':2}"; "01"; "1e5000"; "'\ud800'"; "-12e-3"; "true "]
  = [Some (of_bytes (doc "{'a':null,'b':[15e-1,0,120]}")); None; None; None; None; Some "-12e-3"; Some "true"].
Proof. vm_compute. reflexivity. Qed.
