(* ===== verification/StrictJsonSpec.v ===== *)
(** * What the strict JSON contract guarantees

    - the parser always returns: its fuel is never exhausted ([parse_total]);
    - what it returns satisfies the documented bounds ([parse_well_formed]). *)

From stdpp Require Import pretty.
From S2P Require Import Prelude Order GoStrings Utf8 Digest Digits GoJson StrictJson.
Local Open Scope go_scope.
Local Open Scope string_scope.
Local Open Scope Z_scope.
Local Open Scope list_scope.

(** ** Progress: what is left is shorter *)

Lemma skipSpace_length l : (length (skipSpace l) <= length l)%nat.
Proof.
  unfold skipSpace. destruct (trim_left_app is_blank l) as (pre & Hl & _).
  rewrite Hl at 2. rewrite length_app. lia.
Qed.

Lemma consume_some b l r : consume b l = Some r <-> l = b :: r.
Proof.
  unfold consume. destruct l as [|c l]; [done|]. destruct (Z.eqb_spec c b) as [->|Hne].
  - split; congruence.
  - split; congruence.
Qed.

Lemma consumeLiteral_some s l r : consumeLiteral s l = Some r -> l = bytes s ++ r.
Proof.
  unfold consumeLiteral. case_bool_decide as Hp; [|done]. intros [= <-]. destruct Hp as [k ->].
  by rewrite <- length_bytes, drop_app_length.
Qed.

(** A result that is not the model's own error, and whose rest is at most [n]
    bytes long. *)
Definition reads {A : Type} (n : nat) (m : result error (A * list Z)) : Prop :=
  match m with
  | Ok (_, rest) => (length rest <= n)%nat
  | Err e => e <> OutOfFuel
  end.

Lemma reads_bind {A B : Type} n k (m : result error (A * list Z)) (f : A * list Z -> result error (B * list Z)) :
  reads n m -> (forall a rest, m = Ok (a, rest) -> (length rest <= n)%nat -> reads k (f (a, rest))) ->
  reads k (result_bind m f).
Proof. destruct m as [[a rest]|e]; cbn; intros Hm Hf; [by apply Hf|done]. Qed.

Lemma reads_mono {A : Type} n k (m : result error (A * list Z)) : (n <= k)%nat -> reads n m -> reads k m.
Proof. destruct m as [[a rest]|e]; cbn; [lia|done]. Qed.

Create HintDb reads.
#[export] Hint Extern 1 (reads _ (Err _)) => cbn; discriminate : reads.
#[export] Hint Extern 1 (reads _ (Ok _)) => cbn in *; lia : reads.
#[export] Hint Extern 1 (_ <= _)%nat => cbn in *; lia : reads.

Ltac reads := repeat first [progress cbn [result_bind] | case_match]; subst; auto with reads.

Lemma parseHexEscape_reads l : reads (length l - 4) (parseHexEscape l).
Proof. unfold parseHexEscape. reads. Qed.

Lemma parse_unicode_escape_reads l : reads (length l) (parse_unicode_escape l).
Proof.
  unfold parse_unicode_escape. eapply reads_bind; [apply parseHexEscape_reads|]. intros code rest _ Hr.
  destruct (code =? 0); [by auto with reads|]. destruct (between 0xD800 0xDBFF code).
  - destruct rest as [|b1 [|b2 rest']]; [by auto with reads..|].
    destruct (_ || _); [by auto with reads|]. pose proof (parseHexEscape_reads rest') as Hp.
    destruct (parseHexEscape rest') as [[low rest'']|]; cbn in Hp; reads.
  - reads.
Qed.

Lemma parse_escape_reads l : reads (length l) (parse_escape l).
Proof.
  unfold parse_escape. destruct l as [|b l]; [by auto with reads|].
  repeat first [destruct (_ || _); [by auto with reads|] | destruct (_ =? _); [by auto with reads|]]; try destruct (_ =? _); auto with reads.
  eapply reads_mono; [|apply parse_unicode_escape_reads]. cbn. lia.
Qed.

Lemma span_high_spec l d r :
  span_high l = (d, r) ->
  l = d ++ r /\ Forall (fun b => 0x80 <= b) d /\ (forall b, head r = Some b -> b < 0x80).
Proof.
  revert d r. induction l as [|b l IH]; intros d r; cbn.
  - intros [= <- <-]. split_and!; [done|constructor|done].
  - destruct (Z.leb_spec 0x80 b) as [Hb|Hb].
    + destruct (span_high l) as [d' r'] eqn:E. intros [= <- <-].
      destruct (IH _ _ eq_refl) as (-> & Hd & Hr). split_and!; [done|by constructor|done].
    + intros [= <- <-]. split_and!; [done|constructor|]. cbn. congruence.
Qed.

Lemma string_step_reads current rest : reads (length rest) (string_step current rest).
Proof.
  unfold string_step. destruct (current =? bslash); [apply parse_escape_reads|].
  destruct (current <? 0x20); [by auto with reads|]. destruct (Z.ltb_spec current 0x80); [by auto with reads|].
  cbn [span_high]. rewrite (proj2 (Z.leb_le _ _)) by done.
  destruct (span_high rest) as [chunk after] eqn:E. apply span_high_spec in E as (-> & _ & _).
  rewrite length_app. reads.
Qed.

Lemma string_loop_reads fuel decoded l :
  (length l < fuel)%nat -> reads (length l - 1) (string_loop fuel decoded l).
Proof.
  revert decoded l. induction fuel as [|fuel IH]; intros decoded l Hf; [lia|]. cbn [string_loop].
  destruct l as [|current rest]; [by auto with reads|]. destruct (current =? quote); [reads|].
  eapply reads_bind; [apply string_step_reads|]. intros appended rest' _ Hr. cbn in Hf |- *.
  destruct (_ <? _); [by auto with reads|]. eapply reads_mono; [|apply IH; lia]. lia.
Qed.

Lemma parseString_reads l : reads (length l - 2) (parseString l).
Proof.
  unfold parseString. destruct (consume quote l) as [rest|] eqn:E; [|by auto with reads].
  apply consume_some in E as ->. eapply reads_bind; [apply string_loop_reads; lia|].
  intros decoded after _ Hr. cbn in *. lia.
Qed.

Lemma exponent_loop_reads n e l : reads (length l) (exponent_loop n e l).
Proof.
  revert n e. induction l as [|b l IH]; intros n e; cbn [exponent_loop]; [by auto with reads|].
  destruct (is_digit b); [|by auto with reads].
  repeat (destruct (_ <? _); [by auto with reads|]). cbv zeta.
  repeat (destruct (_ <? _); [by auto with reads|]). auto with reads.
  eapply reads_mono; [|apply IH]. cbn. lia.
Qed.

Lemma span_digits_length l : (length (span_digits l).2 <= length l)%nat.
Proof.
  destruct (span_digits l) as [d r] eqn:E. apply span_digits_spec in E as (-> & _).
  rewrite length_app. cbn. lia.
Qed.

Lemma parse_integer_reads l : reads (length l - 1) (parse_integer l).
Proof.
  unfold parse_integer. destruct l as [|b l]; [by auto with reads|].
  destruct (b =? zero); [reads|]. destruct (between 0x31 0x39 b) eqn:Hb; [|by auto with reads].
  cbn [span_digits]. assert (Hd : is_digit b = true) by (unfold is_digit; rewrite !between_spec in *; lia).
  rewrite Hd. pose proof (span_digits_length l). destruct (span_digits l). cbn in *. lia.
Qed.

Lemma parse_fraction_reads l : reads (length l) (parse_fraction l).
Proof.
  unfold parse_fraction. destruct (consume dot l) as [r|] eqn:E; [|by auto with reads].
  apply consume_some in E as ->. pose proof (span_digits_length r). destruct (span_digits r). reads.
Qed.

Lemma parse_exponent_reads l : reads (length l) (parse_exponent l).
Proof.
  unfold parse_exponent. destruct l as [|b rest]; [by auto with reads|].
  destruct (_ || _); [|by auto with reads].
  assert (Hs : forall neg start, (length start <= length rest)%nat ->
    reads (length (b :: rest)) (let? (exponent, after) := exponent_loop 0 0 start in
      if slen after =? slen start then Err ErrInvalid
      else Ok (if (neg : bool) then - exponent else exponent, after))).
  { intros neg start Hl. eapply reads_bind; [apply exponent_loop_reads|]. intros e after _ Ha. reads. }
  destruct (consume minus rest) as [r|] eqn:E1; [apply consume_some in E1 as ->; apply (Hs true r); cbn; lia|].
  apply (Hs false). destruct (consume plus rest) as [r|] eqn:E2; [apply consume_some in E2 as ->; cbn; lia|lia].
Qed.

Lemma place_decimal_error neg mantissa f e : place_decimal neg mantissa f e <> Err OutOfFuel.
Proof. unfold place_decimal. by repeat case_match. Qed.

Lemma parseNumber_reads l : reads (length l - 1) (parseNumber l).
Proof.
  unfold parseNumber.
  assert (Hs : exists neg l1, match consume minus l with Some r => (true, r) | None => (false, l) end = (neg, l1)
                              /\ (length l1 <= length l)%nat).
  { destruct (consume minus l) as [r|] eqn:E; [|by eauto]. apply consume_some in E as ->.
    eexists _, _. split; [done|]. cbn. lia. }
  destruct Hs as (neg & l1 & -> & Hl1).
  eapply reads_bind; [apply parse_integer_reads|]. intros int l2 _ H2.
  eapply reads_bind; [apply parse_fraction_reads|]. intros frac l3 _ H3.
  eapply reads_bind; [apply parse_exponent_reads|]. intros e l4 _ H4.
  destruct (_ <? _); [by auto with reads|]. destruct (match l4 with [] => _ | _ => _ end); [by auto with reads|].
  pose proof (place_decimal_error neg (int ++ frac) (slen frac) e) as Hp.
  destruct (place_decimal _ _ _ _); cbn in *; [lia|congruence].
Qed.

(** Calls, with the fuel they need for an input of a given length. *)
Lemma values_read fuel :
  (forall depth l, (3 * length l + 3 <= fuel)%nat -> reads (length l - 1) (parseValue fuel depth l)) /\
  (forall depth b l, (3 * length l + 5 <= fuel)%nat -> reads (length l) (parseObject fuel depth (b :: l))) /\
  (forall depth o l, (3 * length l + 3 <= fuel)%nat -> reads (length l - 1) (object_loop fuel depth o l)) /\
  (forall depth b l, (3 * length l + 5 <= fuel)%nat -> reads (length l) (parseArray fuel depth (b :: l))) /\
  (forall depth a l, (3 * length l + 4 <= fuel)%nat -> reads (length l - 1) (array_loop fuel depth a l)).
Proof.
  induction fuel as [|fuel (IHv & IHo & IHol & IHa & IHal)]; [split_and!; intros; lia|].
  split_and!.
  - intros depth l Hf. cbn [parseValue]. destruct (maxDepth <? depth); [by auto with reads|].
    destruct l as [|b l]; [by auto with reads|].
    destruct (b =? char_n).
    { destruct (consumeLiteral _ _) as [r|] eqn:E; [|by auto with reads].
      apply consumeLiteral_some in E. apply (f_equal length) in E. rewrite length_app in E. cbn in E |- *. lia. }
    destruct (b =? char_t).
    { destruct (consumeLiteral _ _) as [r|] eqn:E; [|by auto with reads].
      apply consumeLiteral_some in E. apply (f_equal length) in E. rewrite length_app in E. cbn in E |- *. lia. }
    destruct (b =? char_f).
    { destruct (consumeLiteral _ _) as [r|] eqn:E; [|by auto with reads].
      apply consumeLiteral_some in E. apply (f_equal length) in E. rewrite length_app in E. cbn in E |- *. lia. }
    destruct (b =? quote).
    { eapply reads_bind; [apply parseString_reads|]. intros s r _ Hr. cbn in *. lia. }
    cbn [length] in Hf |- *. rewrite Nat.sub_succ, Nat.sub_0_r.
    destruct (b =? lbrace); [apply IHo; lia|]. destruct (b =? lbracket); [apply IHa; lia|].
    destruct (_ || _); [|by auto with reads].
    eapply reads_bind; [apply parseNumber_reads|]. intros s r _ Hr. cbn in *. lia.
  - intros depth b l Hf. cbn [parseObject]. change (drop 1 (b :: l)) with l. pose proof (skipSpace_length l) as Hs. destruct (consume rbrace _) as [r|] eqn:E.
    + apply consume_some in E. rewrite E in Hs. cbn in *. lia.
    + eapply reads_mono; [|apply IHol; lia]. lia.
  - intros depth o l Hf. cbn [object_loop]. destruct (_ <=? _); [by auto with reads|].
    destruct (match l with [] => _ | _ => _ end); [by auto with reads|].
    eapply reads_bind; [apply parseString_reads|]. intros key l1 _ H1. destruct (has_key _ _); [by auto with reads|].
    destruct (consume colon _) as [l2|] eqn:E; [|by auto with reads]. apply consume_some in E.
    pose proof (skipSpace_length l1) as Hs1. rewrite E in Hs1. cbn in Hs1. pose proof (skipSpace_length l2) as Hs2.
    eapply reads_bind; [apply IHv; lia|]. intros child l3 _ H3. pose proof (skipSpace_length l3) as Hs3.
    cbv zeta. destruct (consume rbrace _) as [r|] eqn:E4; [apply consume_some in E4; rewrite E4 in Hs3; cbn in *; lia|].
    destruct (consume comma _) as [l5|] eqn:E5; [|by auto with reads]. apply consume_some in E5.
    rewrite E5 in Hs3. cbn in Hs3. pose proof (skipSpace_length l5).
    eapply reads_mono; [|apply IHol; lia]. lia.
  - intros depth b l Hf. cbn [parseArray]. change (drop 1 (b :: l)) with l. pose proof (skipSpace_length l) as Hs. destruct (consume rbracket _) as [r|] eqn:E.
    + apply consume_some in E. rewrite E in Hs. cbn in *. lia.
    + eapply reads_mono; [|apply IHal; lia]. lia.
  - intros depth a l Hf. cbn [array_loop]. destruct (_ <=? _); [by auto with reads|].
    eapply reads_bind; [apply IHv; lia|]. intros child l1 Hv H1. pose proof (skipSpace_length l1) as Hs1.
    assert (Hne : (1 <= length l)%nat).
    { destruct l; [|cbn; lia]. destruct fuel; cbn in Hv; [done|]. by destruct (maxDepth <? depth + 1). }
    cbv zeta. destruct (consume rbracket _) as [r|] eqn:E4; [apply consume_some in E4; rewrite E4 in Hs1; cbn in *; lia|].
    destruct (consume comma _) as [l3|] eqn:E5; [|by auto with reads]. apply consume_some in E5.
    rewrite E5 in Hs1. cbn in Hs1. pose proof (skipSpace_length l3).
    eapply reads_mono; [|apply IHal; lia]. lia.
Qed.

(** C26. Parsing always terminates with a verdict: the fuel set from the length
    of the document is never exhausted. *)
Theorem parse_total document : parse document <> Err OutOfFuel.
Proof.
  unfold parse. destruct (_ || _); [done|]. cbv zeta. destruct (_ =? 0); [done|].
  set (l := skipSpace document).
  assert (H : reads (length l - 1) (parseValue (value_fuel l) 0 l)).
  { apply (proj1 (values_read _)). unfold value_fuel. lia. }
  destruct (parseValue _ _ _) as [[v r]|e]; cbn in *; [|congruence]. by case_match.
Qed.

(** ** Well-formed values *)

Definition wf_string (s : string) : bool :=
  ValidString s && forallb (fun b => 0 <? b) (bytes s) && (len s <=? maxStringBytes).

(** Zero has one representation; any other number has a significand without
    leading or trailing zeros, so every number has one representation. *)
Definition wf_decimal (d : decimal) : bool :=
  if significand d =?= [] then negb (negative d) && (exponent d =? 0)
  else
    forallb is_digit (significand d) && (head (significand d) !=? Some zero) &&
    (last (significand d) !=? Some zero) && (slen (significand d) <=? MaxMantissaDigits) &&
    (- MaxFractionDigits <=? exponent d) && (exponent d <=? MaxAbsExponent) &&
    (slen (significand d) + exponent d <=? MaxIntegerDigits).

Fixpoint wf_value (depth : Z) (v : Value) : bool :=
  (depth <=? maxDepth) &&
  match v with
  | nullValue | booleanValue _ => true
  | stringValue s => wf_string s
  | numberValue d => wf_decimal d
  | objectValue o =>
    (slen o <=? maxObjectMembers) && bool_decide (NoDup (map fst o)) &&
    forallb (fun m => wf_string m.1 && wf_value (depth + 1) m.2) o
  | arrayValue a => (slen a <=? maxArrayItems) && forallb (wf_value (depth + 1)) a
  end.

(** Bytes a string may hold: well-formed UTF-8 without NUL. *)
Definition text (l : list Z) : Prop := valid_utf8 l = true /\ Forall (fun b => 0 < b < 256) l.

Lemma text_runes rs : Forall (fun r => scalar r /\ r <> 0) rs -> text (encode_runes rs).
Proof.
  intros H. assert (Hs : Forall scalar rs) by (eapply Forall_impl; [exact H|]; by intros ? []).
  split; [by apply valid_encode_runes|]. induction H as [|r rs [Hr H0] _ IH]; [constructor|].
  inversion Hs; subst. cbn [encode_runes flat_map]. apply Forall_app. split; [|by apply IH].
  destruct (encode_rune_bytes r Hr) as [[Hlt ->]|(_ & Hb & _)].
  - repeat constructor; unfold scalar in Hr; lia.
  - eapply Forall_impl; [exact Hb|]. cbn. lia.
Qed.

Lemma text_rune r : scalar r -> r <> 0 -> text (encode_rune r).
Proof.
  intros Hr H0. rewrite <- (app_nil_r (encode_rune r)). apply (text_runes [r]). by apply Forall_singleton.
Qed.

Lemma text_ascii b : 0 < b < 0x80 -> text [b].
Proof.
  intros Hb. assert (He : [b] = encode_rune b)
    by (unfold encode_rune; by rewrite (proj2 (Z.ltb_lt _ _)) by lia).
  rewrite He. apply text_rune; unfold scalar; lia.
Qed.

Lemma text_app l k : text l -> text k -> text (l ++ k).
Proof.
  intros [Hl Bl] [Hk Bk]. split; [|by apply Forall_app]. apply valid_utf8_app; [done..|].
  eapply Forall_impl; [exact Bl|]. cbn. lia.
Qed.

Lemma hex_value_range d v : hex_value d = Some v -> 0 <= v < 16.
Proof. unfold hex_value. repeat case_match; intros [= <-]; rewrite ?between_spec in *; lia. Qed.

Lemma parseHexEscape_range l code rest : parseHexEscape l = Ok (code, rest) -> 0 <= code < 0x10000.
Proof.
  unfold parseHexEscape. intros H. repeat case_match; try discriminate H. injection H as <- _.
  repeat match goal with H : hex_value _ = Some _ |- _ => apply hex_value_range in H end. lia.
Qed.

Lemma parse_escape_text l a rest : parse_escape l = Ok (a, rest) -> text a.
Proof.
  unfold parse_escape. destruct l as [|b l]; [done|].
  destruct (_ || _) eqn:E.
  { intros [= <- _]. apply text_ascii. breflect. unfold quote, bslash, slash in *. lia. }
  destruct (b =? 0x62); [intros [= <- _]; apply text_ascii; lia|].
  destruct (b =? 0x66); [intros [= <- _]; apply text_ascii; lia|].
  destruct (b =? 0x6E); [intros [= <- _]; apply text_ascii; lia|].
  destruct (b =? 0x72); [intros [= <- _]; apply text_ascii; lia|].
  destruct (b =? 0x74); [intros [= <- _]; apply text_ascii; lia|].
  destruct (b =? char_u); [|done]. unfold parse_unicode_escape. intros H. inv_bind H.
  destruct a0 as [code r]. apply parseHexEscape_range in E0.
  destruct (Z.eqb_spec code 0); [done|]. destruct (between 0xD800 0xDBFF code) eqn:Hs.
  - destruct r as [|b1 [|b2 r]]; [done..|]. destruct (negb _ || negb _) in H; [done|].
    destruct (parseHexEscape r) as [[low r2]|] eqn:E2; [|done]. apply parseHexEscape_range in E2.
    destruct ((low <? 0xDC00) || (0xDFFF <? low)) eqn:El; [done|]. injection H as <- _. rewrite between_spec in Hs. breflect.
    rewrite Z.shiftl_mul_pow2 by lia. apply text_rune; unfold scalar; lia.
  - destruct (between 0xDC00 0xDFFF code) eqn:Hl; [done|]. injection H as <- _.
    rewrite between_false in Hs, Hl. apply text_rune; unfold scalar; lia.
Qed.

Lemma string_step_text current rest a rest' :
  string_step current rest = Ok (a, rest') -> text a.
Proof.
  unfold string_step. destruct (current =? bslash); [apply parse_escape_text|].
  destruct (Z.ltb_spec current 0x20); [done|]. destruct (Z.ltb_spec current 0x80).
  { intros [= <- _]. apply text_ascii. lia. }
  destruct (span_high (current :: rest)) as [chunk after] eqn:E. apply span_high_spec in E as (_ & Hc & _).
  destruct (valid_utf8 chunk) eqn:Hv; cbn; [|done]. intros [= <- _]. split; [done|].
  assert (Hn : Forall (fun b => 0 <= b) chunk) by (eapply Forall_impl; [exact Hc|]; cbn; lia).
  destruct (valid_utf8_runes chunk Hv Hn) as (rs & Hrs & ->). pose proof (encode_runes_bytes rs Hrs) as Hb.
  rewrite Forall_forall in *. intros b Hin. specialize (Hc b Hin). specialize (Hb b Hin).
  unfold is_byte in Hb. lia.
Qed.

Lemma string_loop_text fuel decoded l a rest :
  string_loop fuel decoded l = Ok (a, rest) -> text decoded -> text a /\ slen a <= maxStringBytes.
Proof.
  revert decoded l. induction fuel as [|fuel IH]; intros decoded l; [done|]. cbn [string_loop].
  destruct l as [|current r]; [done|]. destruct (current =? quote).
  - destruct (Z.ltb_spec maxStringBytes (slen decoded)); [done|]. intros [= <- _]. done.
  - intros H Hd. inv_bind H. destruct a0 as [appended r']. apply string_step_text in E.
    destruct (_ <? _); [done|]. eapply IH; [exact H|]. by apply text_app.
Qed.

Lemma text_bytes l : text l -> bytes (of_bytes l) = l.
Proof.
  intros [_ H]. apply bytes_of_bytes. eapply Forall_impl; [exact H|]. unfold is_byte. cbn. lia.
Qed.

Lemma wf_string_text s : wf_string s = true <-> text (bytes s) /\ len s <= maxStringBytes.
Proof.
  unfold wf_string, text, ValidString. rewrite !andb_true_iff, Z.leb_le, forallb_true.
  assert (H : Forall (fun b => (0 <? b) = true) (bytes s) <-> Forall (fun b => 0 < b < 256) (bytes s)).
  { pose proof (bytes_range s) as Hr. rewrite !Forall_forall in *. unfold is_byte in Hr.
    split; intros H b Hb; specialize (H b Hb); specialize (Hr b Hb); breflect; lia. }
  rewrite H. done.
Qed.

Lemma parseString_wf l s rest : parseString l = Ok (s, rest) -> wf_string s = true.
Proof.
  unfold parseString. destruct (consume quote l); [|done]. intros H. inv_bind H. destruct a as [decoded after].
  injection H as <- _. apply string_loop_text in E as [Ht Hl]; [|split; [done|constructor]].
  apply wf_string_text. rewrite len_bytes, text_bytes by done. done.
Qed.

(** ** Numbers *)

Lemma parse_integer_digits l d r : parse_integer l = Ok (d, r) -> digits d.
Proof.
  unfold parse_integer. destruct l as [|b l]; [done|]. destruct (Z.eqb_spec b zero) as [->|].
  - intros H. assert (d = [zero]) as -> by (repeat case_match; congruence). by repeat constructor.
  - destruct (between _ _ _); [|done]. intros H. assert (Hd : span_digits (b :: l) = (d, r)) by congruence.
    by apply span_digits_spec in Hd as (_ & ? & _).
Qed.

Lemma parse_fraction_digits l d r : parse_fraction l = Ok (d, r) -> digits d.
Proof.
  unfold parse_fraction. destruct (consume dot l) as [k|].
  - destruct (span_digits k) as [f after] eqn:E. apply span_digits_spec in E as (_ & Hd & _).
    case_bool_decide; [done|]. intros Hr. by injection Hr as <- _.
  - intros H. injection H as <- _. constructor.
Qed.

Lemma Forall_trim_left (P : Z -> Prop) cut l : Forall P l -> Forall P (trim_left cut l).
Proof.
  intros H. destruct (trim_left_app cut l) as (pre & Hl & _). rewrite Hl in H. by apply Forall_app in H as [].
Qed.

Lemma Forall_trim_right (P : Z -> Prop) cut l : Forall P l -> Forall P (trim_right cut l).
Proof.
  intros H. destruct (trim_right_app cut l) as (suf & Hl & _). rewrite Hl in H. by apply Forall_app in H as [].
Qed.

Lemma trim_right_head cut l b :
  head l = Some b -> cut b = false -> head (trim_right cut l) = Some b.
Proof.
  intros Hh Hc. destruct (trim_right_app cut l) as (suf & Hl & Hs).
  destruct (trim_right cut l) as [|c k]; cbn in *.
  - subst suf. destruct l as [|x l]; [done|]. injection Hh as ->. inversion Hs; congruence.
  - rewrite Hl in Hh. exact Hh.
Qed.

Lemma place_decimal_wf neg mantissa f e d :
  digits mantissa -> place_decimal neg mantissa f e = Ok d -> wf_decimal d = true.
Proof.
  intros Hd. unfold place_decimal.
  destruct (Z.ltb_spec MaxMantissaDigits (slen mantissa)) as [|Hm]; [done|].
  set (trimmed := trim_left (Z.eqb zero) mantissa). case_bool_decide as Ht.
  { intros H. destruct (_ <? _) in H; [done|]. by injection H as <-. }
  set (kept := trim_right (Z.eqb zero) trimmed). cbv zeta.
  destruct (_ || _) eqn:Hb; [done|]. intros [= <-]. unfold wf_decimal. cbn [significand exponent negative].
  assert (Hh : exists b, head trimmed = Some b /\ (zero =? b) = false).
  { destruct trimmed as [|b t] eqn:Et; [done|]. exists b. split; [done|].
    apply (trim_left_head (Z.eqb zero) mantissa). by fold trimmed; rewrite Et. }
  destruct Hh as (b & Hh & Hz). pose proof (trim_right_head _ trimmed b Hh Hz) as Hk. fold kept in Hk.
  assert (Hlen : slen kept <= slen mantissa).
  { destruct (trim_left_app (Z.eqb zero) mantissa) as (pre & H1 & _). fold trimmed in H1.
    destruct (trim_right_app (Z.eqb zero) trimmed) as (suf & H2 & _). fold kept in H2.
    rewrite H1, H2. unfold slen. rewrite !length_app. lia. }
  breflect. rewrite bool_decide_eq_false_2 by (intros Hn; rewrite Hn in Hk; done).
  rewrite !andb_true_iff, forallb_true, !Z.leb_le, !negb_true_iff, !bool_decide_eq_false.
  split_and!; try lia.
  - apply Forall_trim_right, Forall_trim_left, Hd.
  - rewrite Hk. congruence.
  - intros Hl. apply trim_right_last in Hl. by rewrite Z.eqb_refl in Hl.
Qed.

Lemma parseNumber_wf l d rest : parseNumber l = Ok (d, rest) -> wf_decimal d = true.
Proof.
  unfold parseNumber. destruct (match consume minus l with Some _ => _ | None => _ end) as [neg l1].
  intros H. inv_bind H. destruct a as [int l2]. inv_bind H. destruct a as [frac l3].
  inv_bind H. destruct a as [e l4]. destruct (_ <? _); [done|].
  destruct (match l4 with [] => _ | _ => _ end); [done|]. inv_bind H. injection H as <- _.
  eapply place_decimal_wf; [|exact E2]. apply Forall_app.
  split; [by eapply parse_integer_digits|by eapply parse_fraction_digits].
Qed.

Lemma has_key_false {A : Type} key (o : list (string * A)) : has_key key o = false -> key ∉ map fst o.
Proof.
  unfold has_key. rewrite existsb_false, Forall_forall. intros H Hin.
  apply list_elem_of_fmap in Hin as (m & -> & Hm). specialize (H m Hm). by rewrite bool_decide_eq_false in H.
Qed.

(** ** Values *)

Lemma wf_value_unfold depth v :
  wf_value depth v = (depth <=? maxDepth) &&
  match v with
  | nullValue | booleanValue _ => true
  | stringValue s => wf_string s
  | numberValue d => wf_decimal d
  | objectValue o =>
    (slen o <=? maxObjectMembers) && bool_decide (NoDup (map fst o)) &&
    forallb (fun m => wf_string m.1 && wf_value (depth + 1) m.2) o
  | arrayValue a => (slen a <=? maxArrayItems) && forallb (wf_value (depth + 1)) a
  end.
Proof. by destruct v. Qed.

Definition members_ok (depth : Z) (o : list (string * Value)) : Prop :=
  NoDup (map fst o) /\ Forall (fun m => wf_string m.1 && wf_value (depth + 1) m.2 = true) o.

Lemma members_ok_snoc depth o key v :
  members_ok depth o -> has_key key o = false -> wf_string key = true -> wf_value (depth + 1) v = true ->
  members_ok depth (o ++ [(key, v)]).
Proof.
  intros [Hn Hf] Hk%has_key_false Hs Hv. split.
  - rewrite map_app. cbn. apply NoDup_app. split_and!; [done| |apply NoDup_singleton].
    intros x Hx Hin. apply list_elem_of_singleton in Hin as ->. done.
  - apply Forall_app. split; [done|]. repeat constructor. cbn. by rewrite Hs, Hv.
Qed.

Lemma values_wf fuel :
  (forall depth l v r, depth <= maxDepth + 1 -> parseValue fuel depth l = Ok (v, r) -> wf_value depth v = true) /\
  (forall depth l v r, depth <= maxDepth -> parseObject fuel depth l = Ok (v, r) -> wf_value depth v = true) /\
  (forall depth o l v r, depth <= maxDepth -> members_ok depth o ->
     object_loop fuel depth o l = Ok (v, r) -> wf_value depth v = true) /\
  (forall depth l v r, depth <= maxDepth -> parseArray fuel depth l = Ok (v, r) -> wf_value depth v = true) /\
  (forall depth a l v r, depth <= maxDepth -> Forall (fun x => wf_value (depth + 1) x = true) a ->
     array_loop fuel depth a l = Ok (v, r) -> wf_value depth v = true).
Proof.
  induction fuel as [|fuel (IHv & IHo & IHol & IHa & IHal)]; [by split_and!|]. split_and!.
  - intros depth l v r Hd. cbn [parseValue]. destruct (Z.ltb_spec maxDepth depth) as [|Hle]; [done|].
    assert (Hdd : (depth <=? maxDepth) = true) by lia.
    destruct l as [|b l]; [done|].
    destruct (b =? char_n); [destruct (consumeLiteral _ _); [|done]; intros [= <- _]; by rewrite wf_value_unfold, Hdd|].
    destruct (b =? char_t); [destruct (consumeLiteral _ _); [|done]; intros [= <- _]; by rewrite wf_value_unfold, Hdd|].
    destruct (b =? char_f); [destruct (consumeLiteral _ _); [|done]; intros [= <- _]; by rewrite wf_value_unfold, Hdd|].
    destruct (b =? quote).
    { intros H. inv_bind H. destruct a as [s r']. injection H as <- _. rewrite wf_value_unfold, Hdd.
      by eapply parseString_wf. }
    destruct (b =? lbrace); [by eauto|]. destruct (b =? lbracket); [by eauto|].
    destruct (_ || _); [|done]. intros H. inv_bind H. destruct a as [d r']. injection H as <- _.
    rewrite wf_value_unfold, Hdd. by eapply parseNumber_wf.
  - intros depth l v r Hd. cbn [parseObject]. destruct (consume rbrace _).
    + intros [= <- _]. rewrite wf_value_unfold. cbn. breflect. done.
    + apply IHol; [done|]. split; constructor.
  - intros depth o l v r Hd Ho. cbn [object_loop]. destruct (Z.leb_spec maxObjectMembers (slen o)) as [|Hlt]; [done|].
    destruct (match l with [] => _ | _ => _ end); [done|]. intros H. inv_bind H. destruct a as [key l1].
    apply parseString_wf in E. destruct (has_key key o) eqn:Hk; [done|].
    destruct (consume colon _); [|done]. inv_bind H. destruct a as [child l3]. apply IHv in E0; [|lia].
    pose proof (members_ok_snoc _ _ _ _ Ho Hk E E0) as Ho'. cbv zeta in H.
    destruct (consume rbrace _) in H.
    + injection H as <- _. destruct Ho' as [Hn Hf]. rewrite wf_value_unfold, !andb_true_iff, bool_decide_eq_true, forallb_true, !Z.leb_le.
      split_and!; [done| |done|done]. unfold slen in *. rewrite length_app. cbn. lia.
    + destruct (consume comma _) in H; [|done]. by eapply IHol.
  - intros depth l v r Hd. cbn [parseArray]. destruct (consume rbracket _).
    + intros [= <- _]. rewrite wf_value_unfold. cbn. breflect. done.
    + apply IHal; [done|]. constructor.
  - intros depth a l v r Hd Ha. cbn [array_loop]. destruct (Z.leb_spec maxArrayItems (slen a)) as [|Hlt]; [done|].
    intros H. inv_bind H. destruct a0 as [child l1]. apply IHv in E; [|lia].
    assert (Ha' : Forall (fun x => wf_value (depth + 1) x = true) (a ++ [child]))
      by (apply Forall_app; split; [done|by repeat constructor]).
    cbv zeta in H. destruct (consume rbracket _) in H.
    + injection H as <- _. rewrite wf_value_unfold, !andb_true_iff, forallb_true, !Z.leb_le.
      split_and!; [done| |done]. unfold slen in *. rewrite length_app. cbn. lia.
    + destruct (consume comma _) in H; [|done]. by eapply IHal.
Qed.

Lemma parse_wf document v : parse document = Ok v -> wf_value 0 v = true.
Proof.
  unfold parse. destruct (_ || _); [done|]. cbv zeta. destruct (_ =? 0); [done|]. intros H. inv_bind H.
  destruct a as [v' rest]. destruct (negb _); [done|]. injection H as <-.
  eapply (proj1 (values_wf _)); [|exact E]. unfold maxDepth. lia.
Qed.

(** C27. Every value the parser returns is within the documented contract:
    nesting of at most 128, at most 1024 members or items, member names unique
    in every object, strings of at most 64 KiB that are well-formed UTF-8
    without NUL, and numbers in their unique bounded decimal form. *)
Theorem parse_well_formed document v (H : parse document = Ok v) : wf_value 0 v = true.
Proof. by eapply parse_wf. Qed.

Lemma parse_well_formed_witness :
  exists v, parse (doc "{'b':[1.50,-0e3,120],'a':null}") = Ok v /\ wf_value 0 v = true.
Proof.
  destruct (parse (doc "{'b':[1.50,-0e3,120],'a':null}")) as [v|e] eqn:E; [|vm_compute in E; discriminate E].
  exists v. split; [done|]. exact (parse_well_formed _ _ E).
Defined.
