(* ===== verification/RawJson.v ===== *)
(** * Raw JSON messages

    [json.RawMessage] and maps of raw messages, for documents that the strict
    parser accepts: a message is its text. *)

From stdpp Require Import pretty.
From S2P Require Import Prelude Order GoStrings Digest Digits GoJson StrictJson StrictJsonSpec.
Local Open Scope go_scope.
Local Open Scope string_scope.
Local Open Scope Z_scope.
Local Open Scope list_scope.

(** ** Fields

    [json.Unmarshal] into a map of raw messages, for a document that
    [ValidateObject] accepts: the members with their texts.  The loops are those
    of the parser, with its fuel. *)
Fixpoint raw_members (fuel : nat) (l : list Z) : option (list (string * list Z)) :=
  match fuel with
  | O => None
  | S fuel =>
    match parseString l with
    | Err _ => None
    | Ok (key, l1) =>
      match consume colon (skipSpace l1) with
      | None => None
      | Some l2 =>
        let start := skipSpace l2 in
        match parseValue fuel 1 start with
        | Err _ => None
        | Ok (_, l3) =>
          let field := (key, take (length start - length l3) start) in
          match consume rbrace (skipSpace l3) with
          | Some _ => Some [field]
          | None =>
            match consume comma (skipSpace l3) with
            | None => None
            | Some l5 => cons field <$> raw_members fuel (skipSpace l5)
            end
          end
        end
      end
    end
  end.

Definition raw_fields (document : list Z) : option (list (string * list Z)) :=
  let l := skipSpace document in
  match consume lbrace l with
  | None => None
  | Some l1 =>
    match consume rbrace (skipSpace l1) with
    | Some _ => Some []
    | None => raw_members (value_fuel l - 2) (skipSpace l1)
    end
  end.

(** [json.Unmarshal] of a JSON text into an [int64] that is zero, and into a
    string. *)
Definition unmarshal_int64 (raw : list Z) : option Z :=
  if raw =?= bytes "null" then Some 0
  else
    let '(neg, l) := match consume minus raw with Some l => (true, l) | None => (false, raw) end in
    if bool_decide (l = []) || negb (forallb is_digit l) then None
    else
      let n := if neg then - digits_val l else digits_val l in
      if (n <? - 2 ^ 63) || (2 ^ 63 - 1 <? n) then None else Some n.

Definition unmarshal_string (raw : list Z) : option string :=
  match parseString raw with
  | Ok (s, []) => Some s
  | _ => None
  end.

(** [json.Marshal] of a raw message leaves out the blanks outside strings and
    escapes what is not safe in HTML. *)
Fixpoint compact (in_string : bool) (l : list Z) : list Z :=
  match l with
  | [] => []
  | b :: rest =>
    if html_unsafe b then unicode_escape b ++ compact in_string rest
    else if in_string then
      if b =? bslash then
        match rest with
        | [] => [b]
        | c :: rest' => b :: c :: compact true rest'
        end
      else match rest with
      | c :: ((d :: rest'') as rest') =>
        if (b =? 0xE2) && (c =? 0x80) && ((d =? 0xA8) || (d =? 0xA9)) then unicode_escape (0x2028 + (d - 0xA8)) ++ compact true rest''
        else b :: compact (negb (b =? quote)) rest
      | _ => b :: compact (negb (b =? quote)) rest
      end
    else if is_blank b then compact false rest
    else b :: compact (b =? quote) rest
  end.

(** [json.Marshal] of a map of raw messages. *)
Definition marshal_fields (fields : list (string * list Z)) : list Z :=
  lbrace :: commas (map (fun f => json_string (bytes f.1) ++ colon :: compact false f.2) (sort_on fst String.compare fields)) ++ [rbrace].

Definition set_field (name : string) (raw : list Z) (fields : list (string * list Z)) : list (string * list Z) :=
  List.filter (fun f => f.1 !=? name) fields ++ [(name, raw)].

(** ** The fields of an accepted document are found *)

(** The members of an object that the parser accepts, in its order. *)
Lemma raw_members_found fuel : forall object l members rest, object_loop fuel 0 object l = Ok (objectValue members, rest) ->
  exists fields, raw_members fuel l = Some fields /\ map fst members = map fst object ++ map fst fields.
Proof.
  induction fuel as [|fuel IH]; intros object l members rest H; [done|]. cbn [object_loop] in H. cbn [raw_members].
  destruct (_ <=? _) in H; [done|]. destruct (match l with [] => true | _ => _ end) in H; [done|].
  destruct (parseString l) as [[key l1]|]; [|done]. cbn [result_bind] in H. destruct (has_key key object); [done|].
  destruct (consume colon (skipSpace l1)) as [l2|]; [|done]. change (0 + 1) with 1 in H.
  destruct (parseValue fuel 1 (skipSpace l2)) as [[child l3]|]; [|done]. cbn [result_bind] in H.
  destruct (consume rbrace (skipSpace l3)) as [r|].
  - injection H as <- <-. eexists. split; [done|]. by rewrite map_app.
  - destruct (consume comma (skipSpace l3)) as [l5|]; [|done]. apply IH in H as (fields & -> & E). eexists. split; [done|].
    rewrite E, map_app. cbn. by rewrite <- app_assoc.
Qed.

Lemma array_not_object fuel : forall depth items l members rest, array_loop fuel depth items l <> Ok (objectValue members, rest).
Proof.
  induction fuel as [|fuel IH]; intros depth items l members rest H; [done|]. cbn [array_loop] in H. destruct (_ <=? _) in H; [done|].
  destruct (parseValue _ _ _) as [[child l1]|]; [|done]. cbn [result_bind] in H. destruct (consume rbracket _); [done|].
  destruct (consume comma _); [|done]. by apply IH in H.
Qed.

(** Every field of an accepted document is found, under the name the parser
    gives it: the fuel is enough. *)
Lemma raw_fields_found document members : parse document = Ok (objectValue members) ->
  exists fields, raw_fields document = Some fields /\ map fst fields = map fst members.
Proof.
  unfold parse, raw_fields. destruct (_ || _) in |- *; [done|]. set (l := skipSpace document). destruct (_ =? 0); [done|].
  destruct (parseValue _ _ _) as [[v rest]|] eqn:E; [|done]. cbn [result_bind]. destruct (negb _) in |- *; [done|]. intros [= ->].
  assert (Hf : exists n, value_fuel l = S (S n)) by (exists (3 * length l + 2)%nat; unfold value_fuel; lia). destruct Hf as [n Hn]. rewrite Hn in *.
  cbn [parseValue] in E. change (maxDepth <? 0) with false in E. cbv iota in E. replace (S (S n) - 2)%nat with n by lia.
  destruct l as [|b l']; [done|].
  destruct (b =? char_n); [destruct (consumeLiteral _ _); done|]. destruct (b =? char_t); [destruct (consumeLiteral _ _); done|].
  destruct (b =? char_f); [destruct (consumeLiteral _ _); done|]. destruct (b =? quote); [destruct (parseString _) as [[? ?]|]; done|].
  cbn [consume]. destruct (b =? lbrace).
  - cbn [parseObject] in E. change (drop 1 (b :: l')) with l' in E. cbv zeta in E. destruct (consume rbrace (skipSpace l')) as [r|] eqn:Er; [injection E as <- <-; by eexists|].
    destruct n as [|n]; [done|]. apply raw_members_found in E as (fields & Hf & ->). eauto.
  - destruct (b =? lbracket).
    + cbn [parseArray] in E. destruct (consume _ _); [done|]. exfalso. revert E. apply array_not_object.
    + destruct (_ || _) in E; [destruct (parseNumber _) as [[? ?]|]; done|done].
Qed.
