(* ===== verification/StrictJsonEqual.v ===== *)
(** * Strict JSON equality

    Numbers are compared exactly, without converting them; values are equal
    precisely when they have the same canonical tree, whose objects list their
    members by key. *)

From Stdlib Require Import QArith.
From S2P Require Import Prelude Order GoStrings Utf8 Digest Digits GoJson StrictJson StrictJsonSpec.
Local Open Scope go_scope.
Local Open Scope string_scope.
Local Open Scope Z_scope.
Local Open Scope list_scope.

(** ** Decimals *)

Record nonzero_decimal (d : decimal) : Prop :=
  { nz_digits : digits (significand d);
    nz_head : forall b, head (significand d) = Some b -> b <> zero;
    nz_last : forall b, last (significand d) = Some b -> b <> zero;
    nz_some : significand d <> [];
    nz_length : slen (significand d) <= MaxMantissaDigits;
    nz_low : - MaxFractionDigits <= exponent d;
    nz_high : exponent d <= MaxAbsExponent;
    nz_integer : slen (significand d) + exponent d <= MaxIntegerDigits }.

Lemma wf_decimal_cases d : wf_decimal d = true -> d = zero_decimal \/ nonzero_decimal d.
Proof.
  unfold wf_decimal. case_bool_decide as Hs.
  - destruct d as [n s e]. cbn in *. subst s. breflect. intros [-> ->]. by left.
  - rewrite !andb_true_iff, forallb_true, !Z.leb_le, !negb_true_iff, !bool_decide_eq_false.
    intros ((((((? & Hh) & Hl) & ?) & ?) & ?) & ?). right. split; [done| | |done..].
    + intros b Hb ->. done.
    + intros b Hb ->. done.
Qed.

(** The exact value of a decimal. *)
Definition signed (neg : bool) (v : Z) : Z := if neg then - v else v.
Definition dec_value (d : decimal) : Q :=
  let v := signed (negative d) (digits_val (significand d)) in
  if 0 <=? exponent d then inject_Z (v * 10 ^ exponent d)
  else Qmake v (Z.to_pos (10 ^ - exponent d)).

(** Its integer multiple at the finest scale of the contract. *)
Definition scaled (d : decimal) : Z := digits_val (significand d) * 10 ^ (exponent d + MaxFractionDigits).

Lemma pow10_positive n : 0 <= n -> 0 < 10 ^ n.
Proof. intros H. apply Z.pow_pos_nonneg; lia. Qed.

Lemma dec_value_scaled d : - MaxFractionDigits <= exponent d ->
  (dec_value d == Qmake (signed (negative d) (scaled d)) (Z.to_pos (10 ^ MaxFractionDigits)))%Q.
Proof.
  unfold dec_value, scaled. intros Hl. set (v := digits_val _). set (K := MaxFractionDigits) in *.
  assert (HK : 0 <= K) by (unfold K, MaxFractionDigits; lia). clearbody K.
  assert (Hs : forall x y, signed (negative d) (x * y) = signed (negative d) x * y)
    by (intros; unfold signed; destruct (negative d); ring).
  pose proof (pow10_positive K HK). destruct (Z.leb_spec 0 (exponent d)) as [He|He]; unfold Qeq; cbn [Qnum Qden inject_Z].
  - rewrite Z2Pos.id by lia. rewrite Hs, Z.mul_1_r, <- Z.mul_assoc, <- Z.pow_add_r by lia. done.
  - pose proof (pow10_positive (- exponent d)). rewrite !Z2Pos.id by lia.
    rewrite Hs, <- Z.mul_assoc, <- Z.pow_add_r by lia. do 2 f_equal. lia.
Qed.

Lemma padded_step n l : digits l -> (length l <= S n)%nat ->
  let b := match l with b :: _ => b | [] => zero end in
  digits_val l * 10 ^ (Z.of_nat (S n) - slen l) =
    (b - zero) * 10 ^ Z.of_nat n + digits_val (tail l) * 10 ^ (Z.of_nat n - slen (tail l)) /\
  0 <= digits_val (tail l) * 10 ^ (Z.of_nat n - slen (tail l)) < 10 ^ Z.of_nat n /\
  digits (tail l) /\ (length (tail l) <= n)%nat.
Proof.
  intros Hd Hl. destruct l as [|b l].
  - cbn. split_and!; [lia|lia|pose proof (pow10_positive (Z.of_nat n)); lia|constructor|lia].
  - inversion Hd as [|? ? Hb Hd']; subst. cbn [tail]. cbn in Hl. rewrite digits_val_cons.
    pose proof (digits_val_bound l Hd') as B. unfold slen in *. cbn [length].
    replace (Z.of_nat (S n) - Z.of_nat (S (length l))) with (Z.of_nat n - Z.of_nat (length l)) by lia.
    assert (Hp : 10 ^ Z.of_nat (length l) * 10 ^ (Z.of_nat n - Z.of_nat (length l)) = 10 ^ Z.of_nat n)
      by (rewrite <- Z.pow_add_r by lia; f_equal; lia).
    pose proof (pow10_positive (Z.of_nat n - Z.of_nat (length l))).
    split_and!; [|nia|nia|done|lia]. rewrite <- Hp. ring.
Qed.

Lemma compare_sign a b c d m : 0 <= c < m -> 0 <= d < m ->
  (a < b -> a * m + c < b * m + d) /\ (a = b -> (a * m + c ?= b * m + d) = (c ?= d)).
Proof.
  intros. split; [nia|]. intros ->. apply Z.add_compare_mono_l.
Qed.

(** The digit loop compares the significands as fractions. *)
Lemma compare_digits_spec n l r : digits l -> digits r -> (length l <= n)%nat -> (length r <= n)%nat ->
  (compare_digits n l r ?= 0) =
  (digits_val l * 10 ^ (Z.of_nat n - slen l) ?= digits_val r * 10 ^ (Z.of_nat n - slen r)).
Proof.
  revert l r. induction n as [|n IH]; intros l r Dl Dr Hl Hr.
  - destruct l, r; cbn in *; [done|lia..].
  - destruct (padded_step n l Dl Hl) as (-> & Bl & Tl & Ll). destruct (padded_step n r Dr Hr) as (-> & Br & Tr & Lr).
    cbn [compare_digits]. set (a := match l with b :: _ => b | [] => zero end) in *.
    set (b := match r with b :: _ => b | [] => zero end) in *.
    destruct (compare_sign (a - zero) (b - zero) _ _ _ Bl Br) as [Hlt Heq].
    destruct (compare_sign (b - zero) (a - zero) _ _ _ Br Bl) as [Hgt _].
    destruct (Z.ltb_spec a b); [symmetry; apply Z.compare_lt_iff; lia|].
    destruct (Z.ltb_spec b a); [symmetry; apply Z.compare_gt_iff; lia|].
    rewrite Heq by lia. by apply IH.
Qed.

Lemma significand_bounds d : nonzero_decimal d ->
  0 < slen (significand d) /\
  10 ^ (slen (significand d) - 1) <= digits_val (significand d) < 10 ^ slen (significand d).
Proof.
  intros H. pose proof (nz_digits _ H) as Hd. pose proof (nz_head _ H) as Hh. pose proof (nz_some _ H) as Hs.
  destruct (significand d) as [|b l]; [done|]. pose proof (integer_val_bound b l Hd (Hh b eq_refl)).
  unfold slen in *. cbn [length]. rewrite Nat2Z.inj_succ. unfold Z.succ.
  replace (Z.of_nat (length l) + 1 - 1) with (Z.of_nat (length l)) by lia. lia.
Qed.

Lemma scaled_positions l r : nonzero_decimal l -> nonzero_decimal r ->
  slen (significand l) + exponent l < slen (significand r) + exponent r -> scaled l < scaled r.
Proof.
  intros Hl Hr Hp. pose proof (nz_low _ Hl). pose proof (nz_low _ Hr).
  destruct (significand_bounds l Hl) as (Ll & _ & Ul). destruct (significand_bounds r Hr) as (Lr & Br & _).
  unfold scaled. set (K := MaxFractionDigits) in *.
  assert (H1 : digits_val (significand l) * 10 ^ (exponent l + K) < 10 ^ (slen (significand l) + (exponent l + K))).
  { rewrite (Z.pow_add_r _ (slen _)) by lia. apply Z.mul_lt_mono_pos_r; [apply pow10_positive; lia|done]. }
  assert (H2 : 10 ^ (slen (significand r) - 1 + (exponent r + K)) <= digits_val (significand r) * 10 ^ (exponent r + K)).
  { rewrite (Z.pow_add_r _ (slen _ - 1)) by lia. apply Z.mul_le_mono_nonneg_r; [|done]. apply Z.lt_le_incl, pow10_positive. lia. }
  pose proof (Z.pow_le_mono_r 10 (slen (significand l) + (exponent l + K)) (slen (significand r) - 1 + (exponent r + K)) ltac:(lia) ltac:(lia)).
  lia.
Qed.

Lemma compareMagnitude_spec l r : nonzero_decimal l -> nonzero_decimal r ->
  (compareMagnitude l r ?= 0) = (scaled l ?= scaled r).
Proof.
  intros Hl Hr. unfold compareMagnitude.
  destruct (Z.ltb_spec (slen (significand l) + exponent l) (slen (significand r) + exponent r)) as [Hp|Hp].
  { symmetry. apply Z.compare_lt_iff. by apply scaled_positions. }
  destruct (Z.ltb_spec (slen (significand r) + exponent r) (slen (significand l) + exponent l)) as [Hq|Hq].
  { symmetry. apply Z.compare_gt_iff. by apply scaled_positions. }
  assert (Heq : slen (significand l) + exponent l = slen (significand r) + exponent r) by lia. clear Hp Hq.
  set (n := Nat.max (length (significand l)) (length (significand r))).
  rewrite compare_digits_spec by (try apply nz_digits; try done; unfold n; lia).
  pose proof (nz_low _ Hl). pose proof (nz_low _ Hr). unfold scaled. set (K := MaxFractionDigits) in *.
  set (s := exponent l + slen (significand l) - Z.of_nat n + K).
  assert (Hs : 0 <= s) by (unfold s, n, slen in *; lia).
  replace (exponent l + K) with (Z.of_nat n - slen (significand l) + s) by (unfold s; lia).
  replace (exponent r + K) with (Z.of_nat n - slen (significand r) + s) by (unfold s; lia).
  assert (Hn : slen (significand l) <= Z.of_nat n /\ slen (significand r) <= Z.of_nat n) by (unfold slen, n; lia).
  rewrite !Z.pow_add_r by lia. rewrite !Z.mul_assoc. pose proof (pow10_positive s Hs).
  apply Zmult_compare_compat_r. lia.
Qed.

Lemma scaled_nonzero d : nonzero_decimal d -> 0 < scaled d.
Proof.
  intros H. destruct (significand_bounds d H) as (Hs & Hb & _). pose proof (nz_low _ H).
  pose proof (pow10_positive (slen (significand d) - 1) ltac:(lia)). unfold scaled.
  apply Z.mul_pos_pos; [lia|]. apply pow10_positive. lia.
Qed.

Lemma compareDecimal_scaled l r : wf_decimal l = true -> wf_decimal r = true ->
  (compareDecimal l r ?= 0) = (signed (negative l) (scaled l) ?= signed (negative r) (scaled r)).
Proof.
  assert (Hz : signed (negative zero_decimal) (scaled zero_decimal) = 0) by reflexivity.
  intros [->|Hl]%wf_decimal_cases [->|Hr]%wf_decimal_cases; rewrite ?Hz; unfold compareDecimal.
  - reflexivity.
  - rewrite (bool_decide_eq_true_2 (significand zero_decimal = [])) by done. cbn [orb].
    rewrite bool_decide_eq_false_2 by (intros E; by apply (nz_some _ Hr)).
    pose proof (scaled_nonzero r Hr). unfold signedMagnitudeCompare, signed. destruct (negative r).
    + etrans; [|symmetry; apply Z.compare_gt_iff; lia]. reflexivity.
    + etrans; [|symmetry; apply Z.compare_lt_iff; lia]. reflexivity.
  - rewrite (bool_decide_eq_true_2 (significand zero_decimal = [])) by done. rewrite orb_true_r.
    rewrite !(bool_decide_eq_false_2 (significand l = _)) by apply (nz_some _ Hl).
    pose proof (scaled_nonzero l Hl). unfold signedMagnitudeCompare, signed. destruct (negative l).
    + etrans; [|symmetry; apply Z.compare_lt_iff; lia]. reflexivity.
    + etrans; [|symmetry; apply Z.compare_gt_iff; lia]. reflexivity.
  - rewrite !(bool_decide_eq_false_2 (significand _ = [])) by (by apply nz_some). cbn [orb].
    pose proof (scaled_nonzero l Hl). pose proof (scaled_nonzero r Hr).
    pose proof (compareMagnitude_spec l r Hl Hr) as Hm. unfold signed.
    destruct (negative l), (negative r); cbn [bool_decide negb];
      rewrite ?bool_decide_eq_true_2, ?bool_decide_eq_false_2 by done; cbn [negb].
    + destruct (Z.compare_spec (compareMagnitude l r) 0) as [E|E|E], (Z.compare_spec (scaled l) (scaled r));
        try discriminate Hm; symmetry; [rewrite E, H1; apply Z.compare_refl|..].
      * etrans; [apply Z.compare_gt_iff; lia|]. symmetry. apply Z.compare_gt_iff. lia.
      * etrans; [apply Z.compare_lt_iff; lia|]. symmetry. apply Z.compare_lt_iff. lia.
    + etrans; [|symmetry; apply Z.compare_lt_iff; lia]. reflexivity.
    + etrans; [|symmetry; apply Z.compare_gt_iff; lia]. reflexivity.
    + done.
Qed.

(** Decimals are compared mathematically: the sign of [compareDecimal] is
    the order of the exact rational values, although the significands are never
    expanded to the same scale. *)
Theorem compareDecimal_exact l r (Hl : wf_decimal l = true) (Hr : wf_decimal r = true) :
  (compareDecimal l r ?= 0) = (dec_value l ?= dec_value r)%Q.
Proof.
  assert (Hlow : forall d, wf_decimal d = true -> - MaxFractionDigits <= exponent d).
  { intros d [->|H]%wf_decimal_cases; [done|]. by apply nz_low. }
  rewrite compareDecimal_scaled by done. rewrite !dec_value_scaled by auto.
  unfold Qcompare. cbn [Qnum Qden]. apply Zmult_compare_compat_r. lia.
Qed.

Lemma compareDecimal_exact_witness :
  let a := {| negative := true; significand := [0x31; 0x35]; exponent := -1 |} in
  let b := {| negative := true; significand := [0x32]; exponent := 0 |} in
  compareDecimal a b = 1 /\ (compareDecimal a b ?= 0) = (dec_value a ?= dec_value b)%Q.
Proof. split; [reflexivity|]. apply compareDecimal_exact; reflexivity. Defined.

(** ** Equal numbers are the same decimal *)

Lemma compare_digits_zeros n l :
  (length l <= n)%nat -> compare_digits n l [] = 0 \/ compare_digits n [] l = 0 -> Forall (fun b => b = zero) l.
Proof.
  revert l. induction n as [|n IH]; intros l Hl H.
  - destruct l; [constructor|cbn in Hl; lia].
  - destruct l as [|b l]; [constructor|]. cbn in H, Hl.
    destruct (Z.ltb_spec b zero), (Z.ltb_spec zero b); try lia; constructor; try lia; apply IH; lia.
Qed.

Lemma last_zeros l : l <> [] -> Forall (fun b => b = zero) l -> last l = Some zero.
Proof.
  intros Hne H. destruct (last l) as [b|] eqn:E; [|by apply last_None in E].
  apply last_Some in E as [k ->]. apply Forall_app in H as [_ H]. inversion H; subst. done.
Qed.

Lemma compare_digits_eq n l r : (length l <= n)%nat -> (length r <= n)%nat ->
  last l <> Some zero -> last r <> Some zero -> compare_digits n l r = 0 -> l = r.
Proof.
  revert l r. induction n as [|n IH]; intros l r Hl Hr Zl Zr H.
  - destruct l, r; cbn in *; [done|lia..].
  - destruct l as [|b l], r as [|c r]; [done| | |].
    + exfalso. apply Zr, last_zeros; [done|]. by eapply compare_digits_zeros; [|right].
    + exfalso. apply Zl, last_zeros; [done|]. by eapply compare_digits_zeros; [|left].
    + cbn in H, Hl, Hr. destruct (Z.ltb_spec b c), (Z.ltb_spec c b); try lia.
      assert (b = c) as -> by lia. f_equal. apply IH; try lia.
      * intros E. apply Zl. destruct l; [done|]. exact E.
      * intros E. apply Zr. destruct r; [done|]. exact E.
Qed.

Lemma compareDecimal_eq l r : wf_decimal l = true -> wf_decimal r = true ->
  compareDecimal l r = 0 <-> l = r.
Proof.
  intros Wl Wr. split.
  - intros H. pose proof (compareDecimal_scaled l r Wl Wr) as Hs. rewrite H in Hs. symmetry in Hs.
    apply Z.compare_eq in Hs.
    destruct (wf_decimal_cases _ Wl) as [->|Hl], (wf_decimal_cases _ Wr) as [->|Hr]; [done| | |].
    + change (signed (negative zero_decimal) (scaled zero_decimal)) with 0 in Hs.
      pose proof (scaled_nonzero r Hr). unfold signed in Hs. destruct (negative r); lia.
    + change (signed (negative zero_decimal) (scaled zero_decimal)) with 0 in Hs.
      pose proof (scaled_nonzero l Hl). unfold signed in Hs. destruct (negative l); lia.
    + unfold compareDecimal in H. rewrite !(bool_decide_eq_false_2 (significand _ = [])) in H by (by apply nz_some).
      cbn [orb] in H. pose proof (scaled_nonzero l Hl). pose proof (scaled_nonzero r Hr).
      assert (Hn : negative l = negative r) by (unfold signed in Hs; destruct (negative l), (negative r); [done|lia|lia|done]).
      rewrite Hn, bool_decide_eq_true_2 in H by done. cbn [negb] in H.
      assert (Hm : compareMagnitude l r = 0) by (destruct (negative r); lia). unfold compareMagnitude in Hm.
      destruct (_ <? _) eqn:E1; [done|]. destruct (_ <? _) eqn:E2 in Hm; [done|]. breflect.
      apply compare_digits_eq in Hm; [|lia|lia| |].
      * rewrite Hm in E1, E2. destruct l, r; cbn in *. subst. f_equal. lia.
      * intros E. by apply (nz_last _ Hl) in E.
      * intros E. by apply (nz_last _ Hr) in E.
  - intros <-. apply Z.compare_eq. rewrite compareDecimal_scaled by done. apply Z.compare_refl.
Qed.

(** ** The canonical tree *)

Section ValueInd.
Context (P : Value -> Prop).
Context (Hnull : P nullValue) (Hbool : forall b, P (booleanValue b)) (Hstring : forall s, P (stringValue s)).
Context (Hnumber : forall d, P (numberValue d)).
Context (Hobject : forall o, Forall (fun m => P m.2) o -> P (objectValue o)).
Context (Harray : forall a, Forall P a -> P (arrayValue a)).

Fixpoint value_induction (v : Value) : P v :=
  match v with
  | nullValue => Hnull
  | booleanValue b => Hbool b
  | stringValue s => Hstring s
  | numberValue d => Hnumber d
  | objectValue o =>
    Hobject o ((fix go l : Forall (fun m => P m.2) l :=
      match l with
      | [] => @List.Forall_nil _ _
      | x :: l' => @List.Forall_cons _ (fun m => P m.2) x l' (value_induction x.2) (go l')
      end) o)
  | arrayValue a =>
    Harray a ((fix go l : Forall P l :=
      match l with
      | [] => @List.Forall_nil _ _
      | x :: l' => @List.Forall_cons _ P x l' (value_induction x) (go l')
      end) a)
  end.
End ValueInd.

(** Objects by key, at every level. *)
Fixpoint canon (v : Value) : Value :=
  match v with
  | objectValue o => objectValue (sort_on fst String.compare (map (fun m => (m.1, canon m.2)) o))
  | arrayValue a => arrayValue (map canon a)
  | v => v
  end.

Lemma member_some {A : Type} key (o : list (string * A)) v : member key o = Some v -> (key, v) ∈ o.
Proof.
  induction o as [|[k w] o IH]; cbn; [done|]. case_bool_decide as E.
  - intros [= ->]. subst k. apply list_elem_of_here.
  - intros H. right. by apply IH.
Qed.

Lemma member_elem {A : Type} key (o : list (string * A)) v :
  NoDup (map fst o) -> (key, v) ∈ o -> member key o = Some v.
Proof.
  induction o as [|[k w] o IH]; cbn; intros Hn Hin; [by apply not_elem_of_nil in Hin|].
  inversion Hn as [|? ? Hk Hn']; subst. apply elem_of_cons in Hin as [[= -> ->]|Hin].
  - by rewrite bool_decide_eq_true_2.
  - rewrite bool_decide_eq_false_2; [by apply IH|]. intros ->. apply Hk. apply list_elem_of_fmap. by exists (key, v).
Qed.

Lemma NoDup_keys {A B : Type} (f : A -> B) (o : list (string * A)) :
  NoDup (map fst o) -> NoDup (map fst (map (fun m => (m.1, f m.2)) o)).
Proof. intros H. rewrite map_map. exact H. Qed.

(** Association lists with distinct keys and the same bindings sort to the same
    list. *)
Lemma sort_members {A : Type} (o p : list (string * A)) :
  NoDup (map fst o) -> NoDup (map fst p) ->
  sort_on fst String.compare o = sort_on fst String.compare p <-> slen o = slen p /\ o ⊆ p.
Proof.
  intros Ho Hp. split.
  - intros H. assert (Hperm : o ≡ₚ p) by (rewrite <- (sort_on_perm fst String.compare o), H; apply sort_on_perm).
    split; [unfold slen; by rewrite Hperm|]. intros m Hm. by rewrite <- Hperm.
  - intros [Hl Hs]. apply sort_on_unique; [apply _|done|]. apply submseteq_length_Permutation.
    + apply NoDup_submseteq; [|done]. by eapply NoDup_fmap_1.
    + unfold slen in Hl. lia.
Qed.

Lemma equal_items a b depth depth' :
  Forall (fun v => forall w depth depth', wf_value depth v = true -> wf_value depth' w = true ->
            equalValue v w = true <-> canon v = canon w) a ->
  Forall (fun v => wf_value depth v = true) a -> Forall (fun v => wf_value depth' v = true) b ->
  equalValue (arrayValue a) (arrayValue b) = true <-> map canon a = map canon b.
Proof.
  intros IH Ha. cbn [equalValue]. revert b. induction IH as [|v a Hv _ IH]; intros b Hb.
  - destruct b; cbn; split; done.
  - inversion Ha as [|? ? Hw Ha']; subst. destruct b as [|w b]; [cbn; split; done|].
    inversion Hb as [|? ? Hw' Hb']; subst. specialize (IH Ha' b Hb'). specialize (Hv w _ _ Hw Hw').
    assert (Hl : (slen (v :: a) =? slen (w :: b)) = (slen a =? slen b))
      by (apply eq_true_iff_eq; rewrite !Z.eqb_eq; unfold slen; cbn; lia).
    rewrite Hl. cbn [map]. rewrite andb_true_iff in IH |- *. rewrite andb_true_iff, Hv. split.
    + intros (H1 & -> & H3). f_equal. by apply IH.
    + intros [= -> H]. apply IH in H as [? ?]. done.
Qed.

Lemma equal_members a b depth depth' :
  Forall (fun m => forall w depth depth', wf_value depth m.2 = true -> wf_value depth' w = true ->
            equalValue m.2 w = true <-> canon m.2 = canon w) a ->
  NoDup (map fst a) -> NoDup (map fst b) ->
  Forall (fun m => wf_value depth m.2 = true) a -> Forall (fun m => wf_value depth' m.2 = true) b ->
  equalValue (objectValue a) (objectValue b) = true <-> canon (objectValue a) = canon (objectValue b).
Proof.
  intros IH Na Nb Wa Wb. cbn [equalValue canon]. rewrite andb_true_iff, Z.eqb_eq, forallb_true.
  assert (Hinj : forall x y, objectValue x = objectValue y <-> x = y) by (split; congruence).
  rewrite Hinj, sort_members by (by apply NoDup_keys).
  assert (Hlen : forall (o : list (string * Value)), slen (map (fun m => (m.1, canon m.2)) o) = slen o)
    by (intros; unfold slen; by rewrite length_map).
  rewrite !Hlen. apply and_iff_compat_l. rewrite Forall_forall in *. split.
  - intros H m Hm. apply list_elem_of_fmap in Hm as ([k v] & -> & Hin). specialize (H _ Hin). cbn in *.
    destruct (member k b) as [w|] eqn:E; [|done]. apply member_some in E.
    apply (IH _ Hin w depth depth' (Wa _ Hin) (Wb _ E)) in H. cbn in H. rewrite H.
    apply list_elem_of_fmap. by exists (k, w).
  - intros H [k v] Hin. cbn. assert (Hc : (k, canon v) ∈ map (fun m => (m.1, canon m.2)) b).
    { apply H. apply list_elem_of_fmap. by exists (k, v). }
    apply list_elem_of_fmap in Hc as ([k' w] & [= -> Hw] & Hb). rewrite (member_elem _ _ w) by done.
    by apply (IH _ Hin w depth depth' (Wa _ Hin) (Wb _ Hb)).
Qed.

Lemma equalValue_canon v : forall w depth depth',
  wf_value depth v = true -> wf_value depth' w = true -> equalValue v w = true <-> canon v = canon w.
Proof.
  induction v as [| | | |o IH|a IH] using value_induction; intros w depth depth' Hv Hw;
    destruct w; try (cbn; split; done); rewrite wf_value_unfold in Hv, Hw.
  - cbn. rewrite bool_decide_eq_true. split; congruence.
  - cbn. rewrite bool_decide_eq_true. split; congruence.
  - cbn. apply andb_true_iff in Hv as [_ Hv], Hw as [_ Hw]. rewrite Z.eqb_eq, compareDecimal_eq by done.
    split; congruence.
  - rewrite !andb_true_iff, bool_decide_eq_true, forallb_true in Hv, Hw.
    destruct Hv as (_ & (_ & Nv) & Fv), Hw as (_ & (_ & Nw) & Fw).
    apply (equal_members _ _ (depth + 1) (depth' + 1)); [done..| |].
    + eapply Forall_impl; [exact Fv|]. intros m Hm. by apply andb_true_iff in Hm as [].
    + eapply Forall_impl; [exact Fw|]. intros m Hm. by apply andb_true_iff in Hm as [].
  - rewrite !andb_true_iff, forallb_true in Hv, Hw. destruct Hv as (_ & _ & Fv), Hw as (_ & _ & Fw).
    rewrite (equal_items _ _ _ _ IH Fv Fw). cbn. split; congruence.
Qed.
