(* ===== verification/StrictJsonNumbers.v ===== *)
(** * Strict JSON: strings and numbers survive the writer

    The parser reads back exactly what [json.Marshal] writes for a well-formed
    string without NUL, whatever follows the closing quote.  The canonical spelling
    of a decimal determines it, and reads back to it whenever its digits are within
    the parser's budget. *)

From stdpp Require Import pretty.
From S2P Require Import Prelude Order GoStrings Utf8 Digest Digits GoJson StrictJson StrictJsonSpec StrictJsonEqual.
Local Open Scope go_scope.
Local Open Scope string_scope.
Local Open Scope Z_scope.
Local Open Scope list_scope.

Definition written (rs : list Z) : list Z := flat_map (fun r => json_rune (r, true)) rs.

Lemma json_string_written rs : Forall scalar rs -> json_string (encode_runes rs) = quote :: written rs ++ [quote].
Proof.
  intros H. unfold json_string, written. rewrite <- (app_nil_r (encode_runes rs)), decode_encode_runes by done.
  cbn. rewrite app_nil_r. do 2 f_equal. induction rs as [|r rs IH]; [done|]. inversion H; subst. cbn.
  by rewrite IH.
Qed.

Lemma hex_value_digit x : 0 <= x < 16 -> hex_value (hex_digit x) = Some x.
Proof.
  intros Hx. unfold hex_value, hex_digit. destruct (Z.ltb_spec x 10).
  - rewrite (proj2 (between_spec _ _ _)) by lia. f_equal. lia.
  - rewrite (proj2 (between_false _ _ _)), (proj2 (between_spec _ _ _)) by lia. f_equal. lia.
Qed.

Lemma parseHexEscape_written r rest : 0 <= r < 0x10000 ->
  parseHexEscape (hex_digit (r / 4096 mod 16) :: hex_digit (r / 256 mod 16) ::
                  hex_digit (r / 16 mod 16) :: hex_digit (r mod 16) :: rest) = Ok (r, rest).
Proof.
  intros Hr. unfold parseHexEscape. rewrite !hex_value_digit by (apply Z.mod_pos_bound; lia).
  do 2 f_equal. rune_arith.
Qed.

Lemma parse_unicode_escape_written r rest : 0 < r < 0xD800 ->
  parse_escape (drop 1 (unicode_escape r) ++ rest) = Ok (encode_rune r, rest).
Proof.
  intros Hr. unfold unicode_escape. cbn [drop skipn app].
  match goal with |- parse_escape (0x75 :: ?l) = _ => change (parse_escape (0x75 :: l)) with (parse_unicode_escape l) end.
  unfold parse_unicode_escape. rewrite parseHexEscape_written by lia. cbn [result_bind].
  rewrite (proj2 (Z.eqb_neq r 0)) by lia. rewrite !(proj2 (between_false _ _ r)) by lia. done.
Qed.

(** A rune is either written as an escape that reads back to its encoding, or
    as its encoding, which needs none. *)
Definition raw (r : Z) : Prop := 0x20 <= r /\ r <> quote /\ r <> bslash /\ r <> 0x2028 /\ r <> 0x2029.

(** A two-byte escape. *)
Ltac short c := right; (split; [unfold raw; lia|]); exists [c]; split; [done|]; intros rest; reflexivity.

Lemma json_rune_cases r : scalar r -> r <> 0 ->
  (raw r /\ json_rune (r, true) = encode_rune r) \/
  (~ (raw r /\ 0x80 <= r) /\ exists esc, json_rune (r, true) = bslash :: esc /\
    forall rest, parse_escape (esc ++ rest) = Ok (encode_rune r, rest)).
Proof.
  intros Hs H0. unfold json_rune. cbn [negb].
  destruct ((r =? quote) || (r =? bslash)) eqn:E1.
  { right. assert (Hq : r = quote \/ r = bslash) by (breflect; lia). split; [unfold raw; lia|].
    exists [r]. split; [done|]. intros rest. by destruct Hq as [-> | ->]. }
  destruct (Z.eqb_spec r 0x08) as [->|N1]; [short 0x62|].
  destruct (Z.eqb_spec r 0x0C) as [->|N2]; [short 0x66|].
  destruct (Z.eqb_spec r 0x0A) as [->|N3]; [short 0x6E|].
  destruct (Z.eqb_spec r 0x0D) as [->|N4]; [short 0x72|].
  destruct (Z.eqb_spec r 0x09) as [->|N5]; [short 0x74|].
  assert (Hesc : ~ (raw r /\ 0x80 <= r) -> 0 < r < 0xD800 -> ~ (raw r /\ 0x80 <= r) /\
    exists esc, unicode_escape r = bslash :: esc /\ forall rest, parse_escape (esc ++ rest) = Ok (encode_rune r, rest)).
  { intros Hn Hr. split; [done|]. exists (drop 1 (unicode_escape r)). split; [done|]. intros rest.
    by apply parse_unicode_escape_written. }
  unfold scalar in Hs. destruct ((r <? 0x20) || html_unsafe r) eqn:E2.
  { right. unfold html_unsafe in E2. assert (r < 0x80) by (breflect; lia). apply Hesc; [lia|]. lia. }
  destruct ((r =? 0x2028) || (r =? 0x2029)) eqn:E3.
  { right. breflect. apply Hesc; unfold raw; lia. }
  left. split; [|done]. unfold raw. breflect. lia.
Qed.

Lemma span_high_app d r :
  Forall (fun b => 0x80 <= b) d -> (forall b, head r = Some b -> b < 0x80) -> span_high (d ++ r) = (d, r).
Proof.
  intros Hd Hr. induction Hd as [|b d Hb _ IH]; cbn.
  - destruct r as [|c r]; [done|]. cbn. rewrite (proj2 (Z.leb_gt _ _)); [done|]. by apply Hr.
  - by rewrite (proj2 (Z.leb_le _ _)), IH.
Qed.

(** The leading runes above ASCII that are written as they are. *)
Definition raw_high (r : Z) : bool := (0x80 <=? r) && negb (r =? 0x2028) && negb (r =? 0x2029).

Lemma raw_high_raw r : raw_high r = true <-> raw r /\ 0x80 <= r.
Proof.
  unfold raw_high, raw, quote, bslash. rewrite !andb_true_iff, !negb_true_iff, !Z.eqb_neq, Z.leb_le. lia.
Qed.

Lemma split_raw_high rs : exists hs ts, rs = hs ++ ts /\ Forall (fun r => raw_high r = true) hs /\
  (forall t, head ts = Some t -> raw_high t = false).
Proof.
  induction rs as [|r rs (hs & ts & -> & Hh & Ht)]; [exists [], []; by split_and!|].
  destruct (raw_high r) eqn:E.
  - exists (r :: hs), ts. split_and!; [done|by constructor|done].
  - exists [], (r :: hs ++ ts). split_and!; [done|constructor|]. cbn. congruence.
Qed.

Lemma written_raw hs : Forall (fun r => scalar r /\ r <> 0) hs -> Forall (fun r => raw_high r = true) hs ->
  written hs = encode_runes hs /\ Forall (fun b => 0x80 <= b) (encode_runes hs).
Proof.
  induction 1 as [|r hs [Hs H0] _ IH]; intros Hh; [by split|]. inversion Hh as [|? ? Hr Hh']; subst.
  apply raw_high_raw in Hr. destruct (IH Hh') as [E F]. cbn [written encode_runes flat_map]. split.
  - destruct (json_rune_cases r Hs H0) as [[_ ->]|[Hn _]]; [|done]. f_equal. exact E.
  - apply Forall_app. split; [|done]. destruct (encode_rune_bytes r Hs) as [[? _]|(_ & Hb & _)]; [lia|].
    eapply Forall_impl; [exact Hb|]. cbn. lia.
Qed.

Lemma written_head ts k t : Forall (fun r => scalar r /\ r <> 0) ts ->
  (forall t, head ts = Some t -> raw_high t = false) -> head (written ts ++ quote :: k) = Some t -> t < 0x80.
Proof.
  intros Hs Ht. destruct ts as [|r ts]; [cbn; intros [= <-]; done|]. inversion Hs as [|? ? [Hr H0] _]; subst.
  cbn [written flat_map]. destruct (json_rune_cases r Hr H0) as [[Hraw ->]|(_ & esc & -> & _)].
  - destruct (encode_rune_bytes r Hr) as [[Hlt ->]|(Hge & _)]; [cbn; congruence|].
    specialize (Ht r eq_refl). assert (raw_high r = true) by (by apply raw_high_raw). congruence.
  - cbn. intros [= <-]. done.
Qed.

Lemma encode_runes_app a b : encode_runes (a ++ b) = encode_runes a ++ encode_runes b.
Proof. apply flat_map_app. Qed.
Lemma written_app a b : written (a ++ b) = written a ++ written b.
Proof. apply flat_map_app. Qed.

(** One turn of the loop. *)
Lemma string_loop_step fuel decoded current rest a rest' :
  current <> quote -> string_step current rest = Ok (a, rest') -> slen (decoded ++ a) <= maxStringBytes ->
  string_loop (S fuel) decoded (current :: rest) = string_loop fuel (decoded ++ a) rest'.
Proof.
  intros Hq Hs Hl. cbn [string_loop]. rewrite (proj2 (Z.eqb_neq _ _) Hq), Hs. cbn [result_bind].
  by rewrite (proj2 (Z.ltb_ge _ _) Hl).
Qed.

Lemma string_loop_written rs : forall fuel decoded k,
  Forall (fun r => scalar r /\ r <> 0) rs -> slen (decoded ++ encode_runes rs) <= maxStringBytes ->
  (length (written rs ++ quote :: k) < fuel)%nat ->
  string_loop fuel decoded (written rs ++ quote :: k) = Ok (decoded ++ encode_runes rs, k).
Proof.
  induction rs as [rs IH] using (induction_ltof1 _ (@length _)). unfold ltof in IH.
  intros [|fuel] decoded k Hs Hl Hf; [lia|]. destruct rs as [|r rs].
  { cbn [written encode_runes flat_map app string_loop] in *. rewrite Z.eqb_refl, app_nil_r in *.
    by rewrite (proj2 (Z.ltb_ge _ _) Hl). }
  assert (Hnext : forall current rest hs ts, r :: rs = hs ++ ts -> hs <> [] ->
    written (r :: rs) ++ quote :: k = current :: rest -> current <> quote ->
    string_step current rest = Ok (encode_runes hs, written ts ++ quote :: k) ->
    string_loop (S fuel) decoded (written (r :: rs) ++ quote :: k) = Ok (decoded ++ encode_runes (r :: rs), k)).
  { intros current rest hs ts Hrs Hne Hw Hq Hstep. rewrite Hw.
    rewrite Hrs, encode_runes_app, (assoc_L (++)) in Hl |- *.
    assert (Hts : Forall (fun r => scalar r /\ r <> 0) ts) by (rewrite Hrs in Hs; by apply Forall_app in Hs as []).
    erewrite string_loop_step; [|done|exact Hstep|unfold slen in *; rewrite length_app in Hl; lia].
    apply IH; [|done|done|].
    - rewrite Hrs, length_app. destruct hs; [done|]. cbn. lia.
    - pose proof (string_step_reads current rest) as Hr. rewrite Hstep in Hr. cbn in Hr. rewrite Hw in Hf. cbn in Hf. lia. }
  inversion Hs as [|? ? [Hr H0] Hs']; subst.
  assert (Eh : encode_runes [r] = encode_rune r) by (cbn; apply app_nil_r).
  destruct (json_rune_cases r Hr H0) as [[Hraw Hj]|(_ & esc & Hj & Hp)].
  - destruct (encode_rune_bytes r Hr) as [[Hlt He]|(Hge & _)].
    + rewrite He in Hj. eapply (Hnext r _ [r] rs); [done|done| |apply Hraw|].
      { cbn [written flat_map]. rewrite Hj. reflexivity. }
      unfold string_step. destruct Hraw as (H20 & _ & Hb & _).
      rewrite (proj2 (Z.eqb_neq _ _) Hb), (proj2 (Z.ltb_ge _ _) H20), (proj2 (Z.ltb_lt _ _) Hlt), Eh, He. done.
    + destruct (split_raw_high (r :: rs)) as (hs & ts & Hrs & Hh & Ht).
      assert (Hne : hs <> []).
      { intros ->. cbn in Hrs. subst ts. specialize (Ht r eq_refl).
        assert (raw_high r = true) by (by apply raw_high_raw). congruence. }
      rewrite Hrs in Hs. apply Forall_app in Hs as [Hhs Hts]. destruct (written_raw hs Hhs Hh) as [Ew Fw].
      assert (Hw : written (r :: rs) ++ quote :: k = encode_runes hs ++ (written ts ++ quote :: k))
        by (rewrite Hrs, written_app, Ew; by rewrite <- (assoc_L (++))).
      assert (Hb : exists c cs, encode_runes hs = c :: cs).
      { destruct hs as [|h hs]; [done|]. inversion Hhs as [|? ? [Hsc _] _]; subst. cbn [encode_runes flat_map].
        destruct (encode_rune_bytes h Hsc) as [[_ ->]|(_ & _ & Hn)]; [by eexists _, _|].
        destruct (encode_rune h); [done|]. by eexists _, _. }
      destruct Hb as (c & cs & Ec). pose proof Fw as Fw'. rewrite Ec in Fw'. inversion Fw' as [|? ? Hc _]; subst.
      eapply (Hnext c (cs ++ written ts ++ quote :: k) hs ts); [done|done| | |].
      * rewrite Hw, Ec. reflexivity.
      * unfold quote. lia.
      * unfold string_step. unfold bslash. rewrite (proj2 (Z.eqb_neq c _)) by lia.
        rewrite !(proj2 (Z.ltb_ge c _)) by lia. change (c :: cs ++ ?x) with ((c :: cs) ++ x). rewrite <- Ec.
        rewrite span_high_app by (done || (intros b; by apply written_head)).
        rewrite valid_encode_runes; [done|]. eapply Forall_impl; [exact Hhs|]. by intros ? [].
  - eapply (Hnext bslash (esc ++ written rs ++ quote :: k) [r] rs); [done|done| |done|].
    + cbn [written flat_map]. rewrite Hj. cbn. by rewrite <- (assoc_L (++)).
    + unfold string_step. rewrite Z.eqb_refl, Hp, Eh. done.
Qed.

Lemma text_of_runes l : text l -> exists rs, Forall (fun r => scalar r /\ r <> 0) rs /\ l = encode_runes rs.
Proof.
  intros [Hv Hb]. destruct (valid_utf8_runes l Hv) as (rs & Hrs & ->).
  { eapply Forall_impl; [exact Hb|]. cbn. lia. }
  exists rs. split; [|done]. clear Hv. induction Hrs as [|r rs Hr _ IH]; [constructor|].
  cbn [encode_runes flat_map] in Hb. apply Forall_app in Hb as [H1 H2]. constructor; [|by apply IH].
  split; [done|]. intros ->. cbn in H1. inversion H1; subst. lia.
Qed.

(** The writer's spelling of a string reads back, whatever follows. *)
Lemma parseString_written s k : wf_string s = true ->
  parseString (json_string (bytes s) ++ k) = Ok (s, k).
Proof.
  rewrite wf_string_text, len_bytes. intros [Ht Hl]. destruct (text_of_runes _ Ht) as (rs & Hrs & E).
  rewrite E in Ht, Hl |- *. rewrite json_string_written by (eapply Forall_impl; [exact Hrs|]; by intros ? []).
  unfold parseString. cbn [app consume]. rewrite Z.eqb_refl, <- (assoc_L (++)). cbn [app].
  rewrite string_loop_written by (done || lia). cbn [result_bind app]. by rewrite <- E, of_bytes_bytes.
Qed.

(** Spellings of strings are prefix free. *)
Lemma json_string_cancel s t k k' : wf_string s = true -> wf_string t = true ->
  json_string (bytes s) ++ k = json_string (bytes t) ++ k' -> s = t /\ k = k'.
Proof.
  intros Hs Ht H. apply (f_equal parseString) in H. rewrite !parseString_written in H by done.
  by injection H.
Qed.

(** What may follow a value: nothing, or a delimiter. *)
Definition stop (k : list Z) : Prop := forall b, head k = Some b -> isValueDelimiter b = true.

Lemma delimiter_not_number b : isValueDelimiter b = true ->
  is_digit b = false /\ b <> dot /\ b <> char_e /\ b <> char_E.
Proof.
  intros H. assert (Hb : In b [comma; rbracket; rbrace; 0x20; 0x09; 0x0A; 0x0D]).
  { unfold isValueDelimiter, is_blank in H. breflect. cbn. lia. }
  cbn in Hb. destruct_or!; subst; done.
Qed.

Lemma stop_digit k b : stop k -> head k = Some b -> is_digit b = false.
Proof. intros Hk Hb. by apply delimiter_not_number, Hk. Qed.

(** ** The parts of a spelling *)

Definition num_sign (d : decimal) : list Z := if negative d then [minus] else [].
Definition num_int (d : decimal) : list Z :=
  if significand d =?= [] then [zero] else significand d ++ replicate (Z.to_nat (exponent d)) zero.
Definition num_tail (d : decimal) : list Z :=
  if exponent d <? 0 then char_e :: bytes (pretty (exponent d)) else [].

Lemma canonicalDecimal_parts d : wf_decimal d = true -> canonicalDecimal d = num_sign d ++ num_int d ++ num_tail d.
Proof.
  intros [->|H]%wf_decimal_cases; [done|]. unfold canonicalDecimal, num_int, num_tail, num_sign.
  rewrite bool_decide_eq_false_2 by apply (nz_some _ H).
  destruct (Z.eqb_spec (exponent d) 0) as [E|E].
  { rewrite E. cbn. by rewrite !app_nil_r. }
  destruct (Z.ltb_spec 0 (exponent d)).
  - rewrite (proj2 (Z.ltb_ge _ _)) by lia. by rewrite app_nil_r.
  - rewrite (proj2 (Z.ltb_lt _ _)) by lia. rewrite Z2Nat.nonpos by lia. cbn. by rewrite app_nil_r.
Qed.

Lemma digits_replicate n : digits (replicate n zero).
Proof. by apply Forall_replicate. Qed.

Lemma num_int_digits d : wf_decimal d = true -> digits (num_int d).
Proof.
  intros [->|H]%wf_decimal_cases; [by apply Forall_singleton|]. unfold num_int.
  rewrite bool_decide_eq_false_2 by apply (nz_some _ H). apply Forall_app.
  split; [apply (nz_digits _ H)|apply digits_replicate].
Qed.

Lemma num_int_head d : wf_decimal d = true -> exists b l, num_int d = b :: l /\ is_digit b = true.
Proof.
  intros H. pose proof (num_int_digits d H) as Hd. destruct (num_int d) as [|b l] eqn:E.
  - unfold num_int in E. case_bool_decide as Hs; [done|]. by apply app_eq_nil in E as [? _].
  - inversion Hd; subst. by exists b, l.
Qed.

Lemma num_tail_head d k b : wf_decimal d = true -> stop k -> head (num_tail d ++ k) = Some b -> is_digit b = false.
Proof.
  intros _ Hk. unfold num_tail. destruct (exponent d <? 0); [by intros [= <-]|]. by apply stop_digit.
Qed.

Lemma span_number d k : wf_decimal d = true -> stop k ->
  span_digits (num_int d ++ num_tail d ++ k) = (num_int d, num_tail d ++ k).
Proof.
  intros H Hk. apply span_digits_app; [by apply num_int_digits|]. intros b. by apply num_tail_head.
Qed.

Lemma trim_left_replicate n l : (forall b, head l = Some b -> b <> zero) ->
  trim_left (Z.eqb zero) (replicate n zero ++ l) = l.
Proof.
  intros H. induction n as [|n IH]; cbn; [|done]. destruct l as [|b l]; [done|]. cbn.
  rewrite (proj2 (Z.eqb_neq zero b)); [done|]. intros E. by apply (H b).
Qed.

Lemma trim_right_replicate n l : (forall b, last l = Some b -> b <> zero) ->
  trim_right (Z.eqb zero) (l ++ replicate n zero) = l.
Proof.
  intros H. unfold trim_right. rewrite rev_app_distr.
  assert (Hr : rev (replicate n zero) = replicate n zero).
  { rewrite <- (reverse_replicate n zero) at 2. unfold reverse. by rewrite rev_alt. }
  rewrite Hr, trim_left_replicate; [apply rev_involutive|]. intros b Hb. apply H.
  destruct l as [|c l] using rev_ind; [done|]. rewrite rev_app_distr in Hb. cbn in Hb. by rewrite last_snoc.
Qed.

(** The integer part determines the significand and a non-negative exponent. *)
Lemma num_int_trim d : nonzero_decimal d -> trim_right (Z.eqb zero) (num_int d) = significand d.
Proof.
  intros H. unfold num_int. rewrite bool_decide_eq_false_2 by apply (nz_some _ H).
  apply trim_right_replicate, (nz_last _ H).
Qed.

Lemma num_int_length d : nonzero_decimal d ->
  length (num_int d) = (length (significand d) + Z.to_nat (exponent d))%nat.
Proof.
  intros H. unfold num_int. rewrite bool_decide_eq_false_2 by apply (nz_some _ H).
  by rewrite length_app, length_replicate.
Qed.

Lemma num_int_zero d : nonzero_decimal d -> num_int d <> [zero].
Proof.
  intros H E. pose proof (nz_head _ H) as Hh. unfold num_int in E.
  rewrite bool_decide_eq_false_2 in E by apply (nz_some _ H).
  pose proof (nz_some _ H). destruct (significand d) as [|b l]; [done|]. injection E as -> _.
  by apply (Hh zero).
Qed.

Lemma exponent_spelling e : e < 0 -> exists l, bytes (pretty e) = minus :: l /\ digits l /\
  digits_val l = - e /\ exists b k, l = b :: k /\ b <> zero.
Proof.
  intros He. destruct e as [|p|p]; [lia|lia|]. destruct (pretty_positive_digits p) as (l & Hl & Hd & Hv & Hb).
  exists l. split_and!; [|done|by rewrite Hv|done].
  change (pretty (Z.neg p)) with ("-" +:+ pretty p). rewrite bytes_app, Hl. done.
Qed.

Lemma num_tail_cancel d e k k' : stop k -> stop k' ->
  num_tail d ++ k = num_tail e ++ k' -> Z.min (exponent d) 0 = Z.min (exponent e) 0 /\ k = k'.
Proof.
  intros Hk Hk'. unfold num_tail. destruct (Z.ltb_spec (exponent d) 0) as [Hd|Hd], (Z.ltb_spec (exponent e) 0) as [He|He].
  - destruct (exponent_spelling _ Hd) as (l & El & Dl & Vl & _), (exponent_spelling _ He) as (m & Em & Dm & Vm & _).
    rewrite El, Em. cbn. intros H. injection H as H. apply (f_equal span_digits) in H.
    rewrite !span_digits_app in H by (done || (intros b; by apply stop_digit)).
    injection H as -> ->. split; [|done]. lia.
  - cbn. intros <-. specialize (Hk' char_e eq_refl). done.
  - cbn. intros ->. specialize (Hk char_e eq_refl). done.
  - cbn. intros ->. split; [lia|done].
Qed.

(** Spellings of numbers are prefix free, up to the delimiter. *)
Lemma canonicalDecimal_cancel d e k k' : wf_decimal d = true -> wf_decimal e = true -> stop k -> stop k' ->
  canonicalDecimal d ++ k = canonicalDecimal e ++ k' -> d = e /\ k = k'.
Proof.
  intros Hd He Hk Hk' H. rewrite !canonicalDecimal_parts, <- !(assoc_L (++)) in H by done.
  assert (Hs : negative d = negative e /\ num_int d ++ num_tail d ++ k = num_int e ++ num_tail e ++ k').
  { destruct (num_int_head d Hd) as (b & l & Eb & Db), (num_int_head e He) as (c & m & Ec & Dc).
    unfold num_sign in H. rewrite Eb, Ec in *. apply is_digit_range in Db, Dc. unfold zero in *.
    destruct (negative d), (negative e); cbn in H |- *; injection H as H1 H2; unfold minus in *;
      [by rewrite H1, H2|lia|lia|by rewrite H1, H2]. }
  destruct Hs as [Hn Hi]. apply (f_equal span_digits) in Hi. rewrite !span_number in Hi by done.
  injection Hi as Hi Ht. apply num_tail_cancel in Ht as [Ht ->]; [|done..]. split; [|done].
  destruct (wf_decimal_cases _ Hd) as [->|Nd], (wf_decimal_cases _ He) as [->|Ne]; [done| | |].
  - symmetry in Hi. by apply num_int_zero in Hi.
  - by apply num_int_zero in Hi.
  - pose proof (num_int_trim d Nd) as Td. pose proof (num_int_trim e Ne) as Te. rewrite Hi, Te in Td.
    pose proof (num_int_length d Nd) as Ld. pose proof (num_int_length e Ne) as Le. rewrite Hi, Le, Td in Ld.
    destruct d, e; cbn in *. subst. f_equal. lia.
Qed.

(** ** Reading a spelling back *)

Lemma exponent_loop_digits l : forall n e k, digits l -> (forall b, head k = Some b -> is_digit b = false) ->
  0 <= e -> n + slen l <= maxExponentDigits -> e * 10 ^ slen l + digits_val l <= MaxAbsExponent ->
  exponent_loop n e (l ++ k) = Ok (e * 10 ^ slen l + digits_val l, k).
Proof.
  induction l as [|b l IH]; intros n e k Hd Hk He Hn Hv.
  - cbn [app]. change (slen []) with 0. change (digits_val []) with 0.
    replace (e * 10 ^ 0 + 0) with e by lia. destruct k as [|c k]; [done|]. cbn. by rewrite (Hk c eq_refl).
  - inversion Hd as [|? ? Hb Hd']; subst. cbn [app exponent_loop]. rewrite Hb.
    pose proof (digits_val_bound l Hd') as Bl. pose proof (pow10_pos l) as Pl.
    assert (Hsl : slen (b :: l) = slen l + 1) by (unfold slen; cbn; lia).
    apply is_digit_range in Hb. pose proof (slen_nonneg l).
    assert (Hval : e * 10 ^ slen (b :: l) + digits_val (b :: l) = (e * 10 + (b - zero)) * 10 ^ slen l + digits_val l).
    { rewrite digits_val_cons, Hsl, Z.pow_add_r by lia. change (10 ^ 1) with 10. ring. }
    rewrite Hval in Hv |- *. assert (Hle : e * 10 + (b - zero) <= MaxAbsExponent) by nia.
    rewrite (proj2 (Z.ltb_ge maxExponentDigits _)) by lia. cbv zeta.
    assert (Hq : e <= Z.quot (MaxAbsExponent - (b - zero)) 10).
    { apply Z.quot_le_lower_bound; lia. }
    rewrite (proj2 (Z.ltb_ge _ e)) by done. rewrite (proj2 (Z.ltb_ge MaxAbsExponent _)) by done.
    apply IH; [done|done|lia|lia|done].
Qed.

(** A bounded negative exponent is written with at most four digits. *)
Lemma exponent_length d : wf_decimal d = true -> exponent d < 0 ->
  exists l, bytes (pretty (exponent d)) = minus :: l /\ digits l /\ digits_val l = - exponent d /\ l <> [] /\
    slen l <= 4 /\ digits_val l <= MaxAbsExponent.
Proof.
  intros Hw Hd. destruct (exponent_spelling _ Hd) as (l & El & Dl & Vl & b & m & Hl & Hb).
  assert (Hlow : - MaxFractionDigits <= exponent d) by (by apply wf_decimal_cases in Hw as [->|N]; [|apply N]).
  exists l. split_and!; [done..|by rewrite Hl| |rewrite Vl; unfold MaxAbsExponent, MaxFractionDigits in *; lia].
  pose proof (integer_val_bound b m) as B. rewrite <- Hl in B. specialize (B Dl Hb).
  assert (slen l = slen m + 1) by (rewrite Hl; unfold slen; cbn; lia).
  destruct (Z.le_gt_cases (slen m) 3); [lia|]. unfold MaxFractionDigits in *.
  pose proof (Z.pow_le_mono_r 10 4 (slen m) ltac:(lia) ltac:(lia)). lia.
Qed.

Lemma parse_exponent_tail d k : wf_decimal d = true -> stop k ->
  parse_exponent (num_tail d ++ k) = Ok (Z.min (exponent d) 0, k).
Proof.
  intros Hw Hk. unfold num_tail. destruct (Z.ltb_spec (exponent d) 0) as [Hd|Hd].
  - rewrite Z.min_l by lia. destruct (exponent_length d Hw Hd) as (l & El & Dl & Vl & Hl & Hlen & Hmax).
    rewrite El. cbn [app parse_exponent]. change ((char_e =? char_e) || (char_e =? char_E)) with true.
    change (consume minus (minus :: l ++ k)) with (Some (l ++ k)). cbv iota beta.
    rewrite exponent_loop_digits; [|done|intros c; by apply stop_digit|lia|unfold maxExponentDigits; lia|lia].
    cbn [result_bind]. rewrite (proj2 (Z.eqb_neq _ _)).
    + do 2 f_equal. lia.
    + unfold slen. rewrite length_app. destruct l; [done|]. cbn. lia.
  - rewrite Z.min_r by lia. cbn [app]. unfold parse_exponent. destruct k as [|b k]; [done|].
    specialize (Hk b eq_refl). apply delimiter_not_number in Hk as (_ & _ & He & HE).
    by rewrite (proj2 (Z.eqb_neq _ _) He), (proj2 (Z.eqb_neq _ _) HE).
Qed.

Lemma parse_integer_number d k : wf_decimal d = true -> stop k ->
  parse_integer (num_int d ++ num_tail d ++ k) = Ok (num_int d, num_tail d ++ k).
Proof.
  intros Hw Hk. destruct (wf_decimal_cases _ Hw) as [->|N].
  - change (num_int zero_decimal) with [zero]. change (num_tail zero_decimal) with (@nil Z).
    cbn [app parse_integer]. rewrite Z.eqb_refl. destruct k as [|b k]; [done|].
    by rewrite (stop_digit _ b Hk eq_refl).
  - pose proof (span_number d k Hw Hk) as Hs. pose proof (nz_head _ N) as Hh. pose proof (nz_digits _ N) as Hd.
    unfold num_int in *. rewrite bool_decide_eq_false_2 in * by apply (nz_some _ N).
    pose proof (nz_some _ N). destruct (significand d) as [|b l]; [done|]. specialize (Hh b eq_refl).
    inversion Hd as [|? ? Hb _]; subst. cbn [app parse_integer] in *. rewrite (proj2 (Z.eqb_neq _ _) Hh).
    apply is_digit_range in Hb. unfold zero in *. rewrite (proj2 (between_spec _ _ b)) by lia.
    f_equal. exact Hs.
Qed.

Lemma parse_fraction_number d k : stop k -> parse_fraction (num_tail d ++ k) = Ok ([], num_tail d ++ k).
Proof.
  intros Hk. unfold parse_fraction. unfold num_tail. destruct (exponent d <? 0); [done|]. cbn [app].
  destruct k as [|b k]; [done|]. specialize (Hk b eq_refl). apply delimiter_not_number in Hk as (_ & Hd & _).
  cbn. by rewrite (proj2 (Z.eqb_neq _ _) Hd).
Qed.

(** The digits a spelling needs. *)
Definition written_digits (d : decimal) : Z := slen (significand d) + Z.max (exponent d) 0.

Lemma num_int_slen d : nonzero_decimal d -> slen (num_int d) = written_digits d.
Proof. intros N. unfold slen, written_digits, slen. rewrite num_int_length by done. lia. Qed.

Lemma place_decimal_number d : wf_decimal d = true -> written_digits d <= MaxMantissaDigits ->
  place_decimal (negative d) (num_int d) 0 (Z.min (exponent d) 0) = Ok d.
Proof.
  intros Hw Hm. destruct (wf_decimal_cases _ Hw) as [->|N]; [done|].
  assert (Htl : trim_left (Z.eqb zero) (num_int d) = num_int d).
  { apply (trim_left_replicate 0). intros b. pose proof (nz_head _ N) as Hh. unfold num_int.
    rewrite bool_decide_eq_false_2 by apply (nz_some _ N). pose proof (nz_some _ N).
    destruct (significand d) as [|c l]; [done|]. apply Hh. }
  unfold place_decimal. rewrite Htl, num_int_trim by done. rewrite num_int_slen by done.
  rewrite (proj2 (Z.ltb_ge _ _)) by done.
  rewrite bool_decide_eq_false_2.
  2: { intros E. destruct (num_int_head d Hw) as (b & l & Hb & _). congruence. }
  cbv zeta. pose proof (nz_low _ N). pose proof (nz_high _ N). pose proof (nz_integer _ N). unfold written_digits in *.
  assert (He : Z.min (exponent d) 0 + (slen (significand d) + Z.max (exponent d) 0 - slen (significand d) - 0) = exponent d) by lia.
  rewrite He. unfold MaxAbsExponent, MaxIntegerDigits, MaxFractionDigits in *.
  rewrite !(proj2 (Z.ltb_ge _ _)) by lia. by destruct d.
Qed.

Lemma num_tail_length d : wf_decimal d = true -> slen (num_tail d) <= 6.
Proof.
  intros Hw. unfold num_tail. destruct (Z.ltb_spec (exponent d) 0) as [Hd|Hd]; [|by unfold slen; cbn; lia].
  destruct (exponent_length d Hw Hd) as (l & El & _ & _ & _ & Hlen & _). rewrite El.
  unfold slen in *. cbn. lia.
Qed.

(** Reading the parts of a spelling leaves the lexeme bound and the placement
    of the point. *)
Lemma parseNumber_parts d k : wf_decimal d = true -> stop k ->
  parseNumber (num_sign d ++ num_int d ++ num_tail d ++ k) =
  if MaxNumberLexemeBytes <? slen (num_sign d ++ num_int d ++ num_tail d ++ k) - slen k then Err ErrNumberBudget
  else let? r := place_decimal (negative d) (num_int d) 0 (Z.min (exponent d) 0) in Ok (r, k).
Proof.
  intros Hw Hk. unfold parseNumber.
  destruct (num_int_head d Hw) as (b & l & Eb & Db).
  assert (Hs : match consume minus (num_sign d ++ num_int d ++ num_tail d ++ k) with
               | Some r => (true, r) | None => (false, num_sign d ++ num_int d ++ num_tail d ++ k) end
             = (negative d, num_int d ++ num_tail d ++ k)).
  { unfold num_sign. destruct (negative d); [done|]. cbn [app]. rewrite Eb. cbn.
    apply is_digit_range in Db. unfold zero, minus in *. by rewrite (proj2 (Z.eqb_neq b _)) by lia. }
  rewrite Hs. rewrite parse_integer_number by done. cbn [result_bind]. rewrite parse_fraction_number by done.
  cbn [result_bind]. rewrite parse_exponent_tail by done. cbn [result_bind].
  assert (Hd : match k with b :: _ => negb (isValueDelimiter b) | [] => false end = false).
  { destruct k as [|c k]; [done|]. by rewrite (Hk c eq_refl). }
  rewrite Hd, app_nil_r. done.
Qed.

Lemma parseNumber_written d k : wf_decimal d = true -> written_digits d <= MaxMantissaDigits -> stop k ->
  parseNumber (canonicalDecimal d ++ k) = Ok (d, k).
Proof.
  intros Hw Hm Hk. rewrite canonicalDecimal_parts, <- !(assoc_L (++)) by done. rewrite parseNumber_parts by done.
  assert (Hlex : slen (num_sign d ++ num_int d ++ num_tail d ++ k) - slen k <= MaxNumberLexemeBytes).
  { pose proof (num_tail_length d Hw). assert (slen (num_int d) <= MaxMantissaDigits).
    { destruct (wf_decimal_cases _ Hw) as [->|N]; [done|]. by rewrite num_int_slen. }
    assert (slen (num_sign d) <= 1) by (unfold num_sign; destruct (negative d); done).
    unfold slen in *. rewrite !length_app. unfold MaxMantissaDigits in *. change MaxNumberLexemeBytes with 16384. lia. }
  rewrite (proj2 (Z.ltb_ge _ _) Hlex). by rewrite place_decimal_number.
Qed.
