(* ===== verification/StrictJsonCanon.v ===== *)
(** * Strict JSON: [Normalize] is a canonical form

    - two documents normalise to the same bytes exactly when they are [Equal];
    - a normalised document that is within the parser's own bounds is equal to
      the original and normalises to itself. *)

From stdpp Require Import pretty.
From S2P Require Import Prelude Order GoStrings Utf8 Digest Digits GoJson.
From S2P Require Import StrictJson StrictJsonSpec StrictJsonEqual StrictJsonNumbers.
Local Open Scope go_scope.
Local Open Scope string_scope.
Local Open Scope Z_scope.
Local Open Scope list_scope.

(** ** Objects as sorted lists *)

Definition fmt (m : string * list Z) : list Z := json_string (bytes m.1) ++ colon :: m.2.
Definition sorted_members (o : list (string * Value)) : list (string * Value) := sort_on fst String.compare o.

Lemma sorted_members_map {B : Type} (f : Value -> B) o : NoDup (map fst o) ->
  sort_on fst String.compare (map (fun m => (m.1, f m.2)) o) = map (fun m => (m.1, f m.2)) (sorted_members o).
Proof. intros H. exact (sort_on_map (fun m => (m.1, f m.2)) fst o H). Qed.

Lemma writeValue_object o : NoDup (map fst o) ->
  writeValue (objectValue o) =
  lbrace :: commas (map (fun m => fmt (m.1, writeValue m.2)) (sorted_members o)) ++ [rbrace].
Proof. intros H. cbn [writeValue]. by rewrite sorted_members_map, map_map. Qed.

Lemma canon_object o : NoDup (map fst o) ->
  canon (objectValue o) = objectValue (map (fun m => (m.1, canon m.2)) (sorted_members o)).
Proof. intros H. cbn [canon]. by rewrite sorted_members_map. Qed.

Lemma sorted_members_elem o m : m ∈ sorted_members o -> m ∈ o.
Proof. unfold sorted_members. by rewrite sort_on_perm. Qed.

(** What well-formedness says of the parts. *)
Lemma wf_object depth o : wf_value depth (objectValue o) = true ->
  slen o <= maxObjectMembers /\ NoDup (map fst o) /\
  (forall m, m ∈ o -> wf_string m.1 = true /\ wf_value (depth + 1) m.2 = true).
Proof.
  rewrite wf_value_unfold, !andb_true_iff, bool_decide_eq_true, forallb_true, !Z.leb_le, Forall_forall.
  intros (_ & (Hl & Hn) & Hf). split_and!; [done..|]. intros m Hm. by apply andb_true_iff, Hf.
Qed.

Lemma wf_array depth a : wf_value depth (arrayValue a) = true ->
  slen a <= maxArrayItems /\ (forall v, v ∈ a -> wf_value (depth + 1) v = true).
Proof.
  rewrite wf_value_unfold, !andb_true_iff, forallb_true, !Z.leb_le, Forall_forall. by intros (_ & Hl & Hf).
Qed.

(** ** The first byte tells the kind *)

Definition tag (v : Value) : nat :=
  match v with
  | nullValue => 0
  | booleanValue true => 1
  | booleanValue false => 2
  | stringValue _ => 3
  | numberValue _ => 4
  | objectValue _ => 5
  | arrayValue _ => 6
  end.

Definition byte_tag (b : Z) : nat :=
  if b =? char_n then 0 else if b =? char_t then 1 else if b =? char_f then 2
  else if b =? quote then 3 else if b =? lbrace then 5 else if b =? lbracket then 6
  else if (b =? minus) || is_digit b then 4 else 7.

Lemma byte_tag_number b : (b =? minus) || is_digit b = true -> byte_tag b = 4%nat.
Proof.
  intros H. unfold byte_tag. rewrite H.
  assert (Hb : b = minus \/ 0x30 <= b <= 0x39).
  { apply orb_true_iff in H as [H|H]; [left; by apply Z.eqb_eq|right]. by apply between_spec. }
  unfold char_n, char_t, char_f, quote, lbrace, lbracket, minus in *.
  by rewrite !(proj2 (Z.eqb_neq b _)) by lia.
Qed.

Lemma number_head d : wf_decimal d = true ->
  exists b l, canonicalDecimal d = b :: l /\ (b =? minus) || is_digit b = true.
Proof.
  intros Hw. rewrite canonicalDecimal_parts by done. unfold num_sign.
  destruct (num_int_head d Hw) as (b & l & -> & Hb). destruct (negative d); cbn; eexists _, _; (split; [done|]).
  - done.
  - by rewrite Hb, orb_true_r.
Qed.

Lemma write_head depth v : wf_value depth v = true -> exists b l, writeValue v = b :: l /\ byte_tag b = tag v.
Proof.
  intros Hw. destruct v as [|[]|s|d|o|a]; try (cbn; by eexists _, _).
  rewrite wf_value_unfold in Hw. apply andb_true_iff in Hw as [_ Hw].
  destruct (number_head d Hw) as (b & l & E & Hb). exists b, l. split; [done|]. by apply byte_tag_number.
Qed.

Lemma delimiter_tag b : isValueDelimiter b = true -> byte_tag b = 7%nat.
Proof.
  intros H. assert (Hb : In b [comma; rbracket; rbrace; 0x20; 0x09; 0x0A; 0x0D]).
  { unfold isValueDelimiter, is_blank in H. breflect. cbn. lia. }
  cbn in Hb. destruct_or!; subst; done.
Qed.

Lemma tag_range v : (tag v < 7)%nat.
Proof. destruct v as [|[]| | | |]; cbn; lia. Qed.

(** ** Sequences are prefix free *)

Definition separated (rest : list (list Z)) (close : Z) (k : list Z) : list Z :=
  match rest with
  | [] => close :: k
  | _ => comma :: commas rest ++ close :: k
  end.

Lemma commas_separated x rest close k : commas (x :: rest) ++ close :: k = x ++ separated rest close k.
Proof. destruct rest; cbn [commas separated]; [done|]. by rewrite <- (assoc_L (++)). Qed.

Lemma stop_separated rest close k : isValueDelimiter close = true -> stop (separated rest close k).
Proof. intros Hc b. destruct rest; cbn; intros [= <-]; done. Qed.

(** [x] and [y] can be told apart from what follows them. *)
Definition cancels (x y : list Z) : Prop :=
  forall k k', stop k -> stop k' -> x ++ k = y ++ k' -> x = y /\ k = k'.

Definition opens (x : list Z) : Prop := exists b l, x = b :: l /\ isValueDelimiter b = false.

Lemma opens_ne x b k k' : opens x -> isValueDelimiter b = true -> b :: k <> x ++ k'.
Proof. intros (c & l & -> & Hc) Hb E. injection E as -> _. congruence. Qed.

Lemma commas_cancel close X Y k k' : isValueDelimiter close = true -> close <> comma ->
  (forall x y, x ∈ X -> y ∈ Y -> cancels x y) -> Forall opens X -> Forall opens Y ->
  commas X ++ close :: k = commas Y ++ close :: k' -> X = Y /\ k = k'.
Proof.
  intros Hc Hne. revert Y. induction X as [|x X IH]; intros Y Hxy HX HY H.
  - destruct Y as [|y Y]; [cbn in H; by injection H|]. exfalso. rewrite commas_separated in H.
    inversion HY; subst. eapply opens_ne; [| |exact H]; done.
  - inversion HX; subst. destruct Y as [|y Y].
    { exfalso. rewrite commas_separated in H. symmetry in H. eapply opens_ne; [| |exact H]; done. }
    inversion HY; subst. rewrite !commas_separated in H.
    apply Hxy in H as [-> H]; try apply list_elem_of_here; try (by apply stop_separated).
    assert (HIH : forall x y, x ∈ X -> y ∈ Y -> cancels x y) by (intros; apply Hxy; by right).
    destruct X as [|x' X], Y as [|y' Y]; cbn [separated] in H.
    + by injection H.
    + injection H as E _. done.
    + injection H as E _. done.
    + destruct (IH (y' :: Y)) as [E ->]; [done..|by injection H|by rewrite E].
Qed.

Lemma fmt_cancels s t x y : wf_string s = true -> wf_string t = true -> cancels x y ->
  cancels (fmt (s, x)) (fmt (t, y)).
Proof.
  intros Hs Ht Hxy k k' Hk Hk'. unfold fmt. cbn [fst snd]. rewrite <- !(assoc_L (++)). intros H.
  apply json_string_cancel in H as [-> H]; [|done..]. cbn in H. injection H as H.
  apply Hxy in H as [-> ->]; done.
Qed.

Lemma fmt_opens m : opens (fmt m).
Proof. unfold fmt, json_string. by eexists _, _. Qed.

Lemma write_opens depth v : wf_value depth v = true -> opens (writeValue v).
Proof.
  intros Hw. destruct (write_head _ _ Hw) as (b & l & -> & Hb). exists b, l. split; [done|].
  destruct (isValueDelimiter b) eqn:E; [|done]. apply delimiter_tag in E. pose proof (tag_range v). lia.
Qed.

(** ** Values are prefix free, and determine the canonical tree *)

Lemma map_fmt_inj (A B : list (string * list Z)) :
  Forall (fun m => wf_string m.1 = true) A -> Forall (fun m => wf_string m.1 = true) B ->
  map fmt A = map fmt B -> A = B.
Proof.
  intros HA. revert B. induction HA as [|[s x] A Hs _ IH]; intros B HB H.
  - by destruct B.
  - destruct B as [|[t y] B]; [done|]. inversion HB as [|? ? Ht HB']; subst. cbn [map] in H.
    assert (He : fmt (s, x) = fmt (t, y)) by congruence. assert (Hr : map fmt A = map fmt B) by congruence.
    unfold fmt in He. cbn [fst snd] in He. apply json_string_cancel in He as [-> He]; [|done..]. injection He as ->. f_equal. by apply IH.
Qed.

(** The claim by induction on [v]. *)
Definition value_cancels (v : Value) : Prop :=
  forall w depth depth' k k', wf_value depth v = true -> wf_value depth' w = true -> stop k -> stop k' ->
  writeValue v ++ k = writeValue w ++ k' -> canon v = canon w /\ k = k'.

Lemma write_canon_eq v w depth depth' : wf_value depth v = true -> wf_value depth' w = true ->
  canon v = canon w -> writeValue v = writeValue w.
Proof.
  revert w depth depth'. induction v as [|b|s|d|o IH|a IH] using value_induction; intros w depth depth' Hv Hw H;
    destruct w as [|b'|s'|d'|o'|a']; try discriminate H; try (injection H as ->; done); [done| |].
  - apply wf_object in Hv as (_ & No & Fo), Hw as (_ & No' & Fo'). rewrite !writeValue_object by done.
    rewrite !canon_object in H by done. injection H as H. do 3 f_equal.
    assert (Hin : forall m, m ∈ sorted_members o -> m ∈ o) by (intros m; apply sorted_members_elem).
    assert (Hin' : forall m, m ∈ sorted_members o' -> m ∈ o') by (intros m; apply sorted_members_elem).
    generalize dependent (sorted_members o'). generalize dependent (sorted_members o).
    intros l Hl. rewrite Forall_forall in IH.
    induction l as [|m l IHl]; intros [|m' l'] H Hl'; try done. cbn [map] in H |- *. injection H as Hk Hc Ht.
    assert (Hm : writeValue m.2 = writeValue m'.2).
    { eapply IH; [apply Hl, list_elem_of_here| | |exact Hc].
      - eapply Fo, Hl, list_elem_of_here.
      - eapply Fo', Hl', list_elem_of_here. }
    rewrite Hk, Hm, (IHl (fun m H => Hl m (list_elem_of_further _ _ _ H)) l' Ht); [done|].
    intros x Hx. apply Hl'. by right.
  - apply wf_array in Hv as (_ & Fo), Hw as (_ & Fo'). cbn [canon] in H. injection H as H. cbn [writeValue].
    do 3 f_equal. rewrite Forall_forall in IH. revert a' Fo' H.
    induction a as [|v a IHa]; intros [|w a'] Fo' H; try done. cbn [map] in H |- *.
    assert (Hc : canon v = canon w) by congruence. assert (Ht : map canon a = map canon a') by congruence.
    rewrite (IH v (list_elem_of_here _ _) w (depth + 1) (depth' + 1)), (IHa (fun x H => IH x (list_elem_of_further _ _ _ H)) ltac:(intros; apply Fo; by right) a'); try done.
    + intros x Hx. apply Fo'. by right.
    + apply Fo, list_elem_of_here.
    + apply Fo', list_elem_of_here.
Qed.

Lemma value_cancels_bytes v w depth depth' : value_cancels v ->
  wf_value depth v = true -> wf_value depth' w = true -> cancels (writeValue v) (writeValue w).
Proof.
  intros Hc Hv Hw k k' Hk Hk' H. destruct (Hc w depth depth' k k') as [E ->]; try done.
  split; [|done]. by eapply write_canon_eq.
Qed.

Lemma stop_nil : stop [].
Proof. done. Qed.

Lemma write_inj v w depth depth' : value_cancels v -> wf_value depth v = true -> wf_value depth' w = true ->
  writeValue v = writeValue w -> canon v = canon w.
Proof.
  intros Hc Hv Hw H. eapply (Hc w depth depth' [] []); [done..|]. by rewrite H.
Qed.

Lemma object_cancels o : Forall (fun m => value_cancels m.2) o -> value_cancels (objectValue o).
Proof.
  intros IH w depth depth' k k' Hv Hw Hk Hk' H. rewrite Forall_forall in IH.
  destruct (write_head _ _ Hw) as (b & l & Eb & Tb). rewrite Eb in H.
  destruct w as [|[]|s|d|o'|a]; try (cbn in H; injection H as <- _; discriminate Tb).
  rewrite <- Eb in H. clear b l Eb Tb.
  apply wf_object in Hv as (_ & No & Fo), Hw as (_ & No' & Fo'). rewrite !writeValue_object in H by done.
  cbn [app] in H. injection H as H. rewrite <- !(assoc_L (++)) in H. cbn [app] in H.
  apply commas_cancel in H as [H ->]; [|done|done| | |].
  - split; [|done]. cbn [canon]. f_equal. rewrite <- !(map_map (fun m => (m.1, writeValue m.2)) fmt) in H.
    apply map_fmt_inj in H.
    + rewrite <- !sorted_members_map in H by done. apply sort_members in H as [Hl Hs]; [|by apply NoDup_keys..].
      apply sort_members; [by apply NoDup_keys..|]. unfold slen in *. rewrite !length_map in *. split; [done|].
      intros m Hm. apply list_elem_of_fmap in Hm as ([s v] & -> & Hin).
      assert (Hb : (s, writeValue v) ∈ map (fun m => (m.1, writeValue m.2)) o').
      { apply Hs. apply list_elem_of_fmap. by exists (s, v). }
      apply list_elem_of_fmap in Hb as ([s' w] & [= -> Hw] & Hin'). apply list_elem_of_fmap. exists (s', w).
      split; [|done]. cbn. f_equal. eapply write_inj; [|apply (proj2 (Fo _ Hin))|apply (proj2 (Fo' _ Hin'))|done].
      apply (IH _ Hin).
    + apply Forall_map, Forall_forall. intros m Hm%sorted_members_elem. exact (proj1 (Fo _ Hm)).
    + apply Forall_map, Forall_forall. intros m Hm%sorted_members_elem. exact (proj1 (Fo' _ Hm)).
  - intros x y Hx Hy. apply list_elem_of_fmap in Hx as ([s v] & -> & Hx%sorted_members_elem).
    apply list_elem_of_fmap in Hy as ([t w] & -> & Hy%sorted_members_elem). destruct (Fo _ Hx), (Fo' _ Hy).
    apply fmt_cancels; [done..|]. eapply value_cancels_bytes; [apply (IH _ Hx)|done..].
  - apply Forall_map, Forall_true. intros. apply fmt_opens.
  - apply Forall_map, Forall_true. intros. apply fmt_opens.
Qed.

Lemma array_cancels a : Forall value_cancels a -> value_cancels (arrayValue a).
Proof.
  intros IH w depth depth' k k' Hv Hw Hk Hk' H. rewrite Forall_forall in IH.
  destruct (write_head _ _ Hw) as (b & l & Eb & Tb). rewrite Eb in H.
  destruct w as [|[]|s|d|o'|a']; try (cbn in H; injection H as <- _; discriminate Tb).
  rewrite <- Eb in H. clear b l Eb Tb. apply wf_array in Hv as (_ & Fo), Hw as (_ & Fo').
  cbn [writeValue app] in H. injection H as H. rewrite <- !(assoc_L (++)) in H. cbn [app] in H.
  apply commas_cancel in H as [H ->]; [|done|done| | |].
  - split; [|done]. cbn [canon]. f_equal. revert a' Fo' H.
    induction a as [|v a IHa]; intros [|w a'] Fo' H; try done. cbn in H |- *. injection H as H1 H2. f_equal.
    + eapply write_inj; [apply IH|apply Fo|apply Fo'|done]; apply list_elem_of_here.
    + apply IHa; [intros; apply IH; by right|intros; apply Fo; by right|intros; apply Fo'; by right|done].
  - intros x y Hx Hy. apply list_elem_of_fmap in Hx as (v & -> & Hx), Hy as (w & -> & Hy).
    eapply value_cancels_bytes; [by apply IH|by apply Fo|by apply Fo'].
  - apply Forall_map, Forall_forall. intros v Hin. eapply write_opens, Fo, Hin.
  - apply Forall_map, Forall_forall. intros v Hin. eapply write_opens, Fo', Hin.
Qed.

Lemma values_cancel v : value_cancels v.
Proof.
  induction v as [|b|s|d|o IH|a IH] using value_induction; [| | | |by apply object_cancels|by apply array_cancels];
    intros w depth depth' k k' Hv Hw Hk Hk' H;
    destruct (write_head _ _ Hv) as (c & l & Ec & Tc), (write_head _ _ Hw) as (c' & l' & Ec' & Tc');
    rewrite Ec, Ec' in H; injection H as -> Hl; rewrite Tc in Tc'.
  - destruct w as [|[]| | | |]; try discriminate Tc'. split; [done|].
    assert (l = l') as -> by congruence. by apply app_inv_head in Hl.
  - destruct b, w as [|[]| | | |]; try discriminate Tc'; (split; [done|]);
      assert (l = l') as -> by congruence; by apply app_inv_head in Hl.
  - destruct w as [|[]|t| | |]; try discriminate Tc'. rewrite wf_value_unfold in Hv, Hw.
    apply andb_true_iff in Hv as [_ Hv], Hw as [_ Hw].
    assert (H : json_string (bytes s) ++ k = json_string (bytes t) ++ k')
      by (cbn [writeValue] in Ec, Ec'; rewrite Ec, Ec'; cbn; by rewrite Hl).
    apply json_string_cancel in H as [-> ->]; done.
  - destruct w as [|[]| |e| |]; try discriminate Tc'. rewrite wf_value_unfold in Hv, Hw.
    apply andb_true_iff in Hv as [_ Hv], Hw as [_ Hw].
    assert (H : canonicalDecimal d ++ k = canonicalDecimal e ++ k')
      by (cbn [writeValue] in Ec, Ec'; rewrite Ec, Ec'; cbn; by rewrite Hl).
    apply canonicalDecimal_cancel in H as [-> ->]; done.
Qed.

(** C29. [Normalize] is a canonical form: two documents normalise to the same
    bytes exactly when [Equal] holds between them (same strings, numerically
    equal numbers, arrays in order, objects in any member order). *)
Theorem normalize_canonical left right :
  Equal left right = true <-> exists bytes, Normalize left = Ok bytes /\ Normalize right = Ok bytes.
Proof.
  unfold Equal, Normalize. split.
  - destruct (parse left) as [v|] eqn:Ev; [|done]. destruct (parse right) as [w|] eqn:Ew; [|done].
    apply parse_wf in Ev, Ew. intros H. apply (equalValue_canon v w 0 0 Ev Ew) in H. exists (writeValue v).
    split; [done|]. cbn. f_equal. symmetry. by eapply write_canon_eq.
  - intros (n & Hl & Hr). inv_bind Hl. inv_bind Hr. injection Hl as <-. injection Hr as Hr.
    apply parse_wf in E, E0. apply (equalValue_canon a a0 0 0 E E0).
    eapply write_inj; [apply values_cancel|done..].
Qed.
