(* ===== verification/StrictJsonRoundTrip.v ===== *)
(** * Strict JSON: what [Normalize] writes reads back

    A normalised document is again within the contract, except that the plain
    spelling of a number with a positive exponent may need more digits than the
    parser accepts, and escaping may make the document longer than it accepts.
    Within those two bounds the canonical tree is read back. *)

From stdpp Require Import pretty.
From S2P Require Import Prelude Order GoStrings Utf8 Digest Digits GoJson.
From S2P Require Import StrictJson StrictJsonSpec StrictJsonEqual StrictJsonNumbers StrictJsonCanon.
Local Open Scope go_scope.
Local Open Scope string_scope.
Local Open Scope Z_scope.
Local Open Scope list_scope.

(** Every number fits the digit budget when written out. *)
Fixpoint writable (v : Value) : bool :=
  match v with
  | numberValue d => written_digits d <=? MaxMantissaDigits
  | objectValue o => forallb (fun m => writable m.2) o
  | arrayValue a => forallb writable a
  | _ => true
  end.

(** A text that the parser reads as a value at the given depth, whatever follows
    it. *)
Definition reads_as (depth : Z) (x : list Z) (v : Value) : Prop :=
  opens x /\ forall fuel k, stop k -> (3 * length (x ++ k) + 3 <= fuel)%nat -> parseValue fuel depth (x ++ k) = Ok (v, k).

Lemma skipSpace_open b l : isValueDelimiter b = false -> skipSpace (b :: l) = b :: l.
Proof.
  unfold isValueDelimiter. intros H. apply orb_false_iff in H as [_ H]. unfold skipSpace. cbn. by rewrite H.
Qed.

Lemma skipSpace_opens x k : opens x -> skipSpace (x ++ k) = x ++ k.
Proof. intros (b & l & -> & Hb). by apply skipSpace_open. Qed.

Lemma skipSpace_separated rest close k : is_blank close = false ->
  skipSpace (separated rest close k) = separated rest close k.
Proof. intros H. unfold skipSpace. destruct rest; cbn; [by rewrite H|done]. Qed.

Lemma consume_other b c l : b <> c -> consume c (b :: l) = None.
Proof. intros H. cbn. by rewrite (proj2 (Z.eqb_neq _ _) H). Qed.

Lemma wf_depth depth v : wf_value depth v = true -> (maxDepth <? depth) = false.
Proof. rewrite wf_value_unfold. intros H. apply andb_true_iff in H as [H _]. breflect. lia. Qed.

Lemma length_pos_app (x k : list Z) : opens x -> (length k < length (x ++ k))%nat.
Proof. intros (b & l & -> & _). cbn. rewrite length_app. lia. Qed.

(** ** Arrays *)

Lemma array_loop_reads items : forall x v acc fuel depth k,
  reads_as (depth + 1) x v -> Forall (fun i => reads_as (depth + 1) i.1 i.2) items ->
  slen acc + slen ((x, v) :: items) <= maxArrayItems ->
  (3 * length (commas (x :: map fst items) ++ rbracket :: k) + 4 <= fuel)%nat ->
  array_loop fuel depth acc (commas (x :: map fst items) ++ rbracket :: k) = Ok (arrayValue (acc ++ v :: map snd items), k).
Proof.
  induction items as [|[y w] items IH]; intros x v acc fuel depth k [Ox Hx] HP Hl Hf;
    (destruct fuel as [|fuel]; [lia|]); rewrite commas_separated in *;
    cbn [array_loop]; rewrite (proj2 (Z.leb_gt _ _)) by (unfold slen in *; cbn in Hl; lia);
    (rewrite Hx; [|by apply stop_separated|lia]); cbn [result_bind]; cbv zeta;
    rewrite skipSpace_separated by done.
  - cbn [map separated consume]. by rewrite Z.eqb_refl.
  - inversion HP as [|? ? Hy HP']; subst. cbn [map separated fst snd] in *. rewrite consume_other by done. cbn [consume]. rewrite Z.eqb_refl.
    pose proof (length_pos_app _ (comma :: commas (y :: map fst items) ++ rbracket :: k) Ox) as Hlen. cbn [length] in Hlen.
    assert (Hs : skipSpace (commas (y :: map fst items) ++ rbracket :: k) = commas (y :: map fst items) ++ rbracket :: k)
      by (rewrite commas_separated; by apply skipSpace_opens, Hy).
    rewrite Hs, (IH y w).
    + by rewrite <- (assoc_L (++)).
    + done.
    + done.
    + unfold slen in *. rewrite length_app. cbn in *. lia.
    + lia.
Qed.

Lemma array_reads depth items : depth <= maxDepth -> slen items <= maxArrayItems ->
  Forall (fun i => reads_as (depth + 1) i.1 i.2) items ->
  reads_as depth (lbracket :: commas (map fst items) ++ [rbracket]) (arrayValue (map snd items)).
Proof.
  intros Hd Hl HP. split; [by eexists _, _|]. intros [|fuel] k Hk Hf; [lia|].
  cbn [app parseValue]. rewrite (proj2 (Z.ltb_ge _ _) Hd).
  change (lbracket =? char_n) with false. change (lbracket =? char_t) with false.
  change (lbracket =? char_f) with false. change (lbracket =? quote) with false.
  change (lbracket =? lbrace) with false. change (lbracket =? lbracket) with true. cbv iota.
  cbn [app] in Hf. rewrite <- (assoc_L (++)) in Hf |- *. cbn [app length] in Hf |- *.
  destruct fuel as [|fuel]; [lia|]. cbn [parseArray]. change (drop 1 (lbracket :: ?l)) with l.
  destruct items as [|[x v] items]; [done|]. inversion HP as [|? ? Hx HP']; subst.
  cbn [map fst snd] in *. rewrite commas_separated, skipSpace_opens by apply Hx.
  destruct (proj1 Hx) as (b & l & Eb & Hb). rewrite Eb at 1. cbn [app].
  rewrite consume_other by (intros ->; done). rewrite <- commas_separated.
  apply (array_loop_reads items x v [] fuel depth k Hx HP' Hl). lia.
Qed.

(** ** Objects *)

Lemma has_key_fresh {A : Type} key (o : list (string * A)) : key ∉ map fst o -> has_key key o = false.
Proof.
  intros H. apply existsb_false, Forall_forall. intros m Hm. apply bool_decide_eq_false. intros <-.
  apply H. apply list_elem_of_fmap. by exists m.
Qed.

(** A member: its name, the text of its value and the value. *)
Notation member_text := (fun m : string * (list Z * Value) => fmt (m.1, m.2.1)).
Notation member_value := (fun m : string * (list Z * Value) => (m.1, m.2.2)).
Definition member_reads (depth : Z) (m : string * (list Z * Value)) : Prop :=
  wf_string m.1 = true /\ reads_as depth m.2.1 m.2.2.

(** One member, up to what follows it. *)
Lemma object_loop_step fuel depth acc m k : member_reads (depth + 1) m ->
  m.1 ∉ map fst acc -> slen acc < maxObjectMembers -> stop k -> skipSpace k = k ->
  (3 * length (member_text m ++ k) + 2 <= fuel)%nat ->
  object_loop (S fuel) depth acc (member_text m ++ k) =
  match consume rbrace k with
  | Some r => Ok (objectValue (acc ++ [member_value m]), r)
  | None =>
    match consume comma k with
    | None => Err ErrInvalid
    | Some l5 => object_loop fuel depth (acc ++ [member_value m]) (skipSpace l5)
    end
  end.
Proof.
  destruct m as [s [x v]]. cbn [fst snd]. intros [Hs [Ox Hx]] Hk Hl Hstop Hsp Hf. cbn [fst snd] in *. cbn [object_loop].
  rewrite (proj2 (Z.leb_gt _ _)) by done. unfold fmt in *. cbn [fst snd] in *.
  assert (Hq : match (json_string (bytes s) ++ colon :: x) ++ k with
               | b :: _ => negb (b =? quote) | [] => true end = false) by reflexivity.
  rewrite Hq, <- (assoc_L (++)). rewrite parseString_written by done. cbn [result_bind].
  rewrite has_key_fresh by done. cbn [app].
  rewrite skipSpace_open by done. cbn [consume]. rewrite Z.eqb_refl.
  rewrite skipSpace_opens by done. rewrite Hx; [|done|].
  - cbn [result_bind]. cbv zeta. by rewrite Hsp.
  - rewrite <- (assoc_L (++)), length_app in Hf. cbn [app length] in Hf.
    assert (0 < length (json_string (bytes s)))%nat by (unfold json_string; cbn; lia). lia.
Qed.

Lemma object_loop_reads rest : forall m acc fuel depth k, Forall (member_reads (depth + 1)) (m :: rest) ->
  NoDup (map fst acc ++ map fst (m :: rest)) -> slen acc + slen (m :: rest) <= maxObjectMembers ->
  (3 * length (commas (map member_text (m :: rest)) ++ rbrace :: k) + 3 <= fuel)%nat ->
  object_loop fuel depth acc (commas (map member_text (m :: rest)) ++ rbrace :: k) =
  Ok (objectValue (acc ++ map member_value (m :: rest)), k).
Proof.
  induction rest as [|m2 rest IH]; intros m acc fuel depth k HP Hn Hl Hf;
    (destruct fuel as [|fuel]; [lia|]); cbn [map] in *; rewrite commas_separated in *;
    inversion HP as [|? ? Hm HP']; subst;
    assert (Hfresh : m.1 ∉ map fst acc) by (intros Hin; apply NoDup_app in Hn as (_ & Hd & _);
      apply (Hd _ Hin), list_elem_of_here);
    (rewrite object_loop_step; [|done..|unfold slen in *; cbn in Hl; lia|by apply stop_separated|by apply skipSpace_separated|lia]).
  - cbn [separated consume]. by rewrite Z.eqb_refl.
  - cbn [separated]. rewrite consume_other by done. cbn [consume]. rewrite Z.eqb_refl.
    assert (Hs : skipSpace (commas (member_text m2 :: map member_text rest) ++ rbrace :: k)
                 = commas (member_text m2 :: map member_text rest) ++ rbrace :: k)
      by (rewrite commas_separated; apply skipSpace_opens, fmt_opens).
    rewrite Hs. rewrite (IH m2).
    + by rewrite <- (assoc_L (++)).
    + done.
    + rewrite map_app, <- (assoc_L (++)). exact Hn.
    + unfold slen in *. rewrite length_app. cbn in *. lia.
    + pose proof (length_pos_app (member_text m) (separated (member_text m2 :: map member_text rest) rbrace k)
        (fmt_opens _)) as Hlen.
      cbn [separated map length] in Hlen, Hf |- *. lia.
Qed.

(** An object's members in the order given. *)
Lemma object_reads depth o : depth <= maxDepth -> slen o <= maxObjectMembers -> NoDup (map fst o) ->
  Forall (member_reads (depth + 1)) o ->
  reads_as depth (lbrace :: commas (map member_text o) ++ [rbrace]) (objectValue (map member_value o)).
Proof.
  intros Hd Hl Hn HP. split; [by eexists _, _|]. intros [|fuel] k Hk Hf; [lia|].
  cbn [app parseValue]. rewrite (proj2 (Z.ltb_ge _ _) Hd).
  change (lbrace =? char_n) with false. change (lbrace =? char_t) with false.
  change (lbrace =? char_f) with false. change (lbrace =? quote) with false.
  change (lbrace =? lbrace) with true. cbv iota.
  cbn [app] in Hf. rewrite <- (assoc_L (++)) in Hf |- *. cbn [app length] in Hf |- *.
  destruct fuel as [|fuel]; [lia|]. cbn [parseObject]. change (drop 1 (lbrace :: ?l)) with l.
  destruct o as [|m rest]; [done|].
  cbn [map]. rewrite commas_separated, skipSpace_opens by apply fmt_opens.
  assert (Hc : consume rbrace (member_text m ++ separated (map member_text rest) rbrace k) = None) by reflexivity.
  rewrite Hc, <- commas_separated.
  apply (object_loop_reads rest m [] fuel depth k); [done..|]. cbn [map] in Hf |- *. lia.
Qed.

(** ** Values *)

Lemma null_reads depth : depth <= maxDepth -> reads_as depth (bytes "null"%string) nullValue.
Proof. intros Hd. split; [by eexists _, _|]. intros [|fuel] k _ Hf; [lia|]. cbn [parseValue]. by rewrite (proj2 (Z.ltb_ge _ _) Hd). Qed.

Lemma boolean_reads depth (b : bool) : depth <= maxDepth -> reads_as depth (bytes (if b then "true" else "false")%string) (booleanValue b).
Proof.
  intros Hd. split; [destruct b; by eexists _, _|].
  intros [|fuel] k _ Hf; [lia|]. destruct b; cbn [parseValue]; by rewrite (proj2 (Z.ltb_ge _ _) Hd).
Qed.

Lemma string_reads depth s : depth <= maxDepth -> wf_string s = true -> reads_as depth (json_string (bytes s)) (stringValue s).
Proof.
  intros Hd Hs. split; [by eexists _, _|]. intros [|fuel] k _ Hf; [lia|].
  assert (Hp : parseValue (S fuel) depth (json_string (bytes s) ++ k) =
    (let? (s, r) := parseString (json_string (bytes s) ++ k) in Ok (stringValue s, r)))
    by (cbn [parseValue]; by rewrite (proj2 (Z.ltb_ge _ _) Hd)).
  by rewrite Hp, parseString_written.
Qed.

Lemma number_reads depth d : depth <= maxDepth -> wf_decimal d = true -> written_digits d <= MaxMantissaDigits ->
  reads_as depth (canonicalDecimal d) (numberValue d).
Proof.
  intros Hd Hw Hr. destruct (number_head d Hw) as (b & l & Eb & Hb).
  pose proof (byte_tag_number b Hb) as Ht. unfold byte_tag in Ht.
  split.
  { apply (write_opens depth (numberValue d)). rewrite wf_value_unfold, Hw, andb_true_r. by apply Z.leb_le. }
  intros [|fuel] k Hk Hf; [lia|].
  assert (Hp : parseValue (S fuel) depth (canonicalDecimal d ++ k) =
    (let? (d, r) := parseNumber (canonicalDecimal d ++ k) in Ok (numberValue d, r))).
  { rewrite Eb. cbn [parseValue app]. rewrite (proj2 (Z.ltb_ge _ _) Hd). revert Ht. rewrite Hb.
    do 6 match goal with |- context [b =? ?c] => destruct (b =? c); [intros Ht; discriminate Ht|] end. done. }
  by rewrite Hp, parseNumber_written.
Qed.

Lemma values_read_back v : forall depth, wf_value depth v = true -> writable v = true -> reads_as depth (writeValue v) (canon v).
Proof.
  induction v as [|b|s|d|o IH|a IH] using value_induction; intros depth Hw Hr;
    pose proof (wf_depth _ _ Hw) as Hd; apply Z.ltb_ge in Hd.
  - by apply null_reads.
  - replace (writeValue (booleanValue b)) with (bytes (if b then "true" else "false")%string) by (by destruct b). by apply boolean_reads.
  - rewrite wf_value_unfold in Hw. apply andb_true_iff in Hw as [_ Hw]. by apply string_reads.
  - rewrite wf_value_unfold in Hw. apply andb_true_iff in Hw as [_ Hw]. cbn [writable] in Hr. apply Z.leb_le in Hr.
    by apply number_reads.
  - apply wf_object in Hw as (Hl & Hn & Hw). cbn [writable] in Hr. rewrite forallb_true, Forall_forall in Hr.
    rewrite Forall_forall in IH. rewrite writeValue_object, canon_object by done.
    assert (Hp : sorted_members o ≡ₚ o) by apply sort_on_perm.
    pose proof (object_reads depth (map (fun m => (m.1, (writeValue m.2, canon m.2))) (sorted_members o)) Hd) as H.
    rewrite !map_map in H. cbn in H. apply H; clear H.
    + unfold slen. by rewrite length_map, Hp.
    + by rewrite Hp.
    + apply Forall_map, Forall_forall. intros m Hm%sorted_members_elem.
      split; cbn; [by apply Hw|apply IH; [done|by apply Hw|by apply Hr]].
  - apply wf_array in Hw as (Hl & Hw). cbn [writable] in Hr. rewrite forallb_true, Forall_forall in Hr.
    rewrite Forall_forall in IH.
    pose proof (array_reads depth (map (fun v => (writeValue v, canon v)) a) Hd) as H. rewrite !map_map in H. cbn in H.
    apply H; clear H; [unfold slen; by rewrite length_map|].
    apply Forall_map, Forall_forall. intros v Hv. cbn. apply IH; [done|by apply Hw|by apply Hr].
Qed.

(** ** The written document is text *)

Lemma text_nil : text [].
Proof. split; [done|constructor]. Qed.

Lemma text_cons b l : 0 < b < 0x80 -> text l -> text (b :: l).
Proof. intros Hb Hl. change (b :: l) with ([b] ++ l). apply text_app; [by apply text_ascii|done]. Qed.

Lemma text_ascii_list l : Forall (fun b => 0 < b < 0x80) l -> text l.
Proof. induction 1; [apply text_nil|by apply text_cons]. Qed.

Lemma text_digits l : digits l -> text l.
Proof.
  intros H. apply text_ascii_list. eapply Forall_impl; [exact H|]. intros b Hb%is_digit_range. unfold zero in *. lia.
Qed.

Lemma hex_digit_ascii x : 0 <= x < 16 -> 0 < hex_digit x < 0x80.
Proof. intros Hx. unfold hex_digit. destruct (Z.ltb_spec x 10); lia. Qed.

Lemma text_json_rune r : scalar r -> r <> 0 -> text (json_rune (r, true)).
Proof.
  intros Hr H0. assert (Hu : forall x, text (unicode_escape x)).
  { intros x. apply text_ascii_list. unfold unicode_escape, bslash.
    repeat constructor; try lia; apply hex_digit_ascii, Z.mod_pos_bound; lia. }
  unfold json_rune. cbn [negb]. destruct ((r =? quote) || (r =? bslash)) eqn:E.
  { apply text_ascii_list. assert (r = quote \/ r = bslash) as [-> | ->] by (breflect; lia); repeat constructor. }
  do 5 match goal with |- context [r =? ?c] => destruct (r =? c); [apply text_ascii_list; by repeat constructor|] end.
  destruct ((r <? 0x20) || html_unsafe r); [apply Hu|].
  destruct ((r =? 0x2028) || (r =? 0x2029)); [apply Hu|]. by apply text_rune.
Qed.

Lemma text_json_string s : wf_string s = true -> text (json_string (bytes s)).
Proof.
  rewrite wf_string_text. intros [Ht _]. destruct (text_of_runes _ Ht) as (rs & Hrs & ->).
  rewrite json_string_written by (eapply Forall_impl; [exact Hrs|]; by intros ? []).
  apply text_cons; [done|]. apply text_app; [|by apply text_ascii].
  induction Hrs as [|r rs [Hr H0] _ IH]; [apply text_nil|]. cbn [written flat_map].
  apply text_app; [by apply text_json_rune|]. apply IH.
Qed.

Lemma text_number d : wf_decimal d = true -> text (canonicalDecimal d).
Proof.
  intros Hw. rewrite canonicalDecimal_parts by done. apply text_app; [|apply text_app].
  - unfold num_sign. destruct (negative d); [by apply text_ascii|apply text_nil].
  - by apply text_digits, num_int_digits.
  - unfold num_tail. destruct (Z.ltb_spec (exponent d) 0) as [Hd|]; [|apply text_nil].
    destruct (exponent_spelling _ Hd) as (l & -> & Dl & _). apply text_cons; [done|]. apply text_cons; [done|].
    by apply text_digits.
Qed.

Lemma text_commas X : Forall text X -> text (commas X).
Proof.
  induction 1 as [|x X Hx _ IH]; [apply text_nil|]. destruct X as [|y X]; [done|].
  change (commas (x :: y :: X)) with (x ++ comma :: commas (y :: X)).
  apply text_app; [done|]. apply text_cons; [done|]. exact IH.
Qed.

Lemma text_value v : forall depth, wf_value depth v = true -> text (writeValue v).
Proof.
  induction v as [|b|s|d|o IH|a IH] using value_induction; intros depth Hw.
  - apply text_ascii_list. repeat constructor.
  - destruct b; apply text_ascii_list; repeat constructor.
  - rewrite wf_value_unfold in Hw. apply andb_true_iff in Hw as [_ Hw]. by apply text_json_string.
  - rewrite wf_value_unfold in Hw. apply andb_true_iff in Hw as [_ Hw]. by apply text_number.
  - apply wf_object in Hw as (_ & Hn & Hw). rewrite writeValue_object by done. rewrite Forall_forall in IH.
    apply text_cons; [done|]. apply text_app; [|by apply text_ascii]. apply text_commas.
    apply Forall_map, Forall_forall. intros m Hm%sorted_members_elem. destruct (Hw _ Hm) as [Hs Hv].
    unfold fmt. apply text_app; [by apply text_json_string|]. apply text_cons; [done|]. by eapply IH.
  - apply wf_array in Hw as (_ & Hw). cbn [writeValue]. rewrite Forall_forall in IH.
    apply text_cons; [done|]. apply text_app; [|by apply text_ascii]. apply text_commas.
    apply Forall_map, Forall_forall. intros v Hv. by eapply IH, Hw.
Qed.

Lemma parse_document x v : text x -> slen x <= MaxDocumentBytes -> reads_as 0 x v -> parse x = Ok v.
Proof.
  intros [Hv _] Hl [(b & l & Eb & Hb) Hread]. unfold parse. rewrite Hv, (proj2 (Z.ltb_ge _ _)) by done.
  assert (Hne : (slen x =? 0) = false) by (by rewrite Eb).
  assert (Hs : skipSpace x = x) by (rewrite Eb; by apply skipSpace_open).
  rewrite Hne. cbn [orb negb]. cbv zeta. rewrite Hs, Hne.
  specialize (Hread (value_fuel x) [] ltac:(done)). rewrite app_nil_r in Hread. rewrite Hread by (unfold value_fuel; lia). done.
Qed.

Lemma parse_written v : wf_value 0 v = true -> writable v = true -> slen (writeValue v) <= MaxDocumentBytes ->
  parse (writeValue v) = Ok (canon v).
Proof. intros Hw Hr Hl. apply parse_document; [by eapply text_value|done|by apply values_read_back]. Qed.

Lemma canon_idem v : forall depth, wf_value depth v = true -> canon (canon v) = canon v.
Proof.
  induction v as [|b|s|d|o IH|a IH] using value_induction; intros depth Hw; try done.
  - apply wf_object in Hw as (_ & Hn & Hw). rewrite Forall_forall in IH. rewrite canon_object by done.
    assert (Hp : sorted_members o ≡ₚ o) by apply sort_on_perm.
    rewrite canon_object by (rewrite map_map; cbn; by rewrite Hp). f_equal.
    unfold sorted_members at 1. rewrite sorted_members_map by (by rewrite Hp).
    assert (Hi : sorted_members (sorted_members o) = sorted_members o) by (apply sort_on_idem; [apply _|done]).
    rewrite Hi, map_map. apply map_ext_in. intros m Hm%list_elem_of_In%sorted_members_elem.
    cbn. f_equal. eapply IH; [done|]. by apply Hw.
  - apply wf_array in Hw as (_ & Hw). rewrite Forall_forall in IH. cbn [canon]. f_equal. rewrite map_map.
    apply map_ext_in. intros v Hv%list_elem_of_In. by eapply IH, Hw.
Qed.

(** C30. A normalised document within the parser's bounds reads back: it equals
    the original document and normalises to itself. *)
Theorem normalize_round_trip document v (Hp : parse document = Ok v) (Hr : writable v = true)
  (Hl : slen (writeValue v) <= MaxDocumentBytes) :
  exists normalized, Normalize document = Ok normalized /\ Equal document normalized = true /\
    Normalize normalized = Ok normalized.
Proof.
  pose proof (parse_wf _ _ Hp) as Hw. pose proof (parse_written v Hw Hr Hl) as Hq.
  pose proof (parse_wf _ _ Hq) as Hw'. exists (writeValue v).
  pose proof (canon_idem v 0 Hw) as Hcc.
  unfold Normalize, Equal. rewrite Hp, Hq. cbn [result_bind]. split_and!; [done| |].
  - by apply (equalValue_canon v (canon v) 0 0).
  - f_equal. symmetry. by eapply write_canon_eq.
Qed.

Lemma normalize_round_trip_witness :
  exists v, parse (doc "{'b':[1.50,-0e3,12e1],'a':null}") = Ok v /\
    exists n, Normalize (doc "{'b':[1.50,-0e3,12e1],'a':null}") = Ok n /\ Normalize n = Ok n.
Proof.
  destruct (parse (doc "{'b':[1.50,-0e3,12e1],'a':null}")) as [v|e] eqn:E; [|vm_compute in E; discriminate E].
  exists v. split; [done|].
  destruct (normalize_round_trip _ v E) as (n & Hn & _ & Hnn).
  - vm_compute in E. injection E as <-. reflexivity.
  - vm_compute in E. injection E as <-. vm_compute. discriminate.
  - by exists n.
Defined.

(** The digit bound is needed: a number of 8192 digits with exponent 1 is
    accepted, and its canonical spelling is not. *)
Example normalize_not_idempotent :
  match Normalize (replicate (Z.to_nat MaxMantissaDigits) 0x31 ++ bytes "e1") with
  | Ok n => Normalize n
  | Err _ => Ok []
  end = Err ErrNumberBudget.
Proof. vm_compute. reflexivity. Qed.
