(* ===== verification/StrictJsonMarshal.v ===== *)
(** * Strict JSON of marshalled values

    What [json.Marshal] writes is within the strict contract when its strings and
    sizes are, and normalising it only sorts the members of its objects: the
    normal form is again what [json.Marshal] would write of the sorted tree, so
    that [encoding/json] reads the same fields from it. *)

From stdpp Require Import pretty.
From S2P Require Import Prelude Order GoStrings Utf8 Digest Digits GoJson Unmarshal UnmarshalSpec.
From S2P Require Import StrictJson StrictJsonSpec StrictJsonEqual StrictJsonNumbers StrictJsonCanon StrictJsonRoundTrip.
Local Open Scope go_scope.
Local Open Scope string_scope.
Local Open Scope Z_scope.
Local Open Scope list_scope.

(** ** Integers *)

Definition decimal_of (n : Z) : decimal :=
  match n with
  | Z0 => zero_decimal
  | Zpos p | Zneg p =>
    let written := bytes (pretty p) in
    let kept := trim_right (Z.eqb zero) written in
    {| negative := n <? 0; significand := kept; exponent := slen written - slen kept |}
  end.

Lemma positive_digits_bound (p : positive) : Zpos p <= 2 ^ 63 -> slen (bytes (pretty p)) <= 19.
Proof.
  intros Hp. destruct (pretty_positive_digits p) as (l & -> & Hd & Hv & b & k & -> & Hb).
  pose proof (integer_val_bound b k Hd Hb) as [Hlow _]. rewrite Hv in Hlow.
  change (slen (b :: k)) with (Z.of_nat (S (length k))). rewrite Nat2Z.inj_succ. fold (slen k).
  destruct (Z.le_gt_cases (slen k) 18) as [|Hgt]; [lia|].
  pose proof (Z.pow_le_mono_r 10 19 (slen k) ltac:(lia) ltac:(lia)). lia.
Qed.

(** The digits before the trailing zeros of a positive number. *)
Lemma kept_digits (p : positive) : exists b k zeros,
  trim_right (Z.eqb zero) (bytes (pretty p)) = b :: k /\ bytes (pretty p) = (b :: k) ++ replicate zeros zero /\
  digits (b :: k) /\ b <> zero /\ last (b :: k) <> Some zero.
Proof.
  destruct (pretty_positive_digits p) as (l & -> & Hd & _ & b & k & -> & Hb).
  assert (Hcut : (zero =? b) = false) by (apply Z.eqb_neq; congruence).
  pose proof (trim_right_head (Z.eqb zero) (b :: k) b eq_refl Hcut) as Hh.
  destruct (trim_right_app (Z.eqb zero) (b :: k)) as (suf & Hl & Hs).
  assert (Hlast : last (trim_right (Z.eqb zero) (b :: k)) <> Some zero).
  { intros E%trim_right_last. discriminate E. }
  destruct (trim_right (Z.eqb zero) (b :: k)) as [|c kept]; [done|]. injection Hh as ->.
  exists b, kept, (length suf). split_and!; [done| | |done|done].
  - rewrite Hl. f_equal. clear Hl. induction Hs as [|x suf Hx _ IH]; [done|]. apply Z.eqb_eq in Hx as <-. cbn. by f_equal.
  - rewrite Hl in Hd. by apply Forall_app in Hd as [].
Qed.

Lemma decimal_of_wf n : int64 n = true -> wf_decimal (decimal_of n) = true /\ written_digits (decimal_of n) <= MaxMantissaDigits.
Proof.
  unfold int64. intros Hn%between_spec. destruct n as [|p|p]; [done| |];
    (assert (Hp : slen (bytes (pretty p)) <= 19) by (apply positive_digits_bound; lia);
     destruct (kept_digits p) as (b & k & z & Ek & Ew & Hd & Hb & Hlast); unfold decimal_of, wf_decimal, written_digits;
     cbn [significand exponent negative]; rewrite Ek; rewrite bool_decide_eq_false_2 by done;
     rewrite (digits_forallb _ Hd); cbn [head];
     assert (Hl : slen (bytes (pretty p)) = slen (b :: k) + Z.of_nat z) by
       (rewrite Ew; unfold slen; rewrite length_app, length_replicate; lia);
     pose proof (Nat2Z.is_nonneg (length (b :: k))); unfold slen in *;
     rewrite !bool_decide_eq_false_2 by congruence; cbn [negb andb];
     unfold MaxMantissaDigits, MaxFractionDigits, MaxAbsExponent, MaxIntegerDigits;
     rewrite !(proj2 (Z.leb_le _ _)) by lia; split; [done|lia]).
Qed.

Lemma decimal_of_written n : canonicalDecimal (decimal_of n) = bytes (pretty n).
Proof.
  destruct n as [|p|p]; [done| |];
    (destruct (kept_digits p) as (b & k & z & Ek & Ew & _); unfold decimal_of, canonicalDecimal;
     cbn [significand exponent negative]; rewrite Ek, bool_decide_eq_false_2 by done;
     assert (Hl : slen (bytes (pretty p)) - slen (b :: k) = Z.of_nat z) by
       (rewrite Ew; unfold slen; rewrite length_app, length_replicate; lia); rewrite Hl).
  - change (bytes (pretty (Zpos p))) with (bytes (pretty p)). rewrite Ew. cbn [Z.ltb Z.compare app].
    destruct z as [|z]; [change (Z.of_nat 0 =? 0) with true; cbv iota; cbn [replicate app]; by rewrite app_nil_r|]. rewrite Nat2Z.id. done.
  - change (bytes (pretty (Zneg p))) with (minus :: bytes (pretty p)). rewrite Ew. change (Z.neg p <? 0) with true. cbn [app].
    destruct z as [|z]; [change (Z.of_nat 0 =? 0) with true; cbv iota; cbn [replicate app]; by rewrite app_nil_r|]. rewrite Nat2Z.id. done.
Qed.

(** ** Plain texts *)

Lemma ascii_text s : Forall (fun b => 0 < b < 0x80) (bytes s) -> len s <= maxStringBytes -> wf_string s = true.
Proof. intros H Hl. apply wf_string_text. split; [by apply text_ascii_list|done]. Qed.

Lemma ValidDigest_text d : ValidDigest d = true -> wf_string d = true /\ len d = 71.
Proof.
  intros (h & Hb & Hl & Hh)%ValidDigest_spec.
  assert (Hlen : len d = 71) by (rewrite len_bytes, Hb; unfold slen; rewrite length_app, Hl; done).
  split; [|done]. apply ascii_text; [|by rewrite Hlen]. rewrite Hb. apply Forall_app. split.
  - by repeat (apply Forall_cons; split; [done|]).
  - eapply Forall_impl; [exact Hh|]. intros b Hx%lower_hex_bounds. lia.
Qed.

(** ** Sizes of sequences *)

Lemma commas_exact X : slen (commas X) + (if X =?= [] then 0 else 1) = sumZ (fun x => slen x + 1) X.
Proof.
  induction X as [|x [|y X] IH]; [done| |].
  - unfold slen. cbn. lia.
  - change (commas (x :: y :: X)) with (x ++ 0x2C :: commas (y :: X)).
    change (sumZ (fun x => slen x + 1) (x :: y :: X)) with (slen x + 1 + sumZ (fun x => slen x + 1) (y :: X)).
    rewrite <- IH. rewrite !bool_decide_eq_false_2 by done. unfold slen. rewrite length_app. cbn [length]. lia.
Qed.

Lemma eq_permutation {A : Type} (l k : list A) : l = k -> l ≡ₚ k.
Proof. by intros ->. Qed.

(** The size of a sequence depends on the sizes of its items only. *)
Lemma commas_size X Y : map slen X ≡ₚ map slen Y -> slen (commas X) = slen (commas Y).
Proof.
  intros H. pose proof (commas_exact X) as HX. pose proof (commas_exact Y) as HY.
  assert (Hs : forall Z : list (list Z), sumZ (fun x => slen x + 1) Z = sumZ (fun n => n + 1) (map slen Z)).
  { intros Z. unfold sumZ. induction Z as [|z Z IH]; cbn [map foldr]; [done|by rewrite IH]. }
  rewrite Hs, (sumZ_perm _ _ _ H), <- Hs in HX.
  assert (He : X = [] <-> Y = []).
  { apply Permutation_length in H. rewrite !length_map in H. destruct X, Y; cbn in H; split; done. }
  destruct (decide (X = [])) as [E|E].
  - rewrite bool_decide_eq_true_2 in HX by done. rewrite bool_decide_eq_true_2 in HY by tauto. lia.
  - rewrite bool_decide_eq_false_2 in HX by done. rewrite bool_decide_eq_false_2 in HY by tauto. lia.
Qed.

(** ** Trees *)

Fixpoint value_of (j : json) : Value :=
  match j with
  | JNull => nullValue
  | JBool b => booleanValue b
  | JInt n => numberValue (decimal_of n)
  | JString s => stringValue s
  | JArray items => arrayValue (map value_of items)
  | JObject fields => objectValue (map (fun f => (f.1, value_of f.2)) fields)
  end.

Fixpoint sorted_json (j : json) : json :=
  match j with
  | JArray items => JArray (map sorted_json items)
  | JObject fields => JObject (sort_on fst String.compare (map (fun f => (f.1, sorted_json f.2)) fields))
  | _ => j
  end.

(** A tree within the bounds of the strict contract, at a depth. *)
Fixpoint strict_json (depth : Z) (j : json) : bool :=
  (depth <=? maxDepth) &&
  match j with
  | JNull | JBool _ => true
  | JInt n => int64 n
  | JString s => wf_string s
  | JArray items => (slen items <=? maxArrayItems) && forallb (strict_json (depth + 1)) items
  | JObject fields =>
    (slen fields <=? maxObjectMembers) && bool_decide (NoDup (map fst fields)) &&
    forallb (fun f => wf_string f.1 && strict_json (depth + 1) f.2) fields
  end.

Lemma strict_array depth items : strict_json depth (JArray items) = true <->
  depth <= maxDepth /\ slen items <= maxArrayItems /\ Forall (fun j => strict_json (depth + 1) j = true) items.
Proof. cbn [strict_json]. rewrite !andb_true_iff, !Z.leb_le, forallb_true. tauto. Qed.
Lemma strict_object depth fields : strict_json depth (JObject fields) = true <->
  depth <= maxDepth /\ slen fields <= maxObjectMembers /\ NoDup (map fst fields) /\
  Forall (fun f => wf_string f.1 = true /\ strict_json (depth + 1) f.2 = true) fields.
Proof.
  cbn [strict_json]. rewrite !andb_true_iff, !Z.leb_le, bool_decide_eq_true, forallb_true.
  assert (H : Forall (fun f => wf_string f.1 && strict_json (depth + 1) f.2 = true) fields <->
    Forall (fun f => wf_string f.1 = true /\ strict_json (depth + 1) f.2 = true) fields)
    by (apply Forall_iff; intros f; by rewrite andb_true_iff).
  rewrite H. tauto.
Qed.
Lemma strict_depth depth j : strict_json depth j = true -> depth <= maxDepth.
Proof. destruct j; cbn [strict_json]; intros [H _]%andb_true_iff; by apply Z.leb_le. Qed.

(** A tree that [json.Marshal] wrote is read by the strict parser. *)
Lemma marshal_reads_strict j : forall depth, strict_json depth j = true -> reads_as depth (Marshal j) (value_of j).
Proof.
  induction j as [|b|n|s|items IH|fields IH] using json_induction; intros depth H; pose proof (strict_depth _ _ H) as Hd.
  - by apply null_reads.
  - replace (Marshal (JBool b)) with (bytes (if b then "true" else "false")%string) by (by destruct b). by apply boolean_reads.
  - cbn [strict_json] in H. apply andb_true_iff in H as [_ H]. destruct (decimal_of_wf n H).
    cbn [Marshal value_of]. rewrite <- decimal_of_written. by apply number_reads.
  - cbn [strict_json] in H. apply andb_true_iff in H as [_ H]. by apply string_reads.
  - apply strict_array in H as (_ & Hl & HF). rewrite Forall_forall in HF, IH.
    pose proof (array_reads depth (map (fun j => (Marshal j, value_of j)) items) Hd) as R. rewrite !map_map in R. cbn [fst snd] in R.
    apply R; [unfold slen; by rewrite length_map|]. apply Forall_map, Forall_forall. intros j Hj. apply IH; [done|by apply HF].
  - apply strict_object in H as (_ & Hl & Hn & HF). rewrite Forall_forall in HF, IH.
    pose proof (object_reads depth (map (fun f => (f.1, (Marshal f.2, value_of f.2))) fields) Hd) as R. rewrite !map_map in R. cbn [fst snd] in R.
    apply R; [unfold slen; by rewrite length_map|done|]. apply Forall_map, Forall_forall. intros f Hf.
    destruct (HF f Hf). split; cbn [fst snd]; [done|by apply IH].
Qed.

Lemma marshal_text j : forall depth, strict_json depth j = true -> text (Marshal j).
Proof.
  induction j as [|b|n|s|items IH|fields IH] using json_induction; intros depth H.
  - apply text_ascii_list. repeat constructor.
  - destruct b; apply text_ascii_list; repeat constructor.
  - cbn [strict_json] in H. apply andb_true_iff in H as [_ H]. cbn [Marshal]. rewrite <- decimal_of_written.
    by apply text_number, decimal_of_wf.
  - cbn [strict_json] in H. apply andb_true_iff in H as [_ H]. by apply text_json_string.
  - apply strict_array in H as (_ & _ & HF). rewrite Forall_forall in HF, IH. cbn [Marshal].
    apply text_cons; [done|]. apply text_app; [|by apply text_ascii]. apply text_commas, Forall_map, Forall_forall.
    intros j Hj. by eapply IH, HF.
  - apply strict_object in H as (_ & _ & _ & HF). rewrite Forall_forall in HF, IH. cbn [Marshal].
    apply text_cons; [done|]. apply text_app; [|by apply text_ascii]. apply text_commas, Forall_map, Forall_forall.
    intros f Hf. destruct (HF f Hf). apply text_app; [by apply text_json_string|]. apply text_cons; [done|]. by eapply IH.
Qed.

(** ** The normal form *)

Lemma write_sorted j : forall depth, strict_json depth j = true -> writeValue (value_of j) = Marshal (sorted_json j).
Proof.
  induction j as [|b|n|s|items IH|fields IH] using json_induction; intros depth H; try done.
  - apply decimal_of_written.
  - apply strict_array in H as (_ & _ & HF). rewrite Forall_forall in HF, IH. cbn [value_of writeValue sorted_json Marshal].
    rewrite !map_map. do 3 f_equal. apply map_ext_in. intros j Hj%list_elem_of_In. by eapply IH, HF.
  - apply strict_object in H as (_ & _ & Hn & HF). rewrite Forall_forall in HF, IH. cbn [value_of writeValue sorted_json Marshal].
    rewrite map_map. cbn [fst snd].
    rewrite (sort_on_map (fun f => (f.1, sorted_json f.2)) fst), (sort_on_map (fun f => (f.1, writeValue (value_of f.2))) fst) by done.
    rewrite !map_map. do 3 f_equal. apply map_ext_in. intros f Hf%list_elem_of_In. cbn [fst snd].
    rewrite sort_on_perm in Hf. do 2 f_equal. eapply IH; [done|]. by apply (HF f).
Qed.

Lemma strict_sorted j : forall depth, strict_json depth j = true -> strict_json depth (sorted_json j) = true.
Proof.
  induction j as [|b|n|s|items IH|fields IH] using json_induction; intros depth H; try done.
  - apply strict_array in H as (Hd & Hl & HF). cbn [sorted_json]. apply strict_array. rewrite Forall_forall in IH, HF.
    split_and!; [done|unfold slen; by rewrite length_map|]. apply Forall_map, Forall_forall. intros j Hj. by apply IH, HF.
  - apply strict_object in H as (Hd & Hl & Hn & HF). cbn [sorted_json]. apply strict_object. rewrite Forall_forall in IH, HF.
    unfold slen. rewrite sort_on_perm, length_map, map_map. split_and!; [done|done|done|].
    apply Forall_map, Forall_forall. intros f Hf. cbn [fst snd]. destruct (HF f Hf). split; [done|by apply IH].
Qed.

Lemma sorted_size j : forall depth, strict_json depth j = true -> slen (Marshal (sorted_json j)) = slen (Marshal j).
Proof.
  induction j as [|b|n|s|items IH|fields IH] using json_induction; intros depth H; try done.
  - apply strict_array in H as (_ & _ & HF). rewrite Forall_forall in HF, IH. cbn [sorted_json Marshal]. rewrite map_map.
    assert (E : slen (commas (map (fun j => Marshal (sorted_json j)) items)) = slen (commas (map Marshal items))).
    { apply commas_size. apply eq_permutation. rewrite !map_map. apply map_ext_in. intros j Hj%list_elem_of_In. by eapply IH, HF. }
    unfold slen in *. cbn [length]. rewrite !length_app. lia.
  - apply strict_object in H as (_ & _ & Hn & HF). rewrite Forall_forall in HF, IH. cbn [sorted_json Marshal].
    rewrite (sort_on_map (fun f => (f.1, sorted_json f.2)) fst), map_map by done. cbn [fst snd]. change (fun a : string * json => a.1) with (@fst string json).
    assert (E : slen (commas (map (fun f => json_string (bytes f.1) ++ 0x3A :: Marshal (sorted_json f.2)) (sort_on fst String.compare fields))) =
                slen (commas (map (fun f => json_string (bytes f.1) ++ 0x3A :: Marshal f.2) fields))).
    { apply commas_size. rewrite sort_on_perm. apply eq_permutation. rewrite !map_map. apply map_ext_in. intros f Hf%list_elem_of_In.
      assert (Hs : slen (Marshal (sorted_json f.2)) = slen (Marshal f.2)) by (eapply IH; [done|]; by apply (HF f)).
      unfold slen in *. rewrite !length_app. cbn [length]. lia. }
    unfold slen in *. cbn [length]. rewrite !length_app. lia.
Qed.

Lemma parse_marshal_strict j : strict_json 0 j = true -> slen (Marshal j) <= MaxDocumentBytes -> parse (Marshal j) = Ok (value_of j).
Proof. intros H Hl. apply parse_document; [by eapply marshal_text|done|by apply marshal_reads_strict]. Qed.

Lemma Normalize_marshal j : strict_json 0 j = true -> slen (Marshal j) <= MaxDocumentBytes ->
  Normalize (Marshal j) = Ok (Marshal (sorted_json j)).
Proof. intros H Hl. unfold Normalize. rewrite parse_marshal_strict by done. cbn [result_bind]. by rewrite (write_sorted _ 0). Qed.

Lemma Normalize_large x : MaxDocumentBytes < slen x -> Normalize x = Err ErrInvalid.
Proof. intros H. unfold Normalize, parse. by rewrite (proj2 (Z.ltb_lt _ _) H), orb_true_r. Qed.

Lemma sorted_idem j : forall depth, strict_json depth j = true -> sorted_json (sorted_json j) = sorted_json j.
Proof.
  induction j as [|b|n|s|items IH|fields IH] using json_induction; intros depth H; try done.
  - apply strict_array in H as (_ & _ & HF). rewrite Forall_forall in HF, IH. cbn [sorted_json]. rewrite map_map. f_equal.
    apply map_ext_in. intros j Hj%list_elem_of_In. by eapply IH, HF.
  - apply strict_object in H as (_ & _ & Hn & HF). rewrite Forall_forall in HF, IH. cbn [sorted_json]. f_equal.
    rewrite (sort_on_map (fun f => (f.1, sorted_json f.2)) fst fields) by done. rewrite map_map. cbn [fst snd].
    assert (E : map (fun f => (f.1, sorted_json (sorted_json f.2))) (sort_on fst String.compare fields) =
      map (fun f => (f.1, sorted_json f.2)) (sort_on fst String.compare fields)).
    { apply map_ext_in. intros f Hf%list_elem_of_In. rewrite sort_on_perm in Hf. f_equal. eapply IH; [done|]. by apply (HF f). }
    change (fun a : string * json => a.1) with (@fst string json). rewrite E, (sort_on_map (fun f => (f.1, sorted_json f.2)) fst) by (by rewrite sort_on_perm). f_equal. apply sort_on_idem; [apply _|done].
Qed.

(** The normal form is its own, and both parsers read it. *)
Lemma normal_form_stable j : strict_json 0 j = true -> slen (Marshal j) <= MaxDocumentBytes ->
  Normalize (Marshal (sorted_json j)) = Ok (Marshal (sorted_json j)) /\ parse (Marshal (sorted_json j)) = Ok (value_of (sorted_json j)).
Proof.
  intros H Hl. pose proof (strict_sorted j 0 H) as Hs. assert (Hk : slen (Marshal (sorted_json j)) <= MaxDocumentBytes) by (by rewrite (sorted_size j 0)).
  split; [|by apply parse_marshal_strict]. rewrite Normalize_marshal by done. by rewrite (sorted_idem j 0).
Qed.

Lemma foldr_max_le {A : Type} (g : A -> Z) l n : 0 <= n -> Forall (fun x => g x <= n) l -> foldr (fun x m => Z.max (g x) m) 0 l <= n.
Proof. intros Hn. induction 1; cbn [foldr]; lia. Qed.

Lemma strict_nesting j : forall depth, strict_json depth j = true -> nesting j <= maxDepth - depth + 1.
Proof.
  induction j as [|b|n|s|items IH|fields IH] using json_induction; intros depth H; pose proof (strict_depth _ _ H) as Hd;
    try (cbn [nesting]; lia).
  - apply strict_array in H as (_ & _ & HF). rewrite Forall_forall in HF, IH. cbn [nesting].
    assert (foldr (fun x n => Z.max (nesting x) n) 0 items <= maxDepth - depth); [|lia].
    apply foldr_max_le; [lia|]. apply Forall_forall. intros j Hj. specialize (IH j Hj _ (HF j Hj)). lia.
  - apply strict_object in H as (_ & _ & _ & HF). rewrite Forall_forall in HF, IH. cbn [nesting].
    assert (foldr (fun f n => Z.max (nesting f.2) n) 0 fields <= maxDepth - depth); [|lia].
    apply (foldr_max_le (fun f : string * json => nesting f.2)); [lia|]. apply Forall_forall. intros f Hf. specialize (IH f Hf _ (proj2 (HF f Hf))). lia.
Qed.

Lemma parse_tree_sorted j : strict_json 0 j = true -> parse_tree (Marshal (sorted_json j)) = Some (tree_of (sorted_json j)).
Proof.
  intros H. apply parse_marshal. pose proof (strict_nesting _ 0 (strict_sorted _ _ H)). unfold maxDepth, maxNestingDepth in *. lia.
Qed.

(** ** Fields of a sorted struct *)

Definition sorted_fields (fields : list (string * json)) : list (string * json) :=
  sort_on fst String.compare (map (fun f => (f.1, sorted_json f.2)) fields).

Lemma tree_of_sorted fields : tree_of (sorted_json (JObject fields)) = VObject (members_of (sorted_fields fields)).
Proof. done. Qed.

Lemma field_perm names a b n : NoDup (map fst a) -> Forall (fun f => plain_name names f.1 = true) a -> a ≡ₚ b ->
  field names (members_of a) n = field names (members_of b) n.
Proof.
  intros Hn Hp Hab. unfold field, members_of. set (P := fun m : string * tree => field_of names m.1 = Some n).
  assert (Hf : filter P (map (fun f => (sanitized f.1, tree_of f.2)) a) ≡ₚ filter P (map (fun f => (sanitized f.1, tree_of f.2)) b)) by (by rewrite Hab).
  assert (Hlen : (length (filter P (map (fun f => (sanitized f.1, tree_of f.2)) a)) <= 1)%nat).
  { clear Hab Hf. induction Hp as [|f a Hf Hp IH]; [cbn; lia|]. cbn [map] in *. apply NoDup_cons in Hn as [Hnot Hn].
    rewrite filter_cons. destruct (decide (P _)) as [E|]; [|by apply IH].
    assert (H0 : filter P (map (fun f => (sanitized f.1, tree_of f.2)) a) = []).
    { apply elem_of_nil_inv. intros m [E' (g & -> & Hg)%list_elem_of_fmap]%list_elem_of_filter. apply Hnot.
      rewrite Forall_forall in Hp. specialize (Hp g Hg). revert E E'. unfold P. cbn [fst].
      unfold plain_name in *. apply andb_true_iff in Hf as [Hf1 Hf2], Hp as [Hg1 Hg2]. rewrite !sanitized_valid by done. unfold field_of.
      rewrite Hf1, Hg1. intros [= <-] [= E]. apply list_elem_of_fmap. by exists g. }
    rewrite H0. cbn. lia. }
  destruct (filter P _) as [|x [|y l]] eqn:E in Hf, Hlen |- *; [|  |cbn in Hlen; lia].
  - by apply Permutation_nil_l in Hf as ->.
  - by apply Permutation_singleton_l in Hf as ->.
Qed.

(** Sorting distinct known names does not change what a field is. *)
Lemma field_sorted names fields n : NoDup (map fst fields) -> Forall (fun f => plain_name names f.1 = true) fields ->
  field names (members_of (sorted_fields fields)) n = field names (members_of (map (fun f => (f.1, sorted_json f.2)) fields)) n.
Proof.
  intros Hn Hp. unfold sorted_fields. set (l := map (fun f => (f.1, sorted_json f.2)) fields).
  assert (Hl : NoDup (map fst l)) by (unfold l; by rewrite map_map).
  assert (Hq : Forall (fun f => plain_name names f.1 = true) l) by (unfold l; by apply Forall_map).
  symmetry. apply field_perm; [done|done|by rewrite sort_on_perm].
Qed.

(** ** Structs

    A struct whose texts and numbers are within the contract is a strict document
    and is read back from its normal form. *)

Definition strict_texts (l : list string) : Prop := Forall (fun s => wf_string s = true) l.
Lemma wf_string_valid s : wf_string s = true -> ValidString s = true.
Proof. unfold wf_string. rewrite !andb_true_iff. tauto. Qed.

Lemma strict_text depth s : depth <= maxDepth -> wf_string s = true -> strict_json depth (JString s) = true.
Proof. intros Hd Hs. cbn [strict_json]. by rewrite Hs, (proj2 (Z.leb_le _ _) Hd). Qed.
Lemma strict_int depth n : depth <= maxDepth -> int64 n = true -> strict_json depth (JInt n) = true.
Proof. intros Hd Hn. cbn [strict_json]. by rewrite Hn, (proj2 (Z.leb_le _ _) Hd). Qed.

(** Takes the texts apart. *)
Ltac take_texts :=
  repeat match goal with
  | H : strict_texts _ |- _ => unfold strict_texts in H
  | H : Forall _ (_ :: _) |- _ => apply Forall_cons in H as [? H]
  | H : Forall _ [] |- _ => clear H
  end.
(** An object whose names are constants. *)
Ltac strict_struct :=
  apply strict_object; split_and!; [unfold maxDepth in *; lia|done|by apply (bool_decide_unpack _)|];
  repeat (apply Forall_cons; split; [split; [reflexivity|]|]); [..|by apply Forall_nil];
  cbn [fst snd]; try (apply strict_text || apply strict_int); try done; try (unfold maxDepth in *; lia).

Definition plain_fields (names : list string) (fields : list (string * json)) : bool :=
  bool_decide (NoDup (map fst fields)) && forallb (fun f => plain_name names f.1) fields.

Lemma known_sorted {A : Type} names (decode : list (string * tree) -> option A) fields : plain_fields names fields = true ->
  struct_item (known names decode) (tree_of (sorted_json (JObject fields))) = decode (members_of (sorted_fields fields)) /\
  forall n, field names (members_of (sorted_fields fields)) n = field names (members_of (map (fun f => (f.1, sorted_json f.2)) fields)) n.
Proof.
  unfold plain_fields. rewrite andb_true_iff, bool_decide_eq_true, forallb_true. intros [Hn Hp]. split; [|intros n; by apply field_sorted].
  rewrite tree_of_sorted. unfold struct_item, struct_field, known.
  assert (Hk : forallb (fun m => bool_decide (is_Some (field_of names m.1))) (members_of (sorted_fields fields)) = true); [|by rewrite Hk].
  apply forallb_true. unfold members_of, sorted_fields. apply Forall_map. rewrite sort_on_perm. apply Forall_map.
  eapply Forall_impl; [exact Hp|]. intros f Hf. cbn [fst]. unfold plain_name in Hf. apply andb_true_iff in Hf as [Hk Hv].
  rewrite sanitized_valid by done. apply bool_decide_eq_true_2. unfold field_of. rewrite Hk. by eexists.
Qed.

Ltac read_known :=
  match goal with
  | |- struct_item (known ?names ?decode) (tree_of (sorted_json (JObject ?fields))) = _ =>
    let E := fresh "E" in let Hf := fresh "Hf" in
    destruct (known_sorted names decode fields) as [E Hf]; [reflexivity|]; rewrite E; clear E;
    cbv zeta; rewrite !Hf; clear Hf; cbn [map fst snd sorted_json]
  end.
(** The value of each field in turn. *)
Ltac read_fields :=
  repeat (match goal with
          | |- context [field ?names ?o ?n] =>
            let v := fresh "v" in
            evar (v : option tree);
            replace (field names o n) with v by (symmetry; find_field; subst v; reflexivity); subst v
          end;
          rewrite ?string_read, ?int_read by (done || by apply wf_string_valid); cbn [mbind option_bind]).

Lemma field_known {A : Type} (dec : list (string * tree) -> option A) fields :
  struct_field dec (Some (tree_of (sorted_json (JObject fields)))) = struct_item dec (tree_of (sorted_json (JObject fields))).
Proof. done. Qed.
