(* ===== verification/Canonical.v ===== *)
(** * Canonical resolved specifications (src/v3/internal/canonical/resolved_spec.go)

    A resolved specification is normalised by the strict JSON contract, members
    that carry credential material are dropped, and what is left is written with
    sorted keys; its SHA-256 is the content address.

    [decodeJSON] of the normalised document yields its tree, with numbers kept as
    their text; the tree is a strict [Value], whose numbers stand for their
    canonical spelling. *)

From S2P Require Import Prelude Order GoStrings Digest GoJson StrictJson.
Local Open Scope go_scope.
Local Open Scope string_scope.
Local Open Scope Z_scope.
Local Open Scope list_scope.

Inductive error : Type :=
| ErrNilSpec
| ErrUnsupported
| ErrInvalidSpec
| ErrNormalize (e : StrictJson.error)
| ErrMarshal
| ErrNotStrict.

(** ** Names *)

(** [strings.ToLower] of one rune, as far as ASCII letters and digits are
    concerned: besides the ASCII capitals, U+0130 and the Kelvin sign have a
    lower-case form in ASCII. *)
Definition lower_rune (r : Z) : Z :=
  if between 0x41 0x5A r then r + 32
  else if r =? 0x130 then 0x69
  else if r =? 0x212A then 0x6B
  else r.

Definition normalizeIdentifier (value : string) : string :=
  of_bytes (List.filter (fun r => between 0x61 0x7A r || is_digit r) (map lower_rune (runes value))).

Definition referenceField (normalized : string) : bool :=
  HasSuffix normalized "ref" || HasSuffix normalized "reference" || (normalized =?= "valuefrom").

Definition excluded_terms : list string :=
  ["password"; "passphrase"; "token"; "apikey"; "accesstoken"; "refreshtoken"; "accesskey"; "secretkey";
   "privatekey"; "authorization"; "bearer"; "cookie"].

Definition excludedField (key : string) : bool :=
  let normalized := normalizeIdentifier key in
  if (normalized =?= "") || referenceField normalized then false
  else if Contains normalized "credential" || HasPrefix normalized "secret" then true
  else existsb (fun term => (normalized =?= term) || HasSuffix normalized term) excluded_terms.

Definition sensitive_terms : list string :=
  ["secret"; "credential"; "password"; "passphrase"; "token"; "apikey"; "accesskey"; "privatekey"].

Definition sensitiveIdentifier (value : string) : bool :=
  let normalized := normalizeIdentifier value in
  if normalized =?= "" then false else existsb (Contains normalized) sensitive_terms.

(** ** Filtering *)

Definition sensitive_named (typed : list (string * Value)) : bool :=
  match member "name" typed with
  | Some (stringValue name) => sensitiveIdentifier name
  | _ => false
  end.

(** Whether a member of an object below [parentKey] is dropped. *)
Definition dropped (parentKey : string) (sensitiveNamedValue : bool) (key : string) : bool :=
  excludedField key ||
  (referenceField (normalizeIdentifier parentKey) && ((key =?= "value") || (key =?= "data") || (key =?= "stringData"))) ||
  (sensitiveNamedValue && ((key =?= "value") || (key =?= "data"))).

Definition exact_arguments (parentKey : string) : bool := normalizeIdentifier parentKey =?= "exactarguments".

Fixpoint excludeCredentialMaterial (value : Value) (parentKey : string) : Value :=
  if exact_arguments parentKey then value
  else
  match value with
  | objectValue typed =>
    let sensitiveNamedValue := sensitive_named typed in
    objectValue (flat_map (fun m =>
      if dropped parentKey sensitiveNamedValue m.1 then []
      else [(m.1, excludeCredentialMaterial m.2 m.1)]) typed)
  | arrayValue typed => arrayValue (map (fun child => excludeCredentialMaterial child parentKey) typed)
  | _ => value
  end.

(** ** Writing *)

(** The first error of a list of results, or all the values. *)
Fixpoint sequence {E A : Type} (l : list (result E A)) : result E (list A) :=
  match l with
  | [] => Ok []
  | x :: rest => let? a := x in let? tail := sequence rest in Ok (a :: tail)
  end.

Fixpoint writeCanonical (value : Value) : result error (list Z) :=
  match value with
  | nullValue => Ok (bytes "null")
  | booleanValue true => Ok (bytes "true")
  | booleanValue false => Ok (bytes "false")
  | stringValue typed => Ok (json_string (bytes typed))
  | numberValue typed =>
    if negb (is_ok (Validate (canonicalDecimal typed))) then Err ErrMarshal else Ok (canonicalDecimal typed)
  | arrayValue typed =>
    let? items := sequence (map writeCanonical typed) in
    Ok (lbracket :: commas items ++ [rbracket])
  | objectValue typed =>
    let? members := sequence (map (fun m : string * result error (list Z) =>
                                     let? child := m.2 in Ok (json_string (bytes m.1) ++ colon :: child))
                         (sort_on fst String.compare (map (fun m => (m.1, writeCanonical m.2)) typed))) in
    Ok (lbrace :: commas members ++ [rbrace])
  end.

(** ** The input *)

(** The dynamic types of [spec any]: nothing, a document ([[]byte] or
    [json.RawMessage]), a string, or any other Go value with the result of its
    [json.Marshal]. *)
Inductive spec : Type :=
| SpecNil
| SpecDocument (value : list Z)
| SpecString (value : string)
| SpecValue (encoded : option (list Z)).

Definition resolvedSpecJSON (s : spec) : result error (list Z) :=
  match s with
  | SpecNil => Err ErrNilSpec
  | SpecDocument value => Ok value
  | SpecString value =>
    let trimmed := trim_space (bytes value) in
    if (0 <? slen trimmed) && is_ok (Validate trimmed) then Ok trimmed else Ok (json_string (bytes value))
  | SpecValue None => Err ErrUnsupported
  | SpecValue (Some encoded) => Ok encoded
  end.

(** What is done with the document of a specification. *)
Definition canonicalize (raw : list Z) : result error (list Z) :=
  if (slen raw =? 0) || negb (valid_utf8 raw) then Err ErrInvalidSpec
  else match Validate raw with
  | Err _ => Err ErrInvalidSpec
  | Ok _ =>
    match parse raw with
    | Err e => Err (ErrNormalize e)
    | Ok value =>
      let filtered := excludeCredentialMaterial value "" in
      let? canonical := writeCanonical filtered in
      match Validate canonical with
      | Err _ => Err ErrNotStrict
      | Ok _ => Ok canonical
      end
    end
  end.

Definition CanonicalizeResolvedSpec (s : spec) : result error (list Z) :=
  let? raw := resolvedSpecJSON s in canonicalize raw.

Definition ResolvedSpecDigest (s : spec) : result error string :=
  let? canonical := CanonicalizeResolvedSpec s in Ok (digestBytes canonical).

Example canonical_tests :
  map (fun s => match CanonicalizeResolvedSpec (SpecDocument (doc s)) with Ok l => Some (of_bytes l) | Err _ => None end)
    ["{'z':1.0,'apiToken':'x','credentialRef':{'name':'n','value':'v'}}";
     "[{'name':'DB_PASSWORD','value':'v'},{'exactArguments':{'token':'t'}}]"]
  = map (fun s => Some (of_bytes (doc s)))
    ["{'credentialRef':{'name':'n'},'z':1}"; "[{'name':'DB_PASSWORD'},{'exactArguments':{'token':'t'}}]"].
Proof. vm_compute. reflexivity. Qed.
