(* ===== verification/CanonicalSpec.v ===== *)
(** * Canonical specifications: stable, idempotent and free of credentials *)

From S2P Require Import Prelude Order GoStrings Utf8 Digest Digits GoJson.
From S2P Require Import StrictJson StrictJsonSpec StrictJsonEqual StrictJsonNumbers.
From S2P Require Import StrictJsonCanon StrictJsonRoundTrip Canonical.
Local Open Scope go_scope.
Local Open Scope string_scope.
Local Open Scope Z_scope.
Local Open Scope list_scope.

(** ** The writer *)

Fixpoint numbers_valid (v : Value) : bool :=
  match v with
  | numberValue d => is_ok (Validate (canonicalDecimal d))
  | objectValue o => forallb (fun m => numbers_valid m.2) o
  | arrayValue a => forallb numbers_valid a
  | _ => true
  end.

Lemma sequence_ok {E A : Type} (l : list A) : sequence (map (@Ok E A) l) = Ok l.
Proof. induction l as [|a l IH]; [done|]. cbn. by rewrite IH. Qed.

Lemma sequence_err {E A B : Type} (f : B -> result E A) l b e :
  (forall x e', x ∈ l -> f x = Err e' -> e' = e) -> b ∈ l -> f b = Err e -> sequence (map f l) = Err e.
Proof.
  intros Hall Hb He. induction l as [|c l IH]; [by apply not_elem_of_nil in Hb|]. cbn.
  apply elem_of_cons in Hb as [->|Hb]; [by rewrite He|]. destruct (f c) as [a|e'] eqn:Hc; cbn.
  - rewrite IH; [done| |done]. intros x e' Hx. apply Hall. by right.
  - f_equal. by eapply Hall; [apply list_elem_of_here|].
Qed.

Lemma forallb_false {A : Type} (p : A -> bool) l : forallb p l = false -> exists x, x ∈ l /\ p x = false.
Proof.
  induction l as [|x l IH]; cbn; [done|]. intros [H|H]%andb_false_iff.
  - exists x. split; [apply list_elem_of_here|done].
  - destruct (IH H) as (y & Hy & Hp). exists y. split; [by right|done].
Qed.

(** The canonical writer is the strict one, on trees whose numbers it accepts. *)
Lemma writeCanonical_spec v : forall depth, wf_value depth v = true ->
  if numbers_valid v then writeCanonical v = Ok (writeValue v) else writeCanonical v = Err ErrMarshal.
Proof.
  induction v as [|b|s|d|o IH|a IH] using value_induction; intros depth Hw; try done.
  - by destruct b.
  - cbn. by destruct (is_ok _).
  - apply wf_object in Hw as (_ & Hn & Hw). rewrite Forall_forall in IH.
    cbn [numbers_valid writeCanonical]. rewrite sorted_members_map, map_map by done. cbn [fst snd].
    destruct (forallb _ o) eqn:Hv.
    + rewrite forallb_true, Forall_forall in Hv. rewrite writeValue_object by done.
      rewrite (map_ext_in _ (fun m => Ok (fmt (m.1, writeValue m.2)))).
      * by rewrite <- (map_map _ Ok), sequence_ok.
      * intros m Hm%list_elem_of_In%sorted_members_elem. destruct (Hw _ Hm) as [_ Hwm].
        specialize (IH _ Hm _ Hwm). rewrite (Hv _ Hm) in IH. by rewrite IH.
    + apply forallb_false in Hv as (m & Hm & Hv).
      assert (Hm' : m ∈ sorted_members o) by (unfold sorted_members; by rewrite sort_on_perm).
      rewrite (sequence_err (fun m : string * Value => let? child := writeCanonical m.2 in
        Ok (json_string (bytes m.1) ++ colon :: child)) (sorted_members o) m ErrMarshal); [done| |done|].
      * intros x e Hx%sorted_members_elem He. destruct (Hw _ Hx) as [_ Hwx]. specialize (IH _ Hx _ Hwx).
        destruct (numbers_valid x.2); rewrite IH in He; cbn in He; congruence.
      * destruct (Hw _ Hm) as [_ Hwm]. specialize (IH _ Hm _ Hwm). rewrite Hv in IH. by rewrite IH.
  - apply wf_array in Hw as (_ & Hw). rewrite Forall_forall in IH. cbn [numbers_valid writeCanonical].
    destruct (forallb _ a) eqn:Hv.
    + rewrite forallb_true, Forall_forall in Hv. rewrite (map_ext_in _ (fun v => Ok (writeValue v))).
      * by rewrite <- (map_map _ Ok), sequence_ok.
      * intros v Hm%list_elem_of_In. specialize (IH _ Hm _ (Hw _ Hm)). rewrite (Hv _ Hm) in IH. done.
    + apply forallb_false in Hv as (v & Hm & Hv). rewrite (sequence_err writeCanonical a v ErrMarshal); [done| |done|].
      * intros x e Hx He. specialize (IH _ Hx _ (Hw _ Hx)). destruct (numbers_valid x); rewrite IH in He; congruence.
      * specialize (IH _ Hm _ (Hw _ Hm)). by rewrite Hv in IH.
Qed.

(** A number the parser accepts in its canonical spelling is within the digit
    budget. *)
Lemma Validate_number d : wf_decimal d = true -> is_ok (Validate (canonicalDecimal d)) = true ->
  written_digits d <= MaxMantissaDigits.
Proof.
  intros Hw Hv. destruct (Z.le_gt_cases (written_digits d) MaxMantissaDigits) as [|Hgt]; [done|exfalso].
  destruct (wf_decimal_cases _ Hw) as [->|N]; [done|].
  destruct (number_head d Hw) as (b & l & Eb & Hb). pose proof (byte_tag_number b Hb) as Ht. unfold byte_tag in Ht.
  assert (Hp : forall fuel e, parseNumber (canonicalDecimal d) = Err e ->
    parseValue (S fuel) 0 (canonicalDecimal d) = Err e).
  { intros fuel e He. rewrite Eb in He |- *. cbn [parseValue]. revert Ht. rewrite Hb.
    do 6 match goal with |- context [b =? ?c] => destruct (b =? c); [intros Ht; discriminate Ht|] end.
    intros _. change (maxDepth <? 0) with false. by rewrite He. }
  assert (Hn : exists e, parseNumber (canonicalDecimal d) = Err e).
  { rewrite <- (app_nil_r (canonicalDecimal d)), canonicalDecimal_parts, <- !(assoc_L (++)) by done.
    rewrite parseNumber_parts by done.
    destruct (_ <? _); [by eexists|]. unfold place_decimal. rewrite num_int_slen by done.
    rewrite (proj2 (Z.ltb_lt _ _)) by lia. by eexists. }
  destruct Hn as [e He]. unfold Validate, parse in Hv. destruct (_ || _); [done|]. cbv zeta in Hv.
  assert (Hs : skipSpace (canonicalDecimal d) = canonicalDecimal d).
  { rewrite Eb. apply skipSpace_open. destruct (isValueDelimiter b) eqn:E; [|done].
    apply delimiter_tag in E. unfold byte_tag in E. congruence. }
  rewrite Hs in Hv. destruct (_ =? 0); [done|]. unfold value_fuel in Hv.
  rewrite Nat.add_comm in Hv. cbn [Nat.add] in Hv. by rewrite (Hp _ e He) in Hv.
Qed.

(** ** The filter *)

Definition keep (parentKey : string) (sensitive : bool) (m : string * Value) : list (string * Value) :=
  if dropped parentKey sensitive m.1 then [] else [(m.1, excludeCredentialMaterial m.2 m.1)].

Lemma exclude_object o p : exact_arguments p = false ->
  excludeCredentialMaterial (objectValue o) p = objectValue (flat_map (keep p (sensitive_named o)) o).
Proof. intros H. cbn [excludeCredentialMaterial]. by rewrite H. Qed.

Lemma exclude_array a p : exact_arguments p = false ->
  excludeCredentialMaterial (arrayValue a) p = arrayValue (map (fun c => excludeCredentialMaterial c p) a).
Proof. intros H. cbn [excludeCredentialMaterial]. by rewrite H. Qed.

Lemma exclude_exact v p : exact_arguments p = true -> excludeCredentialMaterial v p = v.
Proof. intros H. destruct v; cbn; by rewrite H. Qed.

Lemma exclude_scalar v p : match v with objectValue _ | arrayValue _ => False | _ => True end ->
  excludeCredentialMaterial v p = v.
Proof. destruct v; try done; intros _; cbn; by case_match. Qed.

Lemma keep_elem p s o x : x ∈ flat_map (keep p s) o <->
  exists m, m ∈ o /\ dropped p s m.1 = false /\ x = (m.1, excludeCredentialMaterial m.2 m.1).
Proof.
  rewrite list_elem_of_In, in_flat_map. unfold keep. split.
  - intros (m & Hm & Hx). destruct (dropped p s m.1) eqn:E; [done|]. destruct Hx as [<-|[]].
    exists m. rewrite list_elem_of_In. done.
  - intros (m & Hm & E & ->). exists m. rewrite <- list_elem_of_In, E. split; [done|by left].
Qed.

Lemma keep_keys p s o : map fst (flat_map (keep p s) o) `sublist_of` map fst o.
Proof.
  induction o as [|m o IH]; cbn; [constructor|]. unfold keep at 1. destruct (dropped p s m.1); cbn; by constructor.
Qed.

Lemma exclude_wf v : forall depth p, wf_value depth v = true -> wf_value depth (excludeCredentialMaterial v p) = true.
Proof.
  induction v as [|b|s|d|o IH|a IH] using value_induction; intros depth p Hw;
    try (by rewrite exclude_scalar); destruct (exact_arguments p) eqn:Hp; try (by rewrite exclude_exact).
  - rewrite exclude_object by done. pose proof (wf_depth _ _ Hw) as Hd. apply wf_object in Hw as (Hl & Hn & Hw).
    rewrite Forall_forall in IH. rewrite wf_value_unfold, !andb_true_iff, bool_decide_eq_true, forallb_true, !Z.leb_le.
    pose proof (keep_keys p (sensitive_named o) o) as Hk. split_and!.
    + breflect. lia.
    + apply sublist_length in Hk. rewrite !length_map in Hk. unfold slen in *. lia.
    + by eapply sublist_NoDup.
    + apply Forall_forall. intros x (m & Hm & _ & ->)%keep_elem. destruct (Hw _ Hm) as [Hs Hv]. cbn.
      by rewrite Hs, (IH _ Hm).
  - rewrite exclude_array by done. pose proof (wf_depth _ _ Hw) as Hd. apply wf_array in Hw as (Hl & Hw).
    rewrite Forall_forall in IH. rewrite wf_value_unfold, !andb_true_iff, forallb_true, !Z.leb_le. split_and!.
    + breflect. lia.
    + unfold slen in *. by rewrite length_map.
    + apply Forall_map, Forall_forall. intros x Hx. by apply IH, Hw.
Qed.

(** The [name] member of an object survives the filter, so the filter sees the
    same named value again. *)
Lemma name_kept p s : dropped p s "name" = false.
Proof.
  unfold dropped. change (excludedField "name") with false. change ("name" =?= "value") with false.
  change ("name" =?= "data") with false. change ("name" =?= "stringData") with false. cbn [orb].
  by rewrite !andb_false_r.
Qed.

Lemma member_keep p s o :
  member "name" (flat_map (keep p s) o) = option_map (fun v => excludeCredentialMaterial v "name") (member "name" o).
Proof.
  induction o as [|[k v] o IH]; [done|]. cbn [flat_map member]. unfold keep at 1. cbn [fst snd].
  destruct (decide (k = "name")) as [->|Hk].
  - rewrite name_kept. cbn. done.
  - rewrite (bool_decide_eq_false_2 _ Hk). destruct (dropped p s k); cbn [app]; [done|]. cbn [member].
    by rewrite (bool_decide_eq_false_2 _ Hk).
Qed.

Lemma sensitive_named_keep p s o : sensitive_named (flat_map (keep p s) o) = sensitive_named o.
Proof.
  unfold sensitive_named. rewrite member_keep. destruct (member "name" o) as [v|]; [|done]. cbn [option_map].
  destruct v; try (by rewrite exclude_scalar); [by rewrite exclude_object|by rewrite exclude_array].
Qed.

(** No member that carries credential material, outside the arguments of an
    exact-argument policy. *)
Fixpoint clean (parentKey : string) (v : Value) : bool :=
  exact_arguments parentKey ||
  match v with
  | objectValue o =>
    forallb (fun m => negb (dropped parentKey (sensitive_named o) m.1) && clean m.1 m.2) o
  | arrayValue a => forallb (clean parentKey) a
  | _ => true
  end.

Lemma exclude_clean v : forall p, clean p (excludeCredentialMaterial v p) = true.
Proof.
  induction v as [|b|s|d|o IH|a IH] using value_induction; intros p;
    try (rewrite exclude_scalar by done; cbn; by rewrite orb_true_r); destruct (exact_arguments p) eqn:Hp;
    try (rewrite exclude_exact by done; cbn; by rewrite Hp); rewrite Forall_forall in IH.
  - rewrite exclude_object by done. cbn [clean]. rewrite Hp, sensitive_named_keep. apply forallb_true, Forall_forall.
    intros x (m & Hm & E & ->)%keep_elem. cbn. by rewrite E, IH.
  - rewrite exclude_array by done. cbn [clean]. rewrite Hp. apply forallb_true, Forall_map, Forall_forall.
    intros x Hx. by apply IH.
Qed.

Lemma clean_exclude v : forall p, clean p v = true -> excludeCredentialMaterial v p = v.
Proof.
  induction v as [|b|s|d|o IH|a IH] using value_induction; intros p Hc;
    try (by rewrite exclude_scalar); destruct (exact_arguments p) eqn:Hp; try (by rewrite exclude_exact);
    cbn [clean] in Hc; rewrite Hp in Hc; cbn [orb] in Hc; rewrite forallb_true, Forall_forall in Hc;
    rewrite Forall_forall in IH.
  - rewrite exclude_object by done. f_equal. generalize dependent (sensitive_named o). intros s Hc.
    induction o as [|m o IHo]; [done|]. cbn [flat_map]. unfold keep at 1.
    destruct (andb_prop _ _ (Hc m (list_elem_of_here _ _))) as [Hd%negb_true_iff Hm]. rewrite Hd. cbn [app].
    rewrite IH, IHo; [by destruct m|..|apply list_elem_of_here|done]; intros; [apply IH|apply Hc]; try done; by right.
  - rewrite exclude_array by done. f_equal. rewrite <- (map_id a) at 2. apply map_ext_in.
    intros x Hx%list_elem_of_In. apply IH; [done|]. by apply Hc.
Qed.

(** ** The filter does not depend on the order of members *)

Lemma member_perm {A : Type} key (o o' : list (string * A)) :
  NoDup (map fst o) -> o ≡ₚ o' -> member key o = member key o'.
Proof.
  intros Hn Hp. assert (Hn' : NoDup (map fst o')) by (by rewrite <- Hp).
  destruct (member key o) as [v|] eqn:E.
  - apply member_some in E. symmetry. apply member_elem; [done|]. by rewrite <- Hp.
  - destruct (member key o') as [w|] eqn:E'; [|done]. apply member_some in E'. rewrite <- Hp in E'.
    apply (member_elem key o w Hn) in E'. congruence.
Qed.

Lemma member_map {A B : Type} (f : A -> B) key (o : list (string * A)) :
  member key (map (fun m => (m.1, f m.2)) o) = option_map f (member key o).
Proof. induction o as [|[k v] o IH]; [done|]. cbn. by case_bool_decide. Qed.

Lemma sensitive_named_canon o : NoDup (map fst o) ->
  sensitive_named (map (fun m => (m.1, canon m.2)) (sorted_members o)) = sensitive_named o.
Proof.
  intros Hn. unfold sensitive_named. rewrite member_map.
  rewrite <- (member_perm "name" o (sorted_members o)) by (done || (symmetry; apply sort_on_perm)).
  by destruct (member "name" o) as [[]|].
Qed.

Lemma flat_map_perm {A B : Type} (f : A -> list B) l k : l ≡ₚ k -> flat_map f l ≡ₚ flat_map f k.
Proof.
  induction 1 as [|x l k _ IH|x y l|l1 l2 l3 _ IH1 _ IH2]; cbn.
  - done.
  - by rewrite IH.
  - rewrite !(assoc_L (++)). by rewrite (comm (++) (f y)).
  - by etrans.
Qed.

Lemma canon_exclude v : forall depth p, wf_value depth v = true ->
  canon (excludeCredentialMaterial v p) = excludeCredentialMaterial (canon v) p.
Proof.
  induction v as [|b|s|d|o IH|a IH] using value_induction; intros depth p Hw;
    try (rewrite !exclude_scalar by done; done); destruct (exact_arguments p) eqn:Hp;
    try (by rewrite !exclude_exact); rewrite Forall_forall in IH.
  - pose proof Hw as Hw'. apply wf_object in Hw as (_ & Hn & Hw). rewrite canon_object by done.
    rewrite !exclude_object by done. rewrite sensitive_named_canon by done. set (sn := sensitive_named o).
    assert (Hk : NoDup (map fst (flat_map (keep p sn) o))) by (eapply sublist_NoDup; [exact Hn|apply keep_keys]).
    rewrite canon_object by done. f_equal.
    assert (Hmap : forall l, l ⊆ o -> flat_map (keep p sn) (map (fun m => (m.1, canon m.2)) l) =
                        map (fun m => (m.1, canon m.2)) (flat_map (keep p sn) l)).
    { induction l as [|m l IHl]; intros Hl; [done|]. cbn [map flat_map]. rewrite map_app, IHl by set_solver.
      f_equal. unfold keep. cbn [fst snd]. destruct (dropped p sn m.1); [done|]. cbn. do 2 f_equal.
      assert (Hm : m ∈ o) by set_solver. symmetry. eapply IH; [done|]. by apply Hw. }
    rewrite Hmap by (intros m; apply sorted_members_elem). f_equal.
    assert (Hsub : map fst (flat_map (keep p sn) (sorted_members o)) `sublist_of` map fst (sorted_members o))
      by apply keep_keys.
    assert (Hns : NoDup (map fst (sorted_members o))) by (unfold sorted_members; by rewrite sort_on_perm).
    transitivity (sorted_members (flat_map (keep p sn) (sorted_members o))).
    + apply sort_on_unique; [apply _|done|]. apply flat_map_perm. symmetry. apply sort_on_perm.
    + apply sort_on_id; [apply _|by eapply sublist_NoDup|].
      eapply sublist_Sorted; [apply _|exact Hsub|apply sort_on_keys, _].
  - apply wf_array in Hw as (_ & Hw). cbn [canon]. rewrite !exclude_array by done. cbn [canon]. f_equal.
    rewrite !map_map. apply map_ext_in. intros x Hx%list_elem_of_In. by eapply IH, Hw.
Qed.

(** ** Properties *)

Lemma canonicalize_ok raw c : canonicalize raw = Ok c <->
  exists v, parse raw = Ok v /\ numbers_valid (excludeCredentialMaterial v "") = true /\
    c = writeValue (excludeCredentialMaterial v "") /\ is_ok (Validate c) = true.
Proof.
  unfold canonicalize. split.
  - destruct (_ || _); [done|]. unfold Validate at 1. destruct (parse raw) as [v|] eqn:Ev; cbn [result_bind]; [|done].
    intros H. pose proof (exclude_wf v 0 "" (parse_wf _ _ Ev)) as Hw. apply writeCanonical_spec in Hw.
    destruct (numbers_valid _) eqn:Hn; [|by rewrite Hw in H]. rewrite Hw in H. cbn [result_bind] in H.
    destruct (Validate _) eqn:Hv in H; [|done]. injection H as <-. exists v. split_and!; [done..|]. by rewrite Hv.
  - intros (v & Ev & Hn & -> & Hv).
    assert (Hg : (slen raw =? 0) || negb (valid_utf8 raw) = false).
    { unfold parse in Ev. destruct (_ || _) eqn:E in Ev; [done|]. rewrite !orb_false_iff in E. destruct E as [[E1 _] E2].
      by rewrite E1, E2. }
    rewrite Hg. unfold Validate at 1. rewrite Ev. cbn [result_bind].
    pose proof (exclude_wf v 0 "" (parse_wf _ _ Ev)) as Hw. apply writeCanonical_spec in Hw. rewrite Hn in Hw.
    rewrite Hw. cbn [result_bind]. by destruct (Validate _).
Qed.

Lemma numbers_writable v : forall depth, wf_value depth v = true -> numbers_valid v = true -> writable v = true.
Proof.
  induction v as [|b|s|d|o IH|a IH] using value_induction; intros depth Hw Hn; try done; cbn [numbers_valid writable] in *.
  - rewrite wf_value_unfold in Hw. apply andb_true_iff in Hw as [_ Hw]. apply Z.leb_le. by apply Validate_number.
  - apply wf_object in Hw as (_ & _ & Hw). rewrite !forallb_true, !Forall_forall in *. intros m Hm.
    eapply IH; [done|by apply Hw|by apply Hn].
  - apply wf_array in Hw as (_ & Hw). rewrite !forallb_true, !Forall_forall in *. intros m Hm.
    eapply IH; [done|by apply Hw|by apply Hn].
Qed.

Lemma numbers_valid_canon v : forall depth, wf_value depth v = true -> numbers_valid (canon v) = numbers_valid v.
Proof.
  induction v as [|b|s|d|o IH|a IH] using value_induction; intros depth Hw; try done; rewrite Forall_forall in IH;
    apply eq_true_iff_eq.
  - apply wf_object in Hw as (_ & Hn & Hw). rewrite canon_object by done. cbn [numbers_valid].
    rewrite !forallb_true, Forall_map. unfold sorted_members. rewrite sort_on_perm, !Forall_forall. cbn [snd].
    split; intros H m Hm; [rewrite <- (IH _ Hm _ (proj2 (Hw _ Hm)))|rewrite (IH _ Hm _ (proj2 (Hw _ Hm)))]; by apply H.
  - apply wf_array in Hw as (_ & Hw). cbn [canon numbers_valid]. rewrite !forallb_true, Forall_map, !Forall_forall.
    split; intros H m Hm; [rewrite <- (IH _ Hm _ (Hw _ Hm))|rewrite (IH _ Hm _ (Hw _ Hm))]; by apply H.
Qed.

Lemma clean_canon v p : wf_value 0 v = true -> clean p v = true -> clean p (canon v) = true.
Proof.
  intros Hw Hc. rewrite <- (clean_exclude v p Hc), (canon_exclude v 0 p Hw). apply exclude_clean.
Qed.

Lemma canonical_parse v : wf_value 0 v = true -> numbers_valid v = true -> is_ok (Validate (writeValue v)) = true ->
  parse (writeValue v) = Ok (canon v).
Proof.
  intros Hw Hn Hv. apply parse_written; [done|by eapply numbers_writable|].
  unfold Validate, parse in Hv. destruct (_ || _) eqn:E in Hv; [done|]. rewrite !orb_false_iff in E.
  destruct E as [[_ E] _]. by apply Z.ltb_ge.
Qed.

(** ** What a canonical specification may hold, without the filter *)

(** The ASCII letters, in lower case, and digits of a name; everything else in
    it is ignored.  U+0130 and the Kelvin sign fold to [i] and [k]. *)
Definition identifier (name : string) : list Z :=
  flat_map (fun r =>
    if between 0x61 0x7A r || is_digit r then [r]
    else if between 0x41 0x5A r then [r + 32]
    else if r =? 0x130 then bytes "i"
    else if r =? 0x212A then bytes "k"
    else []) (runes name).

Definition begins_with (word : string) (id : list Z) : Prop := exists rest, id = bytes word ++ rest.
Definition ends_in (word : string) (id : list Z) : Prop := exists rest, id = rest ++ bytes word.
Definition has_within (word : string) (id : list Z) : Prop := exists before after, id = before ++ bytes word ++ after.

(** The name of a reference to a secret kept elsewhere. *)
Definition names_reference (name : string) : Prop :=
  ends_in "ref" (identifier name) \/ ends_in "reference" (identifier name) \/ identifier name = bytes "valuefrom".

(** The name of a field that carries a secret itself. *)
Definition names_secret (name : string) : Prop :=
  ~ names_reference name /\
  (has_within "credential" (identifier name) \/ begins_with "secret" (identifier name) \/
   ends_in "password" (identifier name) \/ ends_in "passphrase" (identifier name) \/
   ends_in "token" (identifier name) \/ ends_in "apikey" (identifier name) \/
   ends_in "accesskey" (identifier name) \/ ends_in "secretkey" (identifier name) \/
   ends_in "privatekey" (identifier name) \/ ends_in "authorization" (identifier name) \/
   ends_in "bearer" (identifier name) \/ ends_in "cookie" (identifier name)).

(** The name of an entry, such as an environment variable, whose value is a
    secret. *)
Definition names_sensitive_entry (name : string) : Prop :=
  has_within "secret" (identifier name) \/ has_within "credential" (identifier name) \/
  has_within "password" (identifier name) \/ has_within "passphrase" (identifier name) \/
  has_within "token" (identifier name) \/ has_within "apikey" (identifier name) \/
  has_within "accesskey" (identifier name) \/ has_within "privatekey" (identifier name).

(** Member [key] of an object found under [parent] carries credential
    material. *)
Definition credential_member (parent : string) (object : list (string * Value)) (key : string) : Prop :=
  names_secret key \/
  (names_reference parent /\ (key = "value" \/ key = "data" \/ key = "stringData")) \/
  (exists name, ("name", stringValue name) ∈ object /\ names_sensitive_entry name /\ (key = "value" \/ key = "data")).

Inductive step : Type :=
| Field (key : string)
| Index (i : nat).

(** [x] is found in a document at a path. *)
Inductive holds : Value -> list step -> Value -> Prop :=
| holds_here x : holds x [] x
| holds_field o key w path x : (key, w) ∈ o -> holds w path x -> holds (objectValue o) (Field key :: path) x
| holds_index a i w path x : a !! i = Some w -> holds w path x -> holds (arrayValue a) (Index i :: path) x.

(** [x] is found at a path that passes no credential member; below the exact
    arguments of a tool policy every path counts. *)
Inductive holds_safely : string -> Value -> list step -> Value -> Prop :=
| safe_exact parent v path x : identifier parent = bytes "exactarguments" -> holds v path x -> holds_safely parent v path x
| safe_here parent x : holds_safely parent x [] x
| safe_field parent o key w path x : (key, w) ∈ o -> ~ credential_member parent o key -> holds_safely key w path x ->
    holds_safely parent (objectValue o) (Field key :: path) x
| safe_index parent a i w path x : a !! i = Some w -> holds_safely parent w path x ->
    holds_safely parent (arrayValue a) (Index i :: path) x.

Definition scalar (v : Value) : Prop := match v with objectValue _ | arrayValue _ => False | _ => True end.

(** *** The names of the code *)

Lemma identifier_normalize name : bytes (normalizeIdentifier name) = identifier name.
Proof.
  unfold normalizeIdentifier, identifier. rewrite bytes_of_bytes.
  - induction (runes name) as [|r l IH]; [done|]. cbn [map List.filter flat_map]. rewrite <- IH.
    unfold lower_rune, between, is_digit, between. repeat case_match; breflect; try lia; done.
  - apply Forall_forall. intros r [_ Hr]%list_elem_of_In%List.filter_In. unfold is_digit, between in Hr.
    unfold is_byte. breflect. lia.
Qed.

Lemma HasSuffix_ends name word : HasSuffix (normalizeIdentifier name) word = true <-> ends_in word (identifier name).
Proof. unfold HasSuffix. by rewrite bool_decide_eq_true, identifier_normalize. Qed.

Lemma HasPrefix_begins name word : HasPrefix (normalizeIdentifier name) word = true <-> begins_with word (identifier name).
Proof. unfold HasPrefix. by rewrite bool_decide_eq_true, identifier_normalize. Qed.

Lemma contains_bytes_spec l sub : contains_bytes l sub = true <-> exists before after, l = before ++ sub ++ after.
Proof.
  induction l as [|b l IH]; cbn [contains_bytes]; rewrite orb_true_iff, bool_decide_eq_true.
  - split; [intros [[k Hk]|]; [by exists [], k|done]|]. intros (x & y & H). left.
    symmetry in H. apply app_eq_nil in H as [_ H]. by exists y.
  - rewrite IH. split.
    + intros [[k ->]|(x & y & ->)]; [by exists [], k|by exists (b :: x), y].
    + intros ([|c x] & y & H); [left; by exists y|]. right. exists x, y. by injection H.
Qed.

Lemma Contains_within name word : Contains (normalizeIdentifier name) word = true <-> has_within word (identifier name).
Proof. unfold Contains. by rewrite contains_bytes_spec, identifier_normalize. Qed.

Lemma normalized_is name word : (normalizeIdentifier name =?= word) = true <-> identifier name = bytes word.
Proof.
  rewrite bool_decide_eq_true, <- identifier_normalize. split; [by intros ->|apply bytes_inj].
Qed.

Lemma referenceField_names name : referenceField (normalizeIdentifier name) = true <-> names_reference name.
Proof. unfold referenceField, names_reference. by rewrite !orb_true_iff, !HasSuffix_ends, normalized_is, (assoc or). Qed.

Lemma ends_in_self name word : identifier name = bytes word -> ends_in word (identifier name).
Proof. intros ->. by exists []. Qed.

Lemma ends_in_trans name word word' : bytes word' `suffix_of` bytes word ->
  ends_in word (identifier name) -> ends_in word' (identifier name).
Proof. intros [k Hk] [r Hr]. exists (r ++ k). by rewrite Hr, Hk, (assoc_L (++)). Qed.

Lemma excluded_terms_names name :
  existsb (fun term => (normalizeIdentifier name =?= term) || HasSuffix (normalizeIdentifier name) term) excluded_terms = true <->
  exists term, term ∈ excluded_terms /\ ends_in term (identifier name).
Proof.
  rewrite existsb_exists. split; intros (term & Ht & H); exists term; rewrite list_elem_of_In in *; (split; [done|]).
  - rewrite orb_true_iff, normalized_is, HasSuffix_ends in H. destruct H as [H|H]; [by apply ends_in_self|done].
  - by rewrite orb_true_iff, HasSuffix_ends; right.
Qed.

Lemma excludedField_names name : excludedField name = true <-> names_secret name.
Proof.
  unfold excludedField, names_secret. rewrite <- referenceField_names.
  destruct (normalizeIdentifier name =?= "") eqn:He; cbn [orb].
  - apply normalized_is in He. split; [done|]. rewrite He. intros [_ H]. exfalso.
    unfold has_within, begins_with, ends_in in H. destruct_or! H;
      repeat match type of H with exists _, _ => destruct H as [? H] end;
      apply (f_equal length) in H; rewrite ?length_app in H; cbn in H; lia.
  - destruct (referenceField _); [split; [done|by intros []]|].
    assert (Hn : ~ false = true) by done. rewrite <- (Contains_within name "credential"), <- (HasPrefix_begins name "secret").
    destruct (Contains _ _); cbn [orb]; [by split; [split; [|left]|]|].
    destruct (HasPrefix _ _); [by split; [split; [|right; left]|]|].
    rewrite excluded_terms_names. unfold excluded_terms. split.
    + intros (term & Ht & H). split; [done|]. rewrite !elem_of_cons, elem_of_nil in Ht.
      destruct_or! Ht; try done; subst term; try tauto;
        (apply (ends_in_trans _ _ "token") in H; [tauto|by eapply bool_decide_unpack; vm_compute]).
    + intros [_ H]. destruct_or! H; try done; eexists; (split; [|exact H]); set_solver.
Qed.

Lemma sensitiveIdentifier_names name : sensitiveIdentifier name = true <-> names_sensitive_entry name.
Proof.
  unfold sensitiveIdentifier, names_sensitive_entry. rewrite <- !Contains_within.
  destruct (normalizeIdentifier name =?= "") eqn:He.
  - apply bool_decide_eq_true in He. rewrite He. by vm_compute; split; [|intuition].
  - cbn [existsb sensitive_terms]. rewrite !orb_true_iff. intuition. done.
Qed.

Lemma exact_arguments_names parent : exact_arguments parent = true <-> identifier parent = bytes "exactarguments".
Proof. apply normalized_is. Qed.

Lemma dropped_credential parent o key : NoDup (map fst o) ->
  dropped parent (sensitive_named o) key = true <-> credential_member parent o key.
Proof.
  intros Hn. unfold dropped, credential_member. rewrite !orb_true_iff, !andb_true_iff, !orb_true_iff, !bool_decide_eq_true.
  rewrite excludedField_names, referenceField_names.
  assert (Hs : sensitive_named o = true <-> exists name, ("name", stringValue name) ∈ o /\ names_sensitive_entry name).
  { unfold sensitive_named. split.
    - destruct (member "name" o) as [[]|] eqn:E; try done. intros H%sensitiveIdentifier_names. apply member_some in E. by eexists.
    - intros (name & Hm & H). rewrite (member_elem _ _ _ Hn Hm). by apply sensitiveIdentifier_names. }
  rewrite Hs. naive_solver.
Qed.

(** *** Paths through the filter and the canonical order *)

Lemma safely_holds p v path x : holds_safely p v path x -> holds v path x.
Proof. induction 1; [done|by econstructor..]. Qed.

Lemma exact_safely p v path x : exact_arguments p = true -> holds_safely p v path x <-> holds v path x.
Proof. intros Hp%exact_arguments_names. split; [apply safely_holds|by apply safe_exact]. Qed.

Lemma scalar_safely p v path x : scalar v -> holds_safely p v path x <-> holds v path x.
Proof. intros Hv. split; [apply safely_holds|]. intros H. destruct H; try done. apply safe_here. Qed.

Lemma object_safely p o path x : exact_arguments p = false -> NoDup (map fst o) -> scalar x ->
  holds_safely p (objectValue o) path x <->
  exists key w rest, path = Field key :: rest /\ (key, w) ∈ o /\ dropped p (sensitive_named o) key = false /\ holds_safely key w rest x.
Proof.
  intros Hp Hn Hx. split.
  - intros H. inversion H as [? ? ? ? He| |? ? key w rest ? Hm Hc Hs|]; subst; [|done|].
    + apply exact_arguments_names in He. congruence.
    + exists key, w, rest. rewrite <- (dropped_credential p o key Hn), not_true_iff_false in Hc. done.
  - intros (key & w & rest & -> & Hm & Hc & Hs). eapply safe_field; [done| |done].
    by rewrite <- (dropped_credential p o key Hn), not_true_iff_false.
Qed.

Lemma array_safely p a path x : exact_arguments p = false -> scalar x ->
  holds_safely p (arrayValue a) path x <->
  exists i w rest, path = Index i :: rest /\ a !! i = Some w /\ holds_safely p w rest x.
Proof.
  intros Hp Hx. split.
  - intros H. inversion H as [? ? ? ? He| | |? ? i w rest ? Hm Hs]; subst; [|done|].
    + apply exact_arguments_names in He. congruence.
    + by exists i, w, rest.
  - intros (i & w & rest & -> & Hm & Hs). by eapply safe_index.
Qed.

Lemma object_holds o path x : scalar x ->
  holds (objectValue o) path x <-> exists key w rest, path = Field key :: rest /\ (key, w) ∈ o /\ holds w rest x.
Proof.
  intros Hx. split.
  - intros H. inversion H; subst; [done|]. by do 3 eexists.
  - intros (key & w & rest & -> & Hm & Hs). by econstructor.
Qed.

Lemma array_holds a path x : scalar x ->
  holds (arrayValue a) path x <-> exists i w rest, path = Index i :: rest /\ a !! i = Some w /\ holds w rest x.
Proof.
  intros Hx. split.
  - intros H. inversion H; subst; [done|]. by do 3 eexists.
  - intros (i & w & rest & -> & Hm & Hs). by econstructor.
Qed.

(** The filter leaves exactly the scalars that are held safely. *)
Lemma exclude_holds v : forall depth p path x, wf_value depth v = true -> scalar x ->
  holds (excludeCredentialMaterial v p) path x <-> holds_safely p v path x.
Proof.
  induction v as [|b|s|d|o IH|a IH] using value_induction; intros depth p path x Hw Hx;
    try (rewrite exclude_scalar, scalar_safely by done; done);
    (destruct (exact_arguments p) eqn:Hp; [by rewrite exclude_exact, exact_safely|]); rewrite Forall_forall in IH.
  - apply wf_object in Hw as (_ & Hn & Hw). rewrite exclude_object, object_safely, object_holds by done. split.
    + intros (key & w & rest & -> & Hm & Hh). apply keep_elem in Hm as ([k u] & Hu & Hd & [= -> ->]). cbn in Hd, Hh.
      exists k, u, rest. split_and!; [done..|]. eapply (IH _ Hu); [by apply (Hw _ Hu)|done|done].
    + intros (key & w & rest & -> & Hm & Hd & Hh). eexists key, _, rest. split_and!; [done| |].
      * apply keep_elem. exists (key, w). done.
      * eapply (IH _ Hm); [by apply (Hw _ Hm)|done|done].
  - apply wf_array in Hw as (_ & Hw). rewrite exclude_array, array_safely, array_holds by done. split.
    + intros (i & w & rest & -> & Hm & Hh). apply list_lookup_fmap_Some in Hm as (u & -> & Hm).
      pose proof (list_elem_of_lookup_2 _ _ _ Hm) as Hu. exists i, u, rest. split_and!; [done..|].
      eapply (IH _ Hu); [by apply Hw|done|done].
    + intros (i & w & rest & -> & Hm & Hh). eexists i, _, rest. split_and!; [done| |].
      * apply list_lookup_fmap_Some. by exists w.
      * pose proof (list_elem_of_lookup_2 _ _ _ Hm) as Hu. eapply (IH _ Hu); [by apply Hw|done|done].
Qed.

(** Canonical order moves no scalar to another path. *)
Lemma canon_holds v : forall depth path x, wf_value depth v = true -> scalar x -> holds (canon v) path x <-> holds v path x.
Proof.
  induction v as [|b|s|d|o IH|a IH] using value_induction; intros depth path x Hw Hx; try done; rewrite Forall_forall in IH.
  - apply wf_object in Hw as (_ & Hn & Hw). rewrite canon_object, !object_holds by done. split.
    + intros (key & w & rest & -> & Hm & Hh). apply list_elem_of_fmap in Hm as ([k u] & [= -> ->] & Hu%sorted_members_elem).
      exists k, u, rest. split_and!; [done..|]. eapply (IH _ Hu); [by apply (Hw _ Hu)|done|done].
    + intros (key & w & rest & -> & Hm & Hh). exists key, (canon w), rest. split_and!; [done| |].
      * apply list_elem_of_fmap. exists (key, w). split; [done|]. unfold sorted_members. by rewrite sort_on_perm.
      * eapply (IH _ Hm); [by apply (Hw _ Hm)|done|done].
  - apply wf_array in Hw as (_ & Hw). cbn [canon]. rewrite !array_holds by done. split.
    + intros (i & w & rest & -> & Hm & Hh). apply list_lookup_fmap_Some in Hm as (u & -> & Hm).
      pose proof (list_elem_of_lookup_2 _ _ _ Hm) as Hu. exists i, u, rest. split_and!; [done..|].
      eapply (IH _ Hu); [by apply Hw|done|done].
    + intros (i & w & rest & -> & Hm & Hh). exists i, (canon w), rest. split_and!; [done| |].
      * apply list_lookup_fmap_Some. by exists w.
      * pose proof (list_elem_of_lookup_2 _ _ _ Hm) as Hu. eapply (IH _ Hu); [by apply Hw|done|done].
Qed.

Lemma clean_holds v path x : holds v path x -> forall depth p, wf_value depth v = true -> clean p v = true -> holds_safely p v path x.
Proof.
  induction 1 as [x|o key w path x Hm Hh IH|a i w path x Hm Hh IH]; intros depth p Hw Hc; [apply safe_here|..];
    (destruct (exact_arguments p) eqn:Hp; [rewrite exact_safely by done; by econstructor|]); cbn [clean] in Hc;
    rewrite Hp in Hc; cbn [orb] in Hc; rewrite forallb_true, Forall_forall in Hc.
  - apply wf_object in Hw as (_ & Hn & Hw). apply Hc in Hm as Hd. apply andb_true_iff in Hd as [Hd%negb_true_iff Hk].
    eapply safe_field; [done| |by eapply IH; [apply (Hw _ Hm)|]].
    by rewrite <- (dropped_credential p o key Hn), not_true_iff_false.
  - pose proof (list_elem_of_lookup_2 _ _ _ Hm) as Hu. apply wf_array in Hw as (_ & Hw).
    eapply safe_index; [done|]. by eapply IH; [apply Hw|apply Hc].
Qed.

(** C31. A canonical specification is its document without the credential
    material.  [s] has a document that parses to [u] and the canonical bytes to
    [v].  Every part of [v] is reached without passing a member that carries
    credential material: one with a credential name (a password, token, key,
    secret, ...) that is not the name of a reference, an inlined value beside a
    reference, or the value of a sensitively named entry.  The arguments below an
    [exactArguments] key are exempt: they are policy and kept as they are.  The
    scalars of [v] are exactly those [u] holds at such paths, so nothing else is
    lost or added; and the canonical form is its own canonical form. *)
Theorem canonical_spec_clean s c (H : CanonicalizeResolvedSpec s = Ok c) :
  exists raw u v, resolvedSpecJSON s = Ok raw /\ parse raw = Ok u /\ parse c = Ok v /\
    (forall path x, holds v path x -> holds_safely "" v path x) /\
    (forall path x, scalar x -> holds v path x <-> holds_safely "" u path x) /\
    CanonicalizeResolvedSpec (SpecDocument c) = Ok c.
Proof.
  unfold CanonicalizeResolvedSpec in *. destruct (resolvedSpecJSON s) as [raw|]; [|done]. cbn [result_bind resolvedSpecJSON] in *.
  apply canonicalize_ok in H as (u & Eu & Hn & -> & Hv). set (f := excludeCredentialMaterial u "") in *.
  pose proof (exclude_wf u 0 "" (parse_wf _ _ Eu)) as Hw. fold f in Hw.
  pose proof (canonical_parse f Hw Hn Hv) as Hp. assert (Hc : clean "" (canon f) = true).
  { apply clean_canon; [done|]. apply exclude_clean. }
  exists raw, u, (canon f). split_and!; [done..| | |].
  - intros path x Hx. eapply clean_holds; [done|by eapply parse_wf|done].
  - intros path x Hx. rewrite (canon_holds f 0) by done. by eapply exclude_holds; [eapply parse_wf|].
  - apply canonicalize_ok. exists (canon f). rewrite (clean_exclude _ _ Hc), (numbers_valid_canon f 0 Hw).
    split_and!; [done..| |done]. eapply write_canon_eq; [exact Hw|by eapply parse_wf|]. symmetry. by eapply canon_idem.
Qed.

Lemma canonical_spec_clean_witness :
  exists c v, CanonicalizeResolvedSpec (SpecDocument (doc "{'z':1.0,'apiToken':'x'}")) = Ok c /\ parse c = Ok v /\
    (forall path x, holds v path x -> holds_safely "" v path x) /\
    CanonicalizeResolvedSpec (SpecDocument c) = Ok c.
Proof.
  destruct (CanonicalizeResolvedSpec (SpecDocument (doc "{'z':1.0,'apiToken':'x'}"))) as [c|e] eqn:E; [|vm_compute in E; discriminate E].
  destruct (canonical_spec_clean _ c E) as (raw & u & v & _ & _ & Hv & Hs & _ & Hc). by exists c, v.
Defined.

(** The canonical form, and so the digest, depends only on what the
    document says: documents that are [Equal] (other member order, spacing,
    escapes or spelling of numbers) have the same canonical bytes and the same
    digest, or fail alike. *)
Theorem canonical_spec_stable raw raw' (H : Equal raw raw' = true) :
  CanonicalizeResolvedSpec (SpecDocument raw) = CanonicalizeResolvedSpec (SpecDocument raw') /\
  ResolvedSpecDigest (SpecDocument raw) = ResolvedSpecDigest (SpecDocument raw').
Proof.
  assert (Hc : canonicalize raw = canonicalize raw');
    [|unfold ResolvedSpecDigest, CanonicalizeResolvedSpec; cbn [resolvedSpecJSON result_bind]; by rewrite Hc].
  unfold Equal in H. destruct (parse raw) as [v|] eqn:Ev; [|done]. destruct (parse raw') as [w|] eqn:Ew; [|done].
  pose proof (parse_wf _ _ Ev) as Wv. pose proof (parse_wf _ _ Ew) as Ww.
  apply (equalValue_canon v w 0 0 Wv Ww) in H.
  set (f := excludeCredentialMaterial v ""). set (g := excludeCredentialMaterial w "").
  assert (Hf : wf_value 0 f = true) by (by apply exclude_wf). assert (Hg : wf_value 0 g = true) by (by apply exclude_wf).
  assert (Hfg : canon f = canon g) by (unfold f, g; rewrite !(canon_exclude _ 0) by done; by rewrite H).
  assert (Hwr : writeValue f = writeValue g) by (by eapply write_canon_eq).
  assert (Hnv : numbers_valid f = numbers_valid g)
    by (rewrite <- (numbers_valid_canon f 0 Hf), <- (numbers_valid_canon g 0 Hg); by rewrite Hfg).
  assert (Hdoc : forall d u, parse d = Ok u -> (slen d =? 0) || negb (valid_utf8 d) = false).
  { intros d u Hd. unfold parse in Hd. destruct (_ || _) eqn:E in Hd; [done|]. rewrite !orb_false_iff in E.
    destruct E as [[E1 _] E2]. by rewrite E1, E2. }
  unfold canonicalize. rewrite (Hdoc _ _ Ev), (Hdoc _ _ Ew). unfold Validate. rewrite Ev, Ew.
  cbn [result_bind]. fold f g. pose proof (writeCanonical_spec f 0 Hf) as Sf. pose proof (writeCanonical_spec g 0 Hg) as Sg.
  rewrite Hnv in Sf. destruct (numbers_valid g).
  - rewrite Sf, Sg. by rewrite Hwr.
  - by rewrite Sf, Sg.
Qed.

Lemma canonical_spec_stable_witness :
  ResolvedSpecDigest (SpecDocument (doc "{'b':1.0,'a':'x'}")) =
  ResolvedSpecDigest (SpecDocument (doc "{ 'a':'x', 'b':10e-1 }")).
Proof.
  apply (canonical_spec_stable (doc "{'b':1.0,'a':'x'}") (doc "{ 'a':'x', 'b':10e-1 }")). vm_compute. reflexivity.
Defined.
