(* ===== verification/Store.v ===== *)
(** * Programs over the object store

    The ledger and the retention applier run against an object store with a
    strong conditional create, and a clock.  A call is a tree of its requests:
    each node is one request, with the continuation for every response, so that
    calls of different callers interleave at every request. *)

From S2P Require Import Prelude GoStrings GoTime.
Local Open Scope go_scope.
Local Open Scope string_scope.
Local Open Scope Z_scope.
Local Open Scope list_scope.

(** The errors callers tell apart: the object is absent, the deletion
    precondition does not hold, and any other failure, after which the request
    may or may not have taken effect. *)
Inductive store_error : Type := NotFound | FenceConflict | Unavailable.
#[global] Instance store_error_eq_dec : EqDecision store_error.
Proof. solve_decision. Defined.

(** [Now] is [clock().UTC()]. *)
Definition utc (t : Time) : bool := civil t && (Zone t =? 0).

Inductive prog (A : Type) : Type :=
| Ret (a : A)
| Now (k : Time -> prog A)
| Create (key : string) (body : list Z) (k : result store_error bool -> prog A)
| Get (key : string) (k : result store_error (list Z) -> prog A)
| Delete (key etag : string) (k : result store_error unit -> prog A)
| DeleteChild (kind namespace name uid : string) (k : result store_error unit -> prog A).
Arguments Ret {A} _.
Arguments Now {A} _.
Arguments Create {A} _ _ _.
Arguments Get {A} _ _.
Arguments Delete {A} _ _ _.
Arguments DeleteChild {A} _ _ _ _ _.

Fixpoint prog_bind {A B : Type} (m : prog A) (f : A -> prog B) : prog B :=
  match m with
  | Ret a => f a
  | Now k => Now (fun t => prog_bind (k t) f)
  | Create key body k => Create key body (fun r => prog_bind (k r) f)
  | Get key k => Get key (fun r => prog_bind (k r) f)
  | Delete key etag k => Delete key etag (fun r => prog_bind (k r) f)
  | DeleteChild kind ns name uid k => DeleteChild kind ns name uid (fun r => prog_bind (k r) f)
  end.

Notation "'let!' x := m 'in' k" := (prog_bind m (fun x => k))
  (at level 200, x pattern, m at level 100, k at level 200, right associativity) : go_scope.

(** ** The store *)

(** Objects by key. *)
Notation store := (gmap string (list Z)).

(** What a request may answer, and the store after it.  A create answers [true]
    only if it created the object and [false] only if one was there; a read
    answers [NotFound] only if there is none; after [Unavailable] the request may
    have taken effect. *)
Inductive responds {A : Type} : prog A -> store -> prog A -> store -> Prop :=
| responds_now k t s : utc t = true -> responds (Now k) s (k t) s
| responds_created key body k s :
    s !! key = None -> responds (Create key body k) s (k (Ok true)) (<[key := body]> s)
| responds_exists key body k s :
    is_Some (s !! key) -> responds (Create key body k) s (k (Ok false)) s
| responds_create_error key body k s e : responds (Create key body k) s (k (Err e)) s
| responds_create_ambiguous key body k s e :
    s !! key = None -> responds (Create key body k) s (k (Err e)) (<[key := body]> s)
| responds_read key body k s :
    s !! key = Some body -> responds (Get key k) s (k (Ok body)) s
| responds_absent key k s : s !! key = None -> responds (Get key k) s (k (Err NotFound)) s
| responds_read_error key k s e : e <> NotFound -> responds (Get key k) s (k (Err e)) s
| responds_deleted key etag k s : responds (Delete key etag k) s (k (Ok tt)) (delete key s)
| responds_delete_error key etag k s e : responds (Delete key etag k) s (k (Err e)) s
| responds_delete_ambiguous key etag k s e : responds (Delete key etag k) s (k (Err e)) (delete key s)
| responds_child kind ns name uid k s r : responds (DeleteChild kind ns name uid k) s (k r) s.

(** An undisturbed run against a reachable store, with the clock at [now]. *)
Fixpoint run {A : Type} (now : Time) (m : prog A) (s : store) : A * store :=
  match m with
  | Ret a => (a, s)
  | Now k => run now (k now) s
  | Create key body k =>
    match s !! key with
    | Some _ => run now (k (Ok false)) s
    | None => run now (k (Ok true)) (<[key := body]> s)
    end
  | Get key k =>
    match s !! key with
    | Some body => run now (k (Ok body)) s
    | None => run now (k (Err NotFound)) s
    end
  | Delete key etag k =>
    match s !! key with
    | Some _ => run now (k (Ok tt)) (delete key s)
    | None => run now (k (Err NotFound)) s
    end
  | DeleteChild _ _ _ _ k => run now (k (Ok tt)) s
  end.

Lemma run_bind {A B : Type} now (m : prog A) (f : A -> prog B) s :
  run now (prog_bind m f) s = run now (f (run now m s).1) (run now m s).2.
Proof.
  revert s. induction m as [a|k IH|key body k IH|key k IH|key etag k IH|kd ns nm uid k IH]; intros s; cbn [prog_bind run];
    try done; try apply IH; destruct (s !! key); apply IH.
Qed.
