(* ===== verification/Effects.v ===== *)
(** * The effect ledger (src/v3/internal/effects/ledger.go)

    Before an externally visible mutation a caller creates a durable claim in the
    object store; only the caller whose create succeeded may perform the
    mutation.  The outcome is recorded once, and a tombstone fences a pair that
    retention retires.  The methods are those of a ledger made by [New], whose
    store is set; a nil receiver is not a value of [Ledger]. *)

From stdpp Require Import pretty.
From S2P Require Import Prelude GoStrings Digest Digits GoJson GoTime StrictJson Canonical Store.
Local Open Scope go_scope.
Local Open Scope string_scope.
Local Open Scope Z_scope.
Local Open Scope list_scope.

Definition SchemaVersion : Z := 1.
Definition MaxLedgerBodyBytes : Z := Z.shiftl 64 10.
Definition TombstonesSegment : string := "tombstones".

Inductive error : Type :=
| ErrInvalidInput
| ErrConflict
| ErrUnknown
| ErrCorrupt
| ErrStore (e : store_error)
| ErrCanonical (e : Canonical.error).

(** ** Records *)

Record Claim : Type := MkClaim {
  Claim_SchemaVersion : Z;
  Claim_EffectKey : string;
  Claim_RequestDigest : string;
  Claim_Operation : string;
  Claim_RunUID : string;
  Claim_CreatedAt : Time
}.

Definition OutcomeSucceeded : string := "succeeded".
Definition OutcomeFailed : string := "failed".
Definition OutcomeUnknown : string := "unknown".

Record Outcome : Type := MkOutcome {
  Outcome_SchemaVersion : Z;
  Outcome_EffectKey : string;
  Outcome_RequestDigest : string;
  Outcome_RunUID : string;
  Outcome_State : string;
  Outcome_ResultDigest : string;
  Outcome_ResultRef : string;
  Outcome_RecordedAt : Time
}.

Record Tombstone : Type := MkTombstone {
  Tombstone_SchemaVersion : Z;
  Tombstone_EffectKey : string;
  Tombstone_RequestDigest : string;
  Tombstone_Operation : string;
  Tombstone_RunUID : string;
  Tombstone_State : string;
  Tombstone_RetiredAt : Time
}.

Record ClaimDecision : Type := MkDecision { Execute : bool; Unknown : bool; Decision_Claim : option Claim }.

Record Ledger : Type := MkLedger { prefix : string }.

(** ** Identifiers *)

Definition safeIdentifier (value : string) (max : Z) : bool :=
  (value !=? "") && (len value <=? max) && negb (existsb (fun b => (b =? 0) || (b =? 0x0D) || (b =? 0x0A)) (bytes value)).

Definition safeSegment (value : string) : bool :=
  if negb (safeIdentifier value 128) || (value =?= ".") || (value =?= "..") then false
  else forallb (fun r => between 0x61 0x7A r || between 0x41 0x5A r || is_digit r || (r =? 0x2E) || (r =? 0x5F) || (r =? 0x2D))
         (runes value).

Definition New (store_set : bool) (p : string) : result error Ledger :=
  if negb store_set then Err ErrInvalidInput
  else
    let p := Trim p slash in
    let p := if p =?= "" then "effects" else p in
    if negb (forallb safeSegment (Split p slash)) then Err ErrInvalidInput else Ok (MkLedger p).

Definition nul : list Z := [0].

Definition EffectKey (runUID baseSHA patchDigest operation : string) : result error string :=
  if negb (safeIdentifier runUID 128) || negb (safeIdentifier baseSHA 128) ||
     negb (ValidDigest patchDigest) || negb (safeIdentifier operation 128) then Err ErrInvalidInput
  else Ok (digestBytes
    (bytes runUID ++ nul ++ bytes baseSHA ++ nul ++ bytes patchDigest ++ nul ++ bytes operation)).

Definition validClaim (claim : Claim) : bool :=
  ValidDigest (Claim_EffectKey claim) && ValidDigest (Claim_RequestDigest claim) &&
  safeIdentifier (Claim_Operation claim) 128 && safeIdentifier (Claim_RunUID claim) 128.

Definition validOutcome (outcome : Outcome) : bool :=
  if negb (ValidDigest (Outcome_EffectKey outcome)) || negb (ValidDigest (Outcome_RequestDigest outcome)) then false
  else if negb ((Outcome_State outcome =?= OutcomeSucceeded) || (Outcome_State outcome =?= OutcomeFailed) ||
                (Outcome_State outcome =?= OutcomeUnknown)) then false
  else (Outcome_ResultDigest outcome =?= "") || ValidDigest (Outcome_ResultDigest outcome).

Definition validTombstone (tombstone : Tombstone) : bool :=
  if negb (ValidDigest (Tombstone_EffectKey tombstone)) || negb (ValidDigest (Tombstone_RequestDigest tombstone)) ||
     negb (safeIdentifier (Tombstone_Operation tombstone) 128) || negb (safeIdentifier (Tombstone_RunUID tombstone) 128) ||
     IsZero (Tombstone_RetiredAt tombstone) then false
  else (Tombstone_State tombstone =?= OutcomeSucceeded) || (Tombstone_State tombstone =?= OutcomeFailed).

(** ** Encoding *)

(** A time that has no JSON form makes [json.Marshal] of its struct fail. *)
Definition json_time (name : string) (t : Time) : option (string * json) :=
  s ← MarshalTime t; Some (name, JString s).

Definition claim_json (c : Claim) : option json :=
  created ← json_time "createdAt" (Claim_CreatedAt c);
  Some (JObject [("schemaVersion", JInt (Claim_SchemaVersion c)); ("effectKey", JString (Claim_EffectKey c));
    ("requestDigest", JString (Claim_RequestDigest c)); ("operation", JString (Claim_Operation c));
    ("runUID", JString (Claim_RunUID c)); created]).

Definition outcome_json (o : Outcome) : option json :=
  recorded ← json_time "recordedAt" (Outcome_RecordedAt o);
  Some (JObject ([("schemaVersion", JInt (Outcome_SchemaVersion o)); ("effectKey", JString (Outcome_EffectKey o));
    ("requestDigest", JString (Outcome_RequestDigest o))] ++ omit_empty "runUID" (Outcome_RunUID o) ++
    [("state", JString (Outcome_State o))] ++ omit_empty "resultDigest" (Outcome_ResultDigest o) ++
    omit_empty "resultRef" (Outcome_ResultRef o) ++ [recorded])).

Definition tombstone_json (t : Tombstone) : option json :=
  retired ← json_time "retiredAt" (Tombstone_RetiredAt t);
  Some (JObject [("schemaVersion", JInt (Tombstone_SchemaVersion t)); ("effectKey", JString (Tombstone_EffectKey t));
    ("requestDigest", JString (Tombstone_RequestDigest t)); ("operation", JString (Tombstone_Operation t));
    ("runUID", JString (Tombstone_RunUID t)); ("state", JString (Tombstone_State t)); retired]).

Definition canonicalJSON (value : option json) : result error (list Z) :=
  match CanonicalizeResolvedSpec (SpecValue (option_map Marshal value)) with
  | Ok body => Ok body
  | Err e => Err (ErrCanonical e)
  end.

(** ** Decoding *)

(** The members of a strict document, and the fields of a struct among them.  A
    missing field or a null keeps the zero value; a name that is not a field is
    refused.  [encoding/json] also matches names in another case and refuses
    integers with a fraction or an exponent; the callers compare the document
    with the canonical bytes of what was read, which differ in these cases. *)
Definition decodeStrict (body : list Z) (fields : list string) : result error (list (string * Value)) :=
  if (slen body =? 0) || (MaxLedgerBodyBytes <? slen body) || negb (is_ok (ValidateObject body)) then Err ErrCorrupt
  else match parse body with
  | Ok (objectValue o) => if forallb (fun m => existsb (String.eqb m.1) fields) o then Ok o else Err ErrCorrupt
  | _ => Err ErrCorrupt
  end.

Definition string_field (name : string) (o : list (string * Value)) : option string :=
  match member name o with
  | None | Some nullValue => Some ""
  | Some (stringValue s) => Some s
  | _ => None
  end.

Definition int_field (name : string) (o : list (string * Value)) : option Z :=
  match member name o with
  | None | Some nullValue => Some 0
  | Some (numberValue d) =>
    if exponent d <? 0 then None
    else let n := digits_val (significand d) * 10 ^ exponent d in Some (if negative d then - n else n)
  | _ => None
  end.

Definition time_field (name : string) (o : list (string * Value)) : option Time :=
  match member name o with
  | None | Some nullValue => Some zeroTime
  | Some (stringValue s) => UnmarshalTime s
  | _ => None
  end.

Definition claim_fields : list string := ["schemaVersion"; "effectKey"; "requestDigest"; "operation"; "runUID"; "createdAt"].
Definition outcome_fields : list string :=
  ["schemaVersion"; "effectKey"; "requestDigest"; "runUID"; "state"; "resultDigest"; "resultRef"; "recordedAt"].
Definition tombstone_fields : list string :=
  ["schemaVersion"; "effectKey"; "requestDigest"; "operation"; "runUID"; "state"; "retiredAt"].

Definition decode_claim (o : list (string * Value)) : option Claim :=
  version ← int_field "schemaVersion" o; key ← string_field "effectKey" o; digest ← string_field "requestDigest" o;
  operation ← string_field "operation" o; uid ← string_field "runUID" o; created ← time_field "createdAt" o;
  Some (MkClaim version key digest operation uid created).

Definition decode_outcome (o : list (string * Value)) : option Outcome :=
  version ← int_field "schemaVersion" o; key ← string_field "effectKey" o; digest ← string_field "requestDigest" o;
  uid ← string_field "runUID" o; state ← string_field "state" o; result ← string_field "resultDigest" o;
  ref ← string_field "resultRef" o; recorded ← time_field "recordedAt" o;
  Some (MkOutcome version key digest uid state result ref recorded).

Definition decode_tombstone (o : list (string * Value)) : option Tombstone :=
  version ← int_field "schemaVersion" o; key ← string_field "effectKey" o; digest ← string_field "requestDigest" o;
  operation ← string_field "operation" o; uid ← string_field "runUID" o; state ← string_field "state" o;
  retired ← time_field "retiredAt" o;
  Some (MkTombstone version key digest operation uid state retired).

Definition same_bytes (body : list Z) (encoded : result error (list Z)) : bool :=
  match encoded with Ok canonicalBody => body =?= canonicalBody | Err _ => false end.

Definition DecodeClaim (body : list Z) : result error Claim :=
  let? o := decodeStrict body claim_fields in
  match decode_claim o with
  | None => Err ErrCorrupt
  | Some claim =>
    if negb (Claim_SchemaVersion claim =? SchemaVersion) || negb (validClaim claim) || IsZero (Claim_CreatedAt claim)
    then Err ErrCorrupt
    else if negb (same_bytes body (canonicalJSON (claim_json claim))) then Err ErrCorrupt
    else Ok claim
  end.

Definition DecodeOutcome (body : list Z) : result error Outcome :=
  let? o := decodeStrict body outcome_fields in
  match decode_outcome o with
  | None => Err ErrCorrupt
  | Some outcome =>
    if negb (Outcome_SchemaVersion outcome =? SchemaVersion) || negb (validOutcome outcome) || IsZero (Outcome_RecordedAt outcome)
    then Err ErrCorrupt
    else if negb (same_bytes body (canonicalJSON (outcome_json outcome))) then Err ErrCorrupt
    else Ok outcome
  end.

Definition DecodeTombstone (body : list Z) : result error Tombstone :=
  let? o := decodeStrict body tombstone_fields in
  match decode_tombstone o with
  | None => Err ErrCorrupt
  | Some tombstone =>
    if negb (Tombstone_SchemaVersion tombstone =? SchemaVersion) || negb (validTombstone tombstone) then Err ErrCorrupt
    else if negb (same_bytes body (canonicalJSON (tombstone_json tombstone))) then Err ErrCorrupt
    else Ok tombstone
  end.

Definition EncodeTombstone (tombstone : Tombstone) : result error (list Z) :=
  let t := if Tombstone_SchemaVersion tombstone =? 0
           then MkTombstone SchemaVersion (Tombstone_EffectKey tombstone) (Tombstone_RequestDigest tombstone)
                  (Tombstone_Operation tombstone) (Tombstone_RunUID tombstone) (Tombstone_State tombstone)
                  (Tombstone_RetiredAt tombstone)
           else tombstone in
  if negb (Tombstone_SchemaVersion t =? SchemaVersion) || negb (validTombstone t) then Err ErrCorrupt
  else canonicalJSON (tombstone_json t).

(** ** Keys *)

Definition digestHex (digest : string) : string := TrimPrefix digest DigestPrefix.
Definition claimKey (l : Ledger) (effectKey : string) : string :=
  prefix l +:+ "/claims/" +:+ digestHex effectKey +:+ ".json".
Definition outcomeKey (l : Ledger) (effectKey : string) : string :=
  prefix l +:+ "/outcomes/" +:+ digestHex effectKey +:+ ".json".
Definition tombstoneKey (l : Ledger) (effectKey : string) : string :=
  prefix l +:+ "/" +:+ TombstonesSegment +:+ "/" +:+ digestHex effectKey +:+ ".json".

(** ** Calls *)

Definition tombstoneExists (l : Ledger) (effectKey : string) : prog (result error bool) :=
  if negb (ValidDigest effectKey) then Ret (Err ErrInvalidInput)
  else Get (tombstoneKey l effectKey) (fun r =>
    match r with
    | Err NotFound => Ret (Ok false)
    | Err e => Ret (Err (ErrStore e))
    | Ok body =>
      match DecodeTombstone body with
      | Err _ => Ret (Err ErrCorrupt)
      | Ok tombstone => if Tombstone_EffectKey tombstone !=? effectKey then Ret (Err ErrCorrupt) else Ret (Ok true)
      end
    end).

Definition readClaim (key : string) : prog (result error Claim) :=
  Get key (fun r =>
    match r with
    | Err e => Ret (Err (ErrStore e))
    | Ok body => match DecodeClaim body with Err _ => Ret (Err ErrCorrupt) | Ok claim => Ret (Ok claim) end
    end).

Definition ReadOutcome (l : Ledger) (effectKey requestDigest : string) : prog (result error Outcome) :=
  if negb (ValidDigest effectKey) || negb (ValidDigest requestDigest) then Ret (Err ErrInvalidInput)
  else Get (outcomeKey l effectKey) (fun r =>
    match r with
    | Err e => Ret (Err (ErrStore e))
    | Ok body =>
      match DecodeOutcome body with
      | Err _ => Ret (Err ErrCorrupt)
      | Ok outcome =>
        if (Outcome_EffectKey outcome !=? effectKey) || (Outcome_RequestDigest outcome !=? requestDigest)
        then Ret (Err ErrCorrupt) else Ret (Ok outcome)
      end
    end).

(** A claim is answered with a decision and an error. *)
Definition refused (e : error) : prog (ClaimDecision * option error) :=
  Ret (MkDecision false false None, Some e).
Definition unknown (claim : Claim) : prog (ClaimDecision * option error) :=
  Ret (MkDecision false true (Some claim), Some ErrUnknown).

(** The fence check of [Claim], which refuses on an error and answers unknown
    for [claim] when the tombstone is there. *)
Definition unless_fenced (l : Ledger) (effectKey : string) (claim : Claim)
  (k : prog (ClaimDecision * option error)) : prog (ClaimDecision * option error) :=
  let! tombstoned := tombstoneExists l effectKey in
  match tombstoned with
  | Err e => refused e
  | Ok true => unknown claim
  | Ok false => k
  end.

Definition set_created (claim : Claim) (now : Time) : Claim :=
  MkClaim SchemaVersion (Claim_EffectKey claim) (Claim_RequestDigest claim) (Claim_Operation claim) (Claim_RunUID claim) now.

(** What [Claim] does when a claim is already there. *)
Definition claim_existing (l : Ledger) (claim : Claim) : prog (ClaimDecision * option error) :=
  let! read := readClaim (claimKey l (Claim_EffectKey claim)) in
  match read with
  | Err e => refused e
  | Ok existing =>
    if (Claim_EffectKey existing !=? Claim_EffectKey claim) || (Claim_RequestDigest existing !=? Claim_RequestDigest claim) ||
       (Claim_Operation existing !=? Claim_Operation claim) || (Claim_RunUID existing !=? Claim_RunUID claim)
    then refused ErrConflict
    else
      unless_fenced l (Claim_EffectKey claim) existing
        (let! outcome := ReadOutcome l (Claim_EffectKey claim) (Claim_RequestDigest claim) in
         match outcome with
         | Ok existingOutcome =>
           unless_fenced l (Claim_EffectKey claim) existing
             (if Outcome_State existingOutcome =?= OutcomeUnknown then unknown existing
              else Ret (MkDecision false false (Some existing), None))
         | Err (ErrStore NotFound) => unknown existing
         | Err e => refused e
         end)
  end.

Definition Ledger_Claim (l : Ledger) (claim : Claim) : prog (ClaimDecision * option error) :=
  if negb (validClaim claim) then refused ErrInvalidInput
  else
    unless_fenced l (Claim_EffectKey claim) claim
      (Now (fun now =>
        let claim := set_created claim now in
        if IsZero (Claim_CreatedAt claim) then refused ErrInvalidInput
        else
          match canonicalJSON (claim_json claim) with
          | Err e => refused e
          | Ok body =>
            Create (claimKey l (Claim_EffectKey claim)) body (fun created =>
              match created with
              | Err e => refused (ErrStore e)
              | Ok true =>
                unless_fenced l (Claim_EffectKey claim) claim (Ret (MkDecision true false (Some claim), None))
              | Ok false => claim_existing l claim
              end)
          end)).

Definition commit_unless_fenced (l : Ledger) (effectKey : string) (k : prog (option error)) : prog (option error) :=
  let! tombstoned := tombstoneExists l effectKey in
  match tombstoned with
  | Err e => Ret (Some e)
  | Ok true => Ret (Some ErrUnknown)
  | Ok false => k
  end.

Definition set_recorded (outcome : Outcome) (uid : string) (now : Time) : Outcome :=
  MkOutcome SchemaVersion (Outcome_EffectKey outcome) (Outcome_RequestDigest outcome) uid (Outcome_State outcome)
    (Outcome_ResultDigest outcome) (Outcome_ResultRef outcome) now.

(** [Commit] answers its error, if any. *)
Definition Ledger_Commit (l : Ledger) (outcome : Outcome) : prog (option error) :=
  if negb (validOutcome outcome) then Ret (Some ErrInvalidInput)
  else
    let effectKey := Outcome_EffectKey outcome in
    commit_unless_fenced l effectKey
      (let! read := readClaim (claimKey l effectKey) in
       match read with
       | Err e => Ret (Some e)
       | Ok claim =>
         if Claim_RequestDigest claim !=? Outcome_RequestDigest outcome then Ret (Some ErrConflict)
         else if (Outcome_RunUID outcome !=? "") && (Outcome_RunUID outcome !=? Claim_RunUID claim) then Ret (Some ErrConflict)
         else
           Now (fun now =>
             let outcome := set_recorded outcome (Claim_RunUID claim) now in
             if IsZero (Outcome_RecordedAt outcome) then Ret (Some ErrInvalidInput)
             else
               match canonicalJSON (outcome_json outcome) with
               | Err e => Ret (Some e)
               | Ok body =>
                 Create (outcomeKey l effectKey) body (fun created =>
                   match created with
                   | Err e => Ret (Some (ErrStore e))
                   | Ok true => commit_unless_fenced l effectKey (Ret None)
                   | Ok false =>
                     let! read := ReadOutcome l effectKey (Outcome_RequestDigest outcome) in
                     match read with
                     | Err e => Ret (Some e)
                     | Ok existing =>
                       if Outcome_RunUID existing !=? Claim_RunUID claim then Ret (Some ErrConflict)
                       else if (Outcome_State existing !=? Outcome_State outcome) ||
                               (Outcome_ResultDigest existing !=? Outcome_ResultDigest outcome) ||
                               (Outcome_ResultRef existing !=? Outcome_ResultRef outcome) then Ret (Some ErrConflict)
                       else commit_unless_fenced l effectKey (Ret None)
                     end
                   end)
               end)
       end).
