(* ===== verification/EffectsCodec.v ===== *)
(** * The effect ledger: records read back

    The ledger's records and the publisher's result are JSON objects with fixed
    names whose values are strings and small positive integers: such a record is
    written canonically and its fields read back.  What [canonicalJSON] writes of a
    claim, an outcome or a tombstone is read back by its decoder, and nothing else
    decodes to it. *)

From stdpp Require Import pretty.
From S2P Require Import Prelude Order GoStrings Utf8 Digest Digits GoTime GoJson UnmarshalSpec StrictJson StrictJsonSpec StrictJsonEqual.
From S2P Require Import StrictJsonNumbers StrictJsonCanon StrictJsonRoundTrip StrictJsonMarshal Canonical CanonicalSpec Store Effects.
Local Open Scope go_scope.
Local Open Scope string_scope.
Local Open Scope Z_scope.
Local Open Scope list_scope.

(** ** Flat records *)

(** The version number of every record, as the strict parser reads it. *)
Definition one : decimal := {| negative := false; significand := [0x31]; exponent := 0 |}.

Definition flat_value (j : json) : Value :=
  match j with
  | JString s => stringValue s
  | JInt _ => numberValue one
  | _ => nullValue
  end.
Definition flat_values (fields : list (string * json)) : list (string * Value) :=
  map (fun f => (f.1, flat_value f.2)) fields.

Definition record_names : list string :=
  ["schemaVersion"; "effectKey"; "requestDigest"; "operation"; "runUID"; "createdAt"; "state"; "resultDigest";
   "resultRef"; "recordedAt"; "retiredAt"].

(** Distinct names of the records, the version and strings within the contract. *)
Definition flat (fields : list (string * json)) : Prop :=
  NoDup (map fst fields) /\
  Forall (fun f => f.1 ∈ record_names /\ (f.2 = JInt 1 \/ exists s, f.2 = JString s /\ wf_string s = true)) fields.

Lemma record_name_ok n : n ∈ record_names ->
  dropped "" false n = false /\ wf_string n = true /\ n <> "name" /\ len n <= 13.
Proof.
  assert (H : forallb (fun n => negb (dropped "" false n) && wf_string n && (n !=? "name") && (len n <=? 13)) record_names = true)
    by (vm_compute; reflexivity).
  rewrite forallb_true, Forall_forall in H. intros Hn. specialize (H n Hn).
  rewrite !andb_true_iff, !negb_true_iff, bool_decide_eq_false, Z.leb_le in H. tauto.
Qed.

Lemma flat_keys fields : map fst (flat_values fields) = map fst fields.
Proof. unfold flat_values. by rewrite map_map. Qed.

Lemma flat_elem fields m : flat fields -> m ∈ flat_values fields ->
  m.1 ∈ record_names /\ (m.2 = numberValue one \/ exists s, m.2 = stringValue s /\ wf_string s = true).
Proof.
  intros [_ Hf] Hm. rewrite Forall_forall in Hf. apply list_elem_of_fmap in Hm as (f & -> & Hm).
  destruct (Hf _ Hm) as [Hk [Hj|(s & Hj & Hs)]]; cbn; rewrite Hj; eauto.
Qed.

Lemma flat_length fields : flat fields -> slen fields <= 11.
Proof.
  intros [Hn Hf]. rewrite Forall_forall in Hf. unfold slen. rewrite <- (length_map fst).
  assert (Hi : map fst fields ⊆+ record_names).
  { apply NoDup_submseteq; [done|]. intros n (f & -> & Hm)%list_elem_of_fmap. by apply Hf. }
  apply submseteq_length in Hi. cbn in Hi. lia.
Qed.

Lemma flat_wf fields : flat fields -> wf_value 0 (objectValue (flat_values fields)) = true.
Proof.
  intros H. rewrite wf_value_unfold, !andb_true_iff, bool_decide_eq_true, forallb_true, !Z.leb_le.
  split_and!; [done| |rewrite flat_keys; apply H|].
  - unfold slen, flat_values. rewrite length_map. pose proof (flat_length _ H). unfold slen, maxObjectMembers in *. lia.
  - apply Forall_forall. intros m Hm. destruct (flat_elem _ _ H Hm) as [Hk Hv].
    destruct (record_name_ok _ Hk) as (_ & -> & _). destruct Hv as [-> |(s & -> & Hs)]; [done|].
    rewrite wf_value_unfold. by rewrite Hs.
Qed.

Lemma flat_writable fields : flat fields -> writable (objectValue (flat_values fields)) = true.
Proof.
  intros H. cbn [writable]. apply forallb_true, Forall_forall. intros m Hm.
  destruct (flat_elem _ _ H Hm) as [_ [-> |(s & -> & _)]]; done.
Qed.

Lemma flat_canon fields : flat fields -> map (fun m => (m.1, canon m.2)) (flat_values fields) = flat_values fields.
Proof.
  intros H. rewrite <- (map_id (flat_values fields)) at 2. apply map_ext_in. intros m Hm%list_elem_of_In.
  destruct m as [k v]. destruct (flat_elem _ _ H Hm) as [_ [E|(s & E & _)]]; cbn in *; by rewrite E.
Qed.

Lemma flat_numbers fields : flat fields -> numbers_valid (objectValue (flat_values fields)) = true.
Proof.
  intros H. cbn [numbers_valid]. apply forallb_true, Forall_forall. intros m Hm.
  destruct (flat_elem _ _ H Hm) as [_ [-> |(s & -> & _)]]; [vm_compute|]; done.
Qed.

Lemma flat_value_of fields : flat fields -> value_of (JObject fields) = objectValue (flat_values fields).
Proof.
  intros [_ H]. rewrite Forall_forall in H. cbn [value_of]. f_equal. unfold flat_values.
  apply map_ext_in. intros f Hf%list_elem_of_In. destruct f as [k j].
  destruct (H _ Hf) as [_ [E|(s & E & _)]]; cbn [snd] in E; subst j; reflexivity.
Qed.

Lemma flat_strict fields : flat fields -> strict_json 0 (JObject fields) = true.
Proof.
  intros H. apply strict_object. pose proof (flat_length _ H) as Hl. destruct H as [Hn H].
  split_and!; [done|unfold maxObjectMembers; lia|done|]. eapply Forall_impl; [exact H|]. intros [k j] [Hk Hj].
  split; [apply (record_name_ok _ Hk)|]. cbn [snd] in *. by destruct Hj as [->|(s & -> & Hs)]; [|cbn].
Qed.

Lemma flat_kept fields : flat fields ->
  excludeCredentialMaterial (objectValue (flat_values fields)) "" = objectValue (flat_values fields).
Proof.
  intros H. apply clean_exclude. cbn [clean]. apply orb_true_iff. right.
  assert (Hs : sensitive_named (flat_values fields) = false).
  { unfold sensitive_named. destruct (member "name" (flat_values fields)) as [v|] eqn:E; [|done].
    apply member_some in E. destruct (flat_elem _ _ H E) as [Hk _]. by destruct (record_name_ok _ Hk) as (_ & _ & []). }
  rewrite Hs. apply forallb_true, Forall_forall. intros m Hm. destruct (flat_elem _ _ H Hm) as [Hk Hv].
  destruct (record_name_ok _ Hk) as (-> & _). destruct Hv as [-> |(s & -> & _)]; cbn; by rewrite orb_true_r.
Qed.

(** ** The bytes of a flat record *)

Lemma flat_size fields : flat fields ->
  slen (writeValue (objectValue (flat_values fields))) = slen (Marshal (JObject fields)).
Proof.
  intros H. pose proof (flat_strict _ H) as Hs. rewrite <- flat_value_of by done. rewrite (write_sorted _ 0) by done. by apply (sorted_size _ 0).
Qed.

Lemma canonicalJSON_flat fields : flat fields -> slen (Marshal (JObject fields)) <= MaxDocumentBytes ->
  canonicalJSON (Some (JObject fields)) = Ok (writeValue (objectValue (flat_values fields))).
Proof.
  intros H Hl. pose proof (flat_size _ H) as Hs. pose proof (flat_wf _ H) as Hw. pose proof (flat_writable _ H) as Hr.
  unfold canonicalJSON, CanonicalizeResolvedSpec. cbn [option_map resolvedSpecJSON result_bind].
  assert (Hc : canonicalize (Marshal (JObject fields)) = Ok (writeValue (objectValue (flat_values fields))));
    [|by rewrite Hc].
  apply canonicalize_ok. exists (objectValue (flat_values fields)). rewrite (flat_kept _ H). split_and!; [|by apply flat_numbers|done|].
  - rewrite parse_marshal_strict by (done || by apply flat_strict). by rewrite flat_value_of.
  - unfold Validate. rewrite parse_written; [done|done|done|lia].
Qed.

(** ** Reading *)

(** The strict reader finds the fields of a written flat record. *)
Lemma decodeStrict_flat fields names : flat fields -> slen (Marshal (JObject fields)) <= MaxLedgerBodyBytes ->
  Forall (fun f => f.1 ∈ names) fields ->
  exists o, decodeStrict (writeValue (objectValue (flat_values fields))) names = Ok o /\ o ≡ₚ flat_values fields.
Proof.
  intros H Hl Hn. pose proof (flat_size _ H) as Hs. pose proof (flat_wf _ H) as Hw.
  assert (Hp : parse (writeValue (objectValue (flat_values fields))) = Ok (canon (objectValue (flat_values fields)))).
  { apply parse_written; [done|by apply flat_writable|]. assert (MaxLedgerBodyBytes <= MaxDocumentBytes) by done. lia. }
  assert (Hnd : NoDup (map fst (flat_values fields))) by (rewrite flat_keys; apply H).
  rewrite canon_object in Hp by done. set (o := map (fun m => (m.1, canon m.2)) (sorted_members (flat_values fields))) in Hp.
  assert (Ho : o ≡ₚ flat_values fields).
  { unfold o. rewrite <- (flat_canon fields H) at 2. apply Permutation_map, sort_on_perm. }
  exists o. split; [|done]. unfold decodeStrict, ValidateObject. rewrite Hp. cbn [result_bind is_object negb is_ok].
  destruct (write_opens _ _ Hw) as (b & l & Eb & _).
  rewrite (proj2 (Z.ltb_ge _ _)) by (rewrite Hs; exact Hl).
  assert (Hz : (slen (writeValue (objectValue (flat_values fields))) =? 0) = false) by (by rewrite Eb).
  rewrite Hz. cbn [orb]. rewrite (proj2 (forallb_true _ _)); [done|]. rewrite Ho.
  unfold flat_values. apply Forall_map. eapply Forall_impl; [exact Hn|]. intros f Hf. apply existsb_true.
  exists f.1. split; [done|]. apply String.eqb_refl.
Qed.

(** A flat record within the size bound is written to bytes whose fields read
    back. *)
Lemma record_reads fields names : flat fields -> slen (Marshal (JObject fields)) <= MaxLedgerBodyBytes ->
  Forall (fun f => f.1 ∈ names) fields ->
  exists body o, canonicalJSON (Some (JObject fields)) = Ok body /\ decodeStrict body names = Ok o /\
    slen body <= MaxLedgerBodyBytes /\ forall name, member name o = member name (flat_values fields).
Proof.
  intros Hf Hs Hn. destruct (decodeStrict_flat fields names Hf Hs Hn) as (o & Ho & Hp).
  assert (Hnd : NoDup (map fst o)) by (rewrite Hp, flat_keys; apply Hf).
  exists (writeValue (objectValue (flat_values fields))), o. split_and!; [|done|by rewrite flat_size|].
  - apply canonicalJSON_flat; [done|]. assert (MaxLedgerBodyBytes <= MaxDocumentBytes) by done. lia.
  - intros name. by apply member_perm.
Qed.

(** Looks up the members of a record with known names. *)
Ltac read_members :=
  repeat match goal with
  | |- context [member ?n (flat_values ?f)] =>
    let m := eval vm_compute in (member n (flat_values f)) in change (member n (flat_values f)) with m; cbv iota
  end.

Lemma field_size name (s : string) n : name ∈ record_names -> len s <= n ->
  6 * len name + 4 + slen (Marshal (JString s)) <= 84 + 6 * n.
Proof.
  intros Hn Hl. destruct (record_name_ok _ Hn) as (_ & _ & _ & Hk). cbn [Marshal].
  pose proof (json_string_len (bytes s)) as Hj. rewrite len_bytes in Hl. lia.
Qed.

Definition text_len (j : json) : Z := match j with JString s => len s | _ => 0 end.

Lemma len_nonneg s : 0 <= len s.
Proof. unfold len. lia. Qed.

Lemma flat_bound fields : flat fields ->
  slen (Marshal (JObject fields)) <= 2 + sumZ (fun f => 90 + 6 * text_len f.2) fields.
Proof.
  intros [_ H]. rewrite Forall_forall in H. etransitivity; [apply marshal_object_len|]. apply Z.add_le_mono_l, sumZ_le.
  intros f Hf. destruct (H f Hf) as [Hk Hj]. destruct (record_name_ok _ Hk) as (_ & _ & _ & Hn).
  destruct Hj as [-> |(s & -> & _)]; cbn [text_len].
  - change (slen (Marshal (JInt 1))) with 1. lia.
  - pose proof (field_size f.1 s (len s) Hk). lia.
Qed.

(** ** The three records *)

Lemma safeIdentifier_text s n : n <= maxStringBytes -> safeIdentifier s n = true -> ValidString s = true ->
  wf_string s = true /\ len s <= n.
Proof.
  intros Hn. unfold safeIdentifier, wf_string. rewrite !andb_true_iff, !negb_true_iff, existsb_false, Z.leb_le, forallb_true.
  intros [[_ Hl] Hz] ->. split; [|done]. split_and!; [done| |apply Z.leb_le; lia].
  pose proof (bytes_range s) as Hr. rewrite Forall_forall in *. intros b Hb. specialize (Hz b Hb). specialize (Hr b Hb).
  rewrite !orb_false_iff, !Z.eqb_neq in Hz. unfold is_byte in Hr. apply Z.ltb_lt. lia.
Qed.

Lemma format_time_length t : slen (format_time t) <= 35.
Proof.
  unfold slen, format_time. repeat first [rewrite length_app | rewrite padded_length | progress cbn [length]].
  assert (Hf : (length (format_fraction (Nanosecond t)) <= 10)%nat).
  { unfold format_fraction. destruct (_ =? 0); cbn [length]; [lia|].
    destruct (trim_right_app (Z.eqb zero) (padded 9 (Nanosecond t))) as (suf & E & _).
    apply (f_equal length) in E. rewrite length_app, padded_length in E. lia. }
  assert (Hz : (length (format_zone (Zone t)) <= 6)%nat).
  { unfold format_zone. destruct (_ =? 0); cbn [length]; [lia|]. rewrite length_app. cbn [length]. rewrite !padded_length. lia. }
  lia.
Qed.

Lemma MarshalTime_text t s : MarshalTime t = Some s -> wf_string s = true /\ len s <= 35.
Proof.
  unfold MarshalTime. destruct (_ && _); [|done]. intros [= <-].
  assert (Hl : len (of_bytes (format_time t)) <= 35) by (rewrite len_bytes, bytes_format_time; apply format_time_length).
  split; [|done]. apply ascii_text; [rewrite bytes_format_time; apply format_time_ascii|].
  assert (35 <= maxStringBytes) by done. lia.
Qed.

(** A time that can be recorded. *)
Definition recordable (t : Time) : Prop := civil t = true /\ is_Some (MarshalTime t) /\ IsZero t = false.

Ltac in_names := cbv [record_names claim_fields outcome_fields tombstone_fields]; set_solver.
Ltac flat_fields :=
  repeat (apply Forall_cons; split; [cbn [fst snd]; split; [in_names|first [by left|right; by eexists]]|]); try apply Forall_nil_2.

(** A claim whose strings are text is written, and reads back as itself. *)
Lemma claim_round_trip c : validClaim c = true -> Claim_SchemaVersion c = SchemaVersion -> recordable (Claim_CreatedAt c) ->
  ValidString (Claim_Operation c) = true -> ValidString (Claim_RunUID c) = true ->
  exists body, canonicalJSON (claim_json c) = Ok body /\ DecodeClaim body = Ok c.
Proof.
  destruct c as [v ek rd op uid t]. unfold validClaim, claim_json, json_time.
  cbn [Claim_SchemaVersion Claim_EffectKey Claim_RequestDigest Claim_Operation Claim_RunUID Claim_CreatedAt].
  intros Hv -> (Hciv & [ts Ht] & Hz) Uop Uuid. pose proof Hv as Hvalid. rewrite !andb_true_iff in Hv.
  destruct Hv as [[[Hek Hrd] Hop] Huid]. destruct (ValidDigest_text _ Hek) as [Wek Lek].
  destruct (ValidDigest_text _ Hrd) as [Wrd Lrd]. destruct (safeIdentifier_text _ 128 ltac:(done) Hop Uop) as [Wop Lop].
  destruct (safeIdentifier_text _ 128 ltac:(done) Huid Uuid) as [Wuid Luid].
  destruct (MarshalTime_text _ _ Ht) as [Wt Lt]. rewrite Ht. cbn [mbind option_bind].
  set (fields := [("schemaVersion", JInt SchemaVersion); ("effectKey", JString ek); ("requestDigest", JString rd);
    ("operation", JString op); ("runUID", JString uid); ("createdAt", JString ts)]).
  assert (Hf : flat fields) by (split; [apply (bool_decide_unpack _); by vm_compute|unfold fields; flat_fields]).
  destruct (record_reads fields claim_fields Hf) as (body & o & Hb & Ho & Hl & Hm).
  { etransitivity; [apply flat_bound, Hf|]. assert (10000 <= MaxLedgerBodyBytes) by done.
    unfold fields. cbn [sumZ foldr snd text_len]. lia. }
  { unfold fields. repeat constructor; cbn [fst]; in_names. }
  exists body. split; [exact Hb|]. unfold DecodeClaim. rewrite Ho. cbn [result_bind].
  assert (Hd : decode_claim o = Some (MkClaim SchemaVersion ek rd op uid t)).
  { unfold decode_claim, int_field, string_field, time_field. rewrite !Hm. read_members.
    rewrite (UnmarshalTime_MarshalTime _ _ Hciv Ht). done. }
  rewrite Hd. unfold validClaim, claim_json, json_time.
  cbn [Claim_SchemaVersion Claim_EffectKey Claim_RequestDigest Claim_Operation Claim_RunUID Claim_CreatedAt].
  rewrite Hvalid, Hz, Ht. cbn [mbind option_bind negb orb]. change (SchemaVersion =? SchemaVersion) with true.
  fold fields. rewrite Hb. unfold same_bytes. by rewrite bool_decide_eq_true_2.
Qed.

Lemma tombstone_round_trip t : validTombstone t = true -> Tombstone_SchemaVersion t = SchemaVersion ->
  recordable (Tombstone_RetiredAt t) -> ValidString (Tombstone_Operation t) = true -> ValidString (Tombstone_RunUID t) = true ->
  exists body, EncodeTombstone t = Ok body /\ DecodeTombstone body = Ok t /\ slen body <= MaxLedgerBodyBytes.
Proof.
  destruct t as [v ek rd op uid st t]. unfold EncodeTombstone, validTombstone, tombstone_json, json_time.
  cbn [Tombstone_SchemaVersion Tombstone_EffectKey Tombstone_RequestDigest Tombstone_Operation Tombstone_RunUID
       Tombstone_State Tombstone_RetiredAt].
  intros Hv -> (Hciv & [ts Ht] & Hz) Uop Uuid. pose proof Hv as Hvalid.
  destruct (_ || IsZero t) eqn:E in Hv; [done|]. rewrite !orb_false_iff, !negb_false_iff in E.
  destruct E as [[[[Hek Hrd] Hop] Huid] _]. destruct (ValidDigest_text _ Hek) as [Wek Lek].
  destruct (ValidDigest_text _ Hrd) as [Wrd Lrd]. destruct (safeIdentifier_text _ 128 ltac:(done) Hop Uop) as [Wop Lop].
  destruct (safeIdentifier_text _ 128 ltac:(done) Huid Uuid) as [Wuid Luid].
  destruct (MarshalTime_text _ _ Ht) as [Wt Lt].
  assert (Wst : wf_string st = true /\ len st <= 9).
  { apply orb_true_iff in Hv as [H|H]; apply bool_decide_eq_true in H as ->; split; by vm_compute. }
  destruct Wst as [Wst Lst].
  change (SchemaVersion =? 0) with false. cbv iota zeta.
  cbn [Tombstone_SchemaVersion Tombstone_EffectKey Tombstone_RequestDigest Tombstone_Operation Tombstone_RunUID
       Tombstone_State Tombstone_RetiredAt].
  rewrite Ht, Hvalid. cbn [mbind option_bind negb orb]. change (SchemaVersion =? SchemaVersion) with true. cbn [negb orb].
  set (fields := [("schemaVersion", JInt SchemaVersion); ("effectKey", JString ek); ("requestDigest", JString rd);
    ("operation", JString op); ("runUID", JString uid); ("state", JString st); ("retiredAt", JString ts)]).
  assert (Hf : flat fields) by (split; [apply (bool_decide_unpack _); by vm_compute|unfold fields; flat_fields]).
  assert (Hs : slen (Marshal (JObject fields)) <= MaxLedgerBodyBytes).
  { etransitivity; [apply flat_bound, Hf|]. assert (10000 <= MaxLedgerBodyBytes) by done.
    unfold fields. cbn [sumZ foldr snd text_len]. lia. }
  destruct (record_reads fields tombstone_fields) as (body & o & Hb & Ho & Hl & Hm); [done..| |].
  { unfold fields. repeat constructor; cbn [fst]; in_names. }
  exists body. split_and!; [exact Hb| |exact Hl].
  - unfold DecodeTombstone. rewrite Ho. cbn [result_bind].
    assert (Hd : decode_tombstone o = Some (MkTombstone SchemaVersion ek rd op uid st t)).
    { unfold decode_tombstone, int_field, string_field, time_field. rewrite !Hm. read_members.
      rewrite (UnmarshalTime_MarshalTime _ _ Hciv Ht). done. }
    rewrite Hd. unfold validTombstone, tombstone_json, json_time.
    cbn [Tombstone_SchemaVersion Tombstone_EffectKey Tombstone_RequestDigest Tombstone_Operation Tombstone_RunUID
         Tombstone_State Tombstone_RetiredAt].
    rewrite Hvalid, Ht. cbn [mbind option_bind negb orb]. change (SchemaVersion =? SchemaVersion) with true.
    fold fields. rewrite Hb. unfold same_bytes. by rewrite bool_decide_eq_true_2.
Qed.

(** Outcomes whose references are text. *)
Definition plain_outcome (out : Outcome) : Prop :=
  validOutcome out = true /\ Outcome_SchemaVersion out = SchemaVersion /\
  wf_string (Outcome_RunUID out) = true /\ wf_string (Outcome_ResultRef out) = true.

Definition outcome_members (o : Outcome) (recorded : string) : list (string * json) :=
  [("schemaVersion", JInt (Outcome_SchemaVersion o)); ("effectKey", JString (Outcome_EffectKey o));
    ("requestDigest", JString (Outcome_RequestDigest o))] ++ omit_empty "runUID" (Outcome_RunUID o) ++
    [("state", JString (Outcome_State o))] ++ omit_empty "resultDigest" (Outcome_ResultDigest o) ++
    omit_empty "resultRef" (Outcome_ResultRef o) ++ [("recordedAt", JString recorded)].

Ltac outcome_cases uid dg rf :=
  unfold outcome_members, omit_empty;
  cbn [Outcome_SchemaVersion Outcome_EffectKey Outcome_RequestDigest Outcome_RunUID Outcome_State Outcome_ResultDigest
       Outcome_ResultRef Outcome_RecordedAt];
  destruct (decide (uid = "")) as [-> |?], (decide (dg = "")) as [-> |?], (decide (rf = "")) as [-> |?];
  rewrite ?(bool_decide_eq_true_2 ("" = "")), ?(bool_decide_eq_false_2 (uid = _)), ?(bool_decide_eq_false_2 (dg = _)),
    ?(bool_decide_eq_false_2 (rf = _)) by done; cbn [app].

Lemma outcome_size out ts : plain_outcome out -> MarshalTime (Outcome_RecordedAt out) = Some ts ->
  flat (outcome_members out ts) /\ slen (Marshal (JObject (outcome_members out ts))) <=
    2264 + 6 * (len (Outcome_RunUID out) + len (Outcome_ResultRef out)).
Proof.
  destruct out as [v ek rd uid st dg rf t]. unfold plain_outcome, validOutcome.
  cbn [Outcome_SchemaVersion Outcome_EffectKey Outcome_RequestDigest Outcome_RunUID Outcome_State Outcome_ResultDigest
       Outcome_ResultRef Outcome_RecordedAt].
  intros (Hv & -> & Wuid & Wrf) Ht. destruct (_ || _) eqn:E in Hv; [done|]. rewrite !orb_false_iff, !negb_false_iff in E.
  destruct E as [Hek Hrd]. destruct (ValidDigest_text _ Hek) as [Wek Lek]. destruct (ValidDigest_text _ Hrd) as [Wrd Lrd].
  destruct (negb _) eqn:E in Hv; [done|]. rewrite negb_false_iff, !orb_true_iff, !bool_decide_eq_true in E.
  assert (Wst : wf_string st = true /\ len st <= 9) by (destruct E as [[-> | ->] | ->]; by vm_compute).
  assert (Wdg : wf_string dg = true /\ len dg <= 71).
  { apply orb_true_iff in Hv as [H|H]; [apply bool_decide_eq_true in H as ->; by vm_compute|].
    destruct (ValidDigest_text _ H) as [? ->]. done. }
  destruct Wst as [Wst Lst], Wdg as [Wdg Ldg], (MarshalTime_text _ _ Ht) as [Wt Lt].
  clear Hek Hrd E Hv Ht. pose proof (len_nonneg uid). pose proof (len_nonneg rf).
  assert (Hf : flat (outcome_members (MkOutcome SchemaVersion ek rd uid st dg rf t) ts)).
  { outcome_cases uid dg rf; (split; [apply (bool_decide_unpack _); by vm_compute|flat_fields]). }
  split; [exact Hf|]. etransitivity; [apply flat_bound; exact Hf|]. clear Hf.
  outcome_cases uid dg rf; cbn [sumZ foldr snd text_len]; change (len "") with 0 in *; lia.
Qed.

Lemma outcome_flat out ts : plain_outcome out -> MarshalTime (Outcome_RecordedAt out) = Some ts ->
  flat (outcome_members out ts) /\ slen (Marshal (JObject (outcome_members out ts))) <= MaxDocumentBytes.
Proof.
  intros Hp Ht. destruct (outcome_size out ts Hp Ht) as [Hf Hs]. split; [done|]. destruct Hp as (_ & _ & Wuid & Wrf).
  assert (Luid : len (Outcome_RunUID out) <= maxStringBytes) by (by apply wf_string_text).
  assert (Lrf : len (Outcome_ResultRef out) <= maxStringBytes) by (by apply wf_string_text).
  change maxStringBytes with 65536 in *. change MaxDocumentBytes with 1048576. lia.
Qed.

(** What the reader finds in a written outcome. *)
Lemma outcome_lookup out ts : Outcome_SchemaVersion out = SchemaVersion ->
  let o := flat_values (outcome_members out ts) in
  int_field "schemaVersion" o = Some SchemaVersion /\ string_field "effectKey" o = Some (Outcome_EffectKey out) /\
  string_field "requestDigest" o = Some (Outcome_RequestDigest out) /\ string_field "runUID" o = Some (Outcome_RunUID out) /\
  string_field "state" o = Some (Outcome_State out) /\ string_field "resultDigest" o = Some (Outcome_ResultDigest out) /\
  string_field "resultRef" o = Some (Outcome_ResultRef out) /\ time_field "recordedAt" o = UnmarshalTime ts.
Proof.
  destruct out as [v ek rd uid st dg rf t]. cbn [Outcome_SchemaVersion]. intros ->. cbv zeta.
  unfold int_field, string_field, time_field. outcome_cases uid dg rf; read_members; done.
Qed.

Lemma outcome_json_members out ts : MarshalTime (Outcome_RecordedAt out) = Some ts ->
  outcome_json out = Some (JObject (outcome_members out ts)).
Proof. intros H. unfold outcome_json, json_time. by rewrite H. Qed.

Lemma outcome_round_trip out body : plain_outcome out -> recordable (Outcome_RecordedAt out) ->
  canonicalJSON (outcome_json out) = Ok body -> slen body <= MaxLedgerBodyBytes -> DecodeOutcome body = Ok out.
Proof.
  intros Hplain (Hciv & [ts Ht] & Hz) Hb Hl. rewrite (outcome_json_members _ _ Ht) in Hb.
  destruct (outcome_flat _ _ Hplain Ht) as [Hf Hd].
  assert (Hs : slen (Marshal (JObject (outcome_members out ts))) <= MaxLedgerBodyBytes).
  { rewrite canonicalJSON_flat in Hb by done. rewrite <- flat_size by done. congruence. }
  destruct (record_reads _ outcome_fields Hf Hs) as (body' & o & Hb' & Ho & _ & Hm).
  { clear -out ts. destruct out as [v ek rd uid st dg rf t]. outcome_cases uid dg rf; repeat (apply Forall_cons; split; [cbn [fst]; in_names|]); apply Forall_nil_2. }
  assert (body' = body) as -> by congruence. clear Hb'. destruct Hplain as (Hv & Hver & _ & _).
  assert (Hdec : decode_outcome o = Some out).
  { destruct (outcome_lookup out ts Hver) as (H1 & H2 & H3 & H4 & H5 & H6 & H7 & H8).
    assert (Hi : forall n, int_field n o = int_field n (flat_values (outcome_members out ts)))
      by (intros n; unfold int_field; by rewrite Hm).
    assert (Hstr : forall n, string_field n o = string_field n (flat_values (outcome_members out ts)))
      by (intros n; unfold string_field; by rewrite Hm).
    assert (Htime : forall n, time_field n o = time_field n (flat_values (outcome_members out ts)))
      by (intros n; unfold time_field; by rewrite Hm).
    unfold decode_outcome. rewrite !Hstr, Hi, Htime, H1, H2, H3, H4, H5, H6, H7, H8.
    rewrite (UnmarshalTime_MarshalTime _ _ Hciv Ht). cbn [mbind option_bind]. rewrite <- Hver. by destruct out. }
  unfold DecodeOutcome. rewrite Ho. cbn [result_bind]. rewrite Hdec, Hver, Hv, Hz. cbn [negb orb].
  change (SchemaVersion =? SchemaVersion) with true. rewrite (outcome_json_members _ _ Ht), Hb.
  unfold same_bytes. by rewrite bool_decide_eq_true_2.
Qed.

Lemma objectValue_inj a b : objectValue a = objectValue b -> a = b.
Proof. by intros [= ->]. Qed.

(** An outcome with short references is written within the ledger's bound. *)
Lemma outcome_encodes out : plain_outcome out -> recordable (Outcome_RecordedAt out) ->
  len (Outcome_RunUID out) <= 128 -> len (Outcome_ResultRef out) <= 8192 ->
  exists body, canonicalJSON (outcome_json out) = Ok body /\ DecodeOutcome body = Ok out.
Proof.
  intros Hp Hrec Lu Lr. pose proof Hrec as (_ & [ts Ht] & _). destruct (outcome_size _ _ Hp Ht) as [Hf Hs].
  exists (writeValue (objectValue (flat_values (outcome_members out ts)))).
  assert (Hb : canonicalJSON (outcome_json out) = Ok (writeValue (objectValue (flat_values (outcome_members out ts))))).
  { rewrite (outcome_json_members _ _ Ht). apply canonicalJSON_flat; [done|]. by apply outcome_flat. }
  split; [exact Hb|]. eapply outcome_round_trip; [done|done|exact Hb|]. rewrite flat_size by done.
  change MaxLedgerBodyBytes with 65536. lia.
Qed.

(** The bytes of an outcome determine it, but for the reading of its time. *)
Lemma outcome_bytes_inj out out' body : plain_outcome out -> plain_outcome out' ->
  canonicalJSON (outcome_json out) = Ok body -> canonicalJSON (outcome_json out') = Ok body ->
  Outcome_EffectKey out = Outcome_EffectKey out' /\ Outcome_RequestDigest out = Outcome_RequestDigest out' /\
  Outcome_RunUID out = Outcome_RunUID out' /\ Outcome_State out = Outcome_State out' /\
  Outcome_ResultDigest out = Outcome_ResultDigest out' /\ Outcome_ResultRef out = Outcome_ResultRef out'.
Proof.
  intros Hp Hp' Hb Hb'.
  assert (Ht : forall o, canonicalJSON (outcome_json o) = Ok body -> exists ts, MarshalTime (Outcome_RecordedAt o) = Some ts).
  { intros o Ho. unfold outcome_json, json_time in Ho. destruct (MarshalTime _) as [ts|]; [by eexists|]. done. }
  destruct (Ht _ Hb) as [ts Hts], (Ht _ Hb') as [ts' Hts'].
  rewrite (outcome_json_members _ _ Hts) in Hb. rewrite (outcome_json_members _ _ Hts') in Hb'.
  destruct (outcome_flat _ _ Hp Hts) as [Hf Hd], (outcome_flat _ _ Hp' Hts') as [Hf' Hd'].
  rewrite canonicalJSON_flat in Hb, Hb' by done.
  assert (Hc : canon (objectValue (flat_values (outcome_members out ts))) = canon (objectValue (flat_values (outcome_members out' ts')))).
  { eapply write_inj; [apply values_cancel|by apply flat_wf|by apply flat_wf|congruence]. }
  assert (Hm : forall name, member name (flat_values (outcome_members out ts)) = member name (flat_values (outcome_members out' ts'))).
  { intros name. rewrite !canon_object in Hc by (rewrite flat_keys; first [apply Hf|apply Hf']). apply objectValue_inj in Hc.
    rewrite <- (flat_canon _ Hf), <- (flat_canon _ Hf'). apply member_perm.
    - rewrite flat_canon, flat_keys by done. apply Hf.
    - transitivity (map (fun m => (m.1, canon m.2)) (sorted_members (flat_values (outcome_members out ts)))).
      + symmetry. apply Permutation_map, sort_on_perm.
      + rewrite Hc. apply Permutation_map, sort_on_perm. }
  destruct (outcome_lookup out ts) as (_ & H2 & H3 & H4 & H5 & H6 & H7 & _); [apply Hp|].
  destruct (outcome_lookup out' ts') as (_ & H2' & H3' & H4' & H5' & H6' & H7' & _); [apply Hp'|].
  unfold string_field in *. rewrite Hm in H2, H3, H4, H5, H6, H7. split_and!; congruence.
Qed.

(** Decoding accepts only the canonical bytes of what it returns. *)
Lemma DecodeOutcome_bytes body out : DecodeOutcome body = Ok out ->
  canonicalJSON (outcome_json out) = Ok body /\ validOutcome out = true /\ Outcome_SchemaVersion out = SchemaVersion.
Proof.
  unfold DecodeOutcome. intros (o & _ & H)%result_bind_ok. destruct (decode_outcome o) as [out'|]; [|done].
  destruct (_ || _) eqn:E in H; [done|]. rewrite !orb_false_iff, !negb_false_iff, Z.eqb_eq in E.
  destruct (negb _) eqn:Es in H; [done|]. rewrite negb_false_iff in Es. injection H as <-.
  destruct E as [[E1 E2] _]. split_and!; [|done..]. unfold same_bytes in Es.
  destruct (canonicalJSON (outcome_json out')); [|done]. by apply bool_decide_eq_true in Es as ->.
Qed.

Lemma DecodeClaim_bytes body c : DecodeClaim body = Ok c ->
  canonicalJSON (claim_json c) = Ok body /\ validClaim c = true /\ Claim_SchemaVersion c = SchemaVersion.
Proof.
  unfold DecodeClaim. intros (o & _ & H)%result_bind_ok. destruct (decode_claim o) as [c'|]; [|done].
  destruct (_ || _) eqn:E in H; [done|]. rewrite !orb_false_iff, !negb_false_iff, Z.eqb_eq in E.
  destruct (negb _) eqn:Es in H; [done|]. rewrite negb_false_iff in Es. injection H as <-.
  destruct E as [[E1 E2] _]. split_and!; [|done..]. unfold same_bytes in Es.
  destruct (canonicalJSON (claim_json c')); [|done]. by apply bool_decide_eq_true in Es as ->.
Qed.

Lemma DecodeTombstone_bytes body t : DecodeTombstone body = Ok t ->
  canonicalJSON (tombstone_json t) = Ok body /\ validTombstone t = true /\ Tombstone_SchemaVersion t = SchemaVersion.
Proof.
  unfold DecodeTombstone. intros (o & _ & H)%result_bind_ok. destruct (decode_tombstone o) as [t'|]; [|done].
  destruct (_ || _) eqn:E in H; [done|]. rewrite !orb_false_iff, !negb_false_iff, Z.eqb_eq in E.
  destruct (negb _) eqn:Es in H; [done|]. rewrite negb_false_iff in Es. injection H as <-.
  destruct E as [E1 E2]. split_and!; [|done..]. unfold same_bytes in Es.
  destruct (canonicalJSON (tombstone_json t')); [|done]. by apply bool_decide_eq_true in Es as ->.
Qed.

(** What is read is text. *)
Lemma string_field_wf body names o name s : decodeStrict body names = Ok o -> string_field name o = Some s -> wf_string s = true.
Proof.
  unfold decodeStrict, string_field. destruct (_ || _); [done|]. destruct (parse body) as [v|] eqn:Ev; [|done].
  destruct v as [| | | |o'|]; try done. destruct (forallb _ o'); [|done]. intros [= <-].
  apply parse_wf, wf_object in Ev as (_ & _ & Hw). destruct (member name o') as [w|] eqn:Em; [|by intros [= <-]].
  apply member_some in Em. destruct (Hw _ Em) as [_ Hv]. cbn in Hv. destruct w; try done; intros [= <-]; [done|].
  rewrite wf_value_unfold in Hv. by apply andb_true_iff in Hv as [_ Hv].
Qed.

Lemma DecodeOutcome_plain body out : DecodeOutcome body = Ok out -> plain_outcome out.
Proof.
  intros H. destruct (DecodeOutcome_bytes _ _ H) as (_ & Hv & Hver). unfold DecodeOutcome in H.
  apply result_bind_ok in H as (o & Ho & H). destruct (decode_outcome o) as [out'|] eqn:E; [|done].
  assert (out' = out) as -> by (destruct (_ || _) in H; [done|]; destruct (negb _) in H; [done|]; congruence).
  unfold decode_outcome in E. repeat match type of E with
  | (?x ≫= _) = Some _ => destruct x eqn:?; cbn [mbind option_bind] in E; [|discriminate E]
  end. injection E as <-. cbn in *. split_and!; try done; by eapply string_field_wf.
Qed.

Lemma DecodeClaim_run body c : DecodeClaim body = Ok c -> wf_string (Claim_RunUID c) = true.
Proof.
  unfold DecodeClaim. intros H. apply result_bind_ok in H as (o & Ho & H). destruct (decode_claim o) as [c'|] eqn:E; [|done].
  assert (c' = c) as -> by (destruct (_ || _) in H; [done|]; destruct (negb _) in H; [done|]; congruence).
  unfold decode_claim in E. repeat match type of E with
  | (?x ≫= _) = Some _ => destruct x eqn:?; cbn [mbind option_bind] in E; [|discriminate E]
  end. injection E as <-. by eapply string_field_wf.
Qed.

(** C33. The ledger's records read back, under the conditions that the ledger
    itself does not check.  A valid claim or tombstone of the current schema whose
    operation and run UID are UTF-8 and whose time is civil, not zero and has an
    RFC 3339 form is encoded, and its bytes decode to it.  So do the bytes of a
    valid outcome whose run UID and result reference are bounded UTF-8 without NUL,
    with such a time, if they are at most 64 KiB.  Without these conditions records
    may be written that do not read back.  For all bytes: two different bodies never
    decode to the same record. *)
Theorem ledger_records_round_trip :
  (forall c, validClaim c = true -> Claim_SchemaVersion c = SchemaVersion -> recordable (Claim_CreatedAt c) ->
     ValidString (Claim_Operation c) = true -> ValidString (Claim_RunUID c) = true ->
     exists body, canonicalJSON (claim_json c) = Ok body /\ DecodeClaim body = Ok c) /\
  (forall t, validTombstone t = true -> Tombstone_SchemaVersion t = SchemaVersion -> recordable (Tombstone_RetiredAt t) ->
     ValidString (Tombstone_Operation t) = true -> ValidString (Tombstone_RunUID t) = true ->
     exists body, EncodeTombstone t = Ok body /\ DecodeTombstone body = Ok t /\ slen body <= MaxLedgerBodyBytes) /\
  (forall out body, plain_outcome out -> recordable (Outcome_RecordedAt out) ->
     canonicalJSON (outcome_json out) = Ok body -> slen body <= MaxLedgerBodyBytes -> DecodeOutcome body = Ok out) /\
  (forall body body' c, DecodeClaim body = Ok c -> DecodeClaim body' = Ok c -> body = body') /\
  (forall body body' t, DecodeTombstone body = Ok t -> DecodeTombstone body' = Ok t -> body = body') /\
  (forall body body' out, DecodeOutcome body = Ok out -> DecodeOutcome body' = Ok out -> body = body').
Proof.
  split_and!.
  - apply claim_round_trip.
  - apply tombstone_round_trip.
  - apply outcome_round_trip.
  - intros body body' c [H _]%DecodeClaim_bytes [H' _]%DecodeClaim_bytes. congruence.
  - intros body body' t [H _]%DecodeTombstone_bytes [H' _]%DecodeTombstone_bytes. congruence.
  - intros body body' out [H _]%DecodeOutcome_bytes [H' _]%DecodeOutcome_bytes. congruence.
Qed.

Definition sample_claim : Claim :=
  MkClaim SchemaVersion (digestBytes [1]) (digestBytes [2]) "publish/pr" "run-1" (MkTime 2024 2 29 23 59 59 120 0).

Lemma ledger_records_round_trip_witness :
  exists body, canonicalJSON (claim_json sample_claim) = Ok body /\ DecodeClaim body = Ok sample_claim.
Proof.
  destruct ledger_records_round_trip as (H & _). apply H; try (vm_compute; reflexivity).
  split; [vm_compute; reflexivity|]. split; [by eexists|vm_compute; reflexivity].
Defined.

Definition sample_ledger : Ledger := MkLedger "agents-gateway/v3/publish-effects".
Definition sample_now : Time := MkTime 2024 2 29 23 59 59 120 0.
Definition sample_outcome : Outcome :=
  MkOutcome 0 (Claim_EffectKey sample_claim) (Claim_RequestDigest sample_claim) "" OutcomeSucceeded "" "s3://bucket/result" zeroTime.
