(* ===== verification/LedgerProtocol.v ===== *)
(** * The effect ledger under concurrency

    Any number of callers run claims, commits and retirements against one store,
    interleaved at every request, with ambiguous failures and callers that stop
    anywhere.  A caller is described by what it does to one effect: it grants
    execution only after its own successful create of the claim and a later read
    of the tombstone key that finds nothing, and it deletes claim or outcome only
    after it has seen the tombstone.  Any system of such callers grants one
    execution per effect and agrees on one outcome. *)

From Stdlib Require Import FunctionalExtensionality.
From S2P Require Import Prelude GoStrings GoTime Digest Store Effects.
Local Open Scope go_scope.
Local Open Scope string_scope.
Local Open Scope Z_scope.
Local Open Scope list_scope.

(** ** Properties of programs *)

(** Every answer satisfies [P]. *)
Fixpoint answers {A : Type} (P : A -> Prop) (p : prog A) : Prop :=
  match p with
  | Ret a => P a
  | Now k => forall t, answers P (k t)
  | Create _ _ k => forall r, answers P (k r)
  | Get _ k => forall r, answers P (k r)
  | Delete _ _ k => forall r, answers P (k r)
  | DeleteChild _ _ _ _ k => forall r, answers P (k r)
  end.

(** Every key created satisfies [C] and every key deleted satisfies [D]. *)
Fixpoint requests {A : Type} (C D : string -> Prop) (p : prog A) : Prop :=
  match p with
  | Ret _ => True
  | Now k => forall t, requests C D (k t)
  | Create key _ k => C key /\ forall r, requests C D (k r)
  | Get _ k => forall r, requests C D (k r)
  | Delete key _ k => D key /\ forall r, requests C D (k r)
  | DeleteChild _ _ _ _ k => forall r, requests C D (k r)
  end.

Lemma answers_bind {A B : Type} (P : B -> Prop) (m : prog A) (f : A -> prog B) :
  answers (fun a => answers P (f a)) m -> answers P (prog_bind m f).
Proof. induction m; cbn; auto. Qed.

Lemma answers_true {A : Type} (P : A -> Prop) (m : prog A) : (forall a, P a) -> answers P m.
Proof. intros H. induction m; cbn; auto. Qed.

Lemma answers_any {A B : Type} (P : B -> Prop) (m : prog A) (f : A -> prog B) :
  (forall a, answers P (f a)) -> answers P (prog_bind m f).
Proof. intros H. apply answers_bind, answers_true, H. Qed.

Lemma requests_bind {A B : Type} C D (m : prog A) (f : A -> prog B) :
  requests C D m -> (forall a, requests C D (f a)) -> requests C D (prog_bind m f).
Proof. intros Hm Hf. induction m as [a|k IH|key b k IH|key k IH|key t k IH|kd ns nm u k IH]; cbn in *; auto; destruct Hm; auto. Qed.

Lemma requests_impl {A : Type} (C C' D D' : string -> Prop) (m : prog A) :
  (forall k, C k -> C' k) -> (forall k, D k -> D' k) -> requests C D m -> requests C' D' m.
Proof. intros HC HD. induction m as [a|k IH|key b k IH|key k IH|key t k IH|kd ns nm u k IH]; cbn; auto; intros []; auto. Qed.

Lemma prog_bind_assoc {A B C : Type} (m : prog A) (f : A -> prog B) (g : B -> prog C) :
  prog_bind (prog_bind m f) g = prog_bind m (fun a => prog_bind (f a) g).
Proof. induction m as [a|k IH|key b k IH|key k IH|key t k IH|kd ns nm u k IH]; cbn; [done|..]; f_equal; apply functional_extensionality; auto. Qed.

Lemma responds_requests {A : Type} C D (p p' : prog A) s s' : responds p s p' s' -> requests C D p -> requests C D p'.
Proof. destruct 1; cbn; naive_solver. Qed.

Lemma responds_answers {A : Type} P (p p' : prog A) s s' : responds p s p' s' -> answers P p -> answers P p'.
Proof. destruct 1; cbn; auto. Qed.

(** ** Callers *)

(** What a caller learns: it may execute, its outcome is recorded, or neither. *)
Inductive reply : Type := Granted (c : Claim) | Committed (o : Outcome) | Other.

Definition claim_reply (r : ClaimDecision * option error) : reply :=
  match r with
  | (MkDecision true _ (Some c), None) => Granted c
  | _ => Other
  end.
Definition claim_call (l : Ledger) (c : Claim) : prog reply := let! r := Ledger_Claim l c in Ret (claim_reply r).
Definition commit_call (l : Ledger) (o : Outcome) : prog reply :=
  let! r := Ledger_Commit l o in Ret (match r with None => Committed o | Some _ => Other end).

(** Systems: a store and the callers' remaining programs. *)
Definition system : Type := store * list (prog reply).

Inductive step (caller : prog reply -> Prop) : system -> system -> Prop :=
| step_caller s s' before p p' after :
    responds p s p' s' -> step caller (s, before ++ p :: after) (s', before ++ p' :: after)
| step_start s pool p : caller p -> step caller (s, pool) (s, pool ++ [p]).

(** An undisturbed run is an execution of the system. *)
Lemma run_steps caller now (p : prog reply) : utc now = true -> forall s bef aft,
  rtc (step caller) (s, bef ++ p :: aft) ((run now p s).2, bef ++ Ret (run now p s).1 :: aft).
Proof.
  intros Hnow. induction p as [a|k IH|key b k IH|key k IH|key t k IH|kd ns nm u k IH]; intros s bef aft; cbn [run].
  - apply rtc_refl.
  - eapply rtc_l; [apply step_caller, responds_now, Hnow|apply IH].
  - destruct (s !! key) eqn:E; (eapply rtc_l; [apply step_caller|apply IH]).
    + apply responds_exists. by rewrite E.
    + by apply responds_created.
  - destruct (s !! key) eqn:E; (eapply rtc_l; [apply step_caller|apply IH]); [by apply responds_read|by apply responds_absent].
  - destruct (s !! key) eqn:E; (eapply rtc_l; [apply step_caller|apply IH]); [apply responds_deleted|apply responds_delete_error].
  - eapply rtc_l; [apply step_caller, responds_child|apply IH].
Qed.

(** ** One effect *)

Section Effect.
Context (l : Ledger) (e : string).
Notation ck := (claimKey l e).
Notation ok := (outcomeKey l e).
Notation tk := (tombstoneKey l e).

Definition no_grant (r : reply) : Prop := match r with Granted c => Claim_EffectKey c <> e | _ => True end.
Definition no_commit (r : reply) : Prop := match r with Committed o => Outcome_EffectKey o <> e | _ => True end.

(** A caller whose next request is the tombstone, and that has nothing to say
    unless it is absent. *)
Definition at_fence (quiet : reply -> Prop) (p : prog reply) (r : reply) : Prop :=
  exists k, p = Get tk k /\ k (Err NotFound) = Ret r /\ forall x, x <> Err NotFound -> answers quiet (k x).

(** Grants only after creating the claim. *)
Fixpoint unclaimed (p : prog reply) : Prop :=
  match p with
  | Ret r => no_grant r
  | Now k => forall t, unclaimed (k t)
  | Create key _ k =>
    (key = ck -> answers no_grant (k (Ok true)) \/ exists r, at_fence no_grant (k (Ok true)) r) /\
    (forall r, (key = ck -> r <> Ok true) -> unclaimed (k r))
  | Get _ k => forall r, unclaimed (k r)
  | Delete _ _ k => forall r, unclaimed (k r)
  | DeleteChild _ _ _ _ k => forall r, unclaimed (k r)
  end.

(** Deletes the effect's claim or outcome only after a request that showed the
    tombstone, and never the tombstone. *)
Definition keeps {A : Type} (p : prog A) : Prop := requests (fun _ => True) (fun key => key <> tk) p.
Fixpoint guarded {A : Type} (p : prog A) : Prop :=
  match p with
  | Ret _ => True
  | Now k => forall t, guarded (k t)
  | Create key _ k =>
    (forall r, keeps (k r)) /\ (forall r, (key = tk -> is_ok r = false) -> guarded (k r))
  | Get key k => (forall r, keeps (k r)) /\ (forall r, (key = tk -> is_ok r = false) -> guarded (k r))
  | Delete key _ k => key <> ck /\ key <> ok /\ key <> tk /\ forall r, guarded (k r)
  | DeleteChild _ _ _ _ k => forall r, guarded (k r)
  end.

Lemma guarded_keeps {A : Type} (p : prog A) : guarded p -> keeps p.
Proof.
  unfold keeps. induction p as [a|k IH|key b k IH|key k IH|key t k IH|kd ns nm u k IH]; cbn; try done; try (intros H; auto; fail).
  - intros [H _]. done.
  - intros [H _]. done.
  - intros (_ & _ & Hk & H). auto.
Qed.

Lemma guarded_bind {A B : Type} (m : prog A) (f : A -> prog B) :
  guarded m -> (forall a, guarded (f a)) -> guarded (prog_bind m f).
Proof.
  intros Hm Hf. assert (Hk : forall k : prog A, keeps k -> keeps (prog_bind k f)).
  { intros k Hk. apply requests_bind; [done|]. intros a. apply guarded_keeps, Hf. }
  induction m as [a|k IH|key b k IH|key k IH|key t k IH|kd ns nm u k IH]; cbn [prog_bind guarded] in *; auto.
  - destruct Hm as [H1 H2]. split; intros r; [apply Hk, H1|intros Hr; apply IH, H2, Hr].
  - destruct Hm as [H1 H2]. split; intros r; [apply Hk, H1|intros Hr; apply IH, H2, Hr].
  - destruct Hm as (H1 & H2 & H3 & H4). auto.
Qed.

Lemma harmless_guarded {A : Type} (p : prog A) :
  requests (fun _ => True) (fun key => key <> ck /\ key <> ok /\ key <> tk) p -> guarded p.
Proof.
  induction p as [a|k IH|key b k IH|key k IH|key t k IH|kd ns nm u k IH]; cbn; try done; try (intros H; auto; fail).
  - intros [_ H]. split; [|auto]. intros r. eapply requests_impl; [..|apply H]; [done|]. by intros ? (_ & _ & ?).
  - intros H. split; [|auto]. intros r. eapply requests_impl; [..|apply H]; [done|]. by intros ? (_ & _ & ?).
  - intros [(H1 & H2 & H3) H]. auto.
Qed.

Lemma silent_unclaimed p : answers no_grant p -> unclaimed p.
Proof. induction p; cbn; auto. Qed.

Lemma unclaimed_bind {A : Type} (m : prog A) f :
  requests (fun _ => False) (fun _ => False) m -> (forall a, unclaimed (f a)) -> unclaimed (prog_bind m f).
Proof. intros Hm Hf. induction m as [a|k IH|key b k IH|key k IH|key t k IH|kd ns nm u k IH]; cbn in *; auto; by destruct Hm. Qed.

(** ** Fencing *)

Definition fenced (s : store) (p : prog reply) : Prop := keeps p /\ (s !! tk = None -> guarded p).

(** A request preserves the caller's discipline; the tombstone stays once there,
    and until then claim and outcome stay too. *)
Lemma responds_fenced p p' s s' : responds p s p' s' -> fenced s p ->
  fenced s' p' /\ (s' !! tk = None -> s !! tk = None) /\
  (s' !! tk = None -> forall key b, key = ck \/ key = ok -> s !! key = Some b -> s' !! key = Some b).
Proof.
  intros Hr [Hk Hg]. pose proof (responds_requests _ _ _ _ _ _ Hr Hk) as Hk'. unfold fenced.
  assert (Hins : forall key (b : list Z), <[key:=b]> s !! tk = None -> key <> tk /\ s !! tk = None).
  { intros key b H. apply lookup_insert_None in H as [? ?]. done. }
  destruct Hr as [k t s Ht|key b k s Hs|key b k s Hs|key b k s x|key b k s x Hs|key b k s Hs|key k s Hs|key k s x Hx
                 |key tag k s|key tag k s x|key tag k s x|kd ns nm u k s r]; cbn [keeps requests guarded] in *.
  - split_and!; auto.
  - split_and!; [done|..].
    + intros [Hne Ht]%Hins. apply Hg; [done|]. done.
    + by intros [_ Ht]%Hins.
    + intros [Hne Ht]%Hins key' b' _ Hb'. by rewrite lookup_insert_ne by congruence.
  - split_and!; [done| |done|done]. intros Ht. apply Hg; [done|]. intros ->. rewrite Ht in Hs. by destruct Hs.
  - split_and!; [done| |done|done]. intros Ht. by apply Hg.
  - split_and!; [done|..].
    + intros [Hne Ht]%Hins. by apply Hg.
    + by intros [_ Ht]%Hins.
    + intros [Hne Ht]%Hins key' b' _ Hb'. by rewrite lookup_insert_ne by congruence.
  - split_and!; [done| |done|done]. intros Ht. apply Hg; [done|]. intros ->. congruence.
  - split_and!; [done| |done|done]. intros Ht. by apply Hg.
  - split_and!; [done| |done|done]. intros Ht. by apply Hg.
  - destruct Hk as [Hne Hk]. split_and!; [done|..].
    + intros Ht. rewrite lookup_delete_ne in Ht by done. by apply Hg.
    + intros Ht. by rewrite lookup_delete_ne in Ht by done.
    + intros Ht key' b' Hkey Hb'. rewrite lookup_delete_ne in Ht by done. destruct (Hg Ht) as (N1 & N2 & _).
      rewrite lookup_delete_ne; [done|]. naive_solver.
  - destruct Hk as [Hne Hk]. split_and!; [done| |done|done]. intros Ht. by apply Hg.
  - destruct Hk as [Hne Hk]. split_and!; [done|..].
    + intros Ht. rewrite lookup_delete_ne in Ht by done. by apply Hg.
    + intros Ht. by rewrite lookup_delete_ne in Ht by done.
    + intros Ht key' b' Hkey Hb'. rewrite lookup_delete_ne in Ht by done. destruct (Hg Ht) as (N1 & N2 & _).
      rewrite lookup_delete_ne; [done|]. naive_solver.
  - split_and!; auto.
Qed.

Lemma fenced_mono s s' p : (s' !! tk = None -> s !! tk = None) -> fenced s p -> fenced s' p.
Proof. intros Hm [Hk Hg]. split; auto. Qed.

(** ** Grants *)

(** Where a caller stands: it has not created the claim, it has and waits for
    the fence, or it may execute. *)
Inductive grant_tag : Type := Waiting | Armed | Executing.
Definition grant_role (t : grant_tag) (p : prog reply) : Prop :=
  match t with
  | Waiting => unclaimed p
  | Armed => exists r, at_fence no_grant p r
  | Executing => exists c, p = Ret (Granted c) /\ Claim_EffectKey c = e
  end.
Definition live (t : grant_tag) : Z := match t with Waiting => 0 | _ => 1 end.
Definition executing (t : grant_tag) : Z := match t with Executing => 1 | _ => 0 end.

Lemma executing_live t : 0 <= executing t <= live t.
Proof. destruct t; cbn; lia. Qed.

Lemma grant_step t p p' s s' : responds p s p' s' -> grant_role t p -> exists t', grant_role t' p' /\
  (live t' <= live t \/ (live t' = 1 /\ live t = 0 /\ s !! ck = None /\ is_Some (s' !! ck))) /\
  (executing t' <= executing t \/ (live t = 1 /\ executing t = 0 /\ s !! tk = None)).
Proof.
  intros Hr Ht. destruct t; cbn [grant_role] in Ht.
  - (* waiting *)
    assert (Hsame : unclaimed p' -> exists t', grant_role t' p' /\ (live t' <= live Waiting \/ (live t' = 1 /\ live Waiting = 0 /\
        s !! ck = None /\ is_Some (s' !! ck))) /\ (executing t' <= executing Waiting \/ (live Waiting = 1 /\ executing Waiting = 0 /\ s !! tk = None))).
    { intros H. exists Waiting. split; [done|]. cbn. lia. }
    destruct Hr as [k t s Hu|key b k s Hs|key b k s Hs|key b k s x|key b k s x Hs|key b k s Hs|key k s Hs|key k s x Hx
                 |key tag k s|key tag k s x|key tag k s x|kd ns nm u k s r]; cbn [unclaimed] in Ht; try (apply Hsame, Ht; done).
    destruct Ht as [Hck Hne]. destruct (decide (key = ck)) as [-> |Hkey].
    + destruct (Hck eq_refl) as [Hn|Ha]; [by apply Hsame, silent_unclaimed|]. exists Armed. split; [done|].
      split; [right|left; cbn; lia]. cbn. split_and!; [done..|]. by rewrite lookup_insert_eq.
    + by apply Hsame, Hne.
  - (* armed *)
    destruct Ht as (r & k & -> & Hk & Hq). inversion Hr; subst.
    + exists Waiting. split; [by apply silent_unclaimed, Hq|]. cbn. lia.
    + rewrite Hk in *. destruct r as [c| |]; [destruct (decide (Claim_EffectKey c = e)) as [Hc|Hc]|..];
        [exists Executing; split; [by exists c|cbn; split; [lia|by right]]|exists Waiting; split; [done|cbn; lia]..].
    + exists Waiting. split; [|cbn; lia]. apply silent_unclaimed, Hq. congruence.
  - destruct Ht as (c & -> & _). inversion Hr.
Qed.

Definition grant_inv (sys : system) : Prop :=
  exists tags, Forall2 grant_role tags sys.2 /\ Forall (fenced sys.1) sys.2 /\ sumZ executing tags <= 1 /\
    (sys.1 !! tk = None -> sumZ live tags <= 1 /\ (sys.1 !! ck = None -> sumZ live tags = 0)).

Lemma sumZ_nonneg {A : Type} (g : A -> Z) k : (forall x, 0 <= g x) -> 0 <= sumZ g k.
Proof. intros H. unfold sumZ. induction k as [|x k IH]; cbn; [done|]. specialize (H x). lia. Qed.

Lemma grant_inv_step caller sys sys' :
  (forall p, caller p -> unclaimed p /\ guarded p) -> step caller sys sys' -> grant_inv sys -> grant_inv sys'.
Proof.
  intros Hc Hs (tags & Ht & Hf & He & Hl). destruct Hs as [s s' bef p p' aft Hr|s pool p Hp]; cbn [fst snd] in *.
  - apply Forall2_app_inv_r in Ht as (t1 & t2' & H1 & H2' & ->). apply Forall2_cons_inv_r in H2' as (t & t2 & Hp & H2 & ->).
    apply Forall_app in Hf as [Hf1 Hf2]. apply Forall_cons in Hf2 as [Hfp Hf2].
    destruct (responds_fenced _ _ _ _ Hr Hfp) as (Hfp' & Hm & Hkeep).
    destruct (grant_step _ _ _ _ _ Hr Hp) as (t' & Hp' & Hlive & Hexec).
    exists (t1 ++ t' :: t2). cbn [fst snd]. rewrite !sumZ_app in *. cbn [sumZ foldr] in *.
    assert (Hnn : forall x, 0 <= live x) by (intros []; cbn; lia).
    pose proof (sumZ_nonneg live t1 Hnn) as N1. pose proof (sumZ_nonneg live t2 Hnn) as N2.
    pose proof (executing_live t) as Hel. pose proof (executing_live t') as Hel'.
    pose proof (sumZ_le executing live t1 (fun x _ => proj2 (executing_live x))) as B1.
    pose proof (sumZ_le executing live t2 (fun x _ => proj2 (executing_live x))) as B2.
    unfold sumZ in *. split_and!.
    + apply Forall2_app; [done|]. by constructor.
    + apply Forall_app. split; [|apply Forall_cons; split; [done|]]; (eapply Forall_impl; [eassumption|]);
        intros q Hq; by eapply fenced_mono.
    + destruct Hexec as [|(E1 & E2 & Ht)]; [lia|]. specialize (Hl Ht). lia.
    + intros Ht'. specialize (Hl (Hm Ht')). destruct Hl as [Hl1 Hl2].
      destruct Hlive as [Hle|(E1 & E2 & Hck & Hck')].
      * split; [lia|]. intros Hn. destruct (s !! ck) as [b|] eqn:Eb; [|specialize (Hl2 eq_refl); pose proof (executing_live t'); lia].
        rewrite (Hkeep Ht' ck b (or_introl eq_refl) Eb) in Hn. done.
      * specialize (Hl2 Hck). split; [lia|]. intros Hn. rewrite Hn in Hck'. by destruct Hck'.
  - exists (tags ++ [Waiting]). cbn [fst snd]. rewrite !sumZ_app. destruct (Hc _ Hp) as [Hu Hg]. split_and!.
    + apply Forall2_app; [done|]. by repeat constructor.
    + apply Forall_app. split; [done|]. apply Forall_singleton. split; [by apply guarded_keeps|done].
    + cbn. lia.
    + intros Htk. destruct (Hl Htk) as [L1 L2]. cbn. split; [lia|]. intros Hn. specialize (L2 Hn). lia.
Qed.

Lemma executing_unique tags i j : sumZ executing tags <= 1 -> tags !! i = Some Executing -> tags !! j = Some Executing -> i = j.
Proof.
  assert (Hnn : forall x, 0 <= executing x) by (intros []; cbn; lia).
  assert (Hin : forall tags k, tags !! k = Some Executing -> 1 <= sumZ executing tags).
  { intros ts k Hk. apply list_elem_of_split_length in Hk as (a & b & -> & _). rewrite sumZ_app.
    pose proof (sumZ_nonneg executing a Hnn). pose proof (sumZ_nonneg executing b Hnn). cbn [sumZ foldr] in *.
    unfold sumZ in *. cbn [executing] in *. lia. }
  revert i j. induction tags as [|t tags IH]; intros i j Hs Hi Hj; [done|].
  assert (Hs' : executing t + sumZ executing tags <= 1) by exact Hs. destruct i as [|i], j as [|j]; cbn in Hi, Hj.
  - done.
  - injection Hi as ->. specialize (Hin _ _ Hj). cbn in Hs'. lia.
  - injection Hj as ->. specialize (Hin _ _ Hi). cbn in Hs'. lia.
  - f_equal. apply IH; [|done..]. specialize (Hnn t). lia.
Qed.

(** At most one caller of a system is granted the effect. *)
Lemma one_grant caller s0 s pool i j c c' :
  (forall p, caller p -> unclaimed p /\ guarded p) -> rtc (step caller) (s0, []) (s, pool) ->
  pool !! i = Some (Ret (Granted c)) -> pool !! j = Some (Ret (Granted c')) ->
  Claim_EffectKey c = e -> Claim_EffectKey c' = e -> i = j.
Proof.
  intros Hc Hr Hi Hj Ec Ec'. assert (Hinv : grant_inv (s, pool)).
  { assert (H0 : grant_inv (s0, [])) by (exists []; cbn; repeat constructor; lia).
    revert H0. induction Hr as [x|x y z Hxy _ IH]; intros Hx; [done|]. apply IH. by eapply grant_inv_step. }
  destruct Hinv as (tags & Ht & _ & He & _). cbn [snd] in Ht.
  assert (Hexec : forall k d, pool !! k = Some (Ret (Granted d)) -> Claim_EffectKey d = e -> tags !! k = Some Executing).
  { intros k d Hk Hd. destruct (Forall2_lookup_r _ _ _ _ _ Ht Hk) as (t & Hk' & Hrole). destruct t; [| |done].
    - by destruct Hrole.
    - by destruct Hrole as (r & k' & ? & _). }
  apply (executing_unique tags); eauto.
Qed.

(** ** Outcomes *)

(** [agrees o body]: [body] is the record of the outcome [o]. *)
Context (agrees : Outcome -> list Z -> Prop).

Definition reports (body : list Z) (r : reply) : Prop :=
  match r with Committed o => Outcome_EffectKey o = e -> agrees o body | _ => True end.

(** The outcome's body is known to the caller, which reports it if the fence is
    absent. *)
Definition confirms (body : list Z) (p : prog reply) : Prop :=
  answers no_commit p \/ exists r, at_fence no_commit p r /\ reports body r.

(** Commits only after creating the outcome or reading it. *)
Fixpoint uncommitted (p : prog reply) : Prop :=
  match p with
  | Ret r => no_commit r
  | Now k => forall t, uncommitted (k t)
  | Create key body k =>
    (key = ok -> confirms body (k (Ok true))) /\ (forall r, (key = ok -> r <> Ok true) -> uncommitted (k r))
  | Get key k =>
    (key = ok -> forall body, confirms body (k (Ok body))) /\
    (forall r, (key = ok -> is_ok r = false) -> uncommitted (k r))
  | Delete _ _ k => forall r, uncommitted (k r)
  | DeleteChild _ _ _ _ k => forall r, uncommitted (k r)
  end.

Lemma silent_uncommitted p : answers no_commit p -> uncommitted p.
Proof. induction p; cbn; auto; intros Hq; (split; [intros _; try intros b; left; apply Hq|auto]). Qed.

Inductive commit_tag : Type := Unsettled | Confirming (body : list Z) | Settled (body : list Z).
Definition commit_role (t : commit_tag) (p : prog reply) : Prop :=
  match t with
  | Unsettled => uncommitted p
  | Confirming body => exists r, at_fence no_commit p r /\ reports body r
  | Settled body => exists o, p = Ret (Committed o) /\ Outcome_EffectKey o = e /\ agrees o body
  end.

Lemma commit_step t p p' s s' : responds p s p' s' -> commit_role t p -> exists t', commit_role t' p' /\
  (t' = Unsettled \/ (exists b, t' = Confirming b /\ s' !! ok = Some b) \/
   (exists b, t = Confirming b /\ t' = Settled b /\ s !! tk = None)).
Proof.
  intros Hr Ht. destruct t as [|b|b]; cbn [commit_role] in Ht.
  - assert (Hsame : uncommitted p' -> exists t', commit_role t' p' /\ (t' = Unsettled \/ (exists b, t' = Confirming b /\ s' !! ok = Some b) \/
      (exists b, Unsettled = Confirming b /\ t' = Settled b /\ s !! tk = None))) by (intros H; exists Unsettled; eauto).
    assert (Hconf : forall b, confirms b p' -> s' !! ok = Some b -> exists t', commit_role t' p' /\ (t' = Unsettled \/ (exists b, t' = Confirming b /\ s' !! ok = Some b) \/
      (exists b, Unsettled = Confirming b /\ t' = Settled b /\ s !! tk = None))).
    { intros b [Hq|Hq] Hb; [by apply Hsame, silent_uncommitted|]. exists (Confirming b). split; [done|]. right. left. by exists b. }
    destruct Hr as [k t s Hu|key b k s Hs|key b k s Hs|key b k s x|key b k s x Hs|key b k s Hs|key k s Hs|key k s x Hx
                 |key tag k s|key tag k s x|key tag k s x|kd ns nm u k s r]; cbn [uncommitted] in Ht;
      try (apply Hsame, Ht; done).
    + destruct Ht as [Hok Hne]. destruct (decide (key = ok)) as [-> |Hkey]; [|by apply Hsame, Hne].
      apply (Hconf b); [by apply Hok|]. by rewrite lookup_insert_eq.
    + destruct Ht as [Hok Hne]. destruct (decide (key = ok)) as [-> |Hkey]; [|by apply Hsame, Hne].
      apply (Hconf b); [by apply Hok|done].
  - destruct Ht as (r & (k & -> & Hk & Hq) & Hrep). inversion Hr; subst.
    + exists Unsettled. split; [by apply silent_uncommitted, Hq|by left].
    + rewrite Hk in *. destruct r as [|o|]; try (exists Unsettled; split; [done|by left]).
      destruct (decide (Outcome_EffectKey o = e)) as [Ho|Ho]; [|exists Unsettled; split; [done|by left]].
      exists (Settled b). split; [exists o; auto|]. right. right. by exists b.
    + exists Unsettled. split; [|by left]. apply silent_uncommitted, Hq. congruence.
  - destruct Ht as (o & -> & _). inversion Hr.
Qed.

Definition commit_inv (sys : system) : Prop :=
  exists tags recorded, Forall2 commit_role tags sys.2 /\ Forall (fenced sys.1) sys.2 /\
    (forall b, Settled b ∈ tags -> recorded = Some b) /\
    (sys.1 !! tk = None ->
      (forall b, Confirming b ∈ tags -> sys.1 !! ok = Some b) /\ (forall b, recorded = Some b -> sys.1 !! ok = Some b)).

Lemma commit_inv_step caller sys sys' :
  (forall p, caller p -> uncommitted p /\ guarded p) -> step caller sys sys' -> commit_inv sys -> commit_inv sys'.
Proof.
  intros Hc Hs (tags & rec & Ht & Hf & Hset & Hconf). destruct Hs as [s s' bef p p' aft Hr|s pool p Hp]; cbn [fst snd] in *.
  - apply Forall2_app_inv_r in Ht as (t1 & t2' & H1 & H2' & ->). apply Forall2_cons_inv_r in H2' as (t & t2 & Hp & H2 & ->).
    apply Forall_app in Hf as [Hf1 Hf2]. apply Forall_cons in Hf2 as [Hfp Hf2].
    destruct (responds_fenced _ _ _ _ Hr Hfp) as (Hfp' & Hm & Hkeep).
    destruct (commit_step _ _ _ _ _ Hr Hp) as (t' & Hp' & Ht').
    assert (Hroles : Forall2 commit_role (t1 ++ t' :: t2) (bef ++ p' :: aft)) by (apply Forall2_app; [done|by constructor]).
    assert (Hfen : Forall (fenced s') (bef ++ p' :: aft)).
    { apply Forall_app. split; [|apply Forall_cons; split; [done|]]; (eapply Forall_impl; [eassumption|]);
        intros q Hq; by eapply fenced_mono. }
    assert (Hold : forall x, x ∈ t1 ++ t' :: t2 -> x = t' \/ x ∈ t1 ++ t :: t2) by set_solver.
    assert (Hstay : s' !! tk = None -> forall b, s !! ok = Some b -> s' !! ok = Some b) by (intros Hn b; apply Hkeep; auto).
    destruct Ht' as [-> |[(b & -> & Hb)|(b & -> & -> & Hn)]].
    + exists (t1 ++ Unsettled :: t2), rec. cbn [fst snd]. split_and!; [done|done| |].
      * intros b Hb. apply Hset. destruct (Hold _ Hb); [done|done].
      * intros Hn. destruct (Hconf (Hm Hn)) as [Hc1 Hc2]. split; [|auto]. intros b Hb. destruct (Hold _ Hb); [done|auto].
    + exists (t1 ++ Confirming b :: t2), rec. cbn [fst snd]. split_and!; [done|done| |].
      * intros b' Hb'. apply Hset. destruct (Hold _ Hb'); [done|done].
      * intros Hn. destruct (Hconf (Hm Hn)) as [Hc1 Hc2]. split; [|auto]. intros b' Hb'.
        destruct (Hold _ Hb') as [[= ->]|]; auto.
    + destruct (Hconf Hn) as [Hc1 Hc2]. assert (Hb : s !! ok = Some b) by (apply Hc1; set_solver).
      exists (t1 ++ Settled b :: t2), (Some b). cbn [fst snd]. split_and!; [done|done| |].
      * intros b' Hb'. destruct (Hold _ Hb') as [[= ->]|Hin]; [done|]. specialize (Hset _ Hin). specialize (Hc2 _ Hset). congruence.
      * intros Hn'. split; [|intros b' [= <-]; auto]. intros b' Hb'. destruct (Hold _ Hb') as [|Hin]; [done|auto].
  - exists (tags ++ [Unsettled]), rec. cbn [fst snd]. destruct (Hc _ Hp) as [Hu Hg].
    assert (Hold : forall x, x ∈ tags ++ [Unsettled] -> x = Unsettled \/ x ∈ tags) by set_solver. split_and!.
    + apply Forall2_app; [done|]. by repeat constructor.
    + apply Forall_app. split; [done|]. apply Forall_singleton. split; [by apply guarded_keeps|done].
    + intros b Hb. apply Hset. destruct (Hold _ Hb); done.
    + intros Hn. destruct (Hconf Hn) as [Hc1 Hc2]. split; [|done]. intros b Hb. apply Hc1. destruct (Hold _ Hb); done.
Qed.

(** The commits that succeed for the effect report one record. *)
Lemma one_outcome caller s0 s pool : (forall p, caller p -> uncommitted p /\ guarded p) ->
  rtc (step caller) (s0, []) (s, pool) ->
  exists recorded, forall i o, pool !! i = Some (Ret (Committed o)) -> Outcome_EffectKey o = e ->
    exists body, recorded = Some body /\ agrees o body.
Proof.
  intros Hc Hr. assert (Hinv : commit_inv (s, pool)).
  { assert (H0 : commit_inv (s0, [])).
    { exists [], None. cbn. split_and!; [constructor|constructor| |]; [intros b Hb; by apply not_elem_of_nil in Hb|].
      intros _. split; [|done]. intros b Hb. by apply not_elem_of_nil in Hb. }
    revert H0. induction Hr as [x|x y z Hxy _ IH]; intros Hx; [done|]. apply IH. by eapply commit_inv_step. }
  destruct Hinv as (tags & rec & Ht & _ & Hset & _). cbn [snd] in Ht. exists rec. intros i o Hi Ho.
  destruct (Forall2_lookup_r _ _ _ _ _ Ht Hi) as (t & Hti & Hrole). destruct t as [|b|b].
  - by destruct Hrole.
  - by destruct Hrole as (r & (k & ? & _) & _).
  - destruct Hrole as (o' & [= <-] & _ & Ha). exists b. split; [|done]. apply Hset. by eapply list_elem_of_lookup_2.
Qed.
End Effect.
