(* ===== verification/Retention.v ===== *)
(** * Retention planning (src/v3/internal/retention/retention.go, ledger.go)

    A policy, a planning time and an inventory give a plan: the deletions of
    credentials, worktrees, artifacts and effect-ledger pairs, and the reason for
    everything that is left alone.  Planning has no side effects.

    The name checks of k8s.io/apimachinery are a parameter, [IsDNS1123Subdomain],
    which answers the list of complaints about a name. *)

From S2P Require Import Prelude Order GoStrings Paths Digest GoTime Fsm Store Effects.
Local Open Scope go_scope.
Local Open Scope string_scope.
Local Open Scope Z_scope.
Local Open Scope list_scope.

Definition DefaultArtifactRetentionDays : Z := 14.
Definition DefaultWorktreeRetentionDays : Z := 7.
Definition DefaultLedgerRetentionDays : Z := 30.
Definition DefaultMaxActionsPerPlan : Z := 256.
Definition MaxRetentionActions : Z := 100000.
Definition MaxRetentionDays : Z := 3650.

Definition RunUIDLabelKey : string := "agents.astatide.com/run-uid".
Definition RoleLabelKey : string := "agents.astatide.com/role".
Definition ManagedByLabelKey : string := "agents.astatide.com/managed-by".
Definition RunSecretManagedBy : string := "agw-run-secret".
Definition WorkRole : string := "work".
Definition AgentRunAPIVersion : string := "agents.astatide.com/v1alpha1".
Definition AgentRunKind : string := "AgentRun".
Definition SandboxAPIVersion : string := "agents.x-k8s.io/v1beta1".
Definition SandboxKind : string := "Sandbox".
Definition JobKind : string := "Job".
Definition CoreAPIVersion : string := "v1".
Definition SecretKind : string := "Secret".
Definition PersistentVolumeKind : string := "PersistentVolumeClaim".
Definition ObjectStoreKind : string := "ObjectStore".
Definition SpecDigestAnnotation : string := "agents.astatide.com/spec-digest".
Definition LedgerClaimsSegment : string := "claims".
Definition LedgerOutcomesSegment : string := "outcomes".
Definition LedgerTombstonesSegment : string := TombstonesSegment.

Inductive error : Type :=
| ErrInvalidPolicy
| ErrInvalidNow
| ErrInvalidRun
| ErrActionLimit
| ErrAmbiguousOwnership
| ErrMissingOwnership
| ErrInvalidObjectKey
| ErrObjectPrefixMismatch
| ErrLedgerInventory.

Definition SkipInvalidRun : string := "invalid-run".
Definition SkipDuplicateRun : string := "duplicate-run-uid".
Definition SkipRunNotFound : string := "run-not-found".
Definition SkipActiveRun : string := "active-run".
Definition SkipUnknownEffect : string := "unknown-effect".
Definition SkipMissingCompletion : string := "missing-completion-time".
Definition SkipFutureCompletion : string := "completion-time-in-future".
Definition SkipRetentionWindow : string := "retention-window".
Definition SkipDeletingResource : string := "resource-already-deleting".
Definition SkipUnsupportedResource : string := "unsupported-resource-kind".
Definition SkipMissingRunLabel : string := "missing-run-label".
Definition SkipRunLabelMismatch : string := "run-label-mismatch".
Definition SkipRoleLabelMismatch : string := "role-label-mismatch".
Definition SkipManagedByMismatch : string := "managed-by-label-mismatch".
Definition SkipOwnerMismatch : string := "owner-mismatch".
Definition SkipOwnerAmbiguous : string := "ambiguous-owner".
Definition SkipWorkSandboxMissing : string := "work-sandbox-reference-missing".
Definition SkipArtifactRunMismatch : string := "artifact-run-mismatch".
Definition SkipArtifactKeyMismatch : string := "artifact-prefix-mismatch".
Definition SkipArtifactKeyInvalid : string := "artifact-key-invalid".
Definition SkipArtifactCreatedMissing : string := "artifact-created-at-missing".
Definition SkipArtifactCreatedFuture : string := "artifact-created-at-in-future".
Definition SkipArtifactYoung : string := "artifact-retention-window".
Definition SkipDuplicateResource : string := "duplicate-resource".
Definition SkipDuplicateArtifact : string := "duplicate-artifact-key".
Definition SkipInvalidResource : string := "invalid-resource".
Definition SkipSpecDigestMissing : string := "missing-spec-digest".
Definition SkipSpecDigestMismatch : string := "spec-digest-mismatch".
Definition SkipEvidenceNotFlushed : string := "evidence-not-flushed".
Definition SkipEvidenceMissing : string := "evidence-object-missing".
Definition SkipLedgerNotFlushed : string := "ledger-not-flushed".
Definition SkipArtifactETagMissing : string := "artifact-etag-missing".
Definition SkipLedgerIncomplete : string := "ledger-incomplete".
Definition SkipLedgerUnknown : string := "ledger-unknown".
Definition SkipLedgerIdentityMismatch : string := "ledger-identity-mismatch".
Definition SkipLedgerYoung : string := "ledger-retention-window".
Definition SkipLedgerArtifacts : string := "ledger-artifacts-retained".
Definition SkipLedgerWorkspace : string := "ledger-workspace-retained".
Definition SkipLedgerETagMissing : string := "ledger-etag-missing".
Definition SkipLedgerTombstone : string := "ledger-tombstone-mismatch".

(** ** Data *)

Record Policy : Type := MkPolicy {
  ArtifactRetentionDays : Z;
  WorktreeRetentionDays : Z;
  LedgerRetentionDays : Z;
  ObjectPrefix : string;
  LedgerPrefix : string;
  MaxActionsPerPlan : Z;
  Policy_DryRun : bool
}.

Definition DefaultPolicy : Policy :=
  MkPolicy DefaultArtifactRetentionDays DefaultWorktreeRetentionDays DefaultLedgerRetentionDays "agents-gateway/v3"
    "publish-effects" DefaultMaxActionsPerPlan true.

Record Child : Type := MkChild {
  Child_Kind : string; Child_Name : string; Child_UID : string; Child_Role : string; Child_SpecDigest : string
}.

Record Run : Type := MkRun {
  Run_Namespace : string;
  Run_Name : string;
  Run_UID : string;
  Run_SpecDigest : string;
  Run_BaseSHA : string;
  Run_PatchDigest : string;
  Run_Phase : Phase;
  Run_CompletedAt : Time;
  Run_Children : list Child;
  Run_EvidenceFlushed : bool;
  Run_RequiredObjectKeys : list string;
  Run_LedgerFlushed : bool;
  Run_EffectKey : string
}.

Record OwnerReference : Type := MkOwner {
  Owner_APIVersion : string;
  Owner_Kind : string;
  Owner_Name : string;
  Owner_UID : string;
  Owner_Controller : option bool;
  Owner_BlockOwnerDeletion : option bool
}.

Record Resource : Type := MkResource {
  Resource_Kind : string;
  Resource_Namespace : string;
  Resource_Name : string;
  Resource_UID : string;
  Resource_SpecDigest : string;
  Resource_Labels : gmap string string;
  Resource_Annotations : gmap string string;
  Resource_OwnerReferences : list OwnerReference;
  Resource_Deleting : bool
}.

Record Artifact : Type := MkArtifact {
  Artifact_RunUID : string;
  Artifact_Key : string;
  Artifact_ETag : string;
  Artifact_CreatedAt : Time;
  Artifact_SizeBytes : Z
}.

Record LedgerObject : Type := MkLedgerObject { Object_Key : string; Object_ETag : string; Object_Body : list Z }.

Record Inventory : Type := MkInventory {
  Runs : list Run; Resources : list Resource; Artifacts : list Artifact; LedgerObjects : list LedgerObject
}.

Definition ActionWouldDelete : string := "would-delete".
Definition ActionDelete : string := "delete".

Record ActionTarget : Type := MkTarget {
  Target_APIVersion : string;
  Target_Kind : string;
  Target_Namespace : string;
  Target_Name : string;
  Target_UID : string;
  Target_ObjectKey : string;
  Target_ETag : string
}.

Record Action : Type := MkAction {
  Action_Mode : string;
  Action_RunUID : string;
  Action_Role : string;
  Action_PairKey : string;
  Action_Reason : string;
  Action_Target : ActionTarget
}.

Record Skip : Type := MkSkip {
  Skip_RunUID : string;
  Skip_Kind : string;
  Skip_Namespace : string;
  Skip_Name : string;
  Skip_UID : string;
  Skip_ObjectKey : string;
  Skip_Reason : string
}.

Record LedgerPairPlan : Type := MkPairPlan {
  Pair_EffectKey : string;
  Pair_RunUID : string;
  Pair_Claim : Claim;
  Pair_Outcome : Outcome;
  Pair_ClaimKey : string;
  Pair_OutcomeKey : string;
  Pair_ClaimETag : string;
  Pair_OutcomeETag : string;
  Pair_Tombstone : Tombstone;
  Pair_TombstoneKey : string;
  Pair_TombstoneBody : list Z;
  Pair_TombstoneExists : bool
}.

(** The cutoffs are instants. *)
Record Plan : Type := MkPlan {
  Plan_DryRun : bool;
  ArtifactCutoff : Z;
  WorktreeCutoff : Z;
  LedgerCutoff : Z;
  Actions : list Action;
  LedgerPairs : list LedgerPairPlan;
  Skipped : list Skip
}.

Definition add_action (p : Plan) (a : Action) : Plan :=
  MkPlan (Plan_DryRun p) (ArtifactCutoff p) (WorktreeCutoff p) (LedgerCutoff p) (Actions p ++ [a]) (LedgerPairs p) (Skipped p).
Definition add_pair (p : Plan) (pair : LedgerPairPlan) : Plan :=
  MkPlan (Plan_DryRun p) (ArtifactCutoff p) (WorktreeCutoff p) (LedgerCutoff p) (Actions p) (LedgerPairs p ++ [pair]) (Skipped p).
Definition add_skip (p : Plan) (s : Skip) : Plan :=
  MkPlan (Plan_DryRun p) (ArtifactCutoff p) (WorktreeCutoff p) (LedgerCutoff p) (Actions p) (LedgerPairs p) (Skipped p ++ [s]).

Definition actionMode (p : Plan) : string := if Plan_DryRun p then ActionWouldDelete else ActionDelete.

Definition skipResource (p : Plan) (r : Resource) (runUID reason : string) : Plan :=
  add_skip p (MkSkip runUID (Resource_Kind r) (Resource_Namespace r) (Resource_Name r) (Resource_UID r) "" reason).
Definition skipArtifact (p : Plan) (a : Artifact) (reason : string) : Plan :=
  add_skip p (MkSkip (Artifact_RunUID a) "" "" "" "" (Artifact_Key a) reason).

(** A missing map entry reads as the empty string. *)
Definition map_get (m : gmap string string) (key : string) : string := default "" (m !! key).
Definition label (r : Resource) (key : string) : string := map_get (Resource_Labels r) key.

(** ** Keys and identities *)

Definition key_rune (c : Z) : bool :=
  between 0x61 0x7A c || between 0x41 0x5A c || is_digit c || (c =? 0x2E) || (c =? 0x5F) || (c =? 0x2D).

Definition validUID (value : string) : bool :=
  if (value =?= "") || (128 <? len value) || negb (ValidString value) then false else forallb key_rune (runes value).

Definition validateObjectKey (key : string) (allowEmpty : bool) : result error unit :=
  if (key =?= "") && allowEmpty then Ok tt
  else if (key =?= "") || (1024 <? len key) || negb (ValidString key) || HasPrefix key "/" || HasSuffix key "/" ||
          Contains key "//" || negb (bool_decide (path_Clean (bytes key) = bytes key)) then Err ErrInvalidObjectKey
  else if forallb (fun segment =>
            negb ((segment =?= "") || (segment =?= ".") || (segment =?= "..")) && forallb key_rune (runes segment)) (Split key slash)
  then Ok tt else Err ErrInvalidObjectKey.

Definition runPrefix (prefix runUID : string) : string :=
  if prefix =?= "" then "runs/" +:+ runUID +:+ "/" else prefix +:+ "/runs/" +:+ runUID +:+ "/".

Definition validateArtifactKey (prefix runUID key : string) : result error unit :=
  let? _ := validateObjectKey key false in
  let want := runPrefix prefix runUID in
  if negb (HasPrefix key want) || (TrimPrefix key want =?= "") then Err ErrObjectPrefixMismatch else Ok tt.

Definition days (value : Z) : Z := value * 24 * 60 * 60 * 1000000000.

Definition Policy_normalized (p : Policy) : result error Policy :=
  if (ArtifactRetentionDays p <=? 0) || (MaxRetentionDays <? ArtifactRetentionDays p) ||
     (WorktreeRetentionDays p <=? 0) || (MaxRetentionDays <? WorktreeRetentionDays p) then Err ErrInvalidPolicy
  else if (LedgerRetentionDays p <? DefaultLedgerRetentionDays) || (MaxRetentionDays <? LedgerRetentionDays p) then Err ErrInvalidPolicy
  else
    let p := if MaxActionsPerPlan p =? 0
             then MkPolicy (ArtifactRetentionDays p) (WorktreeRetentionDays p) (LedgerRetentionDays p) (ObjectPrefix p)
                    (LedgerPrefix p) DefaultMaxActionsPerPlan (Policy_DryRun p)
             else p in
    if (MaxActionsPerPlan p <? 1) || (MaxRetentionActions <? MaxActionsPerPlan p) then Err ErrInvalidPolicy
    else if negb (is_ok (validateObjectKey (ObjectPrefix p) true)) then Err ErrInvalidPolicy
    else if negb (is_ok (validateObjectKey (LedgerPrefix p) false)) then Err ErrInvalidPolicy
    else Ok p.

(** ** Ownership *)

Definition boolValue (value : option bool) : bool := match value with Some b => b | None => false end.

Fixpoint controller_loop (found : option OwnerReference) (owners : list OwnerReference) : result error OwnerReference :=
  match owners with
  | [] => match found with Some owner => Ok owner | None => Err ErrMissingOwnership end
  | owner :: rest =>
    if negb (boolValue (Owner_Controller owner)) then controller_loop found rest
    else match found with Some _ => Err ErrAmbiguousOwnership | None => controller_loop (Some owner) rest end
  end.
Definition controllerOwner (owners : list OwnerReference) : result error OwnerReference := controller_loop None owners.

Definition requireRunOwner (owners : list OwnerReference) (run : Run) : result error unit :=
  let? owner := controllerOwner owners in
  if (Owner_APIVersion owner !=? AgentRunAPIVersion) || (Owner_Kind owner !=? AgentRunKind) || (Owner_Name owner !=? Run_Name run) ||
     (Owner_UID owner !=? Run_UID run) || negb (boolValue (Owner_BlockOwnerDeletion owner)) then Err ErrMissingOwnership
  else Ok tt.

Definition requireWorkspaceOwner (owners : list OwnerReference) (child : Child) (run : Run) : result error unit :=
  if Child_Kind child =?= JobKind then requireRunOwner owners run
  else if Child_Kind child !=? SandboxKind then Err ErrMissingOwnership
  else
    let? owner := controllerOwner owners in
    if (Owner_APIVersion owner !=? SandboxAPIVersion) || (Owner_Kind owner !=? SandboxKind) || (Owner_Name owner !=? Child_Name child) ||
       (Owner_UID owner !=? Child_UID child) || negb (boolValue (Owner_BlockOwnerDeletion owner)) then Err ErrMissingOwnership
    else Ok tt.

Definition ownerSkipReason (e : error) : string :=
  match e with ErrAmbiguousOwnership => SkipOwnerAmbiguous | _ => SkipOwnerMismatch end.

Fixpoint work_loop (found : option Child) (children : list Child) : option Child :=
  match children with
  | [] => found
  | child :: rest =>
    if Child_Role child !=? WorkRole then work_loop found rest
    else if bool_decide (is_Some found) || ((Child_Kind child !=? SandboxKind) && (Child_Kind child !=? JobKind)) ||
            (Child_Name child =?= "") || negb (validUID (Child_UID child)) then None
    else work_loop (Some child) rest
  end.
Definition workSandbox (run : Run) : option Child := work_loop None (Run_Children run).

(** The error of [requireSpecDigest], by its message. *)
Definition requireSpecDigest (resource : Resource) (run : Run) : result string unit :=
  if Run_SpecDigest run =?= "" then Err "retention: invalid AgentRun identity: run digest is empty"
  else
    let digest := if Resource_SpecDigest resource =?= "" then map_get (Resource_Annotations resource) SpecDigestAnnotation
                  else Resource_SpecDigest resource in
    if digest =?= "" then Err "missing spec digest"
    else if digest !=? Run_SpecDigest run then Err "spec digest mismatch" else Ok tt.
Definition specDigestSkipReason (message : string) : string :=
  if Contains message "missing" then SkipSpecDigestMissing else SkipSpecDigestMismatch.

(** ** Eligibility *)

(** [None] when eligible, else the reason. *)
Definition terminalEligible (run : Run) (now retention : Z) : option string :=
  if negb (IsTerminal (Run_Phase run)) then Some SkipActiveRun
  else if Run_Phase run =?= PhaseUnknownEffect then Some SkipUnknownEffect
  else if IsZero (Run_CompletedAt run) then Some SkipMissingCompletion
  else
    let completed := instant (Run_CompletedAt run) in
    if now <? completed then Some SkipFutureCompletion
    else if now <? completed + retention then Some SkipRetentionWindow
    else None.

Fixpoint evidence_keys (run : Run) (objectPrefix : string) (present : string -> bool) (keys : list string) : option string :=
  match keys with
  | [] => None
  | key :: rest =>
    if key =?= "" then Some SkipEvidenceNotFlushed
    else if negb (is_ok (validateArtifactKey objectPrefix (Run_UID run) key)) then Some SkipArtifactKeyMismatch
    else if negb (present key) then Some SkipEvidenceMissing
    else evidence_keys run objectPrefix present rest
  end.

Definition evidenceEligible (run : Run) (objectPrefix ledgerPrefix : string) (objectKeys : gset string) : option string :=
  if negb (Run_EvidenceFlushed run) then Some SkipEvidenceNotFlushed
  else if negb (Run_LedgerFlushed run) then Some SkipLedgerNotFlushed
  else
    match evidence_keys run objectPrefix (fun key => bool_decide (key ∈ objectKeys)) (Run_RequiredObjectKeys run) with
    | Some reason => Some reason
    | None =>
      if Run_EffectKey run =?= "" then None
      else if negb (ValidDigest (Run_EffectKey run)) then Some SkipLedgerNotFlushed
      else
        let hex := TrimPrefix (Run_EffectKey run) DigestPrefix in
        if forallb (fun segment =>
             bool_decide (objectPrefix +:+ "/" +:+ ledgerPrefix +:+ "/" +:+ segment +:+ "/" +:+ hex +:+ ".json" ∈ objectKeys))
             [LedgerClaimsSegment; LedgerOutcomesSegment]
        then None else Some SkipLedgerNotFlushed
    end.

Definition evidenceReferencesBound (run : Run) (objectPrefix : string) : option string :=
  if negb (Run_EvidenceFlushed run) then Some SkipEvidenceNotFlushed
  else evidence_keys run objectPrefix (fun _ => true) (Run_RequiredObjectKeys run).

Definition inventoryKeySet (artifacts : list Artifact) (ledger : list LedgerObject) : gset string :=
  list_to_set (List.filter (fun key => key !=? "") (map Artifact_Key artifacts)) ∪
  list_to_set (List.filter (fun key => key !=? "") (map Object_Key ledger)).

Definition nul_byte : string := of_bytes [0].
Definition resourceKey (r : Resource) : string :=
  Resource_Kind r +:+ nul_byte +:+ Resource_Namespace r +:+ nul_byte +:+ Resource_Name r.

Definition occurs (key : string) (keys : list string) : Z := slen (List.filter (String.eqb key) keys).
(** Membership in the maps [duplicateResourceKeys] and [duplicateArtifactKeys]
    build. *)
Definition duplicateResourceKey (resources : list Resource) (key : string) : bool :=
  1 <? occurs key (map resourceKey resources).
Definition duplicateArtifactKey (artifacts : list Artifact) (key : string) : bool :=
  (key !=? "") && (1 <? occurs key (map Artifact_Key artifacts)).

(** ** The effect ledger in the inventory (ledger.go) *)

Definition ledgerPublishOperation : string := "publish/pr".
Definition ledgerMCPWrite : string := "mcp-write".
Definition ledgerMCPPublish : string := "mcp-publish".

Record ledgerPair : Type := MkLedgerPair {
  ledgerPair_EffectKey : string;
  ledgerPair_Claim : option (LedgerObject * Claim);
  ledgerPair_Outcome : option (LedgerObject * Outcome);
  ledgerPair_Tombstone : option (LedgerObject * Tombstone)
}.

Definition isLowerHex (value : string) : bool := forallb (fun r => is_digit r || between 0x61 0x66 r) (runes value).

Definition ledgerRoot (objectPrefix ledgerPrefix : string) : string :=
  TrimSuffix objectPrefix "/" +:+ "/" +:+ Trim ledgerPrefix slash +:+ "/".

(** The key's segment and the effect it names.  [strings.ToLower(hex) != hex]
    excludes upper-case letters, which are not lower-case hexadecimal. *)
Definition parseLedgerObjectKey (objectPrefix ledgerPrefix key : string) : result error (string * string) :=
  if negb (is_ok (validateObjectKey key false)) then Err ErrLedgerInventory
  else
    let root := ledgerRoot objectPrefix ledgerPrefix in
    if negb (HasPrefix key root) then Err ErrLedgerInventory
    else match Split (TrimPrefix key root) slash with
    | [segment; name] =>
      if (name =?= "") || negb (HasSuffix name ".json") then Err ErrLedgerInventory
      else if (segment !=? LedgerClaimsSegment) && (segment !=? LedgerOutcomesSegment) && (segment !=? LedgerTombstonesSegment)
      then Err ErrLedgerInventory
      else
        let hex := TrimSuffix name ".json" in
        if negb (len hex =? 64) || negb (isLowerHex hex) then Err ErrLedgerInventory
        else Ok (segment, DigestPrefix +:+ hex)
    | _ => Err ErrLedgerInventory
    end.

Record ledger_maps : Type := MkMaps {
  claims : gmap string (LedgerObject * Claim);
  outcomes : gmap string (LedgerObject * Outcome);
  tombstones : gmap string (LedgerObject * Tombstone)
}.

(** One object of the inventory goes into the map of its segment. *)
Definition index_object (policy : Policy) (m : ledger_maps) (object : LedgerObject) : result error ledger_maps :=
  if (slen (Object_Body object) =? 0) || (MaxLedgerBodyBytes <? slen (Object_Body object)) then Err ErrLedgerInventory
  else
    let? (segment, effectKey) := parseLedgerObjectKey (ObjectPrefix policy) (LedgerPrefix policy) (Object_Key object) in
    if segment =?= LedgerClaimsSegment then
      match claims m !! effectKey, DecodeClaim (Object_Body object) with
      | None, Ok claim =>
        if Claim_EffectKey claim !=? effectKey then Err ErrLedgerInventory
        else Ok (MkMaps (<[effectKey := (object, claim)]> (claims m)) (outcomes m) (tombstones m))
      | _, _ => Err ErrLedgerInventory
      end
    else if segment =?= LedgerOutcomesSegment then
      match outcomes m !! effectKey, DecodeOutcome (Object_Body object) with
      | None, Ok outcome =>
        if Outcome_EffectKey outcome !=? effectKey then Err ErrLedgerInventory
        else Ok (MkMaps (claims m) (<[effectKey := (object, outcome)]> (outcomes m)) (tombstones m))
      | _, _ => Err ErrLedgerInventory
      end
    else
      match tombstones m !! effectKey, DecodeTombstone (Object_Body object) with
      | None, Ok tombstone =>
        if Tombstone_EffectKey tombstone !=? effectKey then Err ErrLedgerInventory
        else Ok (MkMaps (claims m) (outcomes m) (<[effectKey := (object, tombstone)]> (tombstones m)))
      | _, _ => Err ErrLedgerInventory
      end.

Definition indexLedger (policy : Policy) (objects : list LedgerObject) : result error (list ledgerPair) :=
  let? m := fold_result (index_object policy) (MkMaps ∅ ∅ ∅) objects in
  let ordered := Strings (elements (dom (claims m) ∪ dom (outcomes m))) in
  Ok (map (fun key => MkLedgerPair key (claims m !! key) (outcomes m !! key) (tombstones m !! key)) ordered).

Definition skipLedger (p : Plan) (pair : ledgerPair) (reason : string) : Plan :=
  let runUID := match ledgerPair_Claim pair with Some (_, claim) => Claim_RunUID claim | None => "" end in
  add_skip p (MkSkip runUID "" "" "" "" (ledgerPair_EffectKey pair) reason).

(** [resolved.ValidBaseSHA] *)
Definition ValidBaseSHA (value : string) : bool :=
  if negb (len value =? 40) && negb (len value =? 64) then false
  else forallb (fun r => is_digit r || between 0x61 0x66 r) (runes value).

Definition ledgerEffectKeyMatches (run : Run) (claim : Claim) : bool :=
  let digest :=
    if Claim_Operation claim =?= ledgerPublishOperation then
      if negb (ValidDigest (Run_PatchDigest run)) || (Run_PatchDigest run !=? Claim_RequestDigest claim) then None
      else Some (Run_PatchDigest run)
    else if (Claim_Operation claim =?= ledgerMCPWrite) || (Claim_Operation claim =?= ledgerMCPPublish)
    then Some (Claim_RequestDigest claim)
    else None in
  match digest with
  | None => false
  | Some digest =>
    match EffectKey (Run_UID run) (Run_BaseSHA run) digest (Claim_Operation claim) with
    | Ok expected => expected =?= Claim_EffectKey claim
    | Err _ => false
    end
  end.

Definition sameTombstoneIdentity (left right : Tombstone) : bool :=
  (Tombstone_SchemaVersion left =? Tombstone_SchemaVersion right) && (Tombstone_EffectKey left =?= Tombstone_EffectKey right) &&
  (Tombstone_RequestDigest left =?= Tombstone_RequestDigest right) && (Tombstone_Operation left =?= Tombstone_Operation right) &&
  (Tombstone_RunUID left =?= Tombstone_RunUID right) && (Tombstone_State left =?= Tombstone_State right) &&
  negb (IsZero (Tombstone_RetiredAt left)) && negb (IsZero (Tombstone_RetiredAt right)).

Definition hasRetainedArtifact (prefix runUID : string) (artifacts : list Artifact) : bool :=
  let want := runPrefix prefix runUID in
  existsb (fun a => (Artifact_RunUID a =?= runUID) || HasPrefix (Artifact_Key a) want) artifacts.

Definition hasRetainedWorkspace (run : Run) (resources : list Resource) : bool :=
  let work := List.filter (fun c => Child_Role c =?= WorkRole) (Run_Children run) in
  let childUIDs := map Child_UID work in
  let childNames := map Child_Name work in
  existsb (fun r =>
    (Resource_Kind r =?= PersistentVolumeKind) &&
    ((label r RunUIDLabelKey =?= Run_UID run) ||
     existsb (fun owner =>
       (Owner_UID owner =?= Run_UID run) ||
       ((Owner_Kind owner =?= SandboxKind) &&
        (((Owner_Name owner !=? "") && bool_decide (Owner_Name owner ∈ childNames)) ||
         ((Owner_UID owner !=? "") && bool_decide (Owner_UID owner ∈ childUIDs))))) (Resource_OwnerReferences r))) resources.

Definition outcomeAction (mode runUID pairKey key etag : string) : Action :=
  MkAction mode runUID "ledger-outcome" pairKey "terminal effect outcome exceeded retention window"
    (MkTarget "" ObjectStoreKind "" "" "" key etag).
Definition claimAction (mode runUID pairKey key etag : string) : Action :=
  MkAction mode runUID "ledger-claim" pairKey "terminal effect claim exceeded retention window"
    (MkTarget "" ObjectStoreKind "" "" "" key etag).

(** The reason a complete pair is not retired, in the order of the checks. *)
Definition pair_blocked (p : Plan) (effectKey : string) (claimObject outcomeObject : LedgerObject) (claim : Claim) (outcome : Outcome)
  (run : Run) (policy : Policy) (inventory : Inventory) (now : Time) : option string :=
  if Outcome_State outcome =?= OutcomeUnknown then Some SkipLedgerUnknown
  else if (Outcome_State outcome !=? OutcomeSucceeded) && (Outcome_State outcome !=? OutcomeFailed) then Some SkipLedgerUnknown
  else if (Outcome_RunUID outcome =?= "") || (Claim_RunUID claim !=? Run_UID run) || (Outcome_RunUID outcome !=? Run_UID run) ||
          (Claim_EffectKey claim !=? effectKey) || (Outcome_EffectKey outcome !=? effectKey) ||
          (Claim_RequestDigest claim !=? Outcome_RequestDigest outcome) || (Claim_Operation claim =?= "")
  then Some SkipLedgerIdentityMismatch
  else if (Run_EffectKey run !=? "") && (Run_EffectKey run !=? effectKey) then Some SkipLedgerIdentityMismatch
  else match terminalEligible run (instant now) 0 with
  | Some reason => Some reason
  | None =>
    if negb (Run_LedgerFlushed run) then Some SkipLedgerNotFlushed
    else match evidenceReferencesBound run (ObjectPrefix policy) with
    | Some reason => Some reason
    | None =>
      if (LedgerCutoff p <? instant (Run_CompletedAt run)) || (LedgerCutoff p <? instant (Outcome_RecordedAt outcome)) ||
         After (Claim_CreatedAt claim) now || After (Outcome_RecordedAt outcome) now ||
         After (Claim_CreatedAt claim) (Outcome_RecordedAt outcome) then Some SkipLedgerYoung
      else if negb (ValidBaseSHA (Run_BaseSHA run)) || negb (ledgerEffectKeyMatches run claim) then Some SkipLedgerIdentityMismatch
      else if hasRetainedArtifact (ObjectPrefix policy) (Run_UID run) (Artifacts inventory) then Some SkipLedgerArtifacts
      else if hasRetainedWorkspace run (Resources inventory) then Some SkipLedgerWorkspace
      else if (Object_ETag claimObject =?= "") || (Object_ETag outcomeObject =?= "") then Some SkipLedgerETagMissing
      else None
    end
  end.

(** [Plan.ledgerPair]; [now] is in UTC. *)
Definition Plan_ledgerPair (p : Plan) (pair : ledgerPair) (run : Run) (policy : Policy) (inventory : Inventory) (now : Time) : Plan :=
  match ledgerPair_Claim pair, ledgerPair_Outcome pair with
  | Some (claimObject, claim), Some (outcomeObject, outcome) =>
    let effectKey := ledgerPair_EffectKey pair in
    match pair_blocked p effectKey claimObject outcomeObject claim outcome run policy inventory now with
    | Some reason => skipLedger p pair reason
    | None =>
      let tombstone := MkTombstone SchemaVersion effectKey (Claim_RequestDigest claim) (Claim_Operation claim) (Run_UID run)
                         (Outcome_State outcome) now in
      match EncodeTombstone tombstone with
      | Err _ => skipLedger p pair SkipLedgerIdentityMismatch
      | Ok tombstoneBody =>
        if match ledgerPair_Tombstone pair with Some (_, t) => negb (sameTombstoneIdentity t tombstone) | None => false end
        then skipLedger p pair SkipLedgerTombstone
        else
          let planned := MkPairPlan effectKey (Run_UID run) claim outcome (Object_Key claimObject) (Object_Key outcomeObject)
            (Object_ETag claimObject) (Object_ETag outcomeObject) tombstone
            (ledgerRoot (ObjectPrefix policy) (LedgerPrefix policy) +:+ LedgerTombstonesSegment +:+ "/" +:+
             TrimPrefix effectKey DigestPrefix +:+ ".json")
            tombstoneBody (bool_decide (is_Some (ledgerPair_Tombstone pair))) in
          let mode := actionMode p in
          add_action (add_action (add_pair p planned)
            (outcomeAction mode (Run_UID run) effectKey (Pair_OutcomeKey planned) (Pair_OutcomeETag planned)))
            (claimAction mode (Run_UID run) effectKey (Pair_ClaimKey planned) (Pair_ClaimETag planned))
      end
    end
  | _, _ => skipLedger p pair SkipLedgerIncomplete
  end.

(** ** Planning *)

Section Planner.
Context (IsDNS1123Subdomain : string -> list string).

Definition dns_ok (name : string) : bool := slen (IsDNS1123Subdomain name) =? 0.

Definition validateRunIdentity (run : Run) : result error unit :=
  if negb (dns_ok (Run_Namespace run)) || negb (dns_ok (Run_Name run)) || negb (validUID (Run_UID run)) ||
     negb (ValidDigest (Run_SpecDigest run)) then Err ErrInvalidRun
  else if (Run_Phase run !=? "") && negb (IsKnownPhase (Run_Phase run)) then Err ErrInvalidRun
  else Ok tt.

Definition validateResourceIdentity (r : Resource) : result error unit :=
  if (Resource_Namespace r =?= "") || negb (dns_ok (Resource_Namespace r)) || (Resource_Name r =?= "") ||
     negb (dns_ok (Resource_Name r)) || negb (validUID (Resource_UID r)) then Err ErrInvalidRun
  else Ok tt.

(** The runs by UID, and the UIDs seen more than once. *)
Record run_index : Type := MkIndex { by_uid : gmap string Run; duplicates : gset string }.

Definition index_run (acc : Plan * run_index) (run : Run) : Plan * run_index :=
  let '(plan, ix) := acc in
  if negb (is_ok (validateRunIdentity run)) then
    (add_skip plan (MkSkip (Run_UID run) AgentRunKind (Run_Namespace run) (Run_Name run) "" "" SkipInvalidRun), ix)
  else if bool_decide (is_Some (by_uid ix !! Run_UID run)) then (plan, MkIndex (by_uid ix) ({[Run_UID run]} ∪ duplicates ix))
  else (plan, MkIndex (<[Run_UID run := run]> (by_uid ix)) (duplicates ix)).
Definition indexRuns (input : list Run) (plan : Plan) : Plan * run_index := foldl index_run (plan, MkIndex ∅ ∅) input.

Definition Plan_secret (p : Plan) (resource : Resource) (run : Run) (now : Z) : Plan :=
  match terminalEligible run now 0 with
  | Some reason => skipResource p resource (Run_UID run) reason
  | None =>
    if (Resource_Namespace resource !=? Run_Namespace run) || (label resource RunUIDLabelKey !=? Run_UID run)
    then skipResource p resource (Run_UID run) SkipRunLabelMismatch
    else if label resource ManagedByLabelKey !=? RunSecretManagedBy then skipResource p resource (Run_UID run) SkipManagedByMismatch
    else match requireSpecDigest resource run with
    | Err message => skipResource p resource (Run_UID run) (specDigestSkipReason message)
    | Ok _ =>
      match requireRunOwner (Resource_OwnerReferences resource) run with
      | Err e => skipResource p resource (Run_UID run) (ownerSkipReason e)
      | Ok _ =>
        if negb (is_ok (validateResourceIdentity resource)) then skipResource p resource (Run_UID run) SkipInvalidResource
        else add_action p (MkAction (actionMode p) (Run_UID run) "credentials" "" "terminal per-run credentials are no longer needed"
               (MkTarget CoreAPIVersion SecretKind (Resource_Namespace resource) (Resource_Name resource) (Resource_UID resource) "" ""))
      end
    end
  end.

Definition Plan_workspacePVC (p : Plan) (resource : Resource) (run : Run) (now : Z) (objectPrefix ledgerPrefix : string)
  (objectKeys : gset string) : Plan :=
  match terminalEligible run now 0 with
  | Some reason => skipResource p resource (Run_UID run) reason
  | None =>
    match evidenceEligible run objectPrefix ledgerPrefix objectKeys with
    | Some reason => skipResource p resource (Run_UID run) reason
    | None =>
      if WorktreeCutoff p <? instant (Run_CompletedAt run) then skipResource p resource (Run_UID run) SkipRetentionWindow
      else if (Resource_Namespace resource !=? Run_Namespace run) || (label resource RunUIDLabelKey !=? Run_UID run)
      then skipResource p resource (Run_UID run) SkipRunLabelMismatch
      else if label resource RoleLabelKey !=? WorkRole then skipResource p resource (Run_UID run) SkipRoleLabelMismatch
      else match workSandbox run with
      | None => skipResource p resource (Run_UID run) SkipWorkSandboxMissing
      | Some child =>
        match requireWorkspaceOwner (Resource_OwnerReferences resource) child run with
        | Err e => skipResource p resource (Run_UID run) (ownerSkipReason e)
        | Ok _ =>
          match requireSpecDigest resource run with
          | Err message => skipResource p resource (Run_UID run) (specDigestSkipReason message)
          | Ok _ =>
            if negb (is_ok (validateResourceIdentity resource)) then skipResource p resource (Run_UID run) SkipInvalidResource
            else add_action p (MkAction (actionMode p) (Run_UID run) WorkRole "" "terminal worktree PVC exceeded retention window"
                   (MkTarget CoreAPIVersion PersistentVolumeKind (Resource_Namespace resource) (Resource_Name resource)
                      (Resource_UID resource) "" ""))
          end
        end
      end
    end
  end.

Definition Plan_artifact (p : Plan) (artifact : Artifact) (run : Run) (objectPrefix ledgerPrefix : string)
  (objectKeys : gset string) (now : Z) : Plan :=
  match terminalEligible run now 0 with
  | Some reason => skipArtifact p artifact reason
  | None =>
    if negb (Run_EvidenceFlushed run) then skipArtifact p artifact SkipEvidenceNotFlushed
    else match evidenceEligible run objectPrefix ledgerPrefix objectKeys with
    | Some reason => skipArtifact p artifact reason
    | None =>
      if IsZero (Artifact_CreatedAt artifact) then skipArtifact p artifact SkipArtifactCreatedMissing
      else if now <? instant (Artifact_CreatedAt artifact) then skipArtifact p artifact SkipArtifactCreatedFuture
      else if ArtifactCutoff p <? instant (Artifact_CreatedAt artifact) then skipArtifact p artifact SkipArtifactYoung
      else if Artifact_RunUID artifact !=? Run_UID run then skipArtifact p artifact SkipArtifactRunMismatch
      else match validateArtifactKey objectPrefix (Run_UID run) (Artifact_Key artifact) with
      | Err ErrInvalidObjectKey => skipArtifact p artifact SkipArtifactKeyInvalid
      | Err _ => skipArtifact p artifact SkipArtifactKeyMismatch
      | Ok _ =>
        if Artifact_SizeBytes artifact <? 0 then skipArtifact p artifact SkipInvalidResource
        else if Artifact_ETag artifact =?= "" then skipArtifact p artifact SkipArtifactETagMissing
        else add_action p (MkAction (actionMode p) (Run_UID run) "" "" "terminal artifact exceeded retention window"
               (MkTarget "" ObjectStoreKind "" "" "" (Artifact_Key artifact) (Artifact_ETag artifact)))
      end
    end
  end.

(** The bodies of the three loops of [Policy.Plan]. *)
Definition plan_resource (policy : Policy) (now : Z) (ix : run_index) (resources : list Resource) (objectKeys : gset string)
  (p : Plan) (resource : Resource) : Plan :=
  let runUID := label resource RunUIDLabelKey in
  if runUID =?= "" then skipResource p resource "" SkipMissingRunLabel
  else match by_uid ix !! runUID with
  | None => skipResource p resource runUID SkipRunNotFound
  | Some run =>
    if bool_decide (runUID ∈ duplicates ix) then skipResource p resource runUID SkipDuplicateRun
    else if duplicateResourceKey resources (resourceKey resource) then skipResource p resource runUID SkipDuplicateResource
    else if Resource_Deleting resource then skipResource p resource runUID SkipDeletingResource
    else if Resource_Kind resource =?= SecretKind then Plan_secret p resource run now
    else if Resource_Kind resource =?= PersistentVolumeKind
    then Plan_workspacePVC p resource run now (ObjectPrefix policy) (LedgerPrefix policy) objectKeys
    else skipResource p resource runUID SkipUnsupportedResource
  end.

Definition plan_artifact (policy : Policy) (now : Z) (ix : run_index) (artifacts : list Artifact) (objectKeys : gset string)
  (p : Plan) (artifact : Artifact) : Plan :=
  let runUID := Artifact_RunUID artifact in
  if runUID =?= "" then skipArtifact p artifact SkipArtifactRunMismatch
  else match by_uid ix !! runUID with
  | None => skipArtifact p artifact SkipRunNotFound
  | Some run =>
    if bool_decide (runUID ∈ duplicates ix) then skipArtifact p artifact SkipDuplicateRun
    else if duplicateArtifactKey artifacts (Artifact_Key artifact) then skipArtifact p artifact SkipDuplicateArtifact
    else Plan_artifact p artifact run (ObjectPrefix policy) (LedgerPrefix policy) objectKeys now
  end.

Definition plan_pair (policy : Policy) (now : Time) (ix : run_index) (inventory : Inventory) (p : Plan) (pair : ledgerPair) : Plan :=
  match ledgerPair_Claim pair with
  | None => skipLedger p pair SkipLedgerIncomplete
  | Some (_, claim) =>
    match by_uid ix !! Claim_RunUID claim with
    | None => skipLedger p pair SkipRunNotFound
    | Some run =>
      if bool_decide (Claim_RunUID claim ∈ duplicates ix) then skipLedger p pair SkipDuplicateRun
      else Plan_ledgerPair p pair run policy inventory now
    end
  end.

(** The sort keys of [actionLess] and [skipLess]; ties are actions and skips
    that agree on all of them. *)
Definition action_key (a : Action) :=
  let t := Action_Target a in
  (Target_ObjectKey t, (Target_Kind t, (Target_Namespace t, (Target_Name t, (Target_UID t,
    (Action_RunUID a, (Action_Role a, (Action_Mode a, Action_Reason a)))))))).
Definition skip_key (s : Skip) :=
  (Skip_ObjectKey s, (Skip_Kind s, (Skip_Namespace s, (Skip_Name s, (Skip_UID s, (Skip_RunUID s, Skip_Reason s)))))).
Notation by_string c := (compare_pair String.compare c).
Definition sort_actions : list Action -> list Action :=
  sort_on action_key (by_string (by_string (by_string (by_string (by_string (by_string (by_string (by_string String.compare)))))))).
Definition sort_skips : list Skip -> list Skip :=
  sort_on skip_key (by_string (by_string (by_string (by_string (by_string (by_string String.compare)))))).

(** [now] is [now.UTC()]. *)
Definition Policy_Plan (policy : Policy) (now : Time) (inventory : Inventory) : result error Plan :=
  let? normalized := Policy_normalized policy in
  if IsZero now then Err ErrInvalidNow
  else
    let t := instant now in
    let plan := MkPlan (Policy_DryRun normalized) (t - days (ArtifactRetentionDays normalized))
      (t - days (WorktreeRetentionDays normalized)) (t - days (LedgerRetentionDays normalized)) [] [] [] in
    let '(plan, ix) := indexRuns (Runs inventory) plan in
    let objectKeys := inventoryKeySet (Artifacts inventory) (LedgerObjects inventory) in
    let? pairs := indexLedger normalized (LedgerObjects inventory) in
    let plan := foldl (plan_resource normalized t ix (Resources inventory) objectKeys) plan (Resources inventory) in
    let plan := foldl (plan_artifact normalized t ix (Artifacts inventory) objectKeys) plan (Artifacts inventory) in
    let plan := foldl (plan_pair normalized now ix inventory) plan pairs in
    let plan := MkPlan (Plan_DryRun plan) (ArtifactCutoff plan) (WorktreeCutoff plan) (LedgerCutoff plan)
      (sort_actions (Actions plan)) (LedgerPairs plan) (sort_skips (Skipped plan)) in
    if MaxActionsPerPlan normalized <? slen (Actions plan) then Err ErrActionLimit else Ok plan.
End Planner.
