(* ===== verification/RetentionApply.v ===== *)
(** * Applying a retention plan (src/v3/internal/retention/applier.go)

    The applier runs a plan against the cluster and the object store.  Deletions
    carry the UID or ETag of what was inventoried; a ledger pair is deleted after
    its permanent tombstone is known to be there, the outcome before the claim. *)

From S2P Require Import Prelude Order GoStrings Digest GoTime Fsm Store Effects Retention.
Local Open Scope go_scope.
Local Open Scope string_scope.
Local Open Scope Z_scope.
Local Open Scope list_scope.

Inductive apply_error : Type :=
| ErrInvalidApplierConfig
| ErrUnsupportedAction
| ErrTooManyActions (* [ErrActionLimit] *)
| ErrDelete (e : store_error)
| ErrFence.

Record ApplierConfig : Type := MkConfig {
  Config_ObjectPrefix : string;
  Config_LedgerPrefix : string;
  MaxActions : Z;
  Enforce : bool;
  Config_DryRun : bool;
  LifecycleAttested : bool
}.

Record ApplyResult : Type := MkResult { Result_Action : Action; Result_Result : string; Result_Reason : string }.

(** [ApplyReport]; the report of one pair uses the counters and results too. *)
Record ApplyReport : Type := MkReport {
  WouldDelete : Z; Deleted : Z; Report_Skipped : Z; Failed : Z; Guarded : bool; Results : list ApplyResult
}.

Definition ApplyResultDeleted : string := "deleted".
Definition ApplyResultAlreadyAbsent : string := "already-absent".
Definition ApplyResultSkipped : string := "skipped".
Definition ApplyResultFenceConflict : string := "fence-conflict".
Definition ApplyResultFailed : string := "failed".
Definition ApplyReasonDryRun : string := "dry-run".
Definition ApplyReasonEnforcementOff : string := "enforcement-disabled".
Definition ApplyReasonLifecycleGuard : string := "lifecycle-attestation-missing".
Definition ApplyReasonFinalizerSafe : string := "finalizer-safe-delete".
Definition ApplyReasonInvalidAction : string := "invalid-action".

Definition Config_normalized (c : ApplierConfig) : result apply_error ApplierConfig :=
  if negb (is_ok (validateObjectKey (TrimSuffix (Config_ObjectPrefix c) "/") false)) then Err ErrInvalidApplierConfig
  else
    let c := if Config_LedgerPrefix c =?= ""
             then MkConfig (Config_ObjectPrefix c) (LedgerPrefix DefaultPolicy) (MaxActions c) (Enforce c) (Config_DryRun c) (LifecycleAttested c)
             else c in
    if negb (is_ok (validateObjectKey (TrimSuffix (Config_LedgerPrefix c) "/") false)) then Err ErrInvalidApplierConfig
    else
      let c := if MaxActions c =? 0
               then MkConfig (Config_ObjectPrefix c) (Config_LedgerPrefix c) DefaultMaxActionsPerPlan (Enforce c) (Config_DryRun c) (LifecycleAttested c)
               else c in
      if MaxActions c <? 1 then Err ErrInvalidApplierConfig
      else if Enforce c && Config_DryRun c then Err ErrInvalidApplierConfig
      else Ok c.

(** ** Validation of the ledger part *)

Definition ledger_claim_role : string := "ledger-claim".
Definition ledger_outcome_role : string := "ledger-outcome".

(** The ledger actions by pair and role. *)
Notation pair_actions := (gmap string (gmap string Action)).
Definition group_action (acc : pair_actions) (a : Action) : result apply_error pair_actions :=
  if Action_PairKey a =?= "" then Ok acc
  else if (Action_Role a !=? ledger_claim_role) && (Action_Role a !=? ledger_outcome_role) then Err ErrUnsupportedAction
  else
    let roles := default ∅ (acc !! Action_PairKey a) in
    if bool_decide (is_Some (roles !! Action_Role a)) then Err ErrUnsupportedAction
    else Ok (<[Action_PairKey a := <[Action_Role a := a]> roles]> acc).

Definition key_names (config : ApplierConfig) (key segment effectKey : string) : bool :=
  match parseLedgerObjectKey (Config_ObjectPrefix config) (Config_LedgerPrefix config) key with
  | Ok (s, k) => (s =?= segment) && (k =?= effectKey)
  | Err _ => false
  end.

Definition pair_well_formed (pair : LedgerPairPlan) : bool :=
  let e := Pair_EffectKey pair in
  ValidDigest e && (Pair_RunUID pair !=? "") && (Claim_EffectKey (Pair_Claim pair) =?= e) &&
  (Outcome_EffectKey (Pair_Outcome pair) =?= e) &&
  (Claim_RequestDigest (Pair_Claim pair) =?= Outcome_RequestDigest (Pair_Outcome pair)) &&
  (Claim_RunUID (Pair_Claim pair) =?= Pair_RunUID pair) && (Outcome_RunUID (Pair_Outcome pair) =?= Pair_RunUID pair) &&
  ((Outcome_State (Pair_Outcome pair) =?= OutcomeSucceeded) || (Outcome_State (Pair_Outcome pair) =?= OutcomeFailed)) &&
  (Pair_ClaimETag pair !=? "") && (Pair_OutcomeETag pair !=? "") &&
  negb (slen (Pair_TombstoneBody pair) =? 0) && (slen (Pair_TombstoneBody pair) <=? MaxLedgerBodyBytes).

Definition tombstone_matches (pair : LedgerPairPlan) : bool :=
  match DecodeTombstone (Pair_TombstoneBody pair) with
  | Err _ => false
  | Ok t =>
    sameTombstoneIdentity t (Pair_Tombstone pair) && (Tombstone_State t =?= Outcome_State (Pair_Outcome pair)) &&
    (Tombstone_EffectKey t =?= Pair_EffectKey pair) && (Tombstone_RequestDigest t =?= Claim_RequestDigest (Pair_Claim pair)) &&
    (Tombstone_Operation t =?= Claim_Operation (Pair_Claim pair)) && (Tombstone_RunUID t =?= Pair_RunUID pair)
  end.

Definition action_matches (plan : Plan) (pair : LedgerPairPlan) (a : Action) (key etag : string) : bool :=
  (Action_Mode a =?= actionMode plan) && (Action_RunUID a =?= Pair_RunUID pair) && (Action_PairKey a =?= Pair_EffectKey pair) &&
  (Target_ObjectKey (Action_Target a) =?= key) && (Target_ETag (Action_Target a) =?= etag).

Definition pair_has_actions (plan : Plan) (actions : pair_actions) (pair : LedgerPairPlan) : bool :=
  let roles := default ∅ (actions !! Pair_EffectKey pair) in
  match roles !! ledger_claim_role, roles !! ledger_outcome_role with
  | Some claim, Some outcome =>
    (Z.of_nat (size roles) =? 2) && action_matches plan pair claim (Pair_ClaimKey pair) (Pair_ClaimETag pair) &&
    action_matches plan pair outcome (Pair_OutcomeKey pair) (Pair_OutcomeETag pair)
  | _, _ => false
  end.

(** One pair of the plan; the accumulator is the set of effects seen. *)
Definition check_pair (plan : Plan) (config : ApplierConfig) (actions : pair_actions) (seen : gset string) (pair : LedgerPairPlan) :
  result apply_error (gset string) :=
  if bool_decide (Pair_EffectKey pair ∈ seen) then Err ErrUnsupportedAction
  else if negb (pair_well_formed pair) then Err ErrUnsupportedAction
  else if negb (key_names config (Pair_ClaimKey pair) LedgerClaimsSegment (Pair_EffectKey pair)) then Err ErrUnsupportedAction
  else if negb (key_names config (Pair_OutcomeKey pair) LedgerOutcomesSegment (Pair_EffectKey pair)) then Err ErrUnsupportedAction
  else if negb (key_names config (Pair_TombstoneKey pair) LedgerTombstonesSegment (Pair_EffectKey pair)) then Err ErrUnsupportedAction
  else if negb (tombstone_matches pair) then Err ErrUnsupportedAction
  else if negb (pair_has_actions plan actions pair) then Err ErrUnsupportedAction
  else Ok ({[Pair_EffectKey pair]} ∪ seen).

Definition validateLedgerPlan (plan : Plan) (config : ApplierConfig) : result apply_error unit :=
  match LedgerPairs plan with
  | [] => if existsb (fun a => Action_PairKey a !=? "") (Actions plan) then Err ErrUnsupportedAction else Ok tt
  | _ =>
    let? actions := fold_result group_action ∅ (Actions plan) in
    let? seen := fold_result (check_pair plan config actions) ∅ (LedgerPairs plan) in
    if bool_decide (dom actions ⊆ seen) then Ok tt else Err ErrUnsupportedAction
  end.

(** ** Ledger pairs *)

Definition ensureLedgerTombstone (pair : LedgerPairPlan) : prog (option apply_error) :=
  let identified := fun body =>
    match DecodeTombstone body with
    | Ok t => if sameTombstoneIdentity t (Pair_Tombstone pair) then None else Some ErrFence
    | Err _ => Some ErrFence
    end in
  if Pair_TombstoneExists pair then
    Get (Pair_TombstoneKey pair) (fun r =>
      match r with
      | Err e => Ret (Some (ErrDelete e))
      | Ok body => Ret (identified body)
      end)
  else
    Create (Pair_TombstoneKey pair) (Pair_TombstoneBody pair) (fun created =>
      match created with
      | Err e => Ret (Some (ErrDelete e))
      | Ok true => Ret None
      | Ok false =>
        Get (Pair_TombstoneKey pair) (fun r =>
          match r with
          | Err _ => Ret (Some ErrFence)
          | Ok body => Ret (identified body)
          end)
      end).

Definition skipped_pair (actions : list Action) (reason : string) : ApplyReport :=
  MkReport (slen actions) 0 (slen actions) 0 false (map (fun a => MkResult a ApplyResultSkipped reason) actions).
Definition failed_pair (actions : list Action) (reason : string) : ApplyReport :=
  MkReport 0 0 0 (slen actions) false (map (fun a => MkResult a ApplyResultFailed reason) actions).

(** The result of a deletion that left the object absent. *)
Definition gone (a : Action) (r : result store_error unit) : ApplyResult :=
  match r with
  | Ok _ => MkResult a ApplyResultDeleted ApplyReasonFinalizerSafe
  | Err _ => MkResult a ApplyResultAlreadyAbsent "idempotent-absent"
  end.

Definition applyLedgerPair (pairWriter : bool) (pair : LedgerPairPlan) (plan : Plan) (config : ApplierConfig) :
  prog (ApplyReport * option apply_error) :=
  let mode := actionMode plan in
  let outcome := outcomeAction mode (Pair_RunUID pair) (Pair_EffectKey pair) (Pair_OutcomeKey pair) (Pair_OutcomeETag pair) in
  let claim := claimAction mode (Pair_RunUID pair) (Pair_EffectKey pair) (Pair_ClaimKey pair) (Pair_ClaimETag pair) in
  let actions := [outcome; claim] in
  if Plan_DryRun plan || Config_DryRun config then Ret (skipped_pair actions ApplyReasonDryRun, None)
  else if negb (Enforce config) then Ret (skipped_pair actions ApplyReasonEnforcementOff, None)
  else if negb (LifecycleAttested config) then Ret (skipped_pair actions ApplyReasonLifecycleGuard, None)
  else if mode !=? ActionDelete then Ret (MkReport 0 0 0 0 false [], Some ErrUnsupportedAction)
  else if negb pairWriter then Ret (failed_pair actions "ledger-fence-store-unavailable", Some ErrUnsupportedAction)
  else
    let! fence := ensureLedgerTombstone pair in
    match fence with
    | Some e => Ret (failed_pair actions "ledger-fence-failed", Some e)
    | None =>
      Delete (Pair_OutcomeKey pair) (Pair_OutcomeETag pair) (fun r =>
        match r with
        | Err FenceConflict =>
          Ret (MkReport 0 0 2 0 false [MkResult outcome ApplyResultFenceConflict "uid-or-etag-fence-conflict";
                                       MkResult claim ApplyResultSkipped "ledger-outcome-not-retired"], None)
        | Err Unavailable =>
          Ret (MkReport 0 0 1 1 false [MkResult outcome ApplyResultFailed "delete-error";
                                       MkResult claim ApplyResultSkipped "ledger-outcome-not-retired"], Some (ErrDelete Unavailable))
        | _ =>
          Delete (Pair_ClaimKey pair) (Pair_ClaimETag pair) (fun c =>
            match c with
            | Err FenceConflict =>
              Ret (MkReport 0 1 1 0 false [gone outcome r; MkResult claim ApplyResultFenceConflict "uid-or-etag-fence-conflict"], None)
            | Err Unavailable =>
              Ret (MkReport 0 1 0 1 false [gone outcome r; MkResult claim ApplyResultFailed "delete-error"],
                   Some (ErrDelete Unavailable))
            | _ => Ret (MkReport 0 2 0 0 false [gone outcome r; gone claim c], None)
            end)
        end)
    end.

(** ** Actions *)

Definition runObjectKey (prefix runUID key : string) : string :=
  if negb (is_ok (validateArtifactKey prefix runUID key)) then "" else key.

Definition delete_answer (r : result store_error unit) : option apply_error :=
  match r with Ok _ => None | Err e => Some (ErrDelete e) end.

Definition applyAction (a : Action) (config : ApplierConfig) : prog (option apply_error) :=
  let t := Action_Target a in
  if Action_RunUID a =?= "" then Ret (Some ErrUnsupportedAction)
  else if (Target_Kind t =?= SecretKind) || (Target_Kind t =?= PersistentVolumeKind) then
    if (Target_Namespace t =?= "") || (Target_Name t =?= "") || negb (validUID (Target_UID t)) then Ret (Some ErrUnsupportedAction)
    else DeleteChild (Target_Kind t) (Target_Namespace t) (Target_Name t) (Target_UID t) (fun r => Ret (delete_answer r))
  else if Target_Kind t =?= ObjectStoreKind then
    if (Target_ObjectKey t =?= "") || (Target_ETag t =?= "") ||
       (Target_ObjectKey t !=? runObjectKey (Config_ObjectPrefix config) (Action_RunUID a) (Target_ObjectKey t))
    then Ret (Some ErrUnsupportedAction)
    else Delete (Target_ObjectKey t) (Target_ETag t) (fun r => Ret (delete_answer r))
  else Ret (Some ErrUnsupportedAction).

Definition add_report (r s : ApplyReport) : ApplyReport :=
  MkReport (WouldDelete r + WouldDelete s) (Deleted r + Deleted s) (Report_Skipped r + Report_Skipped s) (Failed r + Failed s)
    (Guarded r) (Results r ++ Results s).

Definition skipped_action (a : Action) (would : Z) (reason : string) : ApplyReport :=
  MkReport would 0 1 0 false [MkResult a ApplyResultSkipped reason].

(** What one action adds to the report, and its failure. *)
Definition apply_one (plan : Plan) (config : ApplierConfig) (a : Action) : prog (ApplyReport * option apply_error) :=
  if Plan_DryRun plan || Config_DryRun config then Ret (skipped_action a 1 ApplyReasonDryRun, None)
  else if negb (Enforce config) then Ret (skipped_action a 1 ApplyReasonEnforcementOff, None)
  else if negb (LifecycleAttested config) then Ret (skipped_action a 1 ApplyReasonLifecycleGuard, None)
  else if Action_Mode a !=? ActionDelete then Ret (skipped_action a 0 ApplyReasonInvalidAction, None)
  else
    let! e := applyAction a config in
    Ret (match e with
    | None => (MkReport 0 1 0 0 false [MkResult a ApplyResultDeleted ApplyReasonFinalizerSafe], None)
    | Some (ErrDelete NotFound) => (MkReport 0 1 0 0 false [MkResult a ApplyResultAlreadyAbsent "idempotent-absent"], None)
    | Some (ErrDelete FenceConflict) =>
      (MkReport 0 0 1 0 false [MkResult a ApplyResultFenceConflict "uid-or-etag-fence-conflict"], None)
    | Some failure => (MkReport 0 0 0 1 false [MkResult a ApplyResultFailed "delete-error"], Some failure)
    end).

(** Runs the parts in order, adding up their reports and failures. *)
Fixpoint apply_all {A : Type} (one : A -> prog (ApplyReport * option apply_error)) (items : list A)
  (report : ApplyReport) (failures : list apply_error) : prog (ApplyReport * list apply_error) :=
  match items with
  | [] => Ret (report, failures)
  | x :: rest =>
    let! (added, failure) := one x in
    apply_all one rest (add_report report added) (failures ++ option_list failure)
  end.

(** [errors.Join] of the failures is their list; the context and the clients
    are set. *)
Definition Apply (plan : Plan) (pairWriter : bool) (config : ApplierConfig) : prog (ApplyReport * list apply_error) :=
  let report := MkReport 0 0 0 0 false [] in
  match Config_normalized config with
  | Err e => Ret (report, [e])
  | Ok normalized =>
    if MaxActions normalized <? slen (Actions plan) then Ret (report, [ErrTooManyActions])
    else if (slen (Actions plan) =? 0) && (slen (LedgerPairs plan) =? 0) then Ret (report, [])
    else match validateLedgerPlan plan normalized with
    | Err e => Ret (report, [e])
    | Ok _ =>
      let report := MkReport 0 0 0 0 (negb (LifecycleAttested normalized) && Enforce normalized) [] in
      let! (report, failures) := apply_all (apply_one plan normalized)
        (List.filter (fun a => Action_PairKey a =?= "") (Actions plan)) report [] in
      apply_all (fun pair => applyLedgerPair pairWriter pair plan normalized) (LedgerPairs plan) report failures
    end
  end.
