(* ===== verification/LedgerSystem.v ===== *)
(** * Claims, commits and retention together

    Claims and commits keep the protocol of the ledger.  Any number of claims,
    commits and retention runs share one store.  Whatever the interleaving, the
    failures and the plans retention is given, an effect is granted at most once and
    has at most one recorded result. *)

From S2P Require Import Prelude Order GoStrings Digest GoTime StrictJson StrictJsonSpec Store Effects EffectsCodec LedgerProtocol Retention.
From S2P Require Import RetentionApply.
Local Open Scope go_scope.
Local Open Scope string_scope.
Local Open Scope Z_scope.
Local Open Scope list_scope.

(** Splits a program at every bind, request and case. *)
Ltac walk_requests :=
  repeat first [ done | apply requests_bind; [|intros ?] | progress cbn [requests refused unknown] | split | intros ? | case_match ].

Section Calls.
Context (l : Ledger).

Lemma tombstoneExists_requests C D key : requests C D (tombstoneExists l key).
Proof. unfold tombstoneExists. walk_requests. Qed.
Lemma readClaim_requests C D key : requests C D (readClaim key).
Proof. unfold readClaim. walk_requests. Qed.
Lemma ReadOutcome_requests C D key digest : requests C D (ReadOutcome l key digest).
Proof. unfold ReadOutcome. walk_requests. Qed.
Hint Resolve tombstoneExists_requests readClaim_requests ReadOutcome_requests : core.

Lemma unless_fenced_requests C D key c k : requests C D k -> requests C D (unless_fenced l key c k).
Proof. intros H. unfold unless_fenced. walk_requests. Qed.

Lemma claim_existing_requests C D c : requests C D (claim_existing l c).
Proof.
  unfold claim_existing. apply requests_bind; [auto|]. intros [c'|]; [|done]. case_match; [done|].
  apply unless_fenced_requests, requests_bind; [auto|]. intros [o|[| | | |[]|]]; try done.
  apply unless_fenced_requests. by case_match.
Qed.

Lemma Ledger_Claim_requests c : requests (fun _ => True) (fun _ => False) (Ledger_Claim l c).
Proof.
  unfold Ledger_Claim. case_match; [done|]. apply unless_fenced_requests. intros t. cbv zeta. case_match; [done|].
  case_match; [|done]. split; [done|]. intros [[]|]; [by apply unless_fenced_requests|apply claim_existing_requests|done].
Qed.

Lemma commit_unless_fenced_requests C D key k : requests C D k -> requests C D (commit_unless_fenced l key k).
Proof. intros H. unfold commit_unless_fenced. walk_requests. Qed.

Lemma Ledger_Commit_requests o : requests (fun _ => True) (fun _ => False) (Ledger_Commit l o).
Proof.
  unfold Ledger_Commit. case_match; [done|]. cbv zeta. apply commit_unless_fenced_requests, requests_bind; [auto|].
  intros [c|]; [|done]. case_match; [done|]. case_match; [done|]. intros t. cbv zeta. case_match; [done|].
  case_match; [|done]. split; [done|]. intros [[]|]; [by apply commit_unless_fenced_requests| |done].
  apply requests_bind; [auto|]. intros [o'|]; [|done]. case_match; [done|]. case_match; [done|].
  by apply commit_unless_fenced_requests.
Qed.

Lemma calls_guarded e p : (exists c, p = claim_call l c) \/ (exists o, p = commit_call l o) -> guarded l e p.
Proof.
  intros [[c ->]|[o ->]]; apply harmless_guarded, requests_bind; try done.
  - by eapply requests_impl; [..|apply Ledger_Claim_requests].
  - by eapply requests_impl; [..|apply Ledger_Commit_requests].
Qed.

(** ** Grants *)

Definition executes (e : string) (r : ClaimDecision * option Effects.error) : Prop := no_grant e (claim_reply r).

Lemma unless_fenced_answers P key c k :
  (forall e, P (MkDecision false false None, Some e)) -> P (MkDecision false true (Some c), Some ErrUnknown) ->
  answers P k -> answers P (unless_fenced l key c k).
Proof. intros H1 H2 H3. apply answers_any. intros [[]|]; cbn; auto. Qed.

Lemma claim_existing_answers e c : answers (executes e) (claim_existing l c).
Proof.
  apply answers_any. intros [c'|]; [|done]. case_match; [done|]. apply unless_fenced_answers; [done..|].
  apply answers_any. intros [o|[| | | |[]|]]; try done. apply unless_fenced_answers; [done..|]. by case_match.
Qed.

Lemma claim_call_unclaimed e c : unclaimed l e (claim_call l c).
Proof.
  unfold claim_call, Ledger_Claim. destruct (validClaim c) eqn:Hv; [|done]. cbn [negb]. unfold unless_fenced at 1.
  rewrite prog_bind_assoc. apply unclaimed_bind; [apply tombstoneExists_requests|]. intros [[]|]; try done.
  cbn [prog_bind unclaimed]. intros t. cbv zeta. case_match; [done|]. case_match; [|done].
  cbn [prog_bind unclaimed Claim_EffectKey set_created]. split.
  - intros _. unfold unless_fenced, tombstoneExists. unfold validClaim in Hv. rewrite !andb_true_iff in Hv. destruct Hv as [[[-> _] _] _]. cbn [negb].
    destruct (decide (Claim_EffectKey c = e)) as [-> |Hne].
    + right. eexists. eexists. cbn [prog_bind]. split_and!; [done|done|].
      intros [body|[]] Hx; cbn; [|done..]. by repeat (case_match; cbn).
    + left. cbn. intros [body|[]]; cbn; [|done..]. by repeat (case_match; cbn).
  - intros [[]|] Hr; [|apply silent_unclaimed, answers_bind, claim_existing_answers|done].
    apply silent_unclaimed. assert (Hne : Claim_EffectKey c <> e) by (intros Heq; apply Hr; [by rewrite Heq|done]).
    apply answers_bind, unless_fenced_answers; done.
Qed.

Lemma commit_call_unclaimed e o : unclaimed l e (commit_call l o).
Proof. apply silent_unclaimed, answers_any. by intros []. Qed.

Lemma claim_call_uncommitted e agrees c : uncommitted l e agrees (claim_call l c).
Proof. apply silent_uncommitted, answers_any. intros [[[] ? []] []]; done. Qed.

(** ** Outcomes *)

(** The bytes record an outcome with the same result. *)
Definition agrees (o : Outcome) (body : list Z) : Prop :=
  exists o', plain_outcome o' /\ canonicalJSON (outcome_json o') = Ok body /\
    Outcome_State o' = Outcome_State o /\ Outcome_ResultDigest o' = Outcome_ResultDigest o /\
    Outcome_ResultRef o' = Outcome_ResultRef o.


Lemma claimKey_outcomeKey e e' : claimKey l e <> outcomeKey l e'.
Proof.
  intros H. apply (f_equal bytes) in H. unfold claimKey, outcomeKey in H. rewrite !bytes_app in H.
  by apply app_inv_head in H.
Qed.

(** The last step of a commit: report the outcome if the fence is absent. *)
Lemma commit_fence e o body : ValidDigest e = true -> Outcome_EffectKey o = e -> agrees o body ->
  confirms l e agrees body
    (prog_bind (commit_unless_fenced l e (Ret None)) (fun r => Ret (match r with None => Committed o | Some _ => Other end))).
Proof.
  intros Hv He Ha. right. exists (Committed o). split; [|by intros _]. unfold commit_unless_fenced, tombstoneExists. rewrite Hv.
  cbn [negb prog_bind]. eexists. split; [reflexivity|]. split; [reflexivity|]. intros [b|[]] Hx; cbn; [|by destruct Hx|done..].
  by repeat (case_match; cbn).
Qed.

Lemma commit_call_uncommitted e o : wf_string (Outcome_ResultRef o) = true -> uncommitted l e agrees (commit_call l o).
Proof.
  intros Href. destruct (decide (Outcome_EffectKey o = e)) as [He|Hne];
    [|apply silent_uncommitted, answers_any; by intros []].
  unfold commit_call, Ledger_Commit. destruct (validOutcome o) eqn:Hv; [|done]. cbn [negb]. cbv zeta. rewrite He.
  assert (Hd : ValidDigest e = true /\ ValidDigest (Outcome_RequestDigest o) = true).
  { unfold validOutcome in Hv. rewrite He in Hv. destruct (ValidDigest e), (ValidDigest (Outcome_RequestDigest o)); done. }
  destruct Hd as [Hde Hdr]. unfold commit_unless_fenced at 1, tombstoneExists at 1. rewrite Hde. cbn [negb prog_bind uncommitted].
  split; [intros _ b; left; cbn; by repeat (case_match; cbn)|]. intros [b|[]] _; cbn [prog_bind];
    [apply silent_uncommitted; by repeat (case_match; cbn)| |done..].
  cbn [readClaim prog_bind uncommitted]. split; [by intros H%claimKey_outcomeKey|]. intros [cb|x] _; [|done].
  destruct (DecodeClaim cb) as [c|] eqn:Hc; [|done]. cbn [prog_bind]. case_match; [done|]. case_match; [done|].
  cbn [prog_bind uncommitted]. intros t. cbv zeta. case_match; [done|]. case_match; [|done]. cbn [prog_bind uncommitted]. split.
  - intros _. apply commit_fence; [done|done|]. eexists. split; [|split; [eassumption|done]].
    split_and!; [|done|by eapply DecodeClaim_run|done]. unfold validOutcome in *. cbn. by rewrite He in *.
  - intros [[]|] Hr; [by destruct Hr| |done]. unfold ReadOutcome. rewrite Hde. cbn [set_recorded Outcome_RequestDigest].
    rewrite Hdr. cbn [negb orb prog_bind uncommitted].
    assert (Hread : forall ob, confirms l e agrees ob (prog_bind (prog_bind (match DecodeOutcome ob with
      | Err _ => Ret (Err ErrCorrupt)
      | Ok outcome => if (Outcome_EffectKey outcome !=? e) || (Outcome_RequestDigest outcome !=? Outcome_RequestDigest o)
                      then Ret (Err ErrCorrupt) else Ret (Ok outcome) end) (fun read => match read with
      | Err e => Ret (Some e)
      | Ok existing => if Outcome_RunUID existing !=? Claim_RunUID c then Ret (Some ErrConflict)
        else if (Outcome_State existing !=? Outcome_State o) || (Outcome_ResultDigest existing !=? Outcome_ResultDigest o) ||
                (Outcome_ResultRef existing !=? Outcome_ResultRef o) then Ret (Some ErrConflict)
        else commit_unless_fenced l e (Ret None) end)) (fun r => Ret (match r with None => Committed o | Some _ => Other end)))).
    { intros ob. destruct (DecodeOutcome ob) as [ex|] eqn:Ho; [|by left]. destruct (_ || _); [by left|]. cbn [prog_bind].
      case_match; [by left|]. destruct (_ || _) eqn:Hsame; [by left|]. apply commit_fence; [done|done|].
      rewrite !orb_false_iff, !negb_false_iff, !bool_decide_eq_true in Hsame. destruct Hsame as [[? ?] ?].
      exists ex. split_and!; [by eapply DecodeOutcome_plain|by eapply DecodeOutcome_bytes|done..]. }
    split; [intros _; exact Hread|]. intros [ob|x] Hx; [|done]. by specialize (Hx eq_refl).
Qed.
End Calls.

(** ** Ledger keys *)

Lemma string_app_assoc (a b c : string) : (a +:+ b) +:+ c = a +:+ b +:+ c.
Proof. apply bytes_inj. rewrite !bytes_app. by rewrite <- (assoc_L (++)). Qed.
Lemma app_cancel (a b c : string) : a +:+ b = a +:+ c -> b = c.
Proof. intros H%(f_equal bytes). rewrite !bytes_app in H. by apply app_inv_head, bytes_inj in H. Qed.
Lemma app_cancel_r (a b c : string) : b +:+ a = c +:+ a -> b = c.
Proof. intros H%(f_equal bytes). rewrite !bytes_app in H. by apply app_inv_tail, bytes_inj in H. Qed.

Definition ledger_key (root segment hex : string) : string := root +:+ segment +:+ "/" +:+ hex +:+ ".json".

Lemma parse_key_parts op lp key segment e : parseLedgerObjectKey op lp key = Ok (segment, e) ->
  exists hex, e = DigestPrefix +:+ hex /\ key = ledger_key (ledgerRoot op lp) segment hex /\
    len hex = 64 /\ isLowerHex hex = true /\ validateObjectKey key false = Ok tt.
Proof.
  unfold parseLedgerObjectKey. destruct (validateObjectKey key false) as [[]|] eqn:Hv; [|done]. cbn [is_ok negb]. cbv zeta.
  destruct (HasPrefix key _) eqn:Hp; [|done]. cbn [negb].
  destruct (Split _ slash) as [|sg [|name [|? ?]]] eqn:Hs; try done. destruct ((name =?= "") || negb (HasSuffix name ".json")) eqn:En; [done|].
  case_match; [done|]. destruct (_ || _) eqn:Eh in |- *; [done|]. intros [= <- <-]. rewrite orb_false_iff, negb_false_iff in En.
  rewrite orb_false_iff, !negb_false_iff, Z.eqb_eq in Eh. destruct Eh. destruct En as [_ Hj]. eexists. split_and!; [done| |done..].
  unfold ledger_key. rewrite (TrimPrefix_app _ _ Hp) at 1. f_equal. rewrite (Split_pair _ _ _ Hs). do 2 f_equal. by apply TrimSuffix_app.
Qed.

Lemma parse_key_shape op lp key segment e : parseLedgerObjectKey op lp key = Ok (segment, e) ->
  exists hex, e = DigestPrefix +:+ hex /\ key = ledger_key (ledgerRoot op lp) segment hex.
Proof. intros (hex & He & Hk & _)%parse_key_parts. by exists hex. Qed.

(** ** Retention keeps the protocol *)

Section Retention.
Context (l : Ledger) (e : string).

(** The applier's ledger is [l]: its keys have the same root, and the root is not
    below the runs of the object prefix. *)
Definition same_ledger (config : ApplierConfig) : Prop :=
  prefix l +:+ "/" = ledgerRoot (Config_ObjectPrefix config) (Config_LedgerPrefix config) /\
  Config_ObjectPrefix config <> "" /\ HasSuffix (Config_ObjectPrefix config) "/" = false /\
  HasPrefix (Trim (Config_LedgerPrefix config) slash +:+ "/") "runs/" = false.

Context (config : ApplierConfig) (Hsame : same_ledger config).
Notation root := (ledgerRoot (Config_ObjectPrefix config) (Config_LedgerPrefix config)).

Lemma claimKey_key : claimKey l e = ledger_key root "claims" (digestHex e).
Proof. destruct Hsame as [<- _]. unfold claimKey, ledger_key. by rewrite string_app_assoc. Qed.
Lemma outcomeKey_key : outcomeKey l e = ledger_key root "outcomes" (digestHex e).
Proof. destruct Hsame as [<- _]. unfold outcomeKey, ledger_key. by rewrite string_app_assoc. Qed.
Lemma tombstoneKey_key : tombstoneKey l e = ledger_key root "tombstones" (digestHex e).
Proof. destruct Hsame as [<- _]. unfold tombstoneKey, ledger_key. by rewrite string_app_assoc. Qed.

Lemma ledger_key_inj r segment hex hex' : ledger_key r segment hex = ledger_key r segment hex' -> hex = hex'.
Proof. unfold ledger_key. intros H%app_cancel%app_cancel%app_cancel. by apply app_cancel_r in H. Qed.

Lemma ledger_not_artifact uid segment hex :
  validateArtifactKey (Config_ObjectPrefix config) uid (ledger_key root segment hex) <> Ok tt.
Proof.
  destruct Hsame as (_ & Hne & Hsl & Hruns). unfold validateArtifactKey. intros (x & _ & H)%result_bind_ok. cbv zeta in H.
  destruct (HasPrefix _ _) eqn:Hp in H; [|done]. clear H. unfold runPrefix in Hp. rewrite bool_decide_eq_false_2 in Hp by done.
  unfold ledger_key, ledgerRoot, TrimSuffix in Hp. rewrite Hsl in Hp. unfold HasPrefix in Hp, Hruns.
  rewrite bool_decide_eq_true in Hp. rewrite bool_decide_eq_false in Hruns. rewrite !string_app_assoc, !bytes_app in Hp.
  apply prefix_app_inv in Hp. change (bytes "/runs/") with (bytes "/" ++ bytes "runs/") in Hp.
  rewrite <- (assoc_L (++)) in Hp. apply prefix_app_inv, prefix_app_l in Hp. rewrite bytes_app in Hruns.
  rewrite (assoc_L (++) (bytes (Trim _ _))) in Hp.
  destruct (prefix_weak_total _ _ _ Hp (prefix_app_r _ _ _ (reflexivity _))) as [Hq|[k Hk]]; [done|].
  destruct (bytes (Trim (Config_LedgerPrefix config) slash)) as [|b1 [|b2 [|b3 [|b4 [|b5 t]]]]]; cbn in Hk; try discriminate Hk.
  - injection Hk as <- <- <- <- _. apply Hruns. by exists [].
  - injection Hk as <- <- <- <- <- Hk. by destruct t.
Qed.

Lemma segments_differ r hex hex' : ledger_key r "claims" hex <> ledger_key r "tombstones" hex' /\
  ledger_key r "outcomes" hex <> ledger_key r "tombstones" hex' /\ ledger_key r "claims" hex <> ledger_key r "outcomes" hex'.
Proof. unfold ledger_key. split_and!; intros H%app_cancel; discriminate H. Qed.

Lemma digestHex_prefix hex : digestHex (DigestPrefix +:+ hex) = hex.
Proof.
  unfold digestHex. apply (app_cancel DigestPrefix). symmetry. apply TrimPrefix_app, HasPrefix_app.
Qed.

Lemma key_names_key key segment k : key_names config key segment k = true -> key = ledger_key root segment (digestHex k).
Proof.
  unfold key_names. destruct (parseLedgerObjectKey _ _ key) as [[s k']|] eqn:E; [|done].
  rewrite andb_true_iff, !bool_decide_eq_true. intros [-> ->]. destruct (parse_key_shape _ _ _ _ _ E) as (hex & -> & ->).
  by rewrite digestHex_prefix.
Qed.

(** The keys of a pair are those of its effect. *)
Definition pair_keys (pair : LedgerPairPlan) : Prop := exists hex,
  Pair_ClaimKey pair = ledger_key root "claims" hex /\ Pair_OutcomeKey pair = ledger_key root "outcomes" hex /\
  Pair_TombstoneKey pair = ledger_key root "tombstones" hex.

Lemma check_pair_keys plan actions seen seen' pair : check_pair plan config actions seen pair = Ok seen' -> pair_keys pair.
Proof.
  unfold check_pair. do 2 (case_match; [done|]).
  destruct (key_names config (Pair_ClaimKey pair) _ _) eqn:H1; [|done].
  destruct (key_names config (Pair_OutcomeKey pair) _ _) eqn:H2; [|done].
  destruct (key_names config (Pair_TombstoneKey pair) _ _) eqn:H3; [|done].
  intros _. apply key_names_key in H1, H2, H3. by eexists.
Qed.

Lemma validated_keys plan : validateLedgerPlan plan config = Ok tt -> Forall pair_keys (LedgerPairs plan).
Proof.
  unfold validateLedgerPlan. destruct (LedgerPairs plan) as [|pair pairs]; [constructor|].
  intros (actions & _ & H)%result_bind_ok. apply result_bind_ok in H as (seen & H & _).
  eapply fold_result_all; [|exact H]. intros s s' x. apply check_pair_keys.
Qed.

Lemma applyLedgerPair_guarded w pair plan : pair_keys pair -> guarded l e (applyLedgerPair w pair plan config).
Proof.
  intros (hex & Kc & Ko & Kt). pose proof claimKey_key as Ec. pose proof outcomeKey_key as Eo. pose proof tombstoneKey_key as Et.
  unfold applyLedgerPair. do 5 (case_match; [done|]). set (rest := fun fence => match fence with Some _ => _ | None => _ end).
  assert (Hkeep : forall fence, keeps l e (rest fence)).
  { intros [x|]; [done|]. cbn. rewrite Ko, Kc, Et. destruct (segments_differ root hex (digestHex e)) as (S1 & S2 & _).
    split; [done|]. intros [|[]]; cbn; try done; (split; [done|]); by intros [|[]]. }
  destruct (decide (hex = digestHex e)) as [-> |Hne].
  - unfold ensureLedgerTombstone. rewrite Kt, <- Et. case_match; cbn [prog_bind guarded].
    + split; [intros [|]; cbn [prog_bind]; apply Hkeep|]. intros [|x] Hr; [by specialize (Hr eq_refl)|done].
    + split.
      * intros [[]|]; cbn [prog_bind]; [apply Hkeep| |apply Hkeep]. intros [|]; cbn [prog_bind]; apply Hkeep.
      * intros [|x] Hr; [by specialize (Hr eq_refl)|done].
  - apply harmless_guarded. apply requests_bind.
    { unfold ensureLedgerTombstone. case_match; cbn; [by intros [|]|]. split; [done|]. intros [[]|]; cbn; try done. by intros [|]. }
    assert (Hh : forall key, key = Pair_OutcomeKey pair \/ key = Pair_ClaimKey pair ->
      key <> claimKey l e /\ key <> outcomeKey l e /\ key <> tombstoneKey l e).
    { rewrite Ec, Eo, Et, Ko, Kc. destruct (segments_differ root hex (digestHex e)) as (S1 & S2 & S3).
      destruct (segments_differ root (digestHex e) hex) as (_ & _ & S3').
      intros key [-> | ->]; split_and!; try done; try (intros ?; congruence); intros HH%ledger_key_inj; congruence. }
    intros [x|]; [done|]. cbn. split; [apply Hh; auto|]. intros [|[]]; cbn; try done; (split; [apply Hh; auto|]); by intros [|[]].
Qed.

Lemma apply_one_guarded plan a : guarded l e (apply_one plan config a).
Proof.
  apply harmless_guarded. unfold apply_one. do 4 (case_match; [done|]). apply requests_bind; [|by intros [[]|]].
  unfold applyAction. case_match; [done|]. case_match; [by case_match|]. case_match; [|done]. case_match; [done|].
  split; [|done]. rewrite !orb_false_iff, negb_false_iff, bool_decide_eq_true in *. destruct_and!.
  assert (Hv : validateArtifactKey (Config_ObjectPrefix config) (Action_RunUID a) (Target_ObjectKey (Action_Target a)) = Ok tt).
  { unfold runObjectKey in *. destruct (validateArtifactKey _ _ _) as [[]|]; [done|]. cbn in *. breflect. congruence. }
  rewrite claimKey_key, outcomeKey_key, tombstoneKey_key.
  split_and!; intros Hk; rewrite Hk in Hv; by apply ledger_not_artifact in Hv.
Qed.

Lemma apply_all_guarded {A : Type} (one : A -> prog (ApplyReport * option apply_error)) items : forall report failures,
  Forall (fun x => guarded l e (one x)) items -> guarded l e (apply_all one items report failures).
Proof.
  induction items as [|x items IH]; intros report failures H; [done|]. inversion H; subst. cbn [apply_all].
  apply guarded_bind; [done|]. intros [added failure]. by apply IH.
Qed.
End Retention.

(** ** Callers *)

Definition apply_call (plan : Plan) (w : bool) (config : ApplierConfig) : prog reply :=
  let! _ := Apply plan w config in Ret Other.

Lemma apply_call_guarded l e plan w config normalized :
  Config_normalized config = Ok normalized -> same_ledger l normalized -> guarded l e (apply_call plan w config).
Proof.
  intros Hn Hs. apply guarded_bind; [|done]. unfold Apply. rewrite Hn. do 2 (case_match; [done|]).
  destruct (validateLedgerPlan plan normalized) as [[]|] eqn:Hv; [|done]. cbv zeta. apply guarded_bind.
  - apply apply_all_guarded, Forall_forall. intros a _. by apply apply_one_guarded.
  - intros [report failures]. apply apply_all_guarded. eapply Forall_impl; [by eapply validated_keys|].
    intros pair Hp. by apply applyLedgerPair_guarded.
Qed.

(** The callers of the ledger [l]: claims, commits whose result reference is
    text, and retention runs for that ledger, with any plan. *)
Inductive ledger_caller (l : Ledger) : prog reply -> Prop :=
| caller_claim c : ledger_caller l (claim_call l c)
| caller_commit o : wf_string (Outcome_ResultRef o) = true -> ledger_caller l (commit_call l o)
| caller_retention plan w config normalized :
    Config_normalized config = Ok normalized -> same_ledger l normalized -> ledger_caller l (apply_call plan w config).

Lemma caller_protocol l e p : ledger_caller l p -> unclaimed l e p /\ uncommitted l e agrees p /\ guarded l e p.
Proof.
  intros [c|o Ho|plan w config n Hn Hs].
  - split_and!; [apply claim_call_unclaimed|apply claim_call_uncommitted|apply calls_guarded; eauto].
  - split_and!; [apply commit_call_unclaimed|by apply commit_call_uncommitted|apply calls_guarded; eauto].
  - split_and!; [by apply silent_unclaimed, answers_any|by apply silent_uncommitted, answers_any|by eapply apply_call_guarded].
Qed.

(** C34. However claims, commits and retention runs interleave, whichever
    requests fail or are ambiguous and wherever callers stop, at most one claim
    call per effect is ever answered with Execute; in particular none is granted
    after the effect's records were retired. *)
Theorem effect_executes_once l s0 s pool i j c c'
  (Hr : rtc (step (ledger_caller l)) (s0, []) (s, pool))
  (Hi : pool !! i = Some (Ret (Granted c))) (Hj : pool !! j = Some (Ret (Granted c')))
  (He : Claim_EffectKey c = Claim_EffectKey c') : i = j.
Proof.
  eapply (one_grant l (Claim_EffectKey c) (ledger_caller l)); [|exact Hr|exact Hi|exact Hj|done|done].
  intros p Hp. destruct (caller_protocol l (Claim_EffectKey c) p Hp) as (? & _ & ?). done.
Qed.

(** Two claims for one effect: the first is granted, and only the first. *)
Lemma effect_executes_once_witness : exists s pool c,
  rtc (step (ledger_caller sample_ledger)) (∅, []) (s, pool) /\ length pool = 2%nat /\
  pool !! 0%nat = Some (Ret (Granted c)) /\
  forall j c', pool !! j = Some (Ret (Granted c')) -> Claim_EffectKey c = Claim_EffectKey c' -> 0%nat = j.
Proof.
  set (p := claim_call sample_ledger sample_claim). set (r1 := run sample_now p ∅). set (r2 := run sample_now p r1.2).
  assert (Hr : rtc (step (ledger_caller sample_ledger)) (∅, []) (r2.2, [Ret r1.1; Ret r2.1])).
  { eapply rtc_l; [apply step_start, caller_claim|]. eapply rtc_l; [apply step_start, caller_claim|].
    etransitivity; [apply (run_steps _ sample_now p eq_refl ∅ [] [p])|].
    apply (run_steps _ sample_now p eq_refl r1.2 [Ret r1.1] []). }
  assert (Hg : exists c, r1.1 = Granted c) by (vm_compute; eexists; reflexivity). destruct Hg as [c Hg].
  exists r2.2, [Ret r1.1; Ret r2.1], c. rewrite Hg in *. split_and!; [done..|].
  intros j c' Hj He. by eapply (effect_executes_once sample_ledger ∅ _ _ 0 j c c' Hr).
Defined.


