(* ===== verification/LedgerReplay.v ===== *)
(** * The effect ledger: undisturbed runs

    The sequence a publisher goes through, against a store that answers: claim,
    commit, and both again after a restart. *)

From S2P Require Import Prelude Order GoStrings Digest GoJson GoTime StrictJson StrictJsonSpec.
From S2P Require Import Store Effects EffectsCodec LedgerProtocol Retention RetentionApply LedgerSystem.
Local Open Scope go_scope.
Local Open Scope string_scope.
Local Open Scope Z_scope.
Local Open Scope list_scope.

(** ** The pieces *)

Section Pieces.
Context (l : Ledger) (e : string) (He : ValidDigest e = true).

Lemma keys_differ : claimKey l e <> outcomeKey l e /\ claimKey l e <> tombstoneKey l e /\ outcomeKey l e <> tombstoneKey l e.
Proof.
  unfold claimKey, outcomeKey, tombstoneKey.
  split_and!; intros H%(f_equal bytes); rewrite !bytes_app in H; apply app_inv_head in H; discriminate H.
Qed.

Lemma run_unless_fenced now c k s : s !! tombstoneKey l e = None ->
  run now (unless_fenced l e c k) s = run now k s.
Proof. intros Hs. unfold unless_fenced, tombstoneExists. rewrite He. cbn [negb prog_bind run]. by rewrite Hs. Qed.

Lemma run_commit_unless_fenced now k s : s !! tombstoneKey l e = None ->
  run now (commit_unless_fenced l e k) s = run now k s.
Proof. intros Hs. unfold commit_unless_fenced, tombstoneExists. rewrite He. cbn [negb prog_bind run]. by rewrite Hs. Qed.

Lemma run_readClaim now s body c : s !! claimKey l e = Some body -> DecodeClaim body = Ok c ->
  run now (readClaim (claimKey l e)) s = (Ok c, s).
Proof. intros Hs Hd. cbn [readClaim run]. rewrite Hs. cbv iota. by rewrite Hd. Qed.

Lemma run_ReadOutcome now s body o digest : s !! outcomeKey l e = Some body -> DecodeOutcome body = Ok o ->
  Outcome_EffectKey o = e -> Outcome_RequestDigest o = digest -> ValidDigest digest = true ->
  run now (ReadOutcome l e digest) s = (Ok o, s).
Proof.
  intros Hs Hd Ho Hr Hv. unfold ReadOutcome. rewrite He, Hv. cbn [negb orb run]. rewrite Hs. cbv iota. rewrite Hd.
  rewrite !bool_decide_eq_true_2 by done. done.
Qed.
End Pieces.

(** ** Calls *)

Lemma run_claim_fresh l c s now body : validClaim c = true -> IsZero now = false ->
  s !! tombstoneKey l (Claim_EffectKey c) = None -> s !! claimKey l (Claim_EffectKey c) = None ->
  canonicalJSON (claim_json (set_created c now)) = Ok body ->
  run now (Ledger_Claim l c) s =
    ((MkDecision true false (Some (set_created c now)), None), <[claimKey l (Claim_EffectKey c) := body]> s).
Proof.
  intros Hv Hz Ht Hc Hb. assert (He : ValidDigest (Claim_EffectKey c) = true).
  { unfold validClaim in Hv. rewrite !andb_true_iff in Hv. tauto. }
  unfold Ledger_Claim. rewrite Hv. cbn [negb]. rewrite run_unless_fenced by done. cbn [run]. cbv zeta.
  cbn [set_created Claim_CreatedAt Claim_EffectKey] in *. rewrite Hz, Hb. cbn [run]. rewrite Hc. cbn [set_created Claim_EffectKey].
  rewrite run_unless_fenced; [done|done|]. rewrite lookup_insert_ne; [done|]. apply keys_differ.
Qed.

Lemma run_claim_again l c s now cb existing ob o : validClaim c = true -> IsZero now = false ->
  is_ok (canonicalJSON (claim_json (set_created c now))) = true ->
  s !! tombstoneKey l (Claim_EffectKey c) = None ->
  s !! claimKey l (Claim_EffectKey c) = Some cb -> DecodeClaim cb = Ok existing ->
  Claim_EffectKey existing = Claim_EffectKey c -> Claim_RequestDigest existing = Claim_RequestDigest c ->
  Claim_Operation existing = Claim_Operation c -> Claim_RunUID existing = Claim_RunUID c ->
  s !! outcomeKey l (Claim_EffectKey c) = Some ob -> DecodeOutcome ob = Ok o ->
  Outcome_EffectKey o = Claim_EffectKey c -> Outcome_RequestDigest o = Claim_RequestDigest c ->
  Outcome_State o <> OutcomeUnknown ->
  run now (Ledger_Claim l c) s = ((MkDecision false false (Some existing), None), s).
Proof.
  intros Hv Hz Hb Ht Hc Hcd E1 E2 E3 E4 Ho Hod O1 O2 Hst.
  assert (He : ValidDigest (Claim_EffectKey c) = true /\ ValidDigest (Claim_RequestDigest c) = true).
  { unfold validClaim in Hv. rewrite !andb_true_iff in Hv. tauto. }
  destruct He as [He Hd]. unfold Ledger_Claim. rewrite Hv. cbn [negb]. rewrite run_unless_fenced by done. cbn [run]. cbv zeta.
  cbn [set_created Claim_CreatedAt Claim_EffectKey] in *. rewrite Hz.
  destruct (canonicalJSON _) as [b|] in Hb |- *; [|done]. cbn [run]. rewrite Hc. unfold claim_existing.
  cbn [set_created Claim_EffectKey Claim_RequestDigest Claim_Operation Claim_RunUID].
  rewrite run_bind, (run_readClaim l _ now s cb existing Hc Hcd). cbn [fst snd].
  rewrite !bool_decide_eq_true_2 by done. cbn [negb orb]. rewrite run_unless_fenced by done.
  rewrite run_bind, (run_ReadOutcome l _ He now s ob o _ Ho Hod O1 O2 Hd). cbn [fst snd].
  rewrite run_unless_fenced by done. by rewrite bool_decide_eq_false_2.
Qed.

Section Commit.
Context (l : Ledger) (o : Outcome) (s : store) (now : Time) (cb : list Z) (claim : Claim).
Context (Hv : validOutcome o = true) (Hz : IsZero now = false) (Hc : s !! claimKey l (Outcome_EffectKey o) = Some cb).
Context (Ht : s !! tombstoneKey l (Outcome_EffectKey o) = None) (Hd : DecodeClaim cb = Ok claim).
Context (Er : Claim_RequestDigest claim = Outcome_RequestDigest o).
Context (Eu : Outcome_RunUID o = "" \/ Outcome_RunUID o = Claim_RunUID claim).
Notation e := (Outcome_EffectKey o).
Notation recorded := (set_recorded o (Claim_RunUID claim) now).
Context (body : list Z) (Hb : canonicalJSON (outcome_json recorded) = Ok body).

Lemma outcome_digests : ValidDigest e = true /\ ValidDigest (Outcome_RequestDigest o) = true.
Proof.
  pose proof Hv as H. unfold validOutcome in H. destruct (_ || _) eqn:E in H; [done|].
  rewrite orb_false_iff, !negb_false_iff in E. exact E.
Qed.

(** What is left of a commit once its claim is read. *)
Lemma run_commit_create : run now (Ledger_Commit l o) s =
  run now (Create (outcomeKey l e) body (fun created =>
    match created with
    | Err x => Ret (Some (ErrStore x))
    | Ok true => commit_unless_fenced l e (Ret None)
    | Ok false =>
      let! read := ReadOutcome l e (Outcome_RequestDigest o) in
      match read with
      | Err x => Ret (Some x)
      | Ok existing =>
        if Outcome_RunUID existing !=? Claim_RunUID claim then Ret (Some ErrConflict)
        else if (Outcome_State existing !=? Outcome_State o) || (Outcome_ResultDigest existing !=? Outcome_ResultDigest o) ||
                (Outcome_ResultRef existing !=? Outcome_ResultRef o) then Ret (Some ErrConflict)
        else commit_unless_fenced l e (Ret None)
      end
    end)) s.
Proof.
  destruct outcome_digests as [He Hr]. unfold Ledger_Commit. rewrite Hv. cbn [negb]. cbv zeta.
  rewrite run_commit_unless_fenced by done. rewrite run_bind, (run_readClaim l e now s cb claim Hc Hd). cbn [fst snd].
  rewrite bool_decide_eq_true_2 by done. cbn [negb].
  assert (Hu : (Outcome_RunUID o !=? "") && (Outcome_RunUID o !=? Claim_RunUID claim) = false).
  { destruct Eu as [-> | ->]; [done|]. rewrite (bool_decide_eq_true_2 (Claim_RunUID claim = Claim_RunUID claim)) by done. by rewrite andb_false_r. }
  rewrite Hu. cbn [run]. cbn [set_recorded Outcome_RecordedAt]. rewrite Hz, Hb. done.
Qed.

Lemma run_commit_fresh : s !! outcomeKey l e = None ->
  run now (Ledger_Commit l o) s = (None, <[outcomeKey l e := body]> s).
Proof.
  intros Ho. rewrite run_commit_create. destruct outcome_digests as [He Hr]. cbn [run]. rewrite Ho.
  rewrite run_commit_unless_fenced; [done|done|]. rewrite lookup_insert_ne; [done|]. apply keys_differ.
Qed.

Lemma run_commit_again ob existing : s !! outcomeKey l e = Some ob -> DecodeOutcome ob = Ok existing ->
  Outcome_EffectKey existing = e -> Outcome_RequestDigest existing = Outcome_RequestDigest o ->
  Outcome_RunUID existing = Claim_RunUID claim -> Outcome_State existing = Outcome_State o ->
  Outcome_ResultDigest existing = Outcome_ResultDigest o -> Outcome_ResultRef existing = Outcome_ResultRef o ->
  run now (Ledger_Commit l o) s = (None, s).
Proof.
  intros Ho Hod O1 O2 O3 O4 O5 O6. rewrite run_commit_create. destruct outcome_digests as [He Hr]. cbn [run]. rewrite Ho.
  rewrite run_bind, (run_ReadOutcome l e He now s ob existing _ Ho Hod O1 O2 Hr). cbn [fst snd].
  rewrite !bool_decide_eq_true_2 by done. cbn [negb orb]. by rewrite run_commit_unless_fenced.
Qed.
End Commit.

(** ** Claim, commit, and again *)

(** The clock of a running process. *)
Definition clock_at (now : Time) : Prop := utc now = true /\ 1 < Year now <= 9999.

Lemma seqZ_nonneg y n : 0 <= sumZ (fun i => daysIn i y) (seqZ 1 n).
Proof.
  unfold sumZ. induction (seqZ 1 n) as [|i k IH]; cbn; [done|]. assert (28 <= daysIn i y); [|lia].
  unfold daysIn. destruct (i =? 2); [destruct (isLeap y); lia|]. pose proof (Z.mod_pos_bound (i + i / 8) 2). lia.
Qed.

Lemma clock_recordable now : clock_at now -> recordable now.
Proof.
  intros [[Hc Hz]%andb_true_iff Hy]. apply Z.eqb_eq in Hz. split; [done|]. split.
  - unfold MarshalTime. rewrite Hz, (proj2 (between_spec _ _ _)) by lia. by eexists.
  - apply Z.eqb_neq. apply civil_spec in Hc as (Hm & Hd & Hh & Hmi & Hs & Hn). unfold instant, daysBefore, daysBeforeYear.
    rewrite Hz. pose proof (seqZ_nonneg (Year now) (Month now - 1)).
    set (d := sumZ _ _) in *. pose proof (Z.div_pos (Year now - 1) 4). pose proof (Z.div_pos (Year now - 1) 400).
    assert ((Year now - 1) / 100 <= Year now - 1) by (apply Z.div_le_upper_bound; lia). lia.
Qed.

Lemma claim_encodes c now : validClaim c = true -> ValidString (Claim_Operation c) = true ->
  ValidString (Claim_RunUID c) = true -> clock_at now ->
  exists body, canonicalJSON (claim_json (set_created c now)) = Ok body /\ DecodeClaim body = Ok (set_created c now).
Proof. intros Hv Ho Hu Ht. apply claim_round_trip; try done. by apply clock_recordable. Qed.

Lemma recorded_encodes c o now : validOutcome o = true -> safeIdentifier (Claim_RunUID c) 128 = true ->
  ValidString (Claim_RunUID c) = true -> wf_string (Outcome_ResultRef o) = true -> len (Outcome_ResultRef o) <= 8192 ->
  clock_at now ->
  exists body, canonicalJSON (outcome_json (set_recorded o (Claim_RunUID c) now)) = Ok body /\
    DecodeOutcome body = Ok (set_recorded o (Claim_RunUID c) now).
Proof.
  intros Hv Hs Hu Hr Hl Ht. destruct (safeIdentifier_text _ 128 ltac:(done) Hs Hu) as [Wu Lu].
  apply outcome_encodes; [done|by apply clock_recordable|done|done].
Qed.

(** C36. The publisher's sequence, for a valid claim whose operation and run UID
    are UTF-8, a valid final outcome of the same effect, request and run whose
    result reference is UTF-8 without NUL of at most 8192 bytes, and clocks in UTC
    between the years 2 and 9999: on a ledger without records of the effect and a
    store without failures, the claim is granted and recorded, the commit succeeds,
    and from then on the same claim is answered with the recorded claim, without
    permission to execute and without error, and the same commit succeeds again;
    neither changes the store.  Without UTF-8 the replay is a conflict:
    [foreign_claim_conflicts]. *)
Theorem effect_replay l c o s now1 now2 now3
  (Hc : validClaim c = true) (Uop : ValidString (Claim_Operation c) = true) (Uuid : ValidString (Claim_RunUID c) = true)
  (Ho : validOutcome o = true) (Hfinal : Outcome_State o <> OutcomeUnknown)
  (Eo : Outcome_EffectKey o = Claim_EffectKey c) (Er : Outcome_RequestDigest o = Claim_RequestDigest c)
  (Eu : Outcome_RunUID o = "" \/ Outcome_RunUID o = Claim_RunUID c)
  (Href : wf_string (Outcome_ResultRef o) = true) (Hlen : len (Outcome_ResultRef o) <= 8192)
  (H1 : clock_at now1) (H2 : clock_at now2) (H3 : clock_at now3)
  (Fc : s !! claimKey l (Claim_EffectKey c) = None) (Fo : s !! outcomeKey l (Claim_EffectKey c) = None)
  (Ft : s !! tombstoneKey l (Claim_EffectKey c) = None) :
  exists s1 s2,
    run now1 (Ledger_Claim l c) s = ((MkDecision true false (Some (set_created c now1)), None), s1) /\
    run now2 (Ledger_Commit l o) s1 = (None, s2) /\
    run now3 (Ledger_Claim l c) s2 = ((MkDecision false false (Some (set_created c now1)), None), s2) /\
    run now3 (Ledger_Commit l o) s2 = (None, s2).
Proof.
  destruct (claim_encodes c now1) as (cb & Hcb & Dcb); [done..|]. destruct (claim_encodes c now3) as (cb3 & Hcb3 & _); [done..|].
  assert (Hsafe : safeIdentifier (Claim_RunUID c) 128 = true) by (unfold validClaim in Hc; rewrite !andb_true_iff in Hc; tauto).
  destruct (recorded_encodes c o now2) as (ob & Hob & Dob); [done..|].
  destruct (recorded_encodes c o now3) as (ob3 & Hob3 & _); [done..|].
  destruct (clock_recordable _ H1) as (_ & _ & Z1). destruct (clock_recordable _ H2) as (_ & _ & Z2).
  destruct (clock_recordable _ H3) as (_ & _ & Z3).
  destruct (keys_differ l (Claim_EffectKey c)) as (K1 & K2 & K3).
  set (s1 := <[claimKey l (Claim_EffectKey c) := cb]> s). set (s2 := <[outcomeKey l (Claim_EffectKey c) := ob]> s1).
  assert (C1 : s1 !! claimKey l (Claim_EffectKey c) = Some cb) by apply lookup_insert_eq.
  assert (T1 : s1 !! tombstoneKey l (Claim_EffectKey c) = None) by (unfold s1; by rewrite lookup_insert_ne).
  assert (O1 : s1 !! outcomeKey l (Claim_EffectKey c) = None) by (unfold s1; by rewrite lookup_insert_ne).
  assert (C2 : s2 !! claimKey l (Claim_EffectKey c) = Some cb) by (unfold s2; by rewrite lookup_insert_ne by done).
  assert (T2 : s2 !! tombstoneKey l (Claim_EffectKey c) = None) by (unfold s2; by rewrite lookup_insert_ne by done).
  assert (O2 : s2 !! outcomeKey l (Claim_EffectKey c) = Some ob) by apply lookup_insert_eq.
  exists s1, s2. split_and!.
  - by apply run_claim_fresh.
  - assert (Hs2 : s2 = <[outcomeKey l (Outcome_EffectKey o) := ob]> s1) by (unfold s2; by rewrite Eo).
    rewrite Hs2. rewrite <- Eo in *. eapply (run_commit_fresh l o s1 now2 cb (set_created c now1)); eauto.
  - eapply run_claim_again; eauto. by rewrite Hcb3.
  - rewrite <- Eo in *. eapply (run_commit_again l o s2 now3 cb (set_created c now1)); eauto.
Qed.

Lemma sample_clock : clock_at sample_now.
Proof. split; [vm_compute; reflexivity|vm_compute; split; [reflexivity|discriminate]]. Qed.

Lemma effect_replay_witness : exists s2,
  (run sample_now (Ledger_Claim sample_ledger sample_claim) s2).1 =
    (MkDecision false false (Some (set_created sample_claim sample_now)), None).
Proof.
  destruct (effect_replay sample_ledger sample_claim sample_outcome ∅ sample_now sample_now sample_now
    ltac:(vm_compute; reflexivity) ltac:(vm_compute; reflexivity) ltac:(vm_compute; reflexivity) ltac:(vm_compute; reflexivity)
    ltac:(vm_compute; discriminate) eq_refl eq_refl (or_introl eq_refl) ltac:(vm_compute; reflexivity) ltac:(vm_compute; discriminate)
    sample_clock sample_clock sample_clock (lookup_empty _) (lookup_empty _) (lookup_empty _)) as (s1 & s2 & _ & _ & H & _).
  exists s2. by rewrite H.
Defined.

(** ** Why identifiers have to be UTF-8 *)

(** A run UID that is not UTF-8 is accepted and stored with U+FFFD in its place, so
    that the same claim conflicts with its own record. *)
Definition foreign_claim : Claim :=
  MkClaim SchemaVersion (digestBytes [1]) (digestBytes [2]) "publish/pr" (of_bytes [0x72; 0xFF]) sample_now.
Lemma foreign_claim_conflicts :
  let '((granted, e), s1) := run sample_now (Ledger_Claim sample_ledger foreign_claim) ∅ in
  Execute granted = true /\ e = None /\
  (run sample_now (Ledger_Claim sample_ledger foreign_claim) s1).1.2 = Some ErrConflict.
Proof. vm_compute. split_and!; reflexivity. Qed.
