(* ===== verification/RetentionSpec.v ===== *)
(** * Retention plans: every deletion is justified

    A declarative account of what may be deleted, against the inventory the plan
    was made from, and the proof that a plan contains nothing else. *)

From S2P Require Import Prelude Order GoStrings Digest GoTime Fsm Store Effects Retention.
Local Open Scope go_scope.
Local Open Scope string_scope.
Local Open Scope Z_scope.
Local Open Scope list_scope.

#[local] Opaque instant days.

Section Plans.
Context (IsDNS1123Subdomain : string -> list string).
Notation valid_run := (fun run => is_ok (validateRunIdentity IsDNS1123Subdomain run)).

(** ** What may be deleted *)

(** The inventory has one valid run with that UID. *)
Definition sole_run (inv : Inventory) (run : Run) : Prop :=
  List.filter (fun r => valid_run r && (Run_UID r =?= Run_UID run)) (Runs inv) = [run].

(** The run ended, with a known effect, not after [now]. *)
Definition finished (now : Z) (run : Run) : Prop :=
  IsTerminal (Run_Phase run) = true /\ Run_Phase run <> PhaseUnknownEffect /\
  IsZero (Run_CompletedAt run) = false /\ instant (Run_CompletedAt run) <= now.

(** Exactly one controller, which is the named object and blocks deletion. *)
Definition controlled_by (owners : list OwnerReference) (api kind name uid : string) : Prop :=
  exists o, List.filter (fun o => boolValue (Owner_Controller o)) owners = [o] /\ Owner_APIVersion o = api /\
    Owner_Kind o = kind /\ Owner_Name o = name /\ Owner_UID o = uid /\ Owner_BlockOwnerDeletion o = Some true.

Definition present (inv : Inventory) (key : string) : Prop :=
  key ∈ map Artifact_Key (Artifacts inv) \/ key ∈ map Object_Key (LedgerObjects inv).

(** The run's evidence is stored: its event stream and effect are settled, every
    object its status names is in the inventory below the run's prefix, and so
    are claim and outcome of its effect. *)
Definition preserved (policy : Policy) (inv : Inventory) (run : Run) : Prop :=
  Run_EvidenceFlushed run = true /\ Run_LedgerFlushed run = true /\
  (forall key, key ∈ Run_RequiredObjectKeys run ->
     HasPrefix key (runPrefix (ObjectPrefix policy) (Run_UID run)) = true /\ present inv key) /\
  (Run_EffectKey run <> "" -> forall segment, segment ∈ [LedgerClaimsSegment; LedgerOutcomesSegment] ->
     present inv (ObjectPrefix policy +:+ "/" +:+ LedgerPrefix policy +:+ "/" +:+ segment +:+ "/" +:+
                  TrimPrefix (Run_EffectKey run) DigestPrefix +:+ ".json")).

Definition in_inventory (inv : Inventory) (run : Run) (kind : string) (r : Resource) : Prop :=
  r ∈ Resources inv /\ Resource_Kind r = kind /\ Resource_Deleting r = false /\
  Resource_Namespace r = Run_Namespace run /\ label r RunUIDLabelKey = Run_UID run /\ Run_UID run <> "" /\
  Resource_Namespace r <> "" /\ Resource_Name r <> "" /\ validUID (Resource_UID r) = true.

Inductive justified (policy : Policy) (now : Time) (inv : Inventory) (mode : string) : Action -> Prop :=
| justified_secret run r :
    sole_run inv run -> finished (instant now) run -> in_inventory inv run SecretKind r ->
    label r ManagedByLabelKey = RunSecretManagedBy ->
    controlled_by (Resource_OwnerReferences r) AgentRunAPIVersion AgentRunKind (Run_Name run) (Run_UID run) ->
    justified policy now inv mode
      (MkAction mode (Run_UID run) "credentials" "" "terminal per-run credentials are no longer needed"
        (MkTarget CoreAPIVersion SecretKind (Resource_Namespace r) (Resource_Name r) (Resource_UID r) "" ""))
| justified_worktree run r child :
    sole_run inv run -> finished (instant now) run -> in_inventory inv run PersistentVolumeKind r ->
    preserved policy inv run -> instant (Run_CompletedAt run) <= instant now - days (WorktreeRetentionDays policy) ->
    label r RoleLabelKey = WorkRole -> List.filter (fun c => Child_Role c =?= WorkRole) (Run_Children run) = [child] ->
    (Child_Kind child = JobKind /\
     controlled_by (Resource_OwnerReferences r) AgentRunAPIVersion AgentRunKind (Run_Name run) (Run_UID run) \/
     Child_Kind child = SandboxKind /\
     controlled_by (Resource_OwnerReferences r) SandboxAPIVersion SandboxKind (Child_Name child) (Child_UID child)) ->
    justified policy now inv mode
      (MkAction mode (Run_UID run) WorkRole "" "terminal worktree PVC exceeded retention window"
        (MkTarget CoreAPIVersion PersistentVolumeKind (Resource_Namespace r) (Resource_Name r) (Resource_UID r) "" ""))
| justified_artifact run a :
    sole_run inv run -> finished (instant now) run -> a ∈ Artifacts inv -> Artifact_RunUID a = Run_UID run ->
    preserved policy inv run -> instant (Artifact_CreatedAt a) <= instant now - days (ArtifactRetentionDays policy) ->
    HasPrefix (Artifact_Key a) (runPrefix (ObjectPrefix policy) (Run_UID run)) = true ->
    validateArtifactKey (ObjectPrefix policy) (Run_UID run) (Artifact_Key a) = Ok tt -> Run_UID run <> "" -> Artifact_ETag a <> "" ->
    justified policy now inv mode
      (MkAction mode (Run_UID run) "" "" "terminal artifact exceeded retention window"
        (MkTarget "" ObjectStoreKind "" "" "" (Artifact_Key a) (Artifact_ETag a)))
| justified_pair run co oo claim outcome act :
    sole_run inv run -> finished (instant now) run -> co ∈ LedgerObjects inv -> oo ∈ LedgerObjects inv ->
    DecodeClaim (Object_Body co) = Ok claim -> DecodeOutcome (Object_Body oo) = Ok outcome ->
    Claim_RunUID claim = Run_UID run -> Outcome_RunUID outcome = Run_UID run ->
    Outcome_EffectKey outcome = Claim_EffectKey claim -> Outcome_RequestDigest outcome = Claim_RequestDigest claim ->
    (Outcome_State outcome = OutcomeSucceeded \/ Outcome_State outcome = OutcomeFailed) ->
    instant (Run_CompletedAt run) <= instant now - days (LedgerRetentionDays policy) ->
    instant (Outcome_RecordedAt outcome) <= instant now - days (LedgerRetentionDays policy) ->
    (forall a, a ∈ Artifacts inv -> Artifact_RunUID a <> Run_UID run) ->
    act = outcomeAction mode (Run_UID run) (Claim_EffectKey claim) (Object_Key oo) (Object_ETag oo) \/
    act = claimAction mode (Run_UID run) (Claim_EffectKey claim) (Object_Key co) (Object_ETag co) ->
    justified policy now inv mode act.

(** A ledger pair of a plan: its records are in the inventory under the keys of
    their effect, agree with each other and with the sole run they name, and its
    tombstone is made from them. *)
Definition retires (policy : Policy) (now : Time) (inv : Inventory) (pair : LedgerPairPlan) : Prop := exists run co oo,
  let e := Pair_EffectKey pair in
  sole_run inv run /\ Pair_RunUID pair = Run_UID run /\ ledgerEffectKeyMatches run (Pair_Claim pair) = true /\
  (co ∈ LedgerObjects inv /\ DecodeClaim (Object_Body co) = Ok (Pair_Claim pair) /\
   parseLedgerObjectKey (ObjectPrefix policy) (LedgerPrefix policy) (Object_Key co) = Ok (LedgerClaimsSegment, e) /\
   Claim_EffectKey (Pair_Claim pair) = e /\ Claim_RunUID (Pair_Claim pair) = Run_UID run /\
   Pair_ClaimKey pair = Object_Key co /\ Pair_ClaimETag pair = Object_ETag co /\ Object_ETag co <> "") /\
  (oo ∈ LedgerObjects inv /\ DecodeOutcome (Object_Body oo) = Ok (Pair_Outcome pair) /\
   parseLedgerObjectKey (ObjectPrefix policy) (LedgerPrefix policy) (Object_Key oo) = Ok (LedgerOutcomesSegment, e) /\
   Outcome_EffectKey (Pair_Outcome pair) = e /\ Outcome_RunUID (Pair_Outcome pair) = Run_UID run /\
   Outcome_RequestDigest (Pair_Outcome pair) = Claim_RequestDigest (Pair_Claim pair) /\
   (Outcome_State (Pair_Outcome pair) = OutcomeSucceeded \/ Outcome_State (Pair_Outcome pair) = OutcomeFailed) /\
   Pair_OutcomeKey pair = Object_Key oo /\ Pair_OutcomeETag pair = Object_ETag oo /\ Object_ETag oo <> "") /\
  Pair_Tombstone pair = MkTombstone SchemaVersion e (Claim_RequestDigest (Pair_Claim pair)) (Claim_Operation (Pair_Claim pair))
    (Run_UID run) (Outcome_State (Pair_Outcome pair)) now /\
  EncodeTombstone (Pair_Tombstone pair) = Ok (Pair_TombstoneBody pair) /\
  Pair_TombstoneKey pair = ledgerRoot (ObjectPrefix policy) (LedgerPrefix policy) +:+ LedgerTombstonesSegment +:+ "/" +:+
    TrimPrefix e DigestPrefix +:+ ".json".

(** The two actions of a pair. *)
Definition retired (mode : string) (pair : LedgerPairPlan) : list Action :=
  [outcomeAction mode (Pair_RunUID pair) (Pair_EffectKey pair) (Pair_OutcomeKey pair) (Pair_OutcomeETag pair);
   claimAction mode (Pair_RunUID pair) (Pair_EffectKey pair) (Pair_ClaimKey pair) (Pair_ClaimETag pair)].

(** Besides actions of no pair, a plan has exactly the actions of its pairs. *)
Definition paired (mode : string) (actions : list Action) (pairs : list LedgerPairPlan) : Prop := exists others,
  actions ≡ₚ others ++ flat_map (retired mode) pairs /\ Forall (fun a => Action_PairKey a = "") others.

(** ** Lookups *)

Lemma filter_snoc {A : Type} (p : A -> bool) l x : List.filter p (l ++ [x]) = List.filter p l ++ (if p x then [x] else []).
Proof. rewrite List.filter_app. cbn. by destruct (p x). Qed.

Definition runs_with (inv : list Run) (uid : string) : list Run := List.filter (fun r => valid_run r && (Run_UID r =?= uid)) inv.

Lemma indexRuns_spec input plan uid :
  let ix := (indexRuns IsDNS1123Subdomain input plan).2 in
  by_uid ix !! uid = head (runs_with input uid) /\ (uid ∈ duplicates ix <-> (1 < length (runs_with input uid))%nat).
Proof.
  cbv zeta. unfold indexRuns. induction input as [|run input IH] using rev_ind; [cbn; set_solver by lia|].
  rewrite foldl_app. cbn [foldl]. destruct (foldl _ _ input) as [p ix]. cbn [snd] in IH. unfold index_run.
  destruct IH as [IH1 IH2]. unfold runs_with in *. rewrite filter_snoc.
  destruct (is_ok (validateRunIdentity _ run)) eqn:Hv; cbn [negb snd]; [|by rewrite andb_false_l, app_nil_r].
  cbn [andb]. destruct (decide (Run_UID run = uid)) as [<- |Hne].
  - rewrite (bool_decide_eq_true_2 (Run_UID run = Run_UID run)) by done. rewrite IH1.
    destruct (List.filter _ input) as [|r rs]; cbn [head app length].
    + rewrite bool_decide_eq_false_2 by (by intros []). cbn. rewrite lookup_insert_eq. split; [done|]. rewrite IH2. cbn. lia.
    + rewrite bool_decide_eq_true_2 by done. cbn [snd by_uid duplicates]. rewrite IH1. split; [done|].
      rewrite length_app. cbn. split; [lia|set_solver].
  - rewrite (bool_decide_eq_false_2 (Run_UID run = uid)) by done. rewrite app_nil_r.
    destruct (bool_decide _); cbn [snd by_uid duplicates].
    + split; [done|]. rewrite <- IH2. set_solver.
    + by rewrite lookup_insert_ne.
Qed.

Lemma indexed_sole inv plan uid run :
  let ix := (indexRuns IsDNS1123Subdomain (Runs inv) plan).2 in
  by_uid ix !! uid = Some run -> uid ∉ duplicates ix -> sole_run inv run /\ Run_UID run = uid.
Proof.
  cbv zeta. destruct (indexRuns_spec (Runs inv) plan uid) as [-> ->]. unfold sole_run, runs_with.
  destruct (List.filter _ (Runs inv)) as [|r [|]] eqn:E; cbn; intros H Hd; try done; [|lia]. injection H as ->.
  assert (Hu : Run_UID run = uid).
  { assert (Hin : In run [run]) by (by left). rewrite <- E in Hin. apply filter_In in Hin as [_ Hin].
    apply andb_true_iff in Hin as [_ Hin]. by apply bool_decide_eq_true in Hin. }
  by rewrite Hu.
Qed.

(** ** What the checks establish *)

Lemma terminalEligible_finished run now : terminalEligible run now 0 = None -> finished now run.
Proof.
  unfold terminalEligible, finished. destruct (IsTerminal _); [|done]. cbn [negb]. case_bool_decide; [done|].
  destruct (IsZero _); [done|]. cbv zeta. destruct (Z.ltb_spec now (instant (Run_CompletedAt run))); [done|].
  intros _. split_and!; done.
Qed.

Lemma controller_loop_spec owners : forall found o, controller_loop found owners = Ok o ->
  match found with
  | Some f => List.filter (fun o => boolValue (Owner_Controller o)) owners = [] /\ o = f
  | None => List.filter (fun o => boolValue (Owner_Controller o)) owners = [o]
  end.
Proof.
  induction owners as [|x owners IH]; intros found o H; cbn in *.
  - destruct found; [|done]. by injection H as <-.
  - destruct (boolValue (Owner_Controller x)); cbn [negb] in H; [|by apply IH].
    destruct found; [done|]. by destruct (IH _ _ H) as [-> ->].
Qed.

Lemma requireRunOwner_controlled owners run : requireRunOwner owners run = Ok tt ->
  controlled_by owners AgentRunAPIVersion AgentRunKind (Run_Name run) (Run_UID run).
Proof.
  unfold requireRunOwner. intros (o & Ho & H)%result_bind_ok. apply controller_loop_spec in Ho.
  destruct (_ || _) eqn:E in H; [done|]. rewrite !orb_false_iff, !negb_false_iff, !bool_decide_eq_true in E. destruct_and!.
  exists o. unfold boolValue in *. split_and!; try done. by destruct (Owner_BlockOwnerDeletion o) as [[]|].
Qed.

Lemma requireWorkspaceOwner_controlled owners child run : requireWorkspaceOwner owners child run = Ok tt ->
  Child_Kind child = JobKind /\ controlled_by owners AgentRunAPIVersion AgentRunKind (Run_Name run) (Run_UID run) \/
  Child_Kind child = SandboxKind /\ controlled_by owners SandboxAPIVersion SandboxKind (Child_Name child) (Child_UID child).
Proof.
  unfold requireWorkspaceOwner. case_bool_decide as Hj; [intros H; left; split; [done|by apply requireRunOwner_controlled]|].
  destruct (bool_decide (Child_Kind child = SandboxKind)) eqn:Hk; [|done]. apply bool_decide_eq_true in Hk. cbn [negb].
  intros (o & Ho & H)%result_bind_ok. apply controller_loop_spec in Ho. right. split; [done|].
  destruct (_ || _) eqn:E in H; [done|]. rewrite !orb_false_iff, !negb_false_iff, !bool_decide_eq_true in E. destruct_and!.
  exists o. unfold boolValue in *. split_and!; try done. by destruct (Owner_BlockOwnerDeletion o) as [[]|].
Qed.

Lemma work_loop_spec children : forall found c, work_loop found children = Some c ->
  match found with
  | Some f => List.filter (fun c => Child_Role c =?= WorkRole) children = [] /\ c = f
  | None => List.filter (fun c => Child_Role c =?= WorkRole) children = [c]
  end.
Proof.
  induction children as [|x children IH]; intros found c H; cbn [work_loop List.filter] in *.
  - destruct found; [|done]. by injection H as <-.
  - destruct (bool_decide (Child_Role x = WorkRole)); cbn [negb] in H; [|by apply IH].
    destruct found; [done|]. destruct (_ || _) in H; [done|]. by destruct (IH _ _ H) as [-> ->].
Qed.

Lemma validateArtifactKey_prefix prefix uid key : is_ok (validateArtifactKey prefix uid key) = true ->
  HasPrefix key (runPrefix prefix uid) = true.
Proof.
  unfold validateArtifactKey. destruct (validateObjectKey key false); [|done]. cbn [result_bind]. cbv zeta.
  by destruct (HasPrefix key _).
Qed.

Lemma evidence_keys_spec run prefix pres keys : evidence_keys run prefix pres keys = None ->
  forall key, key ∈ keys -> HasPrefix key (runPrefix prefix (Run_UID run)) = true /\ pres key = true.
Proof.
  induction keys as [|k keys IH]; cbn; intros H key Hk; [by apply not_elem_of_nil in Hk|].
  destruct (bool_decide _); [done|]. destruct (is_ok _) eqn:Hv; [|done]. cbn [negb] in H. destruct (pres k) eqn:Hp; [|done].
  apply elem_of_cons in Hk as [-> |Hk]; [|by apply IH]. split; [by apply validateArtifactKey_prefix|done].
Qed.

Lemma key_set_present inv key : key ∈ inventoryKeySet (Artifacts inv) (LedgerObjects inv) -> present inv key.
Proof.
  unfold inventoryKeySet, present. rewrite elem_of_union, !elem_of_list_to_set, !list_elem_of_In.
  intros [H|H]; apply filter_In in H as [H _]; auto.
Qed.

Lemma evidenceEligible_preserved policy inv run :
  evidenceEligible run (ObjectPrefix policy) (LedgerPrefix policy) (inventoryKeySet (Artifacts inv) (LedgerObjects inv)) = None ->
  preserved policy inv run.
Proof.
  unfold evidenceEligible, preserved. destruct (Run_EvidenceFlushed run); [|done]. destruct (Run_LedgerFlushed run); [|done].
  cbn [negb]. destruct (evidence_keys _ _ _ _) eqn:E; [done|]. intros H. split_and!; [done..| |].
  - intros key Hk. destruct (evidence_keys_spec _ _ _ _ E _ Hk) as [Hp Hin]. apply bool_decide_eq_true in Hin.
    split; [done|by apply key_set_present].
  - intros Hne segment Hs. rewrite (bool_decide_eq_false_2 _ Hne) in H. destruct (ValidDigest _); [|done]. cbn [negb] in H.
    cbv zeta in H. destruct (forallb _ _) eqn:Hf; [|done]. rewrite forallb_true, Forall_forall in Hf.
    specialize (Hf _ Hs). apply bool_decide_eq_true in Hf. by apply key_set_present.
Qed.

Lemma normalized_same policy n : Policy_normalized policy = Ok n ->
  ArtifactRetentionDays n = ArtifactRetentionDays policy /\ WorktreeRetentionDays n = WorktreeRetentionDays policy /\
  LedgerRetentionDays n = LedgerRetentionDays policy /\ ObjectPrefix n = ObjectPrefix policy /\
  LedgerPrefix n = LedgerPrefix policy /\ Policy_DryRun n = Policy_DryRun policy /\ MaxActionsPerPlan n <= MaxRetentionActions.
Proof.
  unfold Policy_normalized. do 2 (case_match; [done|]). cbv zeta. destruct (MaxActionsPerPlan policy =? 0);
    (destruct (_ || _) eqn:E in |- *; [done|]); do 2 (case_match; [done|]); intros [= <-]; cbn in *;
    rewrite orb_false_iff, !Z.ltb_ge in E; split_and!; done || lia.
Qed.

Lemma resource_identified r : is_ok (validateResourceIdentity IsDNS1123Subdomain r) = true ->
  Resource_Namespace r <> "" /\ Resource_Name r <> "" /\ validUID (Resource_UID r) = true.
Proof.
  unfold validateResourceIdentity. destruct (_ || _) eqn:E in |- *; [done|].
  rewrite !orb_false_iff, ?negb_false_iff, ?bool_decide_eq_false in E. tauto.
Qed.

(** ** Planning adds justified actions *)

Section Adding.
Context (policy : Policy) (now : Time) (inv : Inventory) (base : Plan).
Context (Bart : ArtifactCutoff base = instant now - days (ArtifactRetentionDays policy)).
Context (Bwork : WorktreeCutoff base = instant now - days (WorktreeRetentionDays policy)).
Context (Bledger : LedgerCutoff base = instant now - days (LedgerRetentionDays policy)).

(** A plan under construction; skips do not matter to it. *)
Definition sound (p : Plan) : Prop :=
  Plan_DryRun p = Plan_DryRun base /\ ArtifactCutoff p = ArtifactCutoff base /\ WorktreeCutoff p = WorktreeCutoff base /\
  LedgerCutoff p = LedgerCutoff base /\ Forall (justified policy now inv (actionMode base)) (Actions p) /\
  paired (actionMode base) (Actions p) (LedgerPairs p) /\ Forall (retires policy now inv) (LedgerPairs p).

Lemma sound_action p a : sound p -> justified policy now inv (actionMode base) a -> Action_PairKey a = "" -> sound (add_action p a).
Proof.
  intros (H1 & H2 & H3 & H4 & H5 & (others & H6 & H7) & H8) Ha Hk. split_and!; try done; cbn.
  - apply Forall_app. split; [done|by apply Forall_singleton].
  - exists (a :: others). split; [rewrite H6; symmetry; apply Permutation_cons_append|by constructor].
Qed.

Lemma sound_pair p pair : sound p -> Forall (justified policy now inv (actionMode base)) (retired (actionMode base) pair) ->
  retires policy now inv pair ->
  sound (add_action (add_action (add_pair p pair)
    (outcomeAction (actionMode base) (Pair_RunUID pair) (Pair_EffectKey pair) (Pair_OutcomeKey pair) (Pair_OutcomeETag pair)))
    (claimAction (actionMode base) (Pair_RunUID pair) (Pair_EffectKey pair) (Pair_ClaimKey pair) (Pair_ClaimETag pair))).
Proof.
  intros (H1 & H2 & H3 & H4 & H5 & (others & H6 & H7) & H8) Ha Hr. split_and!; try done; cbn.
  - rewrite <- (assoc_L (++)). by apply Forall_app.
  - exists others. split; [|done]. rewrite flat_map_app, <- (assoc_L (++)), H6, <- (assoc_L (++)). done.
  - apply Forall_app. by split; [|apply Forall_singleton].
Qed.

Lemma sound_mode p : sound p -> actionMode p = actionMode base.
Proof. intros (H & _). unfold actionMode. by rewrite H. Qed.

Lemma Plan_secret_sound p r run : sound p -> sole_run inv run -> r ∈ Resources inv -> Resource_Kind r = SecretKind ->
  Resource_Deleting r = false -> Run_UID run <> "" -> sound (Plan_secret IsDNS1123Subdomain p r run (instant now)).
Proof.
  intros Hp Hs Hr Hk Hd Hu. unfold Plan_secret. destruct (terminalEligible _ _ _) eqn:Ht; [exact Hp|].
  destruct (_ || _) eqn:El in |- *; [exact Hp|]. destruct (negb _) eqn:Em in |- *; [exact Hp|].
  destruct (requireSpecDigest _ _); [|exact Hp]. destruct (requireRunOwner _ _) as [[]|] eqn:Ho; [|exact Hp].
  destruct (is_ok (validateResourceIdentity _ r)) eqn:Hv; [|exact Hp]. apply resource_identified in Hv. cbn [negb].
  rewrite (sound_mode p Hp). apply sound_action; [done| |done].
  rewrite orb_false_iff, !negb_false_iff, !bool_decide_eq_true in *. destruct_and!.
  apply justified_secret; try done; [by apply terminalEligible_finished|by apply requireRunOwner_controlled].
Qed.

Lemma Plan_workspacePVC_sound p r run : sound p -> sole_run inv run -> r ∈ Resources inv ->
  Resource_Kind r = PersistentVolumeKind -> Resource_Deleting r = false -> Run_UID run <> "" ->
  sound (Plan_workspacePVC IsDNS1123Subdomain p r run (instant now) (ObjectPrefix policy) (LedgerPrefix policy)
           (inventoryKeySet (Artifacts inv) (LedgerObjects inv))).
Proof.
  intros Hp Hs Hr Hk Hd Hu. unfold Plan_workspacePVC. destruct (terminalEligible _ _ _) eqn:Ht; [exact Hp|].
  destruct (evidenceEligible _ _ _ _) eqn:He; [exact Hp|].
  destruct (Z.ltb_spec (WorktreeCutoff p) (instant (Run_CompletedAt run))) as [|Hc]; [exact Hp|].
  destruct (_ || _) eqn:El in |- *; [exact Hp|]. destruct (negb _) eqn:Em in |- *; [exact Hp|].
  destruct (workSandbox run) as [child|] eqn:Hw; [|exact Hp].
  destruct (requireWorkspaceOwner _ _ _) as [[]|] eqn:Ho; [|exact Hp].
  destruct (requireSpecDigest _ _); [|exact Hp].
  destruct (is_ok (validateResourceIdentity _ r)) eqn:Hv; [|exact Hp]. apply resource_identified in Hv. cbn [negb].
  rewrite (sound_mode p Hp). apply sound_action; [done| |done]. destruct Hp as (_ & _ & Hcut & _). rewrite Hcut, Bwork in Hc.
  rewrite orb_false_iff, !negb_false_iff, !bool_decide_eq_true in *. destruct_and!.
  apply (justified_worktree _ _ _ _ run r child); try done.
  - by apply terminalEligible_finished.
  - by apply evidenceEligible_preserved.
  - exact (work_loop_spec _ None _ Hw).
  - by apply requireWorkspaceOwner_controlled.
Qed.

Lemma Plan_artifact_sound p a run : sound p -> sole_run inv run -> a ∈ Artifacts inv -> Run_UID run <> "" ->
  sound (Plan_artifact p a run (ObjectPrefix policy) (LedgerPrefix policy)
           (inventoryKeySet (Artifacts inv) (LedgerObjects inv)) (instant now)).
Proof.
  intros Hp Hs Ha Hu. unfold Plan_artifact. destruct (terminalEligible _ _ _) eqn:Ht; [exact Hp|].
  case_match; [exact Hp|]. destruct (evidenceEligible _ _ _ _) eqn:He; [exact Hp|].
  do 2 (case_match; [exact Hp|]).
  destruct (Z.ltb_spec (ArtifactCutoff p) (instant (Artifact_CreatedAt a))) as [|Hc]; [exact Hp|].
  destruct (bool_decide (Artifact_RunUID a = _)) eqn:Eu; [|exact Hp]. cbn [negb]. apply bool_decide_eq_true in Eu.
  destruct (validateArtifactKey _ _ _) as [[]|[]] eqn:Hv; try exact Hp.
  case_match; [exact Hp|]. case_bool_decide as Et; [exact Hp|].
  rewrite (sound_mode p Hp). apply sound_action; [done| |done]. destruct Hp as (_ & Hcut & _). rewrite Hcut, Bart in Hc.
  apply justified_artifact; try done.
  - by apply terminalEligible_finished.
  - by apply evidenceEligible_preserved.
  - apply validateArtifactKey_prefix. by rewrite Hv.
Qed.

(** A pair of records of the inventory. *)
Definition indexed (pair : ledgerPair) : Prop :=
  (forall co c, ledgerPair_Claim pair = Some (co, c) -> co ∈ LedgerObjects inv /\ DecodeClaim (Object_Body co) = Ok c /\
     parseLedgerObjectKey (ObjectPrefix policy) (LedgerPrefix policy) (Object_Key co) =
       Ok (LedgerClaimsSegment, ledgerPair_EffectKey pair)) /\
  (forall oo o, ledgerPair_Outcome pair = Some (oo, o) -> oo ∈ LedgerObjects inv /\ DecodeOutcome (Object_Body oo) = Ok o /\
     parseLedgerObjectKey (ObjectPrefix policy) (LedgerPrefix policy) (Object_Key oo) =
       Ok (LedgerOutcomesSegment, ledgerPair_EffectKey pair)).

Lemma pair_blocked_none p e co oo c o run : sound p -> pair_blocked p e co oo c o run policy inv now = None ->
  finished (instant now) run /\ Claim_RunUID c = Run_UID run /\ Outcome_RunUID o = Run_UID run /\
  Claim_EffectKey c = e /\ Outcome_EffectKey o = e /\ Outcome_RequestDigest o = Claim_RequestDigest c /\
  (Outcome_State o = OutcomeSucceeded \/ Outcome_State o = OutcomeFailed) /\
  instant (Run_CompletedAt run) <= instant now - days (LedgerRetentionDays policy) /\
  instant (Outcome_RecordedAt o) <= instant now - days (LedgerRetentionDays policy) /\
  (forall a, a ∈ Artifacts inv -> Artifact_RunUID a <> Run_UID run) /\
  ledgerEffectKeyMatches run c = true /\ Object_ETag co <> "" /\ Object_ETag oo <> "".
Proof.
  intros Hp. unfold pair_blocked. case_bool_decide; [done|]. destruct (_ && _) eqn:Hst in |- *; [done|].
  destruct (_ || _) eqn:Hid in |- *; [done|]. destruct (_ && _) eqn:Hek in |- *; [done|].
  destruct (terminalEligible _ _ _) eqn:Ht; [done|]. case_match; [done|]. destruct (evidenceReferencesBound _ _); [done|].
  destruct (_ || _) eqn:Hold in |- *; [done|]. destruct (_ || _) eqn:Hmatch in |- *; [done|].
  destruct (hasRetainedArtifact _ _ _) eqn:Hart; [done|]. case_match; [done|]. destruct (_ || _) eqn:Htag in |- *; [done|]. intros _.
  destruct Hp as (_ & _ & _ & Hcut & _). rewrite Hcut, Bledger in Hold.
  rewrite !orb_false_iff, ?negb_false_iff, ?bool_decide_eq_false, ?Z.ltb_ge, ?bool_decide_eq_true in *.
  rewrite !andb_false_iff, !negb_false_iff, !bool_decide_eq_true in Hst. destruct_and!.
  split_and!; try done; [by apply terminalEligible_finished|].
  intros a Ha Hu. unfold hasRetainedArtifact in Hart. rewrite existsb_false, Forall_forall in Hart. specialize (Hart _ Ha).
  by rewrite bool_decide_eq_true_2 in Hart.
Qed.

Lemma Plan_ledgerPair_sound p pair run : sound p -> sole_run inv run -> indexed pair ->
  sound (Plan_ledgerPair p pair run policy inv now).
Proof.
  intros Hp Hs [Hc Ho]. unfold Plan_ledgerPair. destruct (ledgerPair_Claim pair) as [[co c]|]; [|exact Hp].
  destruct (ledgerPair_Outcome pair) as [[oo o]|]; [|exact Hp]. cbv zeta.
  destruct (pair_blocked _ _ _ _ _ _ _ _ _ _) eqn:Hb; [exact Hp|].
  destruct (EncodeTombstone _) as [body|] eqn:Henc; [|exact Hp]. case_match; [exact Hp|].
  apply pair_blocked_none in Hb; [|done]. destruct_and!. destruct (Hc _ _ eq_refl) as (Hco & Hcd & Hck).
  destruct (Ho _ _ eq_refl) as (Hoo & Hod & Hok). rewrite (sound_mode p Hp).
  apply (sound_pair p (MkPairPlan _ _ _ _ _ _ _ _ _ _ _ _)); [exact Hp| |].
  - repeat apply Forall_cons_2; [..|done]; apply (justified_pair _ _ _ _ run co oo c o); try done; try congruence;
      [left|right]; cbn; congruence.
  - exists run, co, oo. cbn. split_and!; done.
Qed.
End Adding.

(** ** The ledger index *)

(** What the maps hold: decoded records of the inventory under their own key. *)
Definition maps_ok (policy : Policy) (objects : list LedgerObject) (m : ledger_maps) : Prop :=
  (forall k co c, claims m !! k = Some (co, c) -> co ∈ objects /\ DecodeClaim (Object_Body co) = Ok c /\
     parseLedgerObjectKey (ObjectPrefix policy) (LedgerPrefix policy) (Object_Key co) = Ok (LedgerClaimsSegment, k)) /\
  (forall k oo o, outcomes m !! k = Some (oo, o) -> oo ∈ objects /\ DecodeOutcome (Object_Body oo) = Ok o /\
     parseLedgerObjectKey (ObjectPrefix policy) (LedgerPrefix policy) (Object_Key oo) = Ok (LedgerOutcomesSegment, k)).

Lemma index_object_ok policy objects m m' object : object ∈ objects -> maps_ok policy objects m ->
  index_object policy m object = Ok m' -> maps_ok policy objects m'.
Proof.
  intros Hin [Hc Ho]. unfold index_object. case_match; [done|].
  destruct (parseLedgerObjectKey _ _ _) as [[segment key]|] eqn:Hk; [|done]. cbn [result_bind].
  case_bool_decide as Hsc; [|case_bool_decide as Hso].
  - subst segment. destruct (claims m !! key); [done|]. destruct (DecodeClaim _) as [c|] eqn:Hd; [|done]. case_match; [done|].
    intros [= <-]. split; [|done]. cbn. intros k co c' [[<- [= <- <-]]|[_ H']]%lookup_insert_Some; [done|by apply Hc].
  - subst segment. destruct (outcomes m !! key); [done|]. destruct (DecodeOutcome _) as [o|] eqn:Hd; [|done]. case_match; [done|].
    intros [= <-]. split; [done|]. cbn. intros k oo o' [[<- [= <- <-]]|[_ H']]%lookup_insert_Some; [done|by apply Ho].
  - destruct (tombstones m !! key); [done|]. destruct (DecodeTombstone _); [|done]. case_match; [done|]. by intros [= <-].
Qed.

Lemma indexLedger_spec policy inv pairs : indexLedger policy (LedgerObjects inv) = Ok pairs ->
  NoDup (map ledgerPair_EffectKey pairs) /\ forall pair, pair ∈ pairs -> indexed policy inv pair.
Proof.
  unfold indexLedger. intros (m & Hm & H)%result_bind_ok. cbv zeta in H. injection H as <-.
  assert (Hok : maps_ok policy (LedgerObjects inv) m).
  { eapply (fold_result_inv _ (maps_ok policy (LedgerObjects inv))); [| |exact Hm]; [intros; by eapply index_object_ok|].
    split; intros k x y Hk; cbn in Hk; by rewrite lookup_empty in Hk. }
  split.
  - rewrite map_map. cbn. rewrite map_id. unfold Strings. rewrite merge_sort_Permutation. apply NoDup_elements.
  - intros pair (key & -> & _)%list_elem_of_fmap. cbn. destruct Hok as [Hc Ho]. split; intros x y Hxy; [by apply Hc|by apply Ho].
Qed.

(** ** Plans *)

Lemma foldl_inv {S A : Type} (f : S -> A -> S) (P : S -> Prop) items : forall s,
  (forall x s, x ∈ items -> P s -> P (f s x)) -> P s -> P (foldl f s items).
Proof.
  induction items as [|x items IH]; intros s Hf Hs; [done|]. cbn. apply IH.
  - intros y s' Hy. apply Hf. by right.
  - apply Hf; [left|done].
Qed.

Lemma indexRuns_plan input plan : Actions (indexRuns IsDNS1123Subdomain input plan).1 = Actions plan /\
  Plan_DryRun (indexRuns IsDNS1123Subdomain input plan).1 = Plan_DryRun plan /\
  ArtifactCutoff (indexRuns IsDNS1123Subdomain input plan).1 = ArtifactCutoff plan /\
  WorktreeCutoff (indexRuns IsDNS1123Subdomain input plan).1 = WorktreeCutoff plan /\
  LedgerCutoff (indexRuns IsDNS1123Subdomain input plan).1 = LedgerCutoff plan /\
  LedgerPairs (indexRuns IsDNS1123Subdomain input plan).1 = LedgerPairs plan.
Proof.
  unfold indexRuns. generalize (MkIndex ∅ ∅) as ix. revert plan. induction input as [|r input IH]; intros plan ix; [done|].
  cbn [foldl]. unfold index_run at 2 4 6 8 10 12. case_match; [exact (IH (add_skip plan _) _)|]. case_match; apply IH.
Qed.

Lemma justified_normalized policy n now inv mode a : Policy_normalized policy = Ok n ->
  justified n now inv mode a -> justified policy now inv mode a.
Proof.
  intros (Na & Nw & Nl & No & Nlp & _)%normalized_same. destruct n, policy. cbn in Na, Nw, Nl, No, Nlp. subst.
  destruct 1 as [run r|run r child|run a|run co oo c o act];
    [apply (justified_secret _ _ _ _ run r)|apply (justified_worktree _ _ _ _ run r child)|apply (justified_artifact _ _ _ _ run a)
    |apply (justified_pair _ _ _ _ run co oo c o act)]; assumption.
Qed.

Section Loops.
Context (policy : Policy) (now : Time) (inv : Inventory) (base : Plan) (ix : run_index).
Context (Bart : ArtifactCutoff base = instant now - days (ArtifactRetentionDays policy)).
Context (Bwork : WorktreeCutoff base = instant now - days (WorktreeRetentionDays policy)).
Context (Bledger : LedgerCutoff base = instant now - days (LedgerRetentionDays policy)).
Context (Hsole : forall uid run, by_uid ix !! uid = Some run -> uid ∉ duplicates ix -> sole_run inv run /\ Run_UID run = uid).
Notation keys := (inventoryKeySet (Artifacts inv) (LedgerObjects inv)).

Lemma plan_resource_sound r p : r ∈ Resources inv -> sound policy now inv base p ->
  sound policy now inv base (plan_resource IsDNS1123Subdomain policy (instant now) ix (Resources inv) keys p r).
Proof.
  intros Hin Hs. unfold plan_resource. cbv zeta. case_bool_decide as Hl; [exact Hs|].
  destruct (by_uid ix !! label r RunUIDLabelKey) as [run|] eqn:Er; [|exact Hs]. case_bool_decide; [exact Hs|].
  destruct (Hsole _ _ Er) as [Hrun Hu]; [done|]. do 2 (case_match; [exact Hs|]).
  case_bool_decide; [|case_bool_decide; [|exact Hs]].
  - apply Plan_secret_sound; [done..|]. congruence.
  - apply (Plan_workspacePVC_sound policy now inv base Bwork); [done..|]. congruence.
Qed.

Lemma plan_artifact_sound a p : a ∈ Artifacts inv -> sound policy now inv base p ->
  sound policy now inv base (plan_artifact policy (instant now) ix (Artifacts inv) keys p a).
Proof.
  intros Hin Hs. unfold plan_artifact. cbv zeta. case_bool_decide; [exact Hs|].
  destruct (by_uid ix !! Artifact_RunUID a) as [run|] eqn:Er; [|exact Hs]. case_bool_decide; [exact Hs|].
  case_match; [exact Hs|]. destruct (Hsole _ _ Er) as [Hrun Hu]; [done|].
  apply (Plan_artifact_sound policy now inv base Bart); [done..|]. congruence.
Qed.

Lemma plan_pair_sound pair p : indexed policy inv pair -> sound policy now inv base p ->
  sound policy now inv base (plan_pair policy now ix inv p pair).
Proof.
  intros Hin Hs. unfold plan_pair. destruct (ledgerPair_Claim pair) as [[co c]|]; [|exact Hs].
  destruct (by_uid ix !! Claim_RunUID c) as [run|] eqn:Er; [|exact Hs]. case_bool_decide; [exact Hs|].
  apply (Plan_ledgerPair_sound policy now inv base Bledger); [done|by eapply Hsole|done].
Qed.
End Loops.

(** Only the pair loop adds pairs, and at most one for each effect. *)
Lemma plan_resource_pairs policy now ix resources keys p r :
  LedgerPairs (plan_resource IsDNS1123Subdomain policy now ix resources keys p r) = LedgerPairs p.
Proof. unfold plan_resource, Plan_secret, Plan_workspacePVC. cbv zeta. by repeat case_match. Qed.
Lemma plan_artifact_pairs policy now ix artifacts keys p a : LedgerPairs (plan_artifact policy now ix artifacts keys p a) = LedgerPairs p.
Proof. unfold plan_artifact, Plan_artifact. cbv zeta. by repeat case_match. Qed.

Lemma plan_pair_pairs policy now ix inv p pair :
  map Pair_EffectKey (LedgerPairs (plan_pair policy now ix inv p pair)) = map Pair_EffectKey (LedgerPairs p) \/
  map Pair_EffectKey (LedgerPairs (plan_pair policy now ix inv p pair)) =
    map Pair_EffectKey (LedgerPairs p) ++ [ledgerPair_EffectKey pair].
Proof.
  unfold plan_pair, Plan_ledgerPair. destruct (ledgerPair_Claim pair) as [[co c]|]; [|by left].
  destruct (by_uid ix !! _); [|by left]. case_match; [by left|]. destruct (ledgerPair_Outcome pair) as [[oo o]|]; [|by left].
  cbv zeta. destruct (pair_blocked _ _ _ _ _ _ _ _ _ _); [by left|]. destruct (EncodeTombstone _); [|by left].
  case_match; [by left|]. right. cbn. by rewrite map_app.
Qed.

Lemma plan_pairs_distinct policy now ix inv pairs : forall p,
  NoDup (map Pair_EffectKey (LedgerPairs p) ++ map ledgerPair_EffectKey pairs) ->
  NoDup (map Pair_EffectKey (LedgerPairs (foldl (plan_pair policy now ix inv) p pairs))).
Proof.
  induction pairs as [|pair pairs IH]; intros p H; [by rewrite app_nil_r in H|]. cbn [foldl map] in *. apply IH.
  destruct (plan_pair_pairs policy now ix inv p pair) as [-> | ->].
  - eapply sublist_NoDup; [exact H|]. apply sublist_app; [done|by apply sublist_cons].
  - by rewrite <- (assoc_L (++)).
Qed.

Lemma foldl_same {S A B : Type} (f : S -> A -> S) (g : S -> B) items : (forall s x, g (f s x) = g s) -> forall s, g (foldl f s items) = g s.
Proof. intros Hf. induction items as [|x items IH]; intros s; [done|]. cbn. by rewrite IH, Hf. Qed.

(** What a plan is. *)
Lemma plan_sound policy now inv plan : Policy_Plan IsDNS1123Subdomain policy now inv = Ok plan ->
  exists n, Policy_normalized policy = Ok n /\ IsZero now = false /\ Plan_DryRun plan = Policy_DryRun n /\
    Forall (justified n now inv (actionMode plan)) (Actions plan) /\ paired (actionMode plan) (Actions plan) (LedgerPairs plan) /\
    Forall (retires n now inv) (LedgerPairs plan) /\ NoDup (map Pair_EffectKey (LedgerPairs plan)) /\
    slen (Actions plan) <= MaxActionsPerPlan n.
Proof.
  intros H. unfold Policy_Plan in H. apply result_bind_ok in H as (n & Hn & H). destruct (IsZero now) eqn:Hz; [done|]. cbv zeta in H.
  set (base := MkPlan _ _ _ _ [] [] []) in H.
  pose proof (indexRuns_plan (Runs inv) base) as (A0 & D0 & C1 & C2 & C3 & L0).
  pose proof (indexed_sole inv base) as Hsole. cbv zeta in Hsole.
  destruct (indexRuns _ (Runs inv) base) as [plan0 ix]. cbn [fst snd] in *.
  apply result_bind_ok in H as (pairs & Hp & H).
  destruct (_ <? _) eqn:Hmax in H; [done|]. injection H as <-. cbn [Actions Plan_DryRun LedgerPairs] in *.
  apply indexLedger_spec in Hp as [Hnd Hpairs].
  match goal with |- context [sort_actions (Actions ?p)] => assert (S1 : sound n now inv base p) end.
  { apply foldl_inv; [|apply foldl_inv; [|apply foldl_inv]]; [intros x p Hin..|].
    - apply plan_pair_sound; [reflexivity|exact Hsole|by apply Hpairs].
    - apply plan_artifact_sound; [reflexivity|exact Hsole|exact Hin].
    - apply plan_resource_sound; [reflexivity|exact Hsole|exact Hin].
    - split_and!; [assumption..| | |]; rewrite ?A0, ?L0; [constructor| |constructor]. by exists []. }
  destruct S1 as (D1 & _ & _ & _ & HJ & (others & HP & HO) & HR). exists n. rewrite D1.
  pose proof (sort_on_perm action_key _ : forall l, sort_actions l ≡ₚ l) as Hsort. split_and!; try done.
  - apply Forall_forall. intros a Ha. rewrite Hsort in Ha. rewrite Forall_forall in HJ. by apply HJ.
  - exists others. split; [|done]. etransitivity; [apply Hsort|exact HP].
  - apply plan_pairs_distinct. rewrite !foldl_same by (intros; apply plan_artifact_pairs || apply plan_resource_pairs). by rewrite L0.
  - apply Z.ltb_ge in Hmax. cbn [Actions] in Hmax. lia.
Qed.

(** C37. Every action of a plan is justified by the inventory it was made from:
    credentials of a finished run that owns them; a worktree or artifact of a
    finished run whose evidence is stored, past its retention window and within
    the run's own prefix or ownership; claim and outcome of a settled effect of
    a finished run without artifacts left, past the ledger window.  A dry run
    plans no deletion, and a plan has a bounded number of actions. *)
Theorem plan_justified policy now inv plan (H : Policy_Plan IsDNS1123Subdomain policy now inv = Ok plan) :
  Forall (justified policy now inv (actionMode plan)) (Actions plan) /\ Plan_DryRun plan = Policy_DryRun policy /\
  slen (Actions plan) <= MaxRetentionActions.
Proof.
  destruct (plan_sound _ _ _ _ H) as (n & Hn & _ & Hd & HJ & _ & _ & _ & Hmax).
  destruct (normalized_same _ _ Hn) as (_ & _ & _ & _ & _ & Nd & Nm). split_and!; [|congruence|lia].
  eapply Forall_impl; [exact HJ|]. intros a. by apply justified_normalized.
Qed.
End Plans.

(** ** A plan *)

Definition sample_uid : string := "run-1".
Definition sample_digest : string := DigestPrefix +:+ of_bytes (repeat 0x61 64).
Definition sample_run : Run :=
  MkRun "agents" "demo" sample_uid sample_digest "" "" PhaseSucceeded (MkTime 2024 1 1 0 0 0 0 0) [] false [] false "".
Definition sample_owner : OwnerReference :=
  MkOwner AgentRunAPIVersion AgentRunKind "demo" sample_uid (Some true) (Some true).
Definition sample_resource : Resource :=
  MkResource SecretKind "agents" "demo-secret" "uid-1" sample_digest
    {[RunUIDLabelKey := sample_uid; ManagedByLabelKey := RunSecretManagedBy]} ∅ [sample_owner] false.
Definition sample_inventory : Inventory := MkInventory [sample_run] [sample_resource] [] [].
Definition planning_time : Time := MkTime 2024 2 29 23 59 59 120 0.

(** A finished run with its secret: the secret is planned for deletion. *)
Lemma plan_justified_witness : exists plan a,
  Policy_Plan (fun _ => []) DefaultPolicy planning_time sample_inventory = Ok plan /\ Actions plan = [a] /\
  justified (fun _ => []) DefaultPolicy planning_time sample_inventory (actionMode plan) a.
Proof.
  destruct (Policy_Plan (fun _ => []) DefaultPolicy planning_time sample_inventory) as [plan|] eqn:E; [|vm_compute in E; discriminate E].
  assert (Ha : exists a, Actions plan = [a]) by (vm_compute in E; injection E as <-; eexists; reflexivity). destruct Ha as [a Ha].
  exists plan, a. split_and!; [done..|]. pose proof (plan_justified _ _ _ _ _ E) as [HJ _]. rewrite Ha in HJ.
  by inversion HJ.
Defined.
