(* ===== verification/LedgerPlans.v ===== *)
(** * Object keys and ledger pairs

    What [validateObjectKey] accepts, the keys of a ledger, and that the applier
    accepts what the planner plans. *)

From S2P Require Import Prelude Order GoStrings Paths Utf8 Digest GoTime Fsm StrictJsonSpec Store Effects EffectsCodec Retention RetentionApply.
From S2P Require Import LedgerSystem RetentionSpec.
Local Open Scope go_scope.
Local Open Scope string_scope.
Local Open Scope Z_scope.
Local Open Scope list_scope.

(** ** Segments *)

(** An element of a key: not empty, not a dot element, of plain characters. *)
Definition good_segment (p : list Z) : Prop := p <> [] /\ p <> dot_segment /\ p <> dotdot_segment /\ forallb key_rune p = true.

Lemma key_rune_ascii c : key_rune c = true -> c < 0x80 /\ c <> slash.
Proof. unfold key_rune, is_digit, slash. rewrite !orb_true_iff, !between_spec, !Z.eqb_eq. lia. Qed.

Lemma of_bytes_eq p s : Forall is_byte p -> (of_bytes p = s <-> p = bytes s).
Proof. intros Hp. split; [intros <-; by rewrite bytes_of_bytes|intros ->; apply of_bytes_bytes]. Qed.

Lemma segment_check p : Forall is_byte p ->
  negb ((of_bytes p =?= "") || (of_bytes p =?= ".") || (of_bytes p =?= "..")) && forallb key_rune (runes (of_bytes p)) = true
  <-> good_segment p.
Proof.
  intros Hp. rewrite andb_true_iff, negb_true_iff, !orb_false_iff, !bool_decide_eq_false, !of_bytes_eq by done.
  unfold runes. rewrite bytes_of_bytes by done. rewrite decode_forall_ascii by (by intros r [? _]%key_rune_ascii).
  unfold good_segment. change (bytes "") with (@nil Z). change (bytes ".") with dot_segment. change (bytes "..") with dotdot_segment.
  tauto.
Qed.

Lemma segments_check key :
  forallb (fun segment => negb ((segment =?= "") || (segment =?= ".") || (segment =?= "..")) && forallb key_rune (runes segment))
    (Split key slash) = true <-> Forall good_segment (split_bytes slash (bytes key)).
Proof.
  unfold Split. pose proof (split_bytes_range slash _ (bytes_range key)) as Hr. revert Hr.
  induction (split_bytes slash (bytes key)) as [|p ps IH]; intros Hr; [done|]. inversion Hr; subst.
  cbn [map forallb]. rewrite andb_true_iff, Forall_cons, <- (segment_check p), <- IH by done. done.
Qed.

(** Keys of good segments are clean. *)
Lemma good_plain p : good_segment p -> plain_segment p.
Proof. by intros (? & ? & ? & _). Qed.

Lemma good_join segments : Forall good_segment segments -> Forall (fun b => b < 0x80) (join slash segments).
Proof.
  assert (Hg : forall p, good_segment p -> Forall (fun b => b < 0x80) p).
  { intros p (_ & _ & _ & Hp). rewrite forallb_true in Hp. eapply Forall_impl; [exact Hp|]. by intros b [? _]%key_rune_ascii. }
  induction 1 as [|p [|q ps] Hp Hps IH]; cbn [join]; [done|by apply Hg|]. apply Forall_app. split; [by apply Hg|]. by constructor.
Qed.

(** The other tests of [validateObjectKey] follow from the segments. *)
Lemma validateObjectKey_iff key :
  validateObjectKey key false = Ok tt <-> len key <= 1024 /\ Forall good_segment (split_bytes slash (bytes key)).
Proof.
  unfold validateObjectKey. rewrite andb_false_r. split.
  - destruct (_ || _) eqn:E in |- *; [done|]. case_match eqn:Hs; [|done]. intros _. apply segments_check in Hs. split; [|done].
    rewrite !orb_false_iff, Z.ltb_ge in E. lia.
  - intros [Hl Hg]. assert (Hne : Forall (fun part => part <> []) (split_bytes slash (bytes key))).
    { eapply Forall_impl; [exact Hg|]. by intros p [? _]. }
    assert (Htl : Forall (fun part => part <> []) (tail (split_bytes slash (bytes key)))) by (by destruct Hne).
    assert (Hk : key <> "") by (intros ->; by inversion Hne).
    assert (Hclean : path_Clean (bytes key) = bytes key) by (apply path_Clean_plain; eapply Forall_impl; [exact Hg|apply good_plain]).
    assert (HasPrefix key "/" = false) as -> by (apply not_true_iff_false; rewrite HasPrefix_slash; by apply split_head).
    assert (HasSuffix key "/" = false) as -> by (apply not_true_iff_false; rewrite HasSuffix_slash; by apply split_last).
    unfold Contains. change (bytes "//") with [slash; slash]. rewrite split_no_double by done.
    rewrite (ValidString_ascii key) by (rewrite <- (join_split slash (bytes key)); by apply good_join).
    rewrite (bool_decide_eq_true_2 _ Hclean), (bool_decide_eq_false_2 _ Hk), (proj2 (Z.ltb_ge _ _) Hl). cbn [orb negb].
    by rewrite (proj2 (segments_check key) Hg).
Qed.

(** ** Ledger keys *)

Lemma TrimPrefix_cancel s t : TrimPrefix (s +:+ t) s = t.
Proof. apply (app_cancel s). symmetry. apply TrimPrefix_app, HasPrefix_app. Qed.

Lemma HasSuffix_app s t : HasSuffix (s +:+ t) t = true.
Proof. unfold HasSuffix. apply bool_decide_eq_true. rewrite bytes_app. by eexists. Qed.
Lemma TrimSuffix_cancel s t : TrimSuffix (s +:+ t) t = s.
Proof. apply (app_cancel_r t). symmetry. apply TrimSuffix_app, HasSuffix_app. Qed.

(** Evaluates whether a literal has a slash. *)
Lemma literal_free s : forallb (fun b => negb (b =? slash)) (bytes s) = true -> slash ∉ bytes s.
Proof. rewrite forallb_true, Forall_forall. intros H Hs. by specialize (H _ Hs). Qed.

Lemma ledger_name_free hex : isLowerHex hex = true -> slash ∉ bytes (hex +:+ ".json").
Proof.
  unfold isLowerHex, runes. rewrite decode_forall_ascii; [|intros r; unfold is_digit; rewrite orb_true_iff, !between_spec; lia].
  rewrite forallb_true, Forall_forall. intros H. rewrite bytes_app. intros [Hs%H|Hs]%elem_of_app; [done|].
  by apply literal_free in Hs.
Qed.

Definition ledger_segments : list string := [LedgerClaimsSegment; LedgerOutcomesSegment; LedgerTombstonesSegment].

Lemma ledger_segment_free segment : segment ∈ ledger_segments -> slash ∉ bytes segment.
Proof.
  unfold ledger_segments. rewrite !elem_of_cons. intros [-> |[-> |[-> |[]%not_elem_of_nil]]]; by apply literal_free.
Qed.

Lemma Split_two a b : slash ∉ bytes a -> slash ∉ bytes b -> Split (a +:+ "/" +:+ b) slash = [a; b].
Proof.
  intros Ha Hb. unfold Split. rewrite !bytes_app. change (bytes "/" ++ bytes b) with (slash :: bytes b).
  rewrite split_bytes_app, split_bytes_whole by done. cbn. by rewrite !of_bytes_bytes.
Qed.

Section Keys.
Context (op lp : string).
Notation root := (ledgerRoot op lp).

Lemma root_slash : exists r, bytes root = r ++ [slash].
Proof. unfold ledgerRoot. rewrite !bytes_app, !(assoc_L (++)). by eexists. Qed.

(** A valid ledger key names its segment and effect. *)
Lemma parse_ledger_key segment hex : segment ∈ ledger_segments -> len hex = 64 -> isLowerHex hex = true ->
  validateObjectKey (ledger_key root segment hex) false = Ok tt ->
  parseLedgerObjectKey op lp (ledger_key root segment hex) = Ok (segment, DigestPrefix +:+ hex).
Proof.
  intros Hs Hl Hh Hv. unfold parseLedgerObjectKey. rewrite Hv. cbn [is_ok negb]. cbv zeta. unfold ledger_key.
  rewrite HasPrefix_app, TrimPrefix_cancel. cbn [negb].
  rewrite Split_two by (first [by apply ledger_segment_free|by apply ledger_name_free]).
  rewrite HasSuffix_app, TrimSuffix_cancel, Hl, Hh. rewrite bool_decide_eq_false_2 by (by destruct hex). cbn [orb negb Z.eqb].
  unfold ledger_segments in Hs. rewrite !elem_of_cons in Hs. 
  destruct Hs as [-> |[-> |[-> |[]%not_elem_of_nil]]]; done.
Qed.

(** The segment does not matter to the validity of a key, its length apart. *)
Lemma ledger_key_valid segment segment' hex : segment ∈ ledger_segments -> segment' ∈ ledger_segments -> isLowerHex hex = true ->
  len hex = 64 -> len root <= 944 ->
  validateObjectKey (ledger_key root segment hex) false = Ok tt -> validateObjectKey (ledger_key root segment' hex) false = Ok tt.
Proof.
  intros Hs Hs' Hh Hl Hr. rewrite !validateObjectKey_iff. destruct root_slash as [r Er].
  assert (Hsplit : forall s, s ∈ ledger_segments ->
    split_bytes slash (bytes (ledger_key root s hex)) = split_bytes slash r ++ [bytes s; bytes (hex +:+ ".json")]).
  { intros s Hin. unfold ledger_key. rewrite bytes_app, Er, <- (assoc_L (++)). cbn [app]. rewrite split_bytes_concat. f_equal.
    rewrite !bytes_app. change (bytes "/" ++ ?x) with (slash :: x).
    rewrite split_bytes_app by (by apply ledger_segment_free). f_equal. rewrite <- bytes_app. by apply split_bytes_whole, ledger_name_free. }
  rewrite !Hsplit, !Forall_app by done. intros [_ [Hg Hrest]]. rewrite !Forall_cons in Hrest |- *. destruct Hrest as (_ & Hj & Hn).
  assert (Hseg : len segment' <= 10 /\ good_segment (bytes segment')).
  { unfold ledger_segments in Hs'. rewrite !elem_of_cons in Hs'.
    by destruct Hs' as [-> |[-> |[-> |[]%not_elem_of_nil]]]; unfold good_segment; split_and!. }
  destruct Hseg. split_and!; try done. unfold ledger_key. rewrite !len_app, Hl. change (len "/") with 1. change (len ".json") with 5. lia.
Qed.

Lemma sibling_key segment segment' key e : parseLedgerObjectKey op lp key = Ok (segment, e) -> segment ∈ ledger_segments ->
  segment' ∈ ledger_segments -> len root <= 944 ->
  parseLedgerObjectKey op lp (ledger_key root segment' (TrimPrefix e DigestPrefix)) = Ok (segment', e).
Proof.
  intros (hex & -> & -> & Hl & Hh & Hv)%parse_key_parts Hs Hs' Hr. rewrite TrimPrefix_cancel.
  apply parse_ledger_key; [done..|]. by eapply (ledger_key_valid segment).
Qed.
End Keys.

(** ** Grouping actions *)

Definition find_action (m : pair_actions) (e r : string) : option Action := m !! e ≫= lookup r.
Definition action_pair (a : Action) : string * string := (Action_PairKey a, Action_Role a).
Definition of_pair (a : Action) : bool := Action_PairKey a !=? "".
Definition ledger_role (r : string) : Prop := r = ledger_claim_role \/ r = ledger_outcome_role.

Lemma find_insert m e r a e' r' :
  find_action (<[e := <[r := a]> (default ∅ (m !! e))]> m) e' r' =
  if bool_decide ((e', r') = (e, r)) then Some a else find_action m e' r'.
Proof.
  unfold find_action. destruct (decide (e' = e)) as [-> |He].
  - rewrite lookup_insert_eq. cbn. destruct (decide (r' = r)) as [-> |Hr].
    + by rewrite lookup_insert_eq, bool_decide_eq_true_2.
    + rewrite lookup_insert_ne, bool_decide_eq_false_2 by congruence. destruct (m !! e); cbn; [done|apply lookup_empty].
  - rewrite lookup_insert_ne, bool_decide_eq_false_2 by congruence. done.
Qed.

(** The map holds exactly the ledger actions, by pair and role. *)
Definition grouped (acts : list Action) (m : pair_actions) : Prop :=
  (forall e r a, find_action m e r = Some a <-> a ∈ List.filter of_pair acts /\ action_pair a = (e, r)) /\
  (forall e roles, m !! e = Some roles -> exists r a, find_action m e r = Some a).

Lemma group_actions acts : Forall (fun a => of_pair a = true -> ledger_role (Action_Role a)) acts ->
  NoDup (map action_pair (List.filter of_pair acts)) -> exists m, fold_result group_action ∅ acts = Ok m /\ grouped acts m.
Proof.
  induction acts as [|a acts IH] using rev_ind; intros Hr Hn.
  { exists ∅. split; [done|]. split; [|intros e roles H; by rewrite lookup_empty in H].
    intros e r a. unfold find_action. rewrite lookup_empty. cbn. split; [done|]. by intros [[]%not_elem_of_nil _]. }
  apply Forall_app in Hr as [Hr Ha]. rewrite Forall_singleton in Ha. unfold grouped. rewrite filter_snoc in Hn |- *.
  rewrite map_app, NoDup_app in Hn. destruct Hn as (Hn & Hfresh & _). destruct (IH Hr Hn) as (m & Hm & Hg & Hd).
  rewrite fold_result_snoc, Hm. cbn [result_bind]. unfold group_action, of_pair in Ha, Hfresh |- * .
  destruct (bool_decide (Action_PairKey a = "")); cbn [negb] in Ha |- *; [exists m; by rewrite app_nil_r|].
  specialize (Ha eq_refl). assert (Hfind : find_action m (Action_PairKey a) (Action_Role a) = None).
  { apply eq_None_not_Some. intros [a' Ha']. apply Hg in Ha' as [Hin Hk]. apply (Hfresh (action_pair a)); [|by left].
    change (Action_PairKey a, Action_Role a) with (action_pair a) in Hk. rewrite <- Hk. by apply list_elem_of_fmap_2. }
  assert ((Action_Role a !=? ledger_claim_role) && (Action_Role a !=? ledger_outcome_role) = false) as -> by (by destruct Ha as [-> | ->]).
  cbv zeta.
  rewrite bool_decide_eq_false_2.
  2: { unfold find_action in Hfind. destruct (m !! Action_PairKey a); cbn in *; [rewrite Hfind|rewrite lookup_empty]; by intros []. }
  eexists. split; [done|]. split.
  - intros e r a'. rewrite find_insert, elem_of_app, list_elem_of_singleton. case_bool_decide as Hk.
    + split; [intros [= <-]; by auto|]. intros [[Hin| ->] Hp]; [|done]. rewrite <- Hp in Hk. exfalso.
      apply (Hfresh (action_pair a')); [by apply list_elem_of_fmap_2|]. rewrite Hk. by left.
    + rewrite Hg. split; [tauto|]. intros [[Hin| ->] Hp]; [done|]. by rewrite <- Hp in Hk.
  - intros e roles He. destruct (decide (e = Action_PairKey a)) as [-> |Hne].
    + exists (Action_Role a), a. by rewrite find_insert, bool_decide_eq_true_2.
    + rewrite lookup_insert_ne in He by done. destruct (Hd _ _ He) as (r & a' & H'). exists r, a'.
      rewrite find_insert, bool_decide_eq_false_2 by congruence. done.
Qed.

(** ** Planned pairs *)

Lemma Encode_valid t body : EncodeTombstone t = Ok body -> Tombstone_SchemaVersion t = SchemaVersion ->
  validTombstone t = true /\ is_Some (MarshalTime (Tombstone_RetiredAt t)).
Proof.
  unfold EncodeTombstone. intros H Hv. rewrite Hv in H. cbv zeta in H. change (SchemaVersion =? 0) with false in H.
  cbv iota in H. rewrite Hv in H. change (SchemaVersion =? SchemaVersion) with true in H. cbn [negb orb] in H.
  destruct (validTombstone t); [|done]. split; [done|]. cbn [negb] in H. unfold tombstone_json, json_time in H.
  destruct (MarshalTime _); [done|]. cbn in H. discriminate H.
Qed.

Lemma wf_valid s : wf_string s = true -> ValidString s = true.
Proof. unfold wf_string. rewrite !andb_true_iff. tauto. Qed.

Lemma operation_text run c : ledgerEffectKeyMatches run c = true -> ValidString (Claim_Operation c) = true.
Proof.
  unfold ledgerEffectKeyMatches. cbv zeta. case_bool_decide as H1; [by rewrite H1|].
  case_bool_decide as H2; [by rewrite H2|]. case_bool_decide as H3; [by rewrite H3|]. done.
Qed.

Section Accepting.
Context (IsDNS1123Subdomain : string -> list string) (policy : Policy) (now : Time) (inv : Inventory) (config : ApplierConfig).
Context (Hcivil : civil now = true) (Hroot : len (ledgerRoot (ObjectPrefix policy) (LedgerPrefix policy)) <= 944).
Context (Hop : Config_ObjectPrefix config = ObjectPrefix policy) (Hlp : Config_LedgerPrefix config = LedgerPrefix policy).

(** The checks of the applier that concern a pair alone. *)
Definition acceptable_pair (pair : LedgerPairPlan) : Prop :=
  pair_well_formed pair = true /\ tombstone_matches pair = true /\
  key_names config (Pair_ClaimKey pair) LedgerClaimsSegment (Pair_EffectKey pair) = true /\
  key_names config (Pair_OutcomeKey pair) LedgerOutcomesSegment (Pair_EffectKey pair) = true /\
  key_names config (Pair_TombstoneKey pair) LedgerTombstonesSegment (Pair_EffectKey pair) = true.

Lemma key_names_parse key segment e :
  parseLedgerObjectKey (ObjectPrefix policy) (LedgerPrefix policy) key = Ok (segment, e) -> key_names config key segment e = true.
Proof. unfold key_names. rewrite Hop, Hlp. intros ->. by rewrite !bool_decide_eq_true_2. Qed.

Lemma retires_acceptable pair : retires IsDNS1123Subdomain policy now inv pair -> acceptable_pair pair.
Proof.
  intros (run & co & oo & Hsole & Hu & Hm & (_ & Dc & Kc & Ec & Uc & Pc & Tc & Nc) & (_ & Do & Ko & Eo & Uo & Er & Hst & Po & To & No) &
    Ht & Henc & Htk). cbn zeta in *.
  destruct (DecodeClaim_bytes _ _ Dc) as (_ & Hvc & _). unfold validClaim in Hvc. rewrite !andb_true_iff in Hvc. destruct_and!.
  rewrite Ht in Henc. destruct (Encode_valid _ _ Henc eq_refl) as [Hvt Hmt]. cbn [Tombstone_RetiredAt] in Hmt.
  assert (Hz : IsZero now = false).
  { unfold validTombstone in Hvt. destruct (IsZero now) eqn:E; [|done]. cbn [Tombstone_RetiredAt] in Hvt. by rewrite E, orb_true_r in Hvt. }
  destruct (tombstone_round_trip _ Hvt eq_refl) as (body & Hb & Hd & Hl);
    [by split_and!|cbn; by eapply operation_text|cbn; rewrite <- Uc; by eapply wf_valid, DecodeClaim_run|].
  rewrite Henc in Hb. injection Hb as <-.
  assert (Hne : Pair_TombstoneBody pair <> []) by (intros E; rewrite E in Hd; discriminate Hd).
  unfold acceptable_pair. rewrite Pc, Po, Htk. split_and!; [| |by apply key_names_parse..|].
  - unfold pair_well_formed. cbv zeta. rewrite Ec, Eo, Er, Uc, Uo, Hu, Tc, To, !andb_true_iff, !negb_true_iff, orb_true_iff.
    rewrite !bool_decide_eq_true, !bool_decide_eq_false, Z.eqb_neq, Z.leb_le. rewrite <- Ec at 1.
    unfold safeIdentifier in *. rewrite !andb_true_iff, !negb_true_iff, !bool_decide_eq_false, ?Uc in *. destruct_and!.
    split_and!; try done. unfold slen. destruct (Pair_TombstoneBody pair); [done|cbn; lia].
  - unfold tombstone_matches. rewrite Hd, Ht, Hu. unfold sameTombstoneIdentity. cbn [Tombstone_SchemaVersion
      Tombstone_EffectKey Tombstone_RequestDigest Tombstone_Operation Tombstone_RunUID Tombstone_State Tombstone_RetiredAt].
    by rewrite Hz, Z.eqb_refl, !bool_decide_eq_true_2.
  - apply key_names_parse. unfold ledger_key in *. apply (sibling_key _ _ LedgerClaimsSegment _ (Object_Key co)); [done|by left| |done].
    by right; right; left.
Qed.

(** ** Plans of acceptable pairs *)

Lemma retired_role mode pair a : a ∈ retired mode pair -> Action_PairKey a = Pair_EffectKey pair /\ ledger_role (Action_Role a).
Proof. unfold retired. rewrite !elem_of_cons. by intros [-> |[-> |[]%not_elem_of_nil]]; split; [|right| |left]. Qed.

Lemma elem_flat_map {A B : Type} (f : A -> list B) l y : y ∈ flat_map f l <-> exists x, x ∈ l /\ y ∈ f x.
Proof. rewrite list_elem_of_In, in_flat_map. by setoid_rewrite list_elem_of_In. Qed.

Lemma retired_distinct mode pairs : NoDup (map Pair_EffectKey pairs) -> NoDup (map action_pair (flat_map (retired mode) pairs)).
Proof.
  induction pairs as [|pair pairs IH]; [constructor|]. cbn [map flat_map]. rewrite NoDup_cons, map_app, NoDup_app. intros [Hp Hn].
  split_and!; [|intros x Hx Hx'|by apply IH].
  - cbn. apply NoDup_cons_2, NoDup_singleton. rewrite list_elem_of_singleton. by intros [=].
  - apply list_elem_of_fmap in Hx as (a & -> & Ha), Hx' as (a' & Hk & Ha'). apply elem_flat_map in Ha' as (pair' & Hin & Ha').
    apply retired_role in Ha as [Ha _], Ha' as [Ha' _]. apply Hp. apply list_elem_of_fmap. exists pair'. split; [|done].
    unfold action_pair in Hk. congruence.
Qed.

Lemma filter_perm {A : Type} (f : A -> bool) l l' : l ≡ₚ l' -> List.filter f l ≡ₚ List.filter f l'.
Proof.
  induction 1 as [|x l l' _ IH|x y l|l1 l2 l3 _ IH1 _ IH2]; cbn; [done|by destruct (f x); rewrite IH| |by rewrite IH1].
  destruct (f x), (f y); try done. apply perm_swap.
Qed.

Lemma elem_filter_2 {A : Type} (f : A -> bool) l x : x ∈ l -> f x = true -> x ∈ List.filter f l.
Proof. rewrite !list_elem_of_In, filter_In. done. Qed.

Lemma filter_all {A : Type} (f : A -> bool) (b : bool) l : Forall (fun x => f x = b) l -> List.filter f l = if b then l else [].
Proof. induction 1 as [|x l Hx _ IH]; [by destruct b|]. cbn. rewrite Hx, IH. by destruct b. Qed.

Lemma paired_filter mode acts pairs : paired mode acts pairs -> Forall acceptable_pair pairs ->
  List.filter of_pair acts ≡ₚ flat_map (retired mode) pairs.
Proof.
  intros (others & Hp & Ho) Hok. rewrite (filter_perm _ _ _ Hp), List.filter_app, (filter_all of_pair false others), (filter_all of_pair true).
  - done.
  - apply Forall_forall. intros a (pair & Hin & [Ha _]%retired_role)%elem_flat_map. unfold of_pair. rewrite Ha.
    rewrite Forall_forall in Hok. destruct (Hok _ Hin) as (Hw & _). unfold pair_well_formed in Hw. cbv zeta in Hw.
    rewrite !andb_true_iff in Hw. destruct_and!. apply negb_true_iff, bool_decide_eq_false. intros E. by rewrite E in *.
  - eapply Forall_impl; [exact Ho|]. intros a Ha. unfold of_pair. by rewrite Ha.
Qed.

Section Grouped.
Context (plan : Plan) (m : pair_actions) (Hg : grouped (Actions plan) m).
Context (Hf : List.filter of_pair (Actions plan) ≡ₚ flat_map (retired (actionMode plan)) (LedgerPairs plan)).
Context (Hn : NoDup (map Pair_EffectKey (LedgerPairs plan))).

Lemma find_retired pair a : pair ∈ LedgerPairs plan -> a ∈ retired (actionMode plan) pair ->
  find_action m (Pair_EffectKey pair) (Action_Role a) = Some a.
Proof.
  intros Hp Ha. destruct Hg as [Hg1 _]. apply Hg1. rewrite Hf, elem_flat_map. split; [by eauto|].
  apply retired_role in Ha as [Ha _]. unfold action_pair. by rewrite Ha.
Qed.

Lemma has_actions pair : pair ∈ LedgerPairs plan -> pair_has_actions plan m pair = true.
Proof.
  intros Hp. pose proof (find_retired pair _ Hp ltac:(left)) as Ho. pose proof (find_retired pair _ Hp ltac:(right; left)) as Hc.
  unfold find_action, pair_has_actions in *. destruct (m !! Pair_EffectKey pair) as [roles|] eqn:Hm; [|done].
  cbn [mbind option_bind default Action_Role outcomeAction claimAction] in *. cbv zeta.
  change "ledger-outcome" with ledger_outcome_role in Ho. change "ledger-claim" with ledger_claim_role in Hc.
  unfold id. rewrite Ho, Hc. unfold action_matches. cbn. rewrite !bool_decide_eq_true_2 by done. rewrite !andb_true_r, Z.eqb_eq.
  assert (Hroles : dom roles = {[ledger_claim_role; ledger_outcome_role]}).
  { apply set_eq. intros r. rewrite elem_of_dom, elem_of_union, !elem_of_singleton. split.
    - intros [a Ha]. destruct Hg as [Hg1 _]. assert (Hfind : find_action m (Pair_EffectKey pair) r = Some a)
        by (unfold find_action; by rewrite Hm). apply Hg1 in Hfind as [Hin Hk]. rewrite Hf, elem_flat_map in Hin.
      destruct Hin as (pair' & _ & [_ Hr]%retired_role). injection Hk as _ <-. done.
    - intros [-> | ->]; by eexists. }
  rewrite <- size_dom, Hroles. reflexivity.
Qed.
End Grouped.

Lemma check_pairs plan m pairs : Forall (fun pair => acceptable_pair pair /\ pair_has_actions plan m pair = true) pairs -> forall seen,
  NoDup (map Pair_EffectKey pairs) -> (forall k, k ∈ map Pair_EffectKey pairs -> k ∉ seen) ->
  exists seen', fold_result (check_pair plan config m) seen pairs = Ok seen' /\
    forall k, k ∈ map Pair_EffectKey pairs \/ k ∈ seen -> k ∈ seen'.
Proof.
  induction 1 as [|pair pairs [(H1 & H2 & H3 & H4 & H5) H6] _ IH]; intros seen Hn Hs.
  { exists seen. split; [done|]. by intros k [[]%not_elem_of_nil|]. }
  cbn [map fold_result] in *. apply NoDup_cons in Hn as [Hp Hn].
  assert (check_pair plan config m seen pair = Ok ({[Pair_EffectKey pair]} ∪ seen)) as ->.
  { unfold check_pair. rewrite (bool_decide_eq_false_2 (Pair_EffectKey pair ∈ seen)) by (by apply Hs; left). by rewrite H1, H2, H3, H4, H5, H6. }
  cbn [result_bind]. destruct (IH ({[Pair_EffectKey pair]} ∪ seen) Hn) as (seen' & -> & Hin).
  2: { exists seen'. split; [done|]. intros k Hk. apply Hin. rewrite elem_of_cons in Hk. set_solver. }
  intros k Hk. rewrite elem_of_union, elem_of_singleton. intros [-> |Hks]; [done|]. by apply (Hs k); [right|].
Qed.

Lemma plan_accepted plan : paired (actionMode plan) (Actions plan) (LedgerPairs plan) ->
  Forall (retires IsDNS1123Subdomain policy now inv) (LedgerPairs plan) -> NoDup (map Pair_EffectKey (LedgerPairs plan)) ->
  validateLedgerPlan plan config = Ok tt.
Proof.
  intros Hpaired Hret Hn. assert (Hok : Forall acceptable_pair (LedgerPairs plan)).
  { eapply Forall_impl; [exact Hret|]. apply retires_acceptable. }
  pose proof (paired_filter _ _ _ Hpaired Hok) as Hf. unfold validateLedgerPlan.
  destruct (group_actions (Actions plan)) as (m & Hm & Hg).
  { apply Forall_forall. intros a Ha Hp. pose proof (elem_filter_2 _ _ _ Ha Hp) as Hin.
    rewrite Hf, elem_flat_map in Hin. destruct Hin as (pair & _ & [_ Hr]%retired_role). done. }
  { rewrite Hf. by apply retired_distinct. }
  rewrite Hm. cbn [result_bind].
  destruct (check_pairs plan m (LedgerPairs plan)) with (seen := ∅ : gset string) as (seen & -> & Hseen); [|done|set_solver|].
  { apply Forall_forall. intros pair Hp. rewrite Forall_forall in Hok. split; [by apply Hok|by apply has_actions]. }
  cbn [result_bind]. rewrite bool_decide_eq_true_2.
  2: { intros e He. apply elem_of_dom in He as [roles Hr]. destruct Hg as [Hg1 Hg2]. destruct (Hg2 _ _ Hr) as (r & a & Ha).
       apply Hg1 in Ha as [Hin Hk]. rewrite Hf, elem_flat_map in Hin. destruct Hin as (pair & Hp & [Hkey _]%retired_role).
       apply Hseen. left. apply list_elem_of_fmap. exists pair. split; [|done]. injection Hk as <- _. done. }
  destruct (LedgerPairs plan) as [|pair pairs] eqn:E; [|done].
  assert (existsb (fun a => Action_PairKey a !=? "") (Actions plan) = false) as ->; [|done].
  apply existsb_false, Forall_forall. intros a Ha. destruct (Action_PairKey a !=? "") eqn:Ek; [|done].
  pose proof (elem_filter_2 of_pair _ _ Ha Ek) as Hin. rewrite Hf in Hin. by apply not_elem_of_nil in Hin.
Qed.
End Accepting.
