(* ===== verification/RetentionApplySpec.v ===== *)
(** * Applying a plan: guards, and plans the applier can carry out *)

From S2P Require Import Prelude Order GoStrings Utf8 Digest GoTime Fsm Store Effects EffectsCodec.
From S2P Require Import LedgerProtocol Retention RetentionApply LedgerSystem RetentionSpec LedgerPlans.
Local Open Scope go_scope.
Local Open Scope string_scope.
Local Open Scope Z_scope.
Local Open Scope list_scope.

(** ** Guards *)

(** Nothing is requested, and nothing is counted as deleted. *)
Definition inert {F : Type} (p : prog (ApplyReport * F)) : Prop := exists r, p = Ret r /\ Deleted r.1 = 0.

Lemma apply_all_inert {A : Type} (one : A -> prog (ApplyReport * option apply_error)) items : forall report failures,
  (forall x, inert (one x)) -> Deleted report = 0 -> inert (apply_all one items report failures).
Proof.
  induction items as [|x items IH]; intros report failures Hone Hr; [by eexists|]. cbn [apply_all].
  destruct (Hone x) as ([added failure] & -> & Ha). cbn [prog_bind]. apply IH; [done|]. cbn in *. lia.
Qed.

Definition held (plan : Plan) (config : ApplierConfig) : bool :=
  Plan_DryRun plan || Config_DryRun config || negb (Enforce config) || negb (LifecycleAttested config).

Lemma apply_one_inert plan config a : held plan config = true -> inert (apply_one plan config a).
Proof.
  unfold held, apply_one. destruct (Plan_DryRun plan || Config_DryRun config); [by eexists|].
  destruct (Enforce config); [|by eexists]. destruct (LifecycleAttested config); [done|by eexists].
Qed.

Lemma applyLedgerPair_inert w pair plan config : held plan config = true -> inert (applyLedgerPair w pair plan config).
Proof.
  unfold held, applyLedgerPair. cbv zeta. destruct (Plan_DryRun plan || Config_DryRun config); [by eexists|].
  destruct (Enforce config); [|by eexists]. destruct (LifecycleAttested config); [done|by eexists].
Qed.

Lemma normalized_held plan config n : Config_normalized config = Ok n -> held plan n = held plan config.
Proof.
  unfold Config_normalized. case_match; [done|]. cbv zeta.
  destruct (bool_decide (Config_LedgerPrefix config = "")); (case_match; [done|]);
    (match goal with |- context [MaxActions ?c =? 0] => destruct (MaxActions c =? 0) end); (case_match; [done|]); (case_match; [done|]);
    by intros [= <-].
Qed.

(** A dry-run plan, a dry-run applier, disabled enforcement or a missing
    lifecycle attestation each keep [Apply] from making any request at all, to
    the cluster or to the object store, whatever the plan says. *)
Theorem apply_held plan w config (H : held plan config = true) :
  exists report failures, Apply plan w config = Ret (report, failures) /\ Deleted report = 0.
Proof.
  assert (Hi : inert (Apply plan w config)); [|by destruct Hi as ([report failures] & -> & ?); eauto].
  unfold Apply. cbv zeta. destruct (Config_normalized config) as [n|] eqn:Hn; [|by eexists].
  rewrite <- (normalized_held _ _ _ Hn) in H. do 2 (case_match; [by eexists|]). case_match; [|by eexists].
  match goal with |- inert (prog_bind (apply_all ?one ?items ?report ?failures) _) =>
    destruct (apply_all_inert one items report failures) as ([report1 failures1] & -> & Hd) end;
    [intros x; by apply apply_one_inert|done|]. cbn [prog_bind].
  apply apply_all_inert; [|done]. intros pair. by apply applyLedgerPair_inert.
Qed.

Definition sample_config : ApplierConfig := MkConfig "agents-gateway/v3" "publish-effects" 10 true false false.
Definition sample_secret : Action :=
  MkAction ActionDelete "run-1" "credentials" "" "terminal per-run credentials are no longer needed"
    (MkTarget CoreAPIVersion SecretKind "agents" "run-1-secret" "uid-1" "" "").

(** A plan to delete a secret, and an enforcing applier without attestation. *)
Lemma apply_held_witness : let plan := MkPlan false 0 0 0 [sample_secret] [] [] in
  held plan sample_config = true /\
  exists report failures, Apply plan true sample_config = Ret (report, failures) /\ Deleted report = 0.
Proof. cbv zeta. split; [reflexivity|]. apply (apply_held (MkPlan false 0 0 0 [sample_secret] [] []) true sample_config). reflexivity. Defined.

(** ** Plans of the planner *)

(** One conditional deletion of exactly the action's target. *)
Definition deletes_target {A : Type} (a : Action) (p : prog A) : Prop :=
  let t := Action_Target a in
  (exists k, p = Delete (Target_ObjectKey t) (Target_ETag t) k) \/
  (exists k, p = DeleteChild (Target_Kind t) (Target_Namespace t) (Target_Name t) (Target_UID t) k).

Lemma justified_executable IsDNS1123Subdomain policy now inv mode a config : Config_ObjectPrefix config = ObjectPrefix policy ->
  justified IsDNS1123Subdomain policy now inv mode a -> Action_PairKey a = "" -> deletes_target a (applyAction a config).
Proof.
  intros Hop Hj Hk. unfold deletes_target, applyAction. cbv zeta.
  destruct Hj as [run r _ _ (_ & _ & _ & _ & _ & Hu & Hns & Hn & Hv)|run r child _ _ (_ & _ & _ & _ & _ & Hu & Hns & Hn & Hv)
    |run art _ _ _ _ _ _ _ Hv Hu Ht|run co oo claim outcome act _ _ _ _ Dc _ _ _ _ _ _ _ _ _ Hact].
  - right. cbn. rewrite (bool_decide_eq_false_2 _ Hu), (bool_decide_eq_false_2 _ Hns), (bool_decide_eq_false_2 _ Hn), Hv. by eexists.
  - right. cbn. rewrite (bool_decide_eq_false_2 _ Hu), (bool_decide_eq_false_2 _ Hns), (bool_decide_eq_false_2 _ Hn), Hv. by eexists.
  - left. cbn. assert (Hkey : Artifact_Key art <> "") by (intros E; rewrite E in Hv; discriminate Hv).
    unfold runObjectKey. rewrite Hop, Hv, (bool_decide_eq_false_2 _ Hu), (bool_decide_eq_false_2 _ Ht), (bool_decide_eq_false_2 _ Hkey).
    cbn. rewrite (bool_decide_eq_true_2 (Artifact_Key art = _)) by done. by eexists.
  - destruct (DecodeClaim_bytes _ _ Dc) as (_ & Hc & _). exfalso. unfold validClaim in Hc.
    assert (Claim_EffectKey claim = "") as E by (by destruct Hact as [-> | ->]). by rewrite E in Hc.
Qed.

(** C39. What the planner plans at a civil time for prefixes whose ledger root is
    at most 944 bytes long, an applier for the same prefixes carries out: its
    validation accepts the ledger part of the plan, tombstones included, and every
    other action passes the applier's checks and becomes the one conditional
    deletion of its target.  The bound leaves room for the key of a tombstone, which
    is longer than those of claim and outcome and which the planner does not
    check; for a longer root the applier may reject the plan. *)
Theorem plan_applies IsDNS1123Subdomain policy now inv plan config
  (H : Policy_Plan IsDNS1123Subdomain policy now inv = Ok plan) (Hcivil : civil now = true)
  (Hroot : len (ledgerRoot (ObjectPrefix policy) (LedgerPrefix policy)) <= 944)
  (Hop : Config_ObjectPrefix config = ObjectPrefix policy) (Hlp : Config_LedgerPrefix config = LedgerPrefix policy) :
  validateLedgerPlan plan config = Ok tt /\
  Forall (fun a => Action_PairKey a = "" -> deletes_target a (applyAction a config)) (Actions plan).
Proof.
  destruct (plan_sound _ _ _ _ _ H) as (n & Hn & _ & _ & HJ & HP & HR & HN & _).
  destruct (normalized_same _ _ Hn) as (_ & _ & _ & No & Nl & _). rewrite <- No, <- Nl in Hroot. rewrite <- No in Hop. rewrite <- Nl in Hlp.
  split; [by eapply plan_accepted|]. eapply Forall_impl; [exact HJ|]. intros a. by apply justified_executable.
Qed.

(** A run whose settled effect is past the ledger window. *)
Definition old_sha : string := of_bytes (repeat 0x61 40).
Definition old_patch : string := digestBytes [2].
Definition ok_or {E A : Type} (d : A) (r : result E A) : A := match r with Ok a => a | Err _ => d end.
Definition old_effect : string := ok_or "" (EffectKey sample_uid old_sha old_patch ledgerPublishOperation).
Definition old_time : Time := MkTime 2024 1 1 0 0 0 0 0.
Definition old_claim : Claim := MkClaim SchemaVersion old_effect old_patch ledgerPublishOperation sample_uid old_time.
Definition old_outcome : Outcome := MkOutcome SchemaVersion old_effect old_patch sample_uid OutcomeSucceeded "" "" old_time.
Definition old_key (segment : string) : string :=
  ledger_key (ledgerRoot (ObjectPrefix DefaultPolicy) (LedgerPrefix DefaultPolicy)) segment (digestHex old_effect).
Definition old_inventory : Inventory :=
  MkInventory
    [MkRun "agents" "demo" sample_uid RetentionSpec.sample_digest old_sha old_patch PhaseSucceeded old_time [] true [] true old_effect]
    [sample_resource] []
    [MkLedgerObject (old_key "claims") "etag-1" (ok_or [] (canonicalJSON (claim_json old_claim)));
     MkLedgerObject (old_key "outcomes") "etag-2" (ok_or [] (canonicalJSON (outcome_json old_outcome)))].

Lemma plan_applies_witness : exists plan,
  Policy_Plan (fun _ => []) DefaultPolicy planning_time old_inventory = Ok plan /\ length (LedgerPairs plan) = 1%nat /\
  length (Actions plan) = 3%nat /\ validateLedgerPlan plan sample_config = Ok tt.
Proof.
  destruct (Policy_Plan (fun _ => []) DefaultPolicy planning_time old_inventory) as [plan|] eqn:E; [|vm_compute in E; discriminate E].
  assert (Hl : length (LedgerPairs plan) = 1%nat /\ length (Actions plan) = 3%nat) by (vm_compute in E; injection E as <-; split; reflexivity).
  exists plan. split; [done|]. split; [apply Hl|]. split; [apply Hl|].
  apply (plan_applies _ _ _ _ _ _ E); [reflexivity|vm_compute; discriminate|reflexivity..].
Defined.
