(* ===== verification/Client.v ===== *)
(** * Clients of the ledger

    The publisher and the broker call the ledger through the interface of their
    package and, in between, an outside service.  A call of either is a tree of
    these calls.  What a client must keep to, so that an effect is acted on once,
    is stated here for any client; what follows from it is in ClientSystem.v. *)

From S2P Require Import Prelude GoStrings Store Effects LedgerProtocol.
Local Open Scope go_scope.
Local Open Scope string_scope.
Local Open Scope Z_scope.
Local Open Scope list_scope.

(** The outside service of a client: its requests, what each answers, and which
    of them act on the world. *)
Class Service : Type := {
  service_request : Type;
  service_answer : service_request -> Type;
  acts : service_request -> bool
}.
Arguments service_request _ : clear implicits.
Arguments service_answer _ _ : clear implicits.
Arguments acts {_} _.

Inductive client (S : Service) (A : Type) : Type :=
| Done (a : A)
| CallClaim (c : Claim) (k : ClaimDecision * option Effects.error -> client S A)
| CallCommit (o : Outcome) (k : option Effects.error -> client S A)
| CallReadOutcome (effectKey requestDigest : string) (k : result Effects.error Outcome -> client S A)
| CallService (r : service_request S) (k : service_answer S r -> client S A).
Arguments Done {S A} _.
Arguments CallClaim {S A} _ _.
Arguments CallCommit {S A} _ _.
Arguments CallReadOutcome {S A} _ _ _.
Arguments CallService {S A} _ _.

(** ** Paths *)

(** What has been asked and answered. *)
Inductive event (S : Service) : Type :=
| Claimed (c : Claim) (a : ClaimDecision * option Effects.error)
| Committed (o : Outcome) (a : option Effects.error)
| ReadBack (effectKey requestDigest : string) (a : result Effects.error Outcome)
| Served (r : service_request S) (a : service_answer S r).
Arguments Claimed {S} _ _.
Arguments Committed {S} _ _.
Arguments ReadBack {S} _ _ _.
Arguments Served {S} _ _.

(** [P] holds at every point of every path, with the events before it. *)
Fixpoint on_every_path {S : Service} {A : Type} (P : list (event S) -> client S A -> Prop) (past : list (event S)) (p : client S A) : Prop :=
  P past p /\
  match p with
  | Done _ => True
  | CallClaim c k => forall a, on_every_path P (past ++ [Claimed c a]) (k a)
  | CallCommit o k => forall a, on_every_path P (past ++ [Committed o a]) (k a)
  | CallReadOutcome e d k => forall a, on_every_path P (past ++ [ReadBack e d a]) (k a)
  | CallService r k => forall a, on_every_path P (past ++ [Served r a]) (k a)
  end.

(** ** Discipline *)

(** A claim that is granted names itself, as the ledger's always do. *)
Definition names_claim (a : ClaimDecision * option Effects.error) : Prop := Execute a.1 = true -> is_Some (Decision_Claim a.1).
Definition is_granted (a : ClaimDecision * option Effects.error) : Prop := exists c, claim_reply a = Granted c.

Section Discipline.
Context {S : Service}.

(** No claim on any path. *)
Fixpoint claimless {A : Type} (p : client S A) : Prop :=
  match p with
  | Done _ => True
  | CallClaim _ _ => False
  | CallCommit _ k => forall a, claimless (k a)
  | CallReadOutcome _ _ k => forall a, claimless (k a)
  | CallService _ k => forall a, claimless (k a)
  end.

(** No claim and no acting request on any path. *)
Fixpoint passive {A : Type} (p : client S A) : Prop :=
  match p with
  | Done _ => True
  | CallClaim _ _ => False
  | CallCommit _ k => forall a, passive (k a)
  | CallReadOutcome _ _ k => forall a, passive (k a)
  | CallService r k => acts r = false /\ forall a, passive (k a)
  end.

(** At most one claim, and acting requests only once it is granted. *)
Fixpoint disciplined {A : Type} (p : client S A) : Prop :=
  match p with
  | Done _ => True
  | CallClaim _ k => forall a, names_claim a -> claimless (k a) /\ (is_granted a \/ passive (k a))
  | CallCommit _ k => forall a, disciplined (k a)
  | CallReadOutcome _ _ k => forall a, disciplined (k a)
  | CallService r k => acts r = false /\ forall a, disciplined (k a)
  end.

Lemma passive_claimless {A : Type} (p : client S A) : passive p -> claimless p.
Proof. induction p; cbn; naive_solver. Qed.
Lemma passive_disciplined {A : Type} (p : client S A) : passive p -> disciplined p.
Proof. induction p; cbn; naive_solver. Qed.
End Discipline.

(** ** Two services side by side *)

Section Embed.
Context {S T : Service} (f : service_request S -> service_request T).
Context (g : forall r, service_answer T (f r) -> service_answer S r) (Hacts : forall r, acts (f r) = acts r).

Fixpoint embed {A B : Type} (h : A -> B) (p : client S A) : client T B :=
  match p with
  | Done a => Done (h a)
  | CallClaim c k => CallClaim c (fun a => embed h (k a))
  | CallCommit o k => CallCommit o (fun a => embed h (k a))
  | CallReadOutcome e d k => CallReadOutcome e d (fun a => embed h (k a))
  | CallService r k => CallService (f r) (fun a => embed h (k (g r a)))
  end.

Lemma embed_claimless {A B : Type} (h : A -> B) p : claimless p -> claimless (embed h p).
Proof. induction p; cbn; naive_solver. Qed.
Lemma embed_passive {A B : Type} (h : A -> B) p : passive p -> passive (embed h p).
Proof. induction p; cbn; rewrite ?Hacts; naive_solver. Qed.
Lemma embed_disciplined {A B : Type} (h : A -> B) p : disciplined p -> disciplined (embed h p).
Proof.
  induction p as [a|c k IH|o k IH|e d k IH|r k IH]; cbn; [done| |naive_solver..|rewrite Hacts; naive_solver].
  intros H a Ha. destruct (H a Ha) as [Hc [Hg|Hp]]; (split; [by apply embed_claimless|]); [by left|right; by apply embed_passive].
Qed.
End Embed.

#[global] Instance service_sum (S T : Service) : Service := {|
  service_request := service_request S + service_request T;
  service_answer r := match r with inl r => service_answer S r | inr r => service_answer T r end;
  acts r := match r with inl r => @acts S r | inr r => @acts T r end
|}.

Definition left_client {S T : Service} {A B : Type} (h : A -> B) : client S A -> client (service_sum S T) B :=
  @embed S (service_sum S T) inl (fun _ a => a) A B h.
Definition right_client {S T : Service} {A B : Type} (h : A -> B) : client T A -> client (service_sum S T) B :=
  @embed T (service_sum S T) inr (fun _ a => a) A B h.
