(* ===== verification/ClientSystem.v ===== *)
(** * Clients and the ledger together

    Any number of clients run against one ledger, interleaved with other claims,
    commits and retention runs at every request, with any answers from their
    services and clients that stop anywhere.  Each calls the ledger through its
    interface; the ledger's programs run in the system of LedgerProtocol.v.  A
    client that claims is recorded with its claim. *)

From S2P Require Import Prelude GoStrings GoTime Digest Store Effects LedgerProtocol.
From S2P Require Import Retention RetentionApply LedgerSystem Client.
Local Open Scope go_scope.
Local Open Scope string_scope.
Local Open Scope Z_scope.
Local Open Scope list_scope.

(** The other users of the ledger, without restriction on what they record. *)
Inductive ledger_user (l : Ledger) : prog reply -> Prop :=
| user_claim c : ledger_user l (claim_call l c)
| user_commit o : ledger_user l (commit_call l o)
| user_retention plan w config normalized :
    Config_normalized config = Ok normalized -> same_ledger l normalized -> ledger_user l (apply_call plan w config).

Lemma user_protocol l e p : ledger_user l p -> unclaimed l e p /\ guarded l e p.
Proof.
  intros [c|o|plan w config n Hn Hs].
  - split; [apply claim_call_unclaimed|apply calls_guarded; eauto].
  - split; [apply commit_call_unclaimed|apply calls_guarded; eauto].
  - split; [by apply silent_unclaimed, answers_any|by eapply apply_call_guarded].
Qed.

(** What [names_claim] says holds of the ledger. *)
Lemma claim_names l c : answers names_claim (Ledger_Claim l c).
Proof.
  unfold names_claim, Ledger_Claim. case_match; [done|]. apply unless_fenced_answers; [done..|]. intros t. cbv zeta.
  case_match; [done|]. case_match; [|done]. intros [[]|]; [apply unless_fenced_answers; [done..|by eexists]| |done].
  apply answers_any. intros [c'|]; [|done]. case_match; [done|]. apply unless_fenced_answers; [done..|].
  apply answers_any. intros [o|[| | | |[]|]]; try done. apply unless_fenced_answers; [done..|]. by case_match.
Qed.

(** ** The system *)

Section System.
Context {S : Service} {A : Type} (l : Ledger) (starts : client S A -> Prop) (Hstarts : forall p, starts p -> disciplined p).

(** Where a client stands: at a call, or waiting for the ledger's program at an
    index of the pool. *)
Inductive cstate : Type :=
| Running (p : client S A)
| WaitClaim (n : nat) (k : ClaimDecision * option Effects.error -> client S A)
| WaitCommit (n : nat) (k : option Effects.error -> client S A).

Record csystem : Type := MkSystem {
  ledger_part : system;
  clients : list (option Claim * cstate);
  calls : list (nat * service_request S) (* by whom, in order *)
}.

Definition set_client (st : csystem) (ledger : system) (i : nat) (c : option Claim) (p : cstate) : csystem :=
  MkSystem ledger (<[i := (c, p)]> (clients st)) (calls st).

(** A client learns of a claim whether it was granted; the rest of the answer may
    be anything, except that a decision to execute names its claim, as the
    ledger's always does ([claim_names]). *)
Inductive cstep : csystem -> csystem -> Prop :=
| cstep_ledger st ledger : step (ledger_user l) (ledger_part st) ledger ->
    cstep st (MkSystem ledger (clients st) (calls st))
| cstep_start st p : starts p ->
    cstep st (MkSystem (ledger_part st) (clients st ++ [(None, Running p)]) (calls st))
| cstep_claim st i o c k : clients st !! i = Some (o, Running (CallClaim c k)) ->
    cstep st (set_client st ((ledger_part st).1, (ledger_part st).2 ++ [claim_call l c]) i (Some c)
                (WaitClaim (length (ledger_part st).2) k))
| cstep_claimed st i o n k a : clients st !! i = Some (o, WaitClaim n k) ->
    (ledger_part st).2 !! n = Some (Ret (claim_reply a)) -> names_claim a -> cstep st (set_client st (ledger_part st) i o (Running (k a)))
| cstep_commit st i o out k : clients st !! i = Some (o, Running (CallCommit out k)) ->
    cstep st (set_client st ((ledger_part st).1, (ledger_part st).2 ++ [commit_call l out]) i o
                (WaitCommit (length (ledger_part st).2) k))
| cstep_committed st i o n k rep a : clients st !! i = Some (o, WaitCommit n k) ->
    (ledger_part st).2 !! n = Some (Ret rep) -> cstep st (set_client st (ledger_part st) i o (Running (k a)))
| cstep_read st i o e d k a : clients st !! i = Some (o, Running (CallReadOutcome e d k)) ->
    cstep st (set_client st (ledger_part st) i o (Running (k a)))
| cstep_service st i o r k a : clients st !! i = Some (o, Running (CallService r k)) ->
    cstep st (MkSystem (ledger_part st) (<[i := (o, Running (k a))]> (clients st)) (calls st ++ [(i, r)])).

(** ** Ownership of grants *)

Definition keyed (e : string) (r : reply) : Prop := match r with Granted c => Claim_EffectKey c = e | _ => True end.

Lemma claim_call_keyed c : answers (keyed (Claim_EffectKey c)) (claim_call l c).
Proof.
  apply answers_bind. unfold Ledger_Claim. case_match; [done|]. apply unless_fenced_answers; [done..|]. intros t. cbv zeta.
  case_match; [done|]. case_match; [|done]. intros [[]|]; [by apply unless_fenced_answers| |done].
  apply answers_any. intros [c'|]; [|done]. case_match; [done|]. apply unless_fenced_answers; [done..|].
  apply answers_any. intros [o|[| | | |[]|]]; try done. apply unless_fenced_answers; [done..|]. by case_match.
Qed.

(** Steps of the ledger keep finished programs and what they may answer. *)
Lemma step_pool sys sys' : step (ledger_user l) sys sys' -> forall n q, sys.2 !! n = Some q ->
  exists q', sys'.2 !! n = Some q' /\ (forall P, answers P q -> answers P q') /\ (forall rep, q = Ret rep -> q' = Ret rep).
Proof.
  intros [s s' bef p p' aft Hr|s pool p Hp] n q Hq; cbn [snd] in *.
  - destruct (decide (n = length bef)) as [-> |Hne].
    + rewrite list_lookup_middle in Hq by done. injection Hq as <-. exists p'. rewrite list_lookup_middle by done.
      split_and!; [done|intros P; by eapply responds_answers|]. intros rep ->. inversion Hr.
    + exists q. split_and!; [|done..]. rewrite <- Hq. rewrite !lookup_app. destruct (bef !! n) eqn:E; [done|].
      apply lookup_ge_None in E. destruct (n - length bef)%nat eqn:Ed; [lia|done].
  - exists q. split_and!; [|done..]. by apply lookup_app_l_Some.
Qed.

(** Before its claim, waiting for it, granted, and refused. *)
Inductive ctag : Type := Fresh | Awaiting (n : nat) | Grantee (n : nat) | Quiet.
Definition owned (t : ctag) : list nat := match t with Awaiting n | Grantee n => [n] | _ => [] end.

Definition state_sat (P : client S A -> Prop) (p : cstate) : Prop :=
  match p with
  | Running p => P p
  | WaitClaim _ _ => False
  | WaitCommit _ k => forall a, P (k a)
  end.

Definition crole (pool : list (prog reply)) (t : ctag) (x : option Claim * cstate) : Prop :=
  match t with
  | Fresh => state_sat disciplined x.2
  | Awaiting n => exists k c q, x = (Some c, WaitClaim n k) /\ pool !! n = Some q /\ answers (keyed (Claim_EffectKey c)) q /\
      forall a, names_claim a -> claimless (k a) /\ (is_granted a \/ passive (k a))
  | Grantee n => exists c c', x.1 = Some c /\ pool !! n = Some (Ret (Granted c')) /\
      Claim_EffectKey c' = Claim_EffectKey c /\ state_sat claimless x.2
  | Quiet => state_sat passive x.2
  end.

(** Distinct clients own distinct programs of the pool. *)
Definition apart (bound : nat) (tags : list ctag) : Prop :=
  NoDup (flat_map owned tags) /\ Forall (fun n => (n < bound)%nat) (flat_map owned tags).

Definition cinv (s0 : store) (st : csystem) : Prop :=
  rtc (step (ledger_user l)) (s0, []) (ledger_part st) /\
  exists tags, Forall2 (crole (ledger_part st).2) tags (clients st) /\ apart (length (ledger_part st).2) tags /\
    forall i r, (i, r) ∈ calls st -> acts r = true -> exists n, tags !! i = Some (Grantee n).

(** A pool in which programs have only moved on. *)
Definition later (pool pool' : list (prog reply)) : Prop :=
  (length pool <= length pool')%nat /\ forall n q, pool !! n = Some q ->
  exists q', pool' !! n = Some q' /\ (forall P, answers P q -> answers P q') /\ (forall rep, q = Ret rep -> q' = Ret rep).

Lemma later_refl pool : later pool pool.
Proof. split; [done|]. intros n q Hq. by exists q. Qed.
Lemma later_app pool p : later pool (pool ++ [p]).
Proof. split; [rewrite length_app; lia|]. intros n q Hq. exists q. split_and!; [|done..]. by apply lookup_app_l_Some. Qed.
Lemma step_later sys sys' : step (ledger_user l) sys sys' -> later sys.2 sys'.2.
Proof.
  intros H. split; [|by apply step_pool]. destruct H; cbn; rewrite !length_app; cbn; lia.
Qed.
Hint Resolve later_refl later_app : core.

Lemma crole_later pool pool' t x : later pool pool' -> crole pool t x -> crole pool' t x.
Proof.
  intros [_ Hl]. destruct t as [|n|n|]; cbn; [done| | |done].
  - intros (k & c & q & Hx & Hq & Ha & Hc). destruct (Hl _ _ Hq) as (q' & Hq' & Hans & _). exists k, c, q'. split_and!; auto.
  - intros (c & c' & Hx & Hq & Hk & Hc). destruct (Hl _ _ Hq) as (q' & Hq' & _ & Hret).
    exists c, c'. rewrite (Hret _ eq_refl) in Hq'. done.
Qed.

Lemma apart_update l1 t t' l2 bound bound' : apart bound (l1 ++ t :: l2) -> (bound <= bound')%nat ->
  owned t' = [] \/ owned t' = owned t \/ owned t = [] /\ owned t' = [bound] /\ (bound < bound')%nat -> apart bound' (l1 ++ t' :: l2).
Proof.
  unfold apart. rewrite !flat_map_app. cbn [flat_map]. intros [Hn Hb] Hle Hcase.
  assert (Hb' : Forall (fun n => (n < bound')%nat) (flat_map owned l1 ++ owned t ++ flat_map owned l2)).
  { eapply Forall_impl; [exact Hb|]. cbn. lia. }
  destruct Hcase as [-> |[-> |(E & -> & Hlt)]]; [|done|].
  - split.
    + eapply sublist_NoDup; [exact Hn|]. apply sublist_app; [done|]. by apply sublist_inserts_l.
    + apply Forall_app in Hb' as [H1 H2]. apply Forall_app in H2 as [_ H2]. by apply Forall_app.
  - rewrite E in *. cbn [app] in *. rewrite <- Permutation_middle. split.
    + apply NoDup_cons. split; [|done]. intros Hin. rewrite Forall_forall in Hb. specialize (Hb _ Hin). lia.
    + by constructor.
Qed.

Lemma owned_unique tags i j n : NoDup (flat_map owned tags) -> tags !! i = Some (Grantee n) -> tags !! j = Some (Grantee n) -> i = j.
Proof.
  revert i j. induction tags as [|t tags IH]; intros i j Hn Hi Hj; [done|]. cbn [flat_map] in Hn. apply NoDup_app in Hn as (_ & Hd & Hn).
  assert (Hin : forall k, tags !! k = Some (Grantee n) -> n ∈ flat_map owned tags).
  { intros k Hk. apply list_elem_of_In, in_flat_map. exists (Grantee n). split; [|by left].
    apply list_elem_of_In. by eapply list_elem_of_lookup_2. }
  destruct i as [|i], j as [|j]; cbn in Hi, Hj; [done| | |f_equal; by eapply IH].
  - injection Hi as ->. destruct (Hd n); [by left|by eapply Hin].
  - injection Hj as ->. destruct (Hd n); [by left|by eapply Hin].
Qed.

(** One client moves. *)
Lemma cinv_update s0 st sys i x x' extra : cinv s0 st -> clients st !! i = Some x ->
  rtc (step (ledger_user l)) (s0, []) sys -> later (ledger_part st).2 sys.2 ->
  (forall t, crole (ledger_part st).2 t x -> exists t', crole sys.2 t' x' /\
     (owned t' = [] \/ owned t' = owned t \/ owned t = [] /\ owned t' = [length (ledger_part st).2] /\
      (length (ledger_part st).2 < length sys.2)%nat) /\
     (forall n, t = Grantee n -> t' = Grantee n) /\ (Forall (fun r => acts r = false) extra \/ exists n, t' = Grantee n)) ->
  cinv s0 (MkSystem sys (<[i := x']> (clients st)) (calls st ++ map (pair i) extra)).
Proof.
  intros (Hr & tags & Ht & Ha & Hc) Hi Hrtc Hl Hmove. split; [done|]. cbn [ledger_part clients calls].
  destruct (Forall2_lookup_r _ _ _ _ _ Ht Hi) as (t & Hti & Hrole). destruct (Hmove t Hrole) as (t' & Hrole' & Hown & Hkeep & Hex).
  exists (<[i := t']> tags). split_and!.
  - apply Forall2_insert; [|done]. eapply Forall2_impl; [exact Ht|]. intros y z. by apply crole_later.
  - destruct (list_elem_of_split_length _ _ _ Hti) as (l1 & l2 & -> & ->).
    rewrite (insert_app_r_alt l1) by done. rewrite Nat.sub_diag. cbn. eapply apart_update; [exact Ha|apply Hl|done].
  - intros j r. rewrite elem_of_app. intros [Hin|Hin] Hact.
    + destruct (Hc _ _ Hin Hact) as [n Hn]. destruct (decide (j = i)) as [-> |Hne].
      * exists n. rewrite list_lookup_insert_eq by (by eapply lookup_lt_Some). f_equal. apply Hkeep. congruence.
      * exists n. by rewrite list_lookup_insert_ne by done.
    + apply list_elem_of_fmap in Hin as (r' & [= -> ->] & Hr'). destruct Hex as [Hex|[n ->]].
      * rewrite Forall_forall in Hex. rewrite (Hex _ Hr') in Hact. done.
      * exists n. by rewrite list_lookup_insert_eq by (by eapply lookup_lt_Some).
Qed.

Lemma cinv_set s0 st sys i o x o' x' : cinv s0 st -> clients st !! i = Some (o, x) ->
  rtc (step (ledger_user l)) (s0, []) sys -> later (ledger_part st).2 sys.2 ->
  (forall t, crole (ledger_part st).2 t (o, x) -> exists t', crole sys.2 t' (o', x') /\
     (owned t' = [] \/ owned t' = owned t \/ owned t = [] /\ owned t' = [length (ledger_part st).2] /\
      (length (ledger_part st).2 < length sys.2)%nat) /\ forall n, t = Grantee n -> t' = Grantee n) ->
  cinv s0 (set_client st sys i o' x').
Proof.
  intros Hinv Hi Hrtc Hl Hmove. unfold set_client. rewrite <- (app_nil_r (calls st)).
  apply (cinv_update s0 st sys i (o, x) (o', x') []); try done.
  intros t Ht. destruct (Hmove t Ht) as (t' & ? & ? & ?). exists t'. auto.
Qed.

(** Moves that the tag survives: the ledger is asked or answers other than a claim. *)
Lemma cinv_keep s0 st sys i o x x' : cinv s0 st -> clients st !! i = Some (o, x) ->
  rtc (step (ledger_user l)) (s0, []) sys -> later (ledger_part st).2 sys.2 ->
  (forall P : client S A -> Prop, P = claimless \/ P = passive \/ P = disciplined -> state_sat P x -> state_sat P x') ->
  (forall n k, x <> WaitClaim n k) -> cinv s0 (set_client st sys i o x').
Proof.
  intros Hinv Hi Hrtc Hl Hsat Hnw. apply (cinv_set s0 st sys i o x o x'); try done. intros t Ht. exists t. split_and!; [|auto|done].
  destruct t as [|n|n|]; cbn in *; [by apply Hsat; auto| | |by apply Hsat; auto].
  - destruct Ht as (k & c & q & [= -> ->] & _). by destruct (Hnw n k).
  - apply (crole_later _ _ (Grantee n) (o, x) Hl) in Ht as (c & c' & H1 & H2 & H3 & H4). exists c, c'.
    split_and!; try done. by apply Hsat; auto.
Qed.

Lemma cinv_cstep s0 st st' : cstep st st' -> cinv s0 st -> cinv s0 st'.
Proof.
  intros Hstep Hinv. pose proof Hinv as (Hr & tags & Ht & Ha & Hc). destruct Hstep as [st sys Hs|st p Hp|st i o c k Hi|st i o n k a Hi Hn Hnm
    |st i o out k Hi|st i o n k rep a Hi Hn|st i o e d k a Hi|st i o r k a Hi].
  - pose proof (step_later _ _ Hs) as Hl. split; [by eapply rtc_r|]. exists tags. split_and!; [|split|done].
    + eapply Forall2_impl; [exact Ht|]. intros x y. by apply crole_later.
    + apply Ha.
    + eapply Forall_impl; [apply Ha|]. destruct Hl as [Hlen _]. cbn. lia.
  - split; [done|]. exists (tags ++ [Fresh]). cbn [ledger_part clients calls]. split_and!.
    + apply Forall2_app; [done|]. repeat constructor. by apply Hstarts.
    + unfold apart. rewrite flat_map_app. cbn. by rewrite app_nil_r.
    + intros i r Hin Hact. destruct (Hc _ _ Hin Hact) as [n Hn]. exists n. by apply lookup_app_l_Some.
  - apply (cinv_set s0 st _ i o (Running (CallClaim c k))); try done; cbn [snd]; auto.
    { eapply rtc_r; [exact Hr|]. destruct (ledger_part st). apply step_start, user_claim. }
    intros [|n|n|] Hrole; cbn in Hrole; [|by destruct Hrole as (? & ? & ? & ? & _)|by destruct Hrole as (? & ? & _ & _ & _ & [])|done].
    exists (Awaiting (length (ledger_part st).2)). split_and!; [|right; right|done].
    + exists k, c, (claim_call l c). split_and!; try done; [by rewrite list_lookup_middle|]. apply (claim_call_keyed c).
    + rewrite length_app. cbn. split_and!; [done..|lia].
  - apply (cinv_set s0 st _ i o (WaitClaim n k)); try done; auto.
    intros [|n'|n'|] Hrole; cbn in Hrole; [done| |by destruct Hrole as (? & ? & _ & _ & _ & [])|done].
    destruct Hrole as (k' & c & q & [= -> <- <-] & Hq & Hans & Hk). rewrite Hn in Hq. injection Hq as <-.
    destruct (Hk a Hnm) as [Hcl [[c' Hg]|Hpas]].
    + exists (Grantee n). split_and!; [|auto|done]. exists c, c'. rewrite Hg in *. done.
    + exists Quiet. split_and!; [done|auto|done].
  - apply (cinv_keep s0 st _ i o (Running (CallCommit out k))); try done; cbn [snd]; auto.
    + eapply rtc_r; [exact Hr|]. destruct (ledger_part st). apply step_start, user_commit.
    + intros P [-> |[-> | ->]] HP; apply HP.
  - apply (cinv_keep s0 st _ i o (WaitCommit n k)); try done; auto. intros P [-> |[-> | ->]] HP; apply HP.
  - apply (cinv_keep s0 st _ i o (Running (CallReadOutcome e d k))); try done; auto. intros P [-> |[-> | ->]] HP; apply HP.
  - apply (cinv_update s0 st _ i (o, Running (CallService r k)) _ [r]); try done; auto.
    intros [|n|n|] Hrole; cbn in Hrole; [|by destruct Hrole as (? & ? & ? & ? & _)| |].
    + exists Fresh. split_and!; [apply Hrole|auto|done|left; constructor; [apply Hrole|done]].
    + destruct Hrole as (c & c' & H1 & H2 & H3 & H4). exists (Grantee n). split_and!; [|auto|done|eauto]. exists c, c'. split_and!; try done. apply H4.
    + exists Quiet. split_and!; [apply Hrole|auto|done|left; constructor; [apply Hrole|done]].
Qed.

(** Of the clients that claimed one effect, at most one acts; a client that acts
    has claimed. *)
Lemma claimed_once s0 st i j ri rj : rtc cstep (MkSystem (s0, []) [] []) st ->
  (i, ri) ∈ calls st -> acts ri = true -> (j, rj) ∈ calls st -> acts rj = true ->
  exists ci cj, fst <$> clients st !! i = Some (Some ci) /\ fst <$> clients st !! j = Some (Some cj) /\
    (Claim_EffectKey ci = Claim_EffectKey cj -> i = j).
Proof.
  intros Hr Hi Ai Hj Aj. assert (Hinv : cinv s0 st).
  { assert (H0 : cinv s0 (MkSystem (s0, []) [] [])).
    { split; [apply rtc_refl|]. exists []. split_and!; [constructor| |intros ? ? []%not_elem_of_nil]. split; constructor. }
    clear -H0 Hr Hstarts. induction Hr as [x|x y z Hxy _ IH]; [done|]. apply IH. by eapply cinv_cstep. }
  destruct Hinv as (Hrtc & tags & Ht & [Hnd _] & Hc).
  assert (Hown : forall k r, (k, r) ∈ calls st -> acts r = true -> exists n c c', tags !! k = Some (Grantee n) /\
    fst <$> clients st !! k = Some (Some c) /\ (ledger_part st).2 !! n = Some (Ret (Granted c')) /\ Claim_EffectKey c' = Claim_EffectKey c).
  { intros k r Hk Hact. destruct (Hc _ _ Hk Hact) as [n Hn]. destruct (Forall2_lookup_l _ _ _ _ _ Ht Hn) as ([o x] & Hx & c & c' & E & Hq & Hk' & _).
    cbn in E. subst o. exists n, c, c'. rewrite Hx. done. }
  destruct (Hown _ _ Hi Ai) as (n & c & d & Tn & Cn & Pn & En). destruct (Hown _ _ Hj Aj) as (m & c2 & d2 & Tm & Cm & Pm & Em).
  exists c, c2. split_and!; [done..|]. intros Heq. assert (n = m) as <-; [|by eapply owned_unique].
  destruct (ledger_part st) as [s pool]. eapply (one_grant l (Claim_EffectKey c) (ledger_user l)); [|exact Hrtc|exact Pn|exact Pm|done|congruence].
  intros p. by apply user_protocol.
Qed.

(** Steps of the ledger alone. *)
Lemma lift_steps sys sys' cs log :
  rtc (step (ledger_user l)) sys sys' -> rtc cstep (MkSystem sys cs log) (MkSystem sys' cs log).
Proof.
  induction 1 as [x|x y z Hxy _ IH]; [apply rtc_refl|]. eapply rtc_l; [|exact IH].
  apply (cstep_ledger (MkSystem x cs log) y Hxy).
Qed.
End System.
