(* ===== verification/Ip.v ===== *)
(** * IP addresses (packages net and net/netip)

    The textual grammar of [netip.ParseAddr], and [net.ParseIP] on top of it.  An
    address is its list of bytes, four or sixteen. *)

From S2P Require Import Prelude GoStrings.
Local Open Scope go_scope.
Local Open Scope string_scope.
Local Open Scope Z_scope.
Local Open Scope list_scope.

Definition dot_byte : Z := 0x2E.
Definition colon_byte : Z := 0x3A.
Definition percent : Z := 0x25.

Definition unhex (c : Z) : option Z :=
  if is_digit c then Some (c - 0x30)
  else if between 0x61 0x66 c then Some (c - 0x61 + 10)
  else if between 0x41 0x46 c then Some (c - 0x41 + 10)
  else None.

(** The bytes before and from the first [c]. *)
Fixpoint break_at (c : Z) (l : list Z) : list Z * list Z :=
  match l with
  | [] => ([], [])
  | b :: rest => if b =? c then ([], l) else let '(before, from) := break_at c rest in (b :: before, from)
  end.

(** ** Version 4 *)

(** One octet: at most 255, without leading zeros. *)
Definition parse_octet (l : list Z) : option Z :=
  match l with
  | [] => None
  | b :: rest =>
    if negb (forallb is_digit l) || ((b =? 0x30) && negb (bool_decide (rest = []))) || (3 <? slen l) then None
    else let n := foldl (fun acc c => 10 * acc + (c - 0x30)) 0 l in if n <=? 255 then Some n else None
  end.

Definition parseIPv4Fields (s : list Z) : option (list Z) :=
  let parts := split_bytes dot_byte s in
  if slen parts =? 4 then mapM parse_octet parts else None.

(** ** Version 6 *)

(** The hexadecimal digits at the front: their value, how many, and the rest.
    More than four are an error. *)
Fixpoint hex_group (acc : Z) (count : nat) (s : list Z) : option (Z * nat * list Z) :=
  match s with
  | c :: rest =>
    match unhex c with
    | Some d => if Nat.leb 4 count then None else hex_group (16 * acc + d) (S count) rest
    | None => Some (acc, count, s)
    end
  | [] => Some (acc, count, [])
  end.

(** The groups read so far ([ip], a prefix of the address), where the ellipsis
    stands in it, and the rest of the text. *)
Fixpoint v6_loop (fuel : nat) (ip : list Z) (ellipsis : option nat) (s : list Z) : option (list Z * option nat) :=
  match fuel with
  | O => if bool_decide (s = []) then Some (ip, ellipsis) else None
  | S fuel =>
    '(acc, count, rest) ← hex_group 0 0 s;
    if Nat.eqb count 0 then None
    else match rest with
    | c :: rest' =>
      if c =? dot_byte then
        if bool_decide (ellipsis = None) && negb (Nat.eqb (length ip) 12) then None
        else if Nat.ltb 16 (length ip + 4) then None
        else fields ← parseIPv4Fields s; Some (ip ++ fields, ellipsis)
      else
        let ip := ip ++ [acc / 256; acc mod 256] in
        if negb (c =? colon_byte) then None
        else match rest' with
        | [] => None
        | d :: rest'' =>
          if d =? colon_byte then
            match ellipsis with
            | Some _ => None
            | None => if bool_decide (rest'' = []) then Some (ip, Some (length ip)) else v6_loop fuel ip (Some (length ip)) rest''
            end
          else v6_loop fuel ip ellipsis rest'
        end
    | [] => Some (ip ++ [acc / 256; acc mod 256], ellipsis)
    end
  end.

Definition v6_expand (ip : list Z) (ellipsis : option nat) : option (list Z) :=
  if Nat.ltb (length ip) 16 then
    e ← ellipsis; Some (take e ip ++ repeat 0 (16 - length ip) ++ drop e ip)
  else match ellipsis with Some _ => None | None => Some ip end.

(** The address and its zone. *)
Definition parseIPv6 (l : list Z) : option (list Z * list Z) :=
  let '(s, tail) := break_at percent l in
  let zone := drop 1 tail in
  if negb (bool_decide (tail = [])) && bool_decide (zone = []) then None
  else
    address ← match s with
      | 0x3A :: 0x3A :: rest => if bool_decide (rest = []) then Some (repeat 0 16) else '(ip, e) ← v6_loop 8 [] (Some 0%nat) rest; v6_expand ip e
      | _ => '(ip, e) ← v6_loop 8 [] None s; v6_expand ip e
      end;
    Some (address, zone).

(** ** Either *)

(** [netip.ParseAddr]: version, address and zone.  The first separator decides. *)
Definition ParseAddr (l : list Z) : option (bool * list Z * list Z) :=
  match List.find (fun c => (c =? dot_byte) || (c =? colon_byte) || (c =? percent)) l with
  | Some c =>
    if c =? dot_byte then fields ← parseIPv4Fields l; Some (true, fields, [])
    else if c =? colon_byte then '(address, zone) ← parseIPv6 l; Some (false, address, zone)
    else None
  | None => None
  end.

Definition v4_mapped : list Z := repeat 0 10 ++ [0xFF; 0xFF].

(** [net.ParseIP]: no zones, and sixteen bytes for either version. *)
Definition ParseIP (s : string) : option (list Z) :=
  match ParseAddr (bytes s) with
  | Some (v4, address, []) => Some (if v4 then v4_mapped ++ address else address)
  | _ => None
  end.

Definition To4 (ip : list Z) : option (list Z) :=
  if slen ip =? 4 then Some ip
  else if (slen ip =? 16) && bool_decide (take 12 ip = v4_mapped) then Some (drop 12 ip)
  else None.

Example ip_tests :
  (map ParseIP ["10.0.0.1"; "1.2.3"; "1.2.3.256"; "01.2.3.4"; "::1"; "::"; "1::2::3"; "fe80::1%eth0"; "1:2:3:4:5:6:7:8"],
   map ParseIP ["::ffff:1.2.3.4"; "1:2:3:4:5:6:7"; "1:2:3:4:5:6:7:8:9"; "12345::"; "1::"; "1:"; ""; "::1.2.3.4.5"; "1:2:3:4:5:6:7::"])
  = ([Some (v4_mapped ++ [10; 0; 0; 1]); None; None; None; Some (repeat 0 15 ++ [1]); Some (repeat 0 16); None; None;
      Some [0; 1; 0; 2; 0; 3; 0; 4; 0; 5; 0; 6; 0; 7; 0; 8]],
     [Some (v4_mapped ++ [1; 2; 3; 4]); None; None; None; Some ([0; 1] ++ repeat 0 14); None; None; None;
      Some [0; 1; 0; 2; 0; 3; 0; 4; 0; 5; 0; 6; 0; 7; 0; 0]]).
Proof. vm_compute. reflexivity. Qed.
