(* ===== verification/Url.v ===== *)
(** * [url.Parse] (package net/url)

    The whole parser; of user information only its presence is kept, which is all
    that callers ask for. *)

From S2P Require Import Prelude GoStrings Ip.
Local Open Scope go_scope.
Local Open Scope string_scope.
Local Open Scope Z_scope.
Local Open Scope list_scope.

Record URL : Type := MkURL {
  Scheme : string;
  Opaque : string;
  has_user : bool;
  Host : string;
  Path : string;
  RawPath : string;
  ForceQuery : bool;
  RawQuery : string;
  Fragment : string
}.

Definition is_alpha (c : Z) : bool := between 0x61 0x7A c || between 0x41 0x5A c.

(** [unescape]; [plain] says which bytes may stand for themselves and [escaped]
    which two-digit escapes are allowed. *)
Fixpoint unescape (plain : Z -> bool) (escaped : Z -> Z -> bool) (l : list Z) : option (list Z) :=
  match l with
  | [] => Some []
  | c :: rest =>
    if c =? percent then
      match rest with
      | a :: b :: rest' =>
        match unhex a, unhex b with
        | Some x, Some y => if escaped x y then cons (16 * x + y) <$> unescape plain escaped rest' else None
        | _, _ => None
        end
      | _ => None
      end
    else if plain c then cons c <$> unescape plain escaped rest else None
  end.

Definition unescape_any : list Z -> option (list Z) := unescape (fun _ => true) (fun _ _ => true).

(** In a host, ASCII bytes outside the allowed set are errors, and only bytes
    outside ASCII or the percent sign may be escaped; in a zone, also spaces and
    bytes that are allowed in a host. *)
Definition host_plain (c : Z) : bool :=
  is_alpha c || is_digit c || bool_decide (c ∈ bytes "!$&'()*+,;=:[]<>-_.~") || (c =? 0x22).
Definition host_byte (c : Z) : bool := (0x80 <=? c) || host_plain c.
Definition unescape_host : list Z -> option (list Z) :=
  unescape host_byte (fun x y => (8 <=? x) || ((x =? 2) && (y =? 5))).
Definition unescape_zone : list Z -> option (list Z) :=
  unescape host_byte (fun x y => ((x =? 2) && (y =? 5)) || (16 * x + y =? 0x20) || host_plain (16 * x + y)).

(** [escape] in upper case hexadecimal. *)
Definition upper_hex (n : Z) : Z := if n <? 10 then 0x30 + n else 0x41 + (n - 10).
Definition escape (plain : Z -> bool) (l : list Z) : list Z :=
  flat_map (fun c => if plain c then [c] else [percent; upper_hex (c / 16); upper_hex (c mod 16)]) l.
Definition path_plain (c : Z) : bool := is_alpha c || is_digit c || bool_decide (c ∈ bytes "-_.~$&+,/:;=@").
Definition escape_path : list Z -> list Z := escape path_plain.
Definition escape_host : list Z -> list Z := escape host_plain.

Fixpoint scheme_loop (seen l : list Z) : option (list Z * list Z) :=
  match l with
  | [] => None
  | c :: rest =>
    if is_alpha c then scheme_loop (seen ++ [c]) rest
    else if (is_digit c || (c =? 0x2B) || (c =? 0x2D) || (c =? 0x2E)) && negb (bool_decide (seen = []))
    then scheme_loop (seen ++ [c]) rest
    else if (c =? colon_byte) && negb (bool_decide (seen = [])) then Some (seen, rest)
    else None
  end.

(** The scheme and the rest; [None] for a text that starts with a colon. *)
Definition getScheme (l : list Z) : option (list Z * list Z) :=
  match l with
  | c :: _ => if c =? colon_byte then None else Some (default ([], l) (scheme_loop [] l))
  | [] => Some ([], [])
  end.

Definition to_lower (l : list Z) : list Z := map (fun c => if between 0x41 0x5A c then c + 32 else c) l.

(** The bytes before and after the last [c]; [None] if there is none. *)
Definition cut_last (c : Z) (l : list Z) : option (list Z * list Z) :=
  match break_at c (rev l) with
  | (_, []) => None
  | (after, _ :: before) => Some (rev before, rev after)
  end.

Definition validOptionalPort (port : list Z) : bool :=
  match port with
  | [] => true
  | c :: digits => (c =? colon_byte) && forallb is_digit digits
  end.

(** Before and from the first "%25". *)
Fixpoint break_zone (l : list Z) : list Z * list Z :=
  match l with
  | [] => ([], [])
  | c :: rest => if bool_decide (bytes "%25" `prefix_of` l) then ([], l) else let '(before, from) := break_zone rest in (c :: before, from)
  end.

(** A literal address in brackets: of version 6, with an optional zone. *)
Definition parse_ip_literal (host : list Z) : option (list Z) :=
  '(before, port) ← cut_last 0x5D host;
  if negb (validOptionalPort port) then None
  else
    hostname ← match before with 0x5B :: hostname => if existsb (Z.eqb 0x5B) hostname then None else Some hostname | _ => None end;
    port ← unescape_host port;
    let '(address, zone) := break_zone hostname in
    address ← unescape_host address; zone ← unescape_zone zone;
    match ParseAddr (address ++ zone) with
    | Some (false, _, _) => Some (0x5B :: address ++ zone ++ 0x5D :: port)
    | _ => None
    end.

Definition parseHost (host : list Z) : option (list Z) :=
  if existsb (Z.eqb 0x5B) host then parse_ip_literal host
  else if negb (validOptionalPort (break_at colon_byte host).2) then None
  else unescape_host host.

Definition validUserinfo (l : list Z) : bool :=
  forallb (fun c => is_alpha c || is_digit c || bool_decide (c ∈ bytes "-._:~!$&'()*+,;=%@")) l.

(** Whether there is a user, and the host. *)
Definition parseAuthority (authority : list Z) : option (bool * list Z) :=
  match cut_last 0x40 authority with
  | None => pair false <$> parseHost authority
  | Some (userinfo, host) =>
    host ← parseHost host;
    if validUserinfo userinfo && bool_decide (is_Some (unescape_any userinfo)) then Some (true, host) else None
  end.

(** Without a fragment. *)
Definition parse_url (l : list Z) : option URL :=
  if existsb (fun c => (c <? 0x20) || (c =? 0x7F)) l then None
  else if bool_decide (l = [0x2A]) then Some (MkURL "" "" false "" "*" "" false "" "")
  else
    '(scheme, rest) ← getScheme l;
    let scheme := to_lower scheme in
    let '(before, from) := break_at 0x3F rest in
    let force := bool_decide (from = [0x3F]) in
    let query := drop 1 from in
    let path := fun user host p =>
      path ← unescape_any p;
      Some (MkURL (of_bytes scheme) "" user (of_bytes host) (of_bytes path)
              (if bool_decide (escape_path path = p) then "" else of_bytes p) force (of_bytes query) "") in
    match before with
    | 0x2F :: 0x2F :: rest =>
      if bool_decide (scheme = []) && bool_decide (bytes "///" `prefix_of` before) then path false [] before
      else
        let '(authority, rest) := break_at slash rest in
        '(user, host) ← parseAuthority authority; path user host rest
    | 0x2F :: _ => path false [] before
    | _ =>
      if negb (bool_decide (scheme = []))
      then Some (MkURL (of_bytes scheme) (of_bytes before) false "" "" "" force (of_bytes query) "")
      else if existsb (Z.eqb colon_byte) (break_at slash before).1 then None
      else path false [] before
    end.

Definition url_Parse (s : string) : option URL :=
  let '(before, from) := break_at 0x23 (bytes s) in
  u ← parse_url before;
  fragment ← unescape_any (drop 1 from);
  Some (MkURL (Scheme u) (Opaque u) (has_user u) (Host u) (Path u) (RawPath u) (ForceQuery u) (RawQuery u) (of_bytes fragment)).

(** [splitHostPort]: host and port; brackets are removed from the host. *)
Definition splitHostPort (hostPort : string) : string * string :=
  let l := bytes hostPort in
  let '(host, port) := match cut_last colon_byte l with
    | Some (before, after) => if validOptionalPort (colon_byte :: after) then (before, after) else (l, [])
    | None => (l, [])
    end in
  let host := if HasPrefix (of_bytes host) "[" && HasSuffix (of_bytes host) "]" then take (length host - 2) (drop 1 host) else host in
  (of_bytes host, of_bytes port).

Definition Hostname (u : URL) : string := (splitHostPort (Host u)).1.
Definition Port (u : URL) : string := (splitHostPort (Host u)).2.

(** [String] of a URL with scheme, host and path only. *)
Definition url_String (u : URL) : string :=
  Scheme u +:+ "://" +:+ of_bytes (escape_host (bytes (Host u))) +:+ of_bytes (escape_path (bytes (Path u))).

Definition url_of (scheme host path : string) : URL := MkURL scheme "" false host path "" false "" "".

Example url_tests :
  (map url_Parse ["https://github.com/o/r/pull/7"; "HTTPS://github.com/a%2Fb"; "https://git hub.com/x"; "mailto:x"; "/a//b"],
   map url_Parse ["https://h:80:80/"; "https://h:80/"; "a:b"; ":x"; "1a:b/c"; "https://[::1]:8/"; "https://[1.2.3.4]/"],
   map url_Parse ["https://u:p@h/x?q=1#f"; "https://h/x?"; "https://h/x#"; "https://h/a%41"],
   map (fun s => splitHostPort s) ["h:80"; "[::1]:8"; "[::1]"; "h"])
  = ([Some (url_of "https" "github.com" "/o/r/pull/7");
      Some (MkURL "https" "" false "github.com" "/a/b" "/a%2Fb" false "" ""); None;
      Some (MkURL "mailto" "x" false "" "" "" false "" ""); Some (url_of "" "" "/a//b")],
     [None; Some (url_of "https" "h:80" "/"); Some (MkURL "a" "b" false "" "" "" false "" ""); None; None;
      Some (url_of "https" "[::1]:8" "/"); None],
     [Some (MkURL "https" "" true "h" "/x" "" false "q=1" "f"); Some (MkURL "https" "" false "h" "/x" "" true "" "");
      Some (url_of "https" "h" "/x"); Some (MkURL "https" "" false "h" "/aA" "/a%41" false "" "")],
     [("h", "80"); ("::1", "8"); ("::1", ""); ("h", "")]).
Proof. vm_compute. reflexivity. Qed.
