(* ===== verification/Publish.v ===== *)
(** * Publication requests (src/v3/internal/publish/publish.go, client.go)

    A publication request is validated and prepared before anything is asked of
    the ledger or of GitHub: the patch and its manifest are bound by digests, the
    branch, title, labels and body are derived, and the whole is bound by one
    request digest.  Publisher.v holds the calls.

    Slices that are written to JSON distinguish nil from empty ([slice]). *)

From stdpp Require Import pretty.
From S2P Require Import Prelude Order GoStrings Digest Digits GoTime GoJson Base64 StrictJson Canonical Store Effects Url.
Local Open Scope go_scope.
Local Open Scope string_scope.
Local Open Scope Z_scope.
Local Open Scope list_scope.

Definition Operation : string := "publish/pr".
Definition MaxRunUIDBytes : Z := 128.
Definition MaxRunNameBytes : Z := 253.
Definition MaxBaseRefBytes : Z := 256.
Definition MaxBaseSHABytes : Z := 64.
Definition MaxPatchFiles : Z := 256.
Definition MaxPatchPathBytes : Z := 512.
Definition MaxPatchBytes : Z := Z.shiftl 8 20.
Definition MaxPatchManifestBytes : Z := Z.shiftl 16 20.
Definition MaxTitleBytes : Z := 256.
Definition MaxBodyBytes : Z := Z.shiftl 16 10.
Definition MaxLabels : Z := 16.
Definition MaxLabelBytes : Z := 64.
Definition MaxImages : Z := 16.
Definition MaxSkills : Z := 32.
Definition MaxImageRefBytes : Z := 512.
Definition MaxResultRefBytes : Z := 4096.
Definition MaxCommitMessageBytes : Z := 256.
Definition MaxPullRequestURLBytes : Z := 1024.
Definition MaxEffectResultVersion : Z := 2.
Definition MaxPullRequestNumber : Z := 2147483647.
Definition shortUIDHexBytes : nat := 12.
Definition branchNameMaxBytes : Z := 255.
Definition branchNamePrefix : string := "agw/".
Definition defaultTitlePrefix : string := "AGW: ".
Definition defaultCommitPrefix : string := "agw: ".
Definition effectResultPrefix : string := "agw-result-v2:".
Definition failureResultPrefix : string := "agw-failed:".

Definition StateSkipped : string := "skipped".
Definition StateRejected : string := "rejected".
Definition StateSucceeded : string := "succeeded".
Definition StateFailed : string := "failed".
Definition StateUnknown : string := "unknown".

Definition PublishNone : string := "none".
Definition PublishPullRequest : string := "pull-request".
Definition GateShadow : string := "shadow".
Definition GateEnforcing : string := "enforcing".

Inductive publish_error : Type :=
| ErrInvalidRequest
| ErrUnknownEffect
| ErrBaseMismatch
| ErrPreviouslyFailed
| ErrBodyTooLarge
| errClaimConflict
| errDeterministicCommit
| errRejectedEnforcing.

(** ** Data *)

Record Repository : Type := MkRepository { Owner : string; Repo_Name : string }.
Record ImageEvidence : Type := MkImage { Image_Name : string; Image_Digest : string }.
Record GateState : Type := MkGate { Gate_Mode : string; Gate_Verdict : string; ReportDigest : string }.
(** A nil content is [None]. *)
Record FileChange : Type := MkFile { File_Path : string; File_Mode : string; File_Delete : bool; File_Content : slice Z }.
Record Patch : Type := MkPatch { Patch_Digest : string; Patch_Raw : list Z; ManifestDigest : string; Files : list FileChange }.

Record Request : Type := MkRequest {
  Request_RunUID : string;
  Request_RunName : string;
  Request_Repo : Repository;
  Request_BaseRef : string;
  Request_BaseSHA : string;
  Request_Patch : Patch;
  Request_SpecDigest : string;
  Request_Gate : GateState;
  RuntimeImageDigest : string;
  VerifierImageDigest : string;
  HelperImageDigests : slice ImageEvidence;
  SkillDigests : slice string;
  PublishMode : string;
  Request_Title : string;
  Request_Labels : list string
}.

Record Result : Type := MkPublished {
  Result_State : string;
  Result_EffectKey : string;
  Result_RequestDigest : string;
  Result_BranchName : string;
  CommitSHA : string;
  PullRequestNumber : Z;
  PullRequestURL : string
}.

Definition FullName (r : Repository) : string := Owner r +:+ "/" +:+ Repo_Name r.

(** ** Validation of texts *)

Definition isASCIIAlphaNumeric (c : Z) : bool := is_alpha c || is_digit c.
Definition maxRepositoryPart : Z := 100.

Definition validRepositoryPart (value : string) : bool :=
  if (len value =? 0) || (maxRepositoryPart <? len value) || (value =?= ".") || (value =?= "..") ||
     negb (forallb (fun c => c <? 0x80) (bytes value)) then false
  else match bytes value with
  | c :: _ =>
    isASCIIAlphaNumeric c && forallb (fun c => isASCIIAlphaNumeric c || (c =? 0x2D) || (c =? 0x5F) || (c =? 0x2E)) (bytes value)
  | [] => true
  end.
Definition Repository_Validate (r : Repository) : bool := validRepositoryPart (Owner r) && validRepositoryPart (Repo_Name r).

Definition line_breaks : string := of_bytes [0; 0x0D; 0x0A].
Definition blanks : string := of_bytes [0; 0x0D; 0x0A; 0x09; 0x20].

Definition validRunUID (value : string) : bool :=
  (0 <? len value) && (len value <=? MaxRunUIDBytes) && ValidString value && negb (ContainsAny value blanks).

Definition validRunName (value : string) : bool :=
  if (len value =? 0) || (MaxRunNameBytes <? len value) || (default 0 (head (bytes value)) =? 0x2D) ||
     (default 0 (last (bytes value)) =? 0x2D) then false
  else forallb (fun r => between 0x61 0x7A r || is_digit r || (r =? 0x2D)) (runes value).

Definition ref_rune (r : Z) : bool := is_alpha r || is_digit r || bool_decide (r ∈ bytes "._/-").
Definition validRefPart (value : string) : bool := forallb ref_rune (runes value).

Definition validBaseRef (value : string) : bool :=
  if (len value =? 0) || (MaxBaseRefBytes <? len value) || HasPrefix value "/" || HasSuffix value "/" || Contains value ".." ||
     ContainsAny value blanks then false
  else validRefPart value.

Definition validPath (value : string) : bool :=
  (value !=? "") && ValidString value && negb (HasPrefix value "/") && negb (Contains value "..") && negb (ContainsAny value line_breaks).
Definition validFileMode (value : string) : bool := (value =?= "100644") || (value =?= "100755").

Definition validSHA (value : string) : bool :=
  if (len value <? 40) || (MaxBaseSHABytes <? len value) then false
  else forallb (fun r => is_digit r || between 0x61 0x66 r) (runes value).

(** [strings.LastIndex], [None] for -1. *)
Fixpoint last_index (l sub : list Z) : option nat :=
  match l with
  | [] => if bool_decide (sub = []) then Some 0%nat else None
  | _ :: rest =>
    match last_index rest sub with
    | Some n => Some (S n)
    | None => if bool_decide (sub `prefix_of` l) then Some 0%nat else None
    end
  end.

Definition validImageDigest (value : string) : bool :=
  if (len value =? 0) || (MaxImageRefBytes <? len value) || ContainsAny value (blanks +:+ "`") then false
  else match last_index (bytes value) (bytes "@sha256:") with
  | Some (S n) =>
    ValidDigest (of_bytes (drop (S (S n)) (bytes value))) &&
    validRefPart (of_bytes (List.filter (fun c => negb (c =? 0x3A)) (take (S n) (bytes value))))
  | _ => false
  end.

Definition validImageRole (value : string) : bool :=
  if (len value =? 0) || (63 <? len value) then false
  else match runes value with
  | r :: _ => between 0x61 0x7A r && forallb (fun r => between 0x61 0x7A r || is_digit r || (r =? 0x2D)) (runes value)
  | [] => true
  end.

Definition validateImages (images : list ImageEvidence) : option publish_error :=
  if MaxImages <? slen images then Some ErrInvalidRequest
  else if forallb (fun i => validImageRole (Image_Name i) && validImageDigest (Image_Digest i)) images &&
          bool_decide (NoDup (map Image_Name images))
  then None else Some ErrInvalidRequest.

Definition validateSkills (skills : list string) : option publish_error :=
  if MaxSkills <? slen skills then Some ErrInvalidRequest
  else if forallb ValidDigest skills && bool_decide (NoDup skills) then None else Some ErrInvalidRequest.

Definition validateLabels (labels : list string) : option publish_error :=
  if MaxLabels <? slen labels then Some ErrInvalidRequest
  else if forallb (fun l =>
    negb ((len l =? 0) || (MaxLabelBytes <? len l) || negb (validRefPart l) || (l =?= "agw/accepted") || (l =?= "agw/rejected") ||
          (l =?= "agw/shadow"))) labels then None else Some ErrInvalidRequest.

(** ** The patch manifest *)

Definition sort_files : list FileChange -> list FileChange := sort_on File_Path String.compare.

(** One file of the sorted list; the accumulator is the path before it and the
    total size so far. *)
Definition normalize_file (acc : option string * Z) (file : FileChange) : result publish_error (option string * Z) :=
  let '(previous, total) := acc in
  if negb (validPath (File_Path file)) || (MaxPatchPathBytes <? len (File_Path file)) || negb (validFileMode (File_Mode file))
  then Err ErrInvalidRequest
  else if bool_decide (previous = Some (File_Path file)) then Err ErrInvalidRequest
  else if File_Delete file && bool_decide (is_Some (File_Content file)) then Err ErrInvalidRequest
  else if negb (File_Delete file) && negb (bool_decide (is_Some (File_Content file))) then Err ErrInvalidRequest
  else
    let total := total + slen (elems (File_Content file)) in
    if MaxPatchBytes <? total then Err ErrInvalidRequest else Ok (Some (File_Path file), total).

(** The normalised files are the sorted copies themselves. *)
Definition normalizePatchFiles (files : list FileChange) : result publish_error (list FileChange) :=
  if (slen files =? 0) || (MaxPatchFiles <? slen files) then Err ErrInvalidRequest
  else
    let copyFiles := sort_files files in
    let? _ := fold_result normalize_file (None, 0) copyFiles in Ok copyFiles.

(** [[]byte] fields are written in padded standard base64. *)
Definition std_base64 (l : list Z) : list Z :=
  let e := Base64.encode l in e ++ repeat 0x3D (Z.to_nat (- slen e mod 4)).
Definition json_bytes (content : slice Z) : json :=
  match content with Some l => JString (of_bytes (std_base64 l)) | None => JNull end.

Definition manifest_json (files : list FileChange) : json :=
  JObject [("version", JInt 1); ("files", JArray (map (fun f =>
    JObject [("path", JString (File_Path f)); ("mode", JString (File_Mode f)); ("delete", JBool (File_Delete f));
             ("content", json_bytes (File_Content f))]) files))].
Definition manifest_spec (files : list FileChange) : spec := SpecValue (Some (Marshal (manifest_json files))).

(** The error of [ResolvedSpecDigest] is not inspected by the callers. *)
Definition DigestForPatch (files : list FileChange) : result publish_error string :=
  let? normalized := normalizePatchFiles files in
  match ResolvedSpecDigest (manifest_spec normalized) with Ok digest => Ok digest | Err _ => Err ErrInvalidRequest end.

Definition MarshalPatchManifest (files : list FileChange) : result publish_error (list Z * string) :=
  let? normalized := normalizePatchFiles files in
  match CanonicalizeResolvedSpec (manifest_spec normalized) with
  | Err _ => Err ErrInvalidRequest
  | Ok encoded =>
    if (slen encoded =? 0) || (MaxPatchManifestBytes <? slen encoded) then Err ErrInvalidRequest
    else match ResolvedSpecDigest (manifest_spec normalized) with
    | Err _ => Err ErrInvalidRequest
    | Ok digest => Ok (encoded, digest)
    end
  end.

Definition DigestForPatchBytes (raw : list Z) : string := digestBytes raw.

(** ** Requests *)

Definition verdict_ok (v : string) : bool := (v =?= "Accepted") || (v =?= "Rejected").

Definition validateRequest (request : Request) : option publish_error :=
  let gate := Request_Gate request in
  let patch := Request_Patch request in
  if negb (validRunUID (Request_RunUID request)) || negb (validRunName (Request_RunName request)) ||
     negb (Repository_Validate (Request_Repo request)) then Some ErrInvalidRequest
  else if negb (validBaseRef (Request_BaseRef request)) || negb (validSHA (Request_BaseSHA request)) ||
          negb (ValidDigest (Request_SpecDigest request)) || negb (ValidDigest (ReportDigest gate)) then Some ErrInvalidRequest
  else if (Gate_Mode gate !=? GateShadow) && (Gate_Mode gate !=? GateEnforcing) then Some ErrInvalidRequest
  else if negb (verdict_ok (Gate_Verdict gate)) then Some ErrInvalidRequest
  else if (Gate_Verdict gate =?= "Rejected") && (Gate_Mode gate =?= GateEnforcing) then Some errRejectedEnforcing
  else if (slen (Patch_Raw patch) =? 0) || (MaxPatchBytes <? slen (Patch_Raw patch)) || negb (ValidDigest (Patch_Digest patch)) ||
          negb (ValidDigest (ManifestDigest patch)) then Some ErrInvalidRequest
  else if negb (is_ok (normalizePatchFiles (Files patch))) then Some ErrInvalidRequest
  else if negb (validImageDigest (RuntimeImageDigest request)) || negb (validImageDigest (VerifierImageDigest request))
  then Some ErrInvalidRequest
  else if bool_decide (is_Some (validateImages (elems (HelperImageDigests request)))) then Some ErrInvalidRequest
  else if bool_decide (is_Some (validateSkills (elems (SkillDigests request)))) then Some ErrInvalidRequest
  else if (MaxTitleBytes <? len (Request_Title request)) || ContainsAny (Request_Title request) line_breaks ||
          negb (ValidString (Request_Title request)) then Some ErrInvalidRequest
  else if bool_decide (is_Some (validateLabels (Request_Labels request))) then Some ErrInvalidRequest
  else None.

(** The loop that keeps the first of equal neighbours. *)
Fixpoint unique_sorted (labels : list string) : list string :=
  match labels with
  | [] => []
  | l :: rest =>
    match unique_sorted rest with
    | l' :: _ as kept => if l =?= l' then kept else l :: kept
    | [] => [l]
    end
  end.

Definition desiredLabels (gate : GateState) (custom : list string) : list string :=
  unique_sorted (Strings ([if Gate_Verdict gate =?= "Accepted" then "agw/accepted" else "agw/rejected"] ++
                          (if Gate_Mode gate =?= GateShadow then ["agw/shadow"] else []) ++ custom)).

Definition shortUID (value : string) : string :=
  of_bytes (take shortUIDHexBytes (hex_bytes (Sha256.Sum256 (bytes value)))).
Definition digestString (value : string) : string := digestBytes (bytes value).
Definition fullHeadRef (baseRef : string) : string := "refs/heads/" +:+ baseRef.

Definition dash_byte : Z := 0x2D.
Definition BranchName (runName runUID : string) : result publish_error string :=
  if negb (validRunName runName) || negb (validRunUID runUID) then Err ErrInvalidRequest
  else
    let maxName := branchNameMaxBytes - len branchNamePrefix - 1 - Z.of_nat shortUIDHexBytes in
    let name := if maxName <? len runName
                then of_bytes (trim_right (Z.eqb dash_byte) (take (Z.to_nat maxName) (bytes runName))) else runName in
    if name =?= "" then Err ErrInvalidRequest else Ok (branchNamePrefix +:+ name +:+ "-" +:+ shortUID runUID).

(** ** The body of the pull request *)

Definition nl : string := of_bytes [0x0A].
Definition lines (l : list string) : string := foldr (fun s acc => s +:+ nl +:+ acc) "" l.
Definition row (name value : string) : string := "| " +:+ name +:+ " | `" +:+ value +:+ "` |".

Definition RenderPRBody (request : Request) (effectKey branchName : string) : result publish_error string :=
  if bool_decide (is_Some (validateRequest request)) || negb (ValidDigest effectKey) || negb (HasPrefix branchName branchNamePrefix)
  then Err ErrInvalidRequest
  else
    let helpers := sort_on Image_Name String.compare (elems (HelperImageDigests request)) in
    let skills := Strings (elems (SkillDigests request)) in
    let labels := desiredLabels (Request_Gate request) (Request_Labels request) in
    let gate := Request_Gate request in
    let body := lines (
      ["## Agents Gateway verification"; "";
       "This pull request was created by the Agents Gateway controller. It was not merged automatically."; "";
       "| Evidence | Value |"; "| --- | --- |";
       row "Repository" (FullName (Request_Repo request)); row "Base ref" (Request_BaseRef request);
       row "Base SHA" (Request_BaseSHA request); row "Branch" branchName;
       "| Gate verdict | `" +:+ Gate_Verdict gate +:+ "` (`" +:+ Gate_Mode gate +:+ "`) |";
       row "Verification report digest" (ReportDigest gate); row "Resolved spec digest" (Request_SpecDigest request);
       row "Patch digest" (Patch_Digest (Request_Patch request)); row "Effect key" effectKey;
       row "Runtime image" (RuntimeImageDigest request); row "Verifier image" (VerifierImageDigest request);
       ""; "### Helper image digests"; ""] ++
      map (fun i => "- `" +:+ Image_Name i +:+ "`: `" +:+ Image_Digest i +:+ "`") helpers ++
      (if slen helpers =? 0 then ["- none"] else []) ++
      [""; "### Skill digests"; ""] ++ map (fun s => "- `" +:+ s +:+ "`") skills ++
      (if slen skills =? 0 then ["- none"] else []) ++
      [""; "### Controller labels"; ""] ++ map (fun l => "- `" +:+ l +:+ "`") labels) in
    if MaxBodyBytes <? len body then Err ErrBodyTooLarge else Ok body.

(** ** Preparing *)

Record preparedRequest : Type := MkPrepared {
  request : Request;
  patch : Patch;
  effectKey : string;
  requestDigest : string;
  branchName : string;
  title : string;
  commitMessage : string;
  body : string;
  labels : list string
}.

Definition clonePatch (p : Patch) : Patch := MkPatch (Patch_Digest p) (Patch_Raw p) (ManifestDigest p) (sort_files (Files p)).

Definition operation_json (r : Request) (p : Patch) (branch title : string) (labels : list string) (bodyDigest : string) : json :=
  let gate := Request_Gate r in
  JObject [("version", JInt 1); ("runUID", JString (Request_RunUID r)); ("runName", JString (Request_RunName r));
    ("repo", JString (FullName (Request_Repo r))); ("baseRef", JString (Request_BaseRef r)); ("baseSHA", JString (Request_BaseSHA r));
    ("patchDigest", JString (Patch_Digest p)); ("patchManifestDigest", JString (ManifestDigest p));
    ("specDigest", JString (Request_SpecDigest r));
    ("gate", JObject [("Mode", JString (Gate_Mode gate)); ("Verdict", JString (Gate_Verdict gate));
                      ("ReportDigest", JString (ReportDigest gate))]);
    ("runtimeImageDigest", JString (RuntimeImageDigest r)); ("verifierImageDigest", JString (VerifierImageDigest r));
    ("helperImageDigests", json_slice (fun i => JObject [("Name", JString (Image_Name i)); ("Digest", JString (Image_Digest i))])
                             (HelperImageDigests r));
    ("skillDigests", json_slice JString (SkillDigests r)); ("branchName", JString branch); ("title", JString title);
    ("labels", JArray (map JString labels)); ("bodyDigest", JString bodyDigest)].

Definition prepare (request : Request) : result publish_error preparedRequest :=
  match validateRequest request with
  | Some e => Err e
  | None =>
    let patch := clonePatch (Request_Patch request) in
    if (slen (Patch_Raw patch) =? 0) || (MaxPatchBytes <? slen (Patch_Raw patch)) ||
       (DigestForPatchBytes (Patch_Raw patch) !=? Patch_Digest patch) then Err ErrInvalidRequest
    else match DigestForPatch (Files patch) with
    | Err _ => Err ErrInvalidRequest
    | Ok manifestDigest =>
      if manifestDigest !=? ManifestDigest patch then Err ErrInvalidRequest
      else match EffectKey (Request_RunUID request) (Request_BaseSHA request) (Patch_Digest patch) Operation with
      | Err _ => Err ErrInvalidRequest
      | Ok effectKey =>
        let? branchName := BranchName (Request_RunName request) (Request_RunUID request) in
        let title := if Request_Title request =?= "" then defaultTitlePrefix +:+ Request_RunName request else Request_Title request in
        let commitMessage := defaultCommitPrefix +:+ Request_RunName request +:+ " (" +:+ shortUID (Request_RunUID request) +:+ ")" in
        if MaxCommitMessageBytes <? len commitMessage then Err ErrInvalidRequest
        else
          let labels := desiredLabels (Request_Gate request) (Request_Labels request) in
          let? body := RenderPRBody request effectKey branchName in
          match ResolvedSpecDigest (SpecValue (Some (Marshal
                  (operation_json request patch branchName title labels (digestString body))))) with
          | Err _ => Err ErrInvalidRequest
          | Ok requestDigest =>
            Ok (MkPrepared request patch effectKey requestDigest branchName title commitMessage body labels)
          end
      end
    end
  end.
