(* ===== verification/Publisher.v ===== *)
(** * The publisher (src/v3/internal/publish/publish.go, client.go)

    [Publish] is a program of calls to its two interfaces, [Ledger] and
    [Client]; every call may be answered in any way the interface allows. *)

From stdpp Require Import pretty.
From S2P Require Import Prelude Order GoStrings Digest Digits GoTime GoJson Base64 StrictJson Canonical Store Effects LedgerProtocol Client Url Publish.
Local Open Scope go_scope.
Local Open Scope string_scope.
Local Open Scope Z_scope.
Local Open Scope list_scope.

(** ** The client *)

Record Reference : Type := MkReference { Ref_Name : string; Ref_SHA : string }.
Record BranchRequest : Type := MkBranchRequest { BranchRequest_Name : string; BranchRequest_BaseSHA : string }.
Record BranchResult : Type := MkBranch { Branch_Name : string; Branch_SHA : string }.
Record CommitAuthor : Type := MkAuthor { Author_Name : string; Author_Email : string }.
Definition agwBotAuthor : CommitAuthor := MkAuthor "agw-bot" "agw-bot@users.noreply.github.com".
#[global] Instance CommitAuthor_eq_dec : EqDecision CommitAuthor.
Proof. solve_decision. Defined.

Record CommitRequest : Type := MkCommitRequest {
  CommitRequest_BranchName : string;
  CommitRequest_BaseSHA : string;
  CommitRequest_Patch : Patch;
  CommitRequest_PatchDigest : string;
  CommitRequest_ManifestDigest : string;
  CommitRequest_Message : string;
  CommitRequest_Author : CommitAuthor;
  CommitRequest_EffectKey : string
}.
Record CommitResult : Type := MkCommit {
  Commit_SHA : string;
  Commit_BranchName : string;
  Commit_BaseSHA : string;
  Commit_PatchDigest : string;
  Commit_ManifestDigest : string;
  Commit_Author : CommitAuthor
}.
Record PullRequestRequest : Type := MkPullRequestRequest {
  PRRequest_BaseRef : string; PRRequest_HeadBranch : string; PRRequest_Title : string; PRRequest_Body : string; PRRequest_EffectKey : string
}.
Record PullRequestResult : Type := MkPullRequest {
  PR_Number : Z; PR_URL : string; PR_BaseRef : string; PR_HeadBranch : string; PR_EffectKey : string
}.
Record LabelRequest : Type := MkLabelRequest { LabelRequest_Number : Z; LabelRequest_Labels : list string }.

(** The methods of [Client], their answers and their errors by class. *)
Inductive github_request : Type :=
| GetRef (repo : Repository) (name : string)
| EnsureBranch (repo : Repository) (r : BranchRequest)
| EnsureCommit (repo : Repository) (r : CommitRequest)
| EnsurePullRequest (repo : Repository) (r : PullRequestRequest)
| EnsureLabels (repo : Repository) (r : LabelRequest).

Definition github_answer (r : github_request) : Type :=
  match r with
  | GetRef _ _ => Reference
  | EnsureBranch _ _ => BranchResult
  | EnsureCommit _ _ => CommitResult
  | EnsurePullRequest _ _ => PullRequestResult
  | EnsureLabels _ _ => unit
  end.

Inductive github_error : Type := ErrGitHubConflict | ErrGitHubNotFound | ErrGitHubInvalid | ErrGitHubOther.

(** No request to GitHub may be made twice, not even a read. *)
#[global] Instance GitHub : Service := {|
  service_request := github_request;
  service_answer r := result github_error (github_answer r);
  acts _ := true
|}.

(** ** Programs *)

Notation pub := (client GitHub).
Definition CallGitHub {A : Type} (r : github_request) (k : result github_error (github_answer r) -> pub A) : pub A :=
  @CallService GitHub A r k.

(** What [Publish] answers. *)
Notation answer := (Result * option publish_error)%type.

(** ** Proofs of the client *)

Definition deterministicGitHubError (e : github_error) : bool :=
  match e with ErrGitHubOther => false | _ => true end.

Definition validCommitResult (result : CommitResult) (prepared : preparedRequest) : bool :=
  validSHA (Commit_SHA result) && (Commit_BranchName result =?= branchName prepared) &&
  (Commit_BaseSHA result =?= Request_BaseSHA (request prepared)) && (Commit_PatchDigest result =?= Patch_Digest (patch prepared)) &&
  (Commit_ManifestDigest result =?= ManifestDigest (patch prepared)) && bool_decide (Commit_Author result = agwBotAuthor).

Definition url_unsafe : string := of_bytes [0; 0x0D; 0x0A; 0x09] +:+ " @?#".

Definition safeURL (value : string) : bool :=
  if (len value =? 0) || (MaxPullRequestURLBytes <? len value) || ContainsAny value url_unsafe then false
  else match url_Parse value with
  | Some parsed => (Scheme parsed =?= "https") && (Host parsed !=? "") && negb (has_user parsed) && (RawQuery parsed =?= "") &&
                   (Fragment parsed =?= "") && (Path parsed !=? "")
  | None => false
  end.

Definition pull_prefix (repo : Repository) : string := "/" +:+ Owner repo +:+ "/" +:+ Repo_Name repo +:+ "/pull/".

Definition validPullRequestURLForRepo (value : string) (repo : Repository) : bool :=
  if negb (safeURL value) then false
  else match url_Parse value with
  | None => false
  | Some parsed =>
    if (Scheme parsed !=? "https") || (Host parsed !=? "github.com") || has_user parsed || (RawQuery parsed !=? "") ||
       (Fragment parsed !=? "") then false
    else if negb (HasPrefix (Path parsed) (pull_prefix repo)) then false
    else
      let number := TrimPrefix (Path parsed) (pull_prefix repo) in
      if number =?= "" then false else if negb (forallb is_digit (runes number)) then false else number !=? "0"
  end.

(** Only called on texts that parse. *)
Definition parsedPath (value : string) : string := match url_Parse value with Some parsed => Path parsed | None => "" end.

Definition validPullRequestResult (result : PullRequestResult) (prepared : preparedRequest) : bool :=
  let repo := Request_Repo (request prepared) in
  if (PR_Number result <=? 0) || (PR_BaseRef result !=? Request_BaseRef (request prepared)) ||
     (PR_HeadBranch result !=? branchName prepared) || (PR_EffectKey result !=? effectKey prepared) then false
  else validPullRequestURLForRepo (PR_URL result) repo &&
       (parsedPath (PR_URL result) =?= pull_prefix repo +:+ pretty (PR_Number result)).

Definition validPullRequestIdentity (number : Z) (value : string) (repo : Repository) : bool :=
  if (number <=? 0) || (MaxPullRequestNumber <? number) then false
  else validPullRequestURLForRepo value repo && (parsedPath value =?= pull_prefix repo +:+ pretty number).

(** ** The recorded result *)

Record resultRecord : Type := MkRecord {
  Record_Version : Z;
  Record_Result : Result
}.

Definition record_json (r : resultRecord) : json :=
  let result := Record_Result r in
  JObject [("version", JInt (Record_Version r)); ("state", JString (Result_State result));
    ("effectKey", JString (Result_EffectKey result)); ("requestDigest", JString (Result_RequestDigest result));
    ("branchName", JString (Result_BranchName result)); ("commitSHA", JString (CommitSHA result));
    ("pullRequestNumber", JInt (PullRequestNumber result)); ("pullRequestURL", JString (PullRequestURL result))].
Definition record_fields : list string :=
  ["version"; "state"; "effectKey"; "requestDigest"; "branchName"; "commitSHA"; "pullRequestNumber"; "pullRequestURL"].
Definition record_spec (r : resultRecord) : spec := SpecValue (Some (Marshal (record_json r))).

Definition resultDigest (result : Result) : string :=
  match ResolvedSpecDigest (record_spec (MkRecord MaxEffectResultVersion result)) with Ok digest => digest | Err _ => "" end.

(** [base64.RawURLEncoding] differs from the standard alphabet in two digits. *)
Definition url_digit (b : Z) : Z := if b =? 0x2B then 0x2D else if b =? 0x2F then 0x5F else b.
Definition std_digit (b : Z) : Z :=
  if b =? 0x2D then 0x2B else if b =? 0x5F then 0x2F else if (b =? 0x2B) || (b =? 0x2F) then 0 else b.
Definition RawURLEncode (l : list Z) : string := of_bytes (map url_digit (Base64.encode l)).
Definition RawURLDecode (s : string) : option (list Z) := Base64.DecodeString (of_bytes (map std_digit (bytes s))).

Definition encodeResult (result : Result) : string :=
  match CanonicalizeResolvedSpec (record_spec (MkRecord MaxEffectResultVersion result)) with
  | Ok encoded => effectResultPrefix +:+ RawURLEncode encoded
  | Err _ => ""
  end.

(** The document as a struct.  [json.Decoder] accepts more than the strict
    parser, but nothing whose canonical form is the document itself. *)
Definition decode_record (encoded : list Z) : option resultRecord :=
  match parse encoded with
  | Ok (objectValue o) =>
    if negb (forallb (fun m => existsb (String.eqb m.1) record_fields) o) then None
    else
      version ← int_field "version" o; state ← string_field "state" o; key ← string_field "effectKey" o;
      digest ← string_field "requestDigest" o; branch ← string_field "branchName" o; sha ← string_field "commitSHA" o;
      number ← int_field "pullRequestNumber" o; link ← string_field "pullRequestURL" o;
      Some (MkRecord version (MkPublished state key digest branch sha number link))
  | _ => None
  end.

Definition decodeResult (value : string) : option Result :=
  if negb (HasPrefix value effectResultPrefix) || (MaxResultRefBytes <? len value) then None
  else match RawURLDecode (TrimPrefix value effectResultPrefix) with
  | None => None
  | Some encoded =>
    if slen encoded =? 0 then None
    else match decode_record encoded with
    | None => None
    | Some record =>
      let result := Record_Result record in
      match CanonicalizeResolvedSpec (record_spec record) with
      | Err _ => None
      | Ok canonicalEncoded =>
        if negb (bool_decide (canonicalEncoded = encoded)) || negb (Record_Version record =? MaxEffectResultVersion) ||
           (Result_State result !=? StateSucceeded) || negb (ValidDigest (Result_EffectKey result)) ||
           negb (ValidDigest (Result_RequestDigest result)) || negb (validSHA (CommitSHA result)) ||
           negb (HasPrefix (Result_BranchName result) branchNamePrefix) || (PullRequestNumber result <=? 0) ||
           (MaxPullRequestNumber <? PullRequestNumber result) || negb (safeURL (PullRequestURL result)) then None
        else Some result
      end
    end
  end.

(** ** Outcomes *)

Definition partial_result (state : string) (prepared : preparedRequest) : Result :=
  MkPublished state (effectKey prepared) (requestDigest prepared) (branchName prepared) "" 0 "".

(** Every cause is reported as [ErrUnknownEffect]. *)
Definition unknownResult (prepared : preparedRequest) : pub answer :=
  Done (partial_result StateUnknown prepared, Some ErrUnknownEffect).

(** An outcome as the publisher builds it: no version, run or time. *)
Definition new_outcome (prepared : preparedRequest) (state digest ref : string) : Outcome :=
  MkOutcome 0 (effectKey prepared) (requestDigest prepared) "" state digest ref zeroTime.

(** Continues with whether the outcome is recorded. *)
Definition commitOutcome {A : Type} (prepared : preparedRequest) (outcome : Outcome) (k : bool -> pub A) : pub A :=
  CallCommit outcome (fun err =>
    match err with
    | None => k true
    | Some _ =>
      CallReadOutcome (effectKey prepared) (requestDigest prepared) (fun read =>
        match read with
        | Err _ => k false
        | Ok recorded =>
          k ((Outcome_State recorded =?= Outcome_State outcome) && (Outcome_ResultDigest recorded =?= Outcome_ResultDigest outcome) &&
             (Outcome_ResultRef recorded =?= Outcome_ResultRef outcome))
        end)
    end).

Definition failed (prepared : preparedRequest) (code : string) (publicErr : publish_error) : pub answer :=
  let ref := failureResultPrefix +:+ code in
  commitOutcome prepared (new_outcome prepared OutcomeFailed (digestString ref) ref) (fun recorded =>
    if recorded then Done (partial_result StateFailed prepared, Some publicErr) else unknownResult prepared).

Definition publish_unknown (prepared : preparedRequest) : pub answer :=
  commitOutcome prepared (new_outcome prepared OutcomeUnknown "" "unknown") (fun _ => unknownResult prepared).

Definition replay (prepared : preparedRequest) : pub answer :=
  CallReadOutcome (effectKey prepared) (requestDigest prepared) (fun read =>
    match read with
    | Err _ => unknownResult prepared
    | Ok outcome =>
      if Outcome_State outcome =?= OutcomeSucceeded then
        match decodeResult (Outcome_ResultRef outcome) with
        | None => unknownResult prepared
        | Some result =>
          if (resultDigest result !=? Outcome_ResultDigest outcome) || (Result_EffectKey result !=? effectKey prepared) ||
             (Result_RequestDigest result !=? requestDigest prepared) || (Result_BranchName result !=? branchName prepared) ||
             negb (validPullRequestIdentity (PullRequestNumber result) (PullRequestURL result) (Request_Repo (request prepared)))
          then unknownResult prepared
          else Done (result, None)
        end
      else if Outcome_State outcome =?= OutcomeFailed then Done (partial_result StateFailed prepared, Some ErrPreviouslyFailed)
      else unknownResult prepared
    end).

(** The error branch shared by the client's calls. *)
Definition refuse (prepared : preparedRequest) (e : github_error) (code : string) (publicErr : publish_error) : pub answer :=
  if deterministicGitHubError e then failed prepared code publicErr else publish_unknown prepared.

(** The part of [Publish] behind a granted claim. *)
Definition publish_granted (prepared : preparedRequest) : pub answer :=
  let req := request prepared in
  let repo := Request_Repo req in
  CallGitHub (GetRef repo (fullHeadRef (Request_BaseRef req))) (fun r =>
    match r with
    | Err e => refuse prepared e "base-ref-unavailable" ErrBaseMismatch
    | Ok ref =>
      if Ref_Name ref !=? fullHeadRef (Request_BaseRef req) then publish_unknown prepared
      else if Ref_SHA ref !=? Request_BaseSHA req then failed prepared "base-sha-mismatch" ErrBaseMismatch
      else CallGitHub (EnsureBranch repo (MkBranchRequest (branchName prepared) (Request_BaseSHA req))) (fun r =>
        match r with
        | Err e => refuse prepared e "branch-conflict" errDeterministicCommit
        | Ok branch =>
          if (Branch_Name branch !=? branchName prepared) || (Branch_SHA branch !=? Request_BaseSHA req) then publish_unknown prepared
          else CallGitHub (EnsureCommit repo (MkCommitRequest (branchName prepared) (Request_BaseSHA req) (clonePatch (patch prepared))
                 (Patch_Digest (patch prepared)) (ManifestDigest (patch prepared)) (commitMessage prepared) agwBotAuthor
                 (effectKey prepared))) (fun r =>
            match r with
            | Err e => refuse prepared e "commit-conflict" errDeterministicCommit
            | Ok commit =>
              if negb (validCommitResult commit prepared) then publish_unknown prepared
              else CallGitHub (EnsurePullRequest repo (MkPullRequestRequest (Request_BaseRef req) (branchName prepared)
                     (title prepared) (body prepared) (effectKey prepared))) (fun r =>
                match r with
                | Err e => refuse prepared e "pull-request-conflict" errDeterministicCommit
                | Ok pr =>
                  if negb (validPullRequestResult pr prepared) then publish_unknown prepared
                  else CallGitHub (EnsureLabels repo (MkLabelRequest (PR_Number pr) (labels prepared))) (fun r =>
                    match r with
                    | Err _ => publish_unknown prepared
                    | Ok _ =>
                      let result := MkPublished StateSucceeded (effectKey prepared) (requestDigest prepared) (branchName prepared)
                        (Commit_SHA commit) (PR_Number pr) (PR_URL pr) in
                      commitOutcome prepared (new_outcome prepared OutcomeSucceeded (resultDigest result) (encodeResult result))
                        (fun recorded => if recorded then Done (result, None) else unknownResult prepared)
                    end)
                end)
            end)
        end)
    end).

Definition empty_result (state : string) : Result := MkPublished state "" "" "" "" 0 "".

Definition publish_claim (prepared : preparedRequest) : Claim :=
  MkClaim 0 (effectKey prepared) (requestDigest prepared) Operation (Request_RunUID (request prepared)) zeroTime.

(** [Publish], with its context set. *)
Definition Publish (r : Request) : pub answer :=
  if PublishMode r =?= PublishNone then Done (empty_result StateSkipped, None)
  else if PublishMode r !=? PublishPullRequest then Done (empty_result "", Some ErrInvalidRequest)
  else match prepare r with
  | Err errRejectedEnforcing => Done (empty_result StateRejected, None)
  | Err e => Done (empty_result "", Some e)
  | Ok prepared =>
    CallClaim (publish_claim prepared) (fun a =>
      match a with
      | (_, Some ErrConflict) => Done (partial_result StateFailed prepared, Some errClaimConflict)
      | (_, Some _) => unknownResult prepared
      | (decision, None) => if Unknown decision || negb (Execute decision) then replay prepared else publish_granted prepared
      end)
  end.
