(* ===== verification/ToolPolicy.v ===== *)
(** * Tool capabilities (src/v3/pkg/toolpolicy/policy.go)

    First [path.Match] of the package path: [*] and [?] do not match a slash,
    classes and escapes as in the package; [None] stands for [ErrBadPattern]; the
    loops consume the pattern, so that its length is enough fuel.  Then the
    least-privilege decision before a tool call is dispatched.  The string types of
    the source are strings here; a raw JSON message is a slice, nil when no
    arguments are fixed. *)

From S2P Require Import Prelude GoStrings GoJson StrictJson.
Local Open Scope go_scope.
Local Open Scope string_scope.
Local Open Scope Z_scope.
Local Open Scope list_scope.

Definition star_byte : Z := 0x2A.
Definition question_byte : Z := 0x3F.
Definition open_byte : Z := 0x5B.
Definition close_byte : Z := 0x5D.
Definition escape_byte : Z := 0x5C.
Definition hyphen_byte : Z := 0x2D.
Definition caret_byte : Z := 0x5E.

(** [utf8.DecodeRuneInString]: the rune, whether it is well formed, and the rest. *)
Definition decode_first (l : list Z) : Z * bool * list Z :=
  match decode l with
  | [] => (RuneError, false, [])
  | (r, true) :: _ => (r, true, drop (length (encode_rune r)) l)
  | (r, false) :: _ => (r, false, drop 1 l)
  end.

Fixpoint scan_to (inrange : bool) (l : list Z) {struct l} : list Z * list Z :=
  match l with
  | [] => ([], [])
  | b :: rest =>
    if b =? escape_byte then
      match rest with
      | c :: rest' => let '(chunk, tail) := scan_to inrange rest' in (b :: c :: chunk, tail)
      | [] => ([b], [])
      end
    else if (b =? star_byte) && negb inrange then ([], l)
    else
      let inrange := if b =? open_byte then true else if b =? close_byte then false else inrange in
      let '(chunk, tail) := scan_to inrange rest in (b :: chunk, tail)
  end.

(** Whether a star comes first, the chunk after it, and the rest. *)
Definition scanChunk (pattern : list Z) : bool * list Z * list Z :=
  let rest := trim_left (Z.eqb star_byte) pattern in
  let '(chunk, tail) := scan_to false rest in
  (match pattern with b :: _ => b =? star_byte | [] => false end, chunk, tail).

Definition getEsc (chunk : list Z) : option (Z * list Z) :=
  match chunk with
  | [] => None
  | b :: rest =>
    if (b =? hyphen_byte) || (b =? close_byte) then None
    else
      let chunk := if b =? escape_byte then rest else chunk in
      let '(r, ok, nchunk) := decode_first chunk in
      if bool_decide (chunk = []) || negb ok || bool_decide (nchunk = []) then None else Some (r, nchunk)
  end.

(** The ranges of a class, up to its closing bracket. *)
Fixpoint class_ranges (fuel : nat) (r : Z) (first matched : bool) (chunk : list Z) : option (bool * list Z) :=
  match fuel with
  | O => None
  | S fuel =>
    match chunk with
    | b :: rest =>
      if (b =? close_byte) && negb first then Some (matched, rest)
      else
        '(lo, chunk) ← getEsc chunk;
        match chunk with
        | c :: rest =>
          if c =? hyphen_byte then
            '(hi, chunk) ← getEsc rest; class_ranges fuel r false (matched || between lo hi r) chunk
          else class_ranges fuel r false (matched || between lo lo r) chunk
        | [] => None
        end
    | [] => None
    end
  end.

(** [s] is [None] once the match has failed: the rest of the chunk is only
    checked.  The answer is what is left of the text. *)
Fixpoint matchChunk (fuel : nat) (chunk : list Z) (s : option (list Z)) : option (option (list Z)) :=
  match fuel, chunk with
  | _, [] => Some s
  | O, _ => None
  | S fuel, b :: rest =>
    let s := match s with Some [] => None | _ => s end in
    if b =? open_byte then
      let '(r, s) := match s with Some l => let '(r, _, l') := decode_first l in (r, Some l') | None => (0, None) end in
      let '(negated, rest) := match rest with c :: rest' => if c =? caret_byte then (true, rest') else (false, rest) | [] => (false, []) end in
      '(matched, rest) ← class_ranges (S (length rest)) r true false rest;
      matchChunk fuel rest (if Bool.eqb matched negated then None else s)
    else if b =? question_byte then
      matchChunk fuel rest (match s with
        | Some (c :: _ as l) => if c =? slash then None else Some (decode_first l).2
        | _ => None
        end)
    else
      let literal := fun c rest => matchChunk fuel rest (match s with Some (d :: l) => if c =? d then Some l else None | _ => None end) in
      if b =? escape_byte then match rest with c :: rest' => literal c rest' | [] => None end
      else literal b rest
  end.

Definition match_chunk (chunk s : list Z) : option (option (list Z)) := matchChunk (length chunk) chunk (Some s).

(** Looks for the chunk after a star, skipping bytes other than a slash. *)
Fixpoint skip_match (chunk : list Z) (last : bool) (name : list Z) : option (option (list Z)) :=
  match name with
  | b :: rest =>
    if b =? slash then Some None
    else match match_chunk chunk rest with
    | None => None
    | Some (Some t) => if last && negb (bool_decide (t = [])) then skip_match chunk last rest else Some (Some t)
    | Some None => skip_match chunk last rest
    end
  | [] => Some None
  end.

(** The remainder of a pattern that does not match must be well formed. *)
Fixpoint check_rest (fuel : nat) (pattern : list Z) : bool :=
  match fuel, pattern with
  | _, [] => true
  | O, _ => false
  | S fuel, _ =>
    let '(_, chunk, rest) := scanChunk pattern in
    match match_chunk chunk [] with None => false | Some _ => check_rest fuel rest end
  end.

Fixpoint match_loop (fuel : nat) (pattern name : list Z) : option bool :=
  match fuel, pattern with
  | _, [] => Some (bool_decide (name = []))
  | O, _ => None
  | S fuel, _ =>
    let '(star, chunk, rest) := scanChunk pattern in
    let last := bool_decide (rest = []) in
    if star && bool_decide (chunk = []) then Some (negb (existsb (Z.eqb slash) name))
    else
      let fail := if check_rest (length rest) rest then Some false else None in
      let skip := if star then
          match skip_match chunk last name with
          | None => None
          | Some (Some t) => match_loop fuel rest t
          | Some None => fail
          end else fail in
      match match_chunk chunk name with
      | None => None
      | Some (Some t) => if bool_decide (t = []) || negb last then match_loop fuel rest t else skip
      | Some None => skip
      end
  end.

Definition path_Match (pattern name : string) : option bool :=
  match_loop (length (bytes pattern)) (bytes pattern) (bytes name).

Example path_match_tests :
  map (fun '(p, n) => path_Match p n)
    [("abc", "abc"); ("*", "abc"); ("*c", "abc"); ("a*/b", "a/c/b"); ("a*b*c*d*e*/f", "axbxcxdxe/f"); ("ab[c]", "abc");
     ("ab[e-g]", "abc"); ("ab[^e-g]", "abc"); ("a\*b", "a*b"); ("[]a]", "]"); ("[", "a"); ("a[", "ab"); ("*x", "xxx"); ("a?b", "a/b");
     ("github:repo:owner/*", "github:repo:owner/repo"); ("", "")]
  = [Some true; Some true; Some true; Some false; Some true; Some true; Some false; Some true; Some true; None; None; None;
     Some true; Some false; Some true; Some true].
Proof. vm_compute. reflexivity. Qed.

Definition Policy_EffectRead : string := "read".
Definition Policy_EffectWrite : string := "write".
Definition Policy_EffectUnknown : string := "unknown".

Definition ApprovalDeny : string := "deny".
Definition ApprovalAllow : string := "allow".
Definition ApprovalRequired : string := "approve".
Definition ApprovalProposeCommit : string := "propose/commit".

Record Grant : Type := MkGrant {
  Grant_Server : string;
  Grant_Tool : string;
  Resources : list string;
  Grant_Effect : string;
  Approval : string;
  Grant_Arguments : slice Z
}.

Record ToolRequest : Type := MkToolRequest {
  ToolRequest_Server : string;
  ToolRequest_Tool : string;
  ToolRequest_Resource : string;
  ToolRequest_Arguments : list Z;
  ToolRequest_Approved : bool
}.

Record ToolDecision : Type := MkToolDecision {
  Allowed : bool;
  NeedsApproval : bool;
  ToolDecision_Reason : string;
  EffectiveEffect : string
}.

Definition meta_bytes : string := "*?[".

Definition resourceAllowed (patterns : list string) (resource : string) : bool :=
  match patterns with
  | [] => resource =?= ""
  | _ =>
    existsb (fun pattern =>
      (pattern =?= resource) ||
      (ContainsAny pattern meta_bytes && bool_decide (path_Match pattern resource = Some true))) patterns
  end.

Definition exactJSONEqual (expected actual : list Z) : bool := EqualObjects expected actual.

(** Whether the loop stops at a grant. *)
Definition grant_matches (request : ToolRequest) (grant : Grant) : bool :=
  (Grant_Server grant =?= ToolRequest_Server request) && (Grant_Tool grant =?= ToolRequest_Tool request) &&
  resourceAllowed (Resources grant) (ToolRequest_Resource request) &&
  match Grant_Arguments grant with
  | Some expected => exactJSONEqual expected (ToolRequest_Arguments request)
  | None => true
  end.

Definition decide_grant (request : ToolRequest) (grant : Grant) : ToolDecision :=
  let effect := if (Grant_Effect grant =?= "") || (Grant_Effect grant =?= Policy_EffectUnknown) then Policy_EffectWrite
                else Grant_Effect grant in
  let mode := if Approval grant =?= "" then (if effect =?= Policy_EffectRead then ApprovalAllow else ApprovalRequired)
              else Approval grant in
  if mode =?= ApprovalDeny then MkToolDecision false false "capability is explicitly denied" effect
  else if (mode =?= ApprovalRequired) || (mode =?= ApprovalProposeCommit) then
    if negb (ToolRequest_Approved request) then MkToolDecision false true "approval is required" effect
    else MkToolDecision true false "approved capability" effect
  else if mode =?= ApprovalAllow then MkToolDecision true false "capability grant permits call" effect
  else MkToolDecision false false "invalid approval mode" effect.

Fixpoint Policy_Evaluate (grants : list Grant) (request : ToolRequest) : ToolDecision :=
  match grants with
  | [] => MkToolDecision false false "no matching capability grant" Policy_EffectUnknown
  | grant :: rest => if grant_matches request grant then decide_grant request grant else Policy_Evaluate rest request
  end.

(** A call is allowed only by a grant that matches it and asks for no more
    approval than the call has. *)
Lemma allowed_by_grant grants request : Allowed (Policy_Evaluate grants request) = true ->
  exists grant, grant ∈ grants /\ grant_matches request grant = true /\
    (ToolRequest_Approved request = true \/ Approval grant = ApprovalAllow \/
     Approval grant = "" /\ Grant_Effect grant = Policy_EffectRead).
Proof.
  induction grants as [|g grants IH]; [done|]. cbn [Policy_Evaluate]. destruct (grant_matches request g) eqn:Hg.
  - intros H. exists g. split_and!; [by left|done|]. revert H. unfold decide_grant.
    destruct (ToolRequest_Approved request); [by left|]. cbn [negb]. cbv zeta.
    destruct (Grant_Effect g =?= "") eqn:E1, (Grant_Effect g =?= Policy_EffectUnknown) eqn:E2; cbn [orb];
      repeat case_bool_decide; cbn; naive_solver.
  - intros H. destruct (IH H) as (g' & Hin & Hrest). exists g'. split; [by right|done].
Qed.
