(* ===== verification/BrokerData.v ===== *)
(** * The broker: limits, errors and compiled contract (src/v3/internal/broker/broker.go)

    A broker is built for one run from a resolved tool set and model route.  The
    compiled maps are finite maps; nothing of them changes after construction. *)

From S2P Require Import Prelude GoStrings GoJson.
Local Open Scope go_scope.
Local Open Scope string_scope.
Local Open Scope Z_scope.
Local Open Scope list_scope.

Definition DefaultMaxToolCalls : Z := 1000.
Definition DefaultMaxModelRequests : Z := 1000.
Definition DefaultMaxModelTokens : Z := 1000000.
Definition DefaultMaxMCPRequestBytes : Z := Z.shiftl 1 20.
Definition DefaultMaxMCPResponseBytes : Z := Z.shiftl 8 20.
Definition DefaultMaxToolResultBytes : Z := Z.shiftl 32 10.
Definition DefaultMaxModelRequestBytes : Z := Z.shiftl 1 20.
Definition DefaultMaxModelResponseBytes : Z := Z.shiftl 32 20.
Definition DefaultMaxArtifactBytes : Z := Z.shiftl 8 20.
Definition MaxConfiguredToolCalls : Z := 10000.
Definition MaxConfiguredModelRequests : Z := 1000000.
Definition MaxConfiguredModelTokens : Z := 1000000000.
Definition MaxCredentialBytes : Z := Z.shiftl 16 10.
Definition MaxProviderNameBytes : Z := 128.
Definition MaxModelNameBytes : Z := 256.
Definition MaxEndpointBytes : Z := 2048.
Definition MaxToolNameBytes : Z := 253.
Definition MaxCallArgumentsBytes : Z := Z.shiftl 1 20.

(** [ErrContext] is the error of a context that is done. *)
Inductive broker_error : Type :=
| ErrInvalidConfig
| ErrBrokerRequest
| ErrDenied
| ErrApprovalRequired
| ErrBudgetExceeded
| ErrCredentialUnavailable
| ErrEffectLedgerUnavailable
| ErrEffectAlreadyClaimed
| ErrBrokerUnknownEffect
| ErrUpstreamUnavailable
| ErrUpstreamInvalid
| ErrUnsupportedProvider
| ErrPhaseTransitionDenied
| ErrPhaseDenied
| ErrToolResultUnavailable
| ErrToolResultInvalid
| ErrContext.
#[global] Instance broker_error_eq_dec : EqDecision broker_error.
Proof. solve_decision. Defined.

(** The effects of the API and the profiles of a tool set. *)
Definition EffectRead : string := "read".
Definition EffectWrite : string := "write".
Definition EffectPublish : string := "publish".
Definition ToolProfileExplore : string := "explore".
Definition ToolProfileEdit : string := "edit".
Definition ToolProfileVerify : string := "verify".
Definition MaxToolsPerPhase : Z := 12.

Definition BrokerModeAgent : string := "agent".
Definition BrokerModeVerifier : string := "verifier".

(** ** The resolved specification *)

(** Fixed arguments: how many members they have, and the object as [json.Marshal]
    writes it, [None] when a member is not JSON. *)
Record exact_arguments_spec : Type := MkExact { exact_count : Z; exact_encoded : option (list Z) }.
Record ToolDefinition : Type := MkToolDefinition {
  ToolDefinition_Name : string;
  ToolDefinition_Effect : string;
  ExactArguments : option exact_arguments_spec
}.
Record ToolServer : Type := MkToolServer {
  ToolServer_Name : string;
  ToolServer_Ref : string;
  CredentialsRef : string;
  ToolServer_Tools : list ToolDefinition
}.
Record ToolRef : Type := MkToolRef { ToolRef_Server : string; ToolRef_Tool : string }.
Record ToolProfile : Type := MkToolProfile { ToolProfile_Name : string; ToolProfile_Tools : list ToolRef }.
Record ToolSetSpec : Type := MkToolSet {
  Servers : list ToolServer;
  Profiles : list ToolProfile;
  Spec_MaxToolsPerPhase : Z
}.

Record ModelProvider : Type := MkProvider {
  Provider_Name : string;
  Provider_Kind : string;
  Provider_Model : string;
  Provider_CredentialRef : string;
  Provider_Priority : Z
}.
Record ModelBudget : Type := MkBudget { MaxCostUSD : string; MaxTokens : Z; MaxRequests : Z }.
Record ModelRouteSpec : Type := MkRoute { Providers : list ModelProvider; Budget : ModelBudget }.

(** ** The compiled contract *)

Record compiledServer : Type := MkServer { server_name : string; server_endpoint : string; server_credentialRef : string }.
Record compiledTool : Type := MkTool {
  tool_name : string;
  tool_server : string;
  tool_effect : string;
  tool_policyEffect : string;
  tool_exactArgs : slice Z
}.
Record compiledProvider : Type := MkCompiledProvider {
  provider_name : string;
  provider_kind : string;
  provider_model : string;
  provider_credentialRef : string;
  provider_endpoint : string;
  provider_priority : Z
}.

Record limits : Type := MkLimits {
  maxToolCalls : Z;
  maxMCPRequest : Z;
  maxMCPResponse : Z;
  maxToolResult : Z;
  maxModelRequest : Z;
  maxModelResponse : Z;
  maxArtifact : Z
}.

(** The counters a lock protects; the last four never change. *)
Record budgetState : Type := MkBudgetState {
  toolCalls : Z;
  modelRequests : Z;
  modelTokens : Z;
  modelCostMicros : Z;
  reservedTokens : Z;
  reservedCost : Z;
  budget_maxToolCalls : Z;
  maxRequests : Z;
  maxTokens : Z;
  maxCostMicros : Z
}.

(** What a provider charges, by provider, model, input and output tokens. *)
Notation estimator := (string -> string -> Z -> Z -> option Z).

(** The parts of a broker that do not change.  The interfaces of the
    configuration are present or not. *)
Record Broker : Type := MkBroker {
  broker_runUID : string;
  broker_specDigest : string;
  broker_baseSHA : string;
  broker_servers : gmap string compiledServer;
  broker_tools : gmap string compiledTool;
  broker_profiles : gmap string (gmap string compiledTool);
  broker_providers : list compiledProvider;
  broker_credentials : bool;
  broker_pricing : option estimator;
  broker_limits : limits;
  requireApproval : bool;
  broker_mode : string;
  broker_phaseAuthorizer : bool
}.

(** The parts that change. *)
Record broker_state : Type := MkBrokerState { phase : string; budget : budgetState }.

(** The immutable execution contract a broker is built from. *)
Record Config : Type := MkConfig {
  Config_RunUID : string;
  Config_SpecDigest : string;
  Config_BaseSHA : string;
  ToolSet : ToolSetSpec;
  ModelRoute : ModelRouteSpec;
  Config_Mode : string;
  Config_PhaseAuthorizer : bool;
  Config_Credentials : bool;
  Config_Effects : bool;
  Config_Pricing : option estimator;
  WorkspaceRoot : string;
  ContextRoot : string;
  Contract_Digest : string;
  Contract_BaseSHA : string;
  Contract_SpecDigest : string;
  ProviderEndpoints : gmap string string;
  MaxToolCalls : Z;
  Config_MaxCostUSD : string;
  MaxModelRequests : Z;
  MaxModelTokens : Z;
  MaxMCPRequestBytes : Z;
  MaxMCPResponseBytes : Z;
  MaxToolResultBytes : Z;
  MaxModelRequestBytes : Z;
  MaxModelResponseBytes : Z;
  MaxArtifactBytes : Z;
  RequireApprovalForMutations : bool
}.
