(* ===== verification/Transport.v ===== *)
(** * Outbound connections of the broker (src/v3/internal/broker/transport.go)

    Endpoints are checked when the broker is built, and every connection resolves
    its host and is refused unless all answers are public addresses. *)

From S2P Require Import Prelude GoStrings Ip Url BrokerData.
Local Open Scope go_scope.
Local Open Scope string_scope.
Local Open Scope Z_scope.
Local Open Scope list_scope.

(** ** Names *)

Definition label_byte (r : Z) : bool := is_alpha r || is_digit r || (r =? 0x2D).

Definition valid_label (byte : Z -> bool) (label : string) : bool :=
  negb ((label =?= "") || (63 <? len label) || (default 0 (head (bytes label)) =? 0x2D) ||
        (default 0 (last (bytes label)) =? 0x2D)) && forallb byte (runes label).

(** Names with bytes outside ASCII are refused by their labels, so folding of
    ASCII letters is all of [EqualFold] that matters. *)
Definition safeHostname (host : string) : bool :=
  if (host =?= "") || (253 <? len host) || (to_lower (bytes host) =?= bytes "localhost") || HasSuffix host "." ||
     ContainsAny host (of_bytes [0x20; 0x09; 0x0D; 0x0A; 0]) then false
  else forallb (valid_label label_byte) (Split host dot_byte).

(** ** Addresses *)

(** [ip & CIDRMask(ones, bits)], byte by byte. *)
Definition mask_byte (ones : nat) (b : Z) : Z := Z.land b (Z.land (Z.shiftl 0xFF (8 - Z.of_nat (ones `min` 8))) 0xFF).
Fixpoint masked (ones : nat) (ip : list Z) : list Z :=
  match ip with
  | [] => []
  | b :: rest => mask_byte ones b :: masked (ones - 8) rest
  end.

Record IPNet : Type := MkNet { net_ip : list Z; net_ones : nat }.

(** [Contains], on an address in its shortest form. *)
Definition net_contains (block : IPNet) (ip : list Z) : bool :=
  (slen ip =? slen (net_ip block)) && bool_decide (masked (net_ones block) (net_ip block) = masked (net_ones block) ip).

Definition v4 (a b c d : Z) (ones : nat) : IPNet := MkNet [a; b; c; d] ones.
(** The leading bytes of a block, the rest zero. *)
Definition v6 (lead : list Z) (ones : nat) : IPNet := MkNet (lead ++ repeat 0 (16 - length lead)) ones.

Definition specialUseBlocks : list IPNet :=
  [v4 0 0 0 0 8; v4 100 64 0 0 10; v4 192 0 0 0 24; v4 192 0 2 0 24;
   v4 192 88 99 0 24; v4 198 18 0 0 15; v4 198 51 100 0 24; v4 203 0 113 0 24; v4 240 0 0 0 4;
   v6 [] 128; v6 (repeat 0 15 ++ [1]) 128; v6 [0x01; 0x00] 64; v6 [0x20; 0x01; 0x00; 0x02] 48; v6 [0x20; 0x01; 0x00; 0x10] 28;
   v6 [0x20; 0x01; 0x0D; 0xB8] 32; v6 [0xFC; 0x00] 7; v6 [0xFE; 0x80] 10; v6 [0xFE; 0xC0] 10].

Definition byte_at (ip : list Z) (i : nat) : Z := default 0 (ip !! i).

(** The predicates of [net.IP] on an address of four or of sixteen bytes that is
    not a mapped one. *)
Section Predicates.
Context (ip : list Z).
Notation at_ i := (byte_at ip i).
Definition is_v4 : bool := slen ip =? 4.

Definition IsUnspecified : bool := bool_decide (ip = repeat 0 (length ip)).
Definition IsLoopback : bool := if is_v4 then at_ 0 =? 127 else bool_decide (ip = repeat 0 15 ++ [1]).
Definition IsPrivate : bool :=
  if is_v4 then (at_ 0 =? 10) || ((at_ 0 =? 172) && (Z.land (at_ 1) 0xF0 =? 16)) || ((at_ 0 =? 192) && (at_ 1 =? 168))
  else (slen ip =? 16) && (Z.land (at_ 0) 0xFE =? 0xFC).
Definition IsMulticast : bool :=
  if is_v4 then Z.land (at_ 0) 0xF0 =? 0xE0 else (slen ip =? 16) && (at_ 0 =? 0xFF).
Definition IsLinkLocalMulticast : bool :=
  if is_v4 then (at_ 0 =? 224) && (at_ 1 =? 0) && (at_ 2 =? 0)
  else (slen ip =? 16) && (at_ 0 =? 0xFF) && (Z.land (at_ 1) 0x0F =? 0x02).
Definition IsLinkLocalUnicast : bool :=
  if is_v4 then (at_ 0 =? 169) && (at_ 1 =? 254)
  else (slen ip =? 16) && (at_ 0 =? 0xFE) && (Z.land (at_ 1) 0xC0 =? 0x80).
Definition IsGlobalUnicast : bool :=
  ((slen ip =? 4) || (slen ip =? 16)) && negb (bool_decide (ip = [255; 255; 255; 255])) && negb IsUnspecified &&
  negb IsLoopback && negb IsMulticast && negb IsLinkLocalUnicast.
End Predicates.

(** The form [isPublicIP] works on; [None] for a nil or malformed address. *)
Definition shortest (ip : list Z) : option (list Z) :=
  match To4 ip with
  | Some short => Some short
  | None => if slen ip =? 16 then Some ip else None
  end.

Definition isPublicIP (ip : list Z) : bool :=
  match shortest ip with
  | None => false
  | Some ip =>
    if IsUnspecified ip || IsLoopback ip || IsPrivate ip || IsLinkLocalUnicast ip || IsLinkLocalMulticast ip ||
       IsMulticast ip || negb (IsGlobalUnicast ip) then false
    else negb (existsb (fun block => net_contains block ip) specialUseBlocks)
  end.

(** The address a connection goes to, from the answer of the resolver. *)
Fixpoint select_address (selected : option (list Z)) (ips : list (list Z)) : option (list Z) :=
  match ips with
  | [] => selected
  | ip :: rest =>
    if negb (isPublicIP ip) then None
    else select_address (match selected with None => Some ip | _ => selected end) rest
  end.

(** ** Endpoints *)

Definition parse_port (s : string) : option Z :=
  if forallb is_digit (bytes s) && negb (s =?= "") then
    let n := foldl (fun acc c => 10 * acc + (c - 0x30)) 0 (bytes s) in if n <=? 2 ^ 63 - 1 then Some n else None
  else None.

Definition bad_path (p : string) : bool :=
  (p =?= "") || negb (HasPrefix p "/") || Contains p "\" || Contains p "//" || Contains p "/../" || HasSuffix p "/..".

Definition validatePublicEndpoint (raw kind : string) : result broker_error string :=
  if (raw =?= "") || (MaxEndpointBytes <? len raw) || (TrimSpace raw !=? raw) then Err ErrInvalidConfig
  else match url_Parse raw with
  | None => Err ErrInvalidConfig
  | Some parsed =>
    if (Scheme parsed !=? "https") || (Host parsed =?= "") || (Hostname parsed =?= "") || has_user parsed ||
       (RawQuery parsed !=? "") || ForceQuery parsed || (Fragment parsed !=? "") || (Opaque parsed !=? "") ||
       (RawPath parsed !=? "") then Err ErrInvalidConfig
    else if bad_path (Path parsed) then Err ErrInvalidConfig
    else if (Port parsed !=? "") &&
            match parse_port (Port parsed) with Some n => (n <? 1) || (65535 <? n) | None => true end then Err ErrInvalidConfig
    else if negb match ParseIP (Hostname parsed) with
                 | Some ip => isPublicIP ip
                 | None => safeHostname (Hostname parsed)
                 end then Err ErrInvalidConfig
    else if (kind =?= "mcp") && (Path parsed =?= "/") then Err ErrInvalidConfig
    else Ok (url_String parsed)
  end.

Definition validate_path (raw kind want : string) : result broker_error string :=
  let? validated := validatePublicEndpoint raw kind in
  match url_Parse validated with
  | None => Err ErrInvalidConfig
  | Some parsed => if Path parsed !=? want then Err ErrInvalidConfig else Ok validated
  end.

Definition validateResponsesProviderEndpoint (raw kind : string) : result broker_error string :=
  validate_path raw "responses" (if kind =?= "openrouter-responses" then "/api/v1/responses" else "/v1/responses").
Definition validateAnthropicProviderEndpoint (raw kind : string) : result broker_error string :=
  validate_path raw "messages" (if kind =?= "openrouter-anthropic-messages" then "/api/v1/messages" else "/v1/messages").

Example endpoint_tests :
  map (fun s => match validatePublicEndpoint s "mcp" with Ok u => u | Err _ => "" end)
    ["https://mcp.example.com/v1"; "http://mcp.example.com/v1"; "https://10.0.0.1/v1"; "https://[::ffff:127.0.0.1]/v1";
     "https://8.8.8.8:443/v1"; "https://LocalHost/v1"; "https://h/"; "https://h:0/x"; "https://u@h/x"; "https://h/a/../b"]
  = ["https://mcp.example.com/v1"; ""; ""; ""; "https://8.8.8.8:443/v1"; ""; ""; ""; ""; ""].
Proof. vm_compute. reflexivity. Qed.
