(* ===== verification/TransportSpec.v ===== *)
(** * Which addresses a connection may go to *)

From S2P Require Import Prelude GoStrings Ip Url BrokerData Transport.
Local Open Scope go_scope.
Local Open Scope string_scope.
Local Open Scope Z_scope.
Local Open Scope list_scope.

(** ** Addresses as numbers *)

Definition value (ip : list Z) : Z := foldl (fun acc b => 256 * acc + b) 0 ip.
Definition all_bytes (ip : list Z) : Prop := Forall is_byte ip.

Lemma value_from acc ip : foldl (fun acc b => 256 * acc + b) acc ip = acc * 256 ^ slen ip + value ip.
Proof.
  unfold value. revert acc. induction ip as [|b ip IH]; intros acc; [unfold slen; cbn; lia|]. cbn [foldl]. rewrite IH, (IH (256 * 0 + b)).
  unfold slen. cbn [length]. rewrite Nat2Z.inj_succ, Z.pow_succ_r by lia. ring.
Qed.

Lemma value_cons b ip : value (b :: ip) = b * 256 ^ slen ip + value ip.
Proof. unfold value at 1. cbn [foldl]. by rewrite value_from. Qed.

Lemma value_bound ip : all_bytes ip -> 0 <= value ip < 256 ^ slen ip.
Proof.
  induction 1 as [|b ip Hb _ IH]; [unfold slen; cbn; lia|]. rewrite value_cons. unfold slen in *. cbn [length].
  rewrite Nat2Z.inj_succ, Z.pow_succ_r by lia. unfold is_byte in Hb. nia.
Qed.

(** ** Masks *)

Lemma mask_byte_quot (n : nat) b : (n <= 8)%nat -> is_byte b -> mask_byte n b = 2 ^ (8 - Z.of_nat n) * (b / 2 ^ (8 - Z.of_nat n)).
Proof.
  intros Hn Hb. assert (Hall : forallb (fun n => forallb (fun b => mask_byte n b =? 2 ^ (8 - Z.of_nat n) * (b / 2 ^ (8 - Z.of_nat n)))
    (map Z.of_nat (seq 0 256))) (seq 0 9) = true) by (vm_compute; reflexivity).
  rewrite forallb_forall in Hall. specialize (Hall n ltac:(apply in_seq; lia)). rewrite forallb_forall in Hall. apply Z.eqb_eq, Hall, in_map_iff.
  unfold is_byte in Hb. exists (Z.to_nat b). split; [lia|]. apply in_seq. lia.
Qed.

Lemma mask_byte_full (n : nat) b : (8 <= n)%nat -> is_byte b -> mask_byte n b = b.
Proof.
  intros Hn Hb. unfold mask_byte. replace (n `min` 8)%nat with (8 `min` 8)%nat by lia. fold (mask_byte 8 b).
  rewrite (mask_byte_quot 8) by done. change (2 ^ (8 - Z.of_nat 8)) with 1. rewrite Z.div_1_r. lia.
Qed.

Lemma masked_zero ip : all_bytes ip -> masked 0 ip = repeat 0 (length ip).
Proof.
  induction 1 as [|b ip Hb _ IH]; [done|]. cbn [masked length repeat]. change (0 - 8)%nat with 0%nat. rewrite IH. f_equal. rewrite (mask_byte_quot 0) by (done || lia).
  change (2 ^ (8 - Z.of_nat 0)) with 256. unfold is_byte in Hb. rewrite Z.div_small by lia. lia.
Qed.

(** Masks agree exactly when the numbers agree in their leading bits. *)
Lemma masked_quotient ip : forall ip' (n : nat), all_bytes ip -> all_bytes ip' -> length ip = length ip' -> (n <= 8 * length ip)%nat ->
  masked n ip = masked n ip' <-> value ip / 2 ^ (8 * slen ip - Z.of_nat n) = value ip' / 2 ^ (8 * slen ip - Z.of_nat n).
Proof.
  induction ip as [|b ip IH]; intros [|b' ip'] n Hb Hb' Hl Hn; try done. inversion_clear Hb as [|? ? Bb Bip]. inversion_clear Hb' as [|? ? Bb' Bip'].
  injection Hl as Hl. cbn [length] in Hn. rewrite !value_cons. assert (Hs : slen ip' = slen ip) by (unfold slen; by rewrite Hl). rewrite Hs.
  assert (Hlen : slen (b :: ip) = slen ip + 1) by (unfold slen; cbn [length]; lia). rewrite Hlen. assert (Hk : 0 <= slen ip) by (unfold slen; lia).
  pose proof (value_bound _ Bip) as V. pose proof (value_bound _ Bip') as V'. rewrite Hs in V'. change 256 with (2 ^ 8) in *. rewrite <- Z.pow_mul_r in * by lia.
  cbn [masked]. destruct (decide (8 <= n)%nat) as [Hge|Hlt].
  - rewrite !mask_byte_full by done. set (m := 8 * (slen ip + 1) - Z.of_nat n).
    assert (Hm : m = 8 * slen ip - Z.of_nat (n - 8)) by lia. assert (Hm0 : 0 <= m) by (unfold m, slen; lia).
    assert (Hsplit : 2 ^ (8 * slen ip) = 2 ^ Z.of_nat (n - 8) * 2 ^ m) by (rewrite <- Z.pow_add_r by lia; f_equal; lia).
    assert (Hpos : 0 < 2 ^ m) by (by apply Z.pow_pos_nonneg). rewrite Hsplit in *. rewrite !Z.mul_assoc, !Z.div_add_l by lia.
    assert (Q : 0 <= value ip / 2 ^ m < 2 ^ Z.of_nat (n - 8)) by (split; [apply Z.div_pos; lia|apply Z.div_lt_upper_bound; lia]).
    assert (Q' : 0 <= value ip' / 2 ^ m < 2 ^ Z.of_nat (n - 8)) by (split; [apply Z.div_pos; lia|apply Z.div_lt_upper_bound; lia]).
    specialize (IH ip' (n - 8)%nat Bip Bip' Hl ltac:(lia)). rewrite <- Hm in IH. split.
    + intros [= -> Hrest]. by rewrite (proj1 IH Hrest).
    + intros E. assert (b = b') as -> by nia. f_equal. apply IH. nia.
  - rewrite !(mask_byte_quot n) by (done || lia). replace (n - 8)%nat with 0%nat by lia. rewrite !masked_zero by done. rewrite <- Hl.
    assert (Hsplit : 2 ^ (8 * (slen ip + 1) - Z.of_nat n) = 2 ^ (8 * slen ip) * 2 ^ (8 - Z.of_nat n)) by (rewrite <- Z.pow_add_r by lia; f_equal; lia).
    assert (Hp : 0 < 2 ^ (8 * slen ip)) by (apply Z.pow_pos_nonneg; lia). assert (Hp' : 0 < 2 ^ (8 - Z.of_nat n)) by (apply Z.pow_pos_nonneg; lia).
    rewrite Hsplit, <- !Z.div_div, !Z.div_add_l, !(Z.div_small (value _)) , !Z.add_0_r by lia. split; [intros [= E]; nia|intros ->; done].
Qed.

(** ** The reserved blocks *)

(** A block of addresses of a width: those that share its leading bits. *)
Record block : Type := MkBlock { block_base : list Z; block_ones : nat }.
Definition inside (width : Z) (v : Z) (k : block) : Prop :=
  v / 2 ^ (width - Z.of_nat (block_ones k)) = value (block_base k) / 2 ^ (width - Z.of_nat (block_ones k)).

Definition reserved_v4 : list block := [
  MkBlock [0; 0; 0; 0] 8; MkBlock [10; 0; 0; 0] 8; MkBlock [100; 64; 0; 0] 10; MkBlock [127; 0; 0; 0] 8; MkBlock [169; 254; 0; 0] 16;
  MkBlock [172; 16; 0; 0] 12; MkBlock [192; 0; 0; 0] 24; MkBlock [192; 0; 2; 0] 24; MkBlock [192; 88; 99; 0] 24; MkBlock [192; 168; 0; 0] 16;
  MkBlock [198; 18; 0; 0] 15; MkBlock [198; 51; 100; 0] 24; MkBlock [203; 0; 113; 0] 24; MkBlock [224; 0; 0; 0] 4; MkBlock [240; 0; 0; 0] 4].

Definition long (lead : list Z) : list Z := lead ++ repeat 0 (16 - length lead).
Definition reserved_v6 : list block := [
  MkBlock (long []) 128; MkBlock (repeat 0 15 ++ [1]) 128; MkBlock (long [0x01; 0x00]) 64; MkBlock (long [0x20; 0x01; 0x00; 0x02]) 48;
  MkBlock (long [0x20; 0x01; 0x00; 0x10]) 28; MkBlock (long [0x20; 0x01; 0x0D; 0xB8]) 32; MkBlock (long [0xFC; 0x00]) 7; MkBlock (long [0xFE; 0x80]) 10;
  MkBlock (long [0xFE; 0xC0]) 10; MkBlock (long [0xFF]) 8].

(** A public address is outside the blocks of its version; an IPv4 address that is
    mapped into IPv6 counts as the IPv4 address. *)
Definition public_v4 (v : Z) : Prop := Forall (fun k => ~ inside 32 v k) reserved_v4.
Definition public_address (ip : list Z) : Prop :=
  length ip = 4%nat /\ public_v4 (value ip) \/
  length ip = 16%nat /\ (if value ip / 2 ^ 32 =? 0xFFFF then public_v4 (value ip mod 2 ^ 32) else Forall (fun k => ~ inside 128 (value ip) k) reserved_v6).

(** A network of the code contains what is inside its block. *)
Lemma contains_inside width net ones ip : all_bytes net -> all_bytes ip -> width = 8 * slen ip -> slen net = slen ip -> (ones <= 8 * length ip)%nat ->
  net_contains (MkNet net ones) ip = true <-> inside width (value ip) (MkBlock net ones).
Proof.
  intros Hn Hi -> Hl Ho. unfold net_contains, inside. cbn [net_ip net_ones block_base block_ones].
  rewrite andb_true_iff, Z.eqb_eq, bool_decide_eq_true. rewrite masked_quotient by (done || unfold slen in *; lia). rewrite Hl. naive_solver.
Qed.

Lemma value4 a b c d : value [a; b; c; d] = 16777216 * a + 65536 * b + 256 * c + d.
Proof. unfold value. cbn [foldl]. lia. Qed.

Lemma land_high b mask n : (mask, n) ∈ [(0xF0, 4); (0xFE, 1); (0xC0, 6)] -> is_byte b -> Z.land b mask = 2 ^ n * (b / 2 ^ n).
Proof.
  intros Hm Hb. assert (Hall : forallb (fun m => forallb (fun b => Z.land b m.1 =? 2 ^ m.2 * (b / 2 ^ m.2)) (map Z.of_nat (seq 0 256)))
    [(0xF0, 4); (0xFE, 1); (0xC0, 6)] = true) by (vm_compute; reflexivity).
  rewrite forallb_forall in Hall. apply list_elem_of_In in Hm. specialize (Hall _ Hm). rewrite forallb_forall in Hall.
  apply Z.eqb_eq, (Hall b), in_map_iff. unfold is_byte in Hb. exists (Z.to_nat b). split; [lia|]. apply in_seq. lia.
Qed.

(** The blocks that the predicates of [net.IP] cover, for four bytes. *)
Section Four.
Context (a b c d : Z) (Ha : is_byte a) (Hb : is_byte b) (Hc : is_byte c) (Hd : is_byte d).
Notation ip := [a; b; c; d].
Notation within base ones := (inside 32 (value ip) (MkBlock base ones)).

Ltac blocks := unfold inside; cbn [block_base block_ones]; rewrite !value4; unfold is_byte in *;
  repeat match goal with |- context [2 ^ (32 - Z.of_nat ?n)] => let v := eval vm_compute in (2 ^ (32 - Z.of_nat n)) in change (2 ^ (32 - Z.of_nat n)) with v end.
Ltac by_division := Z.to_euclidean_division_equations; lia.

Lemma loopback4 : IsLoopback ip = true <-> within [127; 0; 0; 0] 8.
Proof. change (IsLoopback ip) with (a =? 127). blocks. rewrite Z.eqb_eq. by_division. Qed.
Lemma private4 : IsPrivate ip = true <-> within [10; 0; 0; 0] 8 \/ within [172; 16; 0; 0] 12 \/ within [192; 168; 0; 0] 16.
Proof.
  change (IsPrivate ip) with ((a =? 10) || ((a =? 172) && (Z.land b 0xF0 =? 16)) || ((a =? 192) && (b =? 168))).
  rewrite (land_high b 0xF0 4) by (done || set_solver). change (2 ^ 4) with 16. blocks. rewrite !orb_true_iff, !andb_true_iff, !Z.eqb_eq. by_division.
Qed.
Lemma link_local4 : IsLinkLocalUnicast ip = true <-> within [169; 254; 0; 0] 16.
Proof. change (IsLinkLocalUnicast ip) with ((a =? 169) && (b =? 254)). blocks. rewrite andb_true_iff, !Z.eqb_eq. by_division. Qed.
Lemma multicast4 : IsMulticast ip = true <-> within [224; 0; 0; 0] 4.
Proof. change (IsMulticast ip) with (Z.land a 0xF0 =? 0xE0). rewrite (land_high a 0xF0 4) by (done || set_solver). change (2 ^ 4) with 16. blocks. rewrite Z.eqb_eq. by_division. Qed.
Lemma link_multicast4 : IsLinkLocalMulticast ip = true -> within [224; 0; 0; 0] 4.
Proof. change (IsLinkLocalMulticast ip) with ((a =? 224) && (b =? 0) && (c =? 0)). blocks. rewrite !andb_true_iff, !Z.eqb_eq. by_division. Qed.
Lemma unspecified4 : IsUnspecified ip = true -> within [0; 0; 0; 0] 8.
Proof. unfold IsUnspecified. rewrite bool_decide_eq_true. intros [= -> -> -> ->]. reflexivity. Qed.
Lemma broadcast4 : ip = [255; 255; 255; 255] -> within [240; 0; 0; 0] 4.
Proof. intros [= -> -> -> ->]. reflexivity. Qed.
End Four.

(** ** The equivalence *)

Definition net_of (k : block) : IPNet := MkNet (block_base k) (block_ones k).
Definition special_v4 : list block := [
  MkBlock [0; 0; 0; 0] 8; MkBlock [100; 64; 0; 0] 10; MkBlock [192; 0; 0; 0] 24; MkBlock [192; 0; 2; 0] 24; MkBlock [192; 88; 99; 0] 24;
  MkBlock [198; 18; 0; 0] 15; MkBlock [198; 51; 100; 0] 24; MkBlock [203; 0; 113; 0] 24; MkBlock [240; 0; 0; 0] 4].
Definition special_v6 : list block := [
  MkBlock (long []) 128; MkBlock (repeat 0 15 ++ [1]) 128; MkBlock (long [0x01; 0x00]) 64; MkBlock (long [0x20; 0x01; 0x00; 0x02]) 48;
  MkBlock (long [0x20; 0x01; 0x00; 0x10]) 28; MkBlock (long [0x20; 0x01; 0x0D; 0xB8]) 32; MkBlock (long [0xFC; 0x00]) 7; MkBlock (long [0xFE; 0x80]) 10;
  MkBlock (long [0xFE; 0xC0]) 10].

Lemma special_blocks : specialUseBlocks = map net_of special_v4 ++ map net_of special_v6.
Proof. reflexivity. Qed.

Definition block_ok (size : nat) (k : block) : bool :=
  bool_decide (length (block_base k) = size) && forallb (between 0 255) (block_base k) && bool_decide (block_ones k <= 8 * size)%nat.

Lemma blocks_inside size ks ip : forallb (block_ok size) ks = true -> all_bytes ip -> length ip = size ->
  existsb (fun net => net_contains net ip) (map net_of ks) = true <-> Exists (inside (8 * Z.of_nat size) (value ip)) ks.
Proof.
  intros Hks Hip Hl. induction ks as [|k ks IH]; [by rewrite Exists_nil|]. cbn [forallb] in Hks. apply andb_true_iff in Hks as [Hk Hks].
  cbn [map existsb]. rewrite orb_true_iff, Exists_cons, (IH Hks). destruct k as [base ones]. unfold block_ok in Hk. cbn in Hk.
  rewrite !andb_true_iff, !bool_decide_eq_true in Hk. destruct Hk as [[H1 H2] H3]. unfold net_of. cbn [block_base block_ones].
  rewrite (contains_inside (8 * Z.of_nat size)); [done| |done|unfold slen; lia|unfold slen; lia|lia].
  rewrite forallb_forall in H2. apply Forall_forall. intros b Hb. apply list_elem_of_In, H2 in Hb. unfold between in Hb. unfold is_byte. lia.
Qed.

Lemma blocks_outside size ks ip : forallb (block_ok size) ks = true -> length ip <> size ->
  existsb (fun net => net_contains net ip) (map net_of ks) = false.
Proof.
  intros Hks Hl. induction ks as [|k ks IH]; [done|]. cbn [forallb] in Hks. apply andb_true_iff in Hks as [Hk Hks].
  cbn [map existsb]. rewrite (IH Hks), orb_false_r. unfold block_ok in Hk. rewrite !andb_true_iff, !bool_decide_eq_true in Hk.
  unfold net_contains, net_of. cbn. destruct (Z.eqb_spec (slen ip) (slen (block_base k))); [unfold slen in *; lia|done].
Qed.

(** What [isPublicIP] checks of an address in its shortest form. *)
Definition unusable (ip : list Z) : bool :=
  IsUnspecified ip || IsLoopback ip || IsPrivate ip || IsLinkLocalUnicast ip || IsLinkLocalMulticast ip || IsMulticast ip || negb (IsGlobalUnicast ip).
Definition short_public (ip : list Z) : bool := if unusable ip then false else negb (existsb (fun net => net_contains net ip) specialUseBlocks).

Lemma unusable_cases ip : slen ip = 4 \/ slen ip = 16 -> unusable ip = true <->
  IsUnspecified ip = true \/ IsLoopback ip = true \/ IsPrivate ip = true \/ IsLinkLocalUnicast ip = true \/ IsLinkLocalMulticast ip = true \/
  IsMulticast ip = true \/ ip = [255; 255; 255; 255].
Proof.
  intros Hl. unfold unusable, IsGlobalUnicast. rewrite !orb_true_iff, negb_true_iff, !andb_false_iff, !negb_false_iff, orb_false_iff, !Z.eqb_neq, bool_decide_eq_true.
  tauto.
Qed.

Lemma short_public_false ip : short_public ip = false <-> unusable ip = true \/ existsb (fun net => net_contains net ip) specialUseBlocks = true.
Proof. unfold short_public. destruct (unusable ip); [tauto|]. rewrite negb_false_iff. naive_solver. Qed.

Lemma not_public4 ip : all_bytes ip -> length ip = 4%nat -> short_public ip = false <-> Exists (inside 32 (value ip)) reserved_v4.
Proof.
  intros Hip Hl. rewrite short_public_false, special_blocks, existsb_app, orb_true_iff.
  rewrite (blocks_outside 16 special_v6) by (done || lia). rewrite (blocks_inside 4 special_v4) by (done || lia).
  rewrite unusable_cases by (unfold slen; lia). change (8 * Z.of_nat 4) with 32.
  destruct ip as [|a [|b [|c [|d [|]]]]]; try done. inversion_clear Hip as [|? ? Ha Hip1]. inversion_clear Hip1 as [|? ? Hb Hip2].
  inversion_clear Hip2 as [|? ? Hc Hip3]. inversion_clear Hip3 as [|? ? Hd _].
  pose proof (unspecified4 a b c d Ha Hb Hc Hd). pose proof (broadcast4 a b c d Ha Hb Hc Hd). pose proof (link_multicast4 a b c d Ha Hb Hc Hd).
  rewrite (loopback4 a b c d), (private4 a b c d), (link_local4 a b c d), (multicast4 a b c d) by done.
  unfold special_v4, reserved_v4. rewrite !Exists_cons, !Exists_nil. clear Hl Ha Hb Hc Hd.
  assert (Hf : ~ false = true) by done. tauto.
Qed.

(** Sixteen bytes: the leading ones decide. *)
Section Sixteen.
Context (a b : Z) (rest : list Z) (Ha : is_byte a) (Hb : is_byte b) (Hrest : all_bytes rest) (Hl : length rest = 14%nat).
Notation ip := (a :: b :: rest).
Notation within base ones := (inside 128 (value ip) (MkBlock base ones)).

Lemma within_masked base ones : all_bytes base -> length base = 16%nat -> (ones <= 128)%nat -> within base ones <-> masked ones base = masked ones ip.
Proof.
  intros H1 H2 H3. rewrite <- (contains_inside 128); [|done|by repeat apply Forall_cons_2|unfold slen; cbn; lia|unfold slen; cbn; lia|cbn; lia].
  unfold net_contains. cbn [net_ip net_ones]. rewrite andb_true_iff, bool_decide_eq_true, Z.eqb_eq. unfold slen. cbn. split; [tauto|]. intros ->. split; [lia|done].
Qed.

Lemma sixteen : slen ip = 16.
Proof. unfold slen. cbn. lia. Qed.
Lemma lead_bytes lead : all_bytes lead -> (length lead <= 16)%nat -> all_bytes (long lead) /\ length (long lead) = 16%nat.
Proof.
  intros H1 H2. unfold long. rewrite length_app, repeat_length. split; [|lia]. apply Forall_app. split; [done|].
  generalize (16 - length lead)%nat. intros n. induction n; constructor; [unfold is_byte; lia|done].
Qed.

Lemma masked_first n : (n <= 8)%nat -> masked n ip = mask_byte n a :: repeat 0 15.
Proof.
  intros Hn. cbn [masked]. replace (n - 8)%nat with 0%nat by lia. f_equal. change (mask_byte 0 b :: masked (0 - 8) rest) with (masked 0 (b :: rest)).
  rewrite masked_zero by (by apply Forall_cons_2). cbn [length]. by rewrite Hl.
Qed.
Lemma masked_second n : (8 <= n <= 16)%nat -> masked n ip = a :: mask_byte (n - 8) b :: repeat 0 14.
Proof.
  intros Hn. cbn [masked]. rewrite mask_byte_full by (done || lia). replace (n - 8 - 8)%nat with 0%nat by lia. by rewrite masked_zero, Hl.
Qed.

Ltac long_form := change (16 =? 4) with false; change (16 =? 16) with true; cbn [andb].
Ltac lead := rewrite within_masked by (try (apply lead_bytes; [by repeat constructor|cbn; lia]); lia).

Lemma multicast6 : IsMulticast ip = true <-> within (long [0xFF]) 8.
Proof.
  unfold IsMulticast, is_v4. rewrite sixteen. change (byte_at ip 0) with a. lead. rewrite masked_first, mask_byte_full by (done || lia).
  change (masked 8 (long [0xFF])) with (0xFF :: repeat 0 15). long_form. rewrite Z.eqb_eq. split; [by intros ->|congruence].
Qed.
Lemma private6 : IsPrivate ip = true -> within (long [0xFC; 0x00]) 7.
Proof.
  unfold IsPrivate, is_v4. rewrite sixteen. change (byte_at ip 0) with a. lead. rewrite masked_first by lia.
  change (masked 7 (long [0xFC; 0x00])) with (0xFC :: repeat 0 15). change (mask_byte 7 a) with (Z.land a 0xFE). long_form.
  rewrite Z.eqb_eq. by intros ->.
Qed.
Lemma link_local6 : IsLinkLocalUnicast ip = true -> within (long [0xFE; 0x80]) 10.
Proof.
  unfold IsLinkLocalUnicast, is_v4. rewrite sixteen. change (byte_at ip 0) with a. change (byte_at ip 1) with b. lead. rewrite masked_second by lia.
  change (masked 10 (long [0xFE; 0x80])) with (0xFE :: 0x80 :: repeat 0 14). change (mask_byte (10 - 8) b) with (Z.land b 0xC0).
  long_form. rewrite andb_true_iff, !Z.eqb_eq. by intros [-> ->].
Qed.
Lemma link_multicast6 : IsLinkLocalMulticast ip = true -> IsMulticast ip = true.
Proof. unfold IsLinkLocalMulticast, IsMulticast, is_v4. rewrite sixteen. long_form. by intros [H _]%andb_true_iff. Qed.
Lemma unspecified6 : IsUnspecified ip = true -> within (long []) 128.
Proof. unfold IsUnspecified. rewrite bool_decide_eq_true. intros ->. cbn [length]. by rewrite Hl. Qed.
Lemma loopback6 : IsLoopback ip = true -> within (repeat 0 15 ++ [1]) 128.
Proof. unfold IsLoopback, is_v4. rewrite sixteen. long_form. rewrite bool_decide_eq_true. by intros ->. Qed.
End Sixteen.

Ltac apply_known lemma := let H := fresh in pose proof lemma as H; repeat specialize (H ltac:(assumption)).

Lemma not_public6 ip : all_bytes ip -> length ip = 16%nat -> short_public ip = false <-> Exists (inside 128 (value ip)) reserved_v6.
Proof.
  intros Hip Hl. rewrite short_public_false, special_blocks, existsb_app, orb_true_iff.
  rewrite (blocks_outside 4 special_v4) by (done || lia). rewrite (blocks_inside 16 special_v6) by (done || lia).
  rewrite unusable_cases by (unfold slen; lia). change (8 * Z.of_nat 16) with 128.
  assert (Hbc : ip <> [255; 255; 255; 255]) by (by intros ->).
  destruct ip as [|a [|b rest]]; try done. inversion_clear Hip as [|? ? Ha Hip1]. inversion_clear Hip1 as [|? ? Hb Hrest]. injection Hl as Hl. fold (all_bytes rest) in Hrest.
  change reserved_v6 with (special_v6 ++ [MkBlock (long [0xFF]) 8]). rewrite Exists_app, Exists_cons, Exists_nil, <- multicast6 by done.
  set (S := Exists (inside 128 (value (a :: b :: rest))) special_v6).
  assert (Hs : forall i k, special_v6 !! i = Some k -> inside 128 (value (a :: b :: rest)) k -> S)
    by (intros i k Hk Hi; apply Exists_exists; exists k; split; [by eapply list_elem_of_lookup_2|done]).
  assert (Hu : IsUnspecified (a :: b :: rest) = true -> S) by (intros H; by apply (Hs 0%nat _ eq_refl), unspecified6).
  assert (Ho : IsLoopback (a :: b :: rest) = true -> S) by (intros H; by apply (Hs 1%nat _ eq_refl), loopback6).
  assert (Hp : IsPrivate (a :: b :: rest) = true -> S) by (intros H; by apply (Hs 6%nat _ eq_refl), private6).
  assert (Hll : IsLinkLocalUnicast (a :: b :: rest) = true -> S) by (intros H; by apply (Hs 7%nat _ eq_refl), link_local6).
  apply_known (link_multicast6 a b rest). clear Hs. assert (Hf : ~ false = true) by done. tauto.
Qed.

Lemma isPublicIP_short ip : isPublicIP ip = match shortest ip with None => false | Some short => short_public short end.
Proof. done. Qed.

Lemma negb_public ip (P : block -> Prop) ks : (short_public ip = false <-> Exists P ks) -> short_public ip = true <-> Forall (fun k => ~ P k) ks.
Proof.
  intros H. rewrite Forall_Exists_neg. rewrite <- H. destruct (short_public ip); naive_solver.
Qed.

Lemma value_app l k : value (l ++ k) = value l * 256 ^ slen k + value k.
Proof. unfold value at 1. by rewrite foldl_app, value_from. Qed.

Lemma value_inj l : forall k, all_bytes l -> all_bytes k -> length l = length k -> value l = value k -> l = k.
Proof.
  induction l as [|b l IH]; intros [|c k] Hl Hk Hlen Hv; try done. inversion_clear Hl as [|? ? Bb Bl]. inversion_clear Hk as [|? ? Bc Bk].
  injection Hlen as Hlen. rewrite !value_cons in Hv. assert (Hs : slen k = slen l) by (unfold slen; by rewrite Hlen). rewrite Hs in Hv.
  pose proof (value_bound _ Bl). pose proof (value_bound _ Bk) as Hb. rewrite Hs in Hb. assert (b = c) as -> by nia. f_equal. apply IH; [done..|nia].
Qed.

(** An address is public exactly when [isPublicIP] says so. *)
Lemma isPublicIP_spec ip : all_bytes ip -> isPublicIP ip = true <-> public_address ip.
Proof.
  intros Hip. rewrite isPublicIP_short. unfold shortest, To4, public_address, public_v4.
  destruct (Z.eqb_spec (slen ip) 4) as [H4|H4]; [|destruct (Z.eqb_spec (slen ip) 16) as [H16|H16]].
  - assert (Hl : length ip = 4%nat) by (unfold slen in H4; lia). rewrite (negb_public _ _ _ (not_public4 _ Hip Hl)). rewrite Hl. naive_solver.
  - assert (Hl : length ip = 16%nat) by (unfold slen in H16; lia). rewrite Hl.
    set (front := take 12 ip). set (back := drop 12 ip). assert (Hsplit : ip = front ++ back) by (symmetry; apply take_drop).
    assert (Hf : all_bytes front) by (by apply Forall_take). assert (Hb : all_bytes back) by (by apply Forall_drop).
    assert (Lf : length front = 12%nat) by (unfold front; rewrite length_take; lia).
    assert (Lb : length back = 4%nat) by (unfold back; rewrite length_drop; lia).
    assert (Hv : value ip = value front * 2 ^ 32 + value back)
      by (rewrite Hsplit, value_app; unfold slen; rewrite Lb; reflexivity).
    pose proof (value_bound _ Hb) as Vb. replace (256 ^ slen back) with (2 ^ 32) in Vb by (unfold slen; rewrite Lb; reflexivity).
    assert (Hq : value ip / 2 ^ 32 = value front) by (rewrite Hv, Z.div_add_l, (Z.div_small (value back)) by lia; lia).
    assert (Hm : value ip mod 2 ^ 32 = value back) by (rewrite Hv, Z.add_comm, Z.mod_add, Z.mod_small by lia; lia).
    rewrite Hq, Hm. cbn [andb]. case_bool_decide as Hmap.
    + rewrite Hmap, (negb_public _ _ _ (not_public4 _ Hb Lb)). change (value v4_mapped =? 0xFFFF) with true. cbv iota. intuition lia.
    + destruct (Z.eqb_spec (value front) 0xFFFF) as [E|E].
      { exfalso. apply Hmap. apply value_inj; [done|by repeat constructor|done|exact E]. }
      rewrite (negb_public _ _ _ (not_public6 _ Hip Hl)). intuition lia.
  - cbn [andb]. unfold slen in *. split; [done|]. intros [[? _]|[? _]]; lia.
Qed.

Lemma select_address_some ips : forall selected ip, select_address selected ips = Some ip <->
  Forall (fun a => isPublicIP a = true) ips /\ (match selected with Some s => Some s | None => head ips end) = Some ip.
Proof.
  induction ips as [|a ips IH]; intros selected ip; cbn [select_address].
  { split; [intros ->; by split; [constructor|]|]. intros [_ H]. by destruct selected. }
  destruct (isPublicIP a) eqn:Ha; cbn [negb].
  - rewrite IH, Forall_cons. destruct selected; cbn; naive_solver.
  - split; [done|]. intros [H _]. inversion_clear H. congruence.
Qed.

(** C22. A connection is dialled only to the first of the resolver's answers, and
    only when every answer is a public address: as a number it lies in none of the
    blocks reserved for private, local, shared, documentation, benchmarking,
    multicast or future use, an IPv4 address mapped into IPv6 counting as itself.
    Any other answer refuses the connection. *)
Theorem dial_public ips ip (H : Forall all_bytes ips) : select_address None ips = Some ip <-> head ips = Some ip /\ Forall public_address ips.
Proof.
  rewrite select_address_some. assert (Heq : Forall (fun a => isPublicIP a = true) ips <-> Forall public_address ips); [|rewrite Heq; tauto].
  rewrite !Forall_forall in *. split; intros Ha x Hx; by apply isPublicIP_spec, Ha; auto.
Qed.

(** Two answers, the second mapped into IPv6. *)
Lemma dial_public_witness : Forall all_bytes [[93; 184; 216; 34]; v4_mapped ++ [1; 1; 1; 1]] /\
  (head [[93; 184; 216; 34]; v4_mapped ++ [1; 1; 1; 1]] = Some [93; 184; 216; 34] /\ Forall public_address [[93; 184; 216; 34]; v4_mapped ++ [1; 1; 1; 1]]).
Proof.
  assert (H : Forall all_bytes [[93; 184; 216; 34]; v4_mapped ++ [1; 1; 1; 1]]).
  { unfold all_bytes, v4_mapped, is_byte. cbn. repeat constructor; lia. }
  split; [exact H|]. apply (dial_public [[93; 184; 216; 34]; v4_mapped ++ [1; 1; 1; 1]] [93; 184; 216; 34] H). vm_compute. reflexivity.
Defined.

(** A private address inside the NAT64 prefix 64:ff9b::/96, the 6to4 prefix
    2002::/16 or the IPv4-compatible ::/96 counts as public. *)
Lemma embedded_private_is_public : forallb isPublicIP
  [[0; 0x64; 0xFF; 0x9B] ++ repeat 0 8 ++ [169; 254; 169; 254]; [0x20; 0x02; 127; 0; 0; 1] ++ repeat 0 10; repeat 0 12 ++ [127; 0; 0; 1]] = true.
Proof. vm_compute. reflexivity. Qed.
