(* ===== verification/BrokerPolicy.v ===== *)
(** * Building a broker (src/v3/internal/broker/policy.go, broker.go)

    [New] compiles the tool set and the model route and fails on anything unsafe
    or ambiguous. *)

From S2P Require Import Prelude Order GoStrings Digest Digits GoJson StrictJson BrokerData Ip Url Transport ToolPolicy.
Local Open Scope go_scope.
Local Open Scope string_scope.
Local Open Scope Z_scope.
Local Open Scope list_scope.

(** ** Texts *)

Definition name_byte (r : Z) : bool := is_alpha r || is_digit r || bool_decide (r ∈ bytes "._-").
Definition controls : string := of_bytes [0; 0x0D; 0x0A].

Definition safeName (value : string) (max : Z) : bool :=
  if (value =?= "") || (max <? len value) || negb (ValidString value) || (TrimSpace value !=? value) || ContainsAny value controls
  then false else forallb name_byte (runes value).

Definition ref_label_byte (r : Z) : bool := between 0x61 0x7A r || is_digit r || (r =? 0x2D).
Definition safeCredentialRef (value : string) : bool :=
  if (value =?= "") || (253 <? len value) || HasSuffix value "." then false
  else forallb (valid_label ref_label_byte) (Split value dot_byte).

Definition safeModel (value : string) : bool :=
  if (value =?= "") || (MaxModelNameBytes <? len value) || negb (ValidString value) || (TrimSpace value !=? value) ||
     HasPrefix value "-" || ContainsAny value controls then false
  else forallb (fun r => negb ((r <=? 0x20) || (r =? 0x7F))) (runes value).

Definition validBaseSHA (value : string) : bool :=
  if negb (len value =? 40) && negb (len value =? 64) then false else forallb is_lower_hex (runes value).

Definition validRunIdentity (runUID specDigest baseSHA : string) : bool :=
  safeName runUID 128 && ValidDigest specDigest && validBaseSHA baseSHA.

(** [filepath.Clean] leaves an absolute path other than the root alone exactly
    when no component is empty or a dot name. *)
Definition validWorkspaceRoot (root : string) : bool :=
  (root !=? "") && (len root <=? 4096) && ValidString root && HasPrefix root "/" &&
  forallb (fun part => negb (bool_decide (part ∈ [""; "."; ".."]))) (tail (Split root slash)) && negb (ContainsAny root controls).

Definition boundedCredential (value : list Z) : bool :=
  negb ((slen value =? 0) || (MaxCredentialBytes <? slen value)) && forallb (between 0x21 0x7E) value.

(** ** Amounts *)

Definition max_int64 : Z := 2 ^ 63 - 1.

(** [strconv.ParseInt] of a text of digits. *)
Definition ParseInt (l : list Z) : option Z := if digits_val l <=? max_int64 then Some (digits_val l) else None.

Definition pad_six (l : list Z) : list Z := l ++ repeat zero (6 - length l).

Definition parseMicros (value : string) : result broker_error Z :=
  if (value =?= "") || (TrimSpace value !=? value) || HasPrefix value "+" || HasPrefix value "-" then Err ErrInvalidConfig
  else
    let parts := split_bytes dot_byte (bytes value) in
    let whole := default [] (head parts) in
    if (2 <? slen parts) || bool_decide (whole = []) || (12 <? slen whole) then Err ErrInvalidConfig
    else if (1 <? slen whole) && (default 0 (head whole) =? zero) then Err ErrInvalidConfig
    else if negb (forallb is_digit whole) then Err ErrInvalidConfig
    else
      let amount := fun fraction =>
        match ParseInt whole with
        | None => Err ErrInvalidConfig
        | Some whole =>
          if max_int64 / 1000000 <? whole then Err ErrInvalidConfig
          else match ParseInt (pad_six fraction) with
          | None => Err ErrInvalidConfig
          | Some frac => if max_int64 - frac <? whole * 1000000 then Err ErrInvalidConfig else Ok (whole * 1000000 + frac)
          end
        end in
      match parts with
      | [_; fraction] =>
        if bool_decide (fraction = []) || (6 <? slen fraction) then Err ErrInvalidConfig
        else if negb (forallb is_digit fraction) then Err ErrInvalidConfig
        else amount fraction
      | _ => amount []
      end.

Record Pricing : Type := MkPricing { InputMicrosPerToken : Z; OutputMicrosPerToken : Z }.

(** [PricingTable.EstimateCost], with 64-bit products and sum. *)
Definition wrap64 (n : Z) : Z := (n + 2 ^ 63) mod 2 ^ 64 - 2 ^ 63.

Definition EstimateCost (table : gmap string Pricing) (provider : string) (inputTokens outputTokens : Z) : result broker_error Z :=
  match table !! provider with
  | None => Err ErrInvalidConfig
  | Some price =>
    if (inputTokens <? 0) || (outputTokens <? 0) || (InputMicrosPerToken price <? 0) || (OutputMicrosPerToken price <? 0)
    then Err ErrInvalidConfig
    else if (max_int64 / Z.max (InputMicrosPerToken price) 1 <? inputTokens) ||
            (max_int64 / Z.max (OutputMicrosPerToken price) 1 <? outputTokens) then Err ErrBudgetExceeded
    else
      let input := wrap64 (inputTokens * InputMicrosPerToken price) in
      let output := wrap64 (outputTokens * OutputMicrosPerToken price) in
      if wrap64 (max_int64 - output) <? input then Err ErrBudgetExceeded else Ok (wrap64 (input + output))
  end.

(** ** The tool set *)

Definition policyEffectFor (effect : string) : result broker_error string :=
  if effect =?= EffectRead then Ok Policy_EffectRead
  else if (effect =?= EffectWrite) || (effect =?= EffectPublish) then Ok Policy_EffectWrite
  else Err ErrInvalidConfig.

Definition encodeExactArguments (arguments : exact_arguments_spec) : result broker_error (list Z) :=
  if 64 <? exact_count arguments then Err ErrInvalidConfig
  else match exact_encoded arguments with
  | None => Err ErrInvalidConfig
  | Some encoded =>
    if negb (is_ok (ValidateObject encoded)) then Err ErrInvalidConfig
    else match Normalize encoded with
    | Err _ => Err ErrInvalidConfig
    | Ok normalized => if negb (is_ok (ValidateObject normalized)) then Err ErrInvalidConfig else Ok normalized
    end
  end.

Definition compile_definition (server : string) (definitions : gmap string compiledTool) (definition : ToolDefinition) :
  result broker_error (gmap string compiledTool) :=
  let name := ToolDefinition_Name definition in
  if negb (safeName name MaxToolNameBytes) || Contains name "/" then Err ErrInvalidConfig
  else if bool_decide (is_Some (definitions !! name)) then Err ErrInvalidConfig
  else
    let? policyEffect := policyEffectFor (ToolDefinition_Effect definition) in
    let? exact := match ExactArguments definition with
      | None => Ok None
      | Some arguments => let? encoded := encodeExactArguments arguments in Ok (Some encoded)
      end in
    Ok (<[name := MkTool name server (ToolDefinition_Effect definition) policyEffect exact]> definitions).

Definition compile_server (acc : gmap string compiledServer * gmap string compiledTool) (server : ToolServer) :
  result broker_error (gmap string compiledServer * gmap string compiledTool) :=
  let '(servers, definitions) := acc in
  let name := ToolServer_Name server in
  if negb (safeName name MaxProviderNameBytes) || (slen (ToolServer_Tools server) =? 0) || (256 <? slen (ToolServer_Tools server))
  then Err ErrInvalidConfig
  else if bool_decide (is_Some (servers !! name)) then Err ErrInvalidConfig
  else match validatePublicEndpoint (ToolServer_Ref server) "mcp" with
  | Err _ => Err ErrInvalidConfig
  | Ok endpoint =>
    if (CredentialsRef server !=? "") && negb (safeCredentialRef (CredentialsRef server)) then Err ErrInvalidConfig
    else
      let? definitions := fold_result (compile_definition name) definitions (ToolServer_Tools server) in
      Ok (<[name := MkServer name endpoint (CredentialsRef server)]> servers, definitions)
  end.

Definition cloneCompiledTool (tool : compiledTool) : compiledTool :=
  MkTool (tool_name tool) (tool_server tool) (tool_effect tool) (tool_policyEffect tool) (append_nil (elems (tool_exactArgs tool))).

(** The references seen in a profile are pairs of server and tool. *)
Definition compile_ref (definitions : gmap string compiledTool) (acc : gmap string compiledTool * list (string * string)) (ref : ToolRef) :
  result broker_error (gmap string compiledTool * list (string * string)) :=
  let '(compiled, seen) := acc in
  let key := (ToolRef_Server ref, ToolRef_Tool ref) in
  if negb (safeName (ToolRef_Server ref) MaxProviderNameBytes) || negb (safeName (ToolRef_Tool ref) MaxToolNameBytes)
  then Err ErrInvalidConfig
  else if bool_decide (key ∈ seen) then Err ErrInvalidConfig
  else match definitions !! ToolRef_Tool ref with
  | None => Err ErrInvalidConfig
  | Some tool =>
    if tool_server tool !=? ToolRef_Server ref then Err ErrInvalidConfig
    else Ok (<[ToolRef_Tool ref := cloneCompiledTool tool]> compiled, key :: seen)
  end.

Definition profile_names : list string := [ToolProfileExplore; ToolProfileEdit; ToolProfileVerify].

Definition compile_profile (definitions : gmap string compiledTool) (maxTools : Z) (profiles : gmap string (gmap string compiledTool))
  (profile : ToolProfile) : result broker_error (gmap string (gmap string compiledTool)) :=
  if negb (bool_decide (ToolProfile_Name profile ∈ profile_names)) then Err ErrInvalidConfig
  else if bool_decide (is_Some (profiles !! ToolProfile_Name profile)) || (slen (ToolProfile_Tools profile) =? 0) ||
          (maxTools <? slen (ToolProfile_Tools profile)) then Err ErrInvalidConfig
  else
    let? compiled := fold_result (compile_ref definitions) (∅, []) (ToolProfile_Tools profile) in
    Ok (<[ToolProfile_Name profile := compiled.1]> profiles).

Definition compileToolSet (spec : ToolSetSpec) :
  result broker_error (gmap string compiledServer * gmap string (gmap string compiledTool)) :=
  if (Spec_MaxToolsPerPhase spec <? 1) || (MaxToolsPerPhase <? Spec_MaxToolsPerPhase spec) || (slen (Servers spec) =? 0) ||
     (32 <? slen (Servers spec)) || negb (slen (Profiles spec) =? 3) then Err ErrInvalidConfig
  else
    let? compiled := fold_result compile_server (∅, ∅) (Servers spec) in
    let? profiles := fold_result (compile_profile compiled.2 (Spec_MaxToolsPerPhase spec)) ∅ (Profiles spec) in
    if forallb (fun required => bool_decide (is_Some (profiles !! required))) profile_names
    then Ok (compiled.1, profiles) else Err ErrInvalidConfig.

(** The first profile that has a tool gives it; they all agree on it. *)
Definition flattenCompiledProfiles (profiles : gmap string (gmap string compiledTool)) : gmap string compiledTool :=
  map_fold (fun _ profile tools => tools ∪ (cloneCompiledTool <$> profile)) ∅ profiles.

(** ** Providers *)

Definition builtin_endpoint (kind : string) : option string :=
  if kind =?= "openrouter-responses" then Some "https://openrouter.ai/api/v1/responses"
  else if kind =?= "openai-responses" then Some "https://api.openai.com/v1/responses"
  else if kind =?= "openrouter-anthropic-messages" then Some "https://openrouter.ai/api/v1/messages"
  else if kind =?= "anthropic-messages" then Some "https://api.anthropic.com/v1/messages"
  else None.

Definition validate_provider_endpoint (endpoint kind : string) : result broker_error string :=
  if (kind =?= "openrouter-responses") || (kind =?= "openai-responses") then
    match validateResponsesProviderEndpoint endpoint kind with Ok v => Ok v | Err _ => Err ErrInvalidConfig end
  else if (kind =?= "openrouter-anthropic-messages") || (kind =?= "anthropic-messages") then
    match validateAnthropicProviderEndpoint endpoint kind with Ok v => Ok v | Err _ => Err ErrInvalidConfig end
  else Err ErrUnsupportedProvider.

(** The providers so far, in order; their names and models are those seen. *)
Definition compile_provider (custom : gmap string string) (providers : list compiledProvider) (provider : ModelProvider) :
  result broker_error (list compiledProvider) :=
  let name := Provider_Name provider in
  if negb (safeName name MaxProviderNameBytes) || (Provider_Kind provider =?= "") || (Provider_Model provider =?= "") ||
     (Provider_Priority provider <? 1) || (1000 <? Provider_Priority provider) then Err ErrInvalidConfig
  else if bool_decide (name ∈ map provider_name providers) then Err ErrInvalidConfig
  else if negb (safeModel (Provider_Model provider)) then Err ErrInvalidConfig
  else if bool_decide (Provider_Model provider ∈ map provider_model providers) then Err ErrInvalidConfig
  else if (Provider_CredentialRef provider !=? "") && negb (safeCredentialRef (Provider_CredentialRef provider)) then Err ErrInvalidConfig
  else
    let endpoint := TrimSpace (default "" (custom !! name)) in
    match (if endpoint =?= "" then builtin_endpoint (Provider_Kind provider) else Some endpoint) with
    | None => Err ErrUnsupportedProvider
    | Some endpoint =>
      let? validated := validate_provider_endpoint endpoint (Provider_Kind provider) in
      Ok (providers ++ [MkCompiledProvider name (Provider_Kind provider) (Provider_Model provider)
                          (Provider_CredentialRef provider) validated (Provider_Priority provider)])
    end.

Definition provider_key (p : compiledProvider) : Z * string := (provider_priority p, provider_name p).

Definition compileProviders (spec : ModelRouteSpec) (custom : gmap string string) : result broker_error (list compiledProvider) :=
  if (slen (Providers spec) =? 0) || (16 <? slen (Providers spec)) || (MaxCostUSD (Budget spec) =?= "") then Err ErrInvalidConfig
  else
    let? providers := fold_result (compile_provider custom) [] (Providers spec) in
    Ok (sort_on provider_key (compare_pair Z.compare String.compare) providers).

(** ** Limits *)

Definition or_default (value fallback : Z) : Z := if value =? 0 then fallback else value.

Definition normalizeLimits (config : Config) : result broker_error limits :=
  let toolCalls := or_default (MaxToolCalls config) DefaultMaxToolCalls in
  if (toolCalls <? 1) || (MaxConfiguredToolCalls <? toolCalls) then Err ErrInvalidConfig
  else
    let mcpRequest := or_default (MaxMCPRequestBytes config) DefaultMaxMCPRequestBytes in
    let mcpResponse := or_default (MaxMCPResponseBytes config) DefaultMaxMCPResponseBytes in
    let toolResult := or_default (MaxToolResultBytes config) DefaultMaxToolResultBytes in
    let modelRequest := or_default (MaxModelRequestBytes config) DefaultMaxModelRequestBytes in
    let modelResponse := or_default (MaxModelResponseBytes config) DefaultMaxModelResponseBytes in
    let artifact := or_default (MaxArtifactBytes config) DefaultMaxArtifactBytes in
    if (mcpRequest <? 256) || (MaxDocumentBytes <? mcpRequest) || (mcpResponse <? 256) || (Z.shiftl 64 20 <? mcpResponse) ||
       (toolResult <? 256) || (MaxDocumentBytes <? toolResult) || (mcpResponse <? toolResult) || (modelRequest <? 256) ||
       (MaxDocumentBytes <? modelRequest) || (modelResponse <? 256) || (Z.shiftl 128 20 <? modelResponse) || (artifact <? 1) ||
       (Z.shiftl 128 20 <? artifact) then Err ErrInvalidConfig
    else Ok (MkLimits toolCalls mcpRequest mcpResponse toolResult modelRequest modelResponse artifact).

Definition hasCredentialRefs (servers : gmap string compiledServer) (providers : list compiledProvider) : bool :=
  existsb (fun s => server_credentialRef s.2 !=? "") (map_to_list servers) || existsb (fun p => provider_credentialRef p !=? "") providers.

Definition hasMutatingTools (tools : gmap string compiledTool) : bool :=
  existsb (fun t => tool_effect t.2 !=? EffectRead) (map_to_list tools).

Definition initialBrokerPhase (mode : string) : string :=
  if mode =?= BrokerModeVerifier then ToolProfileVerify else ToolProfileExplore.

(** A positive limit of the route below the configured one, or in place of none. *)
Definition tighter (configured route fallback : Z) : Z :=
  or_default (if (configured =? 0) || ((0 <? route) && (route <? configured)) then route else configured) fallback.

(** ** [New] *)

(** The secure client only fails when the default transport was replaced, and is
    left out. *)
Definition NewBroker (config : Config) : result broker_error (Broker * broker_state) :=
  let route := Budget (ModelRoute config) in
  if negb (validRunIdentity (Config_RunUID config) (Config_SpecDigest config) (Config_BaseSHA config)) then Err ErrInvalidConfig
  else if (WorkspaceRoot config !=? "") && negb (validWorkspaceRoot (WorkspaceRoot config)) then Err ErrInvalidConfig
  else if (ContextRoot config !=? "") && negb (validWorkspaceRoot (ContextRoot config)) then Err ErrInvalidConfig
  else if (Contract_Digest config !=? "") &&
          ((Contract_BaseSHA config !=? Config_BaseSHA config) || (Contract_SpecDigest config !=? Config_SpecDigest config))
  then Err ErrInvalidConfig
  else
    let? toolLimits := normalizeLimits config in
    let? compiled := compileToolSet (ToolSet config) in
    let '(servers, profiles) := compiled in
    let tools := flattenCompiledProfiles profiles in
    let mode := if Config_Mode config =?= "" then BrokerModeAgent else Config_Mode config in
    if (mode !=? BrokerModeAgent) && (mode !=? BrokerModeVerifier) then Err ErrInvalidConfig
    else
      let? providers := compileProviders (ModelRoute config) (ProviderEndpoints config) in
      let? routeCost := parseMicros (MaxCostUSD route) in
      let? maxCost := if Config_MaxCostUSD config =?= "" then Ok routeCost
                      else let? runCost := parseMicros (Config_MaxCostUSD config) in Ok (if runCost <? routeCost then runCost else routeCost) in
      if (0 <? maxCost) && bool_decide (Config_Pricing config = None) then Err ErrInvalidConfig
      else if negb (Config_Credentials config) && hasCredentialRefs servers providers then Err ErrInvalidConfig
      else if hasMutatingTools tools && negb (Config_Effects config) then Err ErrInvalidConfig
      else
        let requests := tighter (MaxModelRequests config) (MaxRequests route) DefaultMaxModelRequests in
        let tokens := tighter (MaxModelTokens config) (MaxTokens route) DefaultMaxModelTokens in
        if (requests <? 1) || (MaxConfiguredModelRequests <? requests) || (tokens <? 1) || (MaxConfiguredModelTokens <? tokens)
        then Err ErrInvalidConfig
        else Ok
          (MkBroker (Config_RunUID config) (Config_SpecDigest config) (Config_BaseSHA config) servers tools profiles providers
             (Config_Credentials config) (Config_Pricing config) toolLimits (RequireApprovalForMutations config) mode
             (Config_PhaseAuthorizer config),
           MkBrokerState (initialBrokerPhase mode) (MkBudgetState 0 0 0 0 0 0 (maxToolCalls toolLimits) requests tokens maxCost)).
