(* ===== verification/BrokerPolicySpec.v ===== *)
(** * A broker that was built is well formed, and its prices are exact *)

From stdpp Require Import sorting.
From S2P Require Import Prelude Order GoStrings Digest Digits GoJson StrictJson BrokerData Ip Url Transport ToolPolicy BrokerPolicy.
Local Open Scope go_scope.
Local Open Scope string_scope.
Local Open Scope Z_scope.
Local Open Scope list_scope.

(** ** Servers and tools *)

(** A tool as one of the servers declares it. *)
Definition declared (spec : ToolSetSpec) (tool : compiledTool) : Prop :=
  exists server definition, server ∈ Servers spec /\ definition ∈ ToolServer_Tools server /\
    tool_server tool = ToolServer_Name server /\ tool_name tool = ToolDefinition_Name definition /\
    tool_effect tool = ToolDefinition_Effect definition /\ policyEffectFor (tool_effect tool) = Ok (tool_policyEffect tool) /\
    match ExactArguments definition with
    | None => tool_exactArgs tool = None
    | Some arguments => exists encoded, encodeExactArguments arguments = Ok encoded /\ tool_exactArgs tool = Some encoded
    end.

Definition server_compiled (spec : ToolSetSpec) (name : string) (s : compiledServer) : Prop :=
  exists server, server ∈ Servers spec /\ ToolServer_Name server = name /\ server_name s = name /\
    validatePublicEndpoint (ToolServer_Ref server) "mcp" = Ok (server_endpoint s) /\ server_credentialRef s = CredentialsRef server.

(** The maps while servers are compiled. *)
Definition definitions_ok (spec : ToolSetSpec) (servers : string -> Prop) (definitions : gmap string compiledTool) : Prop :=
  forall name tool, definitions !! name = Some tool -> tool_name tool = name /\ declared spec tool /\ servers (tool_server tool).

Lemma compile_definition_ok spec server definition (known : string -> Prop) ds ds' :
  server ∈ Servers spec -> definition ∈ ToolServer_Tools server -> known (ToolServer_Name server) ->
  definitions_ok spec known ds -> compile_definition (ToolServer_Name server) ds definition = Ok ds' -> definitions_ok spec known ds'.
Proof.
  intros Hs Hd Hk Hok H. unfold compile_definition in H. cbv zeta in H. destruct (_ || _) in H; [done|]. destruct (bool_decide _) in H; [done|].
  inv_bind H. inv_bind H. injection H as <-. intros name tool. rewrite lookup_insert_Some. intros [[<- <-]|[_ Hl]]; [|by apply Hok].
  split_and!; [done| |done]. exists server, definition. cbn. split_and!; try done.
  destruct (ExactArguments definition) as [arguments|]; [|congruence]. inv_bind E0. injection E0 as <-. eauto.
Qed.

Lemma definitions_ok_mono spec (known known' : string -> Prop) ds : (forall n, known n -> known' n) -> definitions_ok spec known ds -> definitions_ok spec known' ds.
Proof. intros Hk Hok name tool Hl. destruct (Hok _ _ Hl) as (? & ? & ?). auto. Qed.

Definition servers_ok (spec : ToolSetSpec) (acc : gmap string compiledServer * gmap string compiledTool) : Prop :=
  (forall name s, acc.1 !! name = Some s -> server_compiled spec name s) /\ definitions_ok spec (fun n => is_Some (acc.1 !! n)) acc.2.

Lemma compile_server_ok spec server acc acc' : server ∈ Servers spec -> servers_ok spec acc ->
  compile_server acc server = Ok acc' -> servers_ok spec acc'.
Proof.
  destruct acc as [servers ds]. intros Hs [Hsok Hdok] H. unfold compile_server in H. cbv zeta in H.
  destruct (_ || _) in H; [done|]. destruct (bool_decide _) in H; [done|]. destruct (validatePublicEndpoint _ _) as [endpoint|] eqn:He; [|done].
  destruct (_ && _) in H; [done|]. inv_bind H. injection H as <-. split; cbn [fst snd].
  - intros name s. rewrite lookup_insert_Some. intros [[<- <-]|[_ Hl]]; [|by apply Hsok]. exists server. by split_and!.
  - eapply (fold_result_inv _ (definitions_ok spec (fun n => is_Some (<[ToolServer_Name server := _]> servers !! n)))); [| |exact E].
    + intros d s1 s2 Hd H1 H2. eapply compile_definition_ok; eauto. rewrite lookup_insert_eq. by eexists.
    + eapply definitions_ok_mono; [|exact Hdok]. intros n Hn. rewrite lookup_insert_is_Some. destruct (decide (ToolServer_Name server = n)); auto.
Qed.

Lemma compile_servers_ok spec acc : fold_result compile_server (∅, ∅) (Servers spec) = Ok acc -> servers_ok spec acc.
Proof.
  intros H. eapply (fold_result_inv _ (servers_ok spec)); [| |exact H]; [intros; by eapply compile_server_ok|].
  split; intros n s Hl; cbn in Hl; by rewrite lookup_empty in Hl.
Qed.

(** ** Profiles *)

Lemma encoded_nonempty arguments encoded : encodeExactArguments arguments = Ok encoded -> encoded <> [].
Proof.
  unfold encodeExactArguments. destruct (64 <? _); [done|]. destruct (exact_encoded arguments); [|done]. destruct (negb _) in |- *; [done|].
  destruct (Normalize _) as [n|]; [|done]. destruct (negb (is_ok (ValidateObject n))) eqn:E; [done|]. intros [= <-] ->. discriminate E.
Qed.

Lemma clone_declared spec tool : declared spec tool -> cloneCompiledTool tool = tool.
Proof.
  intros (server & definition & _ & _ & _ & _ & _ & _ & Hx). destruct tool as [n s e p x]. unfold cloneCompiledTool. cbn in *. f_equal.
  destruct (ExactArguments definition) as [arguments|]; [|by subst]. destruct Hx as (encoded & He & ->). apply encoded_nonempty in He.
  by destruct encoded.
Qed.

(** A profile is a part of the definitions, no larger than its references. *)
Lemma compile_ref_ok definitions acc acc' ref (n : nat) :
  (forall name tool, definitions !! name = Some tool -> cloneCompiledTool tool = tool) ->
  acc.1 ⊆ definitions -> (size acc.1 <= n)%nat -> compile_ref definitions acc ref = Ok acc' ->
  acc'.1 ⊆ definitions /\ (0 < size acc'.1 <= S n)%nat.
Proof.
  destruct acc as [compiled seen]. cbn [fst]. intros Hc Hsub Hn H. unfold compile_ref in H. cbv zeta in H.
  destruct (_ || _) in H; [done|]. destruct (bool_decide _) in H; [done|]. destruct (definitions !! _) as [tool|] eqn:Ht; [|done].
  destruct (negb _) in H; [done|]. injection H as <-. cbn [fst]. rewrite (Hc _ _ Ht). split.
  - apply insert_subseteq_l; [done|done].
  - rewrite map_size_insert. destruct (compiled !! _) eqn:E; [|lia]. cbn. split; [|lia].
    destruct (size compiled) eqn:Ez; [|lia]. apply map_size_empty_inv in Ez. subst compiled. by rewrite lookup_empty in E.
Qed.

Lemma compile_refs_ok definitions refs : (forall name tool, definitions !! name = Some tool -> cloneCompiledTool tool = tool) ->
  forall acc acc' n, acc.1 ⊆ definitions -> (size acc.1 <= n)%nat -> fold_result (compile_ref definitions) acc refs = Ok acc' ->
  acc'.1 ⊆ definitions /\ (size acc'.1 <= n + length refs)%nat /\ (refs <> [] -> (0 < size acc'.1)%nat).
Proof.
  intros Hc. induction refs as [|ref refs IH]; intros acc acc' n Hsub Hn H; cbn in H.
  { injection H as <-. split_and!; [done|cbn; lia|done]. }
  destruct (compile_ref definitions acc ref) as [mid|] eqn:E; [|done].
  destruct (compile_ref_ok _ _ _ _ n Hc Hsub Hn E) as [Hm [Hp Hl]]. destruct (IH mid acc' (S n) Hm Hl H) as (H1 & H2 & H3).
  split_and!; [done|cbn; lia|]. intros _. destruct refs as [|r refs]; [cbn in H; injection H as <-; lia|]. by apply H3.
Qed.

Definition profile_ok (definitions : gmap string compiledTool) (maxTools : Z) (name : string) (profile : gmap string compiledTool) : Prop :=
  name ∈ profile_names /\ profile ⊆ definitions /\ (0 < size profile)%nat /\ Z.of_nat (size profile) <= maxTools.

Lemma compile_profiles_ok definitions maxTools items profiles :
  (forall name tool, definitions !! name = Some tool -> cloneCompiledTool tool = tool) ->
  fold_result (compile_profile definitions maxTools) ∅ items = Ok profiles ->
  forall name profile, profiles !! name = Some profile -> profile_ok definitions maxTools name profile.
Proof.
  intros Hc H. eapply (fold_result_inv _ (fun ps => forall name profile, ps !! name = Some profile -> profile_ok definitions maxTools name profile));
    [| |exact H]; [|intros name profile Hl; by rewrite lookup_empty in Hl].
  intros item ps ps' _ Hps Hstep. unfold compile_profile in Hstep. destruct (bool_decide (_ ∈ _)) eqn:Hin in Hstep; [|done].
  cbn [negb] in Hstep. destruct (_ || _) eqn:Hb in Hstep; [done|]. rewrite !orb_false_iff, Z.eqb_neq, Z.ltb_ge in Hb. inv_bind Hstep. injection Hstep as <-.
  intros name profile. rewrite lookup_insert_Some. intros [[<- <-]|[_ Hl]]; [|by apply Hps].
  destruct (compile_refs_ok definitions _ Hc (∅, []) a 0 (map_empty_subseteq _) (Nat.eq_le_incl _ _ map_size_empty) E) as (H1 & H2 & H3).
  apply bool_decide_eq_true in Hin. unfold slen in Hb. split_and!; [done|done| |lia].
  apply H3. intros Hz. rewrite Hz in Hb. cbn in Hb. lia.
Qed.

(** What a compiled tool set is: the three profiles, each a bounded and not empty
    choice of declared tools whose servers are compiled, agreeing on every name;
    and servers with public endpoints. *)
Record toolset_ok (spec : ToolSetSpec) (servers : gmap string compiledServer) (profiles : gmap string (gmap string compiledTool)) : Prop := {
  ok_names : dom profiles = list_to_set profile_names;
  ok_sizes : forall p profile, profiles !! p = Some profile ->
    (0 < size profile)%nat /\ Z.of_nat (size profile) <= Spec_MaxToolsPerPhase spec <= MaxToolsPerPhase;
  ok_tools : forall p profile name tool, profiles !! p = Some profile -> profile !! name = Some tool ->
    tool_name tool = name /\ declared spec tool /\ is_Some (servers !! tool_server tool);
  ok_agree : forall p p' profile profile' name tool tool', profiles !! p = Some profile -> profiles !! p' = Some profile' ->
    profile !! name = Some tool -> profile' !! name = Some tool' -> tool = tool';
  ok_servers : forall name s, servers !! name = Some s -> server_compiled spec name s
}.

Lemma compileToolSet_ok spec servers profiles : compileToolSet spec = Ok (servers, profiles) -> toolset_ok spec servers profiles.
Proof.
  unfold compileToolSet. destruct (_ || _) eqn:Hb in |- *; [done|]. intros H. inv_bind H. inv_bind H. destruct (forallb _ _) eqn:Hall; [|done].
  injection H as <- <-. rewrite !orb_false_iff, !Z.ltb_ge in Hb. apply compile_servers_ok in E as [Hs Hd].
  assert (Hc : forall name tool, a.2 !! name = Some tool -> cloneCompiledTool tool = tool).
  { intros name tool Hl. destruct (Hd _ _ Hl) as (_ & Hdecl & _). by eapply clone_declared. }
  pose proof (compile_profiles_ok _ _ _ _ Hc E0) as Hp. split.
  - apply set_eq. intros p. rewrite elem_of_dom, elem_of_list_to_set. split.
    + intros [profile Hl]. by apply (Hp _ _ Hl).
    + rewrite forallb_true, Forall_forall in Hall. intros Hin. by apply Hall, bool_decide_eq_true in Hin.
  - intros p profile Hl. destruct (Hp _ _ Hl) as (_ & _ & H1 & H2). split; [done|lia].
  - intros p profile name tool Hl Ht. destruct (Hp _ _ Hl) as (_ & Hsub & _). by apply Hd, (lookup_weaken _ _ _ _ Ht Hsub).
  - intros p p' profile profile' name tool tool' Hl Hl' Ht Ht'. destruct (Hp _ _ Hl) as (_ & Hsub & _). destruct (Hp _ _ Hl') as (_ & Hsub' & _).
    apply (lookup_weaken _ _ _ _ Ht) in Hsub. apply (lookup_weaken _ _ _ _ Ht') in Hsub'. congruence.
  - exact Hs.
Qed.

(** The tools of a broker are those of its profiles. *)
Lemma flatten_lookup spec servers profiles name tool : toolset_ok spec servers profiles ->
  flattenCompiledProfiles profiles !! name = Some tool <-> exists p profile, profiles !! p = Some profile /\ profile !! name = Some tool.
Proof.
  intros Hok. assert (Hclone : forall p profile, profiles !! p = Some profile -> cloneCompiledTool <$> profile = profile).
  { intros p profile Hl. apply map_eq. intros n. rewrite lookup_fmap. destruct (profile !! n) as [t|] eqn:Ht; [|done]. cbn. f_equal.
    eapply clone_declared. by eapply ok_tools. }
  unfold flattenCompiledProfiles. revert tool.
  apply (map_fold_weak_ind (fun tools (ps : gmap string (gmap string compiledTool)) => ps ⊆ profiles -> forall tool,
    (tools !! name = Some tool <-> exists p profile, ps !! p = Some profile /\ profile !! name = Some tool))); [| |done].
  - intros _ tool. rewrite lookup_empty. split; [done|]. intros (p & profile & Hl & _). by rewrite lookup_empty in Hl.
  - intros p profile ps tools Hfresh IH Hsub tool.
    assert (Hp : profiles !! p = Some profile) by (eapply lookup_weaken; [|exact Hsub]; apply lookup_insert_eq).
    assert (Hps : ps ⊆ profiles) by (etransitivity; [by apply insert_subseteq|done]).
    specialize (IH Hps). rewrite (Hclone _ _ Hp), lookup_union_Some_raw. split.
    + intros [Ht|[_ Ht]].
      * apply IH in Ht as (p' & profile' & Hl & Ht). exists p', profile'. split; [|done]. rewrite lookup_insert_ne; [done|]. congruence.
      * exists p, profile. by rewrite lookup_insert_eq.
    + intros (p' & profile' & Hl & Ht). apply lookup_insert_Some in Hl as [[<- <-]|[Hne Hl]]; [|left; apply IH; eauto].
      destruct (tools !! name) as [t|] eqn:Et; [|by right]. left. f_equal. destruct (proj1 (IH t) eq_refl) as (p' & profile' & Hl' & Ht').
      eapply (ok_agree _ _ _ Hok); [exact (lookup_weaken _ _ _ _ Hl' Hps)|exact Hp|done|done].
Qed.

(** ** Providers *)

Definition provider_compiled (spec : ModelRouteSpec) (p : compiledProvider) : Prop :=
  exists declared endpoint, declared ∈ Providers spec /\ provider_name p = Provider_Name declared /\ provider_kind p = Provider_Kind declared /\
    provider_model p = Provider_Model declared /\ provider_credentialRef p = Provider_CredentialRef declared /\
    provider_priority p = Provider_Priority declared /\ validate_provider_endpoint endpoint (provider_kind p) = Ok (provider_endpoint p).

Definition providers_ok (spec : ModelRouteSpec) (providers : list compiledProvider) : Prop :=
  NoDup (map provider_name providers) /\ NoDup (map provider_model providers) /\ Forall (provider_compiled spec) providers.

Lemma NoDup_snoc {A : Type} (x : A) l : x ∉ l -> NoDup l -> NoDup (l ++ [x]).
Proof. intros Hx Hl. apply NoDup_app. split_and!; [done| |apply NoDup_singleton]. intros y Hy ->%list_elem_of_singleton. done. Qed.

Lemma compile_provider_ok spec custom provider ps ps' : provider ∈ Providers spec -> providers_ok spec ps ->
  compile_provider custom ps provider = Ok ps' -> providers_ok spec ps' /\ length ps' = S (length ps).
Proof.
  intros Hp (Hn & Hm & Hf) H. unfold compile_provider in H. cbv zeta in H. destruct (_ || _) in H; [done|].
  destruct (bool_decide (Provider_Name provider ∈ _)) eqn:Hnn in H; [done|]. destruct (negb _) in H; [done|].
  destruct (bool_decide (Provider_Model provider ∈ _)) eqn:Hmm in H; [done|]. destruct (_ && _) in H; [done|].
  destruct (if TrimSpace _ =?= "" then _ else _) as [endpoint|] in H; [|done]. inv_bind H. injection H as <-.
  apply bool_decide_eq_false in Hnn, Hmm. rewrite length_app. cbn [length]. split; [|lia]. unfold providers_ok. rewrite !map_app.
  split_and!; [by apply NoDup_snoc..|]. apply Forall_app. split; [done|]. constructor; [|constructor]. exists provider, endpoint. by split_and!.
Qed.

Lemma compile_provider_all spec custom items : forall ps ps', items ⊆ Providers spec -> providers_ok spec ps ->
  fold_result (compile_provider custom) ps items = Ok ps' -> providers_ok spec ps' /\ length ps' = (length ps + length items)%nat.
Proof.
  induction items as [|x items IH]; intros ps ps' Hsub Hok H; cbn in H; [injection H as <-; cbn; split; [done|lia]|].
  destruct (compile_provider custom ps x) as [mid|] eqn:E; [|done].
  apply (compile_provider_ok spec) in E as [Hmid Hl]; [|apply Hsub; left|done].
  apply IH in H as [H1 H2]; [|intros y Hy; apply Hsub; by right|done]. cbn. split; [done|lia].
Qed.

Lemma compileProviders_ok spec custom providers : compileProviders spec custom = Ok providers ->
  providers_ok spec providers /\ (0 < length providers <= 16)%nat /\
  Sorted (cmp_le (compare_pair Z.compare String.compare)) (map provider_key providers).
Proof.
  unfold compileProviders. destruct (_ || _) eqn:Hb in |- *; [done|]. intros H. inv_bind H. injection H as <-.
  rewrite !orb_false_iff, Z.eqb_neq, Z.ltb_ge in Hb. unfold slen in Hb.
  apply (compile_provider_all spec) in E as [(Hn & Hm & Hf) Hl]; [|done|by split_and!; constructor].
  assert (Hperm : sort_on provider_key (compare_pair Z.compare String.compare) a ≡ₚ a) by apply sort_on_perm.
  assert (Hs : Sorted (cmp_le (compare_pair Z.compare String.compare)) (map provider_key (sort_on provider_key (compare_pair Z.compare String.compare) a)))
    by (apply sort_on_keys, _).
  revert Hperm Hs. generalize (sort_on provider_key (compare_pair Z.compare String.compare) a). intros s Hperm Hs. cbn in Hl.
  split_and!; [split_and!; by rewrite Hperm|rewrite Hperm; lia..|exact Hs].
Qed.

(** ** Amounts *)

Lemma wrap64_id n : - 2 ^ 63 <= n < 2 ^ 63 -> wrap64 n = n.
Proof. intros H. unfold wrap64. rewrite Z.mod_small; lia. Qed.

Lemma ParseInt_some l n : ParseInt l = Some n <-> digits_val l = n /\ n <= max_int64.
Proof. unfold ParseInt. case_match; naive_solver lia. Qed.

Lemma pad_six_digits l : digits l -> digits (pad_six l).
Proof. intros H. apply Forall_app. split; [done|]. generalize (6 - length l)%nat. intros n. induction n; constructor; done. Qed.

Lemma forallb_digits l : forallb is_digit l = true <-> digits l.
Proof. unfold digits. by rewrite forallb_true. Qed.

Lemma parseMicros_range value v : parseMicros value = Ok v -> 0 <= v <= max_int64.
Proof.
  unfold parseMicros. cbv zeta. destruct (_ || _) in |- *; [done|]. set (parts := split_bytes _ _). set (whole := default [] (head parts)).
  destruct (_ || _) in |- *; [done|]. destruct (_ && _) in |- *; [done|]. destruct (forallb is_digit whole) eqn:Hw; [|done]. cbn [negb].
  apply forallb_digits, digits_val_bound in Hw as [Hw _].
  assert (Hamount : forall fraction, digits fraction -> match ParseInt whole with
    | None => Err ErrInvalidConfig
    | Some w => if max_int64 / 1000000 <? w then Err ErrInvalidConfig
      else match ParseInt (pad_six fraction) with
      | None => Err ErrInvalidConfig
      | Some frac => if max_int64 - frac <? w * 1000000 then Err ErrInvalidConfig else Ok (w * 1000000 + frac)
      end
    end = Ok v -> 0 <= v <= max_int64).
  { intros fraction [Hf _]%pad_six_digits%digits_val_bound. destruct (ParseInt whole) as [w|] eqn:Ew; [|done]. case_match; [done|].
    destruct (ParseInt (pad_six fraction)) as [f|] eqn:Ef; [|done]. apply ParseInt_some in Ew as [<- _], Ef as [<- _].
    destruct (Z.ltb_spec (max_int64 - digits_val (pad_six fraction)) (digits_val whole * 1000000)) as [|Hl]; [done|]. intros [= <-]. lia. }
  destruct parts as [|p [|fraction [|]]]; try (apply Hamount; constructor). destruct (_ || _) in |- *; [done|].
  destruct (forallb is_digit fraction) eqn:Hf; [|done]. apply forallb_digits in Hf. by apply Hamount.
Qed.

(** ** Limits *)

Lemma tighter_spec configured route fallback : let limit := tighter configured route fallback in
  (0 < limit -> 0 < route -> limit <= route) /\ (0 < configured -> 0 < limit -> limit <= configured).
Proof.
  unfold tighter, or_default. cbv zeta. destruct (Z.eqb_spec configured 0); cbn [orb].
  { case_match; lia. }
  destruct (Z.ltb_spec 0 route), (Z.ltb_spec route configured); cbn [andb]; case_match; lia.
Qed.

Lemma normalizeLimits_ok config limits : normalizeLimits config = Ok limits ->
  1 <= maxToolCalls limits <= MaxConfiguredToolCalls /\ 256 <= maxMCPRequest limits <= MaxDocumentBytes /\
  256 <= maxToolResult limits <= MaxDocumentBytes /\ maxToolResult limits <= maxMCPResponse limits <= Z.shiftl 64 20 /\
  256 <= maxModelRequest limits <= MaxDocumentBytes /\ 256 <= maxModelResponse limits <= Z.shiftl 128 20 /\ 1 <= maxArtifact limits <= Z.shiftl 128 20.
Proof.
  unfold normalizeLimits. cbv zeta. destruct (_ || _) eqn:H1 in |- *; [done|]. destruct (_ || _) eqn:H2 in |- *; [done|]. intros [= <-].
  rewrite !orb_false_iff, !Z.ltb_ge in H1, H2. cbn -[Z.shiftl MaxDocumentBytes MaxConfiguredToolCalls]. lia.
Qed.

(** ** Brokers *)

(** Whether a broker that was built, with the state it starts in, is what the
    configuration asks for. *)
Record broker_ok (config : Config) (b : Broker) (s : broker_state) : Prop := {
  ok_identity : broker_runUID b = Config_RunUID config /\ broker_specDigest b = Config_SpecDigest config /\
    broker_baseSHA b = Config_BaseSHA config /\ validRunIdentity (broker_runUID b) (broker_specDigest b) (broker_baseSHA b) = true;
  ok_toolset : toolset_ok (ToolSet config) (broker_servers b) (broker_profiles b);
  ok_flattened : forall name tool, broker_tools b !! name = Some tool <->
    exists p profile, broker_profiles b !! p = Some profile /\ profile !! name = Some tool;
  ok_effects : forall name tool, broker_tools b !! name = Some tool -> tool_effect tool <> EffectRead -> Config_Effects config = true;
  ok_route : providers_ok (ModelRoute config) (broker_providers b) /\ (0 < length (broker_providers b) <= 16)%nat /\
    Sorted (cmp_le (compare_pair Z.compare String.compare)) (map provider_key (broker_providers b));
  ok_credentials : (exists name server, broker_servers b !! name = Some server /\ server_credentialRef server <> "") \/
    (exists p, p ∈ broker_providers b /\ provider_credentialRef p <> "") -> broker_credentials b = true;
  ok_mode : broker_mode b ∈ [BrokerModeAgent; BrokerModeVerifier] /\
    phase s = (if broker_mode b =?= BrokerModeVerifier then ToolProfileVerify else ToolProfileExplore) /\
    is_Some (broker_profiles b !! phase s);
  ok_limits : normalizeLimits config = Ok (broker_limits b);
  ok_counters : let m := budget s in
    toolCalls m = 0 /\ modelRequests m = 0 /\ modelTokens m = 0 /\ modelCostMicros m = 0 /\ reservedTokens m = 0 /\ reservedCost m = 0 /\
    budget_maxToolCalls m = maxToolCalls (broker_limits b);
  ok_caps : let m := budget s in let route := Budget (ModelRoute config) in
    1 <= budget_maxToolCalls m <= MaxConfiguredToolCalls /\
    1 <= maxRequests m <= MaxConfiguredModelRequests /\ 1 <= maxTokens m <= MaxConfiguredModelTokens /\ 0 <= maxCostMicros m <= max_int64 /\
    (0 < MaxRequests route -> maxRequests m <= MaxRequests route) /\ (0 < MaxModelRequests config -> maxRequests m <= MaxModelRequests config) /\
    (0 < MaxTokens route -> maxTokens m <= MaxTokens route) /\ (0 < MaxModelTokens config -> maxTokens m <= MaxModelTokens config);
  ok_cost : exists routeCost, parseMicros (MaxCostUSD (Budget (ModelRoute config))) = Ok routeCost /\ maxCostMicros (budget s) <= routeCost /\
    (Config_MaxCostUSD config <> "" -> exists runCost, parseMicros (Config_MaxCostUSD config) = Ok runCost /\ maxCostMicros (budget s) <= runCost);
  ok_pricing : 0 < maxCostMicros (budget s) -> is_Some (broker_pricing b)
}.

Lemma has_refs servers providers :
  (exists name server, servers !! name = Some server /\ server_credentialRef server <> "") \/
  (exists p, p ∈ providers /\ provider_credentialRef p <> "") -> hasCredentialRefs servers providers = true.
Proof.
  unfold hasCredentialRefs. intros [(name & server & Hl & Hr)|(p & Hp & Hr)]; apply orb_true_iff; [left|right];
    apply existsb_exists; eexists; (split; [apply list_elem_of_In|]).
  - by apply (elem_of_map_to_list _ name server).
  - cbn. by rewrite bool_decide_eq_false_2.
  - exact Hp.
  - by rewrite bool_decide_eq_false_2.
Qed.

Lemma has_mutating tools name tool : tools !! name = Some tool -> tool_effect tool <> EffectRead -> hasMutatingTools tools = true.
Proof.
  intros Hl Hr. apply existsb_exists. exists (name, tool). split; [by apply list_elem_of_In, elem_of_map_to_list|]. cbn. by rewrite bool_decide_eq_false_2.
Qed.

(** The cost cap is the lower of those of the route and of the run. *)
Lemma cost_cap config routeCost maxCost : parseMicros (MaxCostUSD (Budget (ModelRoute config))) = Ok routeCost ->
  (if Config_MaxCostUSD config =?= "" then Ok routeCost
   else let? runCost := parseMicros (Config_MaxCostUSD config) in Ok (if runCost <? routeCost then runCost else routeCost)) = Ok maxCost ->
  0 <= maxCost <= max_int64 /\ maxCost <= routeCost /\
  (Config_MaxCostUSD config <> "" -> exists runCost, parseMicros (Config_MaxCostUSD config) = Ok runCost /\ maxCost <= runCost).
Proof.
  intros Hroute%parseMicros_range H. case_bool_decide as Hc; [injection H as <-; split_and!; try done; lia|]. inv_bind H. injection H as <-.
  apply parseMicros_range in E as Hrun. destruct (Z.ltb_spec a routeCost); (split_and!; [lia..|]); intros _; exists a; (split; [done|lia]).
Qed.

Lemma NewBroker_ok config b s : NewBroker config = Ok (b, s) -> broker_ok config b s.
Proof.
  intros H. unfold NewBroker in H. cbv zeta in H. destruct (validRunIdentity _ _ _) eqn:Hid in H; [|done]. cbn [negb] in H.
  destruct (_ && _) in H; [done|]. destruct (_ && _) in H; [done|]. destruct (_ && _) in H; [done|].
  destruct (normalizeLimits config) as [limits|] eqn:Hlim; [|done]. cbn [result_bind] in H.
  destruct (compileToolSet _) as [[servers profiles]|] eqn:Htools; [|done]. cbn [result_bind] in H.
  set (mode := if Config_Mode config =?= "" then _ else _) in H. destruct (_ && _) eqn:Hmode in H; [done|].
  destruct (compileProviders _ _) as [providers|] eqn:Hprov; [|done]. cbn [result_bind] in H.
  destruct (parseMicros _) as [routeCost|] eqn:Hroute in H; [|done]. cbn [result_bind] in H.
  destruct (if Config_MaxCostUSD config =?= "" then _ else _) as [maxCost|] eqn:Hcost in H; [|done]. cbn [result_bind] in H.
  destruct (_ && _) eqn:Hprice in H; [done|]. destruct (_ && _) eqn:Hcred in H; [done|]. destruct (_ && _) eqn:Heff in H; [done|].
  destruct (_ || _) eqn:Hcaps in H; [done|]. injection H as <- <-. rewrite !orb_false_iff, !Z.ltb_ge in Hcaps.
  apply compileToolSet_ok in Htools. apply compileProviders_ok in Hprov. destruct (cost_cap _ _ _ Hroute Hcost) as (Hc1 & Hc2 & Hc3).
  pose proof (normalizeLimits_ok _ _ Hlim) as Hl.
  split; cbn -[MaxConfiguredToolCalls MaxConfiguredModelRequests MaxConfiguredModelTokens max_int64].
  - done.
  - done.
  - intros name tool. by eapply flatten_lookup.
  - intros name tool Ht Hr. rewrite (has_mutating _ _ _ Ht Hr) in Heff. by destruct (Config_Effects config).
  - done.
  - intros Hr%has_refs. rewrite Hr, andb_true_r in Hcred. by destruct (Config_Credentials config).
  - split_and!; [| |].
    + rewrite andb_false_iff, !negb_false_iff, !bool_decide_eq_true in Hmode. destruct Hmode as [->| ->]; set_solver.
    + done.
    + apply elem_of_dom. rewrite (ok_names _ _ _ Htools), elem_of_list_to_set. unfold initialBrokerPhase.
      destruct (mode =?= BrokerModeVerifier); by eapply bool_decide_eq_true_1.
  - done.
  - by split_and!.
  - set (route := Budget (ModelRoute config)).
    pose proof (tighter_spec (MaxModelRequests config) (MaxRequests route) DefaultMaxModelRequests) as Hreq.
    pose proof (tighter_spec (MaxModelTokens config) (MaxTokens route) DefaultMaxModelTokens) as Htok. cbv zeta in Hreq, Htok.
    fold route in Hcaps. split_and!; lia.
  - by exists routeCost.
  - intros Hpos. apply Z.ltb_lt in Hpos. rewrite Hpos in Hprice. cbn in Hprice. apply bool_decide_eq_false in Hprice. by apply not_eq_None_Some.
Qed.

(** C9. A broker that [New] builds is well formed: its profiles are exactly the
    three of the contract, each a choice of at most [MaxToolsPerPhase] declared
    tools with one meaning per name, on servers with public endpoints; its
    providers have distinct names and models and are in order of priority; what
    needs credentials, an effect ledger or prices has them; it starts in the phase
    of its mode with nothing spent; and each of its caps is within its range and
    no looser than the route and the run ask for. *)
Theorem broker_well_formed config b s (H : NewBroker config = Ok (b, s)) : broker_ok config b s.
Proof. by apply NewBroker_ok. Qed.

(** ** A sample *)

Definition sample_toolset : ToolSetSpec :=
  MkToolSet
    [MkToolServer "files" "https://files.example.com/mcp" "files-token"
       [MkToolDefinition "read_file" EffectRead None; MkToolDefinition "write_file" EffectWrite (Some (MkExact 1 (Some (doc "{'mode':'append'}"))))]]
    [MkToolProfile ToolProfileExplore [MkToolRef "files" "read_file"];
     MkToolProfile ToolProfileEdit [MkToolRef "files" "read_file"; MkToolRef "files" "write_file"];
     MkToolProfile ToolProfileVerify [MkToolRef "files" "read_file"]] 4.

Definition sample_route : ModelRouteSpec :=
  MkRoute [MkProvider "main" "openai-responses" "gpt-large" "openai-key" 2; MkProvider "spare" "openrouter-responses" "open-small" "" 1]
    (MkBudget "2.50" 200000 40).

Definition sample_config : Config :=
  MkConfig "run-1" (digestBytes (bytes "spec")) "0123456789abcdef0123456789abcdef01234567" sample_toolset sample_route "" true true true
    (Some (fun provider _ input output => match EstimateCost {["main" := MkPricing 3 15; "spare" := MkPricing 1 2]} provider input output with Ok v => Some v | Err _ => None end))
    "/workspace" "" "" "" "" ∅ 0 "1" 0 0 0 0 0 0 0 0 true.

Lemma broker_well_formed_witness : exists b s, NewBroker sample_config = Ok (b, s) /\ broker_ok sample_config b s /\
  maxCostMicros (budget s) = 1000000 /\ map provider_name (broker_providers b) = ["spare"; "main"] /\ size (broker_tools b) = 2%nat.
Proof.
  assert (Hc : match NewBroker sample_config with
    | Ok (b, s) => (maxCostMicros (budget s) =? 1000000) && bool_decide (map provider_name (broker_providers b) = ["spare"; "main"]) &&
                   bool_decide (size (broker_tools b) = 2%nat)
    | Err _ => false
    end = true) by (vm_compute; reflexivity).
  destruct (NewBroker sample_config) as [[b s]|] eqn:H; [|discriminate Hc]. rewrite !andb_true_iff, Z.eqb_eq, !bool_decide_eq_true in Hc.
  exists b, s. split; [reflexivity|]. split; [exact (broker_well_formed _ _ _ H)|]. destruct Hc as [[? ?] ?]. split_and!; assumption.
Defined.

(** ** Prices *)

Definition is_int64 (n : Z) : Prop := - 2 ^ 63 <= n < 2 ^ 63.

Lemma quotient_guard n p : 0 <= n -> 0 <= p -> (max_int64 / Z.max p 1 <? n) = true -> max_int64 < n * p \/ p = 0 /\ max_int64 < n.
Proof.
  intros Hn Hp H%Z.ltb_lt. assert (Hm : 0 < Z.max p 1) by lia. pose proof (Z.mul_succ_div_gt max_int64 _ Hm) as Hd.
  destruct (Z.max_spec p 1) as [[? E]|[? E]]; rewrite E in *; [right; rewrite Z.div_1_r in H; lia|left; nia].
Qed.

Lemma quotient_fits n p : 0 <= n -> 0 <= p -> (max_int64 / Z.max p 1 <? n) = false -> n * p <= max_int64.
Proof.
  intros Hn Hp H%Z.ltb_ge. assert (Hm : 0 < Z.max p 1) by lia. pose proof (Z.mul_div_le max_int64 _ Hm) as Hd. nia.
Qed.

(** The exact cost of an exchange. *)
Definition exact_cost (price : Pricing) (inputTokens outputTokens : Z) : Z :=
  inputTokens * InputMicrosPerToken price + outputTokens * OutputMicrosPerToken price.
Definition price_ok (price : Pricing) (inputTokens outputTokens : Z) : bool :=
  (0 <=? inputTokens) && (0 <=? outputTokens) && (0 <=? InputMicrosPerToken price) && (0 <=? OutputMicrosPerToken price).

(** The cost of an exchange is exact: for every 64-bit count of tokens it is
    the sum of the two products when that is a 64-bit number, and otherwise the
    budget is exceeded; no product and no sum wraps.  A provider without a price
    and a negative count or price are configuration errors. *)
Theorem estimate_exact table provider inputTokens outputTokens (Hi : is_int64 inputTokens) (Ho : is_int64 outputTokens) :
  EstimateCost table provider inputTokens outputTokens =
  match table !! provider with
  | Some price =>
    if price_ok price inputTokens outputTokens then
      if exact_cost price inputTokens outputTokens <=? max_int64 then Ok (exact_cost price inputTokens outputTokens) else Err ErrBudgetExceeded
    else Err ErrInvalidConfig
  | None => Err ErrInvalidConfig
  end.
Proof.
  unfold EstimateCost, price_ok, exact_cost, is_int64 in *. destruct (table !! provider) as [[pi po]|]; [|done]. cbn [InputMicrosPerToken OutputMicrosPerToken].
  destruct (Z.ltb_spec inputTokens 0), (Z.leb_spec 0 inputTokens); try lia; [done|].
  destruct (Z.ltb_spec outputTokens 0), (Z.leb_spec 0 outputTokens); try lia; [done|].
  destruct (Z.ltb_spec pi 0), (Z.leb_spec 0 pi); try lia; [done|]. destruct (Z.ltb_spec po 0), (Z.leb_spec 0 po); try lia; [done|]. cbn [orb andb].
  assert (Hmax : max_int64 = 2 ^ 63 - 1) by done. assert (0 <= inputTokens * pi) by lia. assert (0 <= outputTokens * po) by lia.
  destruct (max_int64 / Z.max pi 1 <? inputTokens) eqn:Gi; cbn [orb].
  { apply quotient_guard in Gi; [|lia..]. destruct (Z.leb_spec (inputTokens * pi + outputTokens * po) max_int64); [lia|done]. }
  destruct (max_int64 / Z.max po 1 <? outputTokens) eqn:Go.
  { apply quotient_guard in Go; [|lia..]. destruct (Z.leb_spec (inputTokens * pi + outputTokens * po) max_int64); [lia|done]. }
  apply quotient_fits in Gi, Go; [|lia..]. cbv zeta. rewrite (wrap64_id (inputTokens * pi)), (wrap64_id (outputTokens * po)) by (unfold is_int64; lia).
  rewrite wrap64_id by (unfold is_int64; lia).
  destruct (Z.ltb_spec (max_int64 - outputTokens * po) (inputTokens * pi)), (Z.leb_spec (inputTokens * pi + outputTokens * po) max_int64); try lia; [done|].
  rewrite wrap64_id by (unfold is_int64; lia). done.
Qed.

Lemma estimate_exact_witness : is_int64 (2 ^ 62) /\ EstimateCost {["p" := MkPricing 3 1]} "p" (2 ^ 62) 1 = Err ErrBudgetExceeded.
Proof.
  assert (Hb : is_int64 (2 ^ 62)) by (unfold is_int64; lia). assert (H1 : is_int64 1) by (unfold is_int64; lia).
  split; [exact Hb|]. rewrite (estimate_exact {["p" := MkPricing 3 1]} "p" (2 ^ 62) 1 Hb H1). vm_compute. reflexivity.
Defined.

Example estimate_sample : EstimateCost {["p" := MkPricing 3 15]} "p" 9 40 = Ok 627.
Proof. vm_compute. reflexivity. Qed.
