(* ===== verification/BrokerCalls.v ===== *)
(** * Tool calls and phases (src/v3/internal/broker/calls.go, phase.go)

    [CallTool] is a program of calls to the ledger and of requests to its
    surroundings: the lock-protected state of the broker, the context, the
    credential resolver, the upstream server and the shaping of its result.  Each
    request may be answered in any way; what the first two answer in a broker is
    [lookupToolForCall] and [reserveToolCall]. *)

From S2P Require Import Prelude GoStrings Digest GoTime GoJson StrictJson Store Effects LedgerProtocol Client BrokerData ToolPolicy BrokerPolicy.
Local Open Scope go_scope.
Local Open Scope string_scope.
Local Open Scope Z_scope.
Local Open Scope list_scope.

(** ** Phases *)

(** The authorizer and the two looks at the context are answered from outside:
    [None] is no error. *)
Definition TransitionToEdit (b : Broker) (ctxErr authorization ctxErr' : option broker_error) (s : broker_state) :
  option broker_error * broker_state :=
  if (broker_mode b !=? BrokerModeAgent) || ((phase s !=? ToolProfileExplore) && (phase s !=? ToolProfileEdit)) ||
     negb (broker_phaseAuthorizer b) then (Some ErrPhaseTransitionDenied, s)
  else match ctxErr with
  | Some e => (Some e, s)
  | None =>
    match authorization with
    | Some _ => (Some ErrPhaseTransitionDenied, s)
    | None =>
      match ctxErr' with
      | Some e => (Some e, s)
      | None => if phase s =?= ToolProfileEdit then (None, s) else (None, MkBrokerState ToolProfileEdit (budget s))
      end
    end
  end.

Inductive toolLookupResult : Type := toolLookupUnknown | toolLookupAllowed (tool : compiledTool) | toolLookupPhaseDenied.

Definition lookupToolForCall (b : Broker) (current server name : string) : toolLookupResult :=
  match broker_tools b !! name with
  | None => toolLookupUnknown
  | Some tool =>
    if tool_server tool !=? server then toolLookupUnknown
    else match broker_profiles b !! current ≫= lookup name with
    | None => toolLookupPhaseDenied
    | Some current => toolLookupAllowed current
    end
  end.

Definition currentTools (b : Broker) (s : broker_state) : gmap string compiledTool :=
  cloneCompiledTool <$> default ∅ (broker_profiles b !! phase s).

(** ** The budget of tool calls *)

Definition reserveToolCall (b : budgetState) : option broker_error * budgetState :=
  if budget_maxToolCalls b <=? toolCalls b then (Some ErrBudgetExceeded, b)
  else (None, MkBudgetState (toolCalls b + 1) (modelRequests b) (modelTokens b) (modelCostMicros b) (reservedTokens b)
                (reservedCost b) (budget_maxToolCalls b) (maxRequests b) (maxTokens b) (maxCostMicros b)).

(** ** The surroundings of a call *)

Record mcpCallResponse : Type := MkResponse { response_content : list Z; response_isError : bool }.
Record ToolResultReference : Type := MkResultReference {
  Reference_URI : string;
  Reference_Path : string;
  Reference_Digest : string;
  Reference_SizeBytes : Z
}.
Record shapedToolResult : Type := MkShaped { shaped_content : list Z; shaped_reference : option ToolResultReference; shaped_digest : string }.

(** [Phase] reads the phase under its lock, [Reserve] counts a call, [CtxErr]
    looks at the context.  [InvokeMCP] is told which tool it is for. *)
Inductive broker_request : Type :=
| Phase
| Reserve
| CtxErr
| ResolveToken (logicalRef : string)
| InvokeMCP (tool : compiledTool) (endpoint server name : string) (arguments : list Z) (credential : list Z)
| ShapeResult (raw : list Z) (isError : bool) (credential : list Z).

Definition broker_answer (r : broker_request) : Type :=
  match r with
  | Phase => string
  | Reserve => option broker_error
  | CtxErr => bool
  | ResolveToken _ => option (list Z)
  | InvokeMCP _ _ _ _ _ _ => result broker_error mcpCallResponse
  | ShapeResult _ _ _ => result broker_error shapedToolResult
  end.

(** Only the invocation of a tool that is not a read acts on the world. *)
Definition mutating (tool : compiledTool) : bool := tool_effect tool !=? EffectRead.

#[global] Instance Surroundings : Service := {|
  service_request := broker_request;
  service_answer := broker_answer;
  acts r := match r with InvokeMCP tool _ _ _ _ _ => mutating tool | _ => false end
|}.

Notation call := (client Surroundings).
Definition Ask {A : Type} (r : broker_request) (k : broker_answer r -> call A) : call A := @CallService Surroundings A r k.

(** ** [CallTool] *)

Record ToolCallRequest : Type := MkCallRequest {
  Call_Server : string;
  Call_Tool : string;
  Call_Arguments : list Z;
  Call_Approved : bool
}.
Record ToolCallResult : Type := MkCallResult {
  Call_Content : list Z;
  Call_EffectKey : string;
  Call_EffectState : string;
  Call_Reference : option ToolResultReference
}.
Notation call_answer := (result broker_error ToolCallResult).

Definition approvalMode (effect : string) (required : bool) : string :=
  if (effect =?= EffectRead) || negb required then ApprovalAllow else ApprovalRequired.
Definition effectOperation (effect : string) : string := if effect =?= EffectPublish then "mcp-publish" else "mcp-write".

Definition requestDigest (server tool : string) (arguments : list Z) : string :=
  digestBytes (bytes server ++ [0] ++ bytes tool ++ [0] ++ arguments).

(** [resolveCredential]: the context is only looked at after a failure. *)
Definition resolveCredential {A : Type} (b : Broker) (logicalRef : string) (k : result broker_error (list Z) -> call A) : call A :=
  if logicalRef =?= "" then k (Ok [])
  else if negb (broker_credentials b) then k (Err ErrCredentialUnavailable)
  else Ask (ResolveToken logicalRef) (fun token : option (list Z) =>
    match token with
    | None => Ask CtxErr (fun done : bool => k (Err (if done then ErrContext else ErrCredentialUnavailable)))
    | Some value => if boundedCredential value then k (Ok value) else k (Err ErrCredentialUnavailable)
    end).

(** [commitEffect] of a broker with a ledger and a key; [true] when recorded. *)
Definition commitEffect {A : Type} (effectKey digest state resultDigest resultRef : string) (k : bool -> call A) : call A :=
  if effectKey =?= "" then k false
  else CallCommit (MkOutcome 0 effectKey digest "" state resultDigest resultRef zeroTime)
         (fun err => k (match err with None => true | Some _ => false end)).

(** After the upstream call, every doubt is an unknown effect. *)
Definition unknown_effect (effectKey digest : string) : call call_answer :=
  commitEffect effectKey digest OutcomeUnknown "" "" (fun _ => Done (Err ErrBrokerUnknownEffect)).

(** The call proper, with the claim granted when one was needed. *)
Definition perform_call (b : Broker) (tool : compiledTool) (server : compiledServer) (request : ToolCallRequest) (normalized : list Z)
  (effectKey digest : string) : call call_answer :=
  resolveCredential b (server_credentialRef server) (fun credential =>
    match credential with
    | Err e =>
      if mutating tool then
        commitEffect effectKey digest OutcomeFailed "" "" (fun recorded => Done (Err (if recorded then e else ErrBrokerUnknownEffect)))
      else Done (Err e)
    | Ok credential =>
      Ask (InvokeMCP tool (server_endpoint server) (Call_Server request) (Call_Tool request) normalized credential)
        (fun response : result broker_error mcpCallResponse =>
        match response with
        | Err e =>
          if mutating tool then unknown_effect effectKey digest
          else Ask CtxErr (fun done : bool => Done (Err (if done then ErrContext else e)))
        | Ok response =>
          if response_isError response && mutating tool then unknown_effect effectKey digest
          else Ask (ShapeResult (response_content response) (response_isError response) credential)
            (fun shaped : result broker_error shapedToolResult =>
            match shaped with
            | Err e => if mutating tool then unknown_effect effectKey digest else Done (Err e)
            | Ok shaped =>
              let resultRef := match shaped_reference shaped with Some r => Reference_URI r | None => "" end in
              if mutating tool then
                commitEffect effectKey digest OutcomeSucceeded (shaped_digest shaped) resultRef (fun recorded =>
                  if recorded then Done (Ok (MkCallResult (shaped_content shaped) effectKey "succeeded" (shaped_reference shaped)))
                  else unknown_effect effectKey digest)
              else Done (Ok (MkCallResult (shaped_content shaped) effectKey "read" (shaped_reference shaped)))
            end)
        end)
    end).

Definition call_claim (b : Broker) (tool : compiledTool) (effectKey digest : string) : Claim :=
  MkClaim 0 effectKey digest (effectOperation (tool_effect tool)) (broker_runUID b) zeroTime.

(** What follows the policy decision. *)
Definition dispatch (b : Broker) (tool : compiledTool) (request : ToolCallRequest) (normalized : list Z) : call call_answer :=
  match broker_servers b !! Call_Server request with
  | None => Done (Err ErrDenied)
  | Some server =>
    let digest := requestDigest (Call_Server request) (Call_Tool request) normalized in
    if mutating tool then
      match EffectKey (broker_runUID b) (broker_baseSHA b) digest (effectOperation (tool_effect tool)) with
      | Err _ => Done (Err ErrBrokerRequest)
      | Ok effectKey =>
        CallClaim (call_claim b tool effectKey digest) (fun a =>
          match a with
          | (decision, Some e) =>
            if (match e with ErrUnknown => true | _ => false end) || Unknown decision then Done (Err ErrBrokerUnknownEffect)
            else Ask CtxErr (fun done : bool => Done (Err (if done then ErrContext else ErrEffectLedgerUnavailable)))
          | (decision, None) =>
            if Unknown decision then Done (Err ErrBrokerUnknownEffect)
            else if negb (Execute decision) then Done (Err ErrEffectAlreadyClaimed)
            else perform_call b tool server request normalized effectKey digest
          end)
      end
    else perform_call b tool server request normalized "" digest
  end.

Definition policy_decision (b : Broker) (tool : compiledTool) (request : ToolCallRequest) (normalized : list Z) : ToolDecision :=
  Policy_Evaluate
    [MkGrant (Call_Server request) (Call_Tool request) [] (tool_policyEffect tool)
       (approvalMode (tool_effect tool) (requireApproval b)) (tool_exactArgs tool)]
    (MkToolRequest (Call_Server request) (Call_Tool request) "" normalized
       (Call_Approved request || negb (requireApproval b) || (tool_effect tool =?= EffectRead))).

Definition empty_object : list Z := bytes "{}".

Definition call_arguments (request : ToolCallRequest) : list Z :=
  if slen (Call_Arguments request) =? 0 then empty_object else Call_Arguments request.

Definition CallTool (b : Broker) (request : ToolCallRequest) : call call_answer :=
  if (Call_Server request =?= "") || (Call_Tool request =?= "") then Done (Err ErrBrokerRequest)
  else Ask Phase (fun current : string =>
    let lookup := lookupToolForCall b current (Call_Server request) (Call_Tool request) in
    match lookup with
    | toolLookupPhaseDenied => Done (Err ErrPhaseDenied)
    | _ =>
      Ask CtxErr (fun done : bool => if done then Done (Err ErrContext) else
      Ask Reserve (fun reserved : option broker_error =>
        match reserved with
        | Some e => Done (Err e)
        | None =>
          let arguments := call_arguments request in
          if (MaxCallArgumentsBytes <? slen arguments) || negb (is_ok (ValidateObject arguments)) then Done (Err ErrBrokerRequest)
          else match Normalize arguments with
          | Err _ => Done (Err ErrBrokerRequest)
          | Ok normalized =>
            if negb (is_ok (ValidateObject normalized)) then Done (Err ErrBrokerRequest)
            else match lookup with
            | toolLookupAllowed tool =>
              let decision := policy_decision b tool request normalized in
              if NeedsApproval decision then Done (Err ErrApprovalRequired)
              else if negb (Allowed decision) then Done (Err ErrDenied)
              else dispatch b tool request normalized
            | _ => Done (Err ErrDenied)
            end
          end
        end))
    end).
