(* ===== verification/BrokerCallsSpec.v ===== *)
(** * Tool calls: what reaches an upstream server *)

From S2P Require Import Prelude GoStrings Digest GoTime GoJson StrictJson Store Effects LedgerProtocol Client.
From S2P Require Import BrokerData ToolPolicy BrokerPolicy BrokerCalls.
Local Open Scope go_scope.
Local Open Scope string_scope.
Local Open Scope Z_scope.
Local Open Scope list_scope.

(** ** Discipline *)

Lemma commitEffect_passive {A : Type} key digest state rd ref (k : bool -> call A) :
  (forall b, passive (k b)) -> passive (commitEffect key digest state rd ref k).
Proof. intros H. unfold commitEffect. case_match; [apply H|]. intros []; apply H. Qed.

Lemma commitEffect_claimless {A : Type} key digest state rd ref (k : bool -> call A) :
  (forall b, claimless (k b)) -> claimless (commitEffect key digest state rd ref k).
Proof. intros H. unfold commitEffect. case_match; [apply H|]. intros []; apply H. Qed.

Lemma unknown_effect_passive key digest : passive (unknown_effect key digest).
Proof. by apply commitEffect_passive. Qed.
Hint Resolve unknown_effect_passive passive_claimless : core.

Lemma resolveCredential_all {A : Type} (P : call A -> Prop) b ref k :
  (forall r k, acts (Service := Surroundings) r = false -> (forall a, P (k a)) -> P (Ask r k)) -> (forall c, P (k c)) -> P (resolveCredential b ref k).
Proof.
  intros Hask Hk. unfold resolveCredential. case_match; [done|]. case_match; [done|]. apply Hask; [done|].
  intros [v|]; [case_match; apply Hk|]. apply Hask; [done|]. intros d. apply Hk.
Qed.

Lemma perform_claimless b tool server request normalized key digest : claimless (perform_call b tool server request normalized key digest).
Proof.
  apply (resolveCredential_all (@claimless Surroundings _)); [cbn; auto|]. intros [c|e]; [|case_match; [|done]; by apply commitEffect_claimless].
  intros [response|e]; [|case_match; [auto|done]]. case_match; [auto|]. intros [shaped|e]; [|case_match; [auto|done]].
  cbv zeta. case_match; [|done]. apply commitEffect_claimless. intros []; [done|auto].
Qed.

Lemma perform_passive b tool server request normalized key digest : mutating tool = false ->
  passive (perform_call b tool server request normalized key digest).
Proof.
  intros Hm. unfold perform_call. apply (resolveCredential_all (@passive Surroundings _)); [cbn; auto|]. rewrite Hm. intros [c|e]; [|done].
  split; [done|]. intros [response|e]; [|done]. rewrite andb_false_r. split; [done|]. by intros [shaped|e].
Qed.

Lemma dispatch_disciplined b tool request normalized : disciplined (dispatch b tool request normalized).
Proof.
  unfold dispatch. case_match; [|done]. cbv zeta. destruct (mutating tool) eqn:Hm; [|by apply passive_disciplined, perform_passive].
  case_match; [|done]. intros [d [e|]] Hn; [case_match; cbn; auto|]. case_match; [cbn; auto|].
  destruct (Execute d) eqn:Ex; cbn [negb]; [|cbn; auto]. split; [apply perform_claimless|left].
  destruct (Hn Ex) as [granted Hg]. exists granted. destruct d as [ex un oc]. cbn in *. by subst.
Qed.

Lemma call_disciplined b request : disciplined (CallTool b request).
Proof.
  unfold CallTool. case_match; [done|]. split; [done|]. intros current. cbv zeta.
  destruct (lookupToolForCall _ _ _ _) as [|tool|]; [| |done].
  all: split; [done|]; intros []; [done|]; split; [done|]; intros [e|]; [done|]; destruct (_ || _) in |- *; [done|];
    destruct (Normalize _) as [normalized|]; [|done]; destruct (negb _) in |- *; [done|]; try done.
  case_match; [done|]. case_match; [done|]. apply dispatch_disciplined.
Qed.

(** ** What an invocation needs *)

Notation served := (@Served Surroundings).

(** An invocation is of the tool that the profile of the phase read before gives
    the requested name, declared by the requested server, whose endpoint and
    credential are used; the call was counted; the arguments are the normal form
    of those given and equal to the fixed ones; and for a tool that is not a read
    approval was given when needed, and the ledger granted the claim of the
    effect to the call. *)
Record invocation_allowed (b : Broker) (request : ToolCallRequest) (past : list (event Surroundings)) (tool : compiledTool)
    (endpoint server name : string) (arguments credential : list Z) : Prop := {
  allowed_names : server = Call_Server request /\ name = Call_Tool request;
  allowed_phase : exists current, served Phase current ∈ past /\ broker_profiles b !! current ≫= lookup name = Some tool;
  allowed_server : exists declared host, broker_tools b !! name = Some declared /\ tool_server declared = server /\
    broker_servers b !! server = Some host /\ endpoint = server_endpoint host /\
    (server_credentialRef host = "" /\ credential = [] \/
     served (ResolveToken (server_credentialRef host)) (Some credential) ∈ past /\ boundedCredential credential = true);
  allowed_budget : served Reserve None ∈ past;
  allowed_arguments : Normalize (call_arguments request) = Ok arguments /\ slen (call_arguments request) <= MaxCallArgumentsBytes /\
    forall expected, tool_exactArgs tool = Some expected -> EqualObjects expected arguments = true;
  allowed_approval : mutating tool = true -> requireApproval b = true -> Call_Approved request = true;
  allowed_claim : mutating tool = true -> exists effectKey decision,
    EffectKey (broker_runUID b) (broker_baseSHA b) (requestDigest server name arguments) (effectOperation (tool_effect tool)) = Ok effectKey /\
    Claimed (call_claim b tool effectKey (requestDigest server name arguments)) (decision, None) ∈ past /\
    Execute decision = true /\ Unknown decision = false
}.

Definition invokes_allowed (b : Broker) (request : ToolCallRequest) (past : list (event Surroundings)) (p : call call_answer) : Prop :=
  forall tool endpoint server name arguments credential k,
    p = Ask (InvokeMCP tool endpoint server name arguments credential) k ->
    invocation_allowed b request past tool endpoint server name arguments credential.

Section Paths.
Context (b : Broker) (request : ToolCallRequest).
Notation Inv := (on_every_path (invokes_allowed b request)).

(** A step that is no invocation. *)
Lemma path_done past a : Inv past (Done a).
Proof. by split. Qed.
Lemma path_ask past r k : (forall tool e s n args c, r <> InvokeMCP tool e s n args c) ->
  (forall a, Inv (past ++ [Served r a]) (k a)) -> Inv past (Ask r k).
Proof.
  intros Hr Hk. split; [|exact Hk]. intros tool e s n args c k' E. exfalso. unfold Ask in E.
  assert (Hreq : r = InvokeMCP tool e s n args c) by congruence. by eapply Hr.
Qed.
Lemma path_commit past key digest state rd ref k :
  (forall past' recorded, Inv past' (k recorded)) -> Inv past (commitEffect key digest state rd ref k).
Proof. intros H. unfold commitEffect. case_match; [apply H|]. by split. Qed.
Lemma path_unknown past key digest : Inv past (unknown_effect key digest).
Proof. apply path_commit. intros. apply path_done. Qed.
Hint Resolve path_done path_unknown : core.

Lemma path_credential past ref k :
  (forall e past', Inv past' (k (Err e))) ->
  (forall c more, (ref = "" /\ c = [] \/ served (ResolveToken ref) (Some c) ∈ more /\ boundedCredential c = true) ->
     Inv (past ++ more) (k (Ok c))) -> Inv past (resolveCredential b ref k).
Proof.
  intros He Hk. unfold resolveCredential. case_bool_decide.
  { rewrite <- (app_nil_r past). apply Hk. by left. }
  case_match; [apply He|]. apply path_ask; [done|]. intros [v|].
  - destruct (boundedCredential v) eqn:Hv; [|apply He]. apply Hk. right. split; [by left|done].
  - apply path_ask; [done|]. intros d. apply He.
Qed.

Lemma path_perform past tool server normalized key digest :
  (forall c more, (server_credentialRef server = "" /\ c = [] \/
     served (ResolveToken (server_credentialRef server)) (Some c) ∈ more /\ boundedCredential c = true) ->
   invocation_allowed b request (past ++ more) tool (server_endpoint server) (Call_Server request) (Call_Tool request) normalized c) ->
  Inv past (perform_call b tool server request normalized key digest).
Proof.
  intros Hinv. apply path_credential.
  - intros e past'. case_match; [apply path_commit|]; auto.
  - intros c more Hc. split.
    { intros t ep s n args c' k' E. unfold Ask in E.
      assert (Hreq : InvokeMCP tool (server_endpoint server) (Call_Server request) (Call_Tool request) normalized c = InvokeMCP t ep s n args c')
        by congruence. injection Hreq as <- <- <- <- <- <-. by apply Hinv. }
    intros [response|e]; [|case_match; [auto|apply path_ask; auto; done]]. case_match; [auto|].
    apply path_ask; [done|]. intros [shaped|e]; [|case_match; auto]. cbv zeta. case_match; [|auto].
    apply path_commit. intros past' []; auto.
Qed.

(** What the policy decision gives. *)
Lemma decision_allows tool normalized : Allowed (policy_decision b tool request normalized) = true ->
  (forall expected, tool_exactArgs tool = Some expected -> EqualObjects expected normalized = true) /\
  (mutating tool = true -> requireApproval b = true -> Call_Approved request = true).
Proof.
  intros (g & Hg & Hm & Ha)%allowed_by_grant. apply list_elem_of_singleton in Hg as ->. split.
  - intros expected He. unfold grant_matches in Hm. cbn [Grant_Arguments ToolRequest_Arguments] in Hm. rewrite He in Hm.
    rewrite !andb_true_iff in Hm. apply Hm.
  - unfold mutating. cbn [Approval Grant_Effect ToolRequest_Approved] in Ha. intros Hmut Hreq. apply negb_true_iff in Hmut.
    rewrite Hmut, Hreq in Ha. unfold approvalMode in Ha. rewrite Hmut in Ha. cbn in Ha. rewrite !orb_false_r in Ha.
    destruct Ha as [Ha|[Ha|[Ha _]]]; done.
Qed.

Lemma lookup_allowed current server name tool : lookupToolForCall b current server name = toolLookupAllowed tool ->
  broker_profiles b !! current ≫= lookup name = Some tool /\
  exists declared, broker_tools b !! name = Some declared /\ tool_server declared = server.
Proof.
  unfold lookupToolForCall. destruct (broker_tools b !! name) as [declared|]; [|done]. case_bool_decide; [|done]. cbn [negb].
  destruct (_ ≫= _); [|done]. intros [= ->]. eauto.
Qed.

Lemma path_dispatch past current tool normalized :
  served Phase current ∈ past -> served Reserve None ∈ past ->
  lookupToolForCall b current (Call_Server request) (Call_Tool request) = toolLookupAllowed tool ->
  Normalize (call_arguments request) = Ok normalized -> slen (call_arguments request) <= MaxCallArgumentsBytes ->
  Allowed (policy_decision b tool request normalized) = true -> Inv past (dispatch b tool request normalized).
Proof.
  intros Hphase Hres (Hprof & declared & Hdecl & Hserv)%lookup_allowed Hn Hl [Hex Happ]%decision_allows. unfold dispatch.
  destruct (broker_servers b !! Call_Server request) as [host|] eqn:Hh; [|auto]. cbv zeta.
  assert (Hbase : forall past' c, past ⊆ past' ->
    (server_credentialRef host = "" /\ c = [] \/
     served (ResolveToken (server_credentialRef host)) (Some c) ∈ past' /\ boundedCredential c = true) ->
    (mutating tool = true -> exists effectKey decision,
      EffectKey (broker_runUID b) (broker_baseSHA b) (requestDigest (Call_Server request) (Call_Tool request) normalized)
        (effectOperation (tool_effect tool)) = Ok effectKey /\
      Claimed (call_claim b tool effectKey (requestDigest (Call_Server request) (Call_Tool request) normalized)) (decision, None) ∈ past' /\
      Execute decision = true /\ Unknown decision = false) ->
    invocation_allowed b request past' tool (server_endpoint host) (Call_Server request) (Call_Tool request) normalized c).
  { intros past' c Hsub Hc Hclaim. split; try done; [by exists current; auto| |by apply Hsub]. by exists declared, host. }
  destruct (mutating tool) eqn:Hm.
  - destruct (EffectKey _ _ _ _) as [key|] eqn:Hk; [|auto]. split; [done|]. intros [d [e|]].
    { case_match; [auto|]. apply path_ask; [done|]. auto. }
    destruct (Unknown d) eqn:Hu; [auto|]. destruct (Execute d) eqn:Hx; cbn [negb]; [|auto].
    apply path_perform. intros c more Hc. apply Hbase; [set_solver|set_solver|]. intros _. exists key, d. split_and!; try done. set_solver.
  - apply path_perform. intros c more Hc. apply Hbase; [set_solver|set_solver|done].
Qed.

(** C18. On every path of a tool call, with any answers of the ledger, the
    resolver and the upstream, the upstream server is only ever asked for what
    [invocation_allowed] says: a tool of the current phase's profile on its own
    server, with arguments in normal form that meet the fixed ones, after the call
    was counted against the budget and, for a tool that is not a read, approved
    where approval is required and granted by the effect ledger. *)
Theorem tool_call_allowed : Inv [] (CallTool b request).
Proof.
  unfold CallTool. case_match; [auto|]. apply path_ask; [done|]. intros current. cbv zeta.
  destruct (lookupToolForCall b _ _ _) as [|tool|] eqn:Hl; [| |auto].
  all: apply path_ask; [done|]; intros []; [auto|]; apply path_ask; [done|]; intros [e|]; [auto|].
  all: destruct (_ || _) eqn:Ha in |- *; [auto|]; destruct (Normalize _) as [normalized|] eqn:Hn; [|auto]; destruct (negb _) in |- *; [auto|]; try by auto.
  apply orb_false_iff in Ha as [Ha _]. apply Z.ltb_ge in Ha. case_match; [auto|]. destruct (Allowed _) eqn:Hal; cbn [negb]; [|auto].
  eapply path_dispatch; try done; set_solver.
Qed.
End Paths.
