(* ===== verification/BrokerModel.v ===== *)
(** * Model requests (src/v3/internal/broker/model.go)

    [invokeModelWire] is a program of requests to its surroundings: the context,
    the lock-protected budget, the credential resolver and the provider.  Each may
    be answered in any way; what the budget answers is [reserveModel],
    [estimateCostLocked] and [finishModel], and ModelBudget.v runs programs against
    one budget.  Reading an Anthropic request, rewriting for OpenRouter
    (responses_compat.go) and reading usage are requests too. *)

From stdpp Require Import pretty.
From S2P Require Import Prelude Order GoStrings Digest Digits GoJson StrictJson RawJson Canonical Store Effects LedgerProtocol Client.
From S2P Require Import BrokerData Url Transport BrokerPolicy.
Local Open Scope go_scope.
Local Open Scope string_scope.
Local Open Scope Z_scope.
Local Open Scope list_scope.

(** ** Requests *)

Inductive modelWire : Type := modelWireResponses | modelWireAnthropicMessages.

Definition providerSupportsWire (provider : compiledProvider) (wire : modelWire) : bool :=
  match wire with
  | modelWireResponses => (provider_kind provider =?= "openrouter-responses") || (provider_kind provider =?= "openai-responses")
  | modelWireAnthropicMessages =>
    (provider_kind provider =?= "openrouter-anthropic-messages") || (provider_kind provider =?= "anthropic-messages")
  end.

Definition providerForModel (b : Broker) (model : string) : option compiledProvider :=
  List.find (fun provider => provider_model provider =?= model) (broker_providers b).

Definition requestModel (body : list Z) : result broker_error (string * Z) :=
  if negb (is_ok (ValidateObject body)) then Err ErrBrokerRequest
  else match raw_fields body with
  | None => Err ErrBrokerRequest
  | Some fields =>
    match member "model" fields with
    | None => Err ErrBrokerRequest
    | Some raw =>
      if raw =?= bytes "null" then Err ErrBrokerRequest
      else match unmarshal_string raw with
      | None => Err ErrBrokerRequest
      | Some model =>
        if negb (safeModel model) then Err ErrBrokerRequest
        else match member "max_output_tokens" fields with
        | None => Ok (model, 0)
        | Some raw =>
          if raw =?= bytes "null" then Err ErrBrokerRequest
          else match unmarshal_int64 raw with
          | None => Err ErrBrokerRequest
          | Some maxOutput =>
            if (maxOutput <? 0) || (MaxConfiguredModelTokens <? maxOutput) then Err ErrBrokerRequest else Ok (model, maxOutput)
          end
        end
      end
    end
  end.

Definition constrainModelOutput (body : list Z) (wire : modelWire) (limit : Z) : result broker_error (list Z) :=
  if (slen body =? 0) || (limit <? 1) || negb (is_ok (ValidateObject body)) then Err ErrBrokerRequest
  else
    let field := match wire with modelWireAnthropicMessages => "max_tokens" | modelWireResponses => "max_output_tokens" end in
    match raw_fields body with
    | None => Err ErrBrokerRequest
    | Some fields =>
      let bounded := Ok (marshal_fields (set_field field (bytes (pretty limit)) fields)) in
      match member field fields with
      | None => bounded
      | Some raw =>
        match unmarshal_int64 raw with
        | None => Err ErrBrokerRequest
        | Some requested => if requested <? 1 then Err ErrBrokerRequest else if requested <=? limit then Ok body else bounded
        end
      end
    end.

(** ** The budget *)

Definition tokenEstimate (bytesCount : Z) : Z := if bytesCount <=? 0 then 0 else (bytesCount + 3) / 4.

Record modelReservation : Type := MkReservation {
  reservation_provider : compiledProvider;
  inputEstimate : Z;
  outputEstimate : Z;
  costEstimate : Z
}.

Definition add64 (a b : Z) : Z := wrap64 (a + b).
Definition sub64 (a b : Z) : Z := wrap64 (a - b).

Definition with_model (s : budgetState) (requests tokens cost reservedTokens reservedCost : Z) : budgetState :=
  MkBudgetState (toolCalls s) requests tokens cost reservedTokens reservedCost (budget_maxToolCalls s) (maxRequests s) (maxTokens s) (maxCostMicros s).

Definition estimateCostLocked (b : Broker) (s : budgetState) (provider : compiledProvider) (inputTokens outputTokens : Z) : result broker_error Z :=
  if (inputTokens <? 0) || (outputTokens <? 0) then Ok 0
  else if maxCostMicros s =? 0 then Ok 0
  else match broker_pricing b with
  | None => Err ErrInvalidConfig
  | Some pricing =>
    match pricing (provider_name provider) (provider_model provider) inputTokens outputTokens with
    | None => Err ErrBudgetExceeded
    | Some value => if (value <? 0) || (Z.shiftl 1 62 <? value) then Err ErrBudgetExceeded else Ok value
    end
  end.

(** [reserveModel] once the context was looked at. *)
Definition reserveModel (b : Broker) (provider : compiledProvider) (bodyBytes requestedMaxOutput : Z) (s : budgetState) :
  result broker_error modelReservation * budgetState :=
  let inputEstimate := Z.max (tokenEstimate bodyBytes) 1 in
  if maxRequests s <=? modelRequests s then (Err ErrBudgetExceeded, s)
  else
    let remaining := sub64 (sub64 (maxTokens s) (modelTokens s)) (reservedTokens s) in
    if remaining <=? inputEstimate then (Err ErrBudgetExceeded, s)
    else
      let outputEstimate := Z.min (sub64 remaining inputEstimate) (Z.shiftl 128 10) in
      let outputEstimate := if (0 <? requestedMaxOutput) && (requestedMaxOutput <? outputEstimate) then requestedMaxOutput else outputEstimate in
      if outputEstimate <? 1 then (Err ErrBudgetExceeded, s)
      else match estimateCostLocked b s provider inputEstimate outputEstimate with
      | Err _ => (Err ErrBudgetExceeded, s)
      | Ok costEstimate =>
        if sub64 (sub64 (maxCostMicros s) (modelCostMicros s)) (reservedCost s) <? costEstimate then (Err ErrBudgetExceeded, s)
        else (Ok (MkReservation provider inputEstimate outputEstimate costEstimate),
              with_model s (add64 (modelRequests s) 1) (modelTokens s) (modelCostMicros s)
                (add64 (reservedTokens s) (add64 inputEstimate outputEstimate)) (add64 (reservedCost s) costEstimate))
      end.

Definition release (reserved amount : Z) : Z := if amount <=? reserved then sub64 reserved amount else 0.

(** What [finishModel] refuses to book. *)
Definition unbookable (s : budgetState) (inputTokens outputTokens cost : Z) : bool :=
  (inputTokens <? 0) || (outputTokens <? 0) || (cost <? 0) || (sub64 (Z.shiftl 1 62) outputTokens <? inputTokens) ||
  (sub64 (sub64 (Z.shiftl 1 62) inputTokens) outputTokens <? modelTokens s) || (sub64 (Z.shiftl 1 62) cost <? modelCostMicros s).

Definition finishModel (reservation : modelReservation) (inputTokens outputTokens cost : Z) (s : budgetState) : bool * budgetState :=
  let reservedTokens := release (reservedTokens s) (add64 (inputEstimate reservation) (outputEstimate reservation)) in
  let reservedCost := release (reservedCost s) (costEstimate reservation) in
  if unbookable s inputTokens outputTokens cost
  then (false, with_model s (modelRequests s) (modelTokens s) (modelCostMicros s) reservedTokens reservedCost)
  else
    let tokens := add64 (modelTokens s) (add64 inputTokens outputTokens) in
    let cost := add64 (modelCostMicros s) cost in
    ((tokens <=? maxTokens s) && (cost <=? maxCostMicros s), with_model s (modelRequests s) tokens cost reservedTokens reservedCost).

(** ** The surroundings of a model request *)

Record flattenedTool : Type := MkFlattened { flattened_namespace : string; flattened_name : string }.

(** A body as it is read, and whether reading it ends in an error. *)
Record stream : Type := MkStream { stream_bytes : list Z; stream_broken : bool }.

(** [PostModel] builds and sends the request and answers with the status, the
    content type and the body. *)
Inductive post_answer : Type :=
| NotBuilt
| NotSent
| Answered (status : Z) (contentType : string) (body : stream).

Inductive model_request : Type :=
| ReadAnthropic (body : list Z)
| ModelCtxErr
| ReserveModel (provider : compiledProvider) (bodyBytes requestedMaxOutput : Z)
| FlattenRequest (body : list Z)
| ModelToken (logicalRef : string)
| PostModel (wire : modelWire) (endpoint : string) (body credential : list Z)
| RestoreResponse (body : list Z) (contentType : string) (tools : gmap string flattenedTool)
| ExtractUsage (body : list Z) (contentType kind : string)
| EstimateModel (provider : compiledProvider) (inputTokens outputTokens : Z)
| FinishModel (reservation : modelReservation) (inputTokens outputTokens cost : Z).

Definition model_answer (r : model_request) : Type :=
  match r with
  | ReadAnthropic _ => result broker_error (string * Z)
  | ModelCtxErr => bool
  | ReserveModel _ _ _ => result broker_error modelReservation
  | FlattenRequest _ => result broker_error (list Z * gmap string flattenedTool)
  | ModelToken _ => option (list Z)
  | PostModel _ _ _ _ => post_answer
  | RestoreResponse _ _ _ => result broker_error (list Z)
  | ExtractUsage _ _ _ => Z * Z * bool * bool
  | EstimateModel _ _ _ => result broker_error Z
  | FinishModel _ _ _ _ => bool
  end.

#[global] Instance ModelSurroundings : Service := {|
  service_request := model_request;
  service_answer := model_answer;
  acts r := match r with PostModel _ _ _ _ => true | _ => false end
|}.

Notation mcall := (client ModelSurroundings).
Definition MAsk {A : Type} (r : model_request) (k : model_answer r -> mcall A) : mcall A := @CallService ModelSurroundings A r k.

Record ModelResponse : Type := MkModelResponse {
  ModelResponse_Body : list Z;
  ModelResponse_ContentType : string;
  ModelResponse_Provider : string;
  ModelResponse_Model : string;
  InputTokens : Z;
  OutputTokens : Z;
  CostMicros : Z
}.
Notation model_result := (result broker_error ModelResponse).

(** ** [invokeModelWire] *)

(** As far as it is compared with ASCII texts. *)
Definition media_type (value : string) : string :=
  of_bytes (flat_map encode_rune (map lower_rune (runes (TrimSpace (default "" (head (Split value 0x3B))))))).
Definition contentTypeIs (value : string) (allowed : list string) : bool :=
  let media := media_type value in
  if media =?= "" then false else bool_decide (media ∈ allowed).

Definition readBounded (reader : stream) (limit : Z) : result broker_error (list Z) :=
  if limit <=? 0 then Err ErrUpstreamInvalid
  else if limit <? slen (stream_bytes reader) then Err ErrUpstreamInvalid
  else if stream_broken reader then Err ErrUpstreamUnavailable
  else Ok (stream_bytes reader).

Definition resolveModelCredential {A : Type} (b : Broker) (logicalRef : string) (k : result broker_error (list Z) -> mcall A) : mcall A :=
  if logicalRef =?= "" then k (Ok [])
  else if negb (broker_credentials b) then k (Err ErrCredentialUnavailable)
  else MAsk (ModelToken logicalRef) (fun token : option (list Z) =>
    match token with
    | None => MAsk ModelCtxErr (fun done : bool => k (Err (if done then ErrContext else ErrCredentialUnavailable)))
    | Some value => if boundedCredential value then k (Ok value) else k (Err ErrCredentialUnavailable)
    end).

(** An early return after the reservation. *)
Definition give_back (r : modelReservation) (e : broker_error) : mcall model_result :=
  MAsk (FinishModel r 0 0 0) (fun _ : bool => Done (Err e)).

Definition openrouter_responses (wire : modelWire) (provider : compiledProvider) : bool :=
  match wire with modelWireResponses => provider_kind provider =?= "openrouter-responses" | modelWireAnthropicMessages => false end.

(** From the usage of the result on. *)
Definition book_usage (provider : compiledProvider) (model : string) (r : modelReservation) (contentType : string) (body : list Z) :
  mcall model_result :=
  MAsk (ExtractUsage body contentType (provider_kind provider)) (fun usage : Z * Z * bool * bool =>
    let '(inputTokens, outputTokens, inputFound, outputFound) := usage in
    let inputTokens := if inputFound then inputTokens else inputEstimate r in
    let outputTokens := if outputFound then outputTokens else tokenEstimate (slen body) in
    let most := DefaultMaxModelTokens * 1024 in
    if (inputTokens <? 0) || (outputTokens <? 0) || (most <? inputTokens) || (most <? outputTokens) then give_back r ErrUpstreamInvalid
    else MAsk (EstimateModel provider inputTokens outputTokens) (fun cost : result broker_error Z =>
      match cost with
      | Err _ => give_back r ErrBudgetExceeded
      | Ok cost =>
        MAsk (FinishModel r inputTokens outputTokens cost) (fun within : bool =>
          if within then Done (Ok (MkModelResponse body contentType (provider_name provider) model inputTokens outputTokens cost))
          else Done (Err ErrBudgetExceeded))
      end)).

(** From the answer of the provider on. *)
Definition read_answer (b : Broker) (wire : modelWire) (provider : compiledProvider) (model : string) (r : modelReservation)
  (flattened : gmap string flattenedTool) (status : Z) (header : string) (body : stream) : mcall model_result :=
  if (status <? 200) || (300 <=? status) then give_back r ErrUpstreamUnavailable
  else if negb (contentTypeIs header ["application/json"; "text/event-stream"]) then give_back r ErrUpstreamInvalid
  else
    let contentType := media_type header in
    match readBounded body (maxModelResponse (broker_limits b)) with
    | Err e => give_back r e
    | Ok body =>
      if negb (valid_utf8 body) then give_back r ErrUpstreamInvalid
      else if (contentType =?= "application/json") && negb (is_ok (ValidateObject body)) then give_back r ErrUpstreamInvalid
      else if openrouter_responses wire provider then
        MAsk (RestoreResponse body contentType flattened) (fun restored : result broker_error (list Z) =>
          match restored with
          | Err e => give_back r e
          | Ok body => book_usage provider model r contentType body
          end)
      else book_usage provider model r contentType body
    end.

(** From the point on where every return gives the reservation back. *)
Definition exchange (b : Broker) (wire : modelWire) (provider : compiledProvider) (model : string) (r : modelReservation)
  (upstreamBody : list Z) (flattened : gmap string flattenedTool) : mcall model_result :=
  resolveModelCredential b (provider_credentialRef provider) (fun credential =>
    match credential with
    | Err e => give_back r e
    | Ok credential =>
      MAsk (PostModel wire (provider_endpoint provider) upstreamBody credential) (fun answer : post_answer =>
        match answer with
        | NotBuilt => give_back r ErrUpstreamUnavailable
        | NotSent => MAsk ModelCtxErr (fun done : bool => give_back r (if done then ErrContext else ErrUpstreamUnavailable))
        | Answered status header body => read_answer b wire provider model r flattened status header body
        end)
    end).

(** With the request read. *)
Definition reserved_exchange (b : Broker) (body : list Z) (wire : modelWire) (model : string) (maxOutput : Z) : mcall model_result :=
  match providerForModel b model with
  | None => Done (Err ErrDenied)
  | Some provider =>
    if negb (providerSupportsWire provider wire) then Done (Err ErrDenied)
    else MAsk ModelCtxErr (fun done : bool => if done then Done (Err ErrContext) else
      MAsk (ReserveModel provider (slen body) maxOutput) (fun reserved : result broker_error modelReservation =>
        match reserved with
        | Err e => Done (Err e)
        | Ok r =>
          match constrainModelOutput body wire (outputEstimate r) with
          | Err _ => Done (Err ErrBrokerRequest)
          | Ok upstreamBody =>
            if openrouter_responses wire provider then
              MAsk (FlattenRequest upstreamBody) (fun flattened : result broker_error (list Z * gmap string flattenedTool) =>
                match flattened with
                | Err e => Done (Err e)
                | Ok (upstreamBody, tools) => exchange b wire provider model r upstreamBody tools
                end)
            else exchange b wire provider model r upstreamBody ∅
          end
        end))
  end.

Definition invokeModelWire (b : Broker) (body : list Z) (wire : modelWire) : mcall model_result :=
  if (slen body =? 0) || (maxModelRequest (broker_limits b) <? slen body) || negb (is_ok (ValidateObject body)) then Done (Err ErrBrokerRequest)
  else match wire with
  | modelWireResponses =>
    match requestModel body with
    | Err _ => Done (Err ErrBrokerRequest)
    | Ok (model, maxOutput) => reserved_exchange b body wire model maxOutput
    end
  | modelWireAnthropicMessages =>
    MAsk (ReadAnthropic body) (fun request : result broker_error (string * Z) =>
      match request with
      | Err _ => Done (Err ErrBrokerRequest)
      | Ok (model, maxOutput) => reserved_exchange b body wire model maxOutput
      end)
  end.

Definition InvokeModel (b : Broker) (body : list Z) : mcall model_result := invokeModelWire b body modelWireResponses.
Definition InvokeAnthropicModel (b : Broker) (body : list Z) : mcall model_result := invokeModelWire b body modelWireAnthropicMessages.
