(* ===== verification/ModelBudget.v ===== *)
(** * Model requests on one budget

    Any number of model requests run against the budget of a broker, in any
    interleaving, each answered in any way by the provider and the rest of its
    surroundings.  A thread is marked with the reservation it holds, and every
    booking is recorded. *)

From stdpp Require Import pretty.
From S2P Require Import Prelude Order GoStrings Digits GoJson StrictJson StrictJsonSpec Store Effects LedgerProtocol Client Url BrokerData Transport.
From S2P Require Import BrokerPolicy BrokerPolicySpec BrokerCalls BrokerModel.
Local Open Scope go_scope.
Local Open Scope string_scope.
Local Open Scope Z_scope.
Local Open Scope list_scope.

(** ** The system *)

Record booking : Type := MkBooking { booked_for : modelReservation; booked_input : Z; booked_output : Z; booked_cost : Z }.
Record thread : Type := MkThread { held : option modelReservation; program : mcall model_result }.
Record msystem : Type := MkModels { models_budget : budgetState; threads : list thread; bookings : list booking }.

(** The requests the budget answers. *)
Definition of_budget (r : model_request) : bool :=
  match r with ReserveModel _ _ _ | EstimateModel _ _ _ | FinishModel _ _ _ _ => true | _ => false end.

Section Steps.
Context (b : Broker).

Inductive mstep : msystem -> msystem -> Prop :=
| mstep_start s ts bs body wire :
  mstep (MkModels s ts bs) (MkModels s (ts ++ [MkThread None (invokeModelWire b body wire)]) bs)
| mstep_tool s ts bs :
  mstep (MkModels s ts bs) (MkModels (reserveToolCall s).2 ts bs)
| mstep_reserve s ts bs i h provider n most k :
  ts !! i = Some (MkThread h (MAsk (ReserveModel provider n most) k)) ->
  let answer := reserveModel b provider n most s in
  mstep (MkModels s ts bs)
    (MkModels answer.2 (<[i := MkThread (match answer.1 with Ok r => Some r | Err _ => h end) (k answer.1)]> ts) bs)
| mstep_estimate s ts bs i h provider input output k :
  ts !! i = Some (MkThread h (MAsk (EstimateModel provider input output) k)) ->
  mstep (MkModels s ts bs) (MkModels s (<[i := MkThread h (k (estimateCostLocked b s provider input output))]> ts) bs)
| mstep_finish s ts bs i h r input output cost k :
  ts !! i = Some (MkThread h (MAsk (FinishModel r input output cost) k)) ->
  let answer := finishModel r input output cost s in
  mstep (MkModels s ts bs)
    (MkModels answer.2 (<[i := MkThread None (k answer.1)]> ts)
       (if unbookable s input output cost then bs else MkBooking r input output cost :: bs))
| mstep_other s ts bs i h r k a :
  ts !! i = Some (MkThread h (MAsk r k)) -> of_budget r = false ->
  mstep (MkModels s ts bs) (MkModels s (<[i := MkThread h (k a)]> ts) bs).
End Steps.

(** ** What a request does with the budget *)

Definition usage_of (a : model_result) : option (Z * Z * Z) :=
  match a with Ok response => Some (InputTokens response, OutputTokens response, CostMicros response) | Err _ => None end.

(** Nothing more of the budget is used, and a response is of the usage [m]. *)
Fixpoint spent (m : option (Z * Z * Z)) (p : mcall model_result) : Prop :=
  match p with
  | Done a => is_Some (usage_of a) -> usage_of a = m
  | CallService r k => of_budget r = false /\ forall a, spent m (k a)
  | _ => False
  end.

(** What is booked is not out of range by much. *)
Definition bounded_usage (input output cost : Z) : Prop := 0 <= input <= 2 ^ 40 /\ 0 <= output <= 2 ^ 40 /\ 0 <= cost <= 2 ^ 62.

(** The reservation [r] is held; it is finished at most once. *)
Fixpoint holding (r : modelReservation) (p : mcall model_result) : Prop :=
  match p with
  | Done a => usage_of a = None
  | CallService q k =>
    match q return (service_answer ModelSurroundings q -> mcall model_result) -> (service_answer ModelSurroundings q -> Prop) -> Prop with
    | ReserveModel _ _ _ => fun _ _ => False
    | EstimateModel _ _ _ => fun _ rest => forall a, (forall cost, a = Ok cost -> 0 <= cost <= 2 ^ 62) -> rest a
    | FinishModel r' input output cost => fun k _ => r' = r /\ bounded_usage input output cost /\ spent (Some (input, output, cost)) (k true) /\ spent None (k false)
    | _ => fun _ rest => forall a, rest a
    end k (fun a => holding r (k a))
  | _ => False
  end.

(** Nothing is reserved yet. *)
Fixpoint fresh (p : mcall model_result) : Prop :=
  match p with
  | Done a => usage_of a = None
  | CallService q k =>
    match q return (service_answer ModelSurroundings q -> mcall model_result) -> (service_answer ModelSurroundings q -> Prop) -> Prop with
    | ReserveModel _ _ _ => fun k rest => forall a, match a with Ok r => holding r (k a) | Err _ => rest a end
    | FinishModel _ _ _ _ => fun _ _ => False
    | _ => fun _ rest => forall a, rest a
    end k (fun a => fresh (k a))
  | _ => False
  end.

Lemma give_back_holding r e : holding r (give_back r e).
Proof. split_and!; [done|unfold bounded_usage; lia|by intros [? ?]..]. Qed.
#[local] Hint Resolve give_back_holding : core.

Lemma book_usage_holding provider model r contentType body : holding r (book_usage provider model r contentType body).
Proof.
  unfold book_usage. intros [[[input output] fi] fo]. cbv beta zeta. destruct (_ || _) eqn:E in |- *; [auto|]. intros [cost|e] Hcost; [|auto].
  rewrite !orb_false_iff, !Z.ltb_ge in E. specialize (Hcost _ eq_refl). unfold DefaultMaxModelTokens in E. change (1000000 * 1024) with 1024000000 in E.
  split_and!; [done|unfold bounded_usage; lia|done|by intros [? ?]].
Qed.

Lemma read_answer_holding b wire provider model r flattened status header body :
  holding r (read_answer b wire provider model r flattened status header body).
Proof.
  unfold read_answer. destruct (_ || _) in |- *; [auto|]. destruct (negb _) in |- *; [auto|]. cbv zeta. destruct (readBounded _ _) as [body'|e]; [|auto].
  destruct (negb _) in |- *; [auto|]. destruct (_ && _) in |- *; [auto|]. destruct (openrouter_responses _ _); [|apply book_usage_holding].
  intros [restored|e]; [apply book_usage_holding|auto].
Qed.

Lemma resolve_holding b ref r k : (forall c, holding r (k c)) -> holding r (resolveModelCredential b ref k).
Proof.
  intros Hk. unfold resolveModelCredential. destruct (ref =?= ""); [apply Hk|]. destruct (broker_credentials b); [|apply Hk].
  intros [v|]; [destruct (boundedCredential v)|intros d]; apply Hk.
Qed.

Lemma exchange_holding b wire provider model r body tools : holding r (exchange b wire provider model r body tools).
Proof.
  apply resolve_holding. intros [credential|e]; [|auto]. intros [| |status header answer]; [auto| |apply read_answer_holding].
  intros d. apply give_back_holding.
Qed.

Lemma reserved_fresh b body wire model most : fresh (reserved_exchange b body wire model most).
Proof.
  unfold reserved_exchange. destruct (providerForModel b model) as [provider|]; [|done].
  destruct (providerSupportsWire _ _); [|done]. intros []; [done|].
  intros [r|e]; [|done]. destruct (constrainModelOutput _ _ _) as [body'|]; [|done]. destruct (openrouter_responses _ _); [|apply exchange_holding].
  intros [[body'' tools]|e]; [apply exchange_holding|done].
Qed.

Lemma invoke_fresh b body wire : fresh (invokeModelWire b body wire).
Proof.
  unfold invokeModelWire. destruct (_ || _) in |- *; [done|]. destruct wire.
  - destruct (requestModel body) as [[model most]|]; [apply reserved_fresh|done].
  - intros [[model most]|e]; [apply reserved_fresh|done].
Qed.

(** ** The budget's arithmetic does not wrap *)

Definition reserved_tokens (r : modelReservation) : Z := inputEstimate r + outputEstimate r.
Record reservation_ok (r : modelReservation) : Prop := {
  ok_input : 1 <= inputEstimate r;
  ok_output : 1 <= outputEstimate r;
  ok_tokens : reserved_tokens r <= MaxConfiguredModelTokens;
  ok_price : 0 <= costEstimate r
}.

Record budget_fits (s : budgetState) : Prop := {
  fits_tool_calls : 0 <= toolCalls s <= budget_maxToolCalls s;
  fits_requests : 0 <= modelRequests s <= maxRequests s /\ maxRequests s <= MaxConfiguredModelRequests;
  fits_caps : maxTokens s <= MaxConfiguredModelTokens /\ maxCostMicros s <= max_int64;
  fits_spent : 0 <= modelTokens s <= 2 ^ 62 /\ 0 <= modelCostMicros s <= 2 ^ 62;
  fits_reserved : 0 <= reservedTokens s <= maxTokens s /\ 0 <= reservedCost s <= maxCostMicros s
}.

Ltac wraps :=
  unfold add64, sub64;
  repeat match goal with
  | |- context [wrap64 ?n] => rewrite (wrap64_id n) by (unfold MaxConfiguredModelTokens, MaxConfiguredModelRequests, max_int64 in *; lia)
  end.

Lemma estimate_range b s provider input output cost : estimateCostLocked b s provider input output = Ok cost -> 0 <= cost <= 2 ^ 62.
Proof.
  unfold estimateCostLocked. destruct (_ || _) in |- *; [by intros [= <-]|]. case_match; [by intros [= <-]|]. destruct (broker_pricing b) as [pricing|]; [|done].
  destruct (pricing _ _ _ _) as [v|]; [|done]. destruct (_ || _) eqn:E in |- *; [done|]. intros [= <-].
  rewrite orb_false_iff, !Z.ltb_ge in E. change (Z.shiftl 1 62) with (2 ^ 62) in E. lia.
Qed.

(** A reservation fits what is left. *)
Lemma reserve_ok b provider n most s r s' : budget_fits s -> reserveModel b provider n most s = (Ok r, s') ->
  s' = with_model s (modelRequests s + 1) (modelTokens s) (modelCostMicros s) (reservedTokens s + reserved_tokens r) (reservedCost s + costEstimate r) /\
  reservation_ok r /\ modelRequests s < maxRequests s /\ modelTokens s + reservedTokens s + reserved_tokens r <= maxTokens s /\
  modelCostMicros s + reservedCost s + costEstimate r <= maxCostMicros s.
Proof.
  intros [Ht Hr [Hc1 Hc2] [Hs1 Hs2] [Hv1 Hv2]] H. unfold reserveModel in H. cbv zeta in H.
  destruct (Z.leb_spec (maxRequests s) (modelRequests s)) as [|Hreq] in H; [done|].
  revert H. wraps. set (input := Z.max _ 1). assert (Hinput : 1 <= input) by lia. clearbody input. intros H.
  destruct (Z.leb_spec (maxTokens s - modelTokens s - reservedTokens s) input) as [|Hrem] in H; [done|].
  revert H. set (remaining := maxTokens s - modelTokens s - reservedTokens s) in *. wraps.
  set (output := if _ && _ then most else _). assert (Hout : output <= remaining - input).
  { unfold output. destruct (_ && _) eqn:E in |- *; [|lia]. apply andb_true_iff in E as [_ E%Z.ltb_lt]. lia. }
  clearbody output. destruct (Z.ltb_spec output 1) as [|Ho]; [done|].
  destruct (estimateCostLocked _ _ _ _ _) as [cost|] eqn:Ec; [|done]. apply estimate_range in Ec.
  destruct (Z.ltb_spec (maxCostMicros s - modelCostMicros s - reservedCost s) cost) as [|Hcost]; [done|].
  intros [= <- <-]. unfold reserved_tokens. cbn [inputEstimate outputEstimate costEstimate].
  wraps. split_and!; try done; [|lia..]. split; unfold reserved_tokens; cbn; lia.
Qed.

Lemma reserve_refused b provider n most s e s' : reserveModel b provider n most s = (Err e, s') -> s' = s.
Proof.
  unfold reserveModel. cbv zeta. destruct (_ <=? _); [congruence|]. destruct (_ <=? _); [congruence|]. destruct (_ <? 1); [congruence|].
  destruct (estimateCostLocked _ _ _ _ _); [|congruence]. destruct (_ <? _); congruence.
Qed.

(** What is booked is what was used, and what was reserved is free again. *)
Lemma finish_ok r input output cost s : budget_fits s -> reservation_ok r -> bounded_usage input output cost ->
  reserved_tokens r <= reservedTokens s -> costEstimate r <= reservedCost s ->
  let refused := unbookable s input output cost in
  let tokens := modelTokens s + (if refused then 0 else input + output) in
  let costs := modelCostMicros s + (if refused then 0 else cost) in
  finishModel r input output cost s =
    (negb refused && (tokens <=? maxTokens s) && (costs <=? maxCostMicros s),
     with_model s (modelRequests s) tokens costs (reservedTokens s - reserved_tokens r) (reservedCost s - costEstimate r)) /\
  tokens <= 2 ^ 62 /\ costs <= 2 ^ 62.
Proof.
  intros [Ht Hr [Hc1 Hc2] [Hs1 Hs2] [Hv1 Hv2]] [Hi Ho Htok Hp] (Hin & Hout & Hcost) Hrt Hrc. cbv zeta. unfold finishModel. cbv zeta. unfold reserved_tokens in *.
  assert (Hrel : release (reservedTokens s) (add64 (inputEstimate r) (outputEstimate r)) = reservedTokens s - (inputEstimate r + outputEstimate r)).
  { unfold release. wraps. destruct (Z.leb_spec (inputEstimate r + outputEstimate r) (reservedTokens s)); lia. }
  assert (Hrel' : release (reservedCost s) (costEstimate r) = reservedCost s - costEstimate r).
  { unfold release. wraps. destruct (Z.leb_spec (costEstimate r) (reservedCost s)); lia. }
  rewrite Hrel, Hrel'. destruct (unbookable s input output cost) eqn:Hu; [rewrite !Z.add_0_r; split_and!; [done|lia..]|]. unfold unbookable in Hu.
  rewrite !orb_false_iff, !Z.ltb_ge in Hu. change (Z.shiftl 1 62) with (2 ^ 62) in Hu. destruct Hu as (((_ & H4) & H5) & H6).
  revert H4 H5 H6. wraps. intros H4 H5 H6. wraps. split_and!; [done|lia..].
Qed.

(** ** Sums over the threads *)

Lemma sumZ_cons {A : Type} (g : A -> Z) x l : sumZ g (x :: l) = g x + sumZ g l.
Proof. done. Qed.

Lemma sumZ_insert {A : Type} (g : A -> Z) l i x y : l !! i = Some x -> sumZ g (<[i := y]> l) = sumZ g l - g x + g y.
Proof.
  revert i. induction l as [|z l IH]; intros [|i] H; try done; unfold sumZ in *.
  - injection H as ->. cbn. lia.
  - change (<[S i := y]> (z :: l)) with (z :: <[i := y]> l). cbn [foldr]. rewrite (IH _ H). lia.
Qed.

Lemma sumZ_elem {A : Type} (g : A -> Z) l i x : Forall (fun x => 0 <= g x) l -> l !! i = Some x -> g x <= sumZ g l.
Proof.
  intros Hf. revert i. induction Hf as [|z l Hz Hf IH]; intros [|i] H; try done; cbn in *; fold (sumZ g l).
  - injection H as ->. assert (0 <= sumZ g l); [|lia]. clear -Hf. induction Hf as [|z l Hz _ IH]; cbn; [lia|]. fold (sumZ g l). lia.
  - apply IH in H. lia.
Qed.

(** ** The invariant *)

Definition tokens_of (h : option modelReservation) : Z := match h with Some r => reserved_tokens r | None => 0 end.
Definition cost_of (h : option modelReservation) : Z := match h with Some r => costEstimate r | None => 0 end.
Definition held_tokens (t : thread) : Z := tokens_of (held t).
Definition held_cost (t : thread) : Z := cost_of (held t).
Definition booked_tokens (k : booking) : Z := booked_input k + booked_output k.

(** By how much a request used more than it had reserved. *)
Definition token_overrun (k : booking) : Z := Z.max 0 (booked_tokens k - reserved_tokens (booked_for k)).
Definition cost_overrun (k : booking) : Z := Z.max 0 (booked_cost k - costEstimate (booked_for k)).

Definition thread_ok (bs : list booking) (t : thread) : Prop :=
  match held t with
  | Some r => reservation_ok r /\ holding r (program t)
  | None => fresh (program t) \/ exists m, spent m (program t) /\
      forall input output cost, m = Some (input, output, cost) -> exists r, MkBooking r input output cost ∈ bs
  end.

Lemma thread_ok_mono bs bs' t : bs ⊆ bs' -> thread_ok bs t -> thread_ok bs' t.
Proof. unfold thread_ok. destruct (held t); [done|]. intros Hsub [Hf|(m & Hs & Hm)]; [by left|right]. exists m. split; [done|]. intros i o c Hi. destruct (Hm _ _ _ Hi) as [r Hr]. eauto. Qed.

Record models_ok (s0 : budgetState) (st : msystem) : Prop := {
  models_caps : let s := models_budget st in budget_maxToolCalls s = budget_maxToolCalls s0 /\ maxRequests s = maxRequests s0 /\
    maxTokens s = maxTokens s0 /\ maxCostMicros s = maxCostMicros s0;
  models_fit : budget_fits (models_budget st);
  models_threads : Forall (thread_ok (bookings st)) (threads st);
  models_reserved : reservedTokens (models_budget st) = sumZ held_tokens (threads st) /\ reservedCost (models_budget st) = sumZ held_cost (threads st);
  models_spent : modelTokens (models_budget st) = sumZ booked_tokens (bookings st) /\ modelCostMicros (models_budget st) = sumZ booked_cost (bookings st);
  models_tokens : modelTokens (models_budget st) + reservedTokens (models_budget st) <= maxTokens s0 + sumZ token_overrun (bookings st);
  models_cost : modelCostMicros (models_budget st) + reservedCost (models_budget st) <= maxCostMicros s0 + sumZ cost_overrun (bookings st)
}.

Lemma sum_held ts i h p h' p' : ts !! i = Some (MkThread h p) ->
  sumZ held_tokens (<[i := MkThread h' p']> ts) = sumZ held_tokens ts - tokens_of h + tokens_of h' /\
  sumZ held_cost (<[i := MkThread h' p']> ts) = sumZ held_cost ts - cost_of h + cost_of h'.
Proof. intros Hi. by rewrite !(sumZ_insert _ _ _ _ _ Hi). Qed.

(** A step of one thread that leaves what it holds and the budget alone. *)
Lemma thread_step_ok s0 s ts bs i h p p' : ts !! i = Some (MkThread h p) -> (thread_ok bs (MkThread h p) -> thread_ok bs (MkThread h p')) ->
  models_ok s0 (MkModels s ts bs) -> models_ok s0 (MkModels s (<[i := MkThread h p']> ts) bs).
Proof.
  intros Hi Hp [Hcaps Hfit Hth [Hr1 Hr2] Hs Ht Hc]. cbn [models_budget threads bookings] in *. split; cbn [models_budget threads bookings]; try done.
  - apply Forall_insert; [done|]. apply Hp. by eapply Forall_lookup_1 in Hth.
  - destruct (sum_held _ _ _ _ h p' Hi) as [-> ->]. lia.
Qed.

Lemma other_answer bs h r k a : of_budget r = false -> thread_ok bs (MkThread h (MAsk r k)) -> thread_ok bs (MkThread h (k a)).
Proof.
  intros Hr. unfold thread_ok. cbn [held program]. destruct h as [r'|].
  - intros [Hok Hh]. split; [done|]. destruct r; try discriminate Hr; apply Hh.
  - intros [Hf|(m & [_ Hs] & Hm)]; [left|right; eauto]. destruct r; try discriminate Hr; apply Hf.
Qed.

Lemma estimate_answer b s bs h provider input output k :
  thread_ok bs (MkThread h (MAsk (EstimateModel provider input output) k)) ->
  thread_ok bs (MkThread h (k (estimateCostLocked b s provider input output))).
Proof.
  unfold thread_ok. cbn [held program]. destruct h as [r'|].
  - intros [Hok Hh]. split; [done|]. apply Hh. intros cost. apply estimate_range.
  - intros [Hf|(m & [? _] & _)]; [left; apply Hf|done].
Qed.

Lemma held_nonneg bs ts : Forall (thread_ok bs) ts -> Forall (fun t => 0 <= held_tokens t) ts /\ Forall (fun t => 0 <= held_cost t) ts.
Proof.
  intros H. split; (eapply Forall_impl; [exact H|]); intros [[r|] p] Ht; try (cbn; lia);
    destruct Ht as [[] _]; cbn; unfold reserved_tokens; lia.
Qed.

Lemma finish_thread bs h r input output cost k : thread_ok bs (MkThread h (MAsk (FinishModel r input output cost) k)) ->
  h = Some r /\ reservation_ok r /\ bounded_usage input output cost /\ spent (Some (input, output, cost)) (k true) /\ spent None (k false).
Proof.
  unfold thread_ok. cbn [held program]. destruct h as [r'|].
  - intros [Hok (-> & Hb & Hs)]. done.
  - intros [[]|(m & [? _] & _)]. done.
Qed.

Lemma reserve_thread bs h provider n most k : thread_ok bs (MkThread h (MAsk (ReserveModel provider n most) k)) ->
  h = None /\ (forall r, holding r (k (Ok r))) /\ forall e, fresh (k (Err e)).
Proof.
  unfold thread_ok. cbn [held program]. destruct h as [r'|]; [by intros [_ []]|]. intros [Hf|(m & [? _] & _)]; [|done].
  split_and!; [done|intros r; apply (Hf (Ok r))|intros e; apply (Hf (Err e))].
Qed.

Lemma reserve_step_ok b s0 s ts bs i h provider n most k : ts !! i = Some (MkThread h (MAsk (ReserveModel provider n most) k)) ->
  models_ok s0 (MkModels s ts bs) -> let answer := reserveModel b provider n most s in
  models_ok s0 (MkModels answer.2 (<[i := MkThread (match answer.1 with Ok r => Some r | Err _ => h end) (k answer.1)]> ts) bs).
Proof.
  intros Hi Hok. cbv zeta. pose proof (Forall_lookup_1 _ _ _ _ (models_threads _ _ Hok) Hi) as Hthread.
  apply reserve_thread in Hthread as (-> & Hhold & Hfresh).
  destruct (reserveModel b provider n most s) as [[r|e] s'] eqn:Hr; cbn [fst snd]; [|apply reserve_refused in Hr as ->;
    apply (thread_step_ok _ _ _ _ _ None (MAsk (ReserveModel provider n most) k)); [done| |done]; intros _; left; apply Hfresh].
  destruct Hok as [Hcaps Hfit Hth [Hr1 Hr2] Hs Ht Hc]. cbn [models_budget threads bookings] in *.
  destruct (reserve_ok _ _ _ _ _ _ _ Hfit Hr) as (-> & Hrok & Hreq & Htok & Hcost). destruct Hfit as [F1 F2 F3 F4 F5], Hrok as [R1 R2 R3 R4].
  destruct (sum_held _ _ _ _ (Some r) (k (Ok r)) Hi) as [S1 S2]. cbn [tokens_of cost_of] in S1, S2.
  split; cbn [models_budget threads bookings with_model toolCalls modelRequests modelTokens modelCostMicros reservedTokens reservedCost
    budget_maxToolCalls maxRequests maxTokens maxCostMicros]; try done.
  - unfold reserved_tokens in *. split; cbn; lia.
  - apply Forall_insert; [done|]. split; [by split|apply Hhold].
  - lia.
  - pose proof (sumZ_nonneg token_overrun bs ltac:(unfold token_overrun; lia)). lia.
  - pose proof (sumZ_nonneg cost_overrun bs ltac:(unfold cost_overrun; lia)). lia.
Qed.

(** A booking uses up its reservation, or overruns it. *)
Lemma finish_step_ok s0 s ts bs i h r input output cost k : ts !! i = Some (MkThread h (MAsk (FinishModel r input output cost) k)) ->
  models_ok s0 (MkModels s ts bs) -> let answer := finishModel r input output cost s in
  models_ok s0 (MkModels answer.2 (<[i := MkThread None (k answer.1)]> ts)
    (if unbookable s input output cost then bs else MkBooking r input output cost :: bs)).
Proof.
  intros Hi [Hcaps Hfit Hth [Hr1 Hr2] [Hs1 Hs2] Ht Hc]. cbn [models_budget threads bookings] in *. cbv zeta.
  pose proof (Forall_lookup_1 _ _ _ _ Hth Hi) as Hthread. apply finish_thread in Hthread as (-> & Hrok & Hb & Hyes & Hno).
  destruct (held_nonneg _ _ Hth) as [N1 N2]. pose proof (sumZ_elem _ _ _ _ N1 Hi) as E1. pose proof (sumZ_elem _ _ _ _ N2 Hi) as E2.
  unfold held_tokens at 1 in E1. unfold held_cost at 1 in E2. cbn [held tokens_of cost_of] in E1, E2.
  destruct (finish_ok r input output cost s Hfit Hrok Hb ltac:(lia) ltac:(lia)) as (-> & L1 & L2). cbn [fst snd].
  set (answer := negb _ && _ && _). set (refused := unbookable s input output cost) in *.
  assert (Hk : thread_ok (if refused then bs else MkBooking r input output cost :: bs) (MkThread None (k answer))).
  { right. cbn [program]. destruct answer eqn:Ea; [|by exists None]. exists (Some (input, output, cost)). split; [done|].
    intros ? ? ? [= <- <- <-]. exists r. destruct refused; [done|]. by left. }
  clearbody answer. destruct (sum_held _ _ _ _ None (k answer) Hi) as [S1 S2]. cbn [tokens_of cost_of] in S1, S2.
  destruct Hfit as [F1 F2 F3 F4 F5], Hrok as [R1 R2 R3 R4], Hb as (B1 & B2 & B3).
  split; cbn [models_budget threads bookings with_model toolCalls modelRequests modelTokens modelCostMicros reservedTokens reservedCost
    budget_maxToolCalls maxRequests maxTokens maxCostMicros]; try done.
  - unfold reserved_tokens in *. split; cbn; destruct refused; lia.
  - apply Forall_insert; [|done]. eapply Forall_impl; [exact Hth|]. intros t. apply thread_ok_mono. destruct refused; set_solver.
  - lia.
  - destruct refused; [lia|]. rewrite !sumZ_cons. unfold booked_tokens at 1. cbn [booked_input booked_output booked_cost]. lia.
  - assert (0 <= reserved_tokens r) by (unfold reserved_tokens; lia). destruct refused; [lia|].
    rewrite sumZ_cons. unfold token_overrun at 1, booked_tokens. cbn [booked_input booked_output booked_for]. lia.
  - destruct refused; [lia|]. rewrite sumZ_cons. unfold cost_overrun at 1. cbn [booked_cost booked_for]. lia.
Qed.

Lemma tool_step_ok s0 s ts bs : models_ok s0 (MkModels s ts bs) -> models_ok s0 (MkModels (reserveToolCall s).2 ts bs).
Proof.
  intros [Hcaps [F1 F2 F3 F4 F5] Hth Hr Hs Ht Hc]. cbn [models_budget threads bookings] in *. unfold reserveToolCall.
  destruct (Z.leb_spec (budget_maxToolCalls s) (toolCalls s)); [by split|]. split; cbn; try done. split; cbn; lia.
Qed.

Lemma mstep_ok b s0 st st' : mstep b st st' -> models_ok s0 st -> models_ok s0 st'.
Proof.
  intros Hstep Hok. destruct Hstep as [s ts bs body wire|s ts bs|s ts bs i h provider n most k Hi|s ts bs i h provider input output k Hi|
    s ts bs i h r input output cost k Hi|s ts bs i h r k a Hi Hr].
  - destruct Hok as [Hcaps Hfit Hth [Hr1 Hr2] Hs Ht Hc]. cbn [models_budget threads bookings] in *. split; cbn [models_budget threads bookings]; try done.
    + apply Forall_app. split; [done|]. constructor; [|constructor]. left. apply invoke_fresh.
    + rewrite !sumZ_app. cbn. lia.
  - by apply tool_step_ok.
  - by eapply reserve_step_ok.
  - eapply thread_step_ok; [done| |done]. apply estimate_answer.
  - by eapply finish_step_ok.
  - eapply thread_step_ok; [done| |done]. by apply other_answer.
Qed.

(** ** Theorems *)

Definition start_models (s : broker_state) : msystem := MkModels (budget s) [] [].

Lemma start_ok config b s : NewBroker config = Ok (b, s) -> models_ok (budget s) (start_models s).
Proof.
  intros [_ _ _ _ _ _ _ _ Hz Hcaps _ _]%NewBroker_ok. cbv zeta in Hz, Hcaps. destruct Hz as (Z1 & Z2 & Z3 & Z4 & Z5 & Z6 & _).
  split; cbn [models_budget threads bookings start_models sumZ foldr]; try done; [|lia..]. split; lia.
Qed.

Lemma models_reachable config b s st : NewBroker config = Ok (b, s) -> rtc (mstep b) (start_models s) st -> models_ok (budget s) st.
Proof.
  intros H%start_ok Hr. revert H. generalize (budget s) as s0. intros s0. induction Hr as [|st st' st'' Hs _ IH]; [done|].
  intros Hok. apply IH. by eapply mstep_ok.
Qed.

(** C20. In every state that any interleaving of model requests and tool calls
    reaches from a fresh broker: what is reserved is exactly what the requests
    hold, what is spent is exactly what was booked, and every response was booked
    with the usage it reports; requests and tool calls are within their caps;
    tokens and cost, spent and reserved together, exceed their caps by no more
    than providers reported beyond what was reserved; and none of the 64-bit
    counters wraps. *)
Theorem model_budget_kept config b s st (H : NewBroker config = Ok (b, s)) (Hr : rtc (mstep b) (start_models s) st) :
  let m := models_budget st in
  reservedTokens m = sumZ held_tokens (threads st) /\ reservedCost m = sumZ held_cost (threads st) /\
  modelTokens m = sumZ booked_tokens (bookings st) /\ modelCostMicros m = sumZ booked_cost (bookings st) /\
  0 <= toolCalls m <= budget_maxToolCalls (budget s) /\ 0 <= modelRequests m <= maxRequests (budget s) /\
  modelTokens m + reservedTokens m <= maxTokens (budget s) + sumZ token_overrun (bookings st) /\
  modelCostMicros m + reservedCost m <= maxCostMicros (budget s) + sumZ cost_overrun (bookings st) /\
  0 <= modelTokens m <= 2 ^ 62 /\ 0 <= modelCostMicros m <= 2 ^ 62 /\
  forall i response, program <$> threads st !! i = Some (Done (Ok response)) ->
    exists r, MkBooking r (InputTokens response) (OutputTokens response) (CostMicros response) ∈ bookings st.
Proof.
  destruct (models_reachable _ _ _ _ H Hr) as [(C1 & C2 & C3 & C4) [F1 F2 F3 F4 F5] Hth [R1 R2] [S1 S2] Ht Hc]. cbv zeta.
  split_and!; try done; try lia. intros i response Hi. destruct (threads st !! i) as [[h p]|] eqn:E; [|done]. cbn in Hi. injection Hi as ->.
  apply (Forall_lookup_1 _ _ _ _ Hth) in E. unfold thread_ok in E. cbn [held program] in E. destruct h as [r|]; [by destruct E|].
  destruct E as [E|(m & E & Hm)]; [done|]. cbn in E. apply Hm. symmetry. by apply E.
Qed.

(** ** Running one request *)

(** A request alone, the surroundings other than the budget answering as the
    oracle does: the budget left, the reservation still held, the bookings and the
    answer. *)
Record run_end : Type := MkRun { end_budget : budgetState; end_held : option modelReservation; end_bookings : list booking; end_answer : option model_result }.

Section Drive.
Context (b : Broker) (oracle : forall r, service_answer ModelSurroundings r).

Fixpoint drive (p : mcall model_result) (h : option modelReservation) (s : budgetState) (bs : list booking) : run_end :=
  match p with
  | Done a => MkRun s h bs (Some a)
  | CallService q k =>
    match q return (service_answer ModelSurroundings q -> option modelReservation -> budgetState -> list booking -> run_end) -> run_end with
    | ReserveModel provider n most => fun rest =>
      let answer := reserveModel b provider n most s in rest answer.1 (match answer.1 with Ok r => Some r | Err _ => h end) answer.2 bs
    | EstimateModel provider input output => fun rest => rest (estimateCostLocked b s provider input output) h s bs
    | FinishModel r input output cost => fun rest =>
      let answer := finishModel r input output cost s in
      rest answer.1 None answer.2 (if unbookable s input output cost then bs else MkBooking r input output cost :: bs)
    | _ => fun rest => rest (oracle _) h s bs
    end (fun a => drive (k a))
  | _ => MkRun s h bs None
  end.

Lemma drive_steps p : forall h s bs a, end_answer (drive p h s bs) = Some a ->
  rtc (mstep b) (MkModels s [MkThread h p] bs)
    (MkModels (end_budget (drive p h s bs)) [MkThread (end_held (drive p h s bs)) (Done a)] (end_bookings (drive p h s bs))).
Proof.
  induction p as [a'|c k _|o k _|e d k _|q k IH]; intros h s bs a Ha; try done.
  { cbn in *. injection Ha as ->. apply rtc_refl. }
  destruct q; (eapply rtc_l; [|exact (IH _ _ _ _ a Ha)]).
  all: try exact (mstep_other b s [_] bs 0 h _ k _ eq_refl eq_refl).
  - exact (mstep_reserve b s [_] bs 0 h _ _ _ k eq_refl).
  - exact (mstep_estimate b s [_] bs 0 h _ _ _ k eq_refl).
  - exact (mstep_finish b s [_] bs 0 h _ _ _ _ k eq_refl).
Qed.
End Drive.

(** ** Samples *)

Definition sample_oracle (r : model_request) : service_answer ModelSurroundings r :=
  match r with
  | ReadAnthropic _ => Err ErrBrokerRequest
  | ModelCtxErr => false
  | ReserveModel _ _ _ => Err ErrBudgetExceeded
  | FlattenRequest _ => Err ErrBrokerRequest
  | ModelToken _ => Some (bytes "secret-token")
  | PostModel _ _ _ _ => Answered 200 "application/json; charset=utf-8" (MkStream (doc "{'output':[]}") false)
  | RestoreResponse _ _ _ => Err ErrUpstreamInvalid
  | ExtractUsage _ _ _ => (9, 40, true, true)
  | EstimateModel _ _ _ => Err ErrBudgetExceeded
  | FinishModel _ _ _ _ => false
  end.

Definition sample_run (body : string) : option run_end :=
  match NewBroker sample_config with
  | Ok (b, s) => Some (drive b sample_oracle (InvokeModel b (doc body)) None (budget s) [])
  | Err _ => None
  end.

Definition sample_body : string := "{'model':'gpt-large', 'input':'hi', 'max_output_tokens':500}".

Lemma drive_started b s oracle body a : end_answer (drive b oracle (InvokeModel b body) None (budget s) []) = Some a ->
  let e := drive b oracle (InvokeModel b body) None (budget s) [] in
  rtc (mstep b) (start_models s) (MkModels (end_budget e) [MkThread (end_held e) (Done a)] (end_bookings e)).
Proof. intros H. eapply rtc_l; [apply (mstep_start b (budget s) [] [] body modelWireResponses)|]. by apply drive_steps. Qed.

(** One request, from the first step to its response. *)
Lemma model_budget_kept_witness : exists b s st response, NewBroker sample_config = Ok (b, s) /\ rtc (mstep b) (start_models s) st /\
  program <$> threads st !! 0%nat = Some (Done (Ok response)) /\ InputTokens response = 9 /\ CostMicros response = 627 /\
  (exists r, MkBooking r (InputTokens response) (OutputTokens response) (CostMicros response) ∈ bookings st) /\
  0 <= modelRequests (models_budget st) <= maxRequests (budget s).
Proof.
  assert (Hc : match sample_run sample_body with
    | Some e => match end_answer e with Some (Ok r) => (InputTokens r =? 9) && (CostMicros r =? 627) | _ => false end
    | None => false end = true) by (vm_compute; reflexivity).
  unfold sample_run in Hc. destruct (NewBroker sample_config) as [[b s]|] eqn:Hb; [|discriminate Hc].
  set (e := drive b sample_oracle (InvokeModel b (doc sample_body)) None (budget s) []) in Hc.
  destruct (end_answer e) as [[response|]|] eqn:Ha; [|discriminate Hc..]. apply andb_true_iff in Hc as [H1%Z.eqb_eq H2%Z.eqb_eq].
  pose proof (drive_started b s sample_oracle (doc sample_body) _ Ha) as Hr. cbv zeta in Hr. fold e in Hr.
  set (st := MkModels _ _ _) in Hr. exists b, s, st, response.
  destruct (model_budget_kept sample_config b s st Hb Hr) as (_ & _ & _ & _ & _ & Hreq & _ & _ & _ & _ & Hbook).
  split; [reflexivity|]. split; [exact Hr|]. split; [reflexivity|]. split; [exact H1|]. split; [exact H2|].
  split; [apply (Hbook 0%nat response); reflexivity|exact Hreq].
Defined.

(** A request that asks for no output tokens is refused only after tokens were
    reserved for it, and they are never given back: the request has ended, and the
    budget of the run is that much smaller. *)
Lemma zero_output_keeps_reservation : match sample_run "{'model':'open-small','input':'hi','max_output_tokens':0}" with
  | Some e => end_answer e = Some (Err ErrBrokerRequest) /\ end_bookings e = [] /\ reservedTokens (end_budget e) = 131087 /\ reservedCost (end_budget e) = 262159
  | None => False
  end.
Proof. vm_compute. split_and!; reflexivity. Qed.
