(* ===== verification/ContextPack.v ===== *)
(** * Context packs (src/v3/internal/contextpack/contextpack.go)

    [Compile] turns the resolved inputs of a run into a bounded tree of files with
    a manifest.  Optional entries are left out one at a time until the budgets are
    met.  A []byte is a list of bytes, a slice a list.  The order of [sort.Slice]
    among entries with equal keys is not specified; the sort here is stable. *)

From stdpp Require Import pretty.
From S2P Require Import Prelude Order GoStrings Paths Digest Base64 GoJson Unmarshal.
Local Open Scope go_scope.
Local Open Scope string_scope.
Local Open Scope Z_scope.
Local Open Scope list_scope.

Definition SchemaVersion : string := "agents.astatide.com/contextpack/v1".
Definition manifestPath : string := ".agw/context/manifest.json".
Definition agentsPath : string := "AGENTS.md".
Definition PolicyContractPath : string := ".agw/context/policy-contract.json".
Definition maxNameBytes : Z := 63.
Definition maxTextBytes : Z := Z.shiftl 1 20.
Definition maxEntryTextBytes : Z := Z.shiftl 256 10.
Definition maxLineNumber : Z := 1000000000.
Definition maxCollectionItems : Z := 4096.
Definition maxPolicySkillItems : Z := 512.

(** [ErrBudgetExceeded] names the limit, the amount and the limit's value. *)
Inductive pack_error : Type := ErrInvalidInput | ErrBudgetExceeded (metric : string) (actual limit : Z).

(** ** Data *)

Definition SeverityBlocking : string := "blocking".
Definition SeverityAdvisory : string := "advisory".

Record Boundaries : Type := MkBoundaries { AllowedPaths : list string; ForbiddenPaths : list string }.
Record PolicyRule : Type := MkPolicyRule {
  Rule_ID : string; Rule_Severity : string; Rule_Context : string; Rule_ScriptPath : string; Rule_ScriptBytes : list Z; Rule_ScriptDigest : string
}.
Record Skill : Type := MkSkill { Skill_Name : string; Skill_Digest : string; Skill_Body : string; Skill_ArtifactPath : string }.
Record LexicalEntry : Type := MkLexical {
  Lexical_Path : string; Lexical_Extension : string; Lexical_Language : string; Lexical_Bytes : Z; Lexical_Lines : Z; Lexical_Digest : string
}.
Record RepoMapEntry : Type := MkRepoMap { RepoMap_Path : string; RepoMap_Kind : string; RepoMap_Signature : string; RepoMap_Summary : string }.
Record SymbolEntry : Type := MkSymbol {
  Symbol_Path : string; Symbol_Name : string; Symbol_Kind : string; Symbol_Signature : string; Symbol_Line : Z; Symbol_Column : Z
}.
Record HistoryEntry : Type := MkHistory { History_CommitSHA : string; History_Subject : string; History_Paths : list string }.
Record ContextStrategies : Type := MkStrategies {
  Strategy_Lexical : string; Strategy_RepoMap : string; Strategy_Symbols : string; Strategy_History : string
}.
Record Budgets : Type := MkBudgets {
  MaxInputBytes : Z; MaxOutputBytes : Z; MaxFileBytes : Z; MaxFiles : Z; MaxTokens : Z; MaxEntries : Z
}.
Record PackInput : Type := MkInput {
  Input_BaseSHA : string;
  Input_ResolvedSpecDigest : string;
  Input_Task : string;
  Input_Instructions : string;
  Input_ExistingAgentsMD : string;
  Input_Boundaries : Boundaries;
  Input_Policies : list PolicyRule;
  Input_PolicyContractManifest : list Z;
  Input_Skills : list Skill;
  Input_Lexical : list LexicalEntry;
  Input_RepoMap : list RepoMapEntry;
  Input_Symbols : list SymbolEntry;
  Input_History : list HistoryEntry;
  Input_Strategies : ContextStrategies;
  Input_Budgets : Budgets
}.

Record File : Type := MkFile {
  File_Path : string; File_Content : list Z; File_Digest : string; File_SizeBytes : Z; File_TokenEstimate : Z; File_Kind : string
}.
Record FileDescriptor : Type := MkFileDescriptor {
  FD_Path : string; FD_Digest : string; FD_SizeBytes : Z; FD_TokenEstimate : Z; FD_Kind : string
}.
Record PolicyDescriptor : Type := MkPolicyDescriptor {
  PD_ID : string; PD_Severity : string; PD_Context : string; PD_SourcePath : string; PD_OutputPath : string; PD_ScriptDigest : string
}.
Record SkillDescriptor : Type := MkSkillDescriptor {
  SD_Name : string; SD_DeclaredDigest : string; SD_ContentDigest : string; SD_Source : string; SD_ArtifactPath : string; SD_OutputPath : string
}.
Record StrategyDescriptor : Type := MkStrategyDescriptor {
  StD_Kind : string; StD_Name : string; StD_OutputPath : string; StD_IncludedEntries : Z; StD_OmittedEntries : Z
}.
Record Omission : Type := MkOmission { Omission_Kind : string; Omission_Key : string; Omission_Strategy : string; Omission_Reason : string }.
Record BudgetUsage : Type := MkUsage { Usage_InputBytes : Z; Usage_OutputBytes : Z; Usage_FileCount : Z; Usage_TokenEstimate : Z }.
Record Manifest : Type := MkManifest {
  Manifest_SchemaVersion : string;
  Manifest_BaseSHA : string;
  Manifest_ResolvedSpecDigest : string;
  PolicyContractDigest : string;
  Manifest_Files : list FileDescriptor;
  Manifest_Policies : list PolicyDescriptor;
  Manifest_Skills : list SkillDescriptor;
  Manifest_Strategies : list StrategyDescriptor;
  Manifest_Omissions : list Omission;
  Manifest_Budgets : Budgets;
  Manifest_Usage : BudgetUsage
}.
Record Pack : Type := MkPack { Pack_Files : list File; Pack_Manifest : Manifest; Pack_Digest : string }.

Record resolvedPolicy : Type := MkResolvedPolicy {
  rp_id : string; rp_severity : string; rp_context : string; rp_scriptPath : string; rp_scriptBytes : list Z; rp_scriptDigest : string
}.
Record resolvedSkill : Type := MkResolvedSkill {
  rs_name : string; rs_declaredDigest : string; rs_body : string; rs_artifactPath : string; rs_source : string
}.
Record resolvedInput : Type := MkResolved {
  r_baseSHA : string;
  r_resolvedSpecDigest : string;
  r_task : string;
  r_instructions : string;
  r_existingAgentsMD : string;
  r_boundaries : Boundaries;
  r_policies : list resolvedPolicy;
  r_policyContractManifest : list Z;
  r_skills : list resolvedSkill;
  r_lexical : list LexicalEntry;
  r_repoMap : list RepoMapEntry;
  r_symbols : list SymbolEntry;
  r_history : list HistoryEntry;
  r_strategies : ContextStrategies;
  r_budgets : Budgets;
  r_inputBytes : Z
}.
Record selection : Type := MkSelection {
  s_lexical : list LexicalEntry; s_repoMap : list RepoMapEntry; s_symbols : list SymbolEntry; s_history : list HistoryEntry
}.
Record optionalEntry : Type := MkEntry { e_kind : string; e_key : string; e_strategy : string }.
Record budgetIssue : Type := MkIssue { i_metric : string; i_actual : Z; i_limit : Z }.

(** ** Texts, names and paths *)

Definition guard (ok : bool) : result pack_error unit := if ok then Ok tt else Err ErrInvalidInput.

Definition IsControl (r : Z) : bool := (r <? 0x20) || between 0x7F 0x9F r.

Definition validateText (value : string) (required : bool) (maxBytes : Z) : result pack_error unit :=
  if required && (value =?= "") then Err ErrInvalidInput
  else if negb (ValidString value) then Err ErrInvalidInput
  else if bool_decide (0 ∈ bytes value) then Err ErrInvalidInput
  else if maxBytes <? len value then Err ErrInvalidInput
  else guard (forallb (fun r => (r =? 0x0D) || (r =? 0x0A) || (r =? 0x09) || negb (IsControl r)) (runes value)).

Definition validateBytes (value : list Z) (maxBytes : Z) : result pack_error unit :=
  if negb (valid_utf8 value) then Err ErrInvalidInput
  else if bool_decide (0 ∈ value) then Err ErrInvalidInput
  else if maxBytes <? slen value then Err ErrInvalidInput
  else Ok tt.

Definition validDigest (value : string) : bool :=
  (len value =? 7 + 64) && HasPrefix value "sha256:" && forallb is_lower_hex (runes (of_bytes (drop 7 (bytes value)))).
Definition validCommitSHA (value : string) : bool := ((len value =? 40) || (len value =? 64)) && forallb is_lower_hex (runes value).
Definition Pack_validBaseSHA (value : string) : bool := ((len value =? 40) || (len value =? 64)) && forallb is_lower_hex (runes value).

(** [unicode.ToLower] where the result is ASCII; every other rune is mapped to one
    that is not. *)
Definition lower_rune (r : Z) : Z :=
  if between 0x41 0x5A r then r + 0x20 else if r =? 0x130 then 0x69 else if r =? 0x212A then 0x6B else r.

Definition dash : Z := 0x2D.
Definition name_rune (r : Z) : bool := between 0x61 0x7A r || is_digit r.
Fixpoint dashed (lastDash : bool) (rs : list Z) : list Z :=
  match rs with
  | [] => []
  | r :: rest =>
    if name_rune r then r :: dashed false rest
    else if lastDash then dashed true rest
    else dash :: dashed true rest
  end.

Definition Pack_safeName (value : string) : result pack_error string :=
  let? _ := validateText value true maxNameBytes in
  if ContainsAny value "/\" || (value =?= ".") || (value =?= "..") then Err ErrInvalidInput
  else
    let name := Trim (of_bytes (dashed false (map lower_rune (runes (TrimSpace value))))) dash in
    if (name =?= "") || (maxNameBytes <? len name) then Err ErrInvalidInput else Ok name.

Definition glob_rune (r : Z) : bool := bool_decide (r ∈ bytes "*?[]{}").
Definition safe_part (allowGlob : bool) (part : string) : bool :=
  negb ((part =?= "") || (part =?= ".") || (part =?= "..")) &&
  forallb (fun r => negb (IsControl r) && (allowGlob || negb (glob_rune r))) (runes part).

Definition safeRelativePath (value : string) (allowGlob : bool) : result pack_error string :=
  if (value =?= "") || negb (ValidString value) || bool_decide (0 ∈ bytes value) then Err ErrInvalidInput
  else if bool_decide (bslash ∈ bytes value) || HasPrefix value "/" || HasPrefix value "./" || (value =?= ".") then Err ErrInvalidInput
  else if Contains value "://" || bool_decide (bytes value !! 1%nat = Some 0x3A) then Err ErrInvalidInput
  else if negb (bool_decide (path_Clean (bytes value) = bytes value)) then Err ErrInvalidInput
  else if forallb (safe_part allowGlob) (Split value slash) then Ok value else Err ErrInvalidInput.

(** ** Normalisation *)

(** The loops of the normalisations: the key of an item, a duplicate check, and
    the rest of the item. *)
Section Distinct.
Context {A B K : Type} `{EqDecision K} (key : A -> result pack_error K) (rest : K -> A -> result pack_error B).

Fixpoint distinct_items (seen : list K) (output : list B) (input : list A) : result pack_error (list B) :=
  match input with
  | [] => Ok output
  | a :: input =>
    let? k := key a in
    if bool_decide (k ∈ seen) then Err ErrInvalidInput
    else
      let? b := rest k a in
      distinct_items (k :: seen) (output ++ [b]) input
  end.
End Distinct.

Definition normalizePathList (input : list string) (allowGlob : bool) : result pack_error (list string) :=
  let? output := distinct_items (fun value => safeRelativePath value allowGlob) (fun clean _ => Ok clean) [] [] input in
  Ok (Strings output).

Definition normalizeBoundaries (input : Boundaries) : result pack_error Boundaries :=
  let? allowed := normalizePathList (AllowedPaths input) true in
  let? forbidden := normalizePathList (ForbiddenPaths input) true in
  Ok (MkBoundaries allowed forbidden).

Definition policy_script (rule : PolicyRule) : result pack_error (list Z * string) :=
  if negb (bool_decide (Rule_ScriptBytes rule = [])) then
    let? _ := validateBytes (Rule_ScriptBytes rule) maxEntryTextBytes in
    let scriptDigest := digestBytes (Rule_ScriptBytes rule) in
    if (Rule_ScriptDigest rule !=? "") && (negb (validDigest (Rule_ScriptDigest rule)) || (Rule_ScriptDigest rule !=? scriptDigest))
    then Err ErrInvalidInput
    else Ok (Rule_ScriptBytes rule, scriptDigest)
  else if Rule_ScriptDigest rule !=? "" then Err ErrInvalidInput
  else Ok ([], "").

Definition normalize_policy (id : string) (rule : PolicyRule) : result pack_error resolvedPolicy :=
  let? _ := guard ((Rule_Severity rule =?= SeverityBlocking) || (Rule_Severity rule =?= SeverityAdvisory)) in
  let? _ := validateText (Rule_Context rule) false maxEntryTextBytes in
  let? scriptPath := (if Rule_ScriptPath rule !=? "" then safeRelativePath (Rule_ScriptPath rule) false else Ok "") in
  if (scriptPath =?= "") && negb (bool_decide (Rule_ScriptBytes rule = [])) then Err ErrInvalidInput
  else if (scriptPath !=? "") && bool_decide (Rule_ScriptBytes rule = []) then Err ErrInvalidInput
  else if (Rule_Severity rule =?= SeverityBlocking) && (scriptPath =?= "") then Err ErrInvalidInput
  else
    let? (scriptBytes, scriptDigest) := policy_script rule in
    Ok (MkResolvedPolicy id (Rule_Severity rule) (Rule_Context rule) scriptPath scriptBytes scriptDigest).

Definition normalizePolicies (input : list PolicyRule) : result pack_error (list resolvedPolicy) :=
  let? output := distinct_items (fun rule => Pack_safeName (Rule_ID rule)) normalize_policy [] [] input in
  Ok (sort_on rp_id String.compare output).

Definition normalize_skill (name : string) (skill : Skill) : result pack_error resolvedSkill :=
  if negb (validDigest (Skill_Digest skill)) then Err ErrInvalidInput
  else if (Skill_Body skill !=? "") && (Skill_ArtifactPath skill !=? "") then Err ErrInvalidInput
  else if (Skill_Body skill =?= "") && (Skill_ArtifactPath skill =?= "") then Err ErrInvalidInput
  else if Skill_Body skill !=? "" then
    let? _ := validateText (Skill_Body skill) true maxEntryTextBytes in
    Ok (MkResolvedSkill name (Skill_Digest skill) (Skill_Body skill) "" "body")
  else
    let? artifactPath := safeRelativePath (Skill_ArtifactPath skill) false in
    Ok (MkResolvedSkill name (Skill_Digest skill) "" artifactPath "artifact-reference").

Definition normalizeSkills (input : list Skill) : result pack_error (list resolvedSkill) :=
  let? output := distinct_items (fun skill => Pack_safeName (Skill_Name skill)) normalize_skill [] [] input in
  Ok (sort_on rs_name String.compare output).

Definition normalize_lexical (filePath : string) (entry : LexicalEntry) : result pack_error LexicalEntry :=
  let? _ := validateText (Lexical_Extension entry) false 32 in
  let? _ := validateText (Lexical_Language entry) false 64 in
  if (Lexical_Bytes entry <? 0) || (Lexical_Lines entry <? 0) then Err ErrInvalidInput
  else if negb (validDigest (Lexical_Digest entry)) then Err ErrInvalidInput
  else Ok (MkLexical filePath (Lexical_Extension entry) (Lexical_Language entry) (Lexical_Bytes entry) (Lexical_Lines entry) (Lexical_Digest entry)).

Definition normalizeLexical (input : list LexicalEntry) : result pack_error (list LexicalEntry) :=
  let? output := distinct_items (fun entry => safeRelativePath (Lexical_Path entry) false) normalize_lexical [] [] input in
  Ok (sort_on Lexical_Path String.compare output).

Definition normalize_repoMap (filePath : string) (entry : RepoMapEntry) : result pack_error RepoMapEntry :=
  let? _ := validateText (RepoMap_Kind entry) false 256 in
  let? _ := validateText (RepoMap_Signature entry) false maxEntryTextBytes in
  let? _ := validateText (RepoMap_Summary entry) false maxEntryTextBytes in
  Ok (MkRepoMap filePath (RepoMap_Kind entry) (RepoMap_Signature entry) (RepoMap_Summary entry)).

Definition normalizeRepoMap (input : list RepoMapEntry) : result pack_error (list RepoMapEntry) :=
  let? output := distinct_items (fun entry => safeRelativePath (RepoMap_Path entry) false) normalize_repoMap [] [] input in
  Ok (sort_on RepoMap_Path String.compare output).

(** The texts of a key, none of which has a NUL, are joined by NULs. *)
Definition nul_joined (parts : list string) : string := of_bytes (join 0 (map bytes parts)).

Definition symbol_key (entry : SymbolEntry) : result pack_error string :=
  let? filePath := safeRelativePath (Symbol_Path entry) false in
  let? _ := validateText (Symbol_Name entry) true 512 in
  let? _ := validateText (Symbol_Kind entry) true 256 in
  let? _ := validateText (Symbol_Signature entry) false maxEntryTextBytes in
  if (Symbol_Line entry <? 0) || (maxLineNumber <? Symbol_Line entry) || (Symbol_Column entry <? 0) || (maxLineNumber <? Symbol_Column entry)
  then Err ErrInvalidInput
  else Ok (nul_joined [filePath; pretty (Symbol_Line entry); pretty (Symbol_Column entry); Symbol_Kind entry; Symbol_Name entry]).

Definition symbol_order : SymbolEntry -> string * (Z * (Z * (string * string))) :=
  fun s => (Symbol_Path s, (Symbol_Line s, (Symbol_Column s, (Symbol_Kind s, Symbol_Name s)))).
Definition compare_symbol : string * (Z * (Z * (string * string))) -> string * (Z * (Z * (string * string))) -> comparison :=
  compare_pair String.compare (compare_pair Z.compare (compare_pair Z.compare (compare_pair String.compare String.compare))).

(** [safeRelativePath] answers the path it is given. *)
Definition normalizeSymbols (input : list SymbolEntry) : result pack_error (list SymbolEntry) :=
  let? output := distinct_items symbol_key (fun _ entry => Ok entry) [] [] input in
  Ok (sort_on symbol_order compare_symbol output).

Definition history_key (entry : HistoryEntry) : result pack_error string :=
  let? _ := guard (validCommitSHA (History_CommitSHA entry)) in
  let? _ := validateText (History_Subject entry) false maxEntryTextBytes in
  let? _ := normalizePathList (History_Paths entry) false in
  Ok (nul_joined [History_CommitSHA entry; History_Subject entry]).

Definition history_order (entry : HistoryEntry) : string * string := (History_CommitSHA entry, History_Subject entry).

Definition normalizeHistory (input : list HistoryEntry) : result pack_error (list HistoryEntry) :=
  let? output := distinct_items history_key (fun _ entry =>
    let? paths := normalizePathList (History_Paths entry) false in
    Ok (MkHistory (History_CommitSHA entry) (History_Subject entry) paths)) [] [] input in
  Ok (sort_on history_order (compare_pair String.compare String.compare) output).

Definition normalizeOptionalName (value : string) : string :=
  if value =?= "" then "" else match Pack_safeName value with Ok name => name | Err _ => "" end.

Definition check_strategy (value : string) (count : Z) : result pack_error unit :=
  if value !=? "" then (let? _ := Pack_safeName value in Ok tt) else guard (count <=? 0).

Definition normalizeStrategies (input : ContextStrategies) (lexicalCount repoMapCount symbolCount historyCount : Z) : result pack_error ContextStrategies :=
  let? _ := check_strategy (Strategy_Lexical input) lexicalCount in
  let? _ := check_strategy (Strategy_RepoMap input) repoMapCount in
  let? _ := check_strategy (Strategy_Symbols input) symbolCount in
  let? _ := check_strategy (Strategy_History input) historyCount in
  Ok (MkStrategies (normalizeOptionalName (Strategy_Lexical input)) (normalizeOptionalName (Strategy_RepoMap input))
        (normalizeOptionalName (Strategy_Symbols input)) (normalizeOptionalName (Strategy_History input))).

Definition validateBudgets (b : Budgets) : result pack_error unit :=
  if (MaxInputBytes b <=? 0) || (MaxOutputBytes b <=? 0) || (MaxFileBytes b <=? 0) || (MaxTokens b <=? 0) then Err ErrInvalidInput
  else if (MaxFiles b <? 2) || (MaxEntries b <=? 0) then Err ErrInvalidInput
  else Ok tt.

Definition validateCollectionCounts (input : PackInput) (limit : Z) : result pack_error unit :=
  let counts := [slen (Input_Policies input); slen (Input_Skills input); slen (Input_Lexical input); slen (Input_RepoMap input);
                 slen (Input_Symbols input); slen (Input_History input)] in
  if existsb (fun count => maxCollectionItems <? count) counts then Err ErrInvalidInput
  else
    let optionalTotal := slen (Input_Lexical input) + slen (Input_RepoMap input) + slen (Input_Symbols input) + slen (Input_History input) in
    if (limit <? optionalTotal) || (maxCollectionItems <? optionalTotal) then Err ErrInvalidInput
    else if maxPolicySkillItems <? slen (Input_Policies input) + slen (Input_Skills input) then Err ErrInvalidInput
    else if limit <? slen (Input_Policies input) + slen (Input_Skills input) + optionalTotal then Err ErrInvalidInput
    else Ok tt.

(** ** The size of the input *)

Definition json_int_omit (name : string) (n : Z) : list (string * json) := if n =? 0 then [] else [(name, JInt n)].
Definition json_list {A : Type} (f : A -> json) (l : list A) : json := JArray (map f l).
Definition json_list_omit {A : Type} (name : string) (f : A -> json) (l : list A) : list (string * json) :=
  match l with [] => [] | _ => [(name, json_list f l)] end.

(** A []byte is written in base64, with padding. *)
Definition base64 (l : list Z) : string :=
  Base64.EncodeToString l +:+ (if slen l mod 3 =? 1 then "==" else if slen l mod 3 =? 2 then "=" else "").

Definition boundaries_json (b : Boundaries) : json :=
  JObject (json_list_omit "allowedPaths" JString (AllowedPaths b) ++ json_list_omit "forbiddenPaths" JString (ForbiddenPaths b)).
Definition policy_wire (p : resolvedPolicy) : json :=
  JObject ([("id", JString (rp_id p)); ("severity", JString (rp_severity p))] ++ omit_empty "context" (rp_context p) ++
    omit_empty "scriptPath" (rp_scriptPath p) ++ omit_empty "scriptBytes" (base64 (rp_scriptBytes p)) ++ omit_empty "scriptDigest" (rp_scriptDigest p)).
Definition skill_wire (s : resolvedSkill) : json :=
  JObject ([("name", JString (rs_name s)); ("declaredDigest", JString (rs_declaredDigest s))] ++ omit_empty "body" (rs_body s) ++
    omit_empty "artifactPath" (rs_artifactPath s) ++ [("source", JString (rs_source s))]).
Definition lexical_json (e : LexicalEntry) : json :=
  JObject ([("path", JString (Lexical_Path e))] ++ omit_empty "extension" (Lexical_Extension e) ++ omit_empty "language" (Lexical_Language e) ++
    [("bytes", JInt (Lexical_Bytes e)); ("lines", JInt (Lexical_Lines e)); ("digest", JString (Lexical_Digest e))]).
Definition repoMap_json (e : RepoMapEntry) : json :=
  JObject ([("path", JString (RepoMap_Path e))] ++ omit_empty "kind" (RepoMap_Kind e) ++ omit_empty "signature" (RepoMap_Signature e) ++
    omit_empty "summary" (RepoMap_Summary e)).
Definition symbol_json (e : SymbolEntry) : json :=
  JObject ([("path", JString (Symbol_Path e)); ("name", JString (Symbol_Name e)); ("kind", JString (Symbol_Kind e))] ++
    omit_empty "signature" (Symbol_Signature e) ++ json_int_omit "line" (Symbol_Line e) ++ json_int_omit "column" (Symbol_Column e)).
Definition history_json (e : HistoryEntry) : json :=
  JObject ([("commitSHA", JString (History_CommitSHA e))] ++ omit_empty "subject" (History_Subject e) ++ json_list_omit "paths" JString (History_Paths e)).
Definition strategies_json (s : ContextStrategies) : json :=
  JObject (omit_empty "lexical" (Strategy_Lexical s) ++ omit_empty "repoMap" (Strategy_RepoMap s) ++ omit_empty "symbols" (Strategy_Symbols s) ++
    omit_empty "history" (Strategy_History s)).
Definition budgets_json (b : Budgets) : json :=
  JObject [("maxInputBytes", JInt (MaxInputBytes b)); ("maxOutputBytes", JInt (MaxOutputBytes b)); ("maxFileBytes", JInt (MaxFileBytes b));
           ("maxFiles", JInt (MaxFiles b)); ("maxTokens", JInt (MaxTokens b)); ("maxEntries", JInt (MaxEntries b))].

Definition input_wire (r : resolvedInput) : json :=
  JObject [("BaseSHA", JString (r_baseSHA r)); ("ResolvedSpecDigest", JString (r_resolvedSpecDigest r)); ("Task", JString (r_task r));
           ("Instructions", JString (r_instructions r)); ("ExistingAgentsMD", JString (r_existingAgentsMD r));
           ("Boundaries", boundaries_json (r_boundaries r)); ("Policies", json_list policy_wire (r_policies r));
           ("PolicyContractManifest", match r_policyContractManifest r with [] => JNull | body => JString (base64 body) end);
           ("Skills", json_list skill_wire (r_skills r)); ("Lexical", json_list lexical_json (r_lexical r));
           ("RepoMap", json_list repoMap_json (r_repoMap r)); ("Symbols", json_list symbol_json (r_symbols r));
           ("History", json_list history_json (r_history r)); ("Strategies", strategies_json (r_strategies r)); ("Budgets", budgets_json (r_budgets r))].

Definition measureInput (r : resolvedInput) : Z := slen (Marshal (input_wire r)).

Definition with_inputBytes (r : resolvedInput) (n : Z) : resolvedInput :=
  MkResolved (r_baseSHA r) (r_resolvedSpecDigest r) (r_task r) (r_instructions r) (r_existingAgentsMD r) (r_boundaries r) (r_policies r)
    (r_policyContractManifest r) (r_skills r) (r_lexical r) (r_repoMap r) (r_symbols r) (r_history r) (r_strategies r) (r_budgets r) n.

Definition maxContractBytes : Z := Z.shiftl 8 20.

Definition Pack_normalizeInput (input : PackInput) : result pack_error resolvedInput :=
  let? _ := guard (Pack_validBaseSHA (Input_BaseSHA input)) in
  let? _ := guard (validDigest (Input_ResolvedSpecDigest input)) in
  let? _ := validateText (Input_Task input) true maxTextBytes in
  let? _ := validateText (Input_Instructions input) false maxTextBytes in
  let? _ := validateText (Input_ExistingAgentsMD input) false maxTextBytes in
  let? _ := guard (slen (Input_PolicyContractManifest input) <=? maxContractBytes) in
  let? _ := (if 0 <? slen (Input_PolicyContractManifest input) then validateBytes (Input_PolicyContractManifest input) maxContractBytes else Ok tt) in
  let? _ := guard (TrimSpace (Input_Task input) !=? "") in
  let? _ := validateBudgets (Input_Budgets input) in
  let? _ := validateCollectionCounts input (MaxEntries (Input_Budgets input)) in
  let? boundaries := normalizeBoundaries (Input_Boundaries input) in
  let? policies := normalizePolicies (Input_Policies input) in
  let? skills := normalizeSkills (Input_Skills input) in
  let? lexical := normalizeLexical (Input_Lexical input) in
  let? repoMap := normalizeRepoMap (Input_RepoMap input) in
  let? symbols := normalizeSymbols (Input_Symbols input) in
  let? history := normalizeHistory (Input_History input) in
  let? strategies := normalizeStrategies (Input_Strategies input) (slen lexical) (slen repoMap) (slen symbols) (slen history) in
  let resolved := MkResolved (Input_BaseSHA input) (Input_ResolvedSpecDigest input) (Input_Task input) (Input_Instructions input)
    (Input_ExistingAgentsMD input) boundaries policies (Input_PolicyContractManifest input) skills lexical repoMap symbols history strategies
    (Input_Budgets input) 0 in
  Ok (with_inputBytes resolved (measureInput resolved)).

(** ** Files *)

Definition RuneCount (body : list Z) : Z := slen (decode body).
Definition estimateTokens (body : list Z) : Z := (RuneCount body + 3) / 4.

Definition makeFile (filePath : string) (body : list Z) (kind : string) : File :=
  MkFile filePath body (digestBytes body) (slen body) (estimateTokens body) kind.

Definition optionalDigest (body : list Z) : string := match body with [] => "" | _ => digestBytes body end.
Definition optionalPath (value : string) (include : bool) : string := if include then value else "".
Definition nonEmpty (value fallback : string) : string := if value =?= "" then fallback else value.

Definition marshalJSON (value : json) : result pack_error (list Z) :=
  let body := Marshal value in
  if negb (valid_utf8 body) then Err ErrInvalidInput else Ok body.

Definition nl : string := of_bytes [0x0A].
Definition ticked (s : string) : string := "`" +:+ s +:+ "`".
Definition lines (l : list string) : string := String.concat "" (map (fun s => s +:+ nl) l).

Definition boundary_lines (paths : list string) : list string :=
  match paths with [] => ["- (not specified)"] | _ => map (fun value => "- " +:+ ticked value) paths end.
Definition policy_lines (p : resolvedPolicy) : list string :=
  ["- " +:+ ticked (rp_id p) +:+ " (" +:+ rp_severity p +:+ "): " +:+ nonEmpty (rp_context p) "No additional context.";
   if rp_scriptPath p !=? ""
   then "  - deterministic self-check: " +:+ ticked (".agents/policies/" +:+ rp_id p +:+ "/" +:+ path_Base (rp_scriptPath p))
   else "  - deterministic self-check: none (advisory only)"].
Definition skill_line (s : resolvedSkill) : string :=
  "- " +:+ ticked (".agents/skills/" +:+ rs_name s +:+ "/SKILL.md") +:+ " (verified digest " +:+ ticked (rs_declaredDigest s) +:+ ")".

Definition agents_text (r : resolvedInput) (selected : selection) : string :=
  let optional := fun (include : bool) (line : string) => if include then [line] else [] in
  lines (["# Agents Gateway Context"; "";
    "This file is generated from an immutable resolved run contract. Follow the task and boundaries below. The independent Gate remains authoritative.";
    ""; "## Task"; ""; r_task r; ""] ++
    (if r_instructions r !=? "" then ["## Instructions"; ""; r_instructions r; ""] else [])) +:+
  (if r_existingAgentsMD r !=? "" then
     lines ["## Repository-provided instructions"; ""; "<BEGIN REPOSITORY AGENTS.md>"] +:+ r_existingAgentsMD r +:+
     (if HasSuffix (r_existingAgentsMD r) nl then "" else nl) +:+ lines ["<END REPOSITORY AGENTS.md>"; ""]
   else "") +:+
  lines (["## Boundaries"; ""; "The allowed and forbidden patterns are also enforced independently by the Gate."; ""; "Allowed paths:"] ++
    boundary_lines (AllowedPaths (r_boundaries r)) ++ ["Forbidden paths:"] ++ boundary_lines (ForbiddenPaths (r_boundaries r)) ++
    [""; "## Policy contract"; ""] ++
    (if optionalDigest (r_policyContractManifest r) !=? "" then
       ["Immutable contract digest: " +:+ ticked (optionalDigest (r_policyContractManifest r)) +:+
        " (the broker self-check and independent Gate use this exact contract)."; ""] else []) ++
    match r_policies r with [] => ["No policy rules were supplied."] | policies => flat_map policy_lines policies end ++
    [""; "## Context files"; ""; "- " +:+ ticked ".agw/context/manifest.json" +:+ " is the provenance and omission record."] ++
    optional (0 <? slen (s_lexical selected)) ("- " +:+ ticked ".agw/context/lexical-index.json" +:+
      " contains local exact-search file metadata; source text remains in the sealed checkout.") ++
    optional (0 <? slen (s_repoMap selected)) ("- " +:+ ticked ".agw/context/repo-map.json" +:+ " contains the bounded structural repository map.") ++
    optional (0 <? slen (s_symbols selected)) ("- " +:+ ticked ".agw/context/symbols.json" +:+ " contains the bounded symbol records.") ++
    optional (0 <? slen (s_history selected)) ("- " +:+ ticked ".agw/context/history.json" +:+ " contains the bounded history records.") ++
    ["Context entries omitted by hard budgets are recorded in the manifest; they are never silently truncated."; ""; "## Skills"; ""] ++
    match r_skills r with [] => ["No skills were supplied."] | skills => map skill_line skills end).

Definition renderAgents (r : resolvedInput) (selected : selection) : result pack_error (list Z) :=
  let text := bytes (agents_text r selected) in
  let? _ := validateBytes text maxTextBytes in
  Ok text.

Definition policy_output (p : resolvedPolicy) : string := path_Join [".agents/policies"; rp_id p; path_Base (rp_scriptPath p)].
Definition policy_files (p : resolvedPolicy) : list File :=
  if rp_scriptPath p !=? "" then [makeFile (policy_output p) (rp_scriptBytes p) "policy-script"] else [].
Definition policy_descriptor (p : resolvedPolicy) : PolicyDescriptor :=
  MkPolicyDescriptor (rp_id p) (rp_severity p) (rp_context p) (rp_scriptPath p) (if rp_scriptPath p !=? "" then policy_output p else "")
    (rp_scriptDigest p).

Definition skill_output (s : resolvedSkill) : string := path_Join [".agents/skills"; rs_name s; "SKILL.md"].
Definition skill_text (s : resolvedSkill) : list Z :=
  bytes (if rs_source s =?= "artifact-reference" then
           lines ["# Verified skill reference"; ""; "This skill is supplied by a verified artifact."; ""; "- digest: " +:+ rs_declaredDigest s;
                  "- artifact: " +:+ rs_artifactPath s]
         else rs_body s).
Definition skill_file (s : resolvedSkill) : File := makeFile (skill_output s) (skill_text s) "skill".
Definition skill_descriptor (s : resolvedSkill) : SkillDescriptor :=
  MkSkillDescriptor (rs_name s) (rs_declaredDigest s) (digestBytes (skill_text s)) (rs_source s) (rs_artifactPath s) (skill_output s).

Definition lexicalSearch : json :=
  JObject [("enumeration", JString "local-ripgrep-compatible"); ("exact", JBool true); ("caseSensitiveDefault", JBool true);
           ("regexSupported", JBool true); ("hiddenFiles", JString "included-when-not-ignored")].
Definition entries_json {A : Type} (schema strategy : string) (search : list (string * json)) (f : A -> json) (entries : list A) : json :=
  JObject ([("schemaVersion", JString schema); ("strategy", JString strategy)] ++ search ++ [("entries", json_list f entries)]).

(** The file and the descriptor of one strategy. *)
Definition strategy_files {A : Type} (path schema kind name : string) (search : list (string * json)) (f : A -> json) (selected : list A)
  (total : Z) : result pack_error (list File * list StrategyDescriptor) :=
  if name =?= "" then Ok ([], [])
  else
    let? files := (if 0 <? slen selected then
                     let? body := marshalJSON (entries_json schema name search f selected) in
                     Ok [makeFile path body kind]
                   else Ok []) in
    Ok (files, [MkStrategyDescriptor kind name (optionalPath path (0 <? slen selected)) (slen selected) (total - slen selected)]).

Definition lexicalPath : string := ".agw/context/lexical-index.json".
Definition repoMapPath : string := ".agw/context/repo-map.json".
Definition symbolsPath : string := ".agw/context/symbols.json".
Definition historyPath : string := ".agw/context/history.json".

Definition renderFiles (r : resolvedInput) (selected : selection)
  : result pack_error (list File * list PolicyDescriptor * list SkillDescriptor * list StrategyDescriptor) :=
  let? agents := renderAgents r selected in
  let? (lexical, lexicalD) := strategy_files lexicalPath "agents.astatide.com/context/lexical-index/v1" "lexical" (Strategy_Lexical (r_strategies r))
    [("search", lexicalSearch)] lexical_json (s_lexical selected) (slen (r_lexical r)) in
  let? (repoMap, repoMapD) := strategy_files repoMapPath "agents.astatide.com/context/repo-map/v1" "repo-map" (Strategy_RepoMap (r_strategies r))
    [] repoMap_json (s_repoMap selected) (slen (r_repoMap r)) in
  let? (symbols, symbolsD) := strategy_files symbolsPath "agents.astatide.com/context/symbols/v1" "symbols" (Strategy_Symbols (r_strategies r))
    [] symbol_json (s_symbols selected) (slen (r_symbols r)) in
  let? (history, historyD) := strategy_files historyPath "agents.astatide.com/context/history/v1" "history" (Strategy_History (r_strategies r))
    [] history_json (s_history selected) (slen (r_history r)) in
  let files := makeFile agentsPath agents "instructions" ::
    (match r_policyContractManifest r with [] => [] | body => [makeFile PolicyContractPath body "policy-contract"] end) ++
    flat_map policy_files (r_policies r) ++ map skill_file (r_skills r) ++ lexical ++ repoMap ++ symbols ++ history in
  Ok (sort_on File_Path String.compare files, map policy_descriptor (r_policies r), map skill_descriptor (r_skills r),
      lexicalD ++ repoMapD ++ symbolsD ++ historyD).

(** ** The manifest *)

Definition descriptor (f : File) : FileDescriptor :=
  MkFileDescriptor (File_Path f) (File_Digest f) (File_SizeBytes f) (File_TokenEstimate f) (File_Kind f).
Definition descriptors (files : list File) : list FileDescriptor := sort_on FD_Path String.compare (map descriptor files).

Definition fd_json (d : FileDescriptor) : json :=
  JObject [("path", JString (FD_Path d)); ("digest", JString (FD_Digest d)); ("sizeBytes", JInt (FD_SizeBytes d));
           ("tokenEstimate", JInt (FD_TokenEstimate d)); ("kind", JString (FD_Kind d))].
Definition pd_json (d : PolicyDescriptor) : json :=
  JObject ([("id", JString (PD_ID d)); ("severity", JString (PD_Severity d))] ++ omit_empty "context" (PD_Context d) ++
    omit_empty "sourcePath" (PD_SourcePath d) ++ omit_empty "outputPath" (PD_OutputPath d) ++ omit_empty "scriptDigest" (PD_ScriptDigest d)).
Definition sd_json (d : SkillDescriptor) : json :=
  JObject ([("name", JString (SD_Name d)); ("declaredDigest", JString (SD_DeclaredDigest d)); ("contentDigest", JString (SD_ContentDigest d));
     ("source", JString (SD_Source d))] ++ omit_empty "artifactPath" (SD_ArtifactPath d) ++ [("outputPath", JString (SD_OutputPath d))]).
Definition std_json (d : StrategyDescriptor) : json :=
  JObject ([("kind", JString (StD_Kind d)); ("name", JString (StD_Name d))] ++ omit_empty "outputPath" (StD_OutputPath d) ++
    [("includedEntries", JInt (StD_IncludedEntries d)); ("omittedEntries", JInt (StD_OmittedEntries d))]).
Definition omission_json (o : Omission) : json :=
  JObject [("kind", JString (Omission_Kind o)); ("key", JString (Omission_Key o)); ("strategy", JString (Omission_Strategy o));
           ("reason", JString (Omission_Reason o))].
Definition usage_json (u : BudgetUsage) : json :=
  JObject [("inputBytes", JInt (Usage_InputBytes u)); ("outputBytes", JInt (Usage_OutputBytes u)); ("fileCount", JInt (Usage_FileCount u));
           ("tokenEstimate", JInt (Usage_TokenEstimate u))].

Definition manifest_head (m : Manifest) : list (string * json) :=
  [("schemaVersion", JString (Manifest_SchemaVersion m)); ("baseSHA", JString (Manifest_BaseSHA m));
   ("resolvedSpecDigest", JString (Manifest_ResolvedSpecDigest m))] ++ omit_empty "policyContractDigest" (PolicyContractDigest m) ++
  [("files", json_list fd_json (Manifest_Files m))] ++ json_list_omit "policies" pd_json (Manifest_Policies m) ++
  json_list_omit "skills" sd_json (Manifest_Skills m) ++ json_list_omit "strategies" std_json (Manifest_Strategies m) ++
  json_list_omit "omissions" omission_json (Manifest_Omissions m) ++ [("budgets", budgets_json (Manifest_Budgets m))].
Definition manifest_json (m : Manifest) : json := JObject (manifest_head m ++ [("usage", usage_json (Manifest_Usage m))]).

Definition with_usage (m : Manifest) (u : BudgetUsage) : Manifest :=
  MkManifest (Manifest_SchemaVersion m) (Manifest_BaseSHA m) (Manifest_ResolvedSpecDigest m) (PolicyContractDigest m) (Manifest_Files m)
    (Manifest_Policies m) (Manifest_Skills m) (Manifest_Strategies m) (Manifest_Omissions m) (Manifest_Budgets m) u.

Definition sumFileBytes (files : list File) : Z := sumZ File_SizeBytes files.
Definition sumFileTokens (files : list File) : Z := sumZ File_TokenEstimate files.

#[export] Instance BudgetUsage_eq_dec : EqDecision BudgetUsage.
Proof. solve_decision. Defined.

Fixpoint stabilize_loop (iterations : nat) (m : Manifest) (files : list File) (inputBytes : Z) : result pack_error (list Z * BudgetUsage) :=
  match iterations with
  | O => Err ErrInvalidInput
  | S iterations =>
    let? body := marshalJSON (manifest_json m) in
    let usage := MkUsage inputBytes (sumFileBytes files + slen body) (slen files + 1) (sumFileTokens files + estimateTokens body) in
    if bool_decide (Manifest_Usage m = usage) then Ok (body, usage)
    else stabilize_loop iterations (with_usage m usage) files inputBytes
  end.
Definition stabilizeManifest (base : Manifest) (files : list File) (inputBytes : Z) : result pack_error (list Z * BudgetUsage) :=
  stabilize_loop 16 base files inputBytes.

(** [json.Unmarshal] into a [Manifest]. *)
Definition read_fd (o : list (string * tree)) : option FileDescriptor :=
  let f := field ["path"; "digest"; "sizeBytes"; "tokenEstimate"; "kind"] o in
  path ← string_field (f "path"); digest ← string_field (f "digest"); size ← int_field (f "sizeBytes");
  tokens ← int_field (f "tokenEstimate"); kind ← string_field (f "kind"); Some (MkFileDescriptor path digest size tokens kind).
Definition read_pd (o : list (string * tree)) : option PolicyDescriptor :=
  let f := field ["id"; "severity"; "context"; "sourcePath"; "outputPath"; "scriptDigest"] o in
  id ← string_field (f "id"); severity ← string_field (f "severity"); context ← string_field (f "context");
  source ← string_field (f "sourcePath"); output ← string_field (f "outputPath"); digest ← string_field (f "scriptDigest");
  Some (MkPolicyDescriptor id severity context source output digest).
Definition read_sd (o : list (string * tree)) : option SkillDescriptor :=
  let f := field ["name"; "declaredDigest"; "contentDigest"; "source"; "artifactPath"; "outputPath"] o in
  name ← string_field (f "name"); declared ← string_field (f "declaredDigest"); content ← string_field (f "contentDigest");
  source ← string_field (f "source"); artifact ← string_field (f "artifactPath"); output ← string_field (f "outputPath");
  Some (MkSkillDescriptor name declared content source artifact output).
Definition read_std (o : list (string * tree)) : option StrategyDescriptor :=
  let f := field ["kind"; "name"; "outputPath"; "includedEntries"; "omittedEntries"] o in
  kind ← string_field (f "kind"); name ← string_field (f "name"); output ← string_field (f "outputPath");
  included ← int_field (f "includedEntries"); omitted ← int_field (f "omittedEntries"); Some (MkStrategyDescriptor kind name output included omitted).
Definition read_omission (o : list (string * tree)) : option Omission :=
  let f := field ["kind"; "key"; "strategy"; "reason"] o in
  kind ← string_field (f "kind"); key ← string_field (f "key"); strategy ← string_field (f "strategy"); reason ← string_field (f "reason");
  Some (MkOmission kind key strategy reason).
Definition read_budgets (o : list (string * tree)) : option Budgets :=
  let f := field ["maxInputBytes"; "maxOutputBytes"; "maxFileBytes"; "maxFiles"; "maxTokens"; "maxEntries"] o in
  input ← int_field (f "maxInputBytes"); output ← int_field (f "maxOutputBytes"); file ← int_field (f "maxFileBytes");
  files ← int_field (f "maxFiles"); tokens ← int_field (f "maxTokens"); entries ← int_field (f "maxEntries");
  Some (MkBudgets input output file files tokens entries).
Definition read_usage (o : list (string * tree)) : option BudgetUsage :=
  let f := field ["inputBytes"; "outputBytes"; "fileCount"; "tokenEstimate"] o in
  input ← int_field (f "inputBytes"); output ← int_field (f "outputBytes"); count ← int_field (f "fileCount"); tokens ← int_field (f "tokenEstimate");
  Some (MkUsage input output count tokens).

Definition manifest_names : list string :=
  ["schemaVersion"; "baseSHA"; "resolvedSpecDigest"; "policyContractDigest"; "files"; "policies"; "skills"; "strategies"; "omissions"; "budgets"; "usage"].
Definition read_manifest (o : list (string * tree)) : option Manifest :=
  let f := field manifest_names o in
  schema ← string_field (f "schemaVersion"); base ← string_field (f "baseSHA"); spec ← string_field (f "resolvedSpecDigest");
  contract ← string_field (f "policyContractDigest"); files ← list_field (struct_item read_fd) (f "files");
  policies ← list_field (struct_item read_pd) (f "policies"); skills ← list_field (struct_item read_sd) (f "skills");
  strategies ← list_field (struct_item read_std) (f "strategies"); omissions ← list_field (struct_item read_omission) (f "omissions");
  budgets ← struct_field read_budgets (f "budgets"); usage ← struct_field read_usage (f "usage");
  Some (MkManifest schema base spec contract files policies skills strategies omissions budgets usage).

Definition decodeManifest (body : list Z) : result pack_error Manifest :=
  match parse_tree body with
  | Some v => match struct_field read_manifest (Some v) with Some m => Ok m | None => Err ErrInvalidInput end
  | None => Err ErrInvalidInput
  end.

(** ** Budgets *)

Definition budgetIssues (files : list File) (usage : BudgetUsage) (budgets : Budgets) : list budgetIssue :=
  flat_map (fun file => if MaxFileBytes budgets <? File_SizeBytes file
                        then [MkIssue ("maxFileBytes:" +:+ File_Path file) (File_SizeBytes file) (MaxFileBytes budgets)] else []) files ++
  (if MaxFiles budgets <? Usage_FileCount usage then [MkIssue "maxFiles" (Usage_FileCount usage) (MaxFiles budgets)] else []) ++
  (if MaxOutputBytes budgets <? Usage_OutputBytes usage then [MkIssue "maxOutputBytes" (Usage_OutputBytes usage) (MaxOutputBytes budgets)] else []) ++
  (if MaxTokens budgets <? Usage_TokenEstimate usage then [MkIssue "maxTokens" (Usage_TokenEstimate usage) (MaxTokens budgets)] else []).

Definition symbol_text (e : SymbolEntry) : string :=
  Symbol_Path e +:+ ":" +:+ pretty (Symbol_Line e) +:+ ":" +:+ pretty (Symbol_Column e) +:+ ":" +:+ Symbol_Kind e +:+ ":" +:+ Symbol_Name e.
Definition history_text (e : HistoryEntry) : string := History_CommitSHA e +:+ ":" +:+ History_Subject e.

Definition entry_order (e : optionalEntry) : string * string := (e_kind e, e_key e).
Definition optionalEntries (s : selection) : list optionalEntry :=
  sort_on entry_order (compare_pair String.compare String.compare)
    (map (fun e => MkEntry "lexical" (Lexical_Path e) "lexical") (s_lexical s) ++
     map (fun e => MkEntry "repo-map" (RepoMap_Path e) "repo-map") (s_repoMap s) ++
     map (fun e => MkEntry "symbols" (symbol_text e) "symbols") (s_symbols s) ++
     map (fun e => MkEntry "history" (history_text e) "history") (s_history s)).

Definition kindForContextPath (filePath : string) : string :=
  if filePath =?= lexicalPath then "lexical" else if filePath =?= repoMapPath then "repo-map"
  else if filePath =?= symbolsPath then "symbols" else if filePath =?= historyPath then "history" else "".

Definition last_of_kind (kind : string) (candidates : list optionalEntry) : option optionalEntry :=
  find (fun e => e_kind e =?= kind) (rev candidates).

(** The issues from the last one. *)
Fixpoint oversized_entry (candidates : list optionalEntry) (issues : list budgetIssue) : option optionalEntry :=
  match issues with
  | [] => None
  | issue :: issues =>
    if HasPrefix (i_metric issue) "maxFileBytes:" then
      match last_of_kind (kindForContextPath (TrimPrefix (i_metric issue) "maxFileBytes:")) candidates with
      | Some e => Some e
      | None => oversized_entry candidates issues
      end
    else oversized_entry candidates issues
  end.

Definition lastOptionalEntry (s : selection) (issues : list budgetIssue) : option optionalEntry :=
  let candidates := optionalEntries s in
  match last candidates with
  | None => None
  | Some final =>
    match oversized_entry candidates (rev issues) with
    | Some e => Some e
    | None => Some final
    end
  end.

Fixpoint remove_first {A : Type} (p : A -> bool) (l : list A) : list A :=
  match l with
  | [] => []
  | x :: rest => if p x then rest else x :: remove_first p rest
  end.

Definition removeOptionalEntry (s : selection) (entry : optionalEntry) : selection :=
  if e_kind entry =?= "lexical" then
    MkSelection (remove_first (fun v => Lexical_Path v =?= e_key entry) (s_lexical s)) (s_repoMap s) (s_symbols s) (s_history s)
  else if e_kind entry =?= "repo-map" then
    MkSelection (s_lexical s) (remove_first (fun v => RepoMap_Path v =?= e_key entry) (s_repoMap s)) (s_symbols s) (s_history s)
  else if e_kind entry =?= "symbols" then
    MkSelection (s_lexical s) (s_repoMap s) (remove_first (fun v => symbol_text v =?= e_key entry) (s_symbols s)) (s_history s)
  else if e_kind entry =?= "history" then
    MkSelection (s_lexical s) (s_repoMap s) (s_symbols s) (remove_first (fun v => history_text v =?= e_key entry) (s_history s))
  else s.

(** ** Compilation *)

Definition zero_usage : BudgetUsage := MkUsage 0 0 0 0.

(** A pack, or what exceeds its budgets. *)
Definition assemble (r : resolvedInput) (selected : selection) (omissions : list Omission) : result pack_error (Pack + list budgetIssue) :=
  let? (files, policies, skills, strategies) := renderFiles r selected in
  let base := MkManifest SchemaVersion (r_baseSHA r) (r_resolvedSpecDigest r) (optionalDigest (r_policyContractManifest r)) (descriptors files)
    policies skills strategies omissions (r_budgets r) zero_usage in
  let? (manifestBytes, usage) := stabilizeManifest base files (r_inputBytes r) in
  let manifestFile := makeFile manifestPath manifestBytes "manifest" in
  let allFiles := sort_on File_Path String.compare (files ++ [manifestFile]) in
  match budgetIssues allFiles usage (r_budgets r) with
  | [] =>
    let? manifest := decodeManifest manifestBytes in
    Ok (inl (MkPack allFiles manifest (File_Digest manifestFile)))
  | issues => Ok (inr issues)
  end.

Definition omission_order (o : Omission) : string * string := (Omission_Kind o, Omission_Key o).

(** [None] when the fuel does not suffice, which [Compile]'s does. *)
Fixpoint compile_loop (fuel : nat) (r : resolvedInput) (selected : selection) (omissions : list Omission) : option (result pack_error Pack) :=
  match fuel with
  | O => None
  | S fuel =>
    match assemble r selected omissions with
    | Err e => Some (Err e)
    | Ok (inl pack) => Some (Ok pack)
    | Ok (inr issues) =>
      let first := default (MkIssue "" 0 0) (head issues) in
      match lastOptionalEntry selected issues with
      | None => Some (Err (ErrBudgetExceeded (i_metric first) (i_actual first) (i_limit first)))
      | Some entry =>
        compile_loop fuel r (removeOptionalEntry selected entry)
          (sort_on omission_order (compare_pair String.compare String.compare)
             (omissions ++ [MkOmission (e_kind entry) (e_key entry) (e_strategy entry) (i_metric first)]))
      end
    end
  end.

Definition everything (r : resolvedInput) : selection := MkSelection (r_lexical r) (r_repoMap r) (r_symbols r) (r_history r).
Definition entry_count (s : selection) : nat :=
  length (s_lexical s) + length (s_repoMap s) + length (s_symbols s) + length (s_history s).

Definition Compile (input : PackInput) : option (result pack_error Pack) :=
  match Pack_normalizeInput input with
  | Err e => Some (Err e)
  | Ok r =>
    if MaxInputBytes (r_budgets r) <? r_inputBytes r
    then Some (Err (ErrBudgetExceeded "maxInputBytes" (r_inputBytes r) (MaxInputBytes (r_budgets r))))
    else compile_loop (S (entry_count (everything r))) r (everything r) []
  end.

Definition Pack_File (p : Pack) (name : string) : option File := find (fun file => File_Path file =?= name) (Pack_Files p).
Definition ManifestBytes (p : Pack) : option (list Z) := File_Content <$> Pack_File p manifestPath.
