(* ===== verification/ContextPackOrder.v ===== *)
(** * Context packs: normalisation, and why the order of the input does not count *)

From stdpp Require Import pretty.
From S2P Require Import Prelude Order GoStrings Paths Digest Base64 GoJson Unmarshal ContextPack.
Local Open Scope go_scope.
Local Open Scope string_scope.
Local Open Scope Z_scope.
Local Open Scope list_scope.

(** ** Errors *)

(** The only error of a check. *)
Definition invalid_only {A : Type} (r : result pack_error A) : Prop := forall e, r = Err e -> e = ErrInvalidInput.

Create HintDb invalid.
Lemma invalid_ok {A : Type} (a : A) : invalid_only (Ok a).
Proof. intros e. discriminate. Qed.
Lemma invalid_err {A : Type} : invalid_only (A := A) (Err ErrInvalidInput).
Proof. by intros e [= <-]. Qed.
Lemma invalid_if {A : Type} (b : bool) (x y : result pack_error A) : invalid_only x -> invalid_only y -> invalid_only (if b then x else y).
Proof. by destruct b. Qed.
Lemma invalid_bind {A B : Type} (m : result pack_error A) (k : A -> result pack_error B) :
  invalid_only m -> (forall a, invalid_only (k a)) -> invalid_only (let? a := m in k a).
Proof. intros Hm Hk e. destruct m as [a|e']; cbn; [apply Hk|]. intros [= <-]. by apply Hm. Qed.
#[export] Hint Resolve invalid_ok invalid_err invalid_if invalid_bind : invalid.

Lemma invalid_pair {A B C : Type} (p : A * B) (k : A -> B -> result pack_error C) :
  (forall a b, invalid_only (k a b)) -> invalid_only (let '(a, b) := p in k a b).
Proof. intros H. by destruct p. Qed.
#[export] Hint Resolve invalid_pair : invalid.

Lemma guard_invalid b : invalid_only (guard b).
Proof. unfold guard. auto with invalid. Qed.
#[export] Hint Resolve guard_invalid : invalid.
Lemma validateText_invalid value required n : invalid_only (validateText value required n).
Proof. unfold validateText. auto 10 with invalid. Qed.
Lemma validateBytes_invalid value n : invalid_only (validateBytes value n).
Proof. unfold validateBytes. auto 10 with invalid. Qed.
#[export] Hint Resolve validateText_invalid validateBytes_invalid : invalid.
Lemma safeName_invalid value : invalid_only (Pack_safeName value).
Proof. unfold Pack_safeName. auto 10 with invalid. Qed.
Lemma safeRelativePath_invalid value glob : invalid_only (safeRelativePath value glob).
Proof. unfold safeRelativePath. auto 10 with invalid. Qed.
#[export] Hint Resolve safeName_invalid safeRelativePath_invalid : invalid.
Lemma policy_invalid id rule : invalid_only (normalize_policy id rule).
Proof. unfold normalize_policy, policy_script. auto 20 with invalid. Qed.
Lemma skill_invalid name skill : invalid_only (normalize_skill name skill).
Proof. unfold normalize_skill. auto 20 with invalid. Qed.
Lemma lexical_invalid path entry : invalid_only (normalize_lexical path entry).
Proof. unfold normalize_lexical. auto 20 with invalid. Qed.
Lemma repoMap_invalid path entry : invalid_only (normalize_repoMap path entry).
Proof. unfold normalize_repoMap. auto 20 with invalid. Qed.
Lemma symbol_invalid entry : invalid_only (symbol_key entry).
Proof. unfold symbol_key. auto 20 with invalid. Qed.
#[export] Hint Resolve policy_invalid skill_invalid lexical_invalid repoMap_invalid symbol_invalid : invalid.

(** ** Items with distinct keys *)

Section Items.
Context {A B K : Type} `{EqDecision K} (key : A -> result pack_error K) (rest : K -> A -> result pack_error B).

(** An item with its key and what it becomes. *)
Definition item_ok (a : A) (kb : K * B) : Prop := key a = Ok kb.1 /\ rest kb.1 a = Ok kb.2.

Lemma distinct_items_ok input : forall seen output out,
  distinct_items key rest seen output input = Ok out <->
  exists kbs, Forall2 item_ok input kbs /\ NoDup (map fst kbs) /\ Forall (fun k => k ∉ seen) (map fst kbs) /\ out = output ++ map snd kbs.
Proof.
  induction input as [|a input IH]; intros seen output out; cbn [distinct_items].
  - split.
    + intros [= <-]. exists []. split_and!; [constructor..|by rewrite app_nil_r].
    + intros (kbs & H & _ & _ & ->). inversion H; subst. by rewrite app_nil_r.
  - split.
    + destruct (key a) as [k|] eqn:Hk; [|done]. cbn. destruct (bool_decide_reflect (k ∈ seen)) as [|Hs]; [done|].
      destruct (rest k a) as [b|] eqn:Hr; [|done]. cbn. rewrite IH. intros (kbs & H1 & H2 & H3 & ->).
      exists ((k, b) :: kbs). cbn [map fst]. split_and!.
      * by constructor.
      * constructor; [|done]. intros Hin. rewrite Forall_forall in H3. apply (H3 k Hin). left.
      * constructor; [done|]. eapply Forall_impl; [exact H3|]. cbn. intros x Hx Hin. apply Hx. by right.
      * by rewrite <- app_assoc.
    + intros (kbs & H1 & H2 & H3 & ->). inversion H1 as [|? [k b] ? kbs' [Hk Hr] Hl]; subst. cbn [fst snd map] in *.
      inversion_clear H2 as [|? ? Hn Hd]. inversion_clear H3 as [|? ? Hs Hall]. rewrite Hk. cbn. rewrite bool_decide_eq_false_2 by done.
      rewrite Hr. cbn. apply IH. exists kbs'. split_and!; [done|done| |by rewrite <- app_assoc].
      rewrite Forall_forall in *. intros x Hx [->|Hin]%elem_of_cons; [done|]. by apply (Hall x).
Qed.

Lemma distinct_items_invalid input : (forall a, invalid_only (key a)) -> (forall k a, invalid_only (rest k a)) ->
  forall seen output, invalid_only (distinct_items key rest seen output input).
Proof. intros Hk Hr. induction input as [|a input IH]; intros seen output; cbn [distinct_items]; auto with invalid. Qed.

Lemma distinct_items_perm input input' : (forall a, invalid_only (key a)) -> (forall k a, invalid_only (rest k a)) -> input ≡ₚ input' ->
  match distinct_items key rest [] [] input, distinct_items key rest [] [] input' with
  | Ok out, Ok out' => exists kbs kbs', out = map snd kbs /\ out' = map snd kbs' /\ kbs ≡ₚ kbs' /\ NoDup (map fst kbs) /\ Forall2 item_ok input kbs
  | Err e, Err e' => e = e'
  | _, _ => False
  end.
Proof.
  intros Hk Hr Hp.
  assert (Hmove : forall l l' out, l ≡ₚ l' -> distinct_items key rest [] [] l = Ok out -> exists kbs kbs', out = map snd kbs /\
    distinct_items key rest [] [] l' = Ok (map snd kbs') /\ kbs ≡ₚ kbs' /\ NoDup (map fst kbs) /\ Forall2 item_ok l kbs).
  { intros l l' out Hl (kbs & H1 & H2 & _ & ->)%distinct_items_ok. destruct (Permutation_Forall2 Hl H1) as (kbs' & Hkp & H1').
    exists kbs, kbs'. split_and!; try done. apply distinct_items_ok. exists kbs'. split_and!; [done|by rewrite <- Hkp|apply Forall_true; set_solver|done]. }
  destruct (distinct_items key rest [] [] input) as [out|e] eqn:E.
  - destruct (Hmove _ _ _ Hp E) as (kbs & kbs' & -> & -> & ?). eauto.
  - destruct (distinct_items key rest [] [] input') as [out'|e'] eqn:E'.
    + symmetry in Hp. destruct (Hmove _ _ _ Hp E') as (? & ? & _ & Hc & _). congruence.
    + apply distinct_items_invalid in E, E'; [|done..]. congruence.
Qed.

(** Sorted by an order that determines the key. *)
Lemma sorted_items_perm {O : Type} (order : B -> O) (cmp : O -> O -> comparison) `{!Ordering cmp} (h : O -> K) input input' :
  (forall a, invalid_only (key a)) -> (forall k a, invalid_only (rest k a)) ->
  (forall a k b, key a = Ok k -> rest k a = Ok b -> h (order b) = k) -> input ≡ₚ input' ->
  (let? output := distinct_items key rest [] [] input' in Ok (sort_on order cmp output)) =
  (let? output := distinct_items key rest [] [] input in Ok (sort_on order cmp output)).
Proof.
  intros Hk Hr Hh Hp. pose proof (distinct_items_perm _ _ Hk Hr Hp) as H.
  destruct (distinct_items key rest [] [] input) as [out|e], (distinct_items key rest [] [] input') as [out'|e']; cbn in *; [|done|done|by rewrite H].
  destruct H as (kbs & kbs' & -> & -> & Hkp & Hnd & Hall). f_equal. symmetry. apply sort_on_unique; [done| |by rewrite Hkp].
  apply (NoDup_fmap_1 h). assert (He : h <$> map order (map snd kbs) = map fst kbs); [|by rewrite He].
  clear Hkp Hnd Hp. induction Hall as [|a [k b] l kbs [H1 H2] _ IH]; [done|]. cbn in *. f_equal; [by eapply Hh|]. exact IH.
Qed.
End Items.

(** ** The collections *)

Lemma path_returns value glob clean : safeRelativePath value glob = Ok clean -> clean = value.
Proof. unfold safeRelativePath. repeat (destruct (_ || _) in |- *; [done|]). destruct (negb _); [done|]. destruct (forallb _ _); [|done]. by intros [= <-]. Qed.

Lemma normalizePathList_perm l l' glob : l ≡ₚ l' -> normalizePathList l' glob = normalizePathList l glob.
Proof.
  intros Hp. unfold normalizePathList.
  pose proof (distinct_items_perm (fun value => safeRelativePath value glob) (fun clean _ => Ok clean) _ _
    (fun value => safeRelativePath_invalid value glob) (fun _ _ => invalid_ok _) Hp) as H.
  destruct (distinct_items _ _ [] [] l) as [out|e], (distinct_items _ _ [] [] l') as [out'|e']; cbn in *; [|done|done|by rewrite H].
  destruct H as (kbs & kbs' & -> & -> & Hkp & _). f_equal. apply Strings_unique. by rewrite Hkp.
Qed.

Lemma normalizePathList_invalid l glob : invalid_only (normalizePathList l glob).
Proof. unfold normalizePathList. apply invalid_bind; [apply distinct_items_invalid|]; auto with invalid. Qed.
#[export] Hint Resolve normalizePathList_invalid : invalid.

Lemma policy_id id rule p : normalize_policy id rule = Ok p -> rp_id p = id.
Proof.
  unfold normalize_policy. intros H. repeat (apply result_bind_ok in H as (? & _ & H) || (destruct (_ && _) in H; [done|])). destruct x2. by injection H as <-.
Qed.
Lemma skill_name name s r : normalize_skill name s = Ok r -> rs_name r = name.
Proof.
  unfold normalize_skill. intros H. repeat (destruct (negb _) in H; [try done|] || (destruct (_ && _) in H; [done|]));
    apply result_bind_ok in H as (? & _ & H); by injection H as <-.
Qed.
Lemma lexical_path path e r : normalize_lexical path e = Ok r -> Lexical_Path r = path.
Proof.
  unfold normalize_lexical. intros H. do 2 apply result_bind_ok in H as (? & _ & H). destruct (_ || _) in H; [done|]. destruct (negb _) in H; [done|].
  by injection H as <-.
Qed.
Lemma repoMap_path path e r : normalize_repoMap path e = Ok r -> RepoMap_Path r = path.
Proof. unfold normalize_repoMap. intros H. do 3 apply result_bind_ok in H as (? & _ & H). by injection H as <-. Qed.
Lemma symbol_key_order e k : symbol_key e = Ok k ->
  (fun o : string * (Z * (Z * (string * string))) => nul_joined [o.1; pretty o.2.1; pretty o.2.2.1; o.2.2.2.1; o.2.2.2.2]) (symbol_order e) = k.
Proof.
  unfold symbol_key. intros H. apply result_bind_ok in H as (path & ->%path_returns & H). do 3 apply result_bind_ok in H as (? & _ & H).
  destruct (_ || _) in H; [done|]. by injection H as <-.
Qed.
Lemma history_key_order e k : history_key e = Ok k -> (fun o : string * string => nul_joined [o.1; o.2]) (history_order e) = k.
Proof. unfold history_key. intros H. do 3 apply result_bind_ok in H as (? & _ & H). by injection H as <-. Qed.

Lemma normalizePolicies_perm l l' : l ≡ₚ l' -> normalizePolicies l' = normalizePolicies l.
Proof.
  apply (sorted_items_perm (fun rule => Pack_safeName (Rule_ID rule)) normalize_policy rp_id String.compare id); [auto with invalid..|].
  intros a k b _. apply policy_id.
Qed.
Lemma normalizeSkills_perm l l' : l ≡ₚ l' -> normalizeSkills l' = normalizeSkills l.
Proof.
  apply (sorted_items_perm (fun skill => Pack_safeName (Skill_Name skill)) normalize_skill rs_name String.compare id); [auto with invalid..|].
  intros a k b _. apply skill_name.
Qed.
Lemma normalizeLexical_perm l l' : l ≡ₚ l' -> normalizeLexical l' = normalizeLexical l.
Proof.
  apply (sorted_items_perm (fun e => safeRelativePath (Lexical_Path e) false) normalize_lexical Lexical_Path String.compare id); [auto with invalid..|].
  intros a k b _. apply lexical_path.
Qed.
Lemma normalizeRepoMap_perm l l' : l ≡ₚ l' -> normalizeRepoMap l' = normalizeRepoMap l.
Proof.
  apply (sorted_items_perm (fun e => safeRelativePath (RepoMap_Path e) false) normalize_repoMap RepoMap_Path String.compare id); [auto with invalid..|].
  intros a k b _. apply repoMap_path.
Qed.
Lemma normalizeSymbols_perm l l' : l ≡ₚ l' -> normalizeSymbols l' = normalizeSymbols l.
Proof.
  apply (sorted_items_perm symbol_key (fun _ e => Ok e) symbol_order compare_symbol
    (fun o => nul_joined [o.1; pretty o.2.1; pretty o.2.2.1; o.2.2.2.1; o.2.2.2.2])); [auto with invalid|intros; apply invalid_ok|].
  intros a k b Hk [= <-]. by apply symbol_key_order.
Qed.
Lemma history_invalid e : invalid_only (history_key e).
Proof. unfold history_key. auto 20 with invalid. Qed.
Lemma normalizeHistory_perm l l' : l ≡ₚ l' -> normalizeHistory l' = normalizeHistory l.
Proof.
  apply (sorted_items_perm history_key _ history_order _ (fun o => nul_joined [o.1; o.2])); [apply history_invalid|auto with invalid|].
  intros a k b Hk (paths & _ & [= <-])%result_bind_ok. exact (history_key_order a k Hk).
Qed.

(** ** The whole input *)

(** The same material, supplied in another order. *)
Record same_material (i j : PackInput) : Prop := {
  same_fixed : Input_BaseSHA j = Input_BaseSHA i /\ Input_ResolvedSpecDigest j = Input_ResolvedSpecDigest i /\ Input_Task j = Input_Task i /\
    Input_Instructions j = Input_Instructions i /\ Input_ExistingAgentsMD j = Input_ExistingAgentsMD i /\
    Input_PolicyContractManifest j = Input_PolicyContractManifest i /\ Input_Strategies j = Input_Strategies i /\ Input_Budgets j = Input_Budgets i;
  same_boundaries : AllowedPaths (Input_Boundaries i) ≡ₚ AllowedPaths (Input_Boundaries j) /\ ForbiddenPaths (Input_Boundaries i) ≡ₚ ForbiddenPaths (Input_Boundaries j);
  same_policies : Input_Policies i ≡ₚ Input_Policies j;
  same_skills : Input_Skills i ≡ₚ Input_Skills j;
  same_lexical : Input_Lexical i ≡ₚ Input_Lexical j;
  same_repoMap : Input_RepoMap i ≡ₚ Input_RepoMap j;
  same_symbols : Input_Symbols i ≡ₚ Input_Symbols j;
  same_history : Input_History i ≡ₚ Input_History j
}.

Lemma slen_perm {A : Type} (l k : list A) : l ≡ₚ k -> slen k = slen l.
Proof. intros H. unfold slen. by rewrite H. Qed.

Lemma counts_perm i j limit : same_material i j -> validateCollectionCounts j limit = validateCollectionCounts i limit.
Proof. intros [_ _ ?%slen_perm ?%slen_perm ?%slen_perm ?%slen_perm ?%slen_perm ?%slen_perm]. unfold validateCollectionCounts. by repeat match goal with H : slen _ = _ |- _ => rewrite H; clear H end. Qed.

Lemma normalizeInput_perm i j : same_material i j -> Pack_normalizeInput j = Pack_normalizeInput i.
Proof.
  intros H. pose proof (counts_perm _ _ (MaxEntries (Input_Budgets i)) H) as Hc. destruct H as [(E1 & E2 & E3 & E4 & E5 & E6 & E7 & E8) [Ha Hf] H1 H2 H3 H4 H5 H6].
  unfold Pack_normalizeInput, normalizeBoundaries. rewrite E1, E2, E3, E4, E5, E6, E7, E8, Hc.
  rewrite (normalizePathList_perm _ _ _ Ha), (normalizePathList_perm _ _ _ Hf), (normalizePolicies_perm _ _ H1), (normalizeSkills_perm _ _ H2).
  by rewrite (normalizeLexical_perm _ _ H3), (normalizeRepoMap_perm _ _ H4), (normalizeSymbols_perm _ _ H5), (normalizeHistory_perm _ _ H6).
Qed.

(** C5. The order of the input does not count: the same boundaries, policies,
    skills and context entries give the same pack, byte for byte, or the same
    error, in whatever order they are supplied. *)
Theorem compile_order_independent i j (H : same_material i j) : Compile j = Compile i.
Proof. unfold Compile. by rewrite (normalizeInput_perm _ _ H). Qed.

(** ** A concrete input *)

Definition sample_digest : string := "sha256:" +:+ String.concat "" (repeat "b" 64).
Definition sample_lexical (path : string) : LexicalEntry := MkLexical path ".go" "go" 10 2 sample_digest.
Definition sample_pack_input (lexical : list LexicalEntry) : PackInput :=
  MkInput (String.concat "" (repeat "a" 40)) sample_digest "Fix the parser" "" "" (MkBoundaries ["src/**"] [])
    [MkPolicyRule "No Secrets" SeverityBlocking "" "checks/secrets.sh" (bytes "exit 0") ""] [] [MkSkill "Go" sample_digest "use go" ""]
    lexical [] [] [] (MkStrategies "local" "" "" "") (MkBudgets 100000 3230 10000 20 10000 10).

Lemma compile_order_independent_witness :
  Compile (sample_pack_input [sample_lexical "a.go"; sample_lexical "b.go"]) = Compile (sample_pack_input [sample_lexical "b.go"; sample_lexical "a.go"]).
Proof. apply compile_order_independent. split; cbn; try done. apply Permutation_swap. Defined.
