(* ===== verification/ContextPackUsage.v ===== *)
(** * Context packs: the usage written in a manifest settles

    The manifest records the size of the pack, its own included, so that writing
    the usage changes it.  The loop of [stabilizeManifest] finds the usage that
    describes its own manifest in a few rounds. *)

From stdpp Require Import pretty.
From S2P Require Import Prelude Order GoStrings Paths Utf8 Digest Digits Base64 GoJson Unmarshal UnmarshalSpec ContextPack ContextPackOrder.
Local Open Scope go_scope.
Local Open Scope string_scope.
Local Open Scope Z_scope.
Local Open Scope list_scope.

(** ** Written text is UTF-8 *)

Definition utf8 (l : list Z) : Prop := valid_utf8 l = true /\ Forall (fun b => 0 <= b) l.

Lemma utf8_app l k : utf8 l -> utf8 k -> utf8 (l ++ k).
Proof. intros [H1 H2] [H3 H4]. split; [by apply valid_utf8_app|by apply Forall_app]. Qed.
Lemma utf8_ascii l : Forall (fun b => 0 <= b < 0x80) l -> utf8 l.
Proof.
  intros H. split; [|eapply Forall_impl; [exact H|]; cbn; lia]. unfold valid_utf8. rewrite decode_ascii by (eapply Forall_impl; [exact H|]; cbn; lia).
  apply forallb_true, Forall_map, Forall_true. done.
Qed.
Lemma ascii_list l : forallb (between 0 0x7F) l = true -> Forall (fun b => 0 <= b < 0x80) l.
Proof. intros H. rewrite forallb_true in H. eapply Forall_impl; [exact H|]. cbn. intros b Hb%between_spec. lia. Qed.
Lemma utf8_plain l : forallb (between 0 0x7F) l = true -> utf8 l.
Proof. intros H. by apply utf8_ascii, ascii_list. Qed.
Lemma utf8_cons b l : 0 <= b < 0x80 -> utf8 l -> utf8 (b :: l).
Proof. intros Hb Hl. apply (utf8_app [b] l); [|done]. apply utf8_ascii. by apply Forall_singleton. Qed.
Lemma utf8_rune r : scalar r -> utf8 (encode_rune r).
Proof.
  intros H. assert (Hs : Forall scalar [r]) by (by apply Forall_singleton). pose proof (valid_encode_runes _ Hs) as H1. pose proof (encode_runes_bytes _ Hs) as H2.
  cbn in H1, H2. rewrite app_nil_r in H1, H2. split; [done|]. eapply Forall_impl; [exact H2|]. unfold is_byte. cbn. lia.
Qed.

Lemma hex_digit_text x : 0 <= x < 16 -> 0 <= hex_digit x < 0x80.
Proof. unfold hex_digit. destruct (Z.ltb_spec x 10); lia. Qed.
Lemma utf8_escape r : utf8 (unicode_escape r).
Proof.
  apply utf8_ascii. unfold unicode_escape, bslash. repeat (apply Forall_cons; split; [first [apply hex_digit_text, Z.mod_pos_bound; lia|lia]|]). constructor.
Qed.

Lemma utf8_json_rune r : scalar r.1 -> utf8 (json_rune r).
Proof.
  destruct r as [r ok]. intros Hs. unfold json_rune. destruct ok; cbn [negb]; [|apply utf8_escape].
  destruct (_ || _) eqn:E in |- *; [|repeat (case_match; [by apply utf8_plain|])].
  - apply orb_true_iff in E as [->%Z.eqb_eq| ->%Z.eqb_eq]; by apply utf8_plain.
  - destruct (_ || _) in |- *; [apply utf8_escape|]. destruct (_ || _) in |- *; [apply utf8_escape|]. by apply utf8_rune.
Qed.

Lemma utf8_json_string s : utf8 (json_string (bytes s)).
Proof.
  unfold json_string. apply utf8_cons; [by compute|]. apply utf8_app; [|by apply utf8_plain].
  induction (bytes_scalar s) as [|r l Hr _ IH]; [by apply utf8_plain|]. cbn [flat_map]. by apply utf8_app; [apply utf8_json_rune|].
Qed.

Lemma utf8_commas items : Forall utf8 items -> utf8 (commas items).
Proof.
  induction 1 as [|x [|y items] Hx _ IH]; [by apply utf8_plain|done|]. change (commas (x :: y :: items)) with (x ++ 0x2C :: commas (y :: items)).
  apply utf8_app; [done|]. apply utf8_cons; [lia|done].
Qed.

Lemma spelling_ascii (n : Z) : Forall (fun b => 0 <= b < 0x80) (bytes (pretty n)).
Proof.
  assert (Hp : forall n : positive, Forall (fun b => 0 <= b < 0x80) (bytes (pretty n))).
  { intros p. destruct (pretty_positive_digits p) as (l & -> & Hd & _). eapply Forall_impl; [exact Hd|]. intros b Hb%is_digit_range. unfold zero in Hb. lia. }
  destruct n as [|n|n]; [by repeat constructor|apply Hp|]. change (bytes (pretty (Z.neg n))) with (0x2D :: bytes (pretty n)). constructor; [lia|apply Hp].
Qed.

Lemma utf8_marshal j : utf8 (Marshal j).
Proof.
  induction j as [|[]|n|s|items IH|fields IH] using json_induction; cbn [Marshal].
  - by apply utf8_plain.
  - by apply utf8_plain.
  - by apply utf8_plain.
  - apply utf8_ascii, spelling_ascii.
  - apply utf8_json_string.
  - apply utf8_cons; [lia|]. apply utf8_app; [|by apply utf8_plain]. apply utf8_commas. by apply Forall_map.
  - apply utf8_cons; [lia|]. apply utf8_app; [|by apply utf8_plain]. apply utf8_commas. apply Forall_map.
    eapply Forall_impl; [exact IH|]. cbv beta. intros f Hf. apply utf8_app; [apply utf8_json_string|]. apply utf8_cons; [lia|done].
Qed.

Lemma marshalJSON_ok j : marshalJSON j = Ok (Marshal j).
Proof. unfold marshalJSON. by rewrite (proj1 (utf8_marshal j)). Qed.

(** ** Digits *)

Definition width (n : Z) : Z := slen (bytes (pretty n)).

Lemma width_bounds n : 0 < n -> 1 <= width n /\ 10 ^ (width n - 1) <= n < 10 ^ width n.
Proof.
  intros Hn. destruct n as [|n|n]; [lia| |lia]. unfold width. change (pretty (Z.pos n)) with (pretty n).
  destruct (pretty_positive_digits n) as (l & -> & Hd & Hv & b & k & -> & Hb). pose proof (integer_val_bound _ _ Hd Hb) as H. rewrite Hv in H.
  unfold slen in *. cbn [length]. rewrite Nat2Z.inj_succ, <- Z.add_1_r. replace (Z.of_nat (length k) + 1 - 1) with (Z.of_nat (length k)) by lia. lia.
Qed.

Lemma width_pos n : 0 <= n -> 1 <= width n.
Proof. intros H. destruct (Z.eq_dec n 0) as [->|]; [by compute|]. apply width_bounds. lia. Qed.

Lemma width_le n k : 0 < k -> 0 <= n < 10 ^ k -> width n <= k.
Proof.
  intros Hk [H0 H]. destruct (Z.eq_dec n 0) as [->|]; [change (width 0) with 1; lia|]. destruct (width_bounds n) as (H1 & H2 & _); [lia|].
  assert (10 ^ (width n - 1) < 10 ^ k) as Hp by lia. apply Z.pow_lt_mono_r_iff in Hp; lia.
Qed.

Lemma width_mono n m : 0 <= n <= m -> width n <= width m.
Proof.
  intros H. destruct (Z.eq_dec m 0) as [->|]; [by replace n with 0 by lia|]. destruct (width_bounds m) as (H1 & _ & H3); [lia|]. apply width_le; lia.
Qed.

Lemma width_ten n m : 0 < n -> 0 <= m <= 10 * n -> width m <= width n + 1.
Proof.
  intros Hn Hm. destruct (width_bounds n Hn) as (H1 & _ & H3). apply width_le; [lia|]. rewrite Z.pow_add_r by lia. lia.
Qed.

(** ** The rounds *)

Lemma pow10_linear k : 0 <= k -> 9 * k + 1 <= 10 ^ k.
Proof.
  intros H. pattern k. apply natlike_ind; [by compute| |done]. intros x Hx IH. rewrite Z.pow_succ_r by done. lia.
Qed.

Lemma width_small n : 0 < n -> 9 * width n <= n + 8.
Proof. intros H. destruct (width_bounds n H) as (H1 & H2 & _). pose proof (pow10_linear (width n - 1)). lia. Qed.

(** The numbers of a round: [A] and [B] bytes and runes besides the digits of the
    usage, [T] tokens besides the manifest's, [c] digits that do not change. *)
Section Rounds.
Context (A B T c : Z).
Context (HA : 48 <= A) (HB : 0 <= B) (HT : 0 <= T) (Hc : 0 <= c <= 38) (Hsize : T + B <= A) (Htokens : A <= 16 * (T + (B + 7) / 4)).

Definition round_tokens (x : Z) : Z := T + (B + x + 3) / 4.
Definition round_width (x : Z) : Z := c + width (A + x) + width (round_tokens x).

Lemma tokens_mono x y : x <= y -> round_tokens x <= round_tokens y.
Proof. intros H. unfold round_tokens. pose proof (Z.div_le_mono (B + x + 3) (B + y + 3) 4). lia. Qed.

Lemma tokens_bounds x : 0 <= x -> 0 <= round_tokens x <= A + x + 1.
Proof. intros H. unfold round_tokens. Z.to_euclidean_division_equations. lia. Qed.

Lemma round_mono x y : 0 <= x <= y -> round_width x <= round_width y.
Proof.
  intros H. pose proof (tokens_bounds x). pose proof (tokens_mono x y). unfold round_width.
  pose proof (width_mono (A + x) (A + y)). pose proof (width_mono (round_tokens x) (round_tokens y)). lia.
Qed.

Lemma round_bound x : 0 <= x <= 40 + 2 * width A -> round_width x <= 40 + 2 * width A.
Proof.
  intros H. pose proof (width_small A) as Hw. pose proof (tokens_bounds x) as Ht. unfold round_width.
  pose proof (width_ten A (A + x)). pose proof (width_ten A (round_tokens x)). lia.
Qed.

Lemma round_narrow x : 4 <= x <= 40 + 2 * width A -> round_width x <= round_width 4 + 2.
Proof.
  intros H. pose proof (width_small A) as Hw. pose proof (tokens_bounds 4) as H4. pose proof (tokens_bounds x) as Hx. unfold round_width.
  assert (Hgrow : round_tokens x <= round_tokens 4 + x / 4 + 1) by (unfold round_tokens; Z.to_euclidean_division_equations; lia).
  assert (Hmany : A <= 16 * round_tokens 4) by (unfold round_tokens; by replace (B + 4 + 3) with (B + 7) by lia).
  pose proof (width_ten (A + 4) (A + x)). pose proof (width_ten (round_tokens 4) (round_tokens x)) as Hten.
  pose proof (width_pos A). assert (x / 4 <= 10 + width A) by (Z.to_euclidean_division_equations; lia). lia.
Qed.
End Rounds.

(** ** The manifest's text *)

Definition member_text (f : string * json) : list Z := json_string (bytes f.1) ++ 0x3A :: Marshal f.2.
Definition usage_text (u : BudgetUsage) : list Z := member_text ("usage", usage_json u) ++ [0x7D].
Definition before_usage (m : Manifest) : list Z := 0x7B :: commas (map member_text (manifest_head m)) ++ [0x2C].

Lemma commas_snoc l x : l <> [] -> commas (l ++ [x]) = commas l ++ 0x2C :: x.
Proof.
  induction l as [|a l IH]; [done|]. intros _. destruct l as [|b l]; [done|].
  change (commas ((a :: b :: l) ++ [x])) with (a ++ 0x2C :: commas ((b :: l) ++ [x])). rewrite IH by done.
  change (commas (a :: b :: l)) with (a ++ 0x2C :: commas (b :: l)). by rewrite <- app_assoc.
Qed.

Lemma manifest_text m : Marshal (manifest_json m) = before_usage m ++ usage_text (Manifest_Usage m).
Proof.
  unfold manifest_json, before_usage, usage_text. change (Marshal (JObject (manifest_head m ++ [("usage", usage_json (Manifest_Usage m))]))) with
    (0x7B :: commas (map member_text (manifest_head m ++ [("usage", usage_json (Manifest_Usage m))])) ++ [0x7D]).
  rewrite map_app. cbn [map]. rewrite commas_snoc by done. cbn [app]. by rewrite <- !app_assoc.
Qed.

Definition usage_width (u : BudgetUsage) : Z :=
  width (Usage_InputBytes u) + width (Usage_OutputBytes u) + width (Usage_FileCount u) + width (Usage_TokenEstimate u).
Definition usage_letters : Z := slen (usage_text zero_usage) - 4.

Lemma usage_text_spec u : slen (usage_text u) = usage_letters + usage_width u /\ Forall (fun b => 0 <= b < 0x80) (usage_text u) /\
  exists l, usage_text u = 0x22 :: l.
Proof.
  destruct u as [i o f t]. change usage_letters with 69.
  assert (E : usage_text (MkUsage i o f t) = json_string (bytes "usage") ++ [0x3A; 0x7B] ++ json_string (bytes "inputBytes") ++ [0x3A] ++ bytes (pretty i) ++
    [0x2C] ++ json_string (bytes "outputBytes") ++ [0x3A] ++ bytes (pretty o) ++ [0x2C] ++ json_string (bytes "fileCount") ++ [0x3A] ++ bytes (pretty f) ++
    [0x2C] ++ json_string (bytes "tokenEstimate") ++ [0x3A] ++ bytes (pretty t) ++ [0x7D; 0x7D]).
  { unfold usage_text, member_text, usage_json. cbn [Marshal map commas fst snd]. repeat (cbn [app]; rewrite <- app_assoc). reflexivity. }
  split_and!.
  - rewrite E. unfold slen. rewrite !length_app. change (length (json_string (bytes "usage"))) with 7%nat.
    change (length (json_string (bytes "inputBytes"))) with 12%nat. change (length (json_string (bytes "outputBytes"))) with 13%nat.
    change (length (json_string (bytes "fileCount"))) with 11%nat. change (length (json_string (bytes "tokenEstimate"))) with 15%nat.
    cbn [length]. unfold usage_width, width, slen. cbn [Usage_InputBytes Usage_OutputBytes Usage_FileCount Usage_TokenEstimate]. lia.
  - rewrite E. rewrite !Forall_app. split_and!; try apply spelling_ascii; apply ascii_list; reflexivity.
  - eexists. rewrite E. reflexivity.
Qed.

(** ** The loop *)

Lemma runes_lower l : (length l <= 4 * length (decode l))%nat.
Proof.
  induction l as [l IH] using (induction_ltof1 _ (@length _)). unfold ltof in IH. destruct l as [|b0 l]; [done|].
  assert (H0 : (length l <= 4 * length (decode l))%nat) by (apply IH; cbn; lia).
  cbn [decode]. repeat case_match; subst; cbn [length] in *; try lia;
    match goal with |- context [decode ?r] => assert ((length r <= 4 * length (decode r))%nat) by (apply IH; cbn; lia) end; lia.
Qed.

Lemma runes_bounds l : slen l <= 4 * RuneCount l /\ 0 <= RuneCount l <= slen l.
Proof. unfold RuneCount, slen. pose proof (runes_lower l). pose proof (decode_length l). lia. Qed.

(** Files as [makeFile] makes them. *)
Definition made (f : File) : Prop := exists path body kind, f = makeFile path body kind.

Lemma made_sizes f : made f -> File_SizeBytes f <= 16 * File_TokenEstimate f /\ 0 <= File_TokenEstimate f <= File_SizeBytes f.
Proof.
  intros (path & body & kind & ->). cbn. unfold estimateTokens. pose proof (runes_bounds body). Z.to_euclidean_division_equations. lia.
Qed.

Lemma made_sums files : Forall made files -> sumFileBytes files <= 16 * sumFileTokens files /\ 0 <= sumFileTokens files <= sumFileBytes files.
Proof.
  unfold sumFileBytes, sumFileTokens. induction 1 as [|f files Hf _ IH]; cbn [sumZ foldr]; [lia|]. unfold sumZ in IH. apply made_sizes in Hf. lia.
Qed.

Lemma before_with_usage m u : before_usage (with_usage m u) = before_usage m.
Proof. done. Qed.
Lemma with_usage_twice m u v : with_usage (with_usage m u) v = with_usage m v.
Proof. done. Qed.
Lemma with_usage_same m : with_usage m (Manifest_Usage m) = m.
Proof. by destruct m. Qed.

Section Loop.
Context (m : Manifest) (files : list File) (inputBytes : Z).
Context (Hmade : Forall made files) (Hinput : 0 <= inputBytes < 10 ^ 19) (Hfiles : slen files + 1 < 10 ^ 19).

Definition other_bytes : Z := sumFileBytes files + slen (before_usage m) + usage_letters.
Definition other_runes : Z := RuneCount (before_usage m) + usage_letters.
Definition fixed_digits : Z := width inputBytes + width (slen files + 1).
Notation A := other_bytes.
Notation B := other_runes.
Notation T := (sumFileTokens files).
Notation next := (round_width A B T fixed_digits).

(** The usage after a round whose own usage has [x] digits. *)
Definition round_usage (x : Z) : BudgetUsage := MkUsage inputBytes (A + x) (slen files + 1) (round_tokens B T x).

Lemma rounds_apply : 48 <= A /\ 0 <= B /\ 0 <= T /\ 0 <= fixed_digits <= 38 /\ T + B <= A /\ A <= 16 * (T + (B + 7) / 4).
Proof.
  pose proof (made_sums _ Hmade) as Hs. pose proof (runes_bounds (before_usage m)) as Hr. unfold other_bytes, other_runes, fixed_digits.
  change usage_letters with 69. pose proof (width_le inputBytes 19). pose proof (width_le (slen files + 1) 19).
  pose proof (width_pos inputBytes). pose proof (width_pos (slen files + 1)). pose proof (slen_nonneg files). pose proof (slen_nonneg (before_usage m)).
  Z.to_euclidean_division_equations. lia.
Qed.

Lemma round_size u : slen (Marshal (manifest_json (with_usage m u))) = slen (before_usage m) + usage_letters + usage_width u /\
  RuneCount (Marshal (manifest_json (with_usage m u))) = other_runes + usage_width u.
Proof.
  rewrite manifest_text, before_with_usage. cbn [Manifest_Usage with_usage]. destruct (usage_text_spec u) as (Hl & Ha & t & Ht). unfold RuneCount, other_runes, slen in *.
  rewrite length_app, Ht in *. split; [lia|]. rewrite decode_app_ascii by lia. rewrite length_app.
  rewrite (decode_ascii (0x22 :: t)) by (eapply Forall_impl; [exact Ha|]; cbn; lia). rewrite length_map. unfold RuneCount, slen. lia.
Qed.

Lemma round_step n u : stabilize_loop (S n) (with_usage m u) files inputBytes =
  let next_usage := round_usage (usage_width u) in
  if bool_decide (u = next_usage) then Ok (Marshal (manifest_json (with_usage m u)), next_usage)
  else stabilize_loop n (with_usage m next_usage) files inputBytes.
Proof.
  cbn [stabilize_loop]. rewrite marshalJSON_ok. cbn [result_bind]. destruct (round_size u) as [Hs Hr]. unfold estimateTokens. rewrite Hs, Hr.
  cbv zeta. cbn [Manifest_Usage with_usage]. rewrite with_usage_twice. unfold round_usage, round_tokens, other_bytes.
  replace (sumFileBytes files + (slen (before_usage m) + usage_letters + usage_width u)) with
    (sumFileBytes files + slen (before_usage m) + usage_letters + usage_width u) by lia.
  replace (other_runes + usage_width u + 3) with (B + usage_width u + 3) by lia. done.
Qed.

Lemma round_digits x : usage_width (round_usage x) = next x.
Proof. unfold usage_width, round_usage, round_width, fixed_digits. cbn. lia. Qed.

Lemma rounds_settle n : forall x, 4 <= x <= 40 + 2 * width A -> x <= next x -> (Z.to_nat (next 4 + 2 - x) < n)%nat -> next 4 <= x ->
  exists body u, stabilize_loop n (with_usage m (round_usage x)) files inputBytes = Ok (body, u).
Proof.
  destruct rounds_apply as (HA & HB & HT & Hc & Hsize & Htok).
  induction n as [|n IH]; intros x Hx Hle Hn Hlow; [lia|]. rewrite round_step, round_digits. cbv zeta. case_bool_decide as E; [eauto|].
  assert (Hne : x <> next x) by congruence.
  assert (next x <= next 4 + 2) by (apply round_narrow; lia). assert (next x <= 40 + 2 * width A) by (apply round_bound; lia).
  apply IH; [lia| |lia|lia]. apply round_mono; lia.
Qed.

Lemma first_rounds : Manifest_Usage m = zero_usage -> exists body u, stabilizeManifest m files inputBytes = Ok (body, u).
Proof.
  intros Hz. destruct rounds_apply as (HA & HB & HT & Hc & Hsize & Htok). unfold stabilizeManifest.
  enough (Hgoal : exists body u, stabilize_loop 16 (with_usage m zero_usage) files inputBytes = Ok (body, u)).
  { by rewrite <- Hz, with_usage_same in Hgoal. }
  rewrite round_step. change (usage_width zero_usage) with 4. cbv zeta. case_bool_decide; [eauto|].
  rewrite round_step, round_digits. cbv zeta. case_bool_decide; [eauto|].
  pose proof (width_pos A ltac:(lia)). assert (next 4 <= 40 + 2 * width A) by (apply round_bound; lia).
  assert (4 <= next 4). { unfold round_width. pose proof (width_pos (A + 4)). assert (0 <= round_tokens B T 4) by (apply (tokens_bounds A B T); lia). pose proof (width_pos (round_tokens B T 4)).
    unfold fixed_digits. pose proof (width_pos inputBytes). pose proof (width_pos (slen files + 1)). pose proof (slen_nonneg files). lia. }
  apply rounds_settle; [lia| |lia|lia]. apply round_mono; lia.
Qed.
End Loop.

Lemma ok_pair {E X Y : Type} (a c : X) (b d : Y) : Ok (E := E) (a, b) = Ok (c, d) -> a = c /\ b = d.
Proof. by intros [= -> ->]. Qed.

(** The usage that is returned describes the manifest that carries it. *)
Lemma stabilize_exact n : forall m files inputBytes body u, stabilize_loop n m files inputBytes = Ok (body, u) ->
  body = Marshal (manifest_json (with_usage m u)) /\
  u = MkUsage inputBytes (sumFileBytes files + slen body) (slen files + 1) (sumFileTokens files + estimateTokens body).
Proof.
  induction n as [|n IH]; intros m files inputBytes body u; cbn [stabilize_loop]; [done|]. rewrite marshalJSON_ok. cbn [result_bind]. cbv zeta.
  case_bool_decide as E.
  - intros [<- <-]%ok_pair. split; [|done]. by rewrite <- E, with_usage_same.
  - intros H. by apply IH in H.
Qed.
