(* ===== verification/ContextPackParts.v ===== *)
(** * Context packs: the manifest reads back, and what normalisation guarantees *)

From stdpp Require Import pretty.
From S2P Require Import Prelude Order GoStrings Paths Utf8 Digest Digits GoJson Unmarshal UnmarshalSpec Base64 ContextPack ContextPackOrder.
From S2P Require Import ContextPackUsage.
Local Open Scope go_scope.
Local Open Scope string_scope.
Local Open Scope Z_scope.
Local Open Scope list_scope.

Definition texts (l : list string) : Prop := Forall (fun s => ValidString s = true) l.
Definition ints (l : list Z) : Prop := Forall (fun n => int64 n = true) l.

Definition fd_ok (d : FileDescriptor) : Prop := texts [FD_Path d; FD_Digest d; FD_Kind d] /\ ints [FD_SizeBytes d; FD_TokenEstimate d].
Definition pd_ok (d : PolicyDescriptor) : Prop := texts [PD_ID d; PD_Severity d; PD_Context d; PD_SourcePath d; PD_OutputPath d; PD_ScriptDigest d].
Definition sd_ok (d : SkillDescriptor) : Prop :=
  texts [SD_Name d; SD_DeclaredDigest d; SD_ContentDigest d; SD_Source d; SD_ArtifactPath d; SD_OutputPath d].
Definition std_ok (d : StrategyDescriptor) : Prop :=
  texts [StD_Kind d; StD_Name d; StD_OutputPath d] /\ ints [StD_IncludedEntries d; StD_OmittedEntries d].
Definition omission_ok (o : Omission) : Prop := texts [Omission_Kind o; Omission_Key o; Omission_Strategy o; Omission_Reason o].
Definition budgets_ok (b : Budgets) : Prop := ints [MaxInputBytes b; MaxOutputBytes b; MaxFileBytes b; MaxFiles b; MaxTokens b; MaxEntries b].
Definition usage_ok (u : BudgetUsage) : Prop := ints [Usage_InputBytes u; Usage_OutputBytes u; Usage_FileCount u; Usage_TokenEstimate u].

Record manifest_ok (m : Manifest) : Prop := {
  ok_texts : texts [Manifest_SchemaVersion m; Manifest_BaseSHA m; Manifest_ResolvedSpecDigest m; PolicyContractDigest m];
  ok_files : Forall fd_ok (Manifest_Files m);
  ok_policies : Forall pd_ok (Manifest_Policies m);
  ok_skills : Forall sd_ok (Manifest_Skills m);
  ok_strategies : Forall std_ok (Manifest_Strategies m);
  ok_omissions : Forall omission_ok (Manifest_Omissions m);
  ok_budgets : budgets_ok (Manifest_Budgets m);
  ok_usage : usage_ok (Manifest_Usage m)
}.

(** Reads the fields of one struct after another. *)
Ltac read_struct :=
  repeat match goal with
  | H : texts _ |- _ => unfold texts in H
  | H : ints _ |- _ => unfold ints in H
  | H : Forall _ (_ :: _) |- _ => apply Forall_cons in H as [? H]
  | H : Forall _ [] |- _ => clear H
  end;
  repeat (match goal with
          | |- context [field ?names ?o ?n] =>
            let v := fresh "v" in
            evar (v : option tree);
            replace (field names o n) with v by (symmetry; find_field; subst v; reflexivity); subst v
          end;
          rewrite ?string_read, ?string_read_omitted, ?int_read by done; cbn [mbind option_bind]).

Lemma item_read {A : Type} (dec : list (string * tree) -> option A) fields : struct_item dec (tree_of (JObject fields)) = dec (members_of fields).
Proof. done. Qed.

Lemma struct_read {A : Type} (dec : list (string * tree) -> option A) fields : struct_field dec (Some (tree_of (JObject fields))) = dec (members_of fields).
Proof. done. Qed.

Lemma fd_read d : fd_ok d -> struct_item read_fd (tree_of (fd_json d)) = Some d.
Proof. intros [H1 H2]. unfold fd_json. rewrite item_read. unfold read_fd. cbv zeta. read_struct. by destruct d. Qed.
Lemma pd_read d : pd_ok d -> struct_item read_pd (tree_of (pd_json d)) = Some d.
Proof. intros H1. unfold pd_ok in H1. unfold pd_json. rewrite item_read. unfold read_pd. cbv zeta. read_struct. by destruct d. Qed.
Lemma sd_read d : sd_ok d -> struct_item read_sd (tree_of (sd_json d)) = Some d.
Proof. intros H1. unfold sd_ok in H1. unfold sd_json. rewrite item_read. unfold read_sd. cbv zeta. read_struct. by destruct d. Qed.
Lemma std_read d : std_ok d -> struct_item read_std (tree_of (std_json d)) = Some d.
Proof. intros [H1 H2]. unfold std_json. rewrite item_read. unfold read_std. cbv zeta. read_struct. by destruct d. Qed.
Lemma omission_read d : omission_ok d -> struct_item read_omission (tree_of (omission_json d)) = Some d.
Proof. intros H1. unfold omission_ok in H1. unfold omission_json. rewrite item_read. unfold read_omission. cbv zeta. read_struct. by destruct d. Qed.
Lemma budgets_read d : budgets_ok d -> struct_field read_budgets (Some (tree_of (budgets_json d))) = Some d.
Proof. intros H1. unfold budgets_ok in H1. unfold budgets_json. rewrite struct_read. unfold read_budgets. cbv zeta. read_struct. by destruct d. Qed.
Lemma usage_read d : usage_ok d -> struct_field read_usage (Some (tree_of (usage_json d))) = Some d.
Proof. intros H1. unfold usage_ok in H1. unfold usage_json. rewrite struct_read. unfold read_usage. cbv zeta. read_struct. by destruct d. Qed.

Lemma field_list_omit {A : Type} names k (f : A -> json) l n : plain_name names k = true ->
  field names (members_of (json_list_omit k f l)) n = if k =?= n then (match l with [] => None | _ => Some (tree_of (json_list f l)) end) else None.
Proof. intros H. unfold json_list_omit. destruct l; [cbn; by case_bool_decide|]. by apply field_one. Qed.

Lemma list_read_whole {A : Type} (f : A -> json) (dec : tree -> option A) l : Forall (fun x => dec (tree_of (f x)) = Some x) l ->
  list_field dec (Some (tree_of (json_list f l))) = Some l.
Proof. apply list_read. Qed.
Lemma list_read_omitted {A : Type} (f : A -> json) (dec : tree -> option A) l : Forall (fun x => dec (tree_of (f x)) = Some x) l ->
  list_field dec (match l with [] => None | _ => Some (tree_of (json_list f l)) end) = Some l.
Proof. destruct l; [done|]. apply list_read. Qed.

Lemma Forall_read {A : Type} (P : A -> Prop) (f : A -> json) dec (l : list A) : (forall x, P x -> dec (tree_of (f x)) = Some x) -> Forall P l ->
  Forall (fun x => dec (tree_of (f x)) = Some x) l.
Proof. intros H Hl. eapply Forall_impl; [exact Hl|done]. Qed.

Ltac find_member :=
  repeat (rewrite ?members_app, ?field_app;
          (rewrite field_cons by reflexivity) || (rewrite field_omit_empty by reflexivity) || (rewrite field_list_omit by reflexivity));
  rewrite ?field_nil; const_names; rewrite ?(left_id_L None (∪)), ?(right_id_L None (∪)).

Lemma manifest_fields m n : n ∈ manifest_names ->
  field manifest_names (members_of (manifest_head m ++ [("usage", usage_json (Manifest_Usage m))])) n =
  (if n =?= "schemaVersion" then Some (tree_of (JString (Manifest_SchemaVersion m)))
   else if n =?= "baseSHA" then Some (tree_of (JString (Manifest_BaseSHA m)))
   else if n =?= "resolvedSpecDigest" then Some (tree_of (JString (Manifest_ResolvedSpecDigest m)))
   else if n =?= "policyContractDigest" then (if PolicyContractDigest m =?= "" then None else Some (VString (sanitized (PolicyContractDigest m))))
   else if n =?= "files" then Some (tree_of (json_list fd_json (Manifest_Files m)))
   else if n =?= "policies" then match Manifest_Policies m with [] => None | _ => Some (tree_of (json_list pd_json (Manifest_Policies m))) end
   else if n =?= "skills" then match Manifest_Skills m with [] => None | _ => Some (tree_of (json_list sd_json (Manifest_Skills m))) end
   else if n =?= "strategies" then match Manifest_Strategies m with [] => None | _ => Some (tree_of (json_list std_json (Manifest_Strategies m))) end
   else if n =?= "omissions" then match Manifest_Omissions m with [] => None | _ => Some (tree_of (json_list omission_json (Manifest_Omissions m))) end
   else if n =?= "budgets" then Some (tree_of (budgets_json (Manifest_Budgets m)))
   else Some (tree_of (usage_json (Manifest_Usage m)))).
Proof.
  intros Hn. apply list_elem_of_In in Hn. unfold manifest_names in Hn. cbn [In] in Hn. unfold manifest_head.
  repeat destruct Hn as [<-|Hn]; [find_member; reflexivity..|done].
Qed.

Lemma manifest_reads m : manifest_ok m -> struct_item read_manifest (tree_of (manifest_json m)) = Some m.
Proof.
  intros [Ht Hf Hp Hs Hst Ho Hb Hu]. unfold manifest_json. rewrite item_read. unfold read_manifest. cbv zeta.
  rewrite !manifest_fields by (vm_compute; tauto || (apply list_elem_of_In; vm_compute; tauto)). const_names.
  unfold texts in Ht. rewrite !Forall_cons in Ht. destruct Ht as (T1 & T2 & T3 & T4 & _).
  rewrite !string_read, string_read_omitted by done. cbn [mbind option_bind].
  rewrite list_read_whole by (by apply (Forall_read fd_ok); [apply fd_read|]). cbn [mbind option_bind].
  rewrite (list_read_omitted pd_json) by (by apply (Forall_read pd_ok); [apply pd_read|]). cbn [mbind option_bind].
  rewrite (list_read_omitted sd_json) by (by apply (Forall_read sd_ok); [apply sd_read|]). cbn [mbind option_bind].
  rewrite (list_read_omitted std_json) by (by apply (Forall_read std_ok); [apply std_read|]). cbn [mbind option_bind].
  rewrite (list_read_omitted omission_json) by (by apply (Forall_read omission_ok); [apply omission_read|]). cbn [mbind option_bind].
  rewrite budgets_read by done. cbn [mbind option_bind]. rewrite usage_read by done. cbn [mbind option_bind]. by destruct m.
Qed.

(** ** Nesting *)

Lemma nesting_list {A : Type} (f : A -> json) n l : 0 <= n -> (forall x, nesting (f x) <= n) -> nesting (JArray (map f l)) <= n + 1.
Proof.
  intros Hn H. cbn [nesting]. assert (foldr (fun x k => Z.max (nesting x) k) 0 (map f l) <= n); [|lia]. induction l as [|x l IH]; cbn; [lia|]. specialize (H x). lia.
Qed.
Lemma nesting_object fields n : 0 <= n -> Forall (fun f => nesting f.2 <= n) fields -> nesting (JObject fields) <= n + 1.
Proof. intros Hn H. cbn [nesting]. assert (foldr (fun f k => Z.max (nesting f.2) k) 0 fields <= n); [|lia]. induction H as [|f l Hf _ IH]; cbn; lia. Qed.

Lemma nesting_omit k s : Forall (fun f => nesting f.2 <= 0) (omit_empty k s).
Proof. unfold omit_empty. case_bool_decide; by repeat constructor. Qed.
Lemma nesting_list_omit {A : Type} k (f : A -> json) n l : 0 <= n -> (forall x, nesting (f x) <= n) ->
  Forall (fun g => nesting g.2 <= n + 1) (json_list_omit k f l).
Proof. intros Hn H. unfold json_list_omit. destruct l; [constructor|]. constructor; [|constructor]. cbn [snd]. unfold json_list. by apply nesting_list. Qed.

Lemma nesting_parts : (forall d, nesting (fd_json d) <= 1) /\ (forall d, nesting (pd_json d) <= 1) /\ (forall d, nesting (sd_json d) <= 1) /\
  (forall d, nesting (std_json d) <= 1) /\ (forall d, nesting (omission_json d) <= 1) /\ (forall d, nesting (budgets_json d) <= 1) /\
  (forall d, nesting (usage_json d) <= 1).
Proof.
  split_and!; intros d; unfold fd_json, pd_json, sd_json, std_json, omission_json, budgets_json, usage_json; apply (nesting_object _ 0); try done;
    rewrite ?Forall_app; split_and?; try apply nesting_omit; repeat (apply Forall_cons; split; [done|]); apply Forall_nil; done.
Qed.

Lemma nesting_manifest m : nesting (manifest_json m) <= 4.
Proof.
  destruct nesting_parts as (H1 & H2 & H3 & H4 & H5 & H6 & H7). apply (nesting_object _ 3); [done|]. unfold manifest_head.
  assert (Hle : forall n (l : list (string * json)), n <= 3 -> Forall (fun f => nesting f.2 <= n) l -> Forall (fun f => nesting f.2 <= 3) l).
  { intros n l Hn Hl. eapply Forall_impl; [exact Hl|]. cbn. lia. }
  rewrite !Forall_app. split_and!.
  - by repeat (apply Forall_cons; split; [done|]).
  - apply (Hle 0); [done|apply nesting_omit].
  - apply Forall_singleton. cbn [snd]. etransitivity; [apply (nesting_list fd_json 1); [done|apply H1]|done].
  - by apply (Hle 2), (nesting_list_omit _ _ 1).
  - by apply (Hle 2), (nesting_list_omit _ _ 1).
  - by apply (Hle 2), (nesting_list_omit _ _ 1).
  - by apply (Hle 2), (nesting_list_omit _ _ 1).
  - apply Forall_singleton. cbn [snd]. specialize (H6 (Manifest_Budgets m)). lia.
  - apply Forall_singleton. cbn [snd]. specialize (H7 (Manifest_Usage m)). lia.
Qed.

(** What is written as a manifest is decoded as that manifest. *)
Lemma decodeManifest_written m : manifest_ok m -> decodeManifest (Marshal (manifest_json m)) = Ok m.
Proof.
  intros H. unfold decodeManifest. rewrite parse_marshal by (pose proof (nesting_manifest m); unfold maxNestingDepth; lia).
  pose proof (manifest_reads m H) as Hr. unfold struct_item in Hr. by rewrite Hr.
Qed.

(** ** Texts *)

Lemma nonneg_bytes s : Forall (fun b => 0 <= b) (bytes s).
Proof. eapply Forall_impl; [apply bytes_range|]. unfold is_byte. cbn. lia. Qed.

Lemma valid_app s t : ValidString s = true -> ValidString t = true -> ValidString (s +:+ t) = true.
Proof. unfold ValidString. rewrite bytes_app. intros Hs Ht. apply valid_utf8_app; [done|done|apply nonneg_bytes]. Qed.

Lemma valid_pretty (n : Z) : ValidString (pretty n) = true.
Proof. apply ValidString_ascii. eapply Forall_impl; [apply spelling_ascii|]. cbn. lia. Qed.

Lemma valid_hex s : forallb is_lower_hex (runes s) = true -> ValidString s = true.
Proof.
  unfold runes. rewrite decode_forall_ascii by (intros r Hr%lower_hex_bounds; lia). intros H. apply ValidString_ascii. rewrite forallb_true in H.
  eapply Forall_impl; [exact H|]. cbn. intros b Hb%lower_hex_bounds. lia.
Qed.

Lemma validateText_valid s required n u : validateText s required n = Ok u -> ValidString s = true.
Proof. unfold validateText. destruct (_ && _) in |- *; [done|]. by destruct (ValidString s). Qed.

Lemma valid_sha s : validCommitSHA s = true -> ValidString s = true.
Proof. unfold validCommitSHA. rewrite andb_true_iff. intros [_ H]. by apply valid_hex. Qed.

Lemma HasPrefix_split s p : HasPrefix s p = true -> s = p +:+ of_bytes (drop (String.length p) (bytes s)).
Proof. intros H. pose proof (TrimPrefix_app _ _ H) as E. unfold TrimPrefix in E. by rewrite H in E. Qed.

Lemma valid_digest s : validDigest s = true -> ValidString s = true.
Proof.
  unfold validDigest. rewrite !andb_true_iff. intros [[_ Hp] Hh]. rewrite (HasPrefix_split _ _ Hp). apply valid_app; [done|]. by apply valid_hex.
Qed.

Lemma valid_digestBytes body : ValidString (digestBytes body) = true.
Proof.
  destruct (proj1 (ValidDigest_spec _) (ValidDigest_digestBytes body)) as (h & E & _ & Hh). apply ValidString_ascii. rewrite E. apply Forall_app. split.
  - apply Forall_forall. intros b Hb. assert (Hall : forallb (fun b => b <? 0x80) (bytes DigestPrefix) = true) by done.
    rewrite forallb_true, Forall_forall in Hall. specialize (Hall b Hb). lia.
  - eapply Forall_impl; [exact Hh|]. cbn. intros b Hb%lower_hex_bounds. lia.
Qed.

Lemma valid_optionalDigest body : ValidString (optionalDigest body) = true.
Proof. destruct body; [done|apply valid_digestBytes]. Qed.

(** ** Names *)

Definition name_byte (b : Z) : bool := name_rune b || (b =? dash).
Definition name_ok (s : string) : Prop := s <> "" /\ Forall (fun b => name_byte b = true) (bytes s).

Lemma name_byte_range b : name_byte b = true -> 0x2D <= b < 0x80 /\ b <> 0x2E /\ b <> slash.
Proof.
  unfold name_byte, name_rune, is_digit, dash, slash. rewrite !orb_true_iff, !between_spec, Z.eqb_eq. lia.
Qed.

Lemma dashed_bytes rs : forall d, Forall (fun b => name_byte b = true) (dashed d rs).
Proof.
  induction rs as [|r rs IH]; intros d; cbn [dashed]; [constructor|]. destruct (name_rune r) eqn:E.
  - constructor; [|apply IH]. unfold name_byte. by rewrite E.
  - destruct d; [apply IH|]. constructor; [done|apply IH].
Qed.

Lemma trimmed_forall (P : Z -> Prop) cut l : Forall P l -> Forall P (trim_right cut (trim_left cut l)).
Proof.
  intros H. destruct (trim_left_app cut l) as (pre & E & _). destruct (trim_right_app cut (trim_left cut l)) as (suf & E' & _).
  rewrite E in H. apply Forall_app in H as [_ H]. rewrite E' in H. by apply Forall_app in H as [H _].
Qed.

Lemma name_is_byte l : Forall (fun b => name_byte b = true) l -> Forall is_byte l.
Proof. intros H. eapply Forall_impl; [exact H|]. cbn. intros b Hb%name_byte_range. unfold is_byte. lia. Qed.

Lemma safeName_ok value name : Pack_safeName value = Ok name -> name_ok name.
Proof.
  unfold Pack_safeName. intros H. apply result_bind_ok in H as (_ & _ & H). destruct (_ || _) in H; [done|]. cbv zeta in H.
  destruct (_ || _) eqn:E in H; [done|]. injection H as <-. apply orb_false_iff in E as [E _]. apply bool_decide_eq_false in E.
  split; [done|]. unfold Trim.
  pose proof (dashed_bytes (map lower_rune (runes (TrimSpace value))) false) as Hd. rewrite (bytes_of_bytes (dashed _ _)) by (by apply name_is_byte).
  assert (Ht := trimmed_forall _ (Z.eqb dash) _ Hd). rewrite bytes_of_bytes by (by apply name_is_byte). exact Ht.
Qed.

Lemma name_valid s : name_ok s -> ValidString s = true.
Proof. intros [_ H]. apply ValidString_ascii. eapply Forall_impl; [exact H|]. cbn. intros b Hb%name_byte_range. lia. Qed.

Lemma name_plain s : name_ok s -> plain_segment (bytes s) /\ slash ∉ bytes s.
Proof.
  intros [Hne H]. rewrite Forall_forall in H. unfold plain_segment. split_and!.
  - intros E. by apply bytes_nil_iff in E.
  - intros E. specialize (H 0x2E). rewrite E in H. assert (Hb : name_byte 0x2E = true) by (apply H; left). done.
  - intros E. specialize (H 0x2E). rewrite E in H. assert (Hb : name_byte 0x2E = true) by (apply H; left). done.
  - intros Hs. apply H in Hs. done.
Qed.

(** ** Paths *)

Definition path_ok (s : string) : Prop := ValidString s = true /\ Forall plain_segment (split_bytes slash (bytes s)).

Lemma safeRelativePath_ok value glob clean : safeRelativePath value glob = Ok clean -> clean = value /\ path_ok value.
Proof.
  intros H. split; [by eapply path_returns|]. unfold safeRelativePath in H. destruct (_ || _) eqn:E in H; [done|]. rewrite !orb_false_iff in E.
  destruct E as [[_ E] _]. apply negb_false_iff in E. do 2 (destruct (_ || _) in H; [done|]). destruct (negb _) in H; [done|].
  destruct (forallb _ _) eqn:Hf in H; [|done]. split; [done|]. rewrite forallb_true in Hf. rewrite <- bytes_Split. apply Forall_map.
  eapply Forall_impl; [exact Hf|]. cbn. intros part. unfold safe_part. rewrite andb_true_iff, negb_true_iff, !orb_false_iff, !bool_decide_eq_false.
  intros [[[H1 H2] H3] _]. split_and!; [by rewrite bytes_nil_iff|..]; intros Hb.
  - apply H2. by apply bytes_inj.
  - apply H3. by apply bytes_inj.
Qed.

Lemma path_nonempty s : path_ok s -> s <> "".
Proof. intros [_ H] ->. by inversion H as [|? ? [Hn _]]. Qed.

(** The parts of a well-formed text between slashes are well formed. *)
Lemma valid_parts l : valid_utf8 l = true -> Forall (fun part => valid_utf8 part = true) (split_bytes slash l).
Proof.
  intros H. rewrite <- (join_split slash l) in H. pose proof (split_bytes_free slash l) as Hfree. revert H. generalize (split_bytes slash l). intros parts.
  induction parts as [|p [|q parts] IH]; cbn [join]; [constructor|intros H; by apply Forall_singleton|]. intros H.
  unfold valid_utf8 in H. rewrite decode_app_ascii in H by (unfold slash; lia). rewrite forallb_app, andb_true_iff in H. destruct H as [Hp Hq].
  constructor; [done|]. apply IH. change (decode (slash :: join slash (q :: parts))) with ((slash, true) :: decode (join slash (q :: parts))) in Hq. exact Hq.
Qed.

Lemma trim_right_id l : last l <> Some slash -> trim_right (Z.eqb slash) l = l.
Proof.
  intros H. unfold trim_right. destruct (rev l) as [|b r] eqn:E; [apply (f_equal (@rev Z)) in E; rewrite rev_involutive in E; by rewrite E|].
  assert (Hb : last l = Some b). { apply (f_equal (@rev Z)) in E. rewrite rev_involutive in E. rewrite E. cbn. by rewrite last_snoc. }
  cbn [trim_left]. rewrite Hb in H. rewrite (proj2 (Z.eqb_neq slash b)) by congruence. by rewrite <- E, rev_involutive.
Qed.

Lemma path_Base_ok s : path_ok s -> exists base, bytes (path_Base s) = base /\ base ∈ split_bytes slash (bytes s) /\ plain_segment base /\
  valid_utf8 base = true /\ slash ∉ base.
Proof.
  intros Hs. pose proof (path_nonempty _ Hs) as Hne. destruct Hs as [Hv Hp]. unfold path_Base. rewrite bool_decide_eq_false_2 by done. cbv zeta.
  assert (Hlast : last (bytes s) <> Some slash).
  { apply split_last. assert (Hall : Forall (fun part => part <> []) (split_bytes slash (bytes s))) by (eapply Forall_impl; [exact Hp|]; by intros ? []). by destruct Hall. }
  rewrite trim_right_id by done.
  destruct (last (split_bytes slash (bytes s))) as [base|] eqn:E; [|apply last_None in E; by apply split_bytes_nonempty in E].
  cbn [default]. apply last_Some_elem_of in E. pose proof Hp as Hp'. rewrite Forall_forall in Hp'. pose proof (Hp' _ E) as Hb.
  rewrite bool_decide_eq_false_2 by apply Hb. exists base. pose proof (valid_parts _ Hv) as Hvp. rewrite Forall_forall in Hvp.
  pose proof (split_bytes_free slash (bytes s)) as Hfree. rewrite Forall_forall in Hfree.
  split_and!; [|done|exact Hb|by apply Hvp|by apply Hfree]. apply bytes_of_bytes.
  pose proof (split_bytes_range slash _ (bytes_range s)) as Hr. rewrite Forall_forall in Hr. by apply Hr.
Qed.

(** ** Normalised collections *)

Lemma items_forall {A B K O : Type} `{EqDecision K} (key : A -> result pack_error K) (rest : K -> A -> result pack_error B) (order : B -> O)
    (cmp : O -> O -> comparison) `{!Ordering cmp} (h : O -> K) (P : B -> Prop) input out :
  (forall a k b, key a = Ok k -> rest k a = Ok b -> h (order b) = k /\ P b) ->
  (let? output := distinct_items key rest [] [] input in Ok (sort_on order cmp output)) = Ok out ->
  Forall P out /\ NoDup (map order out) /\ slen out = slen input.
Proof.
  intros Hh H. apply result_bind_ok in H as (output & Hd & [= <-]). apply distinct_items_ok in Hd as (kbs & H1 & H2 & _ & ->). cbn [app].
  assert (Hp : sort_on order cmp (map snd kbs) ≡ₚ map snd kbs) by apply sort_on_perm. revert Hp. generalize (sort_on order cmp (map snd kbs)). intros out Hp.
  assert (Hk : map h (map order (map snd kbs)) = map fst kbs /\ Forall P (map snd kbs) /\ length kbs = length input).
  { clear Hp H2. induction H1 as [|a [k b] l kbs [Ha Hb] _ (IH1 & IH2 & IH3)]; [done|]. cbn [map fst snd] in *. destruct (Hh a k b Ha Hb) as [-> Hpb].
    split_and!; [by rewrite IH1|by constructor|cbn; by rewrite IH3]. }
  destruct Hk as (Hk & HP & Hl). split_and!.
  - by rewrite Hp.
  - apply (NoDup_fmap_1 h). change (h <$> map order out) with (map h (map order out)). rewrite Hp, Hk. done.
  - unfold slen. rewrite Hp, length_map, Hl. done.
Qed.

Definition policy_ok (p : resolvedPolicy) : Prop :=
  name_ok (rp_id p) /\ (rp_scriptPath p = "" \/ path_ok (rp_scriptPath p)) /\ texts [rp_severity p; rp_context p; rp_scriptPath p; rp_scriptDigest p].
Definition skill_ok (s : resolvedSkill) : Prop := name_ok (rs_name s) /\ texts [rs_declaredDigest s; rs_artifactPath s; rs_source s].
Definition lexical_ok (e : LexicalEntry) : Prop := ValidString (Lexical_Path e) = true.
Definition repoMap_ok (e : RepoMapEntry) : Prop := ValidString (RepoMap_Path e) = true.
Definition symbol_ok (e : SymbolEntry) : Prop := texts [Symbol_Path e; Symbol_Kind e; Symbol_Name e].
Definition history_ok (e : HistoryEntry) : Prop := texts [History_CommitSHA e; History_Subject e].

Lemma policy_script_valid rule body d : policy_script rule = Ok (body, d) -> ValidString d = true.
Proof.
  unfold policy_script. destruct (negb _) in |- *.
  - intros (_ & _ & H)%result_bind_ok. cbv zeta in H. destruct (_ && _) in H; [done|]. apply ok_pair in H as [_ <-]. apply valid_digestBytes.
  - destruct (negb _) in |- *; [done|]. by intros [_ <-]%ok_pair.
Qed.

Lemma normalize_policy_ok id rule p : name_ok id -> normalize_policy id rule = Ok p -> policy_ok p.
Proof.
  intros Hid H. unfold normalize_policy in H. apply result_bind_ok in H as (? & Hsev & H). apply result_bind_ok in H as (? & Hctx%validateText_valid & H).
  apply result_bind_ok in H as (path & Hpath & H). do 3 (destruct (_ && _) in H; [done|]). apply result_bind_ok in H as ([body d] & Hd%policy_script_valid & H).
  injection H as <-. unfold policy_ok. cbn.
  assert (Hp : path = "" \/ path_ok path). { destruct (negb _) in Hpath; [|injection Hpath as <-; by left]. apply safeRelativePath_ok in Hpath as [-> ?]. by right. }
  split_and!; [done|done|]. unfold guard in Hsev. destruct (_ || _) eqn:E in Hsev; [|done]. rewrite orb_true_iff, !bool_decide_eq_true in E.
  repeat constructor; try done; [by destruct E as [-> | ->]|]. destruct Hp as [->|[? _]]; done.
Qed.

Lemma normalize_skill_ok name s r : name_ok name -> normalize_skill name s = Ok r -> skill_ok r.
Proof.
  intros Hn H. unfold normalize_skill in H. destruct (validDigest (Skill_Digest s)) eqn:Hd; [|done]. apply valid_digest in Hd. cbn [negb] in H.
  do 2 (destruct (_ && _) in H; [done|]). destruct (negb _) in H; apply result_bind_ok in H as (path & Hp & H); injection H as <-.
  - split; [done|]. by repeat constructor.
  - apply safeRelativePath_ok in Hp as [-> [? _]]. split; [done|]. by repeat constructor.
Qed.

Lemma normalizePolicies_ok l out : normalizePolicies l = Ok out -> Forall policy_ok out /\ NoDup (map rp_id out) /\ slen out = slen l.
Proof.
  apply (items_forall _ _ rp_id String.compare id). intros a k b Hk Hb. split; [by apply policy_id in Hb|]. eapply normalize_policy_ok; [|exact Hb].
  by apply safeName_ok in Hk.
Qed.
Lemma normalizeSkills_ok l out : normalizeSkills l = Ok out -> Forall skill_ok out /\ NoDup (map rs_name out) /\ slen out = slen l.
Proof.
  apply (items_forall _ _ rs_name String.compare id). intros a k b Hk Hb. split; [by apply skill_name in Hb|]. eapply normalize_skill_ok; [|exact Hb].
  by apply safeName_ok in Hk.
Qed.
Lemma normalizeLexical_ok l out : normalizeLexical l = Ok out -> Forall lexical_ok out /\ NoDup (map Lexical_Path out) /\ slen out = slen l.
Proof.
  apply (items_forall _ _ Lexical_Path String.compare id). intros a k b [-> [Hk _]]%safeRelativePath_ok Hb%lexical_path. unfold lexical_ok. by rewrite Hb.
Qed.
Lemma normalizeRepoMap_ok l out : normalizeRepoMap l = Ok out -> Forall repoMap_ok out /\ NoDup (map RepoMap_Path out) /\ slen out = slen l.
Proof.
  apply (items_forall _ _ RepoMap_Path String.compare id). intros a k b [-> [Hk _]]%safeRelativePath_ok Hb%repoMap_path. unfold repoMap_ok. by rewrite Hb.
Qed.
Lemma normalizeSymbols_ok l out : normalizeSymbols l = Ok out -> Forall symbol_ok out /\ NoDup (map symbol_order out) /\ slen out = slen l.
Proof.
  apply (items_forall symbol_key _ symbol_order compare_symbol (fun o => nul_joined [o.1; pretty o.2.1; pretty o.2.2.1; o.2.2.2.1; o.2.2.2.2])).
  intros a k b Hk [= <-]. split; [by apply symbol_key_order|]. unfold symbol_key in Hk. apply result_bind_ok in Hk as (p & [-> [Hp _]]%safeRelativePath_ok & Hk).
  apply result_bind_ok in Hk as (? & Hn%validateText_valid & Hk). apply result_bind_ok in Hk as (? & Hkd%validateText_valid & Hk). by repeat constructor.
Qed.
Lemma normalizeHistory_ok l out : normalizeHistory l = Ok out -> Forall history_ok out /\ NoDup (map history_order out) /\ slen out = slen l.
Proof.
  apply (items_forall history_key _ history_order _ (fun o => nul_joined [o.1; o.2])). intros a k b Hk (paths & _ & [= <-])%result_bind_ok.
  split; [exact (history_key_order a k Hk)|]. unfold history_key, guard in Hk. destruct (validCommitSHA _) eqn:Hs; [|done]. cbn [result_bind] in Hk.
  apply result_bind_ok in Hk as (? & Hv%validateText_valid & _). apply valid_sha in Hs. by repeat constructor.
Qed.

Lemma optional_name_valid s : ValidString (normalizeOptionalName s) = true.
Proof.
  unfold normalizeOptionalName. case_bool_decide; [done|]. destruct (Pack_safeName s) eqn:E; [|done]. by apply name_valid, (safeName_ok s).
Qed.

(** What holds of a normalised input. *)
Record resolved_ok (r : resolvedInput) : Prop := {
  r_texts : texts [r_baseSHA r; r_resolvedSpecDigest r; Strategy_Lexical (r_strategies r); Strategy_RepoMap (r_strategies r);
                   Strategy_Symbols (r_strategies r); Strategy_History (r_strategies r)];
  r_policies_ok : Forall policy_ok (r_policies r) /\ NoDup (map rp_id (r_policies r));
  r_skills_ok : Forall skill_ok (r_skills r) /\ NoDup (map rs_name (r_skills r));
  r_entries_ok : Forall lexical_ok (r_lexical r) /\ Forall repoMap_ok (r_repoMap r) /\ Forall symbol_ok (r_symbols r) /\ Forall history_ok (r_history r);
  r_counts : slen (r_policies r) + slen (r_skills r) <= maxPolicySkillItems /\
    slen (r_lexical r) + slen (r_repoMap r) + slen (r_symbols r) + slen (r_history r) <= maxCollectionItems;
  r_input : 0 <= r_inputBytes r
}.

Lemma counts_ok i limit u : validateCollectionCounts i limit = Ok u ->
  slen (Input_Policies i) + slen (Input_Skills i) <= maxPolicySkillItems /\
  slen (Input_Lexical i) + slen (Input_RepoMap i) + slen (Input_Symbols i) + slen (Input_History i) <= maxCollectionItems.
Proof.
  unfold validateCollectionCounts. destruct (existsb _ _); [done|]. cbv zeta. destruct (_ || _) eqn:E in |- *; [done|]. rewrite orb_false_iff, !Z.ltb_ge in E.
  destruct (Z.ltb_spec maxPolicySkillItems (slen (Input_Policies i) + slen (Input_Skills i))); [done|]. lia.
Qed.

Lemma normalizeInput_resolved i r : Pack_normalizeInput i = Ok r -> resolved_ok r /\ r_budgets r = Input_Budgets i.
Proof.
  intros H. unfold Pack_normalizeInput in H. apply result_bind_ok in H as (? & Hb & H). apply result_bind_ok in H as (? & Hd & H).
  do 7 apply result_bind_ok in H as (? & _ & H). apply result_bind_ok in H as (? & [Hc1 Hc2]%counts_ok & H).
  apply result_bind_ok in H as (boundaries & _ & H).
  apply result_bind_ok in H as (policies & (Hp1 & Hp2 & Hp3)%normalizePolicies_ok & H). apply result_bind_ok in H as (skills & (Hs1 & Hs2 & Hs3)%normalizeSkills_ok & H).
  apply result_bind_ok in H as (lexical & (Hl1 & _ & Hl3)%normalizeLexical_ok & H). apply result_bind_ok in H as (repoMap & (Hr1 & _ & Hr3)%normalizeRepoMap_ok & H).
  apply result_bind_ok in H as (symbols & (Hy1 & _ & Hy3)%normalizeSymbols_ok & H). apply result_bind_ok in H as (history & (Hh1 & _ & Hh3)%normalizeHistory_ok & H).
  apply result_bind_ok in H as (strategies & Hst & H). cbv zeta in H. injection H as <-. split; [|done].
  unfold guard in Hb, Hd. destruct (Pack_validBaseSHA _) eqn:Eb; [|done]. destruct (validDigest _) eqn:Ed in Hd; [|done].
  unfold normalizeStrategies in Hst. do 4 apply result_bind_ok in Hst as (? & _ & Hst). injection Hst as <-.
  split; cbn.
  - repeat (apply Forall_cons; split); [by apply valid_sha|by apply valid_digest|apply optional_name_valid..|constructor].
  - done.
  - done.
  - done.
  - lia.
  - apply slen_nonneg.
Qed.
