(* ===== verification/ContextPackFiles.v ===== *)
(** * Context packs: the files and the entries that were left out *)

From stdpp Require Import pretty.
From S2P Require Import Prelude Order GoStrings Paths Utf8 Digest Digits Base64 GoJson Unmarshal UnmarshalSpec.
From S2P Require Import ContextPack ContextPackOrder ContextPackUsage ContextPackParts.
Local Open Scope go_scope.
Local Open Scope string_scope.
Local Open Scope Z_scope.
Local Open Scope list_scope.

(** ** Paths *)

Lemma join_segments l : Forall (fun p => slash ∉ p) l -> l <> [] -> split_bytes slash (join slash l) = l.
Proof.
  induction 1 as [|p [|q l] Hp Hl IH]; intros Hne; [done|by apply split_bytes_whole|].
  change (join slash (p :: q :: l)) with (p ++ slash :: join slash (q :: l)). rewrite split_bytes_app by done. by rewrite IH.
Qed.

Lemma join_bytes l : Forall (Forall is_byte) l -> Forall is_byte (join slash l).
Proof.
  induction 1 as [|p [|q l] Hp Hl IH]; [constructor|done|]. change (join slash (p :: q :: l)) with (p ++ slash :: join slash (q :: l)).
  apply Forall_app. split; [done|]. constructor; [unfold is_byte, slash; lia|done].
Qed.

(** Two plain segments below a directory of two. *)
Lemma path_Join_below d1 d2 (a b : string) : Forall plain_segment [d1; d2; bytes a; bytes b] -> Forall (fun p => slash ∉ p) [d1; d2; bytes a; bytes b] ->
  Forall is_byte (d1 ++ slash :: d2) ->
  bytes (path_Join [of_bytes (d1 ++ slash :: d2); a; b]) = join slash [d1; d2; bytes a; bytes b].
Proof.
  intros Hp Hs Hb. assert (Hbytes : Forall (Forall is_byte) [d1; d2; bytes a; bytes b]).
  { apply Forall_app in Hb as [H1 H2]. apply Forall_cons in H2 as [_ H2]. repeat constructor; [done..|apply bytes_range|apply bytes_range]. }
  unfold path_Join. assert (Hne : forall s : string, plain_segment (bytes s) -> s <> "") by (intros s [H _] ->; done).
  rewrite !filter_cons, filter_nil. rewrite decide_True.
  2:{ intros E. apply (f_equal bytes) in E. rewrite bytes_of_bytes in E by done. by destruct d1. }
  pose proof Hp as Hplain. do 3 (apply Forall_cons in Hp as [? Hp]). apply Forall_cons in Hp as [? _].
  rewrite !decide_True by (by apply Hne). cbn [map]. rewrite (bytes_of_bytes (d1 ++ slash :: d2)) by done.
  assert (E : join slash [d1 ++ slash :: d2; bytes a; bytes b] = join slash [d1; d2; bytes a; bytes b]) by (cbn; by rewrite <- app_assoc).
  rewrite E. rewrite path_Clean_plain by (by rewrite join_segments).
  apply bytes_of_bytes. by apply join_bytes.
Qed.

Definition policies_dir : list Z := bytes "policies".
Definition skills_dir : list Z := bytes "skills".
Definition agents_dir : list Z := bytes ".agents".

Lemma plain_const l : bool_decide (l = []) || bool_decide (l = dot_segment) || bool_decide (l = dotdot_segment) = false -> plain_segment l.
Proof. rewrite !orb_false_iff, !bool_decide_eq_false. unfold plain_segment. tauto. Qed.

Lemma policy_output_spec p : policy_ok p -> rp_scriptPath p <> "" ->
  exists base, bytes (policy_output p) = join slash [agents_dir; policies_dir; bytes (rp_id p); base] /\ slash ∉ bytes (rp_id p) /\ utf8 (bytes (policy_output p)).
Proof.
  intros (Hn & Hp & _) Hne. destruct Hp as [|Hp]; [done|]. destruct (path_Base_ok _ Hp) as (base & Hb & _ & Hpl & Hv & Hs).
  destruct (name_plain _ Hn) as [Hnp Hns]. exists base. subst base.
  assert (E : bytes (policy_output p) = join slash [agents_dir; policies_dir; bytes (rp_id p); bytes (path_Base (rp_scriptPath p))]).
  { apply (path_Join_below agents_dir policies_dir).
    - repeat (apply Forall_cons; split); try done; by apply plain_const.
    - repeat (apply Forall_cons; split); try done; vm_compute; intros Hin; repeat (apply elem_of_cons in Hin as [Hin|Hin]; [discriminate|]); by apply not_elem_of_nil in Hin.
    - apply (bytes_range ".agents/policies"). }
  split_and!; [done|done|]. rewrite E. cbn [join].
  apply utf8_app; [by apply utf8_plain|]. apply utf8_cons; [by compute|]. apply utf8_app; [by apply utf8_plain|]. apply utf8_cons; [by compute|].
  apply utf8_app; [split; [by apply name_valid|apply nonneg_bytes]|]. apply utf8_cons; [by compute|]. split; [done|apply nonneg_bytes].
Qed.

Lemma skill_output_spec s : skill_ok s ->
  bytes (skill_output s) = join slash [agents_dir; skills_dir; bytes (rs_name s); bytes "SKILL.md"] /\ slash ∉ bytes (rs_name s) /\ utf8 (bytes (skill_output s)).
Proof.
  intros [Hn _]. destruct (name_plain _ Hn) as [Hnp Hns].
  assert (E : bytes (skill_output s) = join slash [agents_dir; skills_dir; bytes (rs_name s); bytes "SKILL.md"]).
  { apply (path_Join_below agents_dir skills_dir).
    - repeat (apply Forall_cons; split); try done; by apply plain_const.
    - repeat (apply Forall_cons; split); try done; vm_compute; intros Hin; repeat (apply elem_of_cons in Hin as [Hin|Hin]; [discriminate|]); by apply not_elem_of_nil in Hin.
    - apply (bytes_range ".agents/skills"). }
  split_and!; [done|done|]. rewrite E. cbn [join].
  apply utf8_app; [by apply utf8_plain|]. apply utf8_cons; [by compute|]. apply utf8_app; [by apply utf8_plain|]. apply utf8_cons; [by compute|].
  apply utf8_app; [split; [by apply name_valid|apply nonneg_bytes]|]. apply utf8_cons; [by compute|]. by apply utf8_plain.
Qed.

(** ** The files of a pack *)

(** No file, or the one at its path. *)
Definition single (path kind : string) (files : list File) : Prop :=
  files = [] \/ exists file, files = [file] /\ made file /\ File_Path file = path /\ File_Kind file = kind.

Lemma single_made path kind files : single path kind files -> Forall made files.
Proof. intros [->|(file & -> & H & _)]; [constructor|by apply Forall_singleton]. Qed.
Lemma single_kind path kind files (kinds : list string) : single path kind files -> kind ∈ kinds -> Forall (fun f => File_Kind f ∈ kinds) files.
Proof. intros [->|(file & -> & _ & _ & <-)] H; [constructor|by apply Forall_singleton]. Qed.
Lemma single_path path kind files : single path kind files -> map File_Path files `sublist_of` [path].
Proof. intros [->|(file & -> & _ & <- & _)]; cbn; [apply sublist_nil_l|done]. Qed.

Definition strategy_descriptor (path kind name : string) (included total : Z) : list StrategyDescriptor :=
  if name =?= "" then [] else [MkStrategyDescriptor kind name (optionalPath path (0 <? included)) included (total - included)].

Lemma strategy_files_ok {A : Type} path schema kind name search (f : A -> json) selected total :
  exists files, strategy_files path schema kind name search f selected total = Ok (files, strategy_descriptor path kind name (slen selected) total) /\
    single path kind files.
Proof.
  unfold strategy_files, strategy_descriptor. case_bool_decide; [exists []; split; [done|by left]|]. destruct (0 <? slen selected).
  - rewrite marshalJSON_ok. cbn [result_bind]. eexists. split; [reflexivity|]. right. eexists. split_and!; [done|by eexists _, _, _|done|done].
  - exists []. split; [done|by left].
Qed.

Definition fixed_paths : list string := [agentsPath; PolicyContractPath; lexicalPath; repoMapPath; symbolsPath; historyPath].
Definition file_kinds : list string := ["instructions"; "policy-contract"; "policy-script"; "skill"; "lexical"; "repo-map"; "symbols"; "history"].

(** The paths of a rendered pack: some of the fixed ones, those of policy scripts
    and those of skills. *)
Record rendered (r : resolvedInput) (files : list File) : Prop := {
  rendered_made : Forall made files;
  rendered_kinds : Forall (fun f => File_Kind f ∈ file_kinds) files;
  rendered_paths : exists fixed, fixed `sublist_of` fixed_paths /\
    map File_Path files ≡ₚ fixed ++ map policy_output (filter (fun p => rp_scriptPath p <> "") (r_policies r)) ++ map skill_output (r_skills r)
}.

Lemma rendered_perm r files files' : files ≡ₚ files' -> rendered r files -> rendered r files'.
Proof. intros Hp [H1 H2 (fixed & H3 & H4)]. split; [by rewrite <- Hp|by rewrite <- Hp|]. exists fixed. by rewrite <- Hp. Qed.

Lemma policy_files_paths l : map File_Path (flat_map policy_files l) = map policy_output (filter (fun p => rp_scriptPath p <> "") l).
Proof.
  induction l as [|p l IH]; [done|]. cbn [flat_map]. rewrite map_app, filter_cons, IH. unfold policy_files.
  destruct (bool_decide_reflect (rp_scriptPath p = "")) as [E|E]; cbn [negb]; [by rewrite decide_False by (intros Hc; by apply Hc)|by rewrite decide_True].
Qed.

Lemma policy_files_made l : Forall (fun f => made f /\ File_Kind f = "policy-script") (flat_map policy_files l).
Proof.
  induction l as [|p l IH]; [constructor|]. cbn [flat_map]. apply Forall_app. split; [|done]. unfold policy_files. destruct (negb _); [|constructor].
  apply Forall_singleton. split; [by eexists _, _, _|done].
Qed.

Section Rendered.
Context (r : resolvedInput) (agents contract lexical repoMap symbols history : list File).
Context (Ha : single agentsPath "instructions" agents) (Hc : single PolicyContractPath "policy-contract" contract).
Context (Hl : single lexicalPath "lexical" lexical) (Hr : single repoMapPath "repo-map" repoMap).
Context (Hs : single symbolsPath "symbols" symbols) (Hh : single historyPath "history" history).

Definition unsorted_files : list File :=
  agents ++ contract ++ flat_map policy_files (r_policies r) ++ map skill_file (r_skills r) ++ lexical ++ repoMap ++ symbols ++ history.

Lemma unsorted_made : Forall made unsorted_files.
Proof.
  unfold unsorted_files. rewrite !Forall_app. split_and!; try by eapply single_made.
  - eapply Forall_impl; [apply policy_files_made|]. by intros f [? _].
  - apply Forall_map, Forall_true. intros s. by eexists _, _, _.
Qed.

Lemma unsorted_kinds : Forall (fun f => File_Kind f ∈ file_kinds) unsorted_files.
Proof.
  unfold unsorted_files, file_kinds. rewrite !Forall_app. split_and!; try (eapply single_kind; [done|]; set_solver).
  - eapply Forall_impl; [apply policy_files_made|]. cbn. intros f [_ ->]. set_solver.
  - apply Forall_map, Forall_true. intros s. cbn. set_solver.
Qed.

Lemma unsorted_rendered : rendered r unsorted_files.
Proof.
  split; [apply unsorted_made|apply unsorted_kinds|].
  exists (map File_Path agents ++ map File_Path contract ++ map File_Path lexical ++ map File_Path repoMap ++ map File_Path symbols ++ map File_Path history).
  split.
  - unfold fixed_paths. change [agentsPath; PolicyContractPath; lexicalPath; repoMapPath; symbolsPath; historyPath] with
      ([agentsPath] ++ [PolicyContractPath] ++ [lexicalPath] ++ [repoMapPath] ++ [symbolsPath] ++ [historyPath]).
    repeat apply sublist_app; by eapply single_path.
  - unfold unsorted_files. rewrite !map_app, policy_files_paths, (map_map skill_file File_Path).
    change (map (fun x => File_Path (skill_file x)) (r_skills r)) with (map skill_output (r_skills r)). solve_Permutation.
Qed.
End Rendered.

Definition strategy_descriptors (r : resolvedInput) (selected : selection) : list StrategyDescriptor :=
  strategy_descriptor lexicalPath "lexical" (Strategy_Lexical (r_strategies r)) (slen (s_lexical selected)) (slen (r_lexical r)) ++
  strategy_descriptor repoMapPath "repo-map" (Strategy_RepoMap (r_strategies r)) (slen (s_repoMap selected)) (slen (r_repoMap r)) ++
  strategy_descriptor symbolsPath "symbols" (Strategy_Symbols (r_strategies r)) (slen (s_symbols selected)) (slen (r_symbols r)) ++
  strategy_descriptor historyPath "history" (Strategy_History (r_strategies r)) (slen (s_history selected)) (slen (r_history r)).

Lemma renderFiles_ok r selected agents : renderAgents r selected = Ok agents ->
  exists files, renderFiles r selected =
    Ok (files, map policy_descriptor (r_policies r), map skill_descriptor (r_skills r), strategy_descriptors r selected) /\ rendered r files.
Proof.
  intros Ha. unfold renderFiles. rewrite Ha. cbn [result_bind].
  destruct (strategy_files_ok lexicalPath "agents.astatide.com/context/lexical-index/v1" "lexical" (Strategy_Lexical (r_strategies r))
    [("search", lexicalSearch)] lexical_json (s_lexical selected) (slen (r_lexical r))) as (f1 & -> & P1). cbn [result_bind].
  destruct (strategy_files_ok repoMapPath "agents.astatide.com/context/repo-map/v1" "repo-map" (Strategy_RepoMap (r_strategies r))
    [] repoMap_json (s_repoMap selected) (slen (r_repoMap r))) as (f2 & -> & P2). cbn [result_bind].
  destruct (strategy_files_ok symbolsPath "agents.astatide.com/context/symbols/v1" "symbols" (Strategy_Symbols (r_strategies r))
    [] symbol_json (s_symbols selected) (slen (r_symbols r))) as (f3 & -> & P3). cbn [result_bind].
  destruct (strategy_files_ok historyPath "agents.astatide.com/context/history/v1" "history" (Strategy_History (r_strategies r))
    [] history_json (s_history selected) (slen (r_history r))) as (f4 & -> & P4). cbn [result_bind].
  eexists. split; [reflexivity|]. eapply rendered_perm; [symmetry; apply sort_on_perm|].
  apply (unsorted_rendered r [makeFile agentsPath agents "instructions"]); try done.
  - right. eexists. split_and!; [done|by eexists _, _, _|done|done].
  - destruct (r_policyContractManifest r); [by left|]. right. eexists. split_and!; [done|by eexists _, _, _|done|done].
Qed.

(** ** Distinct paths *)

(** The bytes that tell the directories apart. *)
Definition below_agents (s : string) : bool := bool_decide (bytes s !! 3%nat = Some 0x65).

Lemma policy_output_tag p : policy_ok p -> rp_scriptPath p <> "" -> below_agents (policy_output p) = true /\ bytes (policy_output p) !! 8%nat = Some 0x70.
Proof. intros Hp Hne. destruct (policy_output_spec p Hp Hne) as (base & E & _). unfold below_agents. by rewrite E. Qed.
Lemma skill_output_tag s : skill_ok s -> below_agents (skill_output s) = true /\ bytes (skill_output s) !! 8%nat = Some 0x73.
Proof. intros Hs. destruct (skill_output_spec s Hs) as (E & _). unfold below_agents. by rewrite E. Qed.

Lemma segment_below d1 d2 a b a' b' : slash ∉ a -> slash ∉ a' -> join slash [d1; d2; a; b] = join slash [d1; d2; a'; b'] -> a = a'.
Proof.
  intros Ha Ha' E. cbn [join] in E. apply app_inv_head in E. injection E as E. apply app_inv_head in E. injection E as E.
  apply (f_equal (split_bytes slash)) in E. rewrite !split_bytes_app in E by done. by injection E.
Qed.

Lemma key_inj {A B : Type} (key : A -> B) l x y : NoDup (map key l) -> x ∈ l -> y ∈ l -> key x = key y -> x = y.
Proof.
  intros Hnd [i Hi]%list_elem_of_lookup [j Hj]%list_elem_of_lookup He. assert (i = j) as ->; [|congruence].
  eapply (NoDup_lookup (map key l)); [done| |]; rewrite list_lookup_fmap_Some; eauto.
Qed.

Lemma policy_outputs_distinct l : Forall policy_ok l -> NoDup (map rp_id l) -> NoDup (map policy_output (filter (fun p => rp_scriptPath p <> "") l)).
Proof.
  intros Hok Hnd. apply NoDup_fmap_2_strong; [|apply NoDup_filter; by apply (NoDup_fmap_1 rp_id)]. rewrite Forall_forall in Hok.
  intros p q [Hp Hpin]%list_elem_of_filter [Hq Hqin]%list_elem_of_filter E.
  destruct (policy_output_spec p (Hok _ Hpin) Hp) as (b & E1 & S1 & _). destruct (policy_output_spec q (Hok _ Hqin) Hq) as (b' & E2 & S2 & _).
  rewrite E in E1. rewrite E1 in E2. apply segment_below in E2; [|done..]. apply bytes_inj in E2. by apply (key_inj rp_id l).
Qed.

Lemma skill_outputs_distinct l : Forall skill_ok l -> NoDup (map rs_name l) -> NoDup (map skill_output l).
Proof.
  intros Hok Hnd. apply NoDup_fmap_2_strong; [|by apply (NoDup_fmap_1 rs_name)]. rewrite Forall_forall in Hok. intros p q Hpin Hqin E.
  destruct (skill_output_spec p (Hok _ Hpin)) as (E1 & S1 & _). destruct (skill_output_spec q (Hok _ Hqin)) as (E2 & S2 & _).
  rewrite E in E1. rewrite E1 in E2. apply segment_below in E2; [|done..]. apply bytes_inj in E2. by apply (key_inj rs_name l).
Qed.

Lemma rendered_distinct r files : resolved_ok r -> rendered r files ->
  NoDup (map File_Path files) /\ manifestPath ∉ map File_Path files /\ Forall (fun s => ValidString s = true) (map File_Path files).
Proof.
  intros [_ [Hp1 Hp2] [Hs1 Hs2] _ _ _] [_ _ (fixed & Hsub & Hperm)]. rewrite Hperm.
  assert (Hfixed : forall x, x ∈ fixed -> x ∈ fixed_paths) by (intros x Hx; by eapply elem_of_sublist).
  assert (Hconst : forall x, x ∈ fixed_paths -> below_agents x = false /\ x <> manifestPath /\ ValidString x = true).
  { assert (Hb : forallb (fun x => negb (below_agents x) && (x !=? manifestPath) && ValidString x) fixed_paths = true) by (vm_compute; reflexivity).
    rewrite forallb_true, Forall_forall in Hb. intros x Hx. specialize (Hb x Hx). rewrite !andb_true_iff, !negb_true_iff, bool_decide_eq_false in Hb. tauto. }
  assert (Hpol : forall x, x ∈ map policy_output (filter (fun p => rp_scriptPath p <> "") (r_policies r)) ->
    below_agents x = true /\ bytes x !! 8%nat = Some 0x70 /\ ValidString x = true).
  { intros x (p & -> & [Hne Hin]%list_elem_of_filter)%list_elem_of_fmap. rewrite Forall_forall in Hp1. specialize (Hp1 p Hin).
    destruct (policy_output_tag p Hp1 Hne). destruct (policy_output_spec p Hp1 Hne) as (? & _ & _ & Hv & _). done. }
  assert (Hsk : forall x, x ∈ map skill_output (r_skills r) -> below_agents x = true /\ bytes x !! 8%nat = Some 0x73 /\ ValidString x = true).
  { intros x (s & -> & Hin)%list_elem_of_fmap. rewrite Forall_forall in Hs1. specialize (Hs1 s Hin).
    destruct (skill_output_tag s Hs1). destruct (skill_output_spec s Hs1) as (_ & _ & Hv & _). done. }
  assert (Hm : below_agents manifestPath = false) by done. split_and!.
  - apply NoDup_app. split_and!.
    + eapply sublist_NoDup; [|exact Hsub]. apply (bool_decide_unpack (NoDup fixed_paths)); by vm_compute.
    + intros x Hx%Hfixed%Hconst [Hy%Hpol|Hy%Hsk]%elem_of_app; destruct Hx, Hy; congruence.
    + apply NoDup_app. split_and!; [by apply policy_outputs_distinct| |by apply skill_outputs_distinct]. intros x Hx%Hpol Hy%Hsk. destruct_and! Hx. destruct_and! Hy. congruence.
  - rewrite !elem_of_app. intros [Hx%Hfixed%Hconst|[Hx%Hpol|Hx%Hsk]]; destruct_and! Hx; congruence.
  - rewrite !Forall_app, !Forall_forall. split_and!; [intros x Hx%Hfixed%Hconst|intros x Hx%Hpol|intros x Hx%Hsk]; tauto.
Qed.

Lemma rendered_count r files : resolved_ok r -> rendered r files -> slen files <= 520.
Proof.
  intros Hr [_ _ (fixed & Hsub & Hperm)]. apply Permutation_length in Hperm. rewrite !length_app, !length_map in Hperm. apply sublist_length in Hsub.
  destruct (r_counts _ Hr) as [Hc _]. unfold maxPolicySkillItems in Hc. unfold slen in *. cbn in Hsub.
  pose proof (length_filter (fun p => rp_scriptPath p <> "") (r_policies r)). lia.
Qed.
