(* ===== verification/ContextPackSpec.v ===== *)
(** * Context packs: compilation

    [Compile] always ends, keeps every budget, and accounts for every entry. *)

From stdpp Require Import pretty.
From S2P Require Import Prelude Order GoStrings Paths Utf8 Digest Digits Base64 GoJson Unmarshal UnmarshalSpec.
From S2P Require Import ContextPack ContextPackOrder ContextPackUsage ContextPackParts ContextPackFiles.
Local Open Scope go_scope.
Local Open Scope string_scope.
Local Open Scope Z_scope.
Local Open Scope list_scope.

(** ** Entries *)

Definition lexical_entry (e : LexicalEntry) : optionalEntry := MkEntry "lexical" (Lexical_Path e) "lexical".
Definition repoMap_entry (e : RepoMapEntry) : optionalEntry := MkEntry "repo-map" (RepoMap_Path e) "repo-map".
Definition symbol_entry (e : SymbolEntry) : optionalEntry := MkEntry "symbols" (symbol_text e) "symbols".
Definition history_entry (e : HistoryEntry) : optionalEntry := MkEntry "history" (history_text e) "history".
Definition entries_of (s : selection) : list optionalEntry :=
  map lexical_entry (s_lexical s) ++ map repoMap_entry (s_repoMap s) ++ map symbol_entry (s_symbols s) ++ map history_entry (s_history s).

Lemma optionalEntries_perm s : optionalEntries s ≡ₚ entries_of s.
Proof. apply sort_on_perm. Qed.

Lemma entries_length s : length (entries_of s) = entry_count s.
Proof. unfold entries_of, entry_count. rewrite !length_app, !length_map. lia. Qed.

(** The entries that are kept are some of the given ones. *)
Definition within (s t : selection) : Prop :=
  s_lexical s `sublist_of` s_lexical t /\ s_repoMap s `sublist_of` s_repoMap t /\ s_symbols s `sublist_of` s_symbols t /\ s_history s `sublist_of` s_history t.

Lemma within_refl s : within s s.
Proof. by split_and!. Qed.
Lemma within_trans s t u : within s t -> within t u -> within s u.
Proof. intros (? & ? & ? & ?) (? & ? & ? & ?). split_and!; by etransitivity. Qed.

Lemma remove_first_one {A : Type} (text : A -> string) key (mk : A -> optionalEntry) l :
  key ∈ map text l -> exists x, text x = key /\ map mk l ≡ₚ mk x :: map mk (remove_first (fun v => text v =?= key) l) /\
    remove_first (fun v => text v =?= key) l `sublist_of` l.
Proof.
  induction l as [|x l IH]; intros Hin; [by apply not_elem_of_nil in Hin|]. cbn [remove_first]. case_bool_decide as E.
  - exists x. split_and!; [done|done|]. by apply sublist_cons.
  - destruct IH as (y & Hy & Hp & Hs). { cbn in Hin. apply elem_of_cons in Hin as [Hin|Hin]; [congruence|done]. }
    exists y. split_and!; [done| |by apply sublist_skip]. cbn [map]. rewrite Hp. by constructor.
Qed.

Lemma remove_entry s e : e ∈ entries_of s ->
  entries_of s ≡ₚ e :: entries_of (removeOptionalEntry s e) /\ within (removeOptionalEntry s e) s.
Proof.
  unfold entries_of. rewrite !elem_of_app, !list_elem_of_fmap. unfold removeOptionalEntry, within.
  intros [(x & -> & Hx)|[(x & -> & Hx)|[(x & -> & Hx)|(x & -> & Hx)]]]; cbn [e_kind e_key lexical_entry repoMap_entry symbol_entry history_entry].
  - destruct (remove_first_one Lexical_Path (Lexical_Path x) lexical_entry (s_lexical s)) as (y & Hy & Hp & Hs); [apply list_elem_of_fmap; eauto|].
    cbn -[entries_of]. split; [|by split_and!]. rewrite Hp. unfold lexical_entry at 1. by rewrite Hy.
  - destruct (remove_first_one RepoMap_Path (RepoMap_Path x) repoMap_entry (s_repoMap s)) as (y & Hy & Hp & Hs); [apply list_elem_of_fmap; eauto|].
    cbn. split; [|by split_and!]. rewrite Hp. unfold repoMap_entry at 1. rewrite Hy. solve_Permutation.
  - destruct (remove_first_one symbol_text (symbol_text x) symbol_entry (s_symbols s)) as (y & Hy & Hp & Hs); [apply list_elem_of_fmap; eauto|].
    cbn. split; [|by split_and!]. rewrite Hp. unfold symbol_entry at 1. rewrite Hy. solve_Permutation.
  - destruct (remove_first_one history_text (history_text x) history_entry (s_history s)) as (y & Hy & Hp & Hs); [apply list_elem_of_fmap; eauto|].
    cbn. split; [|by split_and!]. rewrite Hp. unfold history_entry at 1. rewrite Hy. solve_Permutation.
Qed.

Lemma last_of_kind_elem kind l e : last_of_kind kind l = Some e -> e ∈ l.
Proof. unfold last_of_kind. intros [H _]%find_some_elem. apply list_elem_of_In. apply list_elem_of_In in H. by apply in_rev. Qed.

Lemma oversized_elem l issues e : oversized_entry l issues = Some e -> e ∈ l.
Proof.
  induction issues as [|i issues IH]; cbn; [done|]. destruct (HasPrefix _ _); [|done]. destruct (last_of_kind _ _) eqn:E; [|done].
  intros [= <-]. by eapply last_of_kind_elem.
Qed.

Lemma lastOptionalEntry_elem s issues e : lastOptionalEntry s issues = Some e -> e ∈ entries_of s.
Proof.
  unfold lastOptionalEntry. cbv zeta. rewrite <- optionalEntries_perm. destruct (last (optionalEntries s)) as [final|] eqn:E; [|done].
  apply last_Some_elem_of in E. destruct (oversized_entry _ _) eqn:Eo; [|by intros [= <-]]. intros [= <-]. by eapply oversized_elem.
Qed.

Lemma lastOptionalEntry_none s issues : lastOptionalEntry s issues = None -> entries_of s = [].
Proof.
  unfold lastOptionalEntry. cbv zeta. destruct (last (optionalEntries s)) as [final|] eqn:E; [by destruct (oversized_entry _ _)|]. intros _.
  apply last_None in E. pose proof (optionalEntries_perm s) as Hp. rewrite E in Hp. by apply Permutation_nil_l in Hp.
Qed.

Definition entry_valid (e : optionalEntry) : Prop := texts [e_kind e; e_key e; e_strategy e].

Lemma entries_valid r s : resolved_ok r -> within s (everything r) -> Forall entry_valid (entries_of s).
Proof.
  intros Hr (W1 & W2 & W3 & W4). destruct (r_entries_ok _ Hr) as (H1 & H2 & H3 & H4). unfold entries_of.
  apply (Forall_sublist _ _ _ W1) in H1. apply (Forall_sublist _ _ _ W2) in H2. apply (Forall_sublist _ _ _ W3) in H3. apply (Forall_sublist _ _ _ W4) in H4.
  rewrite !Forall_app, !Forall_map. split_and!.
  - eapply Forall_impl; [exact H1|]. intros e He. by repeat constructor.
  - eapply Forall_impl; [exact H2|]. intros e He. by repeat constructor.
  - eapply Forall_impl; [exact H3|]. intros e He. unfold symbol_ok, texts in He. rewrite !Forall_cons in He. destruct He as (P & K & N & _).
    repeat constructor. unfold e_key, symbol_entry, symbol_text. repeat (apply valid_app; [done || apply valid_pretty|]). done.
  - eapply Forall_impl; [exact H4|]. intros e He. unfold history_ok, texts in He. rewrite !Forall_cons in He. destruct He as (P & K & _).
    repeat constructor. unfold e_key, history_entry, history_text. by repeat (apply valid_app; [done|]).
Qed.

(** ** Budgets *)

Record fits (files : list File) (usage : BudgetUsage) (b : Budgets) : Prop := {
  fits_file : Forall (fun f => File_SizeBytes f <= MaxFileBytes b) files;
  fits_count : Usage_FileCount usage <= MaxFiles b;
  fits_bytes : Usage_OutputBytes usage <= MaxOutputBytes b;
  fits_tokens : Usage_TokenEstimate usage <= MaxTokens b
}.

Lemma no_issues files usage b : budgetIssues files usage b = [] -> fits files usage b.
Proof.
  unfold budgetIssues. intros H. apply app_eq_nil in H as [H1 H]. apply app_eq_nil in H as [H2 H]. apply app_eq_nil in H as [H3 H4]. split.
  - induction files as [|f files IH]; [constructor|]. cbn [flat_map] in H1. apply app_eq_nil in H1 as [Hf H1].
    destruct (Z.ltb_spec (MaxFileBytes b) (File_SizeBytes f)); [done|]. constructor; [done|]. by apply IH.
  - by destruct (Z.ltb_spec (MaxFiles b) (Usage_FileCount usage)).
  - by destruct (Z.ltb_spec (MaxOutputBytes b) (Usage_OutputBytes usage)).
  - by destruct (Z.ltb_spec (MaxTokens b) (Usage_TokenEstimate usage)).
Qed.

Definition issue_ok (i : budgetIssue) : Prop := i_limit i < i_actual i /\ ValidString (i_metric i) = true.

Lemma issues_ok files usage b : Forall (fun s => ValidString s = true) (map File_Path files) -> Forall issue_ok (budgetIssues files usage b).
Proof.
  intros H. unfold budgetIssues. rewrite !Forall_app. split_and!.
  - induction files as [|f files IH]; [constructor|]. cbn [map flat_map] in *. apply Forall_cons in H as [Hf H]. apply Forall_app. split; [|by apply IH].
    destruct (Z.ltb_spec (MaxFileBytes b) (File_SizeBytes f)); [|constructor]. apply Forall_singleton. split; [done|]. by apply valid_app.
  - destruct (Z.ltb_spec (MaxFiles b) (Usage_FileCount usage)); [|constructor]. by apply Forall_singleton.
  - destruct (Z.ltb_spec (MaxOutputBytes b) (Usage_OutputBytes usage)); [|constructor]. by apply Forall_singleton.
  - destruct (Z.ltb_spec (MaxTokens b) (Usage_TokenEstimate usage)); [|constructor]. by apply Forall_singleton.
Qed.

(** ** The manifest of a pack *)

Lemma int64_between n m : 0 <= n <= m -> int64 m = true -> int64 n = true.
Proof. unfold int64. rewrite !between_spec. lia. Qed.

Lemma kind_valid kind : kind ∈ file_kinds -> ValidString kind = true.
Proof.
  intros H. assert (Hall : forallb ValidString file_kinds = true) by (vm_compute; reflexivity). rewrite forallb_true, Forall_forall in Hall. by apply Hall.
Qed.

Lemma descriptors_ok r files max : resolved_ok r -> rendered r files -> int64 max = true -> Forall (fun f => File_SizeBytes f <= max) files ->
  Forall fd_ok (descriptors files).
Proof.
  intros Hr Hf Hmax Hsize. destruct (rendered_distinct _ _ Hr Hf) as (_ & _ & Hvalid). destruct Hf as [Hmade Hkinds _]. unfold descriptors, sort_on.
  rewrite sort_by_perm. apply Forall_map. rewrite Forall_map in Hvalid. rewrite !Forall_forall in *. intros f Hin.
  specialize (Hmade f Hin) as Hm. specialize (Hkinds f Hin) as Hk. specialize (Hsize f Hin) as Hs. specialize (Hvalid f Hin) as Hv. cbv beta in *.
  apply kind_valid in Hk. apply made_sizes in Hm as Ht. destruct Hm as (path & body & kind & ->).
  cbn in *. split; repeat constructor; cbn; [done|apply valid_digestBytes|done| |]; eapply int64_between; [|exact Hmax| |exact Hmax]; pose proof (slen_nonneg body); lia.
Qed.

Lemma policy_descriptors_ok r : resolved_ok r -> Forall pd_ok (map policy_descriptor (r_policies r)).
Proof.
  intros Hr. destruct (r_policies_ok _ Hr) as [H _]. apply Forall_map. eapply Forall_impl; [exact H|]. intros p Hp. pose proof Hp as (Hn & _ & Ht).
  unfold texts in Ht. rewrite !Forall_cons in Ht. destruct Ht as (T1 & T2 & T3 & T4 & _). repeat constructor; cbn; try done; [by apply name_valid|].
  destruct (bool_decide_reflect (rp_scriptPath p = "")) as [E|E]; [done|]. cbn. by destruct (policy_output_spec p Hp E) as (? & _ & _ & ? & _).
Qed.

Lemma skill_descriptors_ok r : resolved_ok r -> Forall sd_ok (map skill_descriptor (r_skills r)).
Proof.
  intros Hr. destruct (r_skills_ok _ Hr) as [H _]. apply Forall_map. eapply Forall_impl; [exact H|]. intros s Hs. pose proof Hs as (Hn & Ht).
  unfold texts in Ht. rewrite !Forall_cons in Ht. destruct Ht as (T1 & T2 & T3 & _). repeat constructor; cbn; try done; [by apply name_valid|apply valid_digestBytes|].
  by destruct (skill_output_spec s Hs) as (_ & _ & ? & _).
Qed.

Lemma strategy_descriptor_ok path kind name included total : texts [path; kind; name] -> 0 <= included <= total -> total <= maxCollectionItems ->
  Forall std_ok (strategy_descriptor path kind name included total).
Proof.
  intros Ht Hi Hmax. unfold strategy_descriptor. unfold texts in Ht. rewrite !Forall_cons in Ht. destruct Ht as (T1 & T2 & T3 & _). case_bool_decide; [constructor|].
  apply Forall_singleton. unfold maxCollectionItems in Hmax. split; repeat constructor; cbn; try done; [unfold optionalPath; by case_match|..]; apply between_spec; lia.
Qed.

Lemma sublist_slen {A : Type} (l k : list A) : l `sublist_of` k -> 0 <= slen l <= slen k.
Proof. intros H%sublist_length. unfold slen. lia. Qed.

Lemma strategy_descriptors_ok r s : resolved_ok r -> within s (everything r) -> Forall std_ok (strategy_descriptors r s).
Proof.
  intros Hr (W1%sublist_slen & W2%sublist_slen & W3%sublist_slen & W4%sublist_slen). cbn in W1, W2, W3, W4. destruct (r_counts _ Hr) as [_ Hc].
  pose proof (r_texts _ Hr) as Ht. unfold texts in Ht. rewrite !Forall_cons in Ht. destruct Ht as (_ & _ & T1 & T2 & T3 & T4 & _).
  unfold strategy_descriptors. rewrite !Forall_app. split_and!; apply strategy_descriptor_ok; try lia; by repeat constructor.
Qed.

Definition pack_manifest (r : resolvedInput) (s : selection) (omissions : list Omission) (files : list File) (usage : BudgetUsage) : Manifest :=
  MkManifest SchemaVersion (r_baseSHA r) (r_resolvedSpecDigest r) (optionalDigest (r_policyContractManifest r)) (descriptors files)
    (map policy_descriptor (r_policies r)) (map skill_descriptor (r_skills r)) (strategy_descriptors r s) omissions (r_budgets r) usage.

Lemma pack_manifest_ok r s omissions files usage : resolved_ok r -> within s (everything r) -> rendered r files -> Forall omission_ok omissions ->
  budgets_ok (r_budgets r) -> Forall (fun f => File_SizeBytes f <= MaxFileBytes (r_budgets r)) files -> usage_ok usage ->
  manifest_ok (pack_manifest r s omissions files usage).
Proof.
  intros Hr Hw Hf Ho Hb Hs Hu. split; cbn; try done.
  - pose proof (r_texts _ Hr) as Ht. unfold texts in *. rewrite !Forall_cons in Ht. destruct Ht as (T1 & T2 & _). repeat constructor; try done. apply valid_optionalDigest.
  - eapply descriptors_ok; [exact Hr|exact Hf| |exact Hs]. unfold budgets_ok, ints in Hb. rewrite !Forall_cons in Hb. tauto.
  - by apply policy_descriptors_ok.
  - by apply skill_descriptors_ok.
  - by apply strategy_descriptors_ok.
Qed.

(** ** Assembling a pack *)

(** What holds of the pack of the kept entries [s]: [files] are rendered from
    them, the manifest describes them, and its usage is that of the whole pack. *)
Record assembled (r : resolvedInput) (s : selection) (omissions : list Omission) (pack : Pack) : Prop := {
  a_files : exists files, renderFiles r s =
      Ok (files, map policy_descriptor (r_policies r), map skill_descriptor (r_skills r), strategy_descriptors r s) /\
    Pack_Manifest pack = pack_manifest r s omissions files (Manifest_Usage (Pack_Manifest pack)) /\
    Pack_Files pack ≡ₚ makeFile manifestPath (Marshal (manifest_json (Pack_Manifest pack))) "manifest" :: files;
  a_digest : Pack_Digest pack = digestBytes (Marshal (manifest_json (Pack_Manifest pack)));
  a_made : Forall made (Pack_Files pack);
  a_paths : NoDup (map File_Path (Pack_Files pack)) /\ Sorted (cmp_le String.compare) (map File_Path (Pack_Files pack));
  a_usage : Manifest_Usage (Pack_Manifest pack) =
    MkUsage (r_inputBytes r) (sumFileBytes (Pack_Files pack)) (slen (Pack_Files pack)) (sumFileTokens (Pack_Files pack));
  a_fits : fits (Pack_Files pack) (Manifest_Usage (Pack_Manifest pack)) (r_budgets r)
}.

Section Assembling.
Context (r : resolvedInput) (s : selection) (omissions : list Omission).
Context (Hr : resolved_ok r) (Hb : budgets_ok (r_budgets r)) (Hin : r_inputBytes r <= MaxInputBytes (r_budgets r)).
Context (Hw : within s (everything r)) (Ho : Forall omission_ok omissions).

Lemma budgets_int : int64 (MaxInputBytes (r_budgets r)) = true /\ int64 (MaxOutputBytes (r_budgets r)) = true /\ int64 (MaxFileBytes (r_budgets r)) = true /\
  int64 (MaxFiles (r_budgets r)) = true /\ int64 (MaxTokens (r_budgets r)) = true.
Proof. unfold budgets_ok, ints in Hb. rewrite !Forall_cons in Hb. tauto. Qed.

Lemma assemble_cases :
  match assemble r s omissions with
  | Err e => e = ErrInvalidInput /\ renderAgents r s = Err ErrInvalidInput
  | Ok (inl pack) => assembled r s omissions pack
  | Ok (inr issues) => issues <> [] /\ Forall issue_ok issues
  end.
Proof.
  destruct (renderAgents r s) as [agents|e] eqn:Ea.
  2:{ unfold assemble, renderFiles. rewrite Ea. cbn [result_bind]. split; [|f_equal]; assert (Hi : invalid_only (renderAgents r s)) by
      (unfold renderAgents; cbv zeta; auto with invalid); by apply Hi. }
  destruct (renderFiles_ok r s agents Ea) as (files & Ef & Hf). unfold assemble. rewrite Ef. cbn [result_bind]. cbv zeta.
  destruct (rendered_distinct _ _ Hr Hf) as (Hnd & Hman & Hvalid). pose proof (rendered_count _ _ Hr Hf) as Hcount. pose proof (rendered_made _ _ Hf) as Hmade.
  destruct budgets_int as (B1 & B2 & B3 & B4 & B5).
  set (base := MkManifest _ _ _ _ _ _ _ _ _ _ _).
  destruct (first_rounds base files (r_inputBytes r)) as (body & u & Est); [done|pose proof (r_input _ Hr); unfold int64 in B1; apply between_spec in B1; lia|lia|done|].
  rewrite Est. cbn [result_bind]. apply stabilize_exact in Est as [Ebody Eu]. change (with_usage base u) with (pack_manifest r s omissions files u) in Ebody.
  set (manifestFile := makeFile manifestPath body "manifest"). set (all := sort_on File_Path String.compare (files ++ [manifestFile])).
  assert (Hall : all ≡ₚ manifestFile :: files) by (unfold all; rewrite (sort_on_perm File_Path String.compare); by rewrite Permutation_app_comm).
  assert (Hnd' : NoDup (map File_Path all)) by (rewrite Hall; by constructor).
  assert (Hv' : Forall (fun s => ValidString s = true) (map File_Path all)) by (rewrite Hall; by constructor).
  assert (Hu : u = MkUsage (r_inputBytes r) (sumFileBytes all) (slen all) (sumFileTokens all)).
  { rewrite Eu. unfold sumFileBytes, sumFileTokens. rewrite !(sumZ_perm _ _ _ Hall). assert (slen all = slen files + 1) as -> by (unfold slen; rewrite Hall; cbn; lia).
    change (sumZ File_SizeBytes (manifestFile :: files)) with (slen body + sumZ File_SizeBytes files).
    change (sumZ File_TokenEstimate (manifestFile :: files)) with (estimateTokens body + sumZ File_TokenEstimate files). f_equal; lia. }
  destruct (budgetIssues all u (r_budgets r)) as [|issue issues] eqn:Ei.
  2:{ split; [done|]. rewrite <- Ei. by apply issues_ok. }
  apply no_issues in Ei. assert (Hsizes : Forall (fun f => File_SizeBytes f <= MaxFileBytes (r_budgets r)) files).
  { pose proof (fits_file _ _ _ Ei) as H. rewrite Hall in H. by apply Forall_cons in H as [_ H]. }
  assert (Hmo : manifest_ok (pack_manifest r s omissions files u)).
  { apply pack_manifest_ok; try done. pose proof (fits_count _ _ _ Ei) as F1. pose proof (fits_bytes _ _ _ Ei) as F2. pose proof (fits_tokens _ _ _ Ei) as F3.
    assert (Hmade' : Forall made all) by (rewrite Hall; constructor; [by eexists _, _, _|done]). pose proof (made_sums _ Hmade'). pose proof (slen_nonneg all).
    pose proof (r_input _ Hr). rewrite Hu in F1, F2, F3 |- *. unfold usage_ok, ints. cbn [Usage_InputBytes Usage_OutputBytes Usage_FileCount Usage_TokenEstimate] in *. rewrite !Forall_cons. split_and!; [eapply int64_between, B1|eapply int64_between, B2|
      eapply int64_between, B4|eapply int64_between, B5|constructor]; lia. }
  rewrite Ebody, decodeManifest_written by done. cbn [result_bind]. subst body.
  split; cbn [Pack_Files Pack_Manifest Pack_Digest pack_manifest Manifest_Usage].
  - by exists files.
  - done.
  - rewrite Hall. constructor; [by eexists _, _, _|done].
  - split; [done|]. apply sort_on_keys, _.
  - done.
  - exact Ei.
Qed.
End Assembling.

(** ** The loop *)

Definition omission_entry (o : Omission) : optionalEntry := MkEntry (Omission_Kind o) (Omission_Key o) (Omission_Strategy o).

(** Every entry is kept or recorded as omitted. *)
Record accounted (r : resolvedInput) (s : selection) (omissions : list Omission) : Prop := {
  acc_within : within s (everything r);
  acc_omissions : Forall omission_ok omissions;
  acc_entries : map omission_entry omissions ++ entries_of s ≡ₚ entries_of (everything r)
}.

Lemma accounted_step r s omissions issue issues e : resolved_ok r -> accounted r s omissions -> Forall issue_ok (issue :: issues) ->
  lastOptionalEntry s (issue :: issues) = Some e ->
  accounted r (removeOptionalEntry s e) (sort_on omission_order (compare_pair String.compare String.compare)
    (omissions ++ [MkOmission (e_kind e) (e_key e) (e_strategy e) (i_metric issue)])) /\
  (entry_count (removeOptionalEntry s e) < entry_count s)%nat.
Proof.
  intros Hr [Hw Ho Hacc] Hi He. apply lastOptionalEntry_elem in He. pose proof (entries_valid r s Hr Hw) as Hval. rewrite Forall_forall in Hval. specialize (Hval e He).
  destruct (remove_entry s e He) as [Hp Hs]. unfold sort_on. split.
  - split; [by eapply within_trans|rewrite sort_by_perm|].
    + apply Forall_app. split; [done|]. apply Forall_singleton. unfold entry_valid, texts in Hval. rewrite !Forall_cons in Hval.
      apply Forall_cons in Hi as [[_ Hm] _]. repeat constructor; cbn; tauto.
    + assert (Hmap : map omission_entry (sort_by (compare_on omission_order (compare_pair String.compare String.compare))
        (omissions ++ [MkOmission (e_kind e) (e_key e) (e_strategy e) (i_metric issue)])) ≡ₚ map omission_entry omissions ++ [e]).
      { rewrite sort_by_perm, map_app. by destruct e. }
      rewrite Hmap, <- Hacc, Hp. solve_Permutation.
  - rewrite <- !entries_length. apply Permutation_length in Hp. rewrite Hp. cbn. lia.
Qed.

Definition nothing : selection := MkSelection [] [] [] [].

Lemma no_entries s : entries_of s = [] -> s = nothing.
Proof. destruct s as [a b c d]. unfold entries_of. cbn. by destruct a, b, c, d. Qed.

(** How the loop can end. *)
Definition loop_end (r : resolvedInput) (result : result pack_error Pack) : Prop :=
  match result with
  | Ok pack => exists s omissions, accounted r s omissions /\ assembled r s omissions pack
  | Err ErrInvalidInput => exists s, within s (everything r) /\ renderAgents r s = Err ErrInvalidInput
  | Err (ErrBudgetExceeded metric actual limit) =>
    limit < actual /\ exists omissions issues, assemble r nothing omissions = Ok (inr issues) /\ head issues = Some (MkIssue metric actual limit)
  end.

Lemma loop_ends r fuel : resolved_ok r -> budgets_ok (r_budgets r) -> r_inputBytes r <= MaxInputBytes (r_budgets r) ->
  forall s omissions, accounted r s omissions -> (entry_count s < fuel)%nat ->
  exists result, compile_loop fuel r s omissions = Some result /\ loop_end r result.
Proof.
  intros Hr Hb Hin. induction fuel as [|fuel IH]; intros s omissions Hacc Hfuel; [lia|]. cbn [compile_loop].
  pose proof (assemble_cases r s omissions Hr Hb Hin (acc_within _ _ _ Hacc) (acc_omissions _ _ _ Hacc)) as H.
  destruct (assemble r s omissions) as [[pack|issues]|e] eqn:Ea.
  - eexists. split; [done|]. cbn. eauto.
  - destruct H as [Hne Hi]. destruct issues as [|issue issues]; [done|]. cbn [head default].
    destruct (lastOptionalEntry s (issue :: issues)) as [e|] eqn:El.
    + destruct (accounted_step r s omissions issue issues e Hr Hacc Hi El) as [Hacc' Hlt]. apply IH; [done|lia].
    + apply lastOptionalEntry_none, no_entries in El as ->. eexists. split; [done|]. cbn. apply Forall_cons in Hi as [[Hlt _] _]. split; [done|].
      eexists _, _. split; [exact Ea|]. by destruct issue.
  - destruct H as [-> Hra]. eexists. split; [done|]. cbn. exists s. split; [apply (acc_within _ _ _ Hacc)|done].
Qed.

(** ** Compilation *)

Lemma normalizeInput_invalid i : invalid_only (Pack_normalizeInput i).
Proof.
  assert (Hd : forall (A B K : Type) (EqK : EqDecision K) (key : A -> result pack_error K) (rest : K -> A -> result pack_error B) l,
    (forall a, invalid_only (key a)) -> (forall k a, invalid_only (rest k a)) -> invalid_only (distinct_items key rest [] [] l)) by (intros; by apply distinct_items_invalid).
  unfold Pack_normalizeInput, normalizeBoundaries, normalizePolicies, normalizeSkills, normalizeLexical, normalizeRepoMap, normalizeSymbols, normalizeHistory,
    normalizeStrategies, check_strategy, validateBudgets, validateCollectionCounts.
  repeat first [apply invalid_bind|match goal with |- forall _, _ => intros ? end|apply invalid_if|apply Hd|apply history_invalid|progress cbv zeta|solve [auto with invalid]].
Qed.

Lemma everything_accounted r : accounted r (everything r) [].
Proof. split; [apply within_refl|constructor|done]. Qed.

Lemma compile_ends input : budgets_ok (Input_Budgets input) ->
  exists result, Compile input = Some result /\
  ((Pack_normalizeInput input = Err ErrInvalidInput /\ result = Err ErrInvalidInput) \/
   exists r, Pack_normalizeInput input = Ok r /\ resolved_ok r /\ r_budgets r = Input_Budgets input /\
     ((r_inputBytes r > MaxInputBytes (r_budgets r) /\ result = Err (ErrBudgetExceeded "maxInputBytes" (r_inputBytes r) (MaxInputBytes (r_budgets r)))) \/
      (r_inputBytes r <= MaxInputBytes (r_budgets r) /\ loop_end r result))).
Proof.
  intros Hb. unfold Compile. destruct (Pack_normalizeInput input) as [r|e] eqn:En.
  - destruct (normalizeInput_resolved _ _ En) as [Hr Hbud]. destruct (Z.ltb_spec (MaxInputBytes (r_budgets r)) (r_inputBytes r)).
    + eexists. split; [done|]. right. exists r. split_and!; try done. left. split; [lia|done].
    + destruct (loop_ends r (S (entry_count (everything r))) Hr ltac:(by rewrite Hbud) ltac:(lia) (everything r) [] (everything_accounted r) ltac:(lia)) as (result & E & He).
      exists result. split; [done|]. right. exists r. split_and!; try done. by right.
  - apply normalizeInput_invalid in En as ->. eexists. split; [done|]. by left.
Qed.

(** C2. Compilation ends, and its errors mean what they say: for budgets that are
    64-bit integers, [Compile] returns a pack; or it reports invalid input, and
    the input is malformed or its AGENTS.md too large; or it names a budget that
    is exceeded, by the input itself or by a pack with every optional entry left
    out.  In particular the usage in the manifest always stabilises. *)
Theorem compile_total input (Hb : budgets_ok (Input_Budgets input)) :
  exists result, Compile input = Some result /\
  match result with
  | Ok pack => True
  | Err ErrInvalidInput =>
    Pack_normalizeInput input = Err ErrInvalidInput \/
    exists r s, Pack_normalizeInput input = Ok r /\ within s (everything r) /\ renderAgents r s = Err ErrInvalidInput
  | Err (ErrBudgetExceeded metric actual limit) =>
    limit < actual /\ exists r, Pack_normalizeInput input = Ok r /\
      ((metric = "maxInputBytes" /\ actual = r_inputBytes r /\ limit = MaxInputBytes (Input_Budgets input)) \/
       exists omissions issues, assemble r nothing omissions = Ok (inr issues) /\ head issues = Some (MkIssue metric actual limit))
  end.
Proof.
  destruct (compile_ends input Hb) as (result & E & H). exists result. split; [done|]. destruct H as [[Hn ->]|(r & Hn & _ & Hbud & [[Hgt ->]|[_ Hend]])].
  - by left.
  - split; [lia|]. exists r. split; [done|]. left. by rewrite Hbud.
  - destruct result as [pack|[|metric actual limit]]; [done| |].
    + destruct Hend as (s & Hw & Hra). right. by exists r, s.
    + destruct Hend as (Hlt & omissions & issues & Ha & Hh). split; [done|]. exists r. split; [done|]. right. by exists omissions, issues.
Qed.

(** C8. A compiled pack is exact: its files are the manifest and the files
    rendered from the kept entries, at distinct paths; the manifest is the JSON of
    [Pack_Manifest], lists every other file with its digest and size, and its
    usage is that of the whole pack, itself included; the pack keeps every budget;
    and every optional entry is either kept or recorded as an omission. *)
Theorem compile_exact input pack (Hb : budgets_ok (Input_Budgets input)) (H : Compile input = Some (Ok pack)) :
  exists r s files, Pack_normalizeInput input = Ok r /\ within s (everything r) /\
    renderFiles r s = Ok (files, map policy_descriptor (r_policies r), map skill_descriptor (r_skills r), strategy_descriptors r s) /\
    let manifest := Pack_Manifest pack in
    let body := Marshal (manifest_json manifest) in
    Pack_Files pack ≡ₚ makeFile manifestPath body "manifest" :: files /\ NoDup (map File_Path (Pack_Files pack)) /\
    ManifestBytes pack = Some body /\ Pack_Digest pack = digestBytes body /\ Manifest_Files manifest = descriptors files /\
    Manifest_Usage manifest = MkUsage (r_inputBytes r) (sumFileBytes (Pack_Files pack)) (slen (Pack_Files pack)) (sumFileTokens (Pack_Files pack)) /\
    r_inputBytes r <= MaxInputBytes (Input_Budgets input) /\ fits (Pack_Files pack) (Manifest_Usage manifest) (Input_Budgets input) /\
    map omission_entry (Manifest_Omissions manifest) ++ entries_of s ≡ₚ entries_of (everything r).
Proof.
  destruct (compile_ends input Hb) as (result & E & Hend). rewrite H in E. injection E as <-. destruct Hend as [[_ E]|(r & Hn & Hr & Hbud & [[_ E]|[Hin Hend]])]; [done..|].
  destruct Hend as (s & omissions & [Hw _ Hacc] & [(files & Ef & Em & Hp) Hdig Hmade [Hnd Hsort] Hu Hfit]). exists r, s, files. rewrite Hbud in Hin, Hfit. cbv zeta.
  assert (Ho : Manifest_Omissions (Pack_Manifest pack) = omissions) by (by rewrite Em).
  assert (Hmf : Manifest_Files (Pack_Manifest pack) = descriptors files) by (by rewrite Em).
  rewrite Ho. split_and!; try done. unfold ManifestBytes, Pack_File.
  destruct (find _ (Pack_Files pack)) as [f|] eqn:Ef'.
  - apply find_some_elem in Ef' as [Hin' Hpath]. apply bool_decide_eq_true in Hpath.
    assert (f = makeFile manifestPath (Marshal (manifest_json (Pack_Manifest pack))) "manifest") as ->; [|exact eq_refl].
    apply (key_inj File_Path (Pack_Files pack)); [exact Hnd|exact Hin'|rewrite Hp; left|exact Hpath].
  - apply find_none_elem in Ef'. rewrite Hp in Ef'. apply Forall_cons in Ef' as [Hc _]. apply bool_decide_eq_false in Hc. by destruct Hc.
Qed.

(** ** A concrete pack *)

(** One of the two entries of the sample does not fit. *)
Definition sample_files : PackInput := sample_pack_input [sample_lexical "b.go"; sample_lexical "a.go"].

Definition one_omitted (result : option (result pack_error Pack)) : bool :=
  match result with
  | Some (Ok pack) => bool_decide (map Omission_Key (Manifest_Omissions (Pack_Manifest pack)) = ["b.go"])
  | _ => false
  end.

Lemma sample_omits : one_omitted (Compile sample_files) = true.
Proof. vm_compute. reflexivity. Qed.

Lemma sample_budgets : budgets_ok (Input_Budgets sample_files).
Proof. by repeat constructor. Qed.

Lemma compile_total_witness : exists result, Compile sample_files = Some result.
Proof. destruct (compile_total sample_files sample_budgets) as (result & E & _). by exists result. Defined.

Lemma compile_exact_witness : exists pack, Compile sample_files = Some (Ok pack) /\ map Omission_Key (Manifest_Omissions (Pack_Manifest pack)) = ["b.go"] /\
  fits (Pack_Files pack) (Manifest_Usage (Pack_Manifest pack)) (Input_Budgets sample_files).
Proof.
  pose proof sample_omits as Hs. destruct (Compile sample_files) as [[pack|e]|] eqn:E; [|discriminate Hs|discriminate Hs].
  exists pack. split; [reflexivity|]. split; [by apply bool_decide_eq_true in Hs|].
  destruct (compile_exact sample_files pack sample_budgets E) as (r & s & files & _ & _ & _ & _ & _ & _ & _ & _ & _ & _ & Hfit & _). exact Hfit.
Defined.
