(* ===== verification/PolicyContract.v ===== *)
(** * Policy contracts (src/v3/internal/policycontract/policycontract.go)

    Resolved policies are compiled into one contract: canonical rules, a manifest
    in canonical JSON with its digest, and the projections that the context pack,
    the self-checks of the harness and the Gate use.  The loader of scripts is a
    function of the base revision and the path; the name check of
    k8s.io/apimachinery is the parameter [IsDNS1123Subdomain], as in Retention.v.
    The clones of slices are not separate values here.  A manifest whose members
    repeat a name in another case is read with the last of them. *)

From S2P Require Import Prelude Order GoStrings Utf8 Digest Digits GoJson Unmarshal Paths StrictJson ContextPack.
Local Open Scope go_scope.
Local Open Scope string_scope.
Local Open Scope Z_scope.
Local Open Scope list_scope.

Definition SchemaVersion : string := "agents.astatide.com/policy-contract/v1".
Definition ContextPackPolicyRoot : string := ".agents/policies".
Definition ScriptRunner : string := "sh".
Definition MaxPolicies : Z := 16.
Definition MaxRulesPerPolicy : Z := 64.
Definition MaxTotalRules : Z := 512.
Definition MaxPolicyContextBytes : Z := 8192.
Definition MaxScriptPathBytes : Z := 512.
Definition MaxScriptBytes : Z := Z.shiftl 256 10.
Definition MaxTotalScriptBytes : Z := Z.shiftl 4 20.
Definition MaxInputBytes : Z := Z.shiftl 8 20.
Definition MaxManifestBytes : Z := Z.shiftl 8 20.
Definition MaxArgBytes : Z := 1024.
Definition MaxPolicyNameBytes : Z := 253.
Definition MaxProvenanceBytes : Z := 128.

Inductive contract_error : Type :=
| ErrInvalidInput
| ErrMalformedProvenance
| ErrDuplicatePolicy
| ErrDuplicateRule
| ErrScriptMissing
| ErrScriptLoad
| ErrUnsafeScript
| ErrScriptMismatch
| ErrTooLarge.

#[global] Instance contract_error_eq_dec : EqDecision contract_error.
Proof. solve_decision. Defined.

(** ** Policies as they are resolved (api/v1alpha1/policy_types.go and
    internal/resolved/resolved.go) *)

Record PolicyCheck : Type := MkPolicyCheck { PolicyCheck_Kind : string; PolicyCheck_Script : string; PolicyCheck_Expect : string }.
Record PolicyRule : Type := MkPolicyRule {
  PolicyRule_ID : string; PolicyRule_Severity : string; PolicyRule_Context : string; PolicyRule_Check : option PolicyCheck
}.
Record ObjectVersion : Type := MkObjectVersion {
  Version_Name : string; Version_UID : string; Version_ResourceVersion : string; Version_Generation : Z
}.
Record PolicySnapshot : Type := MkSnapshot { Snapshot_Reference : ObjectVersion; Snapshot_Rules : list PolicyRule }.
Record Input : Type := MkInput { Input_BaseSHA : string; Input_ResolvedSpecDigest : string; Input_Policies : list PolicySnapshot }.

(** ** Scripts *)

Definition FileKindRegular : string := "regular".
Definition FileKindSymlink : string := "symlink".
Definition FileKindSpecial : string := "special".

Record LoadedScript : Type := MkLoaded {
  Loaded_BaseSHA : string; Loaded_Path : string; Loaded_Kind : string; Loaded_Bytes : list Z; Loaded_Digest : string
}.

(** The error of a loader is known by the sentinels it wraps. *)
Notation loader_error := (list contract_error).
Notation ScriptLoader := (string -> string -> result loader_error LoadedScript).

Definition ScriptLoaderFunc_Load (f : option ScriptLoader) : ScriptLoader :=
  match f with
  | None => fun _ _ => Err [ErrScriptMissing]
  | Some f => f
  end.

(** ** The contract *)

Definition SeverityBlocking : string := "blocking".
Definition SeverityAdvisory : string := "advisory".
Definition CheckKindScript : string := "script".
Definition ExpectExit0 : string := "exit0".
Definition ExpectedExitCode : Z := 0.
Definition FailureReject : string := "reject".
Definition FailureAdvisory : string := "advisory".

Record PolicySource : Type := MkSource { Source_Name : string; Source_UID : string; Source_ResourceVersion : string; Source_Generation : Z }.
Record Check : Type := MkCheck { Check_Kind : string; Check_Expect : string; Check_ExpectedExitCode : Z }.
Record Rule : Type := MkRule {
  Rule_ID : string;
  Rule_Severity : string;
  Rule_Context : string;
  Rule_Source : PolicySource;
  Rule_Check : option Check;
  Rule_ScriptSourcePath : string;
  Rule_ContextPackPath : string;
  Rule_ScriptDigest : string;
  Rule_scriptBytes : list Z;
  Rule_scriptPresent : bool
}.
Record CheckDescriptor : Type := MkDescriptor {
  Descriptor_ContractDigest : string;
  Descriptor_RuleID : string;
  Descriptor_Severity : string;
  Descriptor_Blocking : bool;
  Descriptor_HasScript : bool;
  Descriptor_Argv : list string;
  Descriptor_ScriptSourcePath : string;
  Descriptor_ContextPackOutputPath : string;
  Descriptor_ScriptDigest : string;
  Descriptor_Kind : string;
  Descriptor_Expect : string;
  Descriptor_ExpectedExitCode : Z;
  Descriptor_FailureMode : string
}.
Record GateCheckDescriptor : Type := MkGateDescriptor { Gate_Check : CheckDescriptor; Gate_RejectsOnFailure : bool }.
Record CheckObservation : Type := MkObservation {
  Observation_ContractDigest : string;
  Observation_RuleID : string;
  Observation_ScriptDigest : string;
  Observation_ExitCode : option Z;
  Observation_Skipped : bool
}.
Record ManifestCheck : Type := MkManifestCheck {
  MCheck_Kind : string;
  MCheck_Expect : string;
  MCheck_ExpectedExitCode : Z;
  MCheck_ScriptSourcePath : string;
  MCheck_ContextPackOutputPath : string;
  MCheck_ScriptDigest : string
}.
Record ManifestRule : Type := MkManifestRule {
  MRule_ID : string;
  MRule_Severity : string;
  MRule_Context : string;
  MRule_Source : PolicySource;
  MRule_FailureMode : string;
  MRule_Check : option ManifestCheck
}.
Record Manifest : Type := MkManifest {
  Manifest_SchemaVersion : string; Manifest_BaseSHA : string; Manifest_ResolvedSpecDigest : string; Manifest_Rules : list ManifestRule
}.
Record Compiled : Type := MkCompiled {
  Compiled_rules : list Rule; Compiled_manifest : Manifest; Compiled_manifestJSON : list Z; Compiled_digest : string
}.

Definition HasScript (r : Rule) : bool := Rule_scriptPresent r || (0 <? slen (Rule_scriptBytes r)).
Definition failureMode (r : Rule) : string := if Rule_Severity r =?= SeverityBlocking then FailureReject else FailureAdvisory.

(** ** Checks of names, paths and texts *)

Definition id_byte (b : Z) : bool := between 0x61 0x7A b || is_digit b.
(** [policyIDPattern]: one to 64 lowercase letters, digits and dashes, with no dash
    at either end. *)
Definition policyIDPattern (id : string) : bool :=
  (len id <=? 64) && forallb (fun b => id_byte b || (b =? dash)) (bytes id) &&
  match head (bytes id), last (bytes id) with
  | Some first, Some final => id_byte first && id_byte final
  | _, _ => false
  end.

Definition word_byte (b : Z) : bool := between 0x61 0x7A b || between 0x41 0x5A b || is_digit b || (b =? 0x5F) || (b =? dash).
Definition word (l : list Z) : bool := negb (bool_decide (l = [])) && forallb word_byte l.
(** [scriptPathPattern]: segments of word characters with at most one inner dot. *)
Definition script_segment (segment : string) : bool :=
  match split_bytes 0x2E (bytes segment) with
  | [name] => word name
  | [name; extension] => word name && word extension
  | _ => false
  end.
Definition scriptPathPattern (value : string) : bool := forallb script_segment (Split value slash).

Definition validateScriptPath (value : string) : result contract_error unit :=
  if (len value =? 0) || (MaxScriptPathBytes <? len value) || negb (ValidString value) || bool_decide (0 ∈ bytes value) then Err ErrInvalidInput
  else if bool_decide (bslash ∈ bytes value) || HasPrefix value "/" || negb (bool_decide (path_Clean (bytes value) = bytes value)) ||
          negb (scriptPathPattern value) then Err ErrInvalidInput
  else Ok tt.

Definition validateOpaque (value : string) (maxBytes : Z) : bool :=
  negb ((value =?= "") || (maxBytes <? len value) || negb (ValidString value) || bool_decide (0 ∈ bytes value) || (TrimSpace value !=? value)) &&
  forallb (fun r => negb (IsControl r)) (runes value).

Definition validateText (value : string) (maxBytes : Z) : result contract_error unit :=
  if (maxBytes <? len value) || negb (ValidString value) || bool_decide (0 ∈ bytes value) then Err ErrInvalidInput
  else if forallb (fun r => (r =? 0x0D) || (r =? 0x0A) || (r =? 0x09) || negb (IsControl r)) (runes value) then Ok tt
  else Err ErrInvalidInput.

Definition validDigest (value : string) : bool :=
  (len value =? 7 + 64) && HasPrefix value "sha256:" && forallb is_lower_hex (runes (of_bytes (drop 7 (bytes value)))).
Definition validBaseSHA (value : string) : bool := ((len value =? 40) || (len value =? 64)) && forallb is_lower_hex (runes value).

Definition contextPackOutputPath (ruleID sourcePath : string) : string := path_Join [ContextPackPolicyRoot; ruleID; path_Base sourcePath].

(** ** The input *)

Definition validateRuleShape (rule : PolicyRule) : result contract_error unit :=
  if negb (policyIDPattern (PolicyRule_ID rule)) then Err ErrInvalidInput
  else if (PolicyRule_Severity rule !=? SeverityBlocking) && (PolicyRule_Severity rule !=? SeverityAdvisory) then Err ErrInvalidInput
  else
    let? _ := validateText (PolicyRule_Context rule) MaxPolicyContextBytes in
    match PolicyRule_Check rule with
    | None => if PolicyRule_Severity rule =?= SeverityBlocking then Err ErrInvalidInput else Ok tt
    | Some check =>
      if PolicyCheck_Kind check !=? CheckKindScript then Err ErrInvalidInput
      else if PolicyCheck_Expect check !=? ExpectExit0 then Err ErrInvalidInput
      else validateScriptPath (PolicyCheck_Script check)
    end.

Section Contract.
Context (IsDNS1123Subdomain : string -> list string).

Definition normalizeSource (source : PolicySource) : result contract_error PolicySource :=
  if (Source_Name source =?= "") || (MaxPolicyNameBytes <? len (Source_Name source)) ||
     negb (slen (IsDNS1123Subdomain (Source_Name source)) =? 0) then Err ErrMalformedProvenance
  else if negb (validateOpaque (Source_UID source) MaxProvenanceBytes) then Err ErrMalformedProvenance
  else if negb (validateOpaque (Source_ResourceVersion source) MaxProvenanceBytes) then Err ErrMalformedProvenance
  else if Source_Generation source <? 1 then Err ErrMalformedProvenance
  else Ok source.

Definition sourceFromObjectVersion (reference : ObjectVersion) : result contract_error PolicySource :=
  normalizeSource (MkSource (Version_Name reference) (Version_UID reference) (Version_ResourceVersion reference) (Version_Generation reference)).

Definition tooLargeOrInvalidRuleCount (count : Z) : contract_error := if MaxRulesPerPolicy <? count then ErrTooLarge else ErrInvalidInput.

Definition version_order (p : PolicySnapshot) : string * (string * (string * Z)) :=
  let r := Snapshot_Reference p in (Version_Name r, (Version_UID r, (Version_ResourceVersion r, Version_Generation r))).
Definition compare_version : string * (string * (string * Z)) -> string * (string * (string * Z)) -> comparison :=
  compare_pair String.compare (compare_pair String.compare (compare_pair String.compare Z.compare)).

Definition rule_shape_step (seenRules : list string) (rule : PolicyRule) : result contract_error (list string) :=
  let? _ := validateRuleShape rule in
  if bool_decide (PolicyRule_ID rule ∈ seenRules) then Err ErrDuplicateRule else Ok (PolicyRule_ID rule :: seenRules).

(** One policy of [normalizeInput]: what was seen before, and the policies with
    their rules in order. *)
Record normal_acc : Type := MkNormal { n_seenPolicies : list string; n_seenRules : list string; n_totalRules : Z; n_policies : list PolicySnapshot }.
Definition normalize_step (acc : normal_acc) (policy : PolicySnapshot) : result contract_error normal_acc :=
  let? _ := sourceFromObjectVersion (Snapshot_Reference policy) in
  let name := Version_Name (Snapshot_Reference policy) in
  if bool_decide (name ∈ n_seenPolicies acc) then Err ErrDuplicatePolicy
  else
    let count := slen (Snapshot_Rules policy) in
    if (count =? 0) || (MaxRulesPerPolicy <? count) then Err (tooLargeOrInvalidRuleCount count)
    else
      let rules := sort_on PolicyRule_ID String.compare (Snapshot_Rules policy) in
      let? seenRules := fold_result rule_shape_step (n_seenRules acc) rules in
      let totalRules := n_totalRules acc + count in
      if MaxTotalRules <? totalRules then Err ErrTooLarge
      else Ok (MkNormal (name :: n_seenPolicies acc) seenRules totalRules
                 (n_policies acc ++ [MkSnapshot (Snapshot_Reference policy) rules])).

Definition normalizeInput (input : Input) : result contract_error (list PolicySnapshot) :=
  if negb (validBaseSHA (Input_BaseSHA input)) then Err ErrInvalidInput
  else if negb (validDigest (Input_ResolvedSpecDigest input)) then Err ErrInvalidInput
  else if MaxPolicies <? slen (Input_Policies input) then Err ErrTooLarge
  else
    let? acc := fold_result normalize_step (MkNormal [] [] 0 []) (sort_on version_order compare_version (Input_Policies input)) in
    Ok (n_policies acc).

(** *** Its canonical size *)

Definition check_input_json (c : PolicyCheck) : json :=
  JObject [("kind", JString (PolicyCheck_Kind c)); ("script", JString (PolicyCheck_Script c)); ("expect", JString (PolicyCheck_Expect c))].
Definition rule_input_json (r : PolicyRule) : json :=
  JObject ([("id", JString (PolicyRule_ID r)); ("severity", JString (PolicyRule_Severity r))] ++
    omit_empty "context" (PolicyRule_Context r) ++ omit_nil "check" check_input_json (PolicyRule_Check r)).
Definition version_json (v : ObjectVersion) : json :=
  JObject [("name", JString (Version_Name v)); ("uid", JString (Version_UID v)); ("resourceVersion", JString (Version_ResourceVersion v));
    ("generation", JInt (Version_Generation v))].
Definition snapshot_json (p : PolicySnapshot) : json :=
  JObject [("reference", version_json (Snapshot_Reference p)); ("spec", JObject [("rules", JArray (map rule_input_json (Snapshot_Rules p)))])].
Definition marshalInput (baseSHA resolvedSpecDigest : string) (policies : list PolicySnapshot) : list Z :=
  Marshal (JObject [("baseSHA", JString baseSHA); ("resolvedSpecDigest", JString resolvedSpecDigest); ("policies", JArray (map snapshot_json policies))]).

(** ** Rules *)

Definition loadScript (loader : option ScriptLoader) (baseSHA sourcePath : string) : result contract_error LoadedScript :=
  match loader with
  | None => Err ErrScriptMissing
  | Some loader =>
    match loader baseSHA sourcePath with
    | Err e =>
      match find (fun sentinel => bool_decide (sentinel ∈ e)) [ErrScriptMissing; ErrScriptMismatch; ErrUnsafeScript] with
      | Some sentinel => Err sentinel
      | None => Err ErrScriptLoad
      end
    | Ok loaded =>
      if (Loaded_BaseSHA loaded =?= "") && (Loaded_Path loaded =?= "") && (Loaded_Kind loaded =?= "") && (slen (Loaded_Bytes loaded) =? 0) &&
         (Loaded_Digest loaded =?= "") then Err ErrScriptMissing
      else Ok loaded
    end
  end.

Definition compileRule (baseSHA : string) (source : PolicySource) (raw : PolicyRule) (loader : option ScriptLoader) : result contract_error Rule :=
  match PolicyRule_Check raw with
  | None => Ok (MkRule (PolicyRule_ID raw) (PolicyRule_Severity raw) (PolicyRule_Context raw) source None "" "" "" [] false)
  | Some check =>
    let sourcePath := PolicyCheck_Script check in
    let? loaded := loadScript loader baseSHA sourcePath in
    if (Loaded_BaseSHA loaded !=? baseSHA) || (Loaded_Path loaded !=? sourcePath) then Err ErrScriptMismatch
    else if Loaded_Kind loaded !=? FileKindRegular then Err ErrUnsafeScript
    else if slen (Loaded_Bytes loaded) =? 0 then Err ErrScriptMissing
    else if MaxScriptBytes <? slen (Loaded_Bytes loaded) then Err ErrTooLarge
    else if negb (valid_utf8 (Loaded_Bytes loaded)) || bool_decide (0 ∈ Loaded_Bytes loaded) then Err ErrUnsafeScript
    else if negb (validDigest (Loaded_Digest loaded)) then Err ErrScriptMismatch
    else
      let computed := digestBytes (Loaded_Bytes loaded) in
      if computed !=? Loaded_Digest loaded then Err ErrScriptMismatch
      else
        let outputPath := contextPackOutputPath (PolicyRule_ID raw) sourcePath in
        if MaxArgBytes <? len outputPath then Err ErrTooLarge
        else Ok (MkRule (PolicyRule_ID raw) (PolicyRule_Severity raw) (PolicyRule_Context raw) source
                   (Some (MkCheck CheckKindScript ExpectExit0 ExpectedExitCode)) sourcePath outputPath computed (Loaded_Bytes loaded) true)
  end.

(** ** The manifest *)

Definition manifest_check (rule : Rule) (check : Check) : ManifestCheck :=
  MkManifestCheck (Check_Kind check) (Check_Expect check) (Check_ExpectedExitCode check) (Rule_ScriptSourcePath rule) (Rule_ContextPackPath rule)
    (Rule_ScriptDigest rule).
Definition manifest_rule (rule : Rule) : ManifestRule :=
  MkManifestRule (Rule_ID rule) (Rule_Severity rule) (Rule_Context rule) (Rule_Source rule) (failureMode rule)
    (manifest_check rule <$> Rule_Check rule).
Definition makeManifest (baseSHA resolvedSpecDigest : string) (rules : list Rule) : Manifest :=
  MkManifest SchemaVersion baseSHA resolvedSpecDigest (map manifest_rule rules).

Definition source_json (s : PolicySource) : json :=
  JObject [("name", JString (Source_Name s)); ("uid", JString (Source_UID s)); ("resourceVersion", JString (Source_ResourceVersion s));
    ("generation", JInt (Source_Generation s))].
Definition mcheck_json (c : ManifestCheck) : json :=
  JObject [("kind", JString (MCheck_Kind c)); ("expect", JString (MCheck_Expect c)); ("expectedExitCode", JInt (MCheck_ExpectedExitCode c));
    ("scriptSourcePath", JString (MCheck_ScriptSourcePath c)); ("contextPackOutputPath", JString (MCheck_ContextPackOutputPath c));
    ("scriptDigest", JString (MCheck_ScriptDigest c))].
Definition mrule_fields (r : ManifestRule) : list (string * json) :=
  [("id", JString (MRule_ID r)); ("severity", JString (MRule_Severity r))] ++ omit_empty "context" (MRule_Context r) ++
  [("source", source_json (MRule_Source r)); ("failureMode", JString (MRule_FailureMode r))] ++ omit_nil "check" mcheck_json (MRule_Check r).
Definition manifest_json (m : Manifest) : json :=
  JObject [("schemaVersion", JString (Manifest_SchemaVersion m)); ("baseSHA", JString (Manifest_BaseSHA m));
    ("resolvedSpecDigest", JString (Manifest_ResolvedSpecDigest m)); ("rules", JArray (map (fun r => JObject (mrule_fields r)) (Manifest_Rules m)))].

Definition marshalManifest (manifest : Manifest) : result contract_error (list Z) :=
  match Normalize (Marshal (manifest_json manifest)) with
  | Err _ => Err ErrInvalidInput
  | Ok normalized =>
    if negb (bool_decide (is_Some (parse_tree normalized))) || bool_decide (0x0A ∈ normalized) || bool_decide (0x0D ∈ normalized) ||
       bool_decide (0x09 ∈ normalized) then Err ErrInvalidInput
    else Ok normalized
  end.

(** ** [Compile] *)

(** The loop over the rules: the bytes of the scripts and the rules so far. *)
Definition compile_rule_step (baseSHA : string) (loader : option ScriptLoader) (source : PolicySource) (acc : Z * list Rule) (raw : PolicyRule) :
  result contract_error (Z * list Rule) :=
  let? rule := compileRule baseSHA source raw loader in
  let totalScriptBytes := acc.1 + slen (Rule_scriptBytes rule) in
  if MaxTotalScriptBytes <? totalScriptBytes then Err ErrTooLarge else Ok (totalScriptBytes, acc.2 ++ [rule]).
Definition compile_policy_step (baseSHA : string) (loader : option ScriptLoader) (acc : Z * list Rule) (policy : PolicySnapshot) :
  result contract_error (Z * list Rule) :=
  let? source := sourceFromObjectVersion (Snapshot_Reference policy) in
  fold_result (compile_rule_step baseSHA loader source) acc (Snapshot_Rules policy).

Definition Compile (input : Input) (loader : option ScriptLoader) : result contract_error Compiled :=
  let? policies := normalizeInput input in
  let canonicalInput := marshalInput (Input_BaseSHA input) (Input_ResolvedSpecDigest input) policies in
  if MaxInputBytes <? slen canonicalInput then Err ErrTooLarge
  else
    let? acc := fold_result (compile_policy_step (Input_BaseSHA input) loader) (0, []) policies in
    let rules := sort_on Rule_ID String.compare acc.2 in
    let manifest := makeManifest (Input_BaseSHA input) (Input_ResolvedSpecDigest input) rules in
    let? manifestJSON := marshalManifest manifest in
    if MaxManifestBytes <? slen manifestJSON then Err ErrTooLarge
    else Ok (MkCompiled rules manifest manifestJSON (digestBytes manifestJSON)).

(** ** Projections *)

Definition contextPackRule (r : Rule) : ContextPack.PolicyRule :=
  ContextPack.MkPolicyRule (Rule_ID r) (Rule_Severity r) (Rule_Context r) (Rule_ScriptSourcePath r) (Rule_scriptBytes r) (Rule_ScriptDigest r).
Definition ContextPackRules (c : Compiled) : list ContextPack.PolicyRule := map contextPackRule (Compiled_rules c).

Definition checkDescriptor (r : Rule) : CheckDescriptor :=
  let check := default (MkCheck "" "" 0) (Rule_Check r) in
  MkDescriptor "" (Rule_ID r) (Rule_Severity r) (Rule_Severity r =?= SeverityBlocking) (HasScript r)
    (match Rule_Check r with Some _ => [ScriptRunner; Rule_ContextPackPath r] | None => [] end)
    (Rule_ScriptSourcePath r) (Rule_ContextPackPath r) (Rule_ScriptDigest r)
    (Check_Kind check) (Check_Expect check) (Check_ExpectedExitCode check) (failureMode r).
Definition selfCheck (r : Rule) : CheckDescriptor := checkDescriptor r.
Definition gateCheck (r : Rule) : GateCheckDescriptor := MkGateDescriptor (checkDescriptor r) (Rule_Severity r =?= SeverityBlocking).

Definition with_contract (digest : string) (d : CheckDescriptor) : CheckDescriptor :=
  MkDescriptor digest (Descriptor_RuleID d) (Descriptor_Severity d) (Descriptor_Blocking d) (Descriptor_HasScript d) (Descriptor_Argv d)
    (Descriptor_ScriptSourcePath d) (Descriptor_ContextPackOutputPath d) (Descriptor_ScriptDigest d) (Descriptor_Kind d) (Descriptor_Expect d)
    (Descriptor_ExpectedExitCode d) (Descriptor_FailureMode d).
Definition SelfChecks (c : Compiled) : list CheckDescriptor :=
  map (fun r => with_contract (Compiled_digest c) (selfCheck r)) (Compiled_rules c).
Definition GateChecks (c : Compiled) : list GateCheckDescriptor :=
  map (fun r => let g := gateCheck r in MkGateDescriptor (with_contract (Compiled_digest c) (Gate_Check g)) (Gate_RejectsOnFailure g)) (Compiled_rules c).

(** ** Validation of the Gate's projection *)

Definition script_binding (check : CheckDescriptor) : bool :=
  (Descriptor_Kind check =?= CheckKindScript) && (Descriptor_Expect check =?= ExpectExit0) &&
  (Descriptor_ExpectedExitCode check =? ExpectedExitCode) &&
  bool_decide (Descriptor_Argv check = [ScriptRunner; Descriptor_ContextPackOutputPath check]) &&
  (Descriptor_ScriptSourcePath check !=? "") &&
  (Descriptor_ContextPackOutputPath check =?= contextPackOutputPath (Descriptor_RuleID check) (Descriptor_ScriptSourcePath check)) &&
  validDigest (Descriptor_ScriptDigest check).
Definition no_script_fields (check : CheckDescriptor) : bool :=
  (Descriptor_Kind check =?= "") && (Descriptor_Expect check =?= "") && (Descriptor_ExpectedExitCode check =? 0) &&
  (slen (Descriptor_Argv check) =? 0) && (Descriptor_ScriptSourcePath check =?= "") && (Descriptor_ContextPackOutputPath check =?= "") &&
  (Descriptor_ScriptDigest check =?= "").

(** The rule before is the first of [seen]. *)
Definition gate_check_step (seen : list string) (gateCheck : GateCheckDescriptor) : result contract_error (list string) :=
  let check := Gate_Check gateCheck in
  let id := Descriptor_RuleID check in
  if (id =?= "") || negb (policyIDPattern id) then Err ErrInvalidInput
  else if bool_decide (id ∈ seen) then Err ErrDuplicateRule
  else if match seen with previous :: _ => negb (bool_decide (String.compare previous id = Lt)) | [] => false end then Err ErrInvalidInput
  else if negb (validDigest (Descriptor_ContractDigest check)) ||
          ((Descriptor_Severity check !=? SeverityBlocking) && (Descriptor_Severity check !=? SeverityAdvisory)) ||
          (Descriptor_Blocking check !=? (Descriptor_Severity check =?= SeverityBlocking)) ||
          (Gate_RejectsOnFailure gateCheck !=? Descriptor_Blocking check) then Err ErrInvalidInput
  else if (Descriptor_FailureMode check !=? FailureReject) && (Descriptor_FailureMode check !=? FailureAdvisory) then Err ErrInvalidInput
  else
    let? _ := (if Descriptor_HasScript check
               then (if negb (script_binding check) then Err ErrInvalidInput else validateScriptPath (Descriptor_ScriptSourcePath check))
               else (if negb (no_script_fields check) then Err ErrInvalidInput else Ok tt)) in
    Ok (id :: seen).

Definition ValidateGateChecks (checks : list GateCheckDescriptor) : result contract_error unit :=
  if MaxTotalRules <? slen checks then Err ErrTooLarge
  else let? _ := fold_result gate_check_step [] checks in Ok tt.

(** ** [DecodeManifest] *)

Definition pointer_field {A : Type} (decode : list (string * tree) -> option A) (v : option tree) : option (option A) :=
  match v with
  | None | Some VNull => Some None
  | Some (VObject members) => Some <$> decode members
  | _ => None
  end.

Definition source_names : list string := ["name"; "uid"; "resourceVersion"; "generation"].
Definition read_source : list (string * tree) -> option PolicySource := known source_names (fun o =>
  let f := field source_names o in
  name ← string_field (f "name"); uid ← string_field (f "uid"); version ← string_field (f "resourceVersion"); generation ← int_field (f "generation");
  Some (MkSource name uid version generation)).

Definition mcheck_names : list string := ["kind"; "expect"; "expectedExitCode"; "scriptSourcePath"; "contextPackOutputPath"; "scriptDigest"].
Definition read_mcheck : list (string * tree) -> option ManifestCheck := known mcheck_names (fun o =>
  let f := field mcheck_names o in
  kind ← string_field (f "kind"); expect ← string_field (f "expect"); code ← int_field (f "expectedExitCode");
  source ← string_field (f "scriptSourcePath"); output ← string_field (f "contextPackOutputPath"); digest ← string_field (f "scriptDigest");
  Some (MkManifestCheck kind expect code source output digest)).

Definition mrule_names : list string := ["id"; "severity"; "context"; "source"; "failureMode"; "check"].
Definition read_mrule : list (string * tree) -> option ManifestRule := known mrule_names (fun o =>
  let f := field mrule_names o in
  id ← string_field (f "id"); severity ← string_field (f "severity"); context ← string_field (f "context");
  source ← struct_field read_source (f "source"); mode ← string_field (f "failureMode"); check ← pointer_field read_mcheck (f "check");
  Some (MkManifestRule id severity context source mode check)).

Definition manifest_names : list string := ["schemaVersion"; "baseSHA"; "resolvedSpecDigest"; "rules"].
Definition read_manifest : list (string * tree) -> option Manifest := known manifest_names (fun o =>
  let f := field manifest_names o in
  version ← string_field (f "schemaVersion"); base ← string_field (f "baseSHA"); spec ← string_field (f "resolvedSpecDigest");
  rules ← list_field (struct_item read_mrule) (f "rules");
  Some (MkManifest version base spec rules)).

Definition manifest_binding (id : string) (check : ManifestCheck) : bool :=
  (MCheck_Kind check =?= CheckKindScript) && (MCheck_Expect check =?= ExpectExit0) && (MCheck_ExpectedExitCode check =? ExpectedExitCode) &&
  (MCheck_ScriptSourcePath check !=? "") && (MCheck_ContextPackOutputPath check !=? "") &&
  (MCheck_ContextPackOutputPath check =?= contextPackOutputPath id (MCheck_ScriptSourcePath check)) && validDigest (MCheck_ScriptDigest check).

Definition decode_rule (entry : ManifestRule) (source : PolicySource) : result contract_error Rule :=
  match MRule_Check entry with
  | None => Ok (MkRule (MRule_ID entry) (MRule_Severity entry) (MRule_Context entry) source None "" "" "" [] false)
  | Some check =>
    if negb (manifest_binding (MRule_ID entry) check) then Err ErrInvalidInput
    else
      let? _ := validateScriptPath (MCheck_ScriptSourcePath check) in
      Ok (MkRule (MRule_ID entry) (MRule_Severity entry) (MRule_Context entry) source
            (Some (MkCheck (MCheck_Kind check) (MCheck_Expect check) (MCheck_ExpectedExitCode check)))
            (MCheck_ScriptSourcePath check) (MCheck_ContextPackOutputPath check) (MCheck_ScriptDigest check) [] true)
  end.

(** The entry before is the first of the names seen. *)
Definition decode_step (acc : list string * list Rule) (entry : ManifestRule) : result contract_error (list string * list Rule) :=
  let id := MRule_ID entry in
  if (id =?= "") || negb (policyIDPattern id) then Err ErrInvalidInput
  else if bool_decide (id ∈ acc.1) then Err ErrDuplicateRule
  else if match acc.1 with previous :: _ => negb (bool_decide (String.compare previous id = Lt)) | [] => false end then Err ErrInvalidInput
  else
    let? _ := validateText (MRule_Context entry) MaxPolicyContextBytes in
    let? source := normalizeSource (MRule_Source entry) in
    if (MRule_Severity entry !=? SeverityBlocking) && (MRule_Severity entry !=? SeverityAdvisory) then Err ErrInvalidInput
    else
      let wantMode := if MRule_Severity entry =?= SeverityBlocking then FailureReject else FailureAdvisory in
      if MRule_FailureMode entry !=? wantMode then Err ErrInvalidInput
      else
        let? rule := decode_rule entry source in
        Ok (id :: acc.1, acc.2 ++ [rule]).

Definition DecodeManifest (body : list Z) : result contract_error Compiled :=
  if (slen body =? 0) || (MaxManifestBytes <? slen body) || negb (is_ok (ValidateObject body)) then Err ErrInvalidInput
  else if match Normalize body with Ok normalized => negb (bool_decide (normalized = body)) | Err _ => true end then Err ErrInvalidInput
  else
    match parse_tree body ≫= struct_item read_manifest with
    | None => Err ErrInvalidInput
    | Some manifest =>
      if (Manifest_SchemaVersion manifest !=? SchemaVersion) || negb (validBaseSHA (Manifest_BaseSHA manifest)) ||
         negb (validDigest (Manifest_ResolvedSpecDigest manifest)) then Err ErrInvalidInput
      else if MaxTotalRules <? slen (Manifest_Rules manifest) then Err ErrTooLarge
      else
        let? acc := fold_result decode_step ([], []) (Manifest_Rules manifest) in
        Ok (MkCompiled acc.2 manifest body (digestBytes body))
    end.
End Contract.
