(* ===== verification/PolicyContractRules.v ===== *)
(** * Policy contracts: the manifest, and what compiles

    The manifest of a contract whose texts and numbers are within the strict
    contract is written in canonical JSON of the same size as [json.Marshal]'s, and
    it reads back.  The inputs that the compiler accepts and the rules it makes of
    them are stated without the order of its loops. *)

From stdpp Require Import pretty.
From S2P Require Import Prelude Order GoStrings Paths Utf8 Digest Digits GoJson Unmarshal UnmarshalSpec StrictJson StrictJsonSpec StrictJsonNumbers.
From S2P Require Import StrictJsonCanon StrictJsonRoundTrip StrictJsonMarshal ContextPack ContextPackOrder ContextPackUsage ContextPackParts.
From S2P Require Import ContextPackFiles PolicyContract.
Local Open Scope go_scope.
Local Open Scope string_scope.
Local Open Scope Z_scope.
Local Open Scope list_scope.

(** ** Within the contract *)

Record source_wf (s : PolicySource) : Prop := {
  sw_texts : strict_texts [Source_Name s; Source_UID s; Source_ResourceVersion s]; sw_generation : int64 (Source_Generation s) = true
}.
Record mcheck_wf (c : ManifestCheck) : Prop := {
  cw_texts : strict_texts [MCheck_Kind c; MCheck_Expect c; MCheck_ScriptSourcePath c; MCheck_ContextPackOutputPath c; MCheck_ScriptDigest c];
  cw_code : int64 (MCheck_ExpectedExitCode c) = true
}.
Record mrule_wf (r : ManifestRule) : Prop := {
  rw_texts : strict_texts [MRule_ID r; MRule_Severity r; MRule_Context r; MRule_FailureMode r];
  rw_source : source_wf (MRule_Source r);
  rw_check : match MRule_Check r with Some c => mcheck_wf c | None => True end
}.
Record manifest_wf (m : Manifest) : Prop := {
  mw_texts : strict_texts [Manifest_SchemaVersion m; Manifest_BaseSHA m; Manifest_ResolvedSpecDigest m];
  mw_rules : Forall mrule_wf (Manifest_Rules m);
  mw_count : slen (Manifest_Rules m) <= maxArrayItems
}.

Lemma source_strict depth s : depth < maxDepth -> source_wf s -> strict_json depth (source_json s) = true.
Proof. intros Hd [H ?]. take_texts. unfold source_json. strict_struct. Qed.
Lemma mcheck_strict depth c : depth < maxDepth -> mcheck_wf c -> strict_json depth (mcheck_json c) = true.
Proof. intros Hd [H ?]. take_texts. unfold mcheck_json. strict_struct. Qed.

Lemma mrule_strict depth r : depth + 1 < maxDepth -> mrule_wf r -> strict_json depth (JObject (mrule_fields r)) = true.
Proof.
  intros Hd [H Hs Hc]. take_texts.
  assert (Hj : strict_json (depth + 1) (source_json (MRule_Source r)) = true) by (apply source_strict; [lia|done]).
  assert (Hk : match MRule_Check r with Some c => strict_json (depth + 1) (mcheck_json c) = true | None => True end)
    by (destruct (MRule_Check r); [apply mcheck_strict; [lia|done]|done]).
  unfold mrule_fields, omit_empty, omit_nil.
  case_bool_decide; destruct (MRule_Check r) as [c|]; cbn [app]; strict_struct.
Qed.

Lemma manifest_strict m : manifest_wf m -> strict_json 0 (manifest_json m) = true.
Proof.
  intros [H HR Hn]. take_texts. unfold manifest_json. strict_struct. apply strict_array.
  split_and!; [unfold maxDepth; lia|unfold slen in *; by rewrite length_map|].
  apply Forall_map. eapply Forall_impl; [exact HR|]. intros r Hr. apply mrule_strict; [unfold maxDepth; lia|done].
Qed.

(** ** Writing *)

(** Written JSON has no control characters. *)
Notation printable := (Forall (fun b => 0x20 <= b)).

Lemma escape_printable r : printable (unicode_escape r).
Proof.
  assert (Hx : forall x, 0x20 <= hex_digit (x mod 16)).
  { intros x. pose proof (Z.mod_pos_bound x 16). unfold hex_digit. destruct (_ <? _); lia. }
  unfold unicode_escape, bslash. repeat (apply Forall_cons; split; [try lia; apply Hx|]). constructor.
Qed.

Lemma json_rune_printable r : scalar r.1 -> printable (json_rune r).
Proof.
  destruct r as [r ok]. cbn [fst]. intros Hs. unfold json_rune. destruct ok; cbn [negb]; [|apply escape_printable].
  destruct (_ || _) eqn:E in |- *.
  { assert (r = quote \/ r = bslash) as [-> | ->] by (breflect; lia); by repeat constructor. }
  do 5 (match goal with |- context [r =? ?c] => destruct (r =? c) end; [by repeat constructor|]).
  destruct (_ || _) eqn:E' in |- *; [apply escape_printable|]. destruct (_ || _) in |- *; [apply escape_printable|].
  apply orb_false_iff in E' as [E' _]. apply Z.ltb_ge in E'.
  destruct (encode_rune_bytes r Hs) as [[_ ->]|(_ & Hh & _)]; [by apply Forall_singleton|]. eapply Forall_impl; [exact Hh|]. cbn. lia.
Qed.

Lemma json_string_printable s : printable (json_string (bytes s)).
Proof.
  unfold json_string. apply Forall_cons. split; [done|]. apply Forall_app. split; [|by apply Forall_singleton].
  pose proof (bytes_scalar s) as Hb. induction Hb as [|r l Hr _ IH]; [constructor|]. cbn [flat_map]. apply Forall_app.
  split; [by apply json_rune_printable|done].
Qed.

Lemma digits_printable l : digits l -> printable l.
Proof. intros H. eapply Forall_impl; [exact H|]. intros b Hb%is_digit_range. unfold zero in Hb. lia. Qed.

Lemma pretty_printable (n : Z) : printable (bytes (pretty n)).
Proof.
  destruct n as [|p|p]; [by repeat constructor| |]; destruct (pretty_positive_digits p) as (l & El & Hd & _).
  - change (bytes (pretty (Zpos p))) with (bytes (pretty p)). rewrite El. by apply digits_printable.
  - change (bytes (pretty (Zneg p))) with (0x2D :: bytes (pretty p)). rewrite El. apply Forall_cons. split; [done|]. by apply digits_printable.
Qed.

Lemma commas_printable X : Forall printable X -> printable (commas X).
Proof.
  induction X as [|x [|y X] IH]; intros HX; [constructor|by inversion HX|]. apply Forall_cons in HX as [Hx HX].
  change (commas (x :: y :: X)) with (x ++ 0x2C :: commas (y :: X)). apply Forall_app. split; [done|]. apply Forall_cons. split; [done|by apply IH].
Qed.

Lemma marshal_printable j : printable (Marshal j).
Proof.
  induction j as [|b|n|s|items IH|fields IH] using json_induction; cbn [Marshal].
  - by repeat constructor.
  - destruct b; by repeat constructor.
  - apply pretty_printable.
  - apply json_string_printable.
  - apply Forall_cons. split; [done|]. apply Forall_app. split; [|by apply Forall_singleton]. by apply commas_printable, Forall_map.
  - apply Forall_cons. split; [done|]. apply Forall_app. split; [|by apply Forall_singleton]. apply commas_printable, Forall_map.
    eapply Forall_impl; [exact IH|]. intros f Hf. apply Forall_app. split; [apply json_string_printable|]. by apply Forall_cons.
Qed.

Lemma marshalManifest_exact m : manifest_wf m ->
  marshalManifest m =
    if MaxDocumentBytes <? slen (Marshal (manifest_json m)) then Err ErrInvalidInput else Ok (Marshal (sorted_json (manifest_json m))).
Proof.
  intros Hm. pose proof (manifest_strict m Hm) as Hs. unfold marshalManifest. destruct (MaxDocumentBytes <? _) eqn:E in |- *.
  - apply Z.ltb_lt in E. by rewrite Normalize_large.
  - apply Z.ltb_ge in E. rewrite Normalize_marshal by done. rewrite bool_decide_eq_true_2 by (by rewrite parse_tree_sorted).
    pose proof (marshal_printable (sorted_json (manifest_json m))) as Hb. rewrite Forall_forall in Hb.
    assert (Hout : forall b, b < 0x20 -> b ∉ Marshal (sorted_json (manifest_json m))) by (intros b Hlt Hin; specialize (Hb b Hin); lia).
    rewrite !bool_decide_eq_false_2 by (apply Hout; lia). done.
Qed.

(** ** Reading *)

Lemma source_reads s : source_wf s -> struct_item read_source (tree_of (sorted_json (source_json s))) = Some s.
Proof. intros [H ?]. take_texts. unfold source_json, read_source. read_known. read_fields. by destruct s. Qed.
Lemma mcheck_reads c : mcheck_wf c -> struct_item read_mcheck (tree_of (sorted_json (mcheck_json c))) = Some c.
Proof. intros [H ?]. take_texts. unfold mcheck_json, read_mcheck. read_known. read_fields. by destruct c. Qed.

Lemma mrule_reads r : mrule_wf r -> struct_item read_mrule (tree_of (sorted_json (JObject (mrule_fields r)))) = Some r.
Proof.
  intros [H Hs Hc]. take_texts.
  assert (HS : struct_field read_source (Some (tree_of (sorted_json (source_json (MRule_Source r))))) = Some (MRule_Source r)) by (by apply source_reads).
  assert (HC : pointer_field read_mcheck (match MRule_Check r with Some c => Some (tree_of (sorted_json (mcheck_json c))) | None => None end) = Some (MRule_Check r)).
  { destruct (MRule_Check r) as [c|]; [|done]. pose proof (mcheck_reads c Hc) as E. unfold struct_item, struct_field in E. unfold pointer_field.
    unfold mcheck_json in E |- *. rewrite tree_of_sorted in E |- *. by rewrite E. }
  destruct r as [id severity context source mode check].
  cbn [MRule_ID MRule_Severity MRule_Context MRule_Source MRule_FailureMode MRule_Check] in *.
  unfold mrule_fields, omit_empty, omit_nil, read_mrule.
  cbn [MRule_ID MRule_Severity MRule_Context MRule_Source MRule_FailureMode MRule_Check].
  case_bool_decide as Ec; destruct check as [c|]; cbn [app]; read_known; read_fields;
    change (string_field None) with (Some ""); cbn [mbind option_bind]; rewrite HS; cbn [mbind option_bind]; rewrite HC; cbn [mbind option_bind];
    by rewrite ?Ec.
Qed.

Lemma contract_manifest_reads m : manifest_wf m -> struct_item read_manifest (tree_of (sorted_json (manifest_json m))) = Some m.
Proof.
  intros [H HR _]. take_texts. unfold manifest_json, read_manifest. read_known. read_fields.
  rewrite map_map. change (JArray (map ?f ?l)) with (JArray (map f l)).
  rewrite (list_read (fun r => sorted_json (JObject (mrule_fields r)))).
  - cbn [mbind option_bind]. by destruct m.
  - eapply Forall_impl; [exact HR|]. apply mrule_reads.
Qed.

(** ** Texts *)

Lemma validDigest_iff s : validDigest s = true <-> ValidDigest s = true.
Proof.
  rewrite ValidDigest_spec. unfold validDigest. rewrite !andb_true_iff, Z.eqb_eq. unfold HasPrefix. rewrite bool_decide_eq_true, len_bytes.
  assert (Hr : forall h, bytes s = bytes "sha256:" ++ h -> (forallb is_lower_hex (runes (of_bytes (drop 7 (bytes s)))) = true <-> Forall (fun b => is_lower_hex b = true) h)).
  { intros h E. rewrite E. change 7%nat with (length (bytes "sha256:")). rewrite drop_app_length. unfold runes.
    rewrite decode_forall_ascii by (intros r Hr%lower_hex_bounds; lia). pose proof (bytes_range s) as Hb. rewrite E in Hb. apply Forall_app in Hb as [_ Hb].
    rewrite bytes_of_bytes by done. apply forallb_true. }
  split.
  - intros [[Hl [h E]] Hh]. exists h. change (bytes DigestPrefix) with (bytes "sha256:"). split_and!; [done| |by apply (Hr h E)].
    rewrite E in Hl. unfold slen in Hl. rewrite length_app in Hl. cbn in Hl. lia.
  - intros (h & E & Hl & Hh). split_and!; [|by exists h|by apply (Hr h E)]. rewrite E. unfold slen. by rewrite length_app, Hl.
Qed.
Lemma digestBytes_valid body : validDigest (digestBytes body) = true.
Proof. apply validDigest_iff, ValidDigest_digestBytes. Qed.
Lemma digest_text s : validDigest s = true -> wf_string s = true.
Proof. rewrite validDigest_iff. intros H. by apply ValidDigest_text. Qed.

Lemma sha_text s : validBaseSHA s = true -> wf_string s = true.
Proof.
  unfold validBaseSHA. rewrite andb_true_iff, orb_true_iff, !Z.eqb_eq. unfold runes.
  rewrite decode_forall_ascii by (intros r Hr%lower_hex_bounds; lia). rewrite forallb_true. intros [Hl H]. apply ascii_text.
  - eapply Forall_impl; [exact H|]. cbn. intros b Hb%lower_hex_bounds. lia.
  - unfold maxStringBytes. destruct Hl as [-> | ->]; done.
Qed.

Lemma id_name id : policyIDPattern id = true -> name_ok id /\ len id <= 64.
Proof.
  unfold policyIDPattern. rewrite !andb_true_iff, Z.leb_le, forallb_true. intros [[Hl Hf] Hh]. split; [|done]. split.
  - intros ->. by cbn in Hh.
  - eapply Forall_impl; [exact Hf|]. done.
Qed.
Lemma name_text s : name_ok s -> len s <= maxStringBytes -> wf_string s = true.
Proof. intros [_ H] Hl. apply ascii_text; [|done]. eapply Forall_impl; [exact H|]. cbn. intros b Hb%name_byte_range. lia. Qed.

(** A text without NUL bytes within its bound. *)
Lemma plain_text s n : ValidString s = true -> 0 ∉ bytes s -> len s <= n -> n <= maxStringBytes -> wf_string s = true.
Proof.
  intros Hv H0 Hl Hn. unfold wf_string. rewrite Hv, (proj2 (Z.leb_le _ _)) by lia. rewrite andb_true_r. cbn [andb]. apply forallb_true, Forall_forall.
  intros b Hb. apply Z.ltb_lt. pose proof (bytes_range s) as Hr. rewrite Forall_forall in Hr. specialize (Hr b Hb). unfold is_byte in Hr.
  destruct (Z.eq_dec b 0) as [->|]; [done|lia].
Qed.
Lemma context_text s : validateText s MaxPolicyContextBytes = Ok tt -> wf_string s = true.
Proof.
  unfold validateText. destruct (_ || _) eqn:E in |- *; [done|]. intros _. rewrite !orb_false_iff, negb_false_iff, bool_decide_eq_false, Z.ltb_ge in E.
  destruct E as [[E1 E2] E3]. by apply (plain_text s MaxPolicyContextBytes).
Qed.
Lemma opaque_text s : validateOpaque s MaxProvenanceBytes = true -> wf_string s = true.
Proof.
  unfold validateOpaque. rewrite andb_true_iff, negb_true_iff, !orb_false_iff, negb_false_iff, !bool_decide_eq_false, Z.ltb_ge.
  intros [[[[[_ E1] E2] E3] _] _]. by apply (plain_text s MaxProvenanceBytes).
Qed.

(** ** Script paths *)

Lemma word_range l : word l = true -> l <> [] /\ Forall (fun b => 0x2D <= b < 0x80 /\ b <> 0x2E) l.
Proof.
  unfold word. rewrite andb_true_iff, negb_true_iff, bool_decide_eq_false, forallb_true. intros [Hn H]. split; [done|].
  eapply Forall_impl; [exact H|]. unfold word_byte, is_digit, dash. intros b. cbn. rewrite !orb_true_iff, !between_spec, !Z.eqb_eq. lia.
Qed.

Lemma segment_plain s : script_segment s = true -> plain_segment (bytes s) /\ Forall (fun b => 0x2D <= b < 0x80) (bytes s).
Proof.
  unfold script_segment. intros H. rewrite <- (join_split 0x2E (bytes s)) at 1 2.
  destruct (split_bytes 0x2E (bytes s)) as [|name [|ext [|]]]; try done.
  - apply word_range in H as [Hn Hf]. cbn [join]. split; [|eapply Forall_impl; [exact Hf|]; cbn; lia].
    unfold plain_segment, dot_segment, dotdot_segment. split_and!; [done|intros ->|intros ->]; apply Forall_inv in Hf; lia.
  - apply andb_true_iff in H as [[Hn Hf]%word_range [Hn' Hf']%word_range]. cbn [join]. destruct name as [|b name]; [done|]. split.
    + unfold plain_segment, dot_segment, dotdot_segment. apply Forall_inv in Hf. split_and!; [done|intros [= -> _]; lia|intros [= -> _]; lia].
    + apply Forall_app. split; [eapply Forall_impl; [exact Hf|]; cbn; lia|]. apply Forall_cons. split; [lia|]. eapply Forall_impl; [exact Hf'|]. cbn. lia.
Qed.

Lemma script_path_ok s : validateScriptPath s = Ok tt -> path_ok s /\ len s <= MaxScriptPathBytes /\ Forall (fun b => 0x2D <= b < 0x80) (bytes s).
Proof.
  unfold validateScriptPath. destruct (_ || _) eqn:E in |- *; [done|]. destruct (_ || _) eqn:E' in |- *; [done|]. intros _.
  rewrite !orb_false_iff, negb_false_iff, bool_decide_eq_false, Z.ltb_ge in E. destruct E as [[[_ Hl] Hv] _].
  apply orb_false_iff in E' as [_ Hp%negb_false_iff]. unfold scriptPathPattern in Hp. rewrite forallb_true in Hp.
  assert (Hs : Forall (fun l => plain_segment l /\ Forall (fun b => 0x2D <= b < 0x80) l) (split_bytes slash (bytes s))).
  { rewrite <- bytes_Split. apply Forall_map. eapply Forall_impl; [exact Hp|]. apply segment_plain. }
  split_and!; [split; [done|eapply Forall_impl; [exact Hs|]; by intros ? []]|done|].
  rewrite <- (join_split slash (bytes s)). revert Hs. generalize (split_bytes slash (bytes s)). intros parts.
  induction parts as [|p [|q parts] IH]; intros Hs; [constructor|by apply Forall_inv in Hs as [_ ?]|].
  apply Forall_cons in Hs as [[_ Hp'] Hs]. cbn [join]. apply Forall_app. split; [done|]. apply Forall_cons. split; [unfold slash; lia|by apply IH].
Qed.

Lemma join_part (P : Z -> Prop) pre part suf : Forall P (join slash (pre ++ part :: suf)) ->
  Forall P part /\ slen part <= slen (join slash (pre ++ part :: suf)).
Proof.
  assert (Hc : forall x y l, join slash (x :: y :: l) = x ++ slash :: join slash (y :: l)) by done.
  induction pre as [|p pre IH]; cbn [app].
  - destruct suf as [|q suf]; [done|]. rewrite Hc, Forall_app. intros [H _]. split; [done|]. unfold slen. rewrite length_app. lia.
  - destruct (pre ++ part :: suf) as [|q l] eqn:E; [by destruct pre|]. rewrite Hc, Forall_app, Forall_cons. intros (_ & _ & H).
    destruct (IH H) as [HP HL]. split; [done|]. unfold slen in *. rewrite length_app. cbn [length]. lia.
Qed.

(** The file of a script in a pack: its rule's directory below the root. *)
Lemma output_path id path : policyIDPattern id = true -> validateScriptPath path = Ok tt ->
  bytes (contextPackOutputPath id path) = join slash [agents_dir; policies_dir; bytes id; bytes (path_Base path)] /\
  len (contextPackOutputPath id path) <= MaxArgBytes /\ wf_string (contextPackOutputPath id path) = true.
Proof.
  intros Hid Hp. apply id_name in Hid as [Hid Hl]. apply script_path_ok in Hp as (Hp & Hlp & Hr).
  destruct (path_Base_ok _ Hp) as (base & Hb & Hin & Hpl & _ & Hs). destruct (name_plain _ Hid) as [Hnp Hns].
  assert (E : bytes (contextPackOutputPath id path) = join slash [agents_dir; policies_dir; bytes id; bytes (path_Base path)]).
  { apply (path_Join_below agents_dir policies_dir).
    - rewrite Hb. repeat (apply Forall_cons; split); try done; by apply plain_const.
    - rewrite Hb. repeat (apply Forall_cons; split); try done; by apply (bool_decide_unpack _).
    - apply (bytes_range ".agents/policies"). }
  assert (Hbr : Forall (fun b => 0x2D <= b < 0x80) base /\ slen base <= len path).
  { rewrite len_bytes. apply list_elem_of_split in Hin as (pre & suf & Hsp). rewrite <- (join_split slash (bytes path)), Hsp in Hr |- *.
    by apply join_part. }
  destruct Hbr as [Hbr Hbl]. rewrite len_bytes in Hl, Hlp, Hbl.
  assert (Hlen : slen (bytes (contextPackOutputPath id path)) <= MaxArgBytes).
  { rewrite E, Hb. unfold slen in *. cbn [join]. rewrite !length_app. cbn [length]. rewrite !length_app. cbn [length]. rewrite !length_app. cbn [length].
    change (length agents_dir) with 7%nat. change (length policies_dir) with 8%nat. unfold MaxArgBytes, MaxScriptPathBytes in *. lia. }
  split_and!; [done|by rewrite len_bytes|]. apply ascii_text; [|rewrite len_bytes; change maxStringBytes with 65536; unfold MaxArgBytes in *; lia].
  rewrite E, Hb. cbn [join]. destruct Hid as [_ Hid].
  apply Forall_app; split; [by repeat constructor|]. apply Forall_cons; split; [by compute|].
  apply Forall_app; split; [by repeat constructor|]. apply Forall_cons; split; [by compute|].
  apply Forall_app; split; [eapply Forall_impl; [exact Hid|]; cbn; intros b Hx%name_byte_range; lia|]. apply Forall_cons; split; [by compute|].
  eapply Forall_impl; [exact Hbr|]. cbn. lia.
Qed.

Section Rules.
Context (IsDNS1123Subdomain : string -> list string).

(** ** The input *)

Definition source_of (reference : ObjectVersion) : PolicySource :=
  MkSource (Version_Name reference) (Version_UID reference) (Version_ResourceVersion reference) (Version_Generation reference).
Definition valid_source (s : PolicySource) : Prop := normalizeSource IsDNS1123Subdomain s = Ok s.

Record valid_policy (p : PolicySnapshot) : Prop := {
  vp_source : valid_source (source_of (Snapshot_Reference p));
  vp_count : 1 <= slen (Snapshot_Rules p) <= MaxRulesPerPolicy;
  vp_rules : Forall (fun r => validateRuleShape r = Ok tt) (Snapshot_Rules p)
}.
Definition policy_name (p : PolicySnapshot) : string := Version_Name (Snapshot_Reference p).
Definition rule_ids (p : PolicySnapshot) : list string := map PolicyRule_ID (Snapshot_Rules p).

Record valid_policies (policies : list PolicySnapshot) : Prop := {
  vi_policies : Forall valid_policy policies;
  vi_names : NoDup (map policy_name policies);
  vi_ids : NoDup (concat (map rule_ids policies));
  vi_total : slen (concat (map rule_ids policies)) <= MaxTotalRules
}.

Record valid_input (input : Input) : Prop := {
  vi_base : validBaseSHA (Input_BaseSHA input) = true;
  vi_spec : validDigest (Input_ResolvedSpecDigest input) = true;
  vi_count : slen (Input_Policies input) <= MaxPolicies;
  vi_valid : valid_policies (Input_Policies input)
}.

Lemma normalizeSource_ok s t : normalizeSource IsDNS1123Subdomain s = Ok t -> t = s /\ valid_source s.
Proof.
  intros H. assert (t = s) as ->; [|done]. unfold normalizeSource in H. repeat (destruct (_ : bool) in H; [discriminate H|]). by injection H.
Qed.
Lemma sourceFromObjectVersion_ok r s : sourceFromObjectVersion IsDNS1123Subdomain r = Ok s <-> s = source_of r /\ valid_source (source_of r).
Proof.
  unfold sourceFromObjectVersion. fold (source_of r). split; [apply normalizeSource_ok|]. by intros [-> H].
Qed.

(** The rules of a policy in order. *)
Definition ordered (p : PolicySnapshot) : PolicySnapshot :=
  MkSnapshot (Snapshot_Reference p) (sort_on PolicyRule_ID String.compare (Snapshot_Rules p)).

Lemma rule_shapes rules : forall seen seen', fold_result rule_shape_step seen rules = Ok seen' <->
  seen' = rev (map PolicyRule_ID rules) ++ seen /\ Forall (fun r => validateRuleShape r = Ok tt) rules /\
  NoDup (map PolicyRule_ID rules) /\ Forall (fun id => id ∉ seen) (map PolicyRule_ID rules).
Proof.
  induction rules as [|r rules IH]; intros seen seen'; cbn [fold_result map rev].
  - split; [intros [= ->]; by repeat constructor|]. by intros [-> _].
  - unfold rule_shape_step at 1. rewrite NoDup_cons, !Forall_cons. destruct (validateRuleShape r) as [[]|e]; cbn [result_bind].
    2:{ split; [done|]. by intros (_ & [H _] & _). }
    case_bool_decide as Hin; cbn [result_bind]; [by split; [|intros (_ & _ & _ & [H _])]|].
    rewrite IH, <- (assoc_L (++)). cbn [app]. rewrite !Forall_forall. setoid_rewrite not_elem_of_cons. split.
    + intros (-> & HF & HN & HS). split_and!; try done; [intros Hid; by destruct (HS _ Hid)|]. intros id Hid. apply (HS _ Hid).
    + intros (-> & [_ HF] & [Hr HN] & [_ HS]). split_and!; try done. intros id Hid. split; [by intros ->|by apply HS].
Qed.

Lemma ordered_ids p : rule_ids (ordered p) ≡ₚ rule_ids p.
Proof. unfold rule_ids, ordered. cbn. apply Permutation_map, sort_on_perm. Qed.

(** One policy of the loop. *)
Lemma normalize_step_ok acc p acc' : normalize_step IsDNS1123Subdomain acc p = Ok acc' <->
  valid_policy p /\ policy_name p ∉ n_seenPolicies acc /\ NoDup (rule_ids p) /\ Forall (fun id => id ∉ n_seenRules acc) (rule_ids p) /\
  n_totalRules acc + slen (rule_ids p) <= MaxTotalRules /\
  acc' = MkNormal (policy_name p :: n_seenPolicies acc) (rev (rule_ids (ordered p)) ++ n_seenRules acc)
           (n_totalRules acc + slen (rule_ids p)) (n_policies acc ++ [ordered p]).
Proof.
  assert (Hlen : slen (rule_ids p) = slen (Snapshot_Rules p)) by (unfold slen, rule_ids; by rewrite length_map).
  assert (Hperm : sort_on PolicyRule_ID String.compare (Snapshot_Rules p) ≡ₚ Snapshot_Rules p) by apply sort_on_perm.
  unfold normalize_step. fold (policy_name p). rewrite Hlen. split.
  - intros H. destruct (sourceFromObjectVersion _ _) as [src|] eqn:Hs; [|done]. cbn [result_bind] in H.
    case_bool_decide as Hn; [done|]. destruct (_ || _) eqn:Hc in H; [done|]. apply orb_false_iff in Hc as [Hc0%Z.eqb_neq Hc1%Z.ltb_ge].
    destruct (fold_result _ _ _) as [seen|] eqn:Hf in H; [|done]. cbn [result_bind] in H.
    destruct (_ <? _) eqn:Ht in H; [done|]. apply Z.ltb_ge in Ht. injection H as <-.
    apply sourceFromObjectVersion_ok in Hs as [_ Hs]. apply rule_shapes in Hf as (-> & HF & HN & HD).
    rewrite Hperm in HF, HN, HD. pose proof (Nat2Z.is_nonneg (length (Snapshot_Rules p))).
    split_and!; try done. constructor; [done| |done]. unfold slen in *. lia.
  - intros (HV & Hn & HN & HD & Ht & ->). destruct HV as [Hs Hc HF].
    rewrite (proj2 (sourceFromObjectVersion_ok _ _) (conj eq_refl Hs)). cbn [result_bind].
    rewrite bool_decide_eq_false_2 by done. rewrite (proj2 (Z.eqb_neq _ _)), (proj2 (Z.ltb_ge _ _)) by lia. cbn [orb].
    assert (Hf : fold_result rule_shape_step (n_seenRules acc) (sort_on PolicyRule_ID String.compare (Snapshot_Rules p)) =
      Ok (rev (rule_ids (ordered p)) ++ n_seenRules acc)) by (apply rule_shapes; split; [done|]; rewrite !Hperm; by split_and!).
    rewrite Hf. cbn [result_bind]. by rewrite (proj2 (Z.ltb_ge _ _)) by lia.
Qed.

Lemma normalize_fold policies : forall acc, n_totalRules acc <= MaxTotalRules ->
  ((exists acc', fold_result (normalize_step IsDNS1123Subdomain) acc policies = Ok acc') <->
   Forall valid_policy policies /\ (NoDup (map policy_name policies) /\ Forall (fun n => n ∉ n_seenPolicies acc) (map policy_name policies)) /\
   (NoDup (concat (map rule_ids policies)) /\ Forall (fun id => id ∉ n_seenRules acc) (concat (map rule_ids policies))) /\
   n_totalRules acc + slen (concat (map rule_ids policies)) <= MaxTotalRules).
Proof.
  induction policies as [|p policies IH]; intros acc Hacc; cbn [fold_result map concat].
  { unfold slen. cbn. split; [|by eexists]. intros _. rewrite Z.add_0_r. repeat (split; [by repeat constructor|]). done. }
  rewrite Forall_cons, NoDup_cons, Forall_cons, NoDup_app, Forall_app.
  assert (Hl : slen (rule_ids p ++ concat (map rule_ids policies)) = slen (rule_ids p) + slen (concat (map rule_ids policies)))
    by (unfold slen; rewrite length_app; lia).
  rewrite Hl. destruct (normalize_step _ acc p) as [acc1|e] eqn:E; cbn [result_bind].
  - apply normalize_step_ok in E as (HV & Hn & HN & HD & Ht & ->). rewrite IH by done. cbn [n_seenPolicies n_seenRules n_totalRules].
    assert (Hids : forall id, id ∉ rev (rule_ids (ordered p)) ++ n_seenRules acc <-> id ∉ rule_ids p /\ id ∉ n_seenRules acc).
    { intros id. rewrite not_elem_of_app. rewrite list_elem_of_In, <- in_rev, <- list_elem_of_In, ordered_ids. done. }
    rewrite !Forall_forall. setoid_rewrite not_elem_of_cons. setoid_rewrite Hids. rewrite Forall_forall in HD. split.
    + intros (HVs & [HNs Hns] & [HDs Hds] & Hts). split_and!; try done; try lia.
      * intros Hin. by destruct (Hns _ Hin) as [[] _].
      * intros n Hin. apply (Hns _ Hin).
      * intros id Hid Hin. by destruct (Hds _ Hin) as [[] _].
      * intros id Hid. apply (Hds _ Hid).
    + intros ([_ HVs] & [[Hnp HNs] [_ Hns]] & [(_ & Hdisj & HDs) [_ Hds]] & Hts). split_and!; try done; try lia.
      * intros n Hin. split; [by intros ->|by apply Hns].
      * intros id Hid. split; [by intros Hp; apply (Hdisj id)|by apply Hds].
  - split; [by intros [? ?]|]. intros ([HV HVs] & [_ [Hn _]] & [(HN & _ & _) [HD _]] & Hts). exfalso.
    pose proof (Nat2Z.is_nonneg (length (concat (map rule_ids policies)))). unfold slen in Hts.
    assert (Hok : exists a, normalize_step IsDNS1123Subdomain acc p = Ok a); [|destruct Hok; congruence].
    eexists. apply normalize_step_ok. split_and!; try done. unfold slen in *. lia.
Qed.

Lemma normalize_fold_policies policies : forall acc acc', fold_result (normalize_step IsDNS1123Subdomain) acc policies = Ok acc' ->
  n_policies acc' = n_policies acc ++ map ordered policies.
Proof.
  induction policies as [|p policies IH]; intros acc acc' H; cbn [fold_result map] in *; [injection H as <-; by rewrite app_nil_r|].
  destruct (normalize_step _ acc p) as [acc1|] eqn:E; [|done]. cbn [result_bind] in H.
  apply normalize_step_ok in E as (_ & _ & _ & _ & _ & ->). rewrite (IH _ _ H). cbn. by rewrite <- (assoc_L (++)).
Qed.

Lemma valid_policies_perm l k : l ≡ₚ k -> valid_policies l -> valid_policies k.
Proof.
  intros Hp [H1 H2 H3 H4]. assert (Hc : concat (map rule_ids l) ≡ₚ concat (map rule_ids k)) by (by rewrite Hp).
  constructor; [by rewrite <- Hp|by rewrite <- Hp|by rewrite <- Hc|]. unfold slen in *. by rewrite <- Hc.
Qed.

Definition canonical_policies (policies : list PolicySnapshot) : list PolicySnapshot := map ordered (sort_on version_order compare_version policies).

Lemma normalize_policies_ok input policies : normalizeInput IsDNS1123Subdomain input = Ok policies <->
  valid_input input /\ policies = canonical_policies (Input_Policies input).
Proof.
  unfold normalizeInput, canonical_policies. set (sorted := sort_on version_order compare_version (Input_Policies input)).
  assert (Hp : sorted ≡ₚ Input_Policies input) by apply sort_on_perm.
  assert (Hfold : (exists acc', fold_result (normalize_step IsDNS1123Subdomain) (MkNormal [] [] 0 []) sorted = Ok acc') <-> valid_policies sorted).
  { rewrite normalize_fold by done. cbn [n_seenPolicies n_seenRules n_totalRules]. rewrite Z.add_0_l.
    assert (Hnil : forall l : list string, Forall (fun x => x ∉ []) l) by (intros l; apply Forall_forall; intros x _; apply not_elem_of_nil).
    split; [intros (? & [? _] & [? _] & ?); by constructor|]. intros []. by split_and!. }
  split.
  - intros H. destruct (validBaseSHA _) eqn:Hb; cbn [negb] in H; [|done]. destruct (validDigest _) eqn:Hd; cbn [negb] in H; [|done].
    destruct (_ <? _) eqn:Hc in H; [done|]. apply Z.ltb_ge in Hc.
    destruct (fold_result _ _ _) as [acc|] eqn:Hf in H; [|done]. cbn [result_bind] in H. injection H as <-.
    rewrite (normalize_fold_policies _ _ _ Hf). split; [|done]. constructor; try done.
    apply (valid_policies_perm sorted); [done|]. apply Hfold. by eexists.
  - intros [[Hb Hd Hc HV] ->]. rewrite Hb, Hd, (proj2 (Z.ltb_ge _ _) Hc). cbn [negb].
    destruct (proj2 Hfold) as [acc Hf]; [by apply (valid_policies_perm (Input_Policies input))|].
    rewrite Hf. cbn [result_bind]. by rewrite (normalize_fold_policies _ _ _ Hf).
Qed.
End Rules.
