(* ===== verification/PolicyContractSpec.v ===== *)
(** * Policy contracts: the theorems

    A contract is compiled exactly from the valid inputs whose scripts load; the
    order of policies and rules is irrelevant; its manifest reads back to the same
    checks; and its projection for the Gate is well formed. *)

From S2P Require Import Prelude Order GoStrings Utf8 Digest Digits GoJson Unmarshal UnmarshalSpec.
From S2P Require Import StrictJson StrictJsonSpec StrictJsonCanon StrictJsonRoundTrip StrictJsonMarshal Paths ContextPack ContextPackParts StrictJsonNumbers.
From S2P Require Import PolicyContract PolicyContractRules.
Local Open Scope go_scope.
Local Open Scope string_scope.
Local Open Scope Z_scope.
Local Open Scope list_scope.

(** What the documentation of [validation.IsDNS1123Subdomain] says of a name it
    has no objection to: lowercase letters, digits, dashes and dots. *)
Definition dns_byte (b : Z) : bool := name_rune b || (b =? dash) || (b =? 0x2E).
Class DNS1123 (IsDNS1123Subdomain : string -> list string) : Prop :=
  dns_text name : IsDNS1123Subdomain name = [] -> Forall (fun b => dns_byte b = true) (bytes name).

Section Contract.
Context (IsDNS1123Subdomain : string -> list string) `{!DNS1123 IsDNS1123Subdomain}.
Notation valid_source := (valid_source IsDNS1123Subdomain).
Notation valid_input := (valid_input IsDNS1123Subdomain).
Notation valid_policies := (valid_policies IsDNS1123Subdomain).

Lemma source_texts s : valid_source s -> int64 (Source_Generation s) = true -> source_wf s.
Proof.
  unfold PolicyContractRules.valid_source, normalizeSource. intros H Hg. destruct (_ || _) eqn:E in H; [done|]. rewrite !orb_false_iff, negb_false_iff, Z.eqb_eq, Z.ltb_ge in E.
  destruct E as [[_ Hl] Hd]. destruct (validateOpaque (Source_UID s) _) eqn:Hu; [|done]. destruct (validateOpaque (Source_ResourceVersion s) _) eqn:Hv; [|done].
  constructor; [|done]. repeat (apply Forall_cons; split); [|by apply opaque_text..|by apply Forall_nil]. apply ascii_text.
  - assert (Hn : IsDNS1123Subdomain (Source_Name s) = []) by (unfold slen in Hd; by destruct (IsDNS1123Subdomain _)).
    eapply Forall_impl; [exact (dns_text _ Hn)|]. unfold dns_byte, name_rune, is_digit, dash. cbn. intros b. rewrite !orb_true_iff, !between_spec, !Z.eqb_eq. lia.
  - change maxStringBytes with 65536. unfold MaxPolicyNameBytes in Hl. lia.
Qed.

(** ** Rules *)

Record wf_rule (r : Rule) : Prop := {
  wr_id : policyIDPattern (Rule_ID r) = true;
  wr_severity : Rule_Severity r = SeverityBlocking \/ Rule_Severity r = SeverityAdvisory;
  wr_context : validateText (Rule_Context r) MaxPolicyContextBytes = Ok tt;
  wr_source : valid_source (Rule_Source r);
  wr_script : match Rule_Check r with
    | None => Rule_ScriptSourcePath r = "" /\ Rule_ContextPackPath r = "" /\ Rule_ScriptDigest r = "" /\ HasScript r = false
    | Some check => check = MkCheck CheckKindScript ExpectExit0 ExpectedExitCode /\ validateScriptPath (Rule_ScriptSourcePath r) = Ok tt /\
              Rule_ContextPackPath r = contextPackOutputPath (Rule_ID r) (Rule_ScriptSourcePath r) /\ validDigest (Rule_ScriptDigest r) = true /\
              HasScript r = true
    end
}.

(** A blocking rule has a script. *)
Definition backed (r : Rule) : Prop := Rule_Severity r = SeverityBlocking -> HasScript r = true.

(** The rules of a contract: well formed, in the strict order of their names. *)
Definition ids_ordered (rules : list Rule) : Prop := StronglySorted (fun a b => String.compare a b = Lt) (map Rule_ID rules).
Record wf_contract (c : Compiled) : Prop := {
  wc_rules : Forall wf_rule (Compiled_rules c);
  wc_order : ids_ordered (Compiled_rules c);
  wc_count : slen (Compiled_rules c) <= MaxTotalRules;
  wc_digest : Compiled_digest c = digestBytes (Compiled_manifestJSON c)
}.

Lemma failure_mode_cases r : failureMode r = if Rule_Severity r =?= SeverityBlocking then FailureReject else FailureAdvisory.
Proof. done. Qed.

Lemma mrule_texts r : wf_rule r -> int64 (Source_Generation (Rule_Source r)) = true -> mrule_wf (manifest_rule r).
Proof.
  intros [Hid Hsev Hctx Hsrc Hscr] Hg. destruct (id_name _ Hid) as [Hn Hl]. constructor; cbn.
  - repeat (apply Forall_cons; split); [| |by apply context_text| |by apply Forall_nil].
    + apply name_text; [done|]. change maxStringBytes with 65536. lia.
    + by destruct Hsev as [-> | ->].
    + rewrite failure_mode_cases. by case_bool_decide.
  - by apply source_texts.
  - destruct (Rule_Check r) as [check|]; [|done]. destruct Hscr as (-> & Hp & Ep & Hd & _). cbn.
    destruct (output_path _ _ Hid Hp) as (_ & _ & Ho). apply script_path_ok in Hp as (_ & Hlp & Hr).
    constructor; [|done]. cbn. rewrite Ep. repeat (apply Forall_cons; split); [done|done| |done|by apply digest_text|by apply Forall_nil].
    apply ascii_text; [eapply Forall_impl; [exact Hr|]; cbn; lia|]. change maxStringBytes with 65536. unfold MaxScriptPathBytes in Hlp. lia.
Qed.

(** ** Gate checks *)

Lemma sorted_fresh (ids : list string) id (rest : list string) : StronglySorted (fun a b => String.compare a b = Lt) (rev ids ++ id :: rest) ->
  id ∉ ids /\ match ids with previous :: _ => String.compare previous id = Lt | [] => True end.
Proof.
  intros H. assert (Hall : forall x, x ∈ ids -> String.compare x id = Lt).
  { intros x Hx. assert (Hx' : x ∈ rev ids) by (by rewrite list_elem_of_In, <- in_rev, <- list_elem_of_In).
    revert H. induction (rev ids) as [|y l IH]; [by apply not_elem_of_nil in Hx'|]. cbn. intros H. inversion H as [|? ? Hs Hf]; subst.
    apply elem_of_cons in Hx' as [->|Hx']; [|by apply IH]. rewrite Forall_forall in Hf. apply Hf, elem_of_app. right. apply list_elem_of_here. }
  split; [|destruct ids; [done|apply Hall, list_elem_of_here]].
  intros Hin. specialize (Hall id Hin). by rewrite (cmp_refl String.compare) in Hall.
Qed.

Lemma gate_step digest seen r rest : validDigest digest = true -> wf_rule r -> StronglySorted (fun a b => String.compare a b = Lt) (rev seen ++ Rule_ID r :: rest) ->
  gate_check_step seen (MkGateDescriptor (with_contract digest (checkDescriptor r)) (Gate_RejectsOnFailure (gateCheck r))) = Ok (Rule_ID r :: seen).
Proof.
  intros Hd [Hid Hsev _ _ Hscr] Hs. destruct (sorted_fresh _ _ _ Hs) as [Hnot Hprev]. destruct (id_name _ Hid) as [[Hne _] _].
  unfold gate_check_step. cbv zeta. cbn [Gate_Check with_contract checkDescriptor Descriptor_RuleID Descriptor_ContractDigest Descriptor_Severity
    Descriptor_Blocking Gate_RejectsOnFailure gateCheck Descriptor_FailureMode Descriptor_HasScript].
  rewrite (bool_decide_eq_false_2 (Rule_ID r = "")), Hid, (bool_decide_eq_false_2 (Rule_ID r ∈ seen)), Hd by done. cbn [negb orb].
  assert (Hp : match seen with previous :: _ => negb (bool_decide (String.compare previous (Rule_ID r) = Lt)) | [] => false end = false).
  { destruct seen; [done|]. by rewrite bool_decide_eq_true_2. }
  rewrite Hp, !(bool_decide_eq_true_2 ((Rule_Severity r =?= SeverityBlocking) = _)) by done. rewrite failure_mode_cases.
  assert (Hv : (Rule_Severity r !=? SeverityBlocking) && (Rule_Severity r !=? SeverityAdvisory) = false) by (by destruct Hsev as [-> | ->]).
  assert (Hm : forall m, m = (if Rule_Severity r =?= SeverityBlocking then FailureReject else FailureAdvisory) ->
    (m !=? FailureReject) && (m !=? FailureAdvisory) = false) by (intros m ->; by case_bool_decide).
  rewrite Hv, (Hm _ eq_refl). cbn [orb negb].
  destruct (Rule_Check r) as [check|] eqn:Ec.
  - destruct Hscr as (-> & Hp' & Ho & Hdg & ->).
    assert (Hb : script_binding (with_contract digest (checkDescriptor r)) = true); [|rewrite Hb; cbn [negb]; cbn [Descriptor_ScriptSourcePath with_contract checkDescriptor]; by rewrite Hp'].
    assert (Hsp : Rule_ScriptSourcePath r <> "") by (by apply path_nonempty, script_path_ok).
    unfold script_binding, with_contract, checkDescriptor.
    cbn [Descriptor_Kind Descriptor_Expect Descriptor_ExpectedExitCode Descriptor_Argv Descriptor_ContextPackOutputPath Descriptor_ScriptSourcePath
      Descriptor_RuleID Descriptor_ScriptDigest]. rewrite Ec, Hdg. cbn [default Check_Kind Check_Expect Check_ExpectedExitCode].
    rewrite (bool_decide_eq_false_2 (_ = "")), (bool_decide_eq_true_2 (Rule_ContextPackPath r = _)), (bool_decide_eq_true_2 ([_; _] = _)) by done. done.
  - destruct Hscr as (Hs1 & Hs2 & Hs3 & ->). unfold no_script_fields.
    cbn [Descriptor_Kind Descriptor_Expect Descriptor_ExpectedExitCode Descriptor_Argv Descriptor_ContextPackOutputPath Descriptor_ScriptSourcePath
      Descriptor_RuleID Descriptor_ScriptDigest with_contract checkDescriptor]. by rewrite Ec, Hs1, Hs2, Hs3.
Qed.

Lemma gate_checks_valid c : wf_contract c -> ValidateGateChecks (GateChecks c) = Ok tt.
Proof.
  intros [HF Ho Hl Hd]. unfold ValidateGateChecks. rewrite (proj2 (Z.ltb_ge _ _)) by (unfold slen, GateChecks in *; by rewrite length_map).
  assert (Hdg : validDigest (Compiled_digest c) = true) by (rewrite Hd; apply digestBytes_valid).
  assert (Hfold : forall rules seen, Forall wf_rule rules -> StronglySorted (fun a b => String.compare a b = Lt) (rev seen ++ map Rule_ID rules) ->
    exists seen', fold_result gate_check_step seen (map (fun r => let g := gateCheck r in MkGateDescriptor (with_contract (Compiled_digest c) (Gate_Check g))
      (Gate_RejectsOnFailure g)) rules) = Ok seen').
  { induction rules as [|r rules IH]; intros seen HFs Hs; cbn [map fold_result]; [by eexists|]. inversion_clear HFs as [|? ? Hr Hrs].
    cbn [map] in Hs. change (Gate_Check (gateCheck r)) with (checkDescriptor r). rewrite (gate_step _ seen r (map Rule_ID rules)) by done. cbn [result_bind]. apply IH; [done|].
    cbn [rev]. by rewrite <- (assoc_L (++)). }
  assert (exists seen', fold_result gate_check_step [] (GateChecks c) = Ok seen') as [seen' E] by (by apply Hfold). by rewrite E.
Qed.

(** ** Compilation *)

Section Compiling.
Context (loader : option ScriptLoader).

(** The loader has the script of a path in the base revision: a regular text file
    of bounded size, under its own name and digest. *)
Definition loads (base path : string) (body : list Z) : Prop :=
  (exists f, loader = Some f /\ f base path = Ok (MkLoaded base path FileKindRegular body (digestBytes body))) /\
  0 < slen body <= MaxScriptBytes /\ valid_utf8 body = true /\ 0 ∉ body.

(** The rule that a rule of a policy becomes. *)
Definition rule_of (base : string) (from : PolicySource * PolicyRule) (r : Rule) : Prop :=
  let '(source, raw) := from in
  match PolicyRule_Check raw with
  | None => r = MkRule (PolicyRule_ID raw) (PolicyRule_Severity raw) (PolicyRule_Context raw) source None "" "" "" [] false
  | Some check => exists body, loads base (PolicyCheck_Script check) body /\
      r = MkRule (PolicyRule_ID raw) (PolicyRule_Severity raw) (PolicyRule_Context raw) source
            (Some (MkCheck CheckKindScript ExpectExit0 ExpectedExitCode)) (PolicyCheck_Script check)
            (contextPackOutputPath (PolicyRule_ID raw) (PolicyCheck_Script check)) (digestBytes body) body true
  end.

Lemma loadScript_ok base path loaded : loadScript loader base path = Ok loaded -> exists f, loader = Some f /\ f base path = Ok loaded.
Proof.
  unfold loadScript. destruct loader as [f|]; [|done]. intros H. exists f. split; [done|]. destruct (f base path) as [l|e].
  - destruct (_ && _) in H; [done|]. by injection H as ->.
  - by destruct (find _ _).
Qed.

Lemma shape_check raw check : validateRuleShape raw = Ok tt -> PolicyRule_Check raw = Some check ->
  PolicyCheck_Kind check = CheckKindScript /\ PolicyCheck_Expect check = ExpectExit0 /\ validateScriptPath (PolicyCheck_Script check) = Ok tt.
Proof.
  unfold validateRuleShape. intros H E. destruct (negb _) in H; [done|]. destruct (_ && _) in H; [done|]. apply result_bind_ok in H as (_ & _ & H). rewrite E in H.
  destruct (negb _) eqn:E1 in H; [done|]. destruct (negb _) eqn:E2 in H; [done|]. rewrite negb_false_iff, bool_decide_eq_true in E1, E2. done.
Qed.

Lemma compileRule_ok base source raw r : validateRuleShape raw = Ok tt -> (compileRule base source raw loader = Ok r <-> rule_of base (source, raw) r).
Proof.
  intros Hs. unfold compileRule, rule_of. destruct (PolicyRule_Check raw) as [check|] eqn:Ec; [|split; [by intros [= <-]|by intros ->]].
  destruct (shape_check _ _ Hs Ec) as (_ & _ & Hp).
  assert (Hid : policyIDPattern (PolicyRule_ID raw) = true) by (unfold validateRuleShape in Hs; by destruct (policyIDPattern _)).
  destruct (output_path _ _ Hid Hp) as (_ & Hout & _). split.
  - intros (loaded & Hl & H)%result_bind_ok. apply loadScript_ok in Hl as (f & Hf & Hl). destruct loaded as [b p k body d].
    cbn [Loaded_BaseSHA Loaded_Path Loaded_Kind Loaded_Bytes Loaded_Digest] in *. destruct (_ || _) eqn:E1 in H; [done|].
    rewrite orb_false_iff, !negb_false_iff, !bool_decide_eq_true in E1. destruct E1 as [-> ->].
    destruct (negb _) eqn:E2 in H; [done|]. rewrite negb_false_iff, bool_decide_eq_true in E2. subst k.
    destruct (_ =? _) eqn:E3 in H; [done|]. apply Z.eqb_neq in E3. destruct (_ <? _) eqn:E4 in H; [done|]. apply Z.ltb_ge in E4.
    destruct (_ || _) eqn:E5 in H; [done|]. rewrite orb_false_iff, negb_false_iff, bool_decide_eq_false in E5. destruct E5 as [E5 E6].
    destruct (negb _) in H; [done|]. cbv zeta in H. destruct (negb _) eqn:E7 in H; [done|]. rewrite negb_false_iff, bool_decide_eq_true in E7. subst d.
    rewrite (proj2 (Z.ltb_ge _ _) Hout) in H. injection H as <-. exists body. split; [|done]. split; [by exists f|].
    split_and!; try done. pose proof (Nat2Z.is_nonneg (length body)). unfold slen in *. lia.
  - intros (body & ((f & Hf & Hl) & [Hb1 Hb2] & Hu & H0) & ->). unfold loadScript. rewrite Hf, Hl.
    cbn [Loaded_BaseSHA Loaded_Path Loaded_Kind Loaded_Bytes Loaded_Digest].
    rewrite (bool_decide_eq_false_2 (FileKindRegular = "")) by done. rewrite andb_false_r. cbn [andb result_bind].
    cbn [Loaded_BaseSHA Loaded_Path Loaded_Kind Loaded_Bytes Loaded_Digest].
    rewrite (bool_decide_eq_true_2 (base = base)), (bool_decide_eq_true_2 (PolicyCheck_Script check = _)) by done. cbn [negb orb].
    rewrite (bool_decide_eq_true_2 (FileKindRegular = _)), (proj2 (Z.eqb_neq _ _)), (proj2 (Z.ltb_ge _ _)), Hu, (bool_decide_eq_false_2 (0 ∈ body)), digestBytes_valid by (done || lia).
    cbn [negb orb]. cbv zeta. rewrite (bool_decide_eq_true_2 (digestBytes body = _)), (proj2 (Z.ltb_ge _ _) Hout) by done. done.
Qed.

(** The rules of all policies, each with the provenance of its policy. *)
Definition sourced (policies : list PolicySnapshot) : list (PolicySource * PolicyRule) :=
  flat_map (fun p => map (pair (source_of (Snapshot_Reference p))) (Snapshot_Rules p)) policies.
Definition script_bytes (rules : list Rule) : Z := sumZ (fun r => slen (Rule_scriptBytes r)) rules.

Lemma script_bytes_nonneg rules : 0 <= script_bytes rules.
Proof. unfold script_bytes, sumZ. induction rules; cbn [foldr]; [lia|]. unfold slen in *. lia. Qed.

Lemma compile_rules base source raws : forall acc acc', acc.1 <= MaxTotalScriptBytes ->
  (fold_result (compile_rule_step base loader source) acc raws = Ok acc' <->
   exists rules, Forall2 (fun raw r => compileRule base source raw loader = Ok r) raws rules /\
     acc' = (acc.1 + script_bytes rules, acc.2 ++ rules) /\ acc.1 + script_bytes rules <= MaxTotalScriptBytes).
Proof.
  induction raws as [|raw raws IH]; intros [t acc] acc' Ht; cbn [fold_result fst snd] in *.
  - split.
    + intros [= <-]. exists []. unfold script_bytes. cbn. rewrite Z.add_0_r, app_nil_r. by split; [constructor|].
    + intros (rules & HF & -> & _). inversion HF; subst. unfold script_bytes. cbn. by rewrite Z.add_0_r, app_nil_r.
  - unfold compile_rule_step at 1. cbn [fst snd]. destruct (compileRule base source raw loader) as [r|e] eqn:Er; cbn [result_bind].
    2:{ split; [done|]. intros (rules & HF & _). inversion HF; subst. congruence. }
    cbv zeta. destruct (_ <? _) eqn:Eb in |- *; cbn [result_bind].
    + apply Z.ltb_lt in Eb. split; [done|]. intros (rules & HF & _ & Hl). inversion HF as [|? r' ? rules' Hr HF']; subst. assert (r' = r) as -> by congruence.
      unfold script_bytes in Hl. change (sumZ (fun r => slen (Rule_scriptBytes r)) (r :: rules')) with (slen (Rule_scriptBytes r) + script_bytes rules') in Hl.
      pose proof (script_bytes_nonneg rules'). lia.
    + apply Z.ltb_ge in Eb. rewrite IH by done. cbn [fst snd]. split.
      * intros (rules & HF & -> & Hl). exists (r :: rules). change (script_bytes (r :: rules)) with (slen (Rule_scriptBytes r) + script_bytes rules).
        rewrite Z.add_assoc, <- (assoc_L (++)). split_and!; [by constructor|done|done].
      * intros (rules & HF & -> & Hl). inversion HF as [|? r' ? rules' Hr HF']; subst. assert (r' = r) as -> by congruence. exists rules'.
        change (script_bytes (r :: rules')) with (slen (Rule_scriptBytes r) + script_bytes rules') in *.
        rewrite <- (assoc_L (++)), <- Z.add_assoc. split_and!; [done|done|lia].
Qed.

Lemma compile_policies base policies : forall acc acc', acc.1 <= MaxTotalScriptBytes -> Forall (fun p => valid_source (source_of (Snapshot_Reference p))) policies ->
  (fold_result (compile_policy_step IsDNS1123Subdomain base loader) acc policies = Ok acc' <->
   exists rules, Forall2 (fun sr r => compileRule base sr.1 sr.2 loader = Ok r) (sourced policies) rules /\
     acc' = (acc.1 + script_bytes rules, acc.2 ++ rules) /\ acc.1 + script_bytes rules <= MaxTotalScriptBytes).
Proof.
  induction policies as [|p policies IH]; intros [t acc] acc' Ht HV; cbn [fold_result fst snd] in *.
  - split.
    + intros [= <-]. exists []. unfold script_bytes. cbn. rewrite Z.add_0_r, app_nil_r. by split; [constructor|].
    + intros (rules & HF & -> & _). inversion HF; subst. unfold script_bytes. cbn. by rewrite Z.add_0_r, app_nil_r.
  - inversion_clear HV as [|? ? Hp HVs]. unfold compile_policy_step at 1. rewrite (proj2 (sourceFromObjectVersion_ok _ _ _) (conj eq_refl Hp)). cbn [result_bind].
    assert (Hfst : forall rules, Forall2 (fun raw r => compileRule base (source_of (Snapshot_Reference p)) raw loader = Ok r) (Snapshot_Rules p) rules <->
      Forall2 (fun sr r => compileRule base sr.1 sr.2 loader = Ok r) (map (pair (source_of (Snapshot_Reference p))) (Snapshot_Rules p)) rules)
      by (intros rules; symmetry; apply Forall2_fmap_l).
    assert (Hsum : forall a b, script_bytes (a ++ b) = script_bytes a + script_bytes b) by (intros; apply sumZ_app).
    cbn [sourced flat_map]. fold (sourced policies). split.
    + intros ([t1 acc1] & H1 & H2)%result_bind_ok. apply compile_rules in H1 as (rules & HF & [= -> ->] & Hl); [|done].
      apply IH in H2 as (rules' & HF' & -> & Hl'); [|done|done]. cbn [fst snd] in *. exists (rules ++ rules'). rewrite Hsum.
      split_and!; [apply Forall2_app; [by apply Hfst|done]|by rewrite Z.add_assoc, (assoc_L (++))|lia].
    + intros (rules & HF & -> & Hl). apply Forall2_app_inv_l in HF as (r1 & r2 & H1 & H2 & ->). rewrite Hsum in *. pose proof (script_bytes_nonneg r2).
      assert (E : fold_result (compile_rule_step base loader (source_of (Snapshot_Reference p))) (t, acc) (Snapshot_Rules p) = Ok (t + script_bytes r1, acc ++ r1)).
      { apply compile_rules; [done|]. exists r1. cbn [fst snd]. split_and!; [by apply Hfst|done|lia]. }
      rewrite E. cbn [result_bind]. apply IH; [cbn; lia|done|]. cbn [fst snd]. exists r2. rewrite Z.add_assoc, <- (assoc_L (++)). split_and!; [done|done|lia].
Qed.

(** *** What a contract is made of *)

(** Each rule of the policies becomes one rule, in the order of their names. *)
Record compiles (input : Input) (rules : list Rule) : Prop := {
  co_rules : exists listed, Forall2 (rule_of (Input_BaseSHA input)) (sourced (Input_Policies input)) listed /\ rules ≡ₚ listed;
  co_order : ids_ordered rules;
  co_scripts : script_bytes rules <= MaxTotalScriptBytes
}.
Definition contract_manifest (input : Input) (rules : list Rule) : Manifest := makeManifest (Input_BaseSHA input) (Input_ResolvedSpecDigest input) rules.
Definition contract (input : Input) (rules : list Rule) : Compiled :=
  let body := Marshal (sorted_json (manifest_json (contract_manifest input rules))) in
  MkCompiled rules (contract_manifest input rules) body (digestBytes body).
(** Generations are 64-bit integers. *)
Definition int64_generations (input : Input) : Prop :=
  Forall (fun p => int64 (Version_Generation (Snapshot_Reference p)) = true) (Input_Policies input).

Lemma strictly_sorted l : Sorted (cmp_le String.compare) l -> NoDup l -> StronglySorted (fun a b => String.compare a b = Lt) l.
Proof.
  intros Hs%Sorted_StronglySorted Hn; [|apply _]. induction Hs as [|a l _ IH Hf]; [constructor|]. apply NoDup_cons in Hn as [Ha Hn].
  constructor; [by apply IH|]. rewrite Forall_forall in Hf |- *. intros b Hb. specialize (Hf b Hb). apply (cmp_le_cases String.compare) in Hf as [E|E]; [by subst|exact E].
Qed.
Lemma strictly_sorted_inv l : StronglySorted (fun a b => String.compare a b = Lt) l -> Sorted (cmp_le String.compare) l /\ NoDup l.
Proof.
  induction 1 as [|a l Hs [IH1 IH2] Hf]; [split; constructor|]. split.
  - constructor; [done|]. destruct Hf; constructor. unfold cmp_le. congruence.
  - apply NoDup_cons. split; [|done]. intros Ha. rewrite Forall_forall in Hf. specialize (Hf a Ha). by rewrite (cmp_refl String.compare) in Hf.
Qed.

Lemma sourced_perm policies : sourced (canonical_policies policies) ≡ₚ sourced policies.
Proof.
  unfold canonical_policies, sourced. rewrite flat_map_concat_map, map_map, <- flat_map_concat_map.
  assert (E : forall l, flat_map (fun p => map (pair (source_of (Snapshot_Reference (ordered p)))) (Snapshot_Rules (ordered p))) l ≡ₚ
    flat_map (fun p => map (pair (source_of (Snapshot_Reference p))) (Snapshot_Rules p)) l).
  { induction l as [|p l IH]; [done|]. cbn [flat_map]. rewrite IH. apply Permutation_app_tail. cbn. apply Permutation_map, sort_on_perm. }
  rewrite E. by rewrite sort_on_perm.
Qed.

Lemma sourced_ids policies : map (fun sr => PolicyRule_ID sr.2) (sourced policies) = concat (map rule_ids policies).
Proof.
  induction policies as [|p policies IH]; [done|]. cbn [sourced flat_map map concat]. fold (sourced policies). rewrite map_app, IH, map_map. done.
Qed.
Lemma rule_of_id base sr r : rule_of base sr r -> Rule_ID r = PolicyRule_ID sr.2.
Proof. destruct sr as [s raw]. cbn. destruct (PolicyRule_Check raw); [intros (? & _ & ->)|intros ->]; done. Qed.
Lemma listed_ids base srs listed : Forall2 (rule_of base) srs listed -> map Rule_ID listed = map (fun sr => PolicyRule_ID sr.2) srs.
Proof. induction 1 as [|sr r srs listed H _ IH]; [done|]. cbn [map]. by rewrite IH, (rule_of_id _ _ _ H). Qed.

Lemma shape_rule base source raw r : validateRuleShape raw = Ok tt -> valid_source source -> rule_of base (source, raw) r -> wf_rule r /\ backed r.
Proof.
  intros Hs Hv. pose proof Hs as Hshape. unfold validateRuleShape in Hs. destruct (policyIDPattern _) eqn:Hid in Hs; [|done]. cbn [negb] in Hs.
  destruct (_ && _) eqn:Hsev in Hs; [done|].
  assert (Hsev' : PolicyRule_Severity raw = SeverityBlocking \/ PolicyRule_Severity raw = SeverityAdvisory).
  { apply andb_false_iff in Hsev. rewrite !negb_false_iff, !bool_decide_eq_true in Hsev. done. }
  apply result_bind_ok in Hs as ([] & Hctx & Hs). cbn [rule_of].
  destruct (PolicyRule_Check raw) as [check|] eqn:Ec.
  - intros (body & Hl & ->). destruct (shape_check _ _ Hshape Ec) as (_ & _ & Hp). split; [|done]. constructor; cbn; try done.
    split_and!; [done|done|done|apply digestBytes_valid|done].
  - intros ->. split; [constructor; cbn; try done; by split_and!|]. unfold backed. cbn. intros Hb. by rewrite bool_decide_eq_true_2 in Hs.
Qed.

Lemma sourced_valid input : valid_input input ->
  Forall (fun sr => valid_source sr.1 /\ validateRuleShape sr.2 = Ok tt) (sourced (Input_Policies input)).
Proof.
  intros [_ _ _ [HV _ _ _]]. unfold sourced. induction HV as [|p l [Hs _ HR] _ IH]; [constructor|]. cbn [flat_map]. apply Forall_app. split; [|done].
  apply Forall_map. eapply Forall_impl; [exact HR|]. done.
Qed.

Lemma sourced_generation input : int64_generations input -> Forall (fun sr => int64 (Source_Generation sr.1) = true) (sourced (Input_Policies input)).
Proof.
  unfold int64_generations, sourced. induction 1 as [|p l Hp _ IH]; [constructor|]. cbn [flat_map]. apply Forall_app. split; [|done]. by apply Forall_map, Forall_true.
Qed.

Lemma compiles_wf input rules : valid_input input -> int64_generations input -> compiles input rules ->
  Forall (fun r => (wf_rule r /\ backed r) /\ int64 (Source_Generation (Rule_Source r)) = true) rules /\ slen rules <= MaxTotalRules.
Proof.
  intros HV Hg [(listed & HF & Hp) _ _]. pose proof (sourced_valid _ HV) as HS. pose proof (sourced_generation _ Hg) as HG.
  split.
  - rewrite Hp. clear Hp. revert HS HG. induction HF as [|[s raw] r srs listed Hr _ IH]; intros HS HG; [constructor|].
    inversion_clear HS as [|? ? [Hv Hs] HS']. inversion_clear HG as [|? ? Hi HG']. cbn [fst snd] in *.
    constructor; [|by apply IH]. split; [by eapply shape_rule|]. cbn in Hr. destruct (PolicyRule_Check raw); [destruct Hr as (? & _ & ->)|subst r]; done.
  - destruct HV as [_ _ _ [_ _ _ Ht]]. unfold slen in *. rewrite Hp, <- (Forall2_length _ _ _ HF). rewrite <- sourced_ids, length_map in Ht. done.
Qed.

Lemma contract_manifest_wf input rules : valid_input input -> int64_generations input -> compiles input rules -> manifest_wf (contract_manifest input rules).
Proof.
  intros HV Hg Hc. destruct (compiles_wf _ _ HV Hg Hc) as [HF Hl]. destruct HV as [Hb Hd _ _]. constructor.
  - cbn. repeat (apply Forall_cons; split); [done|by apply sha_text|by apply digest_text|by apply Forall_nil].
  - cbn. apply Forall_map. eapply Forall_impl; [exact HF|]. intros r [[Hr _] Hi]. by apply mrule_texts.
  - cbn. unfold slen, MaxTotalRules, maxArrayItems in *. rewrite length_map. lia.
Qed.

(** The rules that the loops leave are the ones the input compiles to. *)
Lemma compiled_listed input acc : valid_input input ->
  fold_result (compile_policy_step IsDNS1123Subdomain (Input_BaseSHA input) loader) (0, []) (canonical_policies (Input_Policies input)) = Ok acc <->
  exists listed, Forall2 (rule_of (Input_BaseSHA input)) (sourced (canonical_policies (Input_Policies input))) listed /\
    acc = (script_bytes listed, listed) /\ script_bytes listed <= MaxTotalScriptBytes.
Proof.
  intros HV. pose proof (sourced_valid _ HV) as HS. rewrite <- sourced_perm in HS.
  assert (Hsrc : Forall (fun p => valid_source (source_of (Snapshot_Reference p))) (canonical_policies (Input_Policies input))).
  { unfold canonical_policies. apply Forall_map. rewrite sort_on_perm. destruct HV as [_ _ _ [HP _ _ _]]. eapply Forall_impl; [exact HP|]. by intros p [Hs _ _]. }
  rewrite compile_policies by done. cbn [fst snd app]. setoid_rewrite Z.add_0_l.
  assert (Hiff : forall listed, Forall2 (fun sr r => compileRule (Input_BaseSHA input) sr.1 sr.2 loader = Ok r) (sourced (canonical_policies (Input_Policies input))) listed <->
    Forall2 (rule_of (Input_BaseSHA input)) (sourced (canonical_policies (Input_Policies input))) listed).
  { induction HS as [|[s raw] srs [_ Hr] _ IH]; intros listed; [split; intros H; inversion H; constructor|]. cbn [fst snd] in Hr.
    split; intros H; inversion H as [|? ? ? ? H1 H2]; subst; constructor; try (by apply IH); by apply (compileRule_ok _ s raw). }
  split; intros (listed & HF & -> & Hl); exists listed; (split_and!; [by apply Hiff|done|done]).
Qed.

(** Compilation yields exactly the contract of the rules that a valid input of
    bounded size compiles to, if its manifest is a strict JSON document. *)
Lemma compile_spec input c : int64_generations input ->
  (Compile IsDNS1123Subdomain input loader = Ok c <->
   valid_input input /\
   slen (marshalInput (Input_BaseSHA input) (Input_ResolvedSpecDigest input) (canonical_policies (Input_Policies input))) <= MaxInputBytes /\
   exists rules, compiles input rules /\ slen (Marshal (manifest_json (contract_manifest input rules))) <= MaxDocumentBytes /\ c = contract input rules).
Proof.
  intros Hg. unfold Compile. split.
  - intros (policies & [HV ->]%normalize_policies_ok & H)%result_bind_ok. split; [done|]. cbv zeta in H. destruct (_ <? _) eqn:Hin in H; [done|]. apply Z.ltb_ge in Hin.
    split; [done|]. apply result_bind_ok in H as (acc & Hacc & H). apply compiled_listed in Hacc as (listed & HF & -> & Hl); [|done]. cbn [snd] in H.
    exists (sort_on Rule_ID String.compare listed).
    assert (Hp : sort_on Rule_ID String.compare listed ≡ₚ listed) by apply sort_on_perm.
    assert (Hc : compiles input (sort_on Rule_ID String.compare listed)).
    { constructor.
      - destruct (Permutation_Forall2 (sourced_perm (Input_Policies input)) HF) as (listed' & Hp' & HF'). exists listed'. split; [done|]. by rewrite Hp.
      - apply strictly_sorted; [apply sort_on_keys, _|]. rewrite Hp, (listed_ids _ _ _ HF), sourced_perm, sourced_ids. apply HV.
      - unfold script_bytes in *. by rewrite (sumZ_perm _ _ _ Hp). }
    fold (contract_manifest input (sort_on Rule_ID String.compare listed)) in H. rewrite marshalManifest_exact in H by (by apply contract_manifest_wf).
    destruct (_ <? _) eqn:Hm in H; [done|]. apply Z.ltb_ge in Hm. cbn [result_bind] in H. destruct (_ <? _) in H; [done|]. injection H as <-. done.
  - intros (HV & Hin & rules & Hc & Hm & ->). rewrite (proj2 (normalize_policies_ok _ _ _) (conj HV eq_refl)). cbn [result_bind]. cbv zeta.
    rewrite (proj2 (Z.ltb_ge _ _) Hin). pose proof (contract_manifest_wf _ _ HV Hg Hc) as Hw. destruct Hc as [(listed & HF & Hp) Ho Hs].
    destruct (Permutation_Forall2 (symmetry (sourced_perm (Input_Policies input))) HF) as (listed' & Hp' & HF').
    assert (Hperm : listed' ≡ₚ rules) by (by rewrite Hp, Hp'). apply strictly_sorted_inv in Ho as [Hsorted Hnd].
    assert (Hscripts : script_bytes listed' <= MaxTotalScriptBytes) by (unfold script_bytes in *; by rewrite (sumZ_perm _ _ _ Hperm)).
    rewrite (proj2 (compiled_listed input (script_bytes listed', listed') HV)) by (by exists listed'). cbn [result_bind snd].
    assert (Esort : sort_on Rule_ID String.compare listed' = rules).
    { rewrite (sort_on_unique Rule_ID String.compare listed' rules); [apply sort_on_id; [apply _|done|done]|by rewrite Hperm|done]. }
    rewrite Esort. fold (contract_manifest input rules). rewrite marshalManifest_exact by done. rewrite (proj2 (Z.ltb_ge _ _) Hm). cbn [result_bind].
    pose proof (manifest_strict _ Hw) as Hst. rewrite (sorted_size _ 0) by done.
    rewrite (proj2 (Z.ltb_ge _ _)) by (assert (MaxDocumentBytes <= MaxManifestBytes) by done; lia). done.
Qed.
End Compiling.
End Contract.
