(* ===== verification/PolicyContractResults.v ===== *)
(** * Policy contracts: decoding and the results

    The contract that the broker and the verifier read from a manifest has the
    checks of the one that was compiled, and no input makes them accept a malformed
    one; then what compiles, independence of the order of policies and rules, the
    round trip of the manifest, and the checks that every reader of a contract
    gets. *)

From S2P Require Import Prelude Order GoStrings Paths Utf8 Digest Digits GoJson Unmarshal UnmarshalSpec StrictJson StrictJsonSpec StrictJsonNumbers.
From S2P Require Import StrictJsonCanon StrictJsonRoundTrip StrictJsonMarshal ContextPack ContextPackParts PolicyContract.
From S2P Require Import PolicyContractRules PolicyContractSpec.
Local Open Scope go_scope.
Local Open Scope string_scope.
Local Open Scope Z_scope.
Local Open Scope list_scope.

(** A rule without the bytes of its script. *)
Definition stripped (r : Rule) : Rule :=
  MkRule (Rule_ID r) (Rule_Severity r) (Rule_Context r) (Rule_Source r) (Rule_Check r) (Rule_ScriptSourcePath r) (Rule_ContextPackPath r)
    (Rule_ScriptDigest r) [] (match Rule_Check r with Some _ => true | None => false end).

Section Decode.
Context (IsDNS1123Subdomain : string -> list string) `{!DNS1123 IsDNS1123Subdomain}.
Notation wf_rule := (wf_rule IsDNS1123Subdomain).
Notation wf_contract := (wf_contract IsDNS1123Subdomain).

(** ** What is written reads back *)

Lemma decode_rule_stripped r : wf_rule r -> decode_rule (manifest_rule r) (Rule_Source r) = Ok (stripped r).
Proof.
  intros [Hid _ _ _ Hscr]. unfold decode_rule, manifest_rule, stripped. cbn [MRule_Check MRule_ID MRule_Severity MRule_Context].
  destruct (Rule_Check r) as [check|]; cbn [fmap option_fmap option_map].
  - destruct Hscr as (-> & Hp & Ho & Hd & _). destruct (output_path _ _ Hid Hp) as (Hb & _ & _). pose proof (script_path_ok _ Hp) as (Hpok & _).
    assert (Hbind : manifest_binding (Rule_ID r) (manifest_check r (MkCheck CheckKindScript ExpectExit0 ExpectedExitCode)) = true).
    { unfold manifest_binding, manifest_check. cbn [MCheck_Kind MCheck_Expect MCheck_ExpectedExitCode MCheck_ScriptSourcePath MCheck_ContextPackOutputPath
        MCheck_ScriptDigest Check_Kind Check_Expect Check_ExpectedExitCode].
      rewrite (bool_decide_eq_false_2 (Rule_ScriptSourcePath r = "")) by (by apply path_nonempty). rewrite (bool_decide_eq_false_2 (Rule_ContextPackPath r = "")).
      2:{ rewrite Ho. intros E. rewrite E in Hb. discriminate Hb. }
      rewrite (bool_decide_eq_true_2 (Rule_ContextPackPath r = _)), Hd by done. done. }
    rewrite Hbind. cbn [negb manifest_check MCheck_ScriptSourcePath]. rewrite Hp. done.
  - destruct Hscr as (-> & -> & -> & _). done.
Qed.

Lemma decode_entry seen out r rest : wf_rule r -> StronglySorted (fun a b => String.compare a b = Lt) (rev seen ++ Rule_ID r :: rest) ->
  decode_step IsDNS1123Subdomain (seen, out) (manifest_rule r) = Ok (Rule_ID r :: seen, out ++ [stripped r]).
Proof.
  intros Hr Hs. pose proof Hr as [Hid Hsev Hctx Hsrc _]. destruct (sorted_fresh _ _ _ Hs) as [Hnot Hprev]. destruct (id_name _ Hid) as [[Hne _] _].
  unfold decode_step. cbv zeta. cbn [MRule_ID manifest_rule fst snd MRule_Context MRule_Source MRule_Severity MRule_FailureMode].
  rewrite (bool_decide_eq_false_2 (Rule_ID r = "")), Hid, (bool_decide_eq_false_2 (Rule_ID r ∈ seen)) by done. cbn [negb orb].
  assert (Hp : match seen with previous :: _ => negb (bool_decide (String.compare previous (Rule_ID r) = Lt)) | [] => false end = false).
  { destruct seen; [done|]. by rewrite bool_decide_eq_true_2. }
  rewrite Hp, Hctx. cbn [result_bind]. unfold valid_source in Hsrc. rewrite Hsrc. cbn [result_bind].
  assert (Hv : (Rule_Severity r !=? SeverityBlocking) && (Rule_Severity r !=? SeverityAdvisory) = false) by (by destruct Hsev as [-> | ->]).
  rewrite Hv. unfold failureMode. rewrite bool_decide_eq_true_2 by done. cbn [negb].
  change (MkManifestRule _ _ _ _ _ _) with (manifest_rule r). rewrite decode_rule_stripped by done. done.
Qed.

Lemma decode_rules rules : forall seen out, Forall wf_rule rules -> StronglySorted (fun a b => String.compare a b = Lt) (rev seen ++ map Rule_ID rules) ->
  fold_result (decode_step IsDNS1123Subdomain) (seen, out) (map manifest_rule rules) = Ok (rev (map Rule_ID rules) ++ seen, out ++ map stripped rules).
Proof.
  induction rules as [|r rules IH]; intros seen out HF Hs; cbn [map fold_result]; [by rewrite app_nil_r|]. inversion_clear HF as [|? ? Hr HF'].
  cbn [map] in Hs. rewrite (decode_entry seen out r (map Rule_ID rules)) by done. cbn [result_bind].
  rewrite IH; [|done|cbn [rev]; by rewrite <- (assoc_L (++))]. cbn [rev]. by rewrite <- !(assoc_L (++)).
Qed.

Lemma stripped_descriptor r : wf_rule r -> checkDescriptor (stripped r) = checkDescriptor r.
Proof.
  intros [_ _ _ _ Hscr]. unfold checkDescriptor, stripped.
  cbn [Rule_ID Rule_Severity Rule_Context Rule_Source Rule_Check Rule_ScriptSourcePath Rule_ContextPackPath Rule_ScriptDigest].
  assert (Hh : HasScript (stripped r) = HasScript r); [|unfold stripped in Hh; by rewrite Hh].
  unfold HasScript at 1, stripped. cbn [Rule_scriptPresent Rule_scriptBytes]. destruct (Rule_Check r); [destruct Hscr as (_ & _ & _ & _ & ->)|destruct Hscr as (_ & _ & _ & ->)]; done.
Qed.

(** ** What is read is well formed *)

#[local] Instance string_lt_trans : Transitive (fun a b => String.compare a b = Lt).
Proof. intros a b c Hab Hbc. by eapply (cmp_trans (cmp := String.compare)). Qed.

Lemma snoc_sorted ids id : StronglySorted (fun a b => String.compare a b = Lt) (rev ids) ->
  match ids with previous :: _ => String.compare previous id = Lt | [] => True end -> StronglySorted (fun a b => String.compare a b = Lt) (rev (id :: ids)).
Proof.
  intros Hs Hp. cbn [rev]. apply StronglySorted_app. split; [|split; [done|repeat constructor]].
  intros x y Hx Hy. apply list_elem_of_singleton in Hy as ->. rewrite list_elem_of_In, <- in_rev, <- list_elem_of_In in Hx.
  destruct ids as [|previous ids]; [by apply not_elem_of_nil in Hx|]. apply elem_of_cons in Hx as [->|Hx]; [done|].
  apply (cmp_trans (cmp := String.compare) _ previous); [|done]. cbn [rev] in Hs. apply StronglySorted_app in Hs as (Hs & _ & _). apply Hs; [|apply list_elem_of_singleton; done].
  by rewrite list_elem_of_In, <- in_rev, <- list_elem_of_In.
Qed.

Lemma decode_rule_wf entry source r : policyIDPattern (MRule_ID entry) = true -> validateText (MRule_Context entry) MaxPolicyContextBytes = Ok tt ->
  valid_source IsDNS1123Subdomain source -> (MRule_Severity entry = SeverityBlocking \/ MRule_Severity entry = SeverityAdvisory) -> decode_rule entry source = Ok r -> wf_rule r /\ Rule_ID r = MRule_ID entry.
Proof.
  intros Hid Hctx Hsrc Hsev. unfold decode_rule. destruct (MRule_Check entry) as [check|].
  - destruct (negb _) eqn:Hb in |- *; [done|]. intros ([] & Hp & H)%result_bind_ok. injection H as <-. split; [|done].
    rewrite negb_false_iff in Hb. unfold manifest_binding in Hb. rewrite !andb_true_iff, !negb_true_iff, !bool_decide_eq_true, !bool_decide_eq_false, Z.eqb_eq in Hb.
    destruct Hb as [[[[[[Hk He] Hc] _] _] Ho] Hd]. constructor; cbn; try done. rewrite Hk, He, Hc. by split_and!.
  - intros [= <-]. split; [|done]. constructor; cbn; try done.
Qed.

(** The loop keeps the rules in order and well formed. *)
Definition decoded (acc : list string * list Rule) : Prop :=
  acc.1 = rev (map Rule_ID acc.2) /\ StronglySorted (fun a b => String.compare a b = Lt) (rev acc.1) /\ Forall wf_rule acc.2.

Lemma decode_step_keeps entry acc acc' : decoded acc -> decode_step IsDNS1123Subdomain acc entry = Ok acc' -> decoded acc' /\ slen acc'.2 = slen acc.2 + 1.
Proof.
  intros (Hids & Hs & HF). unfold decode_step. cbv zeta. destruct (_ || _) eqn:E1 in |- *; [done|]. apply orb_false_iff in E1 as [_ Hid%negb_false_iff].
  case_bool_decide as Hseen; [done|]. destruct (match acc.1 with [] => _ | _ => _ end) eqn:Hp; [done|].
  intros ([] & Hctx & H)%result_bind_ok. apply result_bind_ok in H as (source & [-> Hsrc]%normalizeSource_ok & H).
  destruct (_ && _) eqn:Hsev in H; [done|]. apply andb_false_iff in Hsev. rewrite !negb_false_iff, !bool_decide_eq_true in Hsev.
  destruct (negb _) in H; [done|]. apply result_bind_ok in H as (r & Hr & H). injection H as <-. cbn [fst snd].
  apply decode_rule_wf in Hr as [Hw Hrid]; [|done..]. split; [|unfold slen; rewrite length_app; cbn; lia]. split_and!; cbn [fst snd].
  - rewrite map_app, rev_app_distr. cbn. by rewrite Hrid, Hids.
  - apply snoc_sorted; [done|]. destruct acc.1 as [|previous]; [done|]. by rewrite negb_false_iff, bool_decide_eq_true in Hp.
  - apply Forall_app. split; [done|]. by apply Forall_singleton.
Qed.

Lemma decode_fold entries : forall acc acc', decoded acc -> fold_result (decode_step IsDNS1123Subdomain) acc entries = Ok acc' ->
  decoded acc' /\ slen acc'.2 = slen acc.2 + slen entries.
Proof.
  induction entries as [|e entries IH]; intros acc acc' Hd H; cbn [fold_result] in H; [injection H as <-; unfold slen; cbn; split; [done|lia]|].
  apply result_bind_ok in H as (acc1 & H1 & H). apply decode_step_keeps in H1 as [Hd1 Hl1]; [|done].
  destruct (IH _ _ Hd1 H) as [Hd' Hl']. split; [done|]. unfold slen in *. cbn [length]. lia.
Qed.

Lemma decode_sound body d : DecodeManifest IsDNS1123Subdomain body = Ok d -> wf_contract d /\ Compiled_manifestJSON d = body.
Proof.
  unfold DecodeManifest. destruct (_ || _) in |- *; [done|]. destruct (match Normalize body with Ok _ => _ | _ => _ end); [done|].
  destruct (parse_tree body ≫= _) as [m|]; [|done]. destruct (_ || _) in |- *; [done|]. destruct (_ <? _) eqn:Hn in |- *; [done|]. apply Z.ltb_ge in Hn.
  intros (acc & H & Hd)%result_bind_ok. injection Hd as <-. apply decode_fold in H as [(Hids & Hs & HF) Hl]; [|by split_and!; [|constructor|constructor]].
  split; [|done]. constructor; cbn; [done| |unfold slen in *; cbn in Hl; lia|done]. unfold ids_ordered. by rewrite Hids, rev_involutive in Hs.
Qed.
End Decode.

(** ** An example *)

Definition sample_dns (name : string) : list string := if forallb dns_byte (bytes name) then [] else ["invalid"].
#[global] Instance sample_dns_ok : DNS1123 sample_dns.
Proof. intros name. unfold sample_dns. destruct (forallb dns_byte (bytes name)) eqn:E; [|done]. intros _. by apply forallb_true. Qed.

Definition sample_script : list Z := bytes "exit 0".
Definition sample_loader : ScriptLoader := fun base path =>
  if path =?= "checks/lint.sh" then Ok (MkLoaded base path FileKindRegular sample_script (digestBytes sample_script)) else Err [ErrScriptMissing].
Definition lint_rule : PolicyRule := MkPolicyRule "lint" SeverityBlocking "run the linter" (Some (MkPolicyCheck CheckKindScript "checks/lint.sh" ExpectExit0)).
Definition style_rule : PolicyRule := MkPolicyRule "a-style" SeverityAdvisory "" None.
Definition docs_rule : PolicyRule := MkPolicyRule "docs" SeverityAdvisory "keep the docs" None.
Definition sample_policies : list PolicySnapshot :=
  [MkSnapshot (MkObjectVersion "quality" "uid-1" "17" 2) [lint_rule; style_rule]; MkSnapshot (MkObjectVersion "docs" "uid-2" "4" 1) [docs_rule]].
Definition sample_input : Input := MkInput "0123456789012345678901234567890123456789" (digestBytes [1]) sample_policies.
Definition other_order : Input :=
  MkInput (Input_BaseSHA sample_input) (Input_ResolvedSpecDigest sample_input)
    [MkSnapshot (MkObjectVersion "docs" "uid-2" "4" 1) [docs_rule]; MkSnapshot (MkObjectVersion "quality" "uid-1" "17" 2) [style_rule; lint_rule]].
Definition sample_contract : Compiled :=
  match Compile sample_dns sample_input (Some sample_loader) with Ok c => c | Err _ => MkCompiled [] (MkManifest "" "" "" []) [] "" end.

Lemma sample_compiles : Compile sample_dns sample_input (Some sample_loader) = Ok sample_contract.
Proof. unfold sample_contract. vm_compute. reflexivity. Qed.
Lemma sample_generations : int64_generations sample_input.
Proof. by repeat constructor. Qed.

(** ** What compiles *)

(** C16. Compilation succeeds exactly on valid inputs of bounded size whose scripts
    the loader has, as regular bounded texts under their own path, revision and
    digest, and whose manifest is within the strict JSON contract; the contract
    then has one rule per rule of the policies, in the order of their names, with
    their provenance and the exact bytes and digests of their scripts, and its
    digest is that of its canonical manifest. *)
Theorem contract_exact IsDNS1123Subdomain `{!DNS1123 IsDNS1123Subdomain} input loader c (Hg : int64_generations input) :
  Compile IsDNS1123Subdomain input loader = Ok c <->
  valid_input IsDNS1123Subdomain input /\
  slen (marshalInput (Input_BaseSHA input) (Input_ResolvedSpecDigest input) (canonical_policies (Input_Policies input))) <= MaxInputBytes /\
  exists rules, compiles loader input rules /\ slen (Marshal (manifest_json (contract_manifest input rules))) <= MaxDocumentBytes /\
    c = contract input rules.
Proof. by apply compile_spec. Qed.

Lemma contract_exact_witness : exists rules, compiles (Some sample_loader) sample_input rules /\ sample_contract = contract sample_input rules /\
  map Rule_ID rules = ["a-style"; "docs"; "lint"].
Proof.
  destruct (proj1 (contract_exact sample_dns sample_input (Some sample_loader) sample_contract sample_generations) sample_compiles) as (_ & _ & rules & Hc & _ & E).
  exists rules. split_and!; [done|done|]. change rules with (Compiled_rules (contract sample_input rules)). rewrite <- E. vm_compute. reflexivity.
Defined.

(** ** Order *)

(** The same policies with the same rules, in any order. *)
Record same_policies (i j : Input) : Prop := {
  sp_base : Input_BaseSHA j = Input_BaseSHA i;
  sp_spec : Input_ResolvedSpecDigest j = Input_ResolvedSpecDigest i;
  sp_policies : exists listed, Input_Policies i ≡ₚ listed /\
    Forall2 (fun p q => Snapshot_Reference p = Snapshot_Reference q /\ Snapshot_Rules p ≡ₚ Snapshot_Rules q) listed (Input_Policies j)
}.

Section Order.
Context (IsDNS1123Subdomain : string -> list string).

Lemma same_policy p q : Snapshot_Reference p = Snapshot_Reference q -> Snapshot_Rules p ≡ₚ Snapshot_Rules q ->
  valid_policy IsDNS1123Subdomain p -> valid_policy IsDNS1123Subdomain q.
Proof. intros Hr Hp [Hs Hc HF]. constructor; [by rewrite <- Hr|unfold slen in *; by rewrite <- Hp|by rewrite <- Hp]. Qed.

Lemma same_ids l k : Forall2 (fun p q => Snapshot_Reference p = Snapshot_Reference q /\ Snapshot_Rules p ≡ₚ Snapshot_Rules q) l k ->
  map policy_name l = map policy_name k /\ concat (map rule_ids l) ≡ₚ concat (map rule_ids k).
Proof.
  induction 1 as [|p q l k [Hr Hp] _ [IH1 IH2]]; [done|]. cbn [map concat]. rewrite IH1, IH2. unfold policy_name at 1 2. rewrite Hr. split; [done|].
  apply Permutation_app_tail. unfold rule_ids. by rewrite Hp.
Qed.

Lemma same_valid i j : same_policies i j -> valid_input IsDNS1123Subdomain i -> valid_input IsDNS1123Subdomain j.
Proof.
  intros [Hb Hs (listed & Hp & HF)] [H1 H2 H3 H4]. apply (valid_policies_perm _ _ _ Hp) in H4 as [V1 V2 V3 V4].
  destruct (same_ids _ _ HF) as [Hn Hi]. constructor; [by rewrite Hb|by rewrite Hs| |].
  - unfold slen in *. by rewrite <- (Forall2_length _ _ _ HF), <- Hp.
  - constructor; [|by rewrite <- Hn|by rewrite <- Hi|unfold slen in *; by rewrite <- Hi].
    clear -HF V1. induction HF as [|p q l k [Hr Hp] _ IH]; [constructor|]. inversion_clear V1. constructor; [by eapply same_policy|by apply IH].
Qed.

Lemma same_policies_sym i j : same_policies i j -> same_policies j i.
Proof.
  intros [Hb Hs (listed & Hp & HF)]. constructor; [done|done|].
  destruct (Permutation_Forall2 (symmetry Hp) HF) as (j' & Hj & HF'). exists j'. split; [done|].
  apply Forall2_flip. eapply Forall2_impl; [exact HF'|]. cbn. intros p q [Hr Hq]. by split; [symmetry|].
Qed.

Lemma same_canonical i j : same_policies i j -> valid_input IsDNS1123Subdomain i ->
  canonical_policies (Input_Policies j) = canonical_policies (Input_Policies i).
Proof.
  intros [_ _ (listed & Hp & HF)] [_ _ _ [_ Hn Hi _]]. unfold canonical_policies.
  assert (Hkey : forall l, NoDup (map policy_name l) -> NoDup (map version_order l)).
  { intros l H. apply (NoDup_fmap_1 fst). change (fst <$> map version_order l) with (map fst (map version_order l)). by rewrite map_map. }
  rewrite (sort_on_unique version_order compare_version (Input_Policies i) listed) by (done || by apply Hkey).
  assert (Hl : NoDup (map policy_name listed)) by (by rewrite <- Hp).
  assert (Hr : Forall (fun p => NoDup (rule_ids p)) listed).
  { assert (H : NoDup (concat (map rule_ids listed))) by (by rewrite <- Hp). clear -H. induction listed as [|p l IH]; [constructor|].
    cbn [map concat] in H. apply NoDup_app in H as (H & _ & H'). constructor; [done|by apply IH]. }
  destruct (same_ids _ _ HF) as [Hnames _].
  assert (E : map ordered listed = map ordered (Input_Policies j)).
  { clear -HF Hr. induction HF as [|p q l k [Href Hrules] _ IH]; [done|]. inversion_clear Hr. cbn [map]. f_equal; [|by apply IH].
    unfold ordered. rewrite Href. f_equal. by apply sort_on_unique; [apply _|..]. }
  pose proof (sort_on_map_by ordered version_order compare_version listed) as S1. pose proof (sort_on_map_by ordered version_order compare_version (Input_Policies j)) as S2.
  change (fun a => version_order (ordered a)) with version_order in S1, S2. rewrite <- S1, <- S2 by (apply Hkey; by rewrite <- ?Hnames). by rewrite E.
Qed.

Lemma compile_same i j loader c : same_policies i j -> Compile IsDNS1123Subdomain i loader = Ok c -> Compile IsDNS1123Subdomain j loader = Ok c.
Proof.
  intros Hs. unfold Compile. intros (policies & Hn & H)%result_bind_ok. pose proof Hn as [HV ->]%normalize_policies_ok.
  rewrite (proj2 (normalize_policies_ok IsDNS1123Subdomain j (canonical_policies (Input_Policies i)))).
  - cbn [result_bind]. by rewrite (sp_base _ _ Hs), (sp_spec _ _ Hs).
  - split; [by apply (same_valid i)|]. symmetry. by apply same_canonical.
Qed.
End Order.

(** C14. The order of the policies and of the rules within them does not change
    the contract, and an input that fails fails in every order. *)
Theorem contract_order_independent IsDNS1123Subdomain i j loader c (H : same_policies i j) :
  Compile IsDNS1123Subdomain i loader = Ok c <-> Compile IsDNS1123Subdomain j loader = Ok c.
Proof. split; apply compile_same; [done|]. by apply same_policies_sym. Qed.

Lemma contract_order_independent_witness : Compile sample_dns other_order (Some sample_loader) = Ok sample_contract.
Proof.
  refine (proj1 (contract_order_independent sample_dns sample_input other_order (Some sample_loader) sample_contract _) sample_compiles).
  constructor; [reflexivity|reflexivity|]. exists (reverse sample_policies). split; [symmetry; apply reverse_Permutation|].
  repeat constructor.
Defined.

(** ** Round trip *)

Section RoundTrip.
Context (IsDNS1123Subdomain : string -> list string) `{!DNS1123 IsDNS1123Subdomain}.

Lemma compiled_wf input loader c : int64_generations input -> Compile IsDNS1123Subdomain input loader = Ok c ->
  wf_contract IsDNS1123Subdomain c /\ Forall backed (Compiled_rules c) /\ manifest_wf (Compiled_manifest c) /\
  slen (Marshal (manifest_json (Compiled_manifest c))) <= MaxDocumentBytes /\
  Compiled_manifest c = makeManifest (Input_BaseSHA input) (Input_ResolvedSpecDigest input) (Compiled_rules c) /\
  Compiled_manifestJSON c = Marshal (sorted_json (manifest_json (Compiled_manifest c))) /\
  validBaseSHA (Input_BaseSHA input) = true /\ validDigest (Input_ResolvedSpecDigest input) = true.
Proof.
  intros Hg Hc. apply compile_spec in Hc as (HV & _ & rules & Hr & Hm & ->); [|done..]. destruct (compiles_wf _ _ _ _ HV Hg Hr) as [HF Hl].
  split_and!; try done; [| |by eapply contract_manifest_wf|apply HV|apply HV].
  - constructor; cbn; [|apply Hr|done|done]. eapply Forall_impl; [exact HF|]. by intros r [[? _] _].
  - eapply Forall_impl; [exact HF|]. by intros r [[_ ?] _].
Qed.

Lemma decode_compiled input loader c : int64_generations input -> Compile IsDNS1123Subdomain input loader = Ok c ->
  DecodeManifest IsDNS1123Subdomain (Compiled_manifestJSON c) =
  Ok (MkCompiled (map stripped (Compiled_rules c)) (Compiled_manifest c) (Compiled_manifestJSON c) (Compiled_digest c)).
Proof.
  intros Hg Hc. destruct (compiled_wf _ _ _ Hg Hc) as ([HF Ho Hl Hd] & _ & Hw & Hs & Em & Ej & Hb & Hr). rewrite Hd.
  pose proof (manifest_strict _ Hw) as Hst. destruct (normal_form_stable _ Hst Hs) as [Hn Hp]. pose proof (sorted_size _ 0 Hst) as Hsz.
  unfold DecodeManifest. rewrite Ej, Hsz, Hn. unfold ValidateObject. rewrite Hp. cbn [result_bind].
  assert (Ho' : is_object (value_of (sorted_json (manifest_json (Compiled_manifest c)))) = true) by done. rewrite Ho'. cbn [negb is_ok].
  assert (H0 : (slen (Marshal (manifest_json (Compiled_manifest c))) =? 0) = false) by done.
  rewrite H0, (proj2 (Z.ltb_ge _ _)) by (assert (MaxDocumentBytes <= MaxManifestBytes) by done; lia). cbn [orb].
  rewrite bool_decide_eq_true_2 by done. cbn [negb]. rewrite parse_tree_sorted by done. cbn [mbind option_bind]. rewrite contract_manifest_reads by done.
  rewrite Em. cbn [Manifest_SchemaVersion Manifest_BaseSHA Manifest_ResolvedSpecDigest Manifest_Rules makeManifest]. rewrite Hb, Hr.
  rewrite bool_decide_eq_true_2 by done. cbn [negb orb].
  rewrite (proj2 (Z.ltb_ge _ _)) by (unfold slen in *; by rewrite length_map). rewrite (decode_rules IsDNS1123Subdomain _ [] []) by done. done.
Qed.
End RoundTrip.

(** C11. The manifest of a compiled contract reads back: the same manifest, digest
    and bytes, the same rules without the bytes of their scripts, and the same
    checks for the harness and for the Gate. *)
Theorem contract_round_trip IsDNS1123Subdomain `{!DNS1123 IsDNS1123Subdomain} input loader c (Hg : int64_generations input)
  (Hc : Compile IsDNS1123Subdomain input loader = Ok c) :
  exists d, DecodeManifest IsDNS1123Subdomain (Compiled_manifestJSON c) = Ok d /\
    Compiled_manifest d = Compiled_manifest c /\ Compiled_digest d = Compiled_digest c /\ Compiled_manifestJSON d = Compiled_manifestJSON c /\
    Compiled_rules d = map stripped (Compiled_rules c) /\ SelfChecks d = SelfChecks c /\ GateChecks d = GateChecks c.
Proof.
  eexists. split; [by eapply decode_compiled|]. destruct (compiled_wf _ _ _ _ Hg Hc) as ([HF _ _ _] & _). split_and!; try done.
  - unfold SelfChecks. cbn. rewrite map_map. apply map_ext_in. intros r Hr%list_elem_of_In. rewrite Forall_forall in HF.
    unfold selfCheck. by rewrite (stripped_descriptor IsDNS1123Subdomain) by (by apply HF).
  - unfold GateChecks. cbn. rewrite map_map. apply map_ext_in. intros r Hr%list_elem_of_In. rewrite Forall_forall in HF.
    by rewrite (stripped_descriptor IsDNS1123Subdomain) by (by apply HF).
Qed.

Lemma contract_round_trip_witness : exists d, DecodeManifest sample_dns (Compiled_manifestJSON sample_contract) = Ok d /\
  SelfChecks d = SelfChecks sample_contract.
Proof.
  destruct (contract_round_trip sample_dns sample_input (Some sample_loader) sample_contract sample_generations sample_compiles) as (d & H & _ & _ & _ & _ & Hs & _).
  exists d. split; [exact H|exact Hs].
Defined.

(** ** Checks *)

(** What a consumer may rely on in a check for the Gate. *)
Record bound_check (body : list Z) (g : GateCheckDescriptor) : Prop := {
  bc_contract : Descriptor_ContractDigest (Gate_Check g) = digestBytes body;
  bc_blocking : Gate_RejectsOnFailure g = true <-> Descriptor_Severity (Gate_Check g) = SeverityBlocking;
  bc_argv : Descriptor_HasScript (Gate_Check g) = true ->
    Descriptor_Argv (Gate_Check g) =
      [ScriptRunner; contextPackOutputPath (Descriptor_RuleID (Gate_Check g)) (Descriptor_ScriptSourcePath (Gate_Check g))] /\
    Descriptor_ContextPackOutputPath (Gate_Check g) = contextPackOutputPath (Descriptor_RuleID (Gate_Check g)) (Descriptor_ScriptSourcePath (Gate_Check g));
  bc_none : Descriptor_HasScript (Gate_Check g) = false -> Descriptor_Argv (Gate_Check g) = []
}.

Lemma gate_checks_bound IsDNS1123Subdomain c : wf_contract IsDNS1123Subdomain c -> Forall (bound_check (Compiled_manifestJSON c)) (GateChecks c).
Proof.
  intros [HF _ _ Hd]. unfold GateChecks. apply Forall_map. eapply Forall_impl; [exact HF|]. intros r [_ _ _ _ Hscr]. constructor; cbn.
  - exact Hd.
  - apply bool_decide_eq_true.
  - destruct (Rule_Check r); [|destruct Hscr as (_ & _ & _ & ->); done]. destruct Hscr as (_ & _ & -> & _). done.
  - destruct (Rule_Check r); [destruct Hscr as (_ & _ & _ & _ & ->)|]; done.
Qed.

(** C13. Every contract, compiled or read from any bytes, has checks for the Gate
    that pass their own validation: in strict order, bound to the digest of the
    manifest, rejecting exactly the blocking rules, and running exactly the
    interpreter on the file of the rule; the self-checks are the same ones.  In a
    compiled contract every check that rejects has a script. *)
Theorem contract_checks IsDNS1123Subdomain `{!DNS1123 IsDNS1123Subdomain} c
  (H : (exists input loader, int64_generations input /\ Compile IsDNS1123Subdomain input loader = Ok c) \/
       (exists body, DecodeManifest IsDNS1123Subdomain body = Ok c)) :
  ValidateGateChecks (GateChecks c) = Ok tt /\ Forall (bound_check (Compiled_manifestJSON c)) (GateChecks c) /\
  map Gate_Check (GateChecks c) = SelfChecks c /\
  ((exists input loader, int64_generations input /\ Compile IsDNS1123Subdomain input loader = Ok c) ->
   Forall (fun g => Gate_RejectsOnFailure g = true -> Descriptor_HasScript (Gate_Check g) = true) (GateChecks c)).
Proof.
  assert (Hw : wf_contract IsDNS1123Subdomain c).
  { destruct H as [(input & loader & Hg & Hc)|(body & Hd)]; [by destruct (compiled_wf _ _ _ _ Hg Hc)|by destruct (decode_sound _ _ _ Hd)]. }
  split_and!; [by eapply gate_checks_valid|by eapply gate_checks_bound|unfold GateChecks, SelfChecks; by rewrite map_map|].
  intros (input & loader & Hg & Hc). destruct (compiled_wf _ _ _ _ Hg Hc) as (_ & Hb & _). unfold GateChecks. apply Forall_map.
  eapply Forall_impl; [exact Hb|]. cbn. intros r Hr Hs. apply bool_decide_eq_true in Hs. by apply Hr.
Qed.

Lemma contract_checks_witness : ValidateGateChecks (GateChecks sample_contract) = Ok tt /\
  map (fun g => (Descriptor_RuleID (Gate_Check g), Gate_RejectsOnFailure g, Descriptor_Argv (Gate_Check g))) (GateChecks sample_contract) =
  [("a-style", false, []); ("docs", false, []); ("lint", true, ["sh"; ".agents/policies/lint/lint.sh"])].
Proof.
  split; [|vm_compute; reflexivity]. apply (contract_checks sample_dns sample_contract). left. exists sample_input, (Some sample_loader).
  split; [exact sample_generations|exact sample_compiles].
Defined.
