(* ===== verification/PolicyPack.v ===== *)
(** * From a policy contract to the context pack

    The contract names the path at which the context pack holds each script and
    lets the harness run it there.  A compiled pack of the contract's rules has
    that very file, with the bytes of the contract's digest, if the name of the
    rule has no two dashes in a row; [safeName] of the pack compiler would merge
    them, which the path of the contract does not. *)

From S2P Require Import Prelude Order GoStrings Digest Digits GoJson Paths StrictJson ContextPack ContextPackOrder ContextPackUsage ContextPackParts ContextPackFiles ContextPackSpec.
From S2P Require Import PolicyContract PolicyContractRules PolicyContractSpec PolicyContractResults.
Local Open Scope go_scope.
Local Open Scope string_scope.
Local Open Scope Z_scope.
Local Open Scope list_scope.

(** ** Names *)

Fixpoint single_dashes (l : list Z) : bool :=
  match l with
  | a :: (b :: _) as rest => negb ((a =? dash) && (b =? dash)) && single_dashes rest
  | _ => true
  end.

Lemma strip_front_none encs fuel l b : head l = Some b -> forallb (fun e => negb (bool_decide (head e = Some b)) && negb (bool_decide (e = []))) encs = true ->
  strip_front encs fuel l = l.
Proof.
  destruct fuel as [|fuel]; [done|]. intros Hh He. cbn [strip_front]. destruct (find _ encs) as [e|] eqn:E; [|done].
  apply find_some in E as [Hin Hp]. apply bool_decide_eq_true in Hp as [k ->]. rewrite forallb_forall in He. specialize (He e Hin).
  rewrite andb_true_iff, !negb_true_iff, !bool_decide_eq_false in He. destruct He as [H1 H2]. destruct e as [|x e]; [done|]. cbn in Hh. by destruct H1.
Qed.

Lemma id_bytes (P : Z -> bool) : forallb P (seqZ 0x30 10 ++ seqZ 0x61 26) = true -> forall b, id_byte b = true -> P b = true.
Proof.
  rewrite forallb_true, Forall_forall. intros H b Hb. apply H. unfold id_byte, is_digit, between in Hb. rewrite elem_of_app, !elem_of_seqZ. lia.
Qed.

Lemma no_space (encs : list (list Z)) l b : encs = space_encodings \/ encs = map (@rev Z) space_encodings -> head l = Some b -> id_byte b = true ->
  strip_front encs (length l) l = l.
Proof.
  intros He Hh Hb. apply (strip_front_none _ _ _ b Hh). revert b Hb Hh. intros b Hb _. revert b Hb.
  apply (id_bytes (fun b => forallb (fun e => negb (bool_decide (head e = Some b)) && negb (bool_decide (e = []))) encs)).
  destruct He as [-> | ->]; vm_compute; reflexivity.
Qed.

Lemma dashed_id l : forall dashes, Forall (fun b => id_byte b || (b =? dash) = true) l -> single_dashes l = true ->
  (dashes = true -> head l <> Some dash) -> dashed dashes l = l.
Proof.
  induction l as [|b l IH]; intros dashes HF Hs Hd; [done|]. apply Forall_cons in HF as [Hb HF]. cbn [dashed]. change (name_rune b) with (id_byte b).
  assert (Hl : single_dashes l = true) by (destruct l; [done|]; cbn [single_dashes] in Hs; by apply andb_true_iff in Hs as [_ ?]).
  destruct (id_byte b) eqn:E; [by rewrite IH|]. cbn [orb] in Hb. apply Z.eqb_eq in Hb as ->. destruct dashes; [by destruct (Hd eq_refl)|].
  f_equal. apply IH; [done|done|]. intros _. destruct l as [|b l]; [done|]. cbn [single_dashes] in Hs. intros [= ->]. done.
Qed.

Lemma rev_head (l : list Z) : head (rev l) = last l.
Proof. induction l as [|b l _] using rev_ind; [done|]. by rewrite rev_app_distr, last_snoc. Qed.

Lemma trim_dash l first final : head l = Some first -> last l = Some final -> id_byte first = true -> id_byte final = true ->
  trim_right (Z.eqb dash) (trim_left (Z.eqb dash) l) = l.
Proof.
  intros Hh Hl Hf Hn. assert (Hd : forall b, id_byte b = true -> dash =? b = false) by (intros b Hb; apply (id_bytes (fun b => negb (dash =? b))) in Hb; [by apply negb_true_iff|done]).
  assert (E : trim_left (Z.eqb dash) l = l) by (destruct l as [|b l]; [done|]; injection Hh as ->; cbn; by rewrite (Hd _ Hf)).
  rewrite E. unfold trim_right. rewrite <- rev_head in Hl. destruct (rev l) as [|b k] eqn:Er; [done|]. injection Hl as ->. cbn [trim_left].
  rewrite (Hd _ Hn), <- Er. apply rev_involutive.
Qed.

(** The pack keeps the name of a rule. *)
Lemma safeName_id id k : policyIDPattern id = true -> single_dashes (bytes id) = true -> Pack_safeName id = Ok k -> k = id.
Proof.
  unfold policyIDPattern. rewrite !andb_true_iff, forallb_true. intros [[_ HF] Hends] Hs H. unfold Pack_safeName in H. apply result_bind_ok in H as (_ & _ & H).
  destruct (_ || _) in H; [done|]. cbv zeta in H. destruct (head (bytes id)) as [first|] eqn:Hh; [|done]. destruct (last (bytes id)) as [final|] eqn:Hl; [|done].
  apply andb_true_iff in Hends as [H1 H2].
  assert (Et : TrimSpace id = id).
  { unfold TrimSpace, trim_space. cbv zeta. rewrite (no_space _ _ first) by (done || by left). rewrite <- length_rev. rewrite (no_space _ _ final) by (done || (by right) || by rewrite rev_head).
    by rewrite rev_involutive, of_bytes_bytes. }
  assert (Hascii : Forall (fun b => b < 0x80) (bytes id)).
  { eapply Forall_impl; [exact HF|]. cbn. intros b. unfold id_byte, is_digit, between, dash. lia. }
  assert (Em : map lower_rune (bytes id) = bytes id).
  { rewrite <- (map_id (bytes id)) at 2. apply map_ext_in. intros b Hb%list_elem_of_In. rewrite Forall_forall in HF. specialize (HF b Hb). cbn in HF.
    unfold lower_rune, id_byte, is_digit, between, dash in *. repeat (destruct (_ && _) eqn:? in |- *; [lia|]). repeat (destruct (_ =? _) eqn:? in |- *; [lia|]). done. }
  rewrite Et, runes_ascii, Em, dashed_id in H by done. unfold Trim in H. rewrite of_bytes_bytes, (trim_dash _ first final), of_bytes_bytes in H by done.
  destruct (_ || _) in H; [done|]. by injection H as <-.
Qed.

(** ** Files *)

(** A rule with a script becomes a policy of the pack with the same script. *)
Lemma packed_rule id rule p : normalize_policy id rule = Ok p -> ContextPack.Rule_ScriptPath rule <> "" -> ContextPack.Rule_ScriptDigest rule <> "" ->
  rp_id p = id /\ rp_scriptPath p = ContextPack.Rule_ScriptPath rule /\ digestBytes (rp_scriptBytes p) = ContextPack.Rule_ScriptDigest rule /\
  rp_scriptBytes p = ContextPack.Rule_ScriptBytes rule.
Proof.
  intros H Hp Hd. unfold normalize_policy in H. apply result_bind_ok in H as (_ & _ & H). apply result_bind_ok in H as (_ & _ & H).
  apply result_bind_ok in H as (path & Hpath & H). rewrite (bool_decide_eq_false_2 _ Hp) in Hpath. apply path_returns in Hpath as ->.
  rewrite (bool_decide_eq_false_2 _ Hp) in H. cbn [negb andb] in H. destruct (bool_decide_reflect (ContextPack.Rule_ScriptBytes rule = [])) as [E|E]; [done|].
  rewrite andb_false_r in H. apply result_bind_ok in H as ([body d] & Hs & H). injection H as <-. cbn [rp_id rp_scriptPath rp_scriptBytes].
  unfold policy_script in Hs. rewrite (bool_decide_eq_false_2 _ E), (bool_decide_eq_false_2 _ Hd) in Hs. cbn [negb andb] in Hs.
  apply result_bind_ok in Hs as (_ & _ & Hs). cbv zeta in Hs. destruct (_ || _) eqn:Eq in Hs; [done|]. apply ok_pair in Hs as [<- _].
  rewrite orb_false_iff, !negb_false_iff, bool_decide_eq_true in Eq. destruct Eq as [_ ->]. done.
Qed.

Lemma packed_policies rules policies r : normalizePolicies rules = Ok policies -> r ∈ rules ->
  exists k p, Pack_safeName (ContextPack.Rule_ID r) = Ok k /\ normalize_policy k r = Ok p /\ p ∈ policies.
Proof.
  intros (output & Hd & [= <-])%result_bind_ok Hr. apply distinct_items_ok in Hd as (kbs & HF & _ & _ & ->). cbn [app].
  apply list_elem_of_lookup_1 in Hr as [i Hi]. destruct (Forall2_lookup_l _ _ _ _ _ HF Hi) as ([k p] & Hk & [H1 H2]). exists k, p. split_and!; [done|done|].
  rewrite (sort_on_perm rp_id String.compare). apply list_elem_of_fmap. exists (k, p). split; [done|]. by apply list_elem_of_lookup_2 in Hk.
Qed.

Lemma resolved_policies i r : Pack_normalizeInput i = Ok r -> normalizePolicies (ContextPack.Input_Policies i) = Ok (r_policies r).
Proof.
  unfold Pack_normalizeInput. intros H. do 11 (apply result_bind_ok in H as (? & _ & H)). apply result_bind_ok in H as (policies & Hp & H).
  do 6 (apply result_bind_ok in H as (? & _ & H)). cbv zeta in H. injection H as <-. exact Hp.
Qed.

Lemma rendered_script r s files pds sds stds p : renderFiles r s = Ok (files, pds, sds, stds) -> p ∈ r_policies r -> rp_scriptPath p <> "" ->
  makeFile (policy_output p) (rp_scriptBytes p) "policy-script" ∈ files.
Proof.
  unfold renderFiles. intros (agents & _ & H)%result_bind_ok Hin Hp. do 4 (apply result_bind_ok in H as ([? ?] & _ & H)). cbv zeta in H.
  injection H as <- _ _ _. rewrite (sort_on_perm File_Path String.compare). right. apply elem_of_app. right. apply elem_of_app. left.
  apply list_elem_of_In, in_flat_map. exists p. split; [by apply list_elem_of_In|]. unfold policy_files. rewrite (bool_decide_eq_false_2 _ Hp). by left.
Qed.

(** What the pack has of one rule. *)
Lemma script_packed i pack rule : budgets_ok (Input_Budgets i) -> ContextPack.Compile i = Some (Ok pack) -> rule ∈ ContextPack.Input_Policies i ->
  ContextPack.Rule_ScriptPath rule <> "" -> ContextPack.Rule_ScriptDigest rule <> "" ->
  exists k file, Pack_safeName (ContextPack.Rule_ID rule) = Ok k /\ file ∈ Pack_Files pack /\ File_Path file = contextPackOutputPath k (ContextPack.Rule_ScriptPath rule) /\
    File_Content file = ContextPack.Rule_ScriptBytes rule /\ File_Digest file = ContextPack.Rule_ScriptDigest rule.
Proof.
  intros Hb Hc Hin Hp Hd. destruct (compile_ends i Hb) as (result & E & Hend). rewrite Hc in E. injection E as <-.
  destruct Hend as [[_ E]|(r & Hn & _ & _ & [[_ E]|[_ Hend]])]; [done..|]. destruct Hend as (s & omissions & _ & [(files & Hr & _ & Hperm) _ _ _ _ _]).
  destruct (packed_policies _ _ _ (resolved_policies _ _ Hn) Hin) as (k & p & Hk & Hp' & Hpin).
  destruct (packed_rule _ _ _ Hp' Hp Hd) as (E1 & E2 & E3 & E4). exists k, (makeFile (policy_output p) (rp_scriptBytes p) "policy-script").
  split_and!; [done| | |exact E4|exact E3].
  - rewrite Hperm. right. eapply rendered_script; [exact Hr|done|by rewrite E2].
  - cbn [makeFile File_Path]. unfold policy_output. by rewrite E1, E2.
Qed.

(** C32. The scripts of a contract are in the context pack where its self-checks
    run them: in every pack compiled from the rules of a contract, each check with a
    script whose rule name has no two dashes in a row has a file at the path of its
    argument vector, and the digest of that file is the one of the check. *)
Theorem scripts_in_pack IsDNS1123Subdomain `{!DNS1123 IsDNS1123Subdomain} input loader c i pack (Hg : int64_generations input)
  (Hc : Compile IsDNS1123Subdomain input loader = Ok c) (Hb : budgets_ok (Input_Budgets i)) (Hi : ContextPack.Input_Policies i = ContextPackRules c)
  (Hp : ContextPack.Compile i = Some (Ok pack)) :
  Forall (fun check => Descriptor_HasScript check = true -> single_dashes (bytes (Descriptor_RuleID check)) = true ->
    exists file, file ∈ Pack_Files pack /\ Descriptor_Argv check = [ScriptRunner; File_Path file] /\ File_Path file = Descriptor_ContextPackOutputPath check /\
      File_Digest file = Descriptor_ScriptDigest check) (SelfChecks c).
Proof.
  destruct (compiled_wf _ _ _ _ Hg Hc) as ([HF _ _ _] & _). unfold SelfChecks. apply Forall_map, Forall_forall. intros r Hr. rewrite Forall_forall in HF.
  destruct (HF r Hr) as [Hid _ _ _ Hs]. cbn. intros Hh Hsd. destruct (Rule_Check r) as [check|]; [|by destruct Hs as (_ & _ & _ & Hn); rewrite Hn in Hh].
  destruct Hs as (_ & Hpath & Eout & Hd & _).
  destruct (script_packed i pack (contextPackRule r) Hb Hp) as (k & file & Hk & Hin & E1 & _ & E3).
  - rewrite Hi. unfold ContextPackRules. apply list_elem_of_fmap. by exists r.
  - cbn. intros E. by rewrite E in Hpath.
  - cbn. intros E. by rewrite E in Hd.
  - cbn in Hk, E1, E3. apply safeName_id in Hk as ->; [|done|done]. exists file. split_and!; [done| | |exact E3]; by rewrite Eout, E1.
Qed.

(** ** An example *)

Definition with_policies (i : PackInput) (policies : list ContextPack.PolicyRule) : PackInput :=
  ContextPack.MkInput (ContextPack.Input_BaseSHA i) (ContextPack.Input_ResolvedSpecDigest i) (Input_Task i) (Input_Instructions i) (Input_ExistingAgentsMD i)
    (Input_Boundaries i) policies (Input_PolicyContractManifest i) (Input_Skills i) (Input_Lexical i) (Input_RepoMap i) (Input_Symbols i) (Input_History i)
    (Input_Strategies i) (Input_Budgets i).
Definition contract_pack_input : PackInput := with_policies (sample_pack_input []) (ContextPackRules sample_contract).
Definition pack_paths (result : option (result pack_error Pack)) : list string :=
  match result with Some (Ok pack) => map File_Path (Pack_Files pack) | _ => [] end.

Lemma contract_pack_paths : pack_paths (ContextPack.Compile contract_pack_input) =
  [".agents/policies/lint/lint.sh"; ".agents/skills/go/SKILL.md"; ".agw/context/manifest.json"; "AGENTS.md"].
Proof. vm_compute. reflexivity. Qed.

Lemma contract_pack_budgets : budgets_ok (Input_Budgets contract_pack_input).
Proof. by repeat constructor. Qed.

Lemma scripts_in_pack_witness : exists pack, ContextPack.Compile contract_pack_input = Some (Ok pack) /\
  exists file, file ∈ Pack_Files pack /\ File_Path file = ".agents/policies/lint/lint.sh" /\ File_Digest file = digestBytes sample_script.
Proof.
  pose proof contract_pack_paths as Hs. destruct (ContextPack.Compile contract_pack_input) as [[pack|e]|] eqn:E; [|discriminate Hs|discriminate Hs].
  exists pack. split; [reflexivity|].
  pose proof (scripts_in_pack sample_dns sample_input (Some sample_loader) sample_contract contract_pack_input pack sample_generations sample_compiles contract_pack_budgets eq_refl E) as HF.
  assert (Hl : exists check, SelfChecks sample_contract !! 2%nat = Some check /\ Descriptor_HasScript check = true /\ Descriptor_RuleID check = "lint" /\
    Descriptor_ContextPackOutputPath check = ".agents/policies/lint/lint.sh" /\ Descriptor_ScriptDigest check = digestBytes sample_script).
  { eexists. split; [vm_compute; reflexivity|]. split_and!; vm_compute; reflexivity. }
  destruct Hl as (check & Hl & Hh & Hid & Ep & Ed). rewrite Forall_lookup in HF. destruct (HF _ _ Hl Hh) as (file & Hin & _ & E1 & E2); [rewrite Hid; reflexivity|].
  exists file. split; [exact Hin|]. split; [rewrite E1; exact Ep|rewrite E2; exact Ed].
Defined.

(** Two dashes in a row: the contract and the pack disagree on the path. *)
Definition dashes_input : PolicyContract.Input :=
  MkInput (Input_BaseSHA sample_input) (Input_ResolvedSpecDigest sample_input)
    [MkSnapshot (MkObjectVersion "quality" "uid-1" "17" 2)
       [MkPolicyRule "no--lint" SeverityBlocking "" (Some (MkPolicyCheck CheckKindScript "checks/lint.sh" ExpectExit0))]].
Lemma merged_dashes :
  match Compile sample_dns dashes_input (Some sample_loader) with
  | Ok c => map Descriptor_ContextPackOutputPath (SelfChecks c) = [".agents/policies/no--lint/lint.sh"] /\
            ".agents/policies/no-lint/lint.sh" ∈ pack_paths (ContextPack.Compile (with_policies (sample_pack_input []) (ContextPackRules c)))
  | Err _ => False
  end.
Proof. vm_compute. split; [reflexivity|]. left. Qed.
