(* ===== verification/PolicyExec.v ===== *)
(** * Policy checks that run (src/v3/internal/policyexec/policyexec.go,
    src/v3/internal/broker/policycheck.go, and the policy projections of
    src/v3/internal/verifycontroller/verifycontroller.go)

    The file system and the processes are those of a [Machine]: its state may
    change with every script that runs, in any way.  Reading a file leaves it as
    it is. *)

From S2P Require Import Prelude GoStrings Digest GoJson Paths GateEngine PolicyContract.
Local Open Scope go_scope.
Local Open Scope string_scope.
Local Open Scope Z_scope.
Local Open Scope list_scope.

Inductive exec_error : Type := ErrInvalidConfig | ErrScript.

Record FileInfo : Type := MkFileInfo { Info_Symlink : bool; Info_Regular : bool; Info_Dir : bool; Info_Size : Z }.

(** How a command ended: without an error, with an exit status, or not at all. *)
Inductive command_result : Type := CommandOk | CommandExit (code : Z) | CommandFailed.

Class Machine (W : Type) : Type := {
  Lstat : W -> string -> option FileInfo;
  ReadFile : W -> string -> option (list Z);
  RunCommand : W -> string -> list string -> command_result * W
}.

(** [int32(code)] *)
Definition to_int32 (n : Z) : Z := (n + 2 ^ 31) mod 2 ^ 32 - 2 ^ 31.

(** [filepath.IsAbs] and [filepath.Clean(name) == name] *)
Definition absolute (name : string) : bool := HasPrefix name "/" && bool_decide (path_Clean (bytes name) = bytes name).

Section Exec.
Context {W : Type} `{Machine W}.

(** [io.LimitReader] stops one byte after the bound. *)
Definition readScript (w : W) (name : string) : option (list Z) :=
  if (name =?= "") || negb (absolute name) then None
  else
    match Lstat w name with
    | None => None
    | Some info =>
      if Info_Symlink info || negb (Info_Regular info) || (Info_Size info <=? 0) || (MaxScriptBytes <? Info_Size info) then None
      else
        match ReadFile w name with
        | None => None
        | Some content =>
          let body := take (Z.to_nat (MaxScriptBytes + 1)) content in
          if (slen body =? 0) || (MaxScriptBytes <? slen body) || bool_decide (0 ∈ body) then None else Some body
        end
    end.

Definition validDirectory (w : W) (name : string) : bool :=
  negb ((name =?= "") || negb (absolute name) || (name =?= "/")) &&
  match Lstat w name with Some info => Info_Dir info && negb (Info_Symlink info) | None => false end.

Record run_state : Type := MkRun { run_seen : list string; run_error : option exec_error; run_observations : list CheckObservation; run_world : W }.

Definition first_error (s : run_state) : option exec_error := match run_error s with None => Some ErrScript | e => e end.
Definition observe (s : run_state) (id : string) (err : option exec_error) (o : CheckObservation) (w : W) : run_state :=
  MkRun (id :: run_seen s) err (run_observations s ++ [o]) w.

(** The script of a check: the observation, and whether it could not be verified
    or started. *)
Definition run_script (workingDir contractDigest : string) (resolve : CheckDescriptor -> option string) (check : CheckDescriptor) (w : W) :
  CheckObservation * bool * W :=
  let plain := MkObservation contractDigest (Descriptor_RuleID check) "" None false in
  if (Descriptor_Kind check !=? CheckKindScript) || (Descriptor_Expect check !=? ExpectExit0) ||
     negb (Descriptor_ExpectedExitCode check =? ExpectedExitCode) || (Descriptor_ScriptDigest check =?= "") then (plain, true, w)
  else
    match resolve check with
    | None => (plain, true, w)
    | Some scriptPath =>
      match readScript w scriptPath with
      | None => (plain, true, w)
      | Some body =>
        if digestBytes body !=? Descriptor_ScriptDigest check then (plain, true, w)
        else
          let observed := fun code => MkObservation contractDigest (Descriptor_RuleID check) (digestBytes body) code false in
          match RunCommand w workingDir [ScriptRunner; scriptPath] with
          | (CommandOk, w') => (observed (Some 0), false, w')
          | (CommandExit code, w') => (observed (Some (to_int32 code)), false, w')
          | (CommandFailed, w') => (observed None, true, w')
          end
      end
    end.

(** One check; an early return keeps what the scripts before it did. *)
Definition run_check (workingDir contractDigest : string) (resolve : CheckDescriptor -> option string) (s : run_state) (check : CheckDescriptor) :
  result (exec_error * W) run_state :=
  let id := Descriptor_RuleID check in
  if (id =?= "") || (Descriptor_ContractDigest check !=? contractDigest) || (Descriptor_ContractDigest check =?= "") then Err (ErrInvalidConfig, run_world s)
  else if bool_decide (id ∈ run_seen s) then Err (ErrInvalidConfig, run_world s)
  else if negb (Descriptor_HasScript check) then
    Ok (observe s id (run_error s) (MkObservation contractDigest id "" None true) (run_world s))
  else
    let '(o, failed, w) := run_script workingDir contractDigest resolve check (run_world s) in
    Ok (observe s id (if failed then first_error s else run_error s) o w).

Definition Run (ctx : bool) (workingDir contractDigest : string) (checks : list CheckDescriptor) (resolve : option (CheckDescriptor -> option string)) (w : W) :
  option (list CheckObservation) * option exec_error * W :=
  match resolve with
  | None => (None, Some ErrInvalidConfig, w)
  | Some resolve =>
    if negb ctx || negb (ValidDigest contractDigest) || negb (validDirectory w workingDir) || (MaxTotalRules <? slen checks)
    then (None, Some ErrInvalidConfig, w)
    else
      match fold_result (run_check workingDir contractDigest resolve) (MkRun [] None [] w) checks with
      | Err (e, w') => (None, Some e, w')
      | Ok s => (Some (run_observations s), run_error s, run_world s)
      end
  end.

(** ** The broker *)

Inductive policy_check_error : Type := CheckInvalidConfig | CheckInvalidRequest | CheckDenied | CheckExec (e : exec_error).

(** [byID] keeps the last check of a name. *)
Definition check_by_id (checks : list CheckDescriptor) (id : string) : option CheckDescriptor :=
  last (filter (fun c => Descriptor_RuleID c = id) checks).
Fixpoint select_ids (checks : list CheckDescriptor) (seen : list string) (ruleIDs : list string) : result policy_check_error (list CheckDescriptor) :=
  match ruleIDs with
  | [] => Ok []
  | id :: rest =>
    if bool_decide (id ∈ seen) then Err CheckInvalidRequest
    else
      match check_by_id checks id with
      | None => Err CheckDenied
      | Some check => let? output := select_ids checks (id :: seen) rest in Ok (check :: output)
      end
  end.
Definition selectSelfChecks (checks : list CheckDescriptor) (ruleIDs : list string) : result policy_check_error (list CheckDescriptor) :=
  match ruleIDs with [] => Ok checks | _ => select_ids checks [] ruleIDs end.

Definition context_script (contextRoot : string) (check : CheckDescriptor) : option string :=
  if Descriptor_ContextPackOutputPath check =?= "" then None else Some (path_Join [contextRoot; Descriptor_ContextPackOutputPath check]).

Definition PolicyCheck (contextRoot workspaceRoot : string) (contract : Compiled) (ctx : bool) (ruleIDs : list string) (w : W) :
  option (list CheckObservation) * option policy_check_error * W :=
  if negb ctx || (contextRoot =?= "") || (workspaceRoot =?= "") || (Compiled_digest contract =?= "") then (None, Some CheckInvalidConfig, w)
  else
    match selectSelfChecks (SelfChecks contract) ruleIDs with
    | Err e => (None, Some e, w)
    | Ok checks =>
      let '(observations, err, w') := Run ctx workspaceRoot (Compiled_digest contract) checks (Some (context_script contextRoot)) w in
      (observations, CheckExec <$> err, w')
    end.
End Exec.

Definition observation_json (o : CheckObservation) : json :=
  JObject ([("contractDigest", JString (Observation_ContractDigest o)); ("ruleId", JString (Observation_RuleID o))] ++
    omit_empty "scriptDigest" (Observation_ScriptDigest o) ++ omit_nil "exitCode" JInt (Observation_ExitCode o) ++
    (if Observation_Skipped o then [("skipped", JBool true)] else [])).
Definition observationsContractDigest (observations : list CheckObservation) : string :=
  match observations with [] => "" | o :: _ => Observation_ContractDigest o end.
(** The keys of the maps are written in order. *)
Definition policyCheckToolResult (observations : slice CheckObservation) : list Z :=
  let body := Marshal (JObject [("contractDigest", JString (observationsContractDigest (elems observations)));
                                ("observations", json_slice observation_json observations)]) in
  Marshal (JObject [("content", JArray [JObject [("text", JString (of_bytes body)); ("type", JString "text")]]); ("isError", JBool false)]).

(** ** The verifier *)

Definition policyRuleProjection (checks : list GateCheckDescriptor) : list GateEngine.PolicyRule :=
  map (fun check => {| pr_RuleID := Descriptor_RuleID (Gate_Check check); pr_ContractDigest := Descriptor_ContractDigest (Gate_Check check);
    pr_ScriptDigest := Descriptor_ScriptDigest (Gate_Check check); pr_Blocking := Gate_RejectsOnFailure check;
    pr_HasScript := Descriptor_HasScript (Gate_Check check) |}) checks.
Definition policyObservations (observations : list CheckObservation) : list PolicyObservation :=
  map (fun o => {| po_RuleID := Observation_RuleID o; po_ContractDigest := Observation_ContractDigest o; po_ScriptDigest := Observation_ScriptDigest o;
    po_ExitCode := Observation_ExitCode o; po_Skipped := Observation_Skipped o |}) observations.
