(* ===== verification/PolicyGate.v ===== *)
(** * From a policy contract to the Gate

    The verifier runs the checks of a contract and hands the observations to the
    Gate: the policy part of the Gate's decision says exactly that every blocking
    script exited with status zero, and only verified scripts run. *)

From S2P Require Import Prelude Order GoStrings Utf8 Digest GoJson Paths GateEngine GateSpec.
From S2P Require Import PolicyContract PolicyContractRules PolicyContractSpec PolicyContractResults PolicyExec.
Local Open Scope go_scope.
Local Open Scope string_scope.
Local Open Scope Z_scope.
Local Open Scope list_scope.

Section Runs.
Context {W : Type} `{Machine W} (workingDir digest : string) (resolve : CheckDescriptor -> option string).

(** What one check yields. *)
Definition outcome (check : CheckDescriptor) (w : W) : CheckObservation * bool * W :=
  if Descriptor_HasScript check then run_script workingDir digest resolve check w
  else (MkObservation digest (Descriptor_RuleID check) "" None true, false, w).

(** Checks that run one after the other. *)
Inductive runs : W -> list CheckDescriptor -> list (CheckObservation * bool) -> W -> Prop :=
| runs_nil w : runs w [] [] w
| runs_cons w check checks out w1 outs w2 : outcome check w = (out, w1) -> runs w1 checks outs w2 -> runs w (check :: checks) (out :: outs) w2.

(** A script that was read at its resolved path with the digest of the check, and
    that then ran. *)
Definition ran (check : CheckDescriptor) (code : Z) : Prop :=
  exists w path body res w', resolve check = Some path /\ readScript w path = Some body /\ digestBytes body = Descriptor_ScriptDigest check /\
    RunCommand w workingDir [ScriptRunner; path] = (res, w') /\
    match res with CommandOk => code = 0 | CommandExit n => code = to_int32 n | CommandFailed => False end.

Definition identified (check : CheckDescriptor) : Prop := Descriptor_RuleID check <> "" /\ Descriptor_ContractDigest check = digest.

Lemma runs_fold checks : forall s, digest <> "" -> Forall identified checks -> NoDup (map Descriptor_RuleID checks) ->
  Forall (fun id => id ∉ run_seen s) (map Descriptor_RuleID checks) ->
  exists outs w', runs (run_world s) checks outs w' /\
    fold_result (run_check workingDir digest resolve) s checks =
    Ok (MkRun (rev (map Descriptor_RuleID checks) ++ run_seen s) (if existsb snd outs then first_error s else run_error s) (run_observations s ++ map fst outs) w').
Proof.
  intros s Hd. revert s. induction checks as [|check checks IH]; intros s HI HN HS; cbn [map fold_result rev].
  { exists [], (run_world s). split; [constructor|]. cbn. rewrite app_nil_r. by destruct s. }
  inversion_clear HI as [|? ? [Hid Hc] HI']. apply NoDup_cons in HN as [Hn HN]. apply Forall_cons in HS as [Hs HS].
  destruct (outcome check (run_world s)) as [[o failed] w1] eqn:Eo.
  set (s1 := observe s (Descriptor_RuleID check) (if failed then first_error s else run_error s) o w1).
  assert (Estep : run_check workingDir digest resolve s check = Ok s1).
  { unfold run_check. cbv zeta. rewrite Hc, (bool_decide_eq_false_2 (_ = "")), (bool_decide_eq_true_2 (digest = digest)), (bool_decide_eq_false_2 (digest = "")),
      bool_decide_eq_false_2 by done. cbn [negb orb]. unfold outcome in Eo. destruct (Descriptor_HasScript check); cbn [negb].
    - by rewrite Eo.
    - injection Eo as <- <- <-. done. }
  rewrite Estep. cbn [result_bind]. destruct (IH s1 HI' HN) as (outs & w' & Hr & ->).
  { cbn. rewrite Forall_forall in HS |- *. intros id Hin. apply not_elem_of_cons. split; [by intros ->|by apply HS]. }
  exists ((o, failed) :: outs), w'. split; [by econstructor|]. cbn [existsb snd map fst]. unfold s1, observe, first_error. cbn [run_seen run_error run_observations].
  rewrite <- !(assoc_L (++)). cbn [app]. do 2 f_equal. destruct failed, (existsb snd outs), (run_error s); done.
Qed.

(** The observation of a check names it, and has an exit code only of a verified
    script that ran. *)
Record faithful (check : CheckDescriptor) (o : CheckObservation) : Prop := {
  fa_id : Observation_RuleID o = Descriptor_RuleID check;
  fa_contract : Observation_ContractDigest o = digest;
  fa_script : Descriptor_HasScript check = true -> forall code, Observation_ExitCode o = Some code ->
    Observation_ScriptDigest o = Descriptor_ScriptDigest check /\ ran check code;
  fa_skipped : Descriptor_HasScript check = false -> Observation_Skipped o = true /\ Observation_ScriptDigest o = "" /\ Observation_ExitCode o = None
}.

Lemma outcome_faithful check w o failed w' : outcome check w = (o, failed, w') -> faithful check o.
Proof.
  unfold outcome. destruct (Descriptor_HasScript check) eqn:Hh; [|intros [= <- _ _]; constructor; cbn; rewrite ?Hh; done]. unfold run_script. cbv zeta.
  destruct (_ || _) in |- *; [intros [= <- _ _]; constructor; cbn; rewrite ?Hh; done|]. destruct (resolve check) as [path|] eqn:Hr; [|intros [= <- _ _]; constructor; cbn; rewrite ?Hh; done].
  destruct (readScript w path) as [body|] eqn:Hb; [|intros [= <- _ _]; constructor; cbn; rewrite ?Hh; done].
  destruct (negb _) eqn:Hd in |- *; [intros [= <- _ _]; constructor; cbn; rewrite ?Hh; done|]. rewrite negb_false_iff, bool_decide_eq_true in Hd.
  destruct (RunCommand w workingDir [ScriptRunner; path]) as [[|n|] w1] eqn:Hc; intros [= <- _ _]; (constructor; cbn; [done|done| |by rewrite Hh]);
    intros _ code [= <-]; (split; [done|]); eexists w, path, body, _, w1; (split_and!; [done|done|done|exact Hc|done]).
Qed.

Lemma runs_faithful w checks outs w' : runs w checks outs w' -> Forall2 faithful checks (map fst outs).
Proof. induction 1 as [|w check checks [o failed] w1 outs w2 Ho _ IH]; [constructor|]. constructor; [by eapply outcome_faithful|done]. Qed.
End Runs.

(** ** The Gate *)

Section Gate.
Context (IsDNS1123Subdomain : string -> list string) {W : Type} `{Machine W}.

(** What the verdict means for one check and its observation. *)
Definition satisfied (g : GateCheckDescriptor) (o : CheckObservation) : Prop :=
  Gate_RejectsOnFailure g = true -> Descriptor_HasScript (Gate_Check g) = true -> Observation_ExitCode o = Some 0.

Notation projected g := {| pr_RuleID := Descriptor_RuleID (Gate_Check g); pr_ContractDigest := Descriptor_ContractDigest (Gate_Check g);
  pr_ScriptDigest := Descriptor_ScriptDigest (Gate_Check g); pr_Blocking := Gate_RejectsOnFailure g; pr_HasScript := Descriptor_HasScript (Gate_Check g) |}.
Notation observed o := {| po_RuleID := Observation_RuleID o; po_ContractDigest := Observation_ContractDigest o; po_ScriptDigest := Observation_ScriptDigest o;
  po_ExitCode := Observation_ExitCode o; po_Skipped := Observation_Skipped o |}.

Lemma passed_iff workingDir digest resolve g o : faithful workingDir digest resolve (Gate_Check g) o ->
  (policy_passed (projected g) (observed o) = true <-> (Descriptor_HasScript (Gate_Check g) = true -> Observation_ExitCode o = Some 0)).
Proof.
  intros [_ _ Hs Hk]. unfold policy_passed. cbn. destruct (Descriptor_HasScript (Gate_Check g)); cbn [negb].
  - rewrite andb_true_iff, !bool_decide_eq_true. split; [by intros [_ ?]|]. intros Hc. specialize (Hc eq_refl). by destruct (Hs eq_refl 0 Hc).
  - destruct (Hk eq_refl) as (-> & -> & ->). done.
Qed.

Lemma gate_ids c : wf_contract IsDNS1123Subdomain c -> map (fun g => Descriptor_RuleID (Gate_Check g)) (GateChecks c) = map Rule_ID (Compiled_rules c).
Proof. intros _. unfold GateChecks. by rewrite map_map. Qed.

Lemma gate_rules_wf c : wf_contract IsDNS1123Subdomain c -> Forall (rule_wf (Compiled_digest c)) (policyRuleProjection (GateChecks c)).
Proof.
  intros [HF _ _ _]. unfold policyRuleProjection, GateChecks. apply Forall_map, Forall_map. eapply Forall_impl; [exact HF|]. intros r [Hid _ _ _ Hscr].
  unfold rule_wf. cbn. destruct (id_name _ Hid) as [[Hne _] _]. split_and!; [done|done|].
  destruct (Rule_Check r); [destruct Hscr as (_ & _ & _ & Hd & ->); by apply validDigest_iff|destruct Hscr as (_ & _ & Hd & ->); done].
Qed.

Lemma evidence_verdict c obs workingDir resolve : wf_contract IsDNS1123Subdomain c ->
  Forall2 (faithful workingDir (Compiled_digest c) resolve) (map Gate_Check (GateChecks c)) obs ->
  (Forall (fun o => op_passed o = true) (evaluatePolicyChecks (policyRuleProjection (GateChecks c)) (policyObservations obs)) <-> Forall2 satisfied (GateChecks c) obs).
Proof.
  intros Hw Hf. change (map Gate_Check (GateChecks c)) with (Gate_Check <$> GateChecks c) in Hf. rewrite Forall2_fmap_l in Hf. pose proof (Forall2_length _ _ _ Hf) as Hlen. pose proof Hw as [_ Ho Hl Hd].
  assert (Hn : slen (GateChecks c) <= 512) by (unfold slen, GateChecks in *; by rewrite length_map).
  assert (Hlp : slen (policyRuleProjection (GateChecks c)) <= 512) by (unfold slen, policyRuleProjection in *; by rewrite length_map).
  assert (Hlo : slen (policyObservations obs) <= 512) by (unfold slen, policyObservations in *; rewrite length_map; rewrite <- Hlen; done).
  rewrite policy_block by done.
  apply strictly_sorted_inv in Ho as [_ Hnd]. rewrite <- gate_ids in Hnd by done.
  assert (Hids : map po_RuleID (policyObservations obs) = map pr_RuleID (policyRuleProjection (GateChecks c))).
  { unfold policyObservations, policyRuleProjection. rewrite !map_map. cbn. clear -Hf. induction Hf as [|g o gs os [Hi _ _ _] _ IH]; [done|]. cbn [map]. by rewrite Hi, IH. }
  rewrite Forall2_same_length_lookup in Hf. destruct Hf as [_ Hf]. unfold policy_evidenced. split.
  - intros [[E _]|(contract & _ & _ & _ & _ & _ & _ & _ & _ & Hpass)].
    { destruct (GateChecks c); [|done]. destruct obs; [constructor|done]. }
    apply Forall2_same_length_lookup. split; [done|]. intros i g o Hg Hob Hrej. apply (passed_iff _ _ _ _ _ (Hf i g o Hg Hob)).
    apply Hpass; [..|exact Hrej]; cbn;
      [apply list_elem_of_fmap; exists g; split; [done|exact (list_elem_of_lookup_2 _ _ _ Hg)]
      |apply list_elem_of_fmap; exists o; split; [done|exact (list_elem_of_lookup_2 _ _ _ Hob)]|].
    apply (Hf i g o Hg Hob).
  - intros Hsat. destruct (GateChecks c) as [|g0 gs] eqn:Eg; [left; by destruct obs|]. right. exists (Compiled_digest c). rewrite <- Eg in *.
    apply Forall2_same_length_lookup in Hsat as [_ Hsat]. split_and!.
    + rewrite Hd. apply ValidDigest_digestBytes.
    + by rewrite Eg.
    + unfold slen, policyRuleProjection in *. by rewrite length_map.
    + unfold slen, policyObservations in *. rewrite length_map. lia.
    + by apply gate_rules_wf.
    + unfold policyRuleProjection. by rewrite map_map.
    + apply Forall_map, Forall_lookup. intros i o Hob. destruct (lookup_lt_is_Some_2 (GateChecks c) i) as [g Hg].
      { rewrite Hlen. by eapply lookup_lt_Some. } apply (Hf i g o Hg Hob).
    + by rewrite Hids.
    + intros rule o Hr Hob Hid Hblock. unfold policyRuleProjection in Hr. apply list_elem_of_fmap in Hr as (g & -> & Hg).
      apply list_elem_of_fmap in Hob as (o' & -> & Hob). apply list_elem_of_lookup_1 in Hg as [i Hg], Hob as [j Hob].
      destruct (lookup_lt_is_Some_2 (GateChecks c) j) as [g' Hg']. { rewrite Hlen. by eapply lookup_lt_Some. }
      assert (i = j) as ->.
      { apply (NoDup_lookup _ i j (Descriptor_RuleID (Gate_Check g)) Hnd); rewrite list_lookup_fmap; [by rewrite Hg|]. rewrite Hg'. cbn. f_equal. cbn in Hid.
        rewrite <- Hid. symmetry. apply (Hf j g' o' Hg' Hob). }
      assert (g' = g) as -> by congruence. apply (passed_iff _ _ _ _ _ (Hf j g o' Hg Hob)). by apply (Hsat j g o' Hg Hob).
Qed.
End Gate.

(** The checks of a contract always run to the end. *)
Lemma contract_runs IsDNS1123Subdomain {W : Type} `{Machine W} c workingDir resolve w :
  wf_contract IsDNS1123Subdomain c -> validDirectory w workingDir = true ->
  exists outs w', runs workingDir (Compiled_digest c) resolve w (map Gate_Check (GateChecks c)) outs w' /\
    Run true workingDir (Compiled_digest c) (map Gate_Check (GateChecks c)) (Some resolve) w =
    (Some (map fst outs), if existsb snd outs then Some ErrScript else None, w').
Proof.
  intros Hw Hdir. pose proof Hw as [HF Ho Hl Hd].
  assert (Hne : Compiled_digest c <> "") by (rewrite Hd; intros E; pose proof (ValidDigest_digestBytes (Compiled_manifestJSON c)) as Hv; by rewrite E in Hv).
  destruct (runs_fold workingDir (Compiled_digest c) resolve (map Gate_Check (GateChecks c)) (MkRun [] None [] w) Hne) as (outs & w' & Hr & Hf).
  - unfold GateChecks. rewrite map_map. apply Forall_map. eapply Forall_impl; [exact HF|]. intros r [Hid _ _ _ _]. by destruct (id_name _ Hid) as [[? _] _].
  - apply strictly_sorted_inv in Ho as [_ Hnd]. unfold GateChecks. by rewrite !map_map.
  - apply Forall_forall. intros id _. apply not_elem_of_nil.
  - exists outs, w'. split; [done|]. unfold Run. assert (Hv : ValidDigest (Compiled_digest c) = true) by (rewrite Hd; apply ValidDigest_digestBytes). rewrite Hv, Hdir. cbn [negb orb].
    rewrite (proj2 (Z.ltb_ge _ _)) by (unfold slen, GateChecks in *; by rewrite !length_map). rewrite Hf. cbn [run_observations run_error run_world app]. done.
Qed.

(** C6. The verifier's run of a compiled contract answers every check in order,
    on any machine; a script runs only after it was read at its resolved path with
    the digest of the contract; and the Gate's policy checks pass exactly if every
    blocking check observed the exit status zero. *)
Theorem contract_gate_verdict IsDNS1123Subdomain `{!DNS1123 IsDNS1123Subdomain} {W : Type} `{Machine W} input loader c workingDir resolve w
  (Hg : int64_generations input) (Hc : Compile IsDNS1123Subdomain input loader = Ok c) (Hdir : validDirectory w workingDir = true) :
  exists outs w', runs workingDir (Compiled_digest c) resolve w (map Gate_Check (GateChecks c)) outs w' /\
    Run true workingDir (Compiled_digest c) (map Gate_Check (GateChecks c)) (Some resolve) w =
      (Some (map fst outs), if existsb snd outs then Some ErrScript else None, w') /\
    Forall2 (faithful workingDir (Compiled_digest c) resolve) (map Gate_Check (GateChecks c)) (map fst outs) /\
    (Forall (fun o => op_passed o = true) (evaluatePolicyChecks (policyRuleProjection (GateChecks c)) (policyObservations (map fst outs))) <->
     Forall2 (fun g o => Gate_RejectsOnFailure g = true -> Observation_ExitCode o = Some 0) (GateChecks c) (map fst outs)).
Proof.
  destruct (compiled_wf _ _ _ _ Hg Hc) as (Hw & Hb & _). destruct (contract_runs IsDNS1123Subdomain c workingDir resolve w Hw Hdir) as (outs & w' & Hr & HR).
  pose proof (runs_faithful _ _ _ _ _ _ _ Hr) as Hf. exists outs, w'. split_and!; try done. rewrite (evidence_verdict IsDNS1123Subdomain c _ workingDir resolve) by done.
  assert (Hback : Forall (fun g => Gate_RejectsOnFailure g = true -> Descriptor_HasScript (Gate_Check g) = true) (GateChecks c)).
  { unfold GateChecks. apply Forall_map. eapply Forall_impl; [exact Hb|]. cbn. intros r Hr' Hs. apply bool_decide_eq_true in Hs. by apply Hr'. }
  clear -Hback. generalize (map fst outs). intros obs. revert obs. induction Hback as [|g gs Hg _ IH]; intros [|o obs]; (split; intros HF; inversion HF; subst; constructor);
    try (by apply IH); [intros Hrej; by auto|intros Hrej _; by auto].
Qed.

(** A machine with one script that succeeds; its state counts the runs. *)
#[global] Instance sample_machine : Machine nat := {|
  Lstat w name := if name =?= "/work" then Some (MkFileInfo false false true 0) else if name =?= "/work/checks/lint.sh" then Some (MkFileInfo false true false 6) else None;
  ReadFile w name := if name =?= "/work/checks/lint.sh" then Some sample_script else None;
  RunCommand w _ _ := (CommandOk, S w)
|}.
Definition sample_resolve (check : CheckDescriptor) : option string := Some (path_Join ["/work"; Descriptor_ScriptSourcePath check]).

Lemma contract_gate_verdict_witness : exists outs w', runs "/work" (Compiled_digest sample_contract) sample_resolve 0%nat (map Gate_Check (GateChecks sample_contract)) outs w' /\
  map (fun out => (Observation_RuleID out.1, Observation_ExitCode out.1)) outs = [("a-style", None); ("docs", None); ("lint", Some 0)] /\ w' = 1%nat.
Proof.
  destruct (contract_gate_verdict sample_dns sample_input (Some sample_loader) sample_contract "/work" sample_resolve 0%nat sample_generations sample_compiles)
    as (outs & w' & Hr & HR & _); [vm_compute; reflexivity|].
  exists outs, w'. split; [exact Hr|].
  assert (E : Run true "/work" (Compiled_digest sample_contract) (map Gate_Check (GateChecks sample_contract)) (Some sample_resolve) 0%nat =
    (Some (map fst outs), if existsb snd outs then Some ErrScript else None, w')) by exact HR.
  assert (E1 : (fun r : option (list CheckObservation) * option exec_error * nat => (map (fun o => (Observation_RuleID o, Observation_ExitCode o)) (default [] r.1.1), r.2))
    (Run true "/work" (Compiled_digest sample_contract) (map Gate_Check (GateChecks sample_contract)) (Some sample_resolve) 0%nat) =
    ([("a-style", None); ("docs", None); ("lint", Some 0)], 1%nat)) by (vm_compute; reflexivity).
  rewrite E in E1. cbv beta in E1. change ((map (fun o => (Observation_RuleID o, Observation_ExitCode o)) (map fst outs), w') = ([("a-style", None); ("docs", None); ("lint", Some 0)], 1%nat)) in E1.
  rewrite map_map in E1. injection E1 as E1 E2. split; [exact E1|exact E2].
Defined.
