(* ===== verification/Status.v ===== *)
(** * The status of an AgentRun (src/v3/internal/status/status.go)

    The bounded projection of a status, its validation and encoding, and the
    setters the controllers use.  A [metav1.Time] is its instant, zero for the zero
    time, which is all that the code and its JSON depend on; that JSON is the
    parameter [time_json].  Statuses are values, so that [cloneStatus] is the
    identity; a setter changes the status it is given only when it succeeds. *)

From stdpp Require Import pretty.
From S2P Require Import Prelude Order GoStrings Digest GoJson Ip Url Fsm GateEngine.
Local Open Scope go_scope.
Local Open Scope string_scope.
Local Open Scope Z_scope.
Local Open Scope list_scope.

Definition MaxStatusBytes : Z := Z.shiftl 64 10.
Definition MaxStatusConditions : Z := 16.
Definition MaxStatusChecks : Z := 32.
Definition MaxStatusMessageBytes : Z := 2048.
Definition MaxFailureCodeBytes : Z := 128.
Definition MaxReasonBytes : Z := 64.
Definition MaxConditionTypeBytes : Z := 64.
Definition MaxGateCheckNameBytes : Z := 128.
Definition MaxGateCheckMessageBytes : Z := 1024.
Definition MaxChildNameBytes : Z := 253.
Definition MaxChildKindBytes : Z := 63.
Definition MaxArtifactURIBytes : Z := 1024.
Definition MaxDigestBytes : Z := 7 + 64.
Definition Status_MaxBaseSHABytes : Z := 64.
Definition Status_MaxPullRequestURLBytes : Z := 1024.

(** [ErrText] stands for the unnamed errors of [validateBoundedText], and
    [ErrLifecycle] for those of the lifecycle. *)
Inductive status_error : Type :=
| ErrStatusTooLarge
| ErrInvalidStatus
| ErrTooManyConditions
| ErrTooManyGateChecks
| ErrText
| ErrLifecycle (e : Fsm.error).

(** ** Data (src/v3/api/v1alpha1/types.go) *)

Record ArtifactRef : Type := MkArtifactRef {
  Ref_URI : string;
  Ref_Digest : string;
  Ref_Kind : string;
  ArtifactRef_Name : string;
  Ref_MediaType : string;
  Ref_SizeBytes : Z
}.
Record ChildRef : Type := MkChildRef {
  ChildRef_Name : string;
  ChildRef_Kind : string;
  ChildRef_UID : string;
  ChildRef_Role : string;
  ChildRef_SpecDigest : string;
  PlanFingerprint : string
}.
Record PatchSummary : Type := MkPatchSummary {
  Patch_Ref : option ArtifactRef;
  Patch_ManifestRef : option ArtifactRef;
  Patch_FilesChanged : Z;
  Patch_LinesChanged : Z
}.
Record GateResult : Type := MkGateResult {
  GateResult_Name : string;
  GateResult_UID : string;
  GateResult_Generation : Z;
  GateResult_Mode : string;
  GateResult_Verdict : string;
  GateResult_ReportRef : option ArtifactRef;
  GateResult_Checks : list GateCheck
}.
Record EffectSummary : Type := MkEffectSummary { Effect_Key : string; Effect_State : string; Effect_PullRequestURL : string }.
Record FailureStatus : Type := MkFailure { Failure_Code : string; Failure_Message : string; Failure_Retryable : bool }.
Record OrchestrationRef : Type := MkOrchestrationRef {
  Orch_APIVersion : string; Orch_Kind : string; Orch_Namespace : string; Orch_Name : string; Orch_UID : string;
  Orch_Generation : Z; Orch_RunGeneration : Z; Orch_SpecDigest : string;
  Orch_TemplateName : string; Orch_TemplateUID : string; Orch_TemplateDigest : string
}.
Record OrchestrationStatus : Type := MkOrchestration {
  Orch_Backend : string; Orch_Phase : string; Orch_Message : string; Orch_Reference : OrchestrationRef
}.
Record Condition : Type := MkCondition {
  Condition_Type : string;
  Condition_Status : string;
  Condition_Reason : string;
  Condition_Message : string;
  Condition_ObservedGeneration : Z;
  LastTransitionTime : Z
}.

Record AgentRunStatus : Type := MkStatus {
  Status_Phase : Phase;
  Status_ObservedGeneration : Z;
  Status_SpecDigest : string;
  ResolvedSpecRef : option ArtifactRef;
  ContextPackRef : option ArtifactRef;
  Status_BaseSHA : string;
  WorkSandboxRef : option ChildRef;
  VerifySandboxRef : option ChildRef;
  Status_Patch : option PatchSummary;
  Status_Gate : option GateResult;
  Status_Effect : option EffectSummary;
  Orchestration : option OrchestrationStatus;
  EventStreamRef : option ArtifactRef;
  ToolCallCount : Z;
  CostUSD : string;
  Status_Failure : option FailureStatus;
  StartedAt : option Z;
  VerificationStartedAt : option Z;
  CompletedAt : option Z;
  Conditions : list Condition;
  Children : list ChildRef;
  Artifacts : list ArtifactRef;
  Published : bool
}.

Definition ConditionTrue : string := "True".
Definition ConditionFalse : string := "False".
Definition ConditionUnknown : string := "Unknown".

(** ** The bounded projection *)

(** The longest prefix of at most [n] bytes that is UTF-8. *)
Fixpoint utf8_prefix (n : nat) (l : list Z) : list Z :=
  match n with
  | O => []
  | S n' => if valid_utf8 (take n l) then take n l else utf8_prefix n' l
  end.

Definition boundedString (value : string) (maxBytes : Z) : string :=
  if len value <=? maxBytes then value else of_bytes (utf8_prefix (Z.to_nat maxBytes) (bytes value)).

Definition boundedArtifactRef (ref : ArtifactRef) : ArtifactRef :=
  MkArtifactRef (boundedString (Ref_URI ref) MaxArtifactURIBytes) (boundedString (Ref_Digest ref) MaxDigestBytes)
    (boundedString (Ref_Kind ref) 64) (boundedString (ArtifactRef_Name ref) 128) (boundedString (Ref_MediaType ref) 128) (Ref_SizeBytes ref).

Definition bounded_child (ref : ChildRef) : ChildRef :=
  MkChildRef (boundedString (ChildRef_Name ref) MaxChildNameBytes) (boundedString (ChildRef_Kind ref) MaxChildKindBytes) (ChildRef_UID ref)
    (ChildRef_Role ref) (ChildRef_SpecDigest ref) (boundedString (PlanFingerprint ref) MaxDigestBytes).

Definition bounded_check (check : GateCheck) : GateCheck :=
  {| Name := boundedString (Name check) MaxGateCheckNameBytes; Passed := Passed check;
     Message := boundedString (Message check) MaxGateCheckMessageBytes |}.

Definition bounded_condition (c : Condition) : Condition :=
  MkCondition (boundedString (Condition_Type c) MaxConditionTypeBytes) (Condition_Status c) (boundedString (Condition_Reason c) MaxReasonBytes)
    (boundedString (Condition_Message c) MaxStatusMessageBytes) (Condition_ObservedGeneration c) (LastTransitionTime c).

(** A condition in the place of the first one of its type; the types of [bounded]
    are the keys of [indices]. *)
Fixpoint replace_condition (c : Condition) (l : list Condition) : list Condition :=
  match l with
  | [] => []
  | d :: rest => if Condition_Type d =?= Condition_Type c then c :: rest else d :: replace_condition c rest
  end.
Definition has_type (kind : string) (l : list Condition) : bool := existsb (fun d => Condition_Type d =?= kind) l.

Definition add_condition (bounded : list Condition) (c : Condition) : list Condition :=
  let c := bounded_condition c in
  if has_type (Condition_Type c) bounded then replace_condition c bounded
  else if MaxStatusConditions <=? slen bounded then bounded
  else bounded ++ [c].

Definition sort_conditions (l : list Condition) : list Condition := sort_on Condition_Type String.compare l.
Definition boundedConditions (conditions : list Condition) : list Condition := sort_conditions (foldl add_condition [] conditions).

Definition first_items {A : Type} (max : Z) (l : list A) : list A := take (Z.to_nat max) l.

Definition bounded_patch (patch : PatchSummary) : PatchSummary :=
  MkPatchSummary (boundedArtifactRef <$> Patch_Ref patch) (boundedArtifactRef <$> Patch_ManifestRef patch)
    (Z.max 0 (Patch_FilesChanged patch)) (Z.max 0 (Patch_LinesChanged patch)).

Definition bounded_gate (gate : GateResult) : GateResult :=
  MkGateResult (boundedString (GateResult_Name gate) MaxChildNameBytes) (boundedString (GateResult_UID gate) Status_MaxBaseSHABytes)
    (GateResult_Generation gate) (GateResult_Mode gate) (boundedString (GateResult_Verdict gate) MaxReasonBytes)
    (boundedArtifactRef <$> GateResult_ReportRef gate) (map bounded_check (first_items MaxStatusChecks (GateResult_Checks gate))).

Definition bounded_effect (effect : EffectSummary) : EffectSummary :=
  MkEffectSummary (boundedString (Effect_Key effect) MaxDigestBytes) (Effect_State effect)
    (boundedString (Effect_PullRequestURL effect) Status_MaxPullRequestURLBytes).

Definition bounded_failure (failure : FailureStatus) : FailureStatus :=
  MkFailure (boundedString (Failure_Code failure) MaxFailureCodeBytes) (boundedString (Failure_Message failure) MaxStatusMessageBytes)
    (Failure_Retryable failure).

Definition BoundedAgentRunStatus (s : AgentRunStatus) : AgentRunStatus :=
  MkStatus (Status_Phase s) (Status_ObservedGeneration s) (boundedString (Status_SpecDigest s) MaxDigestBytes)
    (boundedArtifactRef <$> ResolvedSpecRef s) (boundedArtifactRef <$> ContextPackRef s) (boundedString (Status_BaseSHA s) Status_MaxBaseSHABytes)
    (bounded_child <$> WorkSandboxRef s) (bounded_child <$> VerifySandboxRef s) (bounded_patch <$> Status_Patch s) (bounded_gate <$> Status_Gate s)
    (bounded_effect <$> Status_Effect s) (Orchestration s) (boundedArtifactRef <$> EventStreamRef s) (ToolCallCount s) (CostUSD s)
    (bounded_failure <$> Status_Failure s) (StartedAt s) (VerificationStartedAt s) (CompletedAt s) (boundedConditions (Conditions s))
    (map bounded_child (first_items MaxStatusConditions (Children s))) (map boundedArtifactRef (first_items MaxStatusConditions (Artifacts s)))
    (Published s).

(** ** Validation *)

Definition unsafe_controls : string := of_bytes [0; 0x0D; 0x0A].
Definition validateBoundedText (value : string) (maxBytes : Z) : bool :=
  ValidString value && (len value <=? maxBytes) && negb (ContainsAny value unsafe_controls).

Definition hexSHA (value : string) : bool := between 40 64 (len value) && forallb is_lower_hex (bytes value).

(** [^(0|[1-9][0-9]{0,5})([.][0-9]{1,6})?$] *)
Definition decimalUSD (value : string) : bool :=
  let whole_ok := fun whole : list Z =>
    bool_decide (whole = bytes "0") ||
    (between 1 6 (slen whole) && forallb is_digit whole && negb (default 0x30 (head whole) =? 0x30)) in
  match split_bytes dot_byte (bytes value) with
  | [whole] => whole_ok whole
  | [whole; fraction] => whole_ok whole && between 1 6 (slen fraction) && forallb is_digit fraction
  | _ => false
  end.

Definition descriptor_byte (c : Z) : bool := is_alpha c || is_digit c || bool_decide (c ∈ bytes "._/-").
Definition descriptorName (value : string) : bool :=
  match bytes value with
  | [] => false
  | c :: rest => (is_alpha c || is_digit c) && forallb descriptor_byte rest
  end.

(** The query is empty once it was compared with the empty text, so the search of
    its keys finds nothing.  [artifact] says whether the label is that of an
    artifact. *)
Definition validateSafeURL (artifact : bool) (value : string) (maxBytes : Z) : bool :=
  if value =?= "" then true
  else if negb (validateBoundedText value maxBytes) then false
  else match url_Parse value with
  | None => false
  | Some parsed =>
    if has_user parsed then false
    else if (RawQuery parsed !=? "") || (Fragment parsed !=? "") then false
    else if Scheme parsed =?= "s3" then artifact && (Host parsed !=? "")
    else if Scheme parsed =?= "https" then Host parsed !=? ""
    else false
  end.

Definition validateArtifactRef (ref : ArtifactRef) : bool :=
  validateBoundedText (Ref_URI ref) MaxArtifactURIBytes && (Ref_URI ref !=? "") && validateSafeURL true (Ref_URI ref) MaxArtifactURIBytes &&
  ValidDigest (Ref_Digest ref) && validateBoundedText (Ref_Kind ref) 64 && validateBoundedText (ArtifactRef_Name ref) 128 &&
  validateBoundedText (Ref_MediaType ref) 128 && ((Ref_Kind ref =?= "") || descriptorName (Ref_Kind ref)) &&
  ((ArtifactRef_Name ref =?= "") || descriptorName (ArtifactRef_Name ref)) && between 0 (Z.shiftl 1 40) (Ref_SizeBytes ref).

Definition validateChildRef (ref : ChildRef) : bool :=
  validateBoundedText (ChildRef_Name ref) MaxChildNameBytes && validateBoundedText (ChildRef_Kind ref) MaxChildKindBytes &&
  (ChildRef_Name ref !=? "") && (ChildRef_Kind ref !=? "") && bool_decide (ChildRef_Kind ref ∈ ["Sandbox"; "Job"]) &&
  validateBoundedText (ChildRef_UID ref) 64 && validateBoundedText (ChildRef_Role ref) 64 &&
  ((ChildRef_SpecDigest ref =?= "") || ValidDigest (ChildRef_SpecDigest ref)) && ValidDigest (PlanFingerprint ref).

Definition validateCondition (c : Condition) : bool :=
  validateBoundedText (Condition_Type c) MaxConditionTypeBytes && (Condition_Type c !=? "") &&
  bool_decide (Condition_Status c ∈ [ConditionTrue; ConditionFalse; ConditionUnknown]) &&
  validateBoundedText (Condition_Reason c) MaxReasonBytes && validateBoundedText (Condition_Message c) MaxStatusMessageBytes.

Definition if_present {A : Type} (check : A -> bool) (o : option A) : bool := match o with Some x => check x | None => true end.

Definition valid_patch (patch : PatchSummary) : bool :=
  (0 <=? Patch_FilesChanged patch) && (0 <=? Patch_LinesChanged patch) && if_present validateArtifactRef (Patch_Ref patch) &&
  if_present validateArtifactRef (Patch_ManifestRef patch).

(** The part of the Gate before its checks are counted, and the rest. *)
Definition valid_gate_head (gate : GateResult) : bool :=
  validateBoundedText (GateResult_Name gate) MaxChildNameBytes && validateBoundedText (GateResult_UID gate) Status_MaxBaseSHABytes &&
  (0 <=? GateResult_Generation gate) && bool_decide (GateResult_Mode gate ∈ [""; "shadow"; "enforcing"]) &&
  bool_decide (GateResult_Verdict gate ∈ [""; "Accepted"; "Rejected"]).
Definition valid_gate_rest (gate : GateResult) : bool :=
  if_present validateArtifactRef (GateResult_ReportRef gate) &&
  forallb (fun check => validateBoundedText (Name check) MaxGateCheckNameBytes && validateBoundedText (Message check) MaxGateCheckMessageBytes)
    (GateResult_Checks gate).

Definition valid_effect (effect : EffectSummary) : bool :=
  ((Effect_Key effect =?= "") || ValidDigest (Effect_Key effect)) &&
  bool_decide (Effect_State effect ∈ [""; "pending"; "succeeded"; "failed"; "unknown"]) &&
  validateSafeURL false (Effect_PullRequestURL effect) Status_MaxPullRequestURLBytes.

Definition valid_failure (failure : FailureStatus) : bool :=
  validateBoundedText (Failure_Code failure) MaxFailureCodeBytes && validateBoundedText (Failure_Message failure) MaxStatusMessageBytes.

(** The checks up to the Gate. *)
Definition valid_head (s : AgentRunStatus) : bool :=
  ((Status_Phase s =?= "") || bool_decide (ValidatePhase (Status_Phase s) = None)) &&
  ((Status_SpecDigest s =?= "") || ValidDigest (Status_SpecDigest s)) && validateBoundedText (Status_BaseSHA s) Status_MaxBaseSHABytes &&
  ((Status_BaseSHA s =?= "") || hexSHA (Status_BaseSHA s)) && ((CostUSD s =?= "") || decimalUSD (CostUSD s)) &&
  if_present validateArtifactRef (ResolvedSpecRef s) && if_present validateArtifactRef (ContextPackRef s) &&
  if_present validateArtifactRef (EventStreamRef s) && if_present validateChildRef (WorkSandboxRef s) &&
  if_present validateChildRef (VerifySandboxRef s) && (slen (Children s) <=? MaxStatusConditions) && forallb validateChildRef (Children s) &&
  (slen (Artifacts s) <=? MaxStatusConditions) && forallb validateArtifactRef (Artifacts s) && if_present valid_patch (Status_Patch s).

(** ** JSON *)

Definition omit_zero (name : string) (n : Z) : list (string * json) := if n =? 0 then [] else [(name, JInt n)].
Definition omit_false (name : string) (b : bool) : list (string * json) := if b then [(name, JBool true)] else [].
Definition omit_none {A : Type} (name : string) (f : A -> json) (l : list A) : list (string * json) :=
  match l with [] => [] | _ => [(name, JArray (map f l))] end.

Definition artifact_json (r : ArtifactRef) : json :=
  JObject ([("uri", JString (Ref_URI r)); ("digest", JString (Ref_Digest r))] ++ omit_empty "kind" (Ref_Kind r) ++
    omit_empty "name" (ArtifactRef_Name r) ++ omit_empty "mediaType" (Ref_MediaType r) ++ omit_zero "sizeBytes" (Ref_SizeBytes r)).
Definition child_json (r : ChildRef) : json :=
  JObject ([("name", JString (ChildRef_Name r)); ("kind", JString (ChildRef_Kind r))] ++ omit_empty "uid" (ChildRef_UID r) ++
    omit_empty "role" (ChildRef_Role r) ++ omit_empty "specDigest" (ChildRef_SpecDigest r) ++ omit_empty "planFingerprint" (PlanFingerprint r)).
Definition patch_json (p : PatchSummary) : json :=
  JObject (omit_nil "ref" artifact_json (Patch_Ref p) ++ omit_nil "manifestRef" artifact_json (Patch_ManifestRef p) ++
    [("filesChanged", JInt (Patch_FilesChanged p)); ("linesChanged", JInt (Patch_LinesChanged p))]).
Definition check_json (c : GateCheck) : json :=
  JObject ([("name", JString (Name c)); ("passed", JBool (Passed c))] ++ omit_empty "message" (Message c)).
Definition gate_json (g : GateResult) : json :=
  JObject (omit_empty "name" (GateResult_Name g) ++ omit_empty "uid" (GateResult_UID g) ++ omit_zero "generation" (GateResult_Generation g) ++
    omit_empty "mode" (GateResult_Mode g) ++ omit_empty "verdict" (GateResult_Verdict g) ++ omit_nil "reportRef" artifact_json (GateResult_ReportRef g) ++
    omit_none "checks" check_json (GateResult_Checks g)).
Definition effect_json (e : EffectSummary) : json :=
  JObject (omit_empty "key" (Effect_Key e) ++ omit_empty "state" (Effect_State e) ++ omit_empty "pullRequestUrl" (Effect_PullRequestURL e)).
Definition failure_json (f : FailureStatus) : json :=
  JObject ([("code", JString (Failure_Code f)); ("message", JString (Failure_Message f))] ++ omit_false "retryable" (Failure_Retryable f)).
Definition orchestration_json (o : OrchestrationStatus) : json :=
  let r := Orch_Reference o in
  JObject ([("backend", JString (Orch_Backend o)); ("phase", JString (Orch_Phase o))] ++ omit_empty "message" (Orch_Message o) ++
    [("reference", JObject [("apiVersion", JString (Orch_APIVersion r)); ("kind", JString (Orch_Kind r)); ("namespace", JString (Orch_Namespace r));
       ("name", JString (Orch_Name r)); ("uid", JString (Orch_UID r)); ("generation", JInt (Orch_Generation r));
       ("runGeneration", JInt (Orch_RunGeneration r)); ("specDigest", JString (Orch_SpecDigest r));
       ("workflowTemplateName", JString (Orch_TemplateName r)); ("workflowTemplateUID", JString (Orch_TemplateUID r));
       ("workflowTemplateDigest", JString (Orch_TemplateDigest r))])]).

Section Encoding.
Context (time_json : Z -> json).

Definition condition_json (c : Condition) : json :=
  JObject ([("type", JString (Condition_Type c)); ("status", JString (Condition_Status c))] ++ omit_empty "reason" (Condition_Reason c) ++
    omit_empty "message" (Condition_Message c) ++ omit_zero "observedGeneration" (Condition_ObservedGeneration c) ++
    [("lastTransitionTime", time_json (LastTransitionTime c))]).

Definition status_json (s : AgentRunStatus) : json :=
  JObject (omit_empty "phase" (Status_Phase s) ++ omit_zero "observedGeneration" (Status_ObservedGeneration s) ++
    omit_empty "specDigest" (Status_SpecDigest s) ++ omit_nil "resolvedSpecRef" artifact_json (ResolvedSpecRef s) ++
    omit_nil "contextPackRef" artifact_json (ContextPackRef s) ++ omit_empty "baseSHA" (Status_BaseSHA s) ++
    omit_nil "workSandboxRef" child_json (WorkSandboxRef s) ++ omit_nil "verifySandboxRef" child_json (VerifySandboxRef s) ++
    omit_nil "patch" patch_json (Status_Patch s) ++ omit_nil "gate" gate_json (Status_Gate s) ++ omit_nil "effect" effect_json (Status_Effect s) ++
    omit_nil "orchestration" orchestration_json (Orchestration s) ++ omit_nil "eventStreamRef" artifact_json (EventStreamRef s) ++
    omit_zero "toolCallCount" (ToolCallCount s) ++ omit_empty "costUsd" (CostUSD s) ++ omit_nil "failure" failure_json (Status_Failure s) ++
    omit_nil "startedAt" time_json (StartedAt s) ++ omit_nil "verificationStartedAt" time_json (VerificationStartedAt s) ++
    omit_nil "completedAt" time_json (CompletedAt s) ++ omit_none "conditions" condition_json (Conditions s) ++
    omit_none "children" child_json (Children s) ++ omit_none "artifacts" artifact_json (Artifacts s) ++ omit_false "published" (Published s)).

Definition marshalRaw (s : AgentRunStatus) : list Z := Marshal (status_json s).

(** [None] for a valid status. *)
Definition ValidateAgentRunStatus (s : AgentRunStatus) : option status_error :=
  if negb (valid_head s) then Some ErrInvalidStatus
  else if negb (if_present valid_gate_head (Status_Gate s)) then Some ErrInvalidStatus
  else if negb (if_present (fun gate => slen (GateResult_Checks gate) <=? MaxStatusChecks) (Status_Gate s)) then Some ErrTooManyGateChecks
  else if negb (if_present valid_gate_rest (Status_Gate s)) then Some ErrInvalidStatus
  else if negb (if_present valid_effect (Status_Effect s)) then Some ErrInvalidStatus
  else if negb (if_present valid_failure (Status_Failure s)) then Some ErrInvalidStatus
  else if MaxStatusConditions <? slen (Conditions s) then Some ErrTooManyConditions
  else if negb (forallb validateCondition (Conditions s)) then Some ErrInvalidStatus
  else if MaxStatusBytes <=? slen (marshalRaw s) then Some ErrStatusTooLarge
  else None.

Definition Encode (s : AgentRunStatus) : result status_error (list Z) :=
  let bounded := BoundedAgentRunStatus s in
  match ValidateAgentRunStatus bounded with
  | Some e => Err e
  | None =>
    let encoded := marshalRaw bounded in
    if MaxStatusBytes <=? slen encoded then Err ErrStatusTooLarge else Ok encoded
  end.

Definition Size (s : AgentRunStatus) : result status_error Z := let? encoded := Encode s in Ok (slen encoded).
Definition Fits (s : AgentRunStatus) : bool := is_ok (Encode s).
End Encoding.

(** ** Setters *)

Definition set_phase (s : AgentRunStatus) (phase : Phase) (started completed : option Z) : AgentRunStatus :=
  MkStatus phase (Status_ObservedGeneration s) (Status_SpecDigest s) (ResolvedSpecRef s) (ContextPackRef s) (Status_BaseSHA s) (WorkSandboxRef s)
    (VerifySandboxRef s) (Status_Patch s) (Status_Gate s) (Status_Effect s) (Orchestration s) (EventStreamRef s) (ToolCallCount s) (CostUSD s)
    (Status_Failure s) started (VerificationStartedAt s) completed (Conditions s) (Children s) (Artifacts s) (Published s).
Definition set_failure (s : AgentRunStatus) (failure : FailureStatus) : AgentRunStatus :=
  MkStatus (Status_Phase s) (Status_ObservedGeneration s) (Status_SpecDigest s) (ResolvedSpecRef s) (ContextPackRef s) (Status_BaseSHA s) (WorkSandboxRef s)
    (VerifySandboxRef s) (Status_Patch s) (Status_Gate s) (Status_Effect s) (Orchestration s) (EventStreamRef s) (ToolCallCount s) (CostUSD s)
    (Some failure) (StartedAt s) (VerificationStartedAt s) (CompletedAt s) (Conditions s) (Children s) (Artifacts s) (Published s).
Definition set_conditions (s : AgentRunStatus) (conditions : list Condition) : AgentRunStatus :=
  MkStatus (Status_Phase s) (Status_ObservedGeneration s) (Status_SpecDigest s) (ResolvedSpecRef s) (ContextPackRef s) (Status_BaseSHA s) (WorkSandboxRef s)
    (VerifySandboxRef s) (Status_Patch s) (Status_Gate s) (Status_Effect s) (Orchestration s) (EventStreamRef s) (ToolCallCount s) (CostUSD s)
    (Status_Failure s) (StartedAt s) (VerificationStartedAt s) (CompletedAt s) conditions (Children s) (Artifacts s) (Published s).
Definition set_refs (s : AgentRunStatus) (resolved context events : option ArtifactRef) : AgentRunStatus :=
  MkStatus (Status_Phase s) (Status_ObservedGeneration s) (Status_SpecDigest s) resolved context (Status_BaseSHA s) (WorkSandboxRef s)
    (VerifySandboxRef s) (Status_Patch s) (Status_Gate s) (Status_Effect s) (Orchestration s) events (ToolCallCount s) (CostUSD s)
    (Status_Failure s) (StartedAt s) (VerificationStartedAt s) (CompletedAt s) (Conditions s) (Children s) (Artifacts s) (Published s).

(** [now] is the instant of the reconciliation clock, zero for none. *)
Definition SetPhaseAt (s : AgentRunStatus) (phase : Phase) (now : Z) : result status_error AgentRunStatus :=
  let refused :=
    if Status_Phase s =?= "" then (if phase !=? PhasePending then Some Fsm.ErrInvalidTransition else None)
    else TransitionTo (Status_Phase s) phase in
  match refused with
  | Some e => Err (ErrLifecycle e)
  | None =>
    let started := if negb (now =? 0) && bool_decide (StartedAt s = None) && (phase !=? PhasePending) then Some now else StartedAt s in
    let completed := if negb (now =? 0) && IsTerminal phase && bool_decide (CompletedAt s = None) then Some now else CompletedAt s in
    Ok (set_phase s phase started completed)
  end.

Definition SetPhase (s : AgentRunStatus) (phase : Phase) : result status_error AgentRunStatus := SetPhaseAt s phase 0.

Definition SetFailureAt (s : AgentRunStatus) (code message : string) (now : Z) : result status_error AgentRunStatus :=
  if TrimSpace code =?= "" then Err ErrInvalidStatus
  else if negb (validateBoundedText code MaxFailureCodeBytes) then Err ErrText
  else if negb (validateBoundedText message MaxStatusMessageBytes) then Err ErrText
  else
    let? failed := SetPhaseAt s PhaseFailed now in
    Ok (set_failure failed (MkFailure code message false)).

Definition SetFailure (s : AgentRunStatus) (code message : string) : result status_error AgentRunStatus := SetFailureAt s code message 0.

(** The order of conditions of one type is that of [sort.Slice] and not
    specified; the setters keep types distinct. *)
Definition SetCondition (s : AgentRunStatus) (c : Condition) : result status_error AgentRunStatus :=
  if negb (validateCondition c) then Err ErrInvalidStatus
  else
    let c := bounded_condition c in
    if has_type (Condition_Type c) (Conditions s) then Ok (set_conditions s (sort_conditions (replace_condition c (Conditions s))))
    else if MaxStatusConditions <=? slen (Conditions s) then Err ErrTooManyConditions
    else Ok (set_conditions s (sort_conditions (Conditions s ++ [c]))).

Definition SetResolvedSpecRef (s : AgentRunStatus) (ref : ArtifactRef) : result status_error AgentRunStatus :=
  if negb (validateArtifactRef ref) then Err ErrInvalidStatus else Ok (set_refs s (Some ref) (ContextPackRef s) (EventStreamRef s)).
Definition SetContextPackRef (s : AgentRunStatus) (ref : ArtifactRef) : result status_error AgentRunStatus :=
  if negb (validateArtifactRef ref) then Err ErrInvalidStatus else Ok (set_refs s (ResolvedSpecRef s) (Some ref) (EventStreamRef s)).
Definition SetEventStreamRef (s : AgentRunStatus) (ref : ArtifactRef) : result status_error AgentRunStatus :=
  if negb (validateArtifactRef ref) then Err ErrInvalidStatus else Ok (set_refs s (ResolvedSpecRef s) (ContextPackRef s) (Some ref)).

Definition empty_status : AgentRunStatus :=
  MkStatus "" 0 "" None None "" None None None None None None None 0 "" None None None None [] [] [] false.
