(* ===== verification/StatusSpec.v ===== *)
(** * The projection of a status, and the statuses the setters build *)

From S2P Require Import Prelude Order GoStrings Digest GoJson Ip Url Fsm GateEngine Status.
Local Open Scope go_scope.
Local Open Scope string_scope.
Local Open Scope Z_scope.
Local Open Scope list_scope.

(** ** Texts *)

Lemma length_of_bytes l : String.length (of_bytes l) = length l.
Proof. induction l as [|b l IH]; [done|]. cbn. f_equal. exact IH. Qed.

Lemma utf8_prefix_length n l : (length (utf8_prefix n l) <= n)%nat.
Proof. induction n as [|n IH]; [done|]. cbn [utf8_prefix]. destruct (valid_utf8 _); [rewrite length_take; lia|lia]. Qed.

Lemma boundedString_id value n : len value <= n -> boundedString value n = value.
Proof. unfold boundedString. intros H. by destruct (Z.leb_spec (len value) n); [|lia]. Qed.

Lemma boundedString_len value n : 0 <= n -> len (boundedString value n) <= n.
Proof.
  intros Hn. unfold boundedString. destruct (Z.leb_spec (len value) n); [done|]. unfold len. rewrite length_of_bytes.
  pose proof (utf8_prefix_length (Z.to_nat n) (bytes value)). lia.
Qed.

Lemma text_len value n : validateBoundedText value n = true -> len value <= n.
Proof. unfold validateBoundedText. rewrite !andb_true_iff, Z.leb_le. tauto. Qed.

Lemma digest_len value : ValidDigest value = true -> len value <= MaxDigestBytes.
Proof.
  unfold ValidDigest. destruct (len value =? _) eqn:E; [|done]. intros _. apply Z.eqb_eq in E. rewrite E. by compute.
Qed.

(** ** Within the bounds *)

(** What the projection leaves alone. *)
Definition artifact_within (r : ArtifactRef) : Prop :=
  len (Ref_URI r) <= MaxArtifactURIBytes /\ len (Ref_Digest r) <= MaxDigestBytes /\ len (Ref_Kind r) <= 64 /\ len (ArtifactRef_Name r) <= 128 /\
  len (Ref_MediaType r) <= 128.
Definition child_within (r : ChildRef) : Prop :=
  len (ChildRef_Name r) <= MaxChildNameBytes /\ len (ChildRef_Kind r) <= MaxChildKindBytes /\ len (PlanFingerprint r) <= MaxDigestBytes.
Definition check_within (c : GateCheck) : Prop := len (Name c) <= MaxGateCheckNameBytes /\ len (Message c) <= MaxGateCheckMessageBytes.
Definition condition_within (c : Condition) : Prop :=
  len (Condition_Type c) <= MaxConditionTypeBytes /\ len (Condition_Reason c) <= MaxReasonBytes /\ len (Condition_Message c) <= MaxStatusMessageBytes.
Definition option_within {A : Type} (P : A -> Prop) (o : option A) : Prop := match o with Some x => P x | None => True end.
Definition patch_within (p : PatchSummary) : Prop :=
  option_within artifact_within (Patch_Ref p) /\ option_within artifact_within (Patch_ManifestRef p) /\ 0 <= Patch_FilesChanged p /\ 0 <= Patch_LinesChanged p.
Definition gate_within (g : GateResult) : Prop :=
  len (GateResult_Name g) <= MaxChildNameBytes /\ len (GateResult_UID g) <= Status_MaxBaseSHABytes /\ len (GateResult_Verdict g) <= MaxReasonBytes /\
  option_within artifact_within (GateResult_ReportRef g) /\ slen (GateResult_Checks g) <= MaxStatusChecks /\ Forall check_within (GateResult_Checks g).
Definition effect_within (e : EffectSummary) : Prop :=
  len (Effect_Key e) <= MaxDigestBytes /\ len (Effect_PullRequestURL e) <= Status_MaxPullRequestURLBytes.
Definition failure_within (f : FailureStatus) : Prop := len (Failure_Code f) <= MaxFailureCodeBytes /\ len (Failure_Message f) <= MaxStatusMessageBytes.

(** Conditions in their order, one of a type. *)
Definition conditions_ordered (l : list Condition) : Prop :=
  NoDup (map Condition_Type l) /\ Sorted (cmp_le String.compare) (map Condition_Type l).
Definition conditions_within (l : list Condition) : Prop :=
  slen l <= MaxStatusConditions /\ Forall condition_within l /\ conditions_ordered l.

Record status_within (s : AgentRunStatus) : Prop := {
  within_digest : len (Status_SpecDigest s) <= MaxDigestBytes;
  within_refs : option_within artifact_within (ResolvedSpecRef s) /\ option_within artifact_within (ContextPackRef s) /\
    option_within artifact_within (EventStreamRef s);
  within_sha : len (Status_BaseSHA s) <= Status_MaxBaseSHABytes;
  within_sandboxes : option_within child_within (WorkSandboxRef s) /\ option_within child_within (VerifySandboxRef s);
  within_patch : option_within patch_within (Status_Patch s);
  within_gate : option_within gate_within (Status_Gate s);
  within_effect : option_within effect_within (Status_Effect s);
  within_failure : option_within failure_within (Status_Failure s);
  within_conditions : conditions_within (Conditions s);
  within_children : slen (Children s) <= MaxStatusConditions /\ Forall child_within (Children s);
  within_artifacts : slen (Artifacts s) <= MaxStatusConditions /\ Forall artifact_within (Artifacts s)
}.

(** Each part is left alone within its bounds. *)
Lemma bounded_artifact_id r : artifact_within r -> boundedArtifactRef r = r.
Proof. intros (? & ? & ? & ? & ?). destruct r. unfold boundedArtifactRef. cbn in *. by rewrite !boundedString_id. Qed.
Lemma bounded_child_id r : child_within r -> bounded_child r = r.
Proof. intros (? & ? & ?). destruct r. unfold bounded_child. cbn in *. by rewrite !boundedString_id. Qed.
Lemma bounded_check_id c : check_within c -> bounded_check c = c.
Proof. intros (? & ?). destruct c. unfold bounded_check. cbn in *. by rewrite !boundedString_id. Qed.
Lemma bounded_condition_id c : condition_within c -> bounded_condition c = c.
Proof. intros (? & ? & ?). destruct c. unfold bounded_condition. cbn in *. by rewrite !boundedString_id. Qed.
Lemma bounded_option_id {A : Type} (f : A -> A) (P : A -> Prop) o : (forall x, P x -> f x = x) -> option_within P o -> f <$> o = o.
Proof. intros Hf H. destruct o; [|done]. cbn. f_equal. by apply Hf. Qed.
Lemma bounded_list_id {A : Type} (f : A -> A) (P : A -> Prop) n l : (forall x, P x -> f x = x) -> slen l <= n -> Forall P l -> map f (first_items n l) = l.
Proof.
  intros Hf Hl H. unfold first_items. rewrite take_ge by (unfold slen in Hl; lia). clear Hl. induction H as [|x l Hx _ IH]; [done|].
  cbn. by rewrite (Hf _ Hx), IH.
Qed.
Lemma bounded_patch_id p : patch_within p -> bounded_patch p = p.
Proof.
  intros (? & ? & ? & ?). destruct p. unfold bounded_patch. cbn in *.
  rewrite !(bounded_option_id _ _ _ bounded_artifact_id) by done. f_equal; lia.
Qed.
Lemma bounded_gate_id g : gate_within g -> bounded_gate g = g.
Proof.
  intros (? & ? & ? & ? & ? & ?). destruct g. unfold bounded_gate. cbn in *. rewrite !boundedString_id by done.
  by rewrite (bounded_option_id _ _ _ bounded_artifact_id), (bounded_list_id _ _ _ _ bounded_check_id).
Qed.
Lemma bounded_effect_id e : effect_within e -> bounded_effect e = e.
Proof. intros (? & ?). destruct e. unfold bounded_effect. cbn in *. by rewrite !boundedString_id. Qed.
Lemma bounded_failure_id f : failure_within f -> bounded_failure f = f.
Proof. intros (? & ?). destruct f. unfold bounded_failure. cbn in *. by rewrite !boundedString_id. Qed.

Lemma has_type_spec kind l : has_type kind l = true <-> kind ∈ map Condition_Type l.
Proof.
  unfold has_type. rewrite existsb_exists, list_elem_of_fmap. setoid_rewrite bool_decide_eq_true. setoid_rewrite <- list_elem_of_In. naive_solver.
Qed.

Lemma add_conditions_id l : forall acc, NoDup (map Condition_Type (acc ++ l)) -> slen (acc ++ l) <= MaxStatusConditions -> Forall condition_within l ->
  foldl add_condition acc l = acc ++ l.
Proof.
  induction l as [|c l IH]; intros acc Hn Hs Hw; [by rewrite app_nil_r|]. inversion_clear Hw as [|? ? Hc Hl]. cbn [foldl].
  assert (Hadd : add_condition acc c = acc ++ [c]); [|by rewrite Hadd, IH; rewrite <- ?app_assoc].
  unfold add_condition. rewrite (bounded_condition_id _ Hc). cbv zeta. destruct (has_type (Condition_Type c) acc) eqn:E.
  - exfalso. apply has_type_spec in E. rewrite map_app in Hn. apply NoDup_app in Hn as (_ & Hd & _). apply (Hd _ E). cbn. left.
  - destruct (Z.leb_spec MaxStatusConditions (slen acc)); [|done]. unfold slen in *. rewrite length_app in Hs. cbn in Hs. lia.
Qed.

Lemma bounded_conditions_id l : conditions_within l -> boundedConditions l = l.
Proof.
  intros (Hs & Hw & Hn & Ho). unfold boundedConditions, sort_conditions. rewrite (add_conditions_id l []) by done.
  apply sort_on_id; [apply _|done|done].
Qed.

#[local] Arguments boundedConditions : simpl never.
#[local] Arguments first_items : simpl never.
#[local] Arguments boundedString : simpl never.

Lemma bounded_id s : status_within s -> BoundedAgentRunStatus s = s.
Proof.
  intros [H1 (H2 & H3 & H4) H5 (H6 & H7) H8 H9 H10 H11 H12 (H13 & H14) (H15 & H16)]. destruct s. unfold BoundedAgentRunStatus. cbn in *.
  rewrite !boundedString_id by done. rewrite !(bounded_option_id _ _ _ bounded_artifact_id), !(bounded_option_id _ _ _ bounded_child_id) by done.
  rewrite (bounded_option_id _ _ _ bounded_patch_id), (bounded_option_id _ _ _ bounded_gate_id), (bounded_option_id _ _ _ bounded_effect_id) by done.
  rewrite (bounded_option_id _ _ _ bounded_failure_id), bounded_conditions_id by done.
  by rewrite (bounded_list_id _ _ _ _ bounded_child_id), (bounded_list_id _ _ _ _ bounded_artifact_id).
Qed.

(** ** The projection is within the bounds *)

#[local] Hint Extern 1 (len (boundedString _ _) <= _) => (apply boundedString_len; by compute) : bounds.

Lemma artifact_bounded r : artifact_within (boundedArtifactRef r).
Proof. split_and!; cbn; auto with bounds. Qed.
Lemma child_bounded r : child_within (bounded_child r).
Proof. split_and!; cbn; auto with bounds. Qed.
Lemma check_bounded c : check_within (bounded_check c).
Proof. split_and!; cbn; auto with bounds. Qed.
Lemma condition_bounded c : condition_within (bounded_condition c).
Proof. split_and!; cbn; auto with bounds. Qed.
Lemma option_bounded {A : Type} (f : A -> A) (P : A -> Prop) o : (forall x, P (f x)) -> option_within P (f <$> o).
Proof. intros H. destruct o; [apply H|done]. Qed.
Lemma list_bounded {A : Type} (f : A -> A) (P : A -> Prop) n l : 0 <= n -> (forall x, P (f x)) ->
  slen (map f (first_items n l)) <= n /\ Forall P (map f (first_items n l)).
Proof.
  intros Hn H. unfold slen, first_items. rewrite length_map, length_take. split; [lia|]. generalize (take (Z.to_nat n) l). intros k.
  induction k; constructor; auto.
Qed.
Lemma patch_bounded p : patch_within (bounded_patch p).
Proof. split_and!; cbn; [apply option_bounded, artifact_bounded..|lia|lia]. Qed.
Lemma gate_bounded g : gate_within (bounded_gate g).
Proof. split_and!; cbn; auto with bounds; [apply option_bounded, artifact_bounded|apply (list_bounded _ check_within); [done|apply check_bounded]..]. Qed.
Lemma effect_bounded e : effect_within (bounded_effect e).
Proof. split_and!; cbn; auto with bounds. Qed.
Lemma failure_bounded f : failure_within (bounded_failure f).
Proof. split_and!; cbn; auto with bounds. Qed.

Lemma replace_types c l : map Condition_Type (replace_condition c l) = map Condition_Type l.
Proof. induction l as [|d l IH]; [done|]. cbn. case_bool_decide as E; cbn; [by rewrite E|by rewrite IH]. Qed.
Lemma Forall_replace (P : Condition -> Prop) c l : P c -> Forall P l -> Forall P (replace_condition c l).
Proof. intros Hc. induction 1 as [|d l Hd Hl IH]; [constructor|]. cbn. case_bool_decide; by constructor. Qed.

Definition distinct_conditions (l : list Condition) : Prop :=
  slen l <= MaxStatusConditions /\ Forall condition_within l /\ NoDup (map Condition_Type l).

Lemma types_length l k : map Condition_Type l = map Condition_Type k -> slen l = slen k.
Proof. intros H. unfold slen. by rewrite <- (length_map Condition_Type l), H, length_map. Qed.

Lemma add_condition_ok l c : distinct_conditions l -> distinct_conditions (add_condition l c).
Proof.
  intros (Hs & Hw & Hn). unfold add_condition. cbv zeta. destruct (has_type _ l) eqn:E.
  - split_and!; [by rewrite (types_length _ l (replace_types _ _))|by apply Forall_replace; [apply condition_bounded|]|by rewrite replace_types].
  - destruct (Z.leb_spec MaxStatusConditions (slen l)); [done|]. split_and!.
    + unfold slen in *. rewrite length_app. cbn. lia.
    + apply Forall_app. split; [done|]. constructor; [apply condition_bounded|constructor].
    + rewrite map_app. apply NoDup_app. split_and!; [done| |apply NoDup_singleton]. intros x Hx ->%list_elem_of_singleton.
      apply has_type_spec in Hx. congruence.
Qed.

Lemma add_conditions_ok l : forall acc, distinct_conditions acc -> distinct_conditions (foldl add_condition acc l).
Proof. induction l as [|c l IH]; intros acc H; [done|]. by apply IH, add_condition_ok. Qed.

Lemma sorted_conditions l : distinct_conditions l -> conditions_within (sort_conditions l).
Proof.
  intros (Hs & Hw & Hn). unfold sort_conditions. assert (Hp : sort_on Condition_Type String.compare l ≡ₚ l) by apply sort_on_perm.
  assert (Hk : Sorted (cmp_le String.compare) (map Condition_Type (sort_on Condition_Type String.compare l))) by (apply sort_on_keys, _).
  revert Hp Hk. generalize (sort_on Condition_Type String.compare l). intros k Hp Hk.
  split_and!; [unfold slen in *; by rewrite Hp|by rewrite Hp|split; [by rewrite Hp|done]].
Qed.

Lemma bounded_within s : status_within (BoundedAgentRunStatus s).
Proof.
  split; cbn; auto with bounds.
  - split_and!; apply option_bounded, artifact_bounded.
  - split_and!; apply option_bounded, child_bounded.
  - apply option_bounded, patch_bounded.
  - apply option_bounded, gate_bounded.
  - apply option_bounded, effect_bounded.
  - apply option_bounded, failure_bounded.
  - apply sorted_conditions, add_conditions_ok. split_and!; [by compute|constructor..].
  - apply (list_bounded _ child_within); [done|apply child_bounded].
  - apply (list_bounded _ artifact_within); [done|apply artifact_bounded].
Qed.

(** ** What validation accepts is within the bounds *)

Lemma valid_artifact_within r : validateArtifactRef r = true -> artifact_within r.
Proof. unfold validateArtifactRef. rewrite !andb_true_iff. intros H. destruct_and! H. split_and!; first [by apply text_len|by apply digest_len]. Qed.
Lemma valid_child_within r : validateChildRef r = true -> child_within r.
Proof. unfold validateChildRef. rewrite !andb_true_iff. intros H. destruct_and! H. split_and!; first [by apply text_len|by apply digest_len]. Qed.
Lemma valid_condition_within c : validateCondition c = true -> condition_within c.
Proof. unfold validateCondition. rewrite !andb_true_iff. intros H. destruct_and! H. split_and!; by apply text_len. Qed.
Lemma valid_option_within {A : Type} (f : A -> bool) (P : A -> Prop) o : (forall x, f x = true -> P x) -> if_present f o = true -> option_within P o.
Proof. intros H. destruct o; [apply H|done]. Qed.
Lemma valid_list_within {A : Type} (f : A -> bool) (P : A -> Prop) l : (forall x, f x = true -> P x) -> forallb f l = true -> Forall P l.
Proof. intros H Hf. rewrite forallb_true in Hf. eapply Forall_impl; [exact Hf|]. apply H. Qed.
Lemma valid_patch_within p : valid_patch p = true -> patch_within p.
Proof.
  unfold valid_patch. rewrite !andb_true_iff, !Z.leb_le. intros (((? & ?) & ?) & ?).
  split_and!; try done; by apply (valid_option_within validateArtifactRef _ _ valid_artifact_within).
Qed.
Lemma digest_or_empty value : (value =?= "") || ValidDigest value = true -> len value <= MaxDigestBytes.
Proof. rewrite orb_true_iff, bool_decide_eq_true. intros [->|H]; [by compute|by apply digest_len]. Qed.
Lemma valid_effect_within e : valid_effect e = true -> effect_within e.
Proof.
  unfold valid_effect. rewrite !andb_true_iff. intros ((H1 & _) & H3). split; [by apply digest_or_empty|]. unfold validateSafeURL in H3.
  case_bool_decide as E; [rewrite E; by compute|]. destruct (validateBoundedText _ _) eqn:Ht; [|done]. by apply text_len.
Qed.
Lemma valid_failure_within f : valid_failure f = true -> failure_within f.
Proof. unfold valid_failure. rewrite andb_true_iff. intros [? ?]. split; by apply text_len. Qed.
Lemma valid_gate_within g : valid_gate_head g = true -> slen (GateResult_Checks g) <= MaxStatusChecks -> valid_gate_rest g = true -> gate_within g.
Proof.
  unfold valid_gate_head, valid_gate_rest. rewrite !andb_true_iff, !bool_decide_eq_true. intros H Hs [Hr Hc]. destruct_and! H.
  assert (Hv : len (GateResult_Verdict g) <= MaxReasonBytes).
  { assert (Hin : GateResult_Verdict g ∈ [""; "Accepted"; "Rejected"]) by done. apply list_elem_of_In in Hin. cbn in Hin.
    destruct Hin as [<-|[<-|[<-|[]]]]; by compute. }
  split_and!; try by apply text_len.
  - done.
  - by apply (valid_option_within validateArtifactRef _ _ valid_artifact_within).
  - done.
  - eapply valid_list_within; [|exact Hc]. intros c. rewrite andb_true_iff. intros [? ?]. split; by apply text_len.
Qed.

Lemma valid_within time_json s : ValidateAgentRunStatus time_json s = None -> conditions_ordered (Conditions s) -> status_within s.
Proof.
  unfold ValidateAgentRunStatus. intros H Ho. destruct (valid_head s) eqn:Hh in H; [|done]. destruct (if_present valid_gate_head _) eqn:G1 in H; [|done].
  destruct (if_present (fun _ => _) _) eqn:G2 in H; [|done]. destruct (if_present valid_gate_rest _) eqn:G3 in H; [|done].
  destruct (if_present valid_effect _) eqn:He in H; [|done]. destruct (if_present valid_failure _) eqn:Hf in H; [|done]. cbn [negb] in H.
  destruct (Z.ltb_spec MaxStatusConditions (slen (Conditions s))) as [|Hn]; [done|]. destruct (forallb validateCondition _) eqn:Hc in H; [|done].
  unfold valid_head in Hh. rewrite !andb_true_iff, !Z.leb_le in Hh. destruct_and! Hh.
  split.
  - by apply digest_or_empty.
  - split_and!; by apply (valid_option_within validateArtifactRef _ _ valid_artifact_within).
  - by apply text_len.
  - split_and!; by apply (valid_option_within validateChildRef _ _ valid_child_within).
  - by apply (valid_option_within valid_patch _ _ valid_patch_within).
  - destruct (Status_Gate s) as [g|]; [|done]. cbn in *. apply valid_gate_within; [done|by apply Z.leb_le|done].
  - by apply (valid_option_within valid_effect _ _ valid_effect_within).
  - by apply (valid_option_within valid_failure _ _ valid_failure_within).
  - split_and!; [done|by apply (valid_list_within validateCondition _ _ valid_condition_within)|done].
  - split; [done|by apply (valid_list_within validateChildRef _ _ valid_child_within)].
  - split; [done|by apply (valid_list_within validateArtifactRef _ _ valid_artifact_within)].
Qed.

Lemma valid_size time_json s : ValidateAgentRunStatus time_json s = None -> slen (marshalRaw time_json s) < MaxStatusBytes.
Proof.
  unfold ValidateAgentRunStatus. repeat (destruct (negb _); [done|]). destruct (_ <? _); [done|]. destruct (negb _); [done|].
  by destruct (Z.leb_spec MaxStatusBytes (slen (marshalRaw time_json s))).
Qed.

(** The projection is exact: it is idempotent, it leaves every status alone
    that validation accepts with its conditions in order, and [Encode] yields the
    JSON of the projection, which is valid and smaller than the bound, or fails
    with the error of its validation. *)
Theorem projection_exact time_json s :
  BoundedAgentRunStatus (BoundedAgentRunStatus s) = BoundedAgentRunStatus s /\
  (ValidateAgentRunStatus time_json s = None -> conditions_ordered (Conditions s) ->
     BoundedAgentRunStatus s = s /\ Encode time_json s = Ok (marshalRaw time_json s)) /\
  Encode time_json s =
    match ValidateAgentRunStatus time_json (BoundedAgentRunStatus s) with
    | Some e => Err e
    | None => Ok (marshalRaw time_json (BoundedAgentRunStatus s))
    end /\
  (forall encoded, Encode time_json s = Ok encoded -> slen encoded < MaxStatusBytes).
Proof.
  assert (Henc : forall s, Encode time_json s = match ValidateAgentRunStatus time_json (BoundedAgentRunStatus s) with
    | Some e => Err e | None => Ok (marshalRaw time_json (BoundedAgentRunStatus s)) end).
  { intros s'. unfold Encode. cbv zeta. destruct (ValidateAgentRunStatus _ _) eqn:E; [done|]. apply valid_size in E.
    by destruct (Z.leb_spec MaxStatusBytes (slen (marshalRaw time_json (BoundedAgentRunStatus s')))); [lia|]. }
  split_and!.
  - apply bounded_id, bounded_within.
  - intros Hv Ho. pose proof (bounded_id _ (valid_within _ _ Hv Ho)) as Hb. split; [done|]. by rewrite Henc, Hb, Hv.
  - apply Henc.
  - intros encoded. rewrite Henc. destruct (ValidateAgentRunStatus _ _) eqn:E; [done|]. intros [= <-]. by apply valid_size.
Qed.

(** ** Statuses that the setters build *)

Inductive status_op : Type :=
| OpPhase (phase : Phase)
| OpFailure (code message : string)
| OpPhaseNoClock (phase : Phase)
| OpFailureNoClock (code message : string)
| OpCondition (c : Condition)
| OpResolvedSpec (r : ArtifactRef)
| OpContextPack (r : ArtifactRef)
| OpEventStream (r : ArtifactRef).

Definition run_op (now : Z) (op : status_op) (s : AgentRunStatus) : result status_error AgentRunStatus :=
  match op with
  | OpPhase phase => SetPhaseAt s phase now
  | OpFailure code message => SetFailureAt s code message now
  | OpPhaseNoClock phase => SetPhase s phase
  | OpFailureNoClock code message => SetFailure s code message
  | OpCondition c => SetCondition s c
  | OpResolvedSpec r => SetResolvedSpecRef s r
  | OpContextPack r => SetContextPackRef s r
  | OpEventStream r => SetEventStreamRef s r
  end.

(** The setters that change the phase without a clock leave the times alone. *)
Definition clocked (op : status_op) : bool := match op with OpPhaseNoClock _ | OpFailureNoClock _ _ => false | _ => true end.

(** A status after any setters that succeeded, where the clock, if one is given,
    does not go back, and whether every change of the phase was given one. *)
Inductive built : bool -> Z -> AgentRunStatus -> Prop :=
| built_empty t : 0 < t -> built true t empty_status
| built_step b t now op s s' : built b t s -> t <= now -> run_op now op s = Ok s' -> built (b && clocked op) now s'.

(** The fields the setters touch. *)
Definition simple_status (phase : Phase) (resolved context events : option ArtifactRef) (failure : option FailureStatus) (started completed : option Z)
  (conditions : list Condition) : AgentRunStatus :=
  MkStatus phase 0 "" resolved context "" None None None None None None events 0 "" failure started None completed conditions [] [] false.

Definition reached (phase : Phase) : Prop := phase = "" \/ exists events, lifecycle_trace PhasePending events phase.
Record times_ok (b : bool) (t : Z) (phase : Phase) (started completed : option Z) : Prop := {
  times_unstarted : phase ∈ [""; PhasePending] -> started = None;
  times_running : IsTerminal phase = false -> completed = None;
  times_clocked : b = true -> (started = None -> phase ∈ [""; PhasePending]) /\ (completed = None -> IsTerminal phase = false);
  times_started : forall a, started = Some a -> 0 < a <= t;
  times_completed : forall c, completed = Some c -> exists a, started = Some a /\ a <= c <= t
}.

Record parts_ok (b : bool) (t : Z) (phase : Phase) (refs : list (option ArtifactRef)) (failure : option FailureStatus) (started completed : option Z)
    (conditions : list Condition) : Prop := {
  parts_phase : reached phase;
  parts_refs : Forall (fun r => if_present validateArtifactRef r = true) refs;
  parts_failure : if_present valid_failure failure = true /\ (failure <> None -> phase = PhaseFailed);
  parts_times : times_ok b t phase started completed;
  parts_conditions : forallb validateCondition conditions = true /\ slen conditions <= MaxStatusConditions /\ conditions_ordered conditions
}.

Definition status_inv (b : bool) (t : Z) (s : AgentRunStatus) : Prop :=
  exists phase resolved context events failure started completed conditions,
    s = simple_status phase resolved context events failure started completed conditions /\
    parts_ok b t phase [resolved; context; events] failure started completed conditions.

Lemma transition_lifecycle p q : TransitionTo p q = None -> IsTerminal p = false /\ (p = q \/ exists e, lifecycle p e q).
Proof.
  unfold TransitionTo. destruct (ValidatePhase p) eqn:Hp; [done|]. destruct (ValidatePhase q); [done|]. unfold ValidateTransition.
  destruct (_ || _) in |- *; [by destruct (IsTerminal p)|]. destruct (CanTransition p q) eqn:H; [|by destruct (IsTerminal p)]. intros _.
  unfold CanTransition in H. destruct (_ || _) in H; [done|]. case_bool_decide as E; [split; [by apply negb_true_iff|by left]|].
  apply existsb_exists in H as (t & Hin & Ht). apply list_elem_of_In, table_lifecycle in Hin. rewrite andb_true_iff, !bool_decide_eq_true in Ht.
  destruct Ht as [<- <-]. apply lifecycle_active in Hin as Ha. unfold IsActive in Ha. apply andb_true_iff in Ha as [_ Ha%negb_true_iff]. eauto.
Qed.

Lemma trace_snoc p es q e r : lifecycle_trace p es q -> lifecycle q e r -> lifecycle_trace p (es ++ [e]) r.
Proof. induction 1 as [|? ? ? ? ? Hl Ht IH]; intros He; cbn; econstructor; eauto using lt_nil. Qed.

Lemma active_phases p e q : lifecycle p e q -> q <> "" /\ q <> PhasePending.
Proof. inversion 1; subst; done. Qed.

Lemma reached_step p q : reached p -> (if p =?= "" then (if q !=? PhasePending then Some Fsm.ErrInvalidTransition else None) else TransitionTo p q) = None ->
  reached q /\ IsTerminal p = false /\ q <> "" /\ (q = PhasePending -> p ∈ [""; PhasePending]).
Proof.
  intros Hp H. destruct (bool_decide_reflect (p = "")) as [->|E].
  - destruct (bool_decide_reflect (q = PhasePending)) as [->|]; [|done]. split_and!; [right; exists []; constructor|done|done|intros _; by left].
  - apply transition_lifecycle in H as [Ht [<-|[e He]]]; [split_and!; try done; intros ->; right; left|].
    destruct Hp as [->|[es Hes]]; [done|]. destruct (active_phases _ _ _ He) as [H1 H2].
    split_and!; [right; exists (es ++ [e]); by eapply trace_snoc|done..].
Qed.

Lemma times_step b t now z p q started completed : IsTerminal p = false -> q <> "" -> (q = PhasePending -> p ∈ [""; PhasePending]) ->
  0 < now -> t <= now -> z = now \/ z = 0 -> times_ok b t p started completed ->
  times_ok (b && negb (z =? 0)) now q (if negb (z =? 0) && bool_decide (started = None) && (q !=? PhasePending) then Some z else started)
    (if negb (z =? 0) && IsTerminal q && bool_decide (completed = None) then Some z else completed).
Proof.
  intros Hp Hq Hback Hnow Ht Hz [Hs Hc Hb Hr _]. assert (Hnone : completed = None) by (by apply Hc). subst completed.
  rewrite (bool_decide_eq_true_2 (None = None)), andb_true_r by done. destruct Hz as [-> | ->]; [destruct (Z.eqb_spec now 0) as [|_]; [lia|]|]; cbn [negb andb Z.eqb].
  - rewrite andb_true_r. split.
    + intros Hq'. destruct (bool_decide_reflect (q = PhasePending)) as [E|E]; [|set_solver]. rewrite andb_false_r. by apply Hs, Hback.
    + by intros ->.
    + intros Eb. destruct (Hb Eb) as [Hb1 _]. split; [|by destruct (IsTerminal q)].
      destruct (bool_decide_reflect (q = PhasePending)) as [->|E]; [set_solver|]. rewrite andb_true_r. by destruct started; case_bool_decide.
    + intros a. destruct (_ && _) in |- *; [intros [= <-]; lia|]. intros [? ?]%Hr. lia.
    + intros c. destruct (IsTerminal q) eqn:Hq'; [|done]. intros [= <-]. assert (q <> PhasePending) by (intros ->; done).
      rewrite (bool_decide_eq_false_2 (q = PhasePending)), andb_true_r by done. destruct started as [a|]; [|exists now; split; [done|lia]].
      exists a. split; [done|]. specialize (Hr a eq_refl). lia.
  - rewrite andb_false_r. split; try done; [|intros a Ha; apply Hr in Ha; lia]. intros Hq'. apply Hs. destruct (decide (q = PhasePending)); [auto|set_solver].
Qed.

Lemma times_later b t now p started completed : t <= now -> times_ok b t p started completed -> times_ok b now p started completed.
Proof.
  intros Ht [H1 H2 H3 H4 H5]. split; try done; [intros a Ha; apply H4 in Ha; lia|]. intros c (a & Ha & ?)%H5. exists a. split; [done|lia].
Qed.

Lemma parts_later b t now phase refs failure started completed conditions : t <= now ->
  parts_ok b t phase refs failure started completed conditions -> parts_ok b now phase refs failure started completed conditions.
Proof. intros Ht [H1 H2 H3 H4 H5]. split; try done. by eapply times_later. Qed.

Lemma phase_step b t now z s phase s' : 0 < now -> t <= now -> z = now \/ z = 0 -> status_inv b t s -> SetPhaseAt s phase z = Ok s' ->
  status_inv (b && negb (z =? 0)) now s' /\ Status_Phase s' = phase.
Proof.
  intros Hnow Ht Hz (p & r & c & e & f & st & co & cs & -> & [Hp Hr [Hf Hff] Htm Hc]) H. unfold SetPhaseAt in H. cbn [Status_Phase simple_status StartedAt CompletedAt] in H.
  destruct (if p =?= "" then _ else _) eqn:E in H; [done|]. injection H as <-. destruct (reached_step _ _ Hp E) as (Hq & Hnt & Hne & Hback).
  split; [|done]. eexists phase, r, c, e, f, _, _, cs. split; [reflexivity|]. split; try done.
  - split; [done|]. intros Hsome. apply Hff in Hsome. subst p. done.
  - by eapply times_step.
Qed.

Lemma conditions_step cs c : forallb validateCondition cs = true -> slen cs <= MaxStatusConditions -> conditions_ordered cs -> validateCondition c = true ->
  forall cs', (if has_type (Condition_Type c) cs then Some (replace_condition c cs) else if MaxStatusConditions <=? slen cs then None else Some (cs ++ [c])) = Some cs' ->
  forallb validateCondition (sort_conditions cs') = true /\ slen (sort_conditions cs') <= MaxStatusConditions /\ conditions_ordered (sort_conditions cs').
Proof.
  intros Hv Hs [Hn _] Hc cs' H. rewrite forallb_true in Hv. assert (Hparts : Forall (fun c => validateCondition c = true) cs' /\ distinct_conditions cs').
  { destruct (has_type _ cs) eqn:Et.
    - injection H as <-. split; [by apply Forall_replace|]. split_and!; [by rewrite (types_length _ cs (replace_types _ _))| |by rewrite replace_types].
      apply Forall_replace; [by apply valid_condition_within|]. eapply Forall_impl; [exact Hv|]. apply valid_condition_within.
    - destruct (Z.leb_spec MaxStatusConditions (slen cs)); [done|]. injection H as <-. assert (Hall : Forall (fun c => validateCondition c = true) (cs ++ [c])).
      { apply Forall_app. split; [done|]. by constructor. }
      split; [done|]. split_and!; [unfold slen in *; rewrite length_app; cbn; lia|eapply Forall_impl; [exact Hall|apply valid_condition_within]|].
      rewrite map_app. apply NoDup_app. split_and!; [done| |apply NoDup_singleton]. intros x Hx ->%list_elem_of_singleton.
      apply has_type_spec in Hx. congruence. }
  destruct Hparts as [Hall Hd]. destruct (sorted_conditions _ Hd) as (H1 & _ & H3). split_and!; [|done|done]. rewrite forallb_true.
  unfold sort_conditions. assert (Hp : sort_on Condition_Type String.compare cs' ≡ₚ cs') by apply sort_on_perm. by rewrite Hp.
Qed.

Lemma failure_step b t now z s code message s' : 0 < now -> t <= now -> z = now \/ z = 0 -> status_inv b t s -> SetFailureAt s code message z = Ok s' ->
  status_inv (b && negb (z =? 0)) now s'.
Proof.
  intros Hnow Ht Hz Hinv H. unfold SetFailureAt in H. case_bool_decide; [done|]. destruct (validateBoundedText code _) eqn:Hc in H; [|done].
  destruct (validateBoundedText message _) eqn:Hm in H; [|done]. cbn [negb] in H. destruct (SetPhaseAt s PhaseFailed z) as [failed|] eqn:E; [|done].
  cbn in H. injection H as <-. destruct (phase_step _ _ _ _ _ _ _ Hnow Ht Hz Hinv E) as [Hi Hphase].
  destruct Hi as (p & r & c & e & f & st & co & cs & -> & [Hp Hr _ Htm Hcs]). cbn in Hphase.
  eexists p, r, c, e, (Some _), st, co, cs. split; [reflexivity|]. split; try done. split; [|done]. cbn. unfold valid_failure. cbn. by rewrite Hc, Hm.
Qed.

Lemma condition_step b t s c s' : status_inv b t s -> SetCondition s c = Ok s' -> status_inv b t s'.
Proof.
  intros (p & r & x & e & f & st & co & cs & -> & [Hp Hr Hf Htm (Hv & Hs & Ho)]) H. unfold SetCondition in H.
  destruct (validateCondition c) eqn:Hc; [|done]. cbn [negb] in H. rewrite (bounded_condition_id _ (valid_condition_within _ Hc)) in H. cbv zeta in H.
  cbn [Conditions simple_status] in H.
  assert (Hnew : exists cs', (if has_type (Condition_Type c) cs then Some (replace_condition c cs) else if MaxStatusConditions <=? slen cs then None
    else Some (cs ++ [c])) = Some cs' /\ s' = simple_status p r x e f st co (sort_conditions cs')).
  { destruct (has_type _ cs); [injection H as <-; eauto|]. destruct (_ <=? _); [done|]. injection H as <-; eauto. }
  destruct Hnew as (cs' & Hcs & ->). eexists p, r, x, e, f, st, co, _. split; [reflexivity|]. split; try done.
  by apply (conditions_step cs c).
Qed.

Lemma refs_step b t s r s' : status_inv b t s ->
  SetResolvedSpecRef s r = Ok s' \/ SetContextPackRef s r = Ok s' \/ SetEventStreamRef s r = Ok s' -> status_inv b t s'.
Proof.
  intros (p & a & x & c & f & st & co & cs & -> & [Hp Hr Hf Htm Hcs]) H. rewrite !Forall_cons in Hr. destruct Hr as (Ha & Hb & Hc & _).
  unfold SetResolvedSpecRef, SetContextPackRef, SetEventStreamRef in H. destruct (validateArtifactRef r) eqn:Hv; [|by destruct H as [?|[?|?]]].
  cbn [negb] in H. destruct H as [H|[H|H]]; injection H as <-;
    [eexists p, (Some r), x, c, f, st, co, cs|eexists p, a, (Some r), c, f, st, co, cs|eexists p, a, x, (Some r), f, st, co, cs];
    (split; [reflexivity|]; split; try done; by repeat constructor).
Qed.

Lemma inv_later b t now s : t <= now -> status_inv b t s -> status_inv b now s.
Proof. intros Ht (p & a & x & c & f & st & co & cs & -> & H). eexists p, a, x, c, f, st, co, cs. split; [reflexivity|]. by eapply parts_later. Qed.

Lemma built_inv b t s : built b t s -> 0 < t /\ status_inv b t s.
Proof.
  induction 1 as [t Ht|b t now op s s' _ [Ht IH] Hle Hop].
  - split; [done|]. eexists "", None, None, None, None, None, None, []. split; [reflexivity|]. split.
    + by left.
    + by repeat constructor.
    + done.
    + split; try done. intros _. split; [intros _; left|done].
    + split_and!; [done|by compute|split; constructor].
  - assert (Hnow : 0 < now) by lia. split; [done|]. assert (Hinv := inv_later _ _ _ _ Hle IH).
    assert (Hz : negb (now =? 0) = true) by (apply negb_true_iff, Z.eqb_neq; lia).
    destruct op; cbn [run_op clocked] in *; rewrite ?andb_true_r.
    + rewrite <- (andb_true_r b), <- Hz. by eapply phase_step; [| |left| |exact Hop].
    + rewrite <- (andb_true_r b), <- Hz. by eapply failure_step; [| |left| |exact Hop].
    + change false with (negb (0 =? 0)). by eapply phase_step; [| |right| |exact Hop].
    + change false with (negb (0 =? 0)). by eapply failure_step; [| |right| |exact Hop].
    + by eapply condition_step.
    + eapply refs_step; eauto.
    + eapply refs_step; eauto.
    + eapply refs_step; eauto.
Qed.

Lemma trace_valid p es q : lifecycle_trace p es q -> ValidatePhase p = None -> ValidatePhase q = None.
Proof. induction 1 as [|? ? ? ? ? Hl _ IH]; intros Hp; [done|]. apply IH. by inversion Hl; subst. Qed.

Lemma reached_valid p : reached p -> (p =?= "") || bool_decide (ValidatePhase p = None) = true.
Proof. intros [->|[es Hes]]; [done|]. apply orb_true_iff. right. apply bool_decide_eq_true. by eapply trace_valid. Qed.

Lemma built_valid time_json b t s : status_inv b t s ->
  ValidateAgentRunStatus time_json s = None \/ ValidateAgentRunStatus time_json s = Some ErrStatusTooLarge.
Proof.
  intros (p & a & x & c & f & st & co & cs & -> & [Hp Hr [Hf _] _ (Hv & Hs & _)]). rewrite !Forall_cons in Hr. destruct Hr as (Ha & Hb & Hc & _).
  apply reached_valid in Hp. unfold ValidateAgentRunStatus.
  assert (Hh : valid_head (simple_status p a x c f st co cs) = true).
  { unfold valid_head. cbn [simple_status Status_Phase Status_SpecDigest Status_BaseSHA CostUSD ResolvedSpecRef ContextPackRef EventStreamRef WorkSandboxRef
      VerifySandboxRef Children Artifacts Status_Patch]. by rewrite Hp, Ha, Hb, Hc. }
  rewrite Hh. cbn [simple_status Status_Gate Status_Effect Status_Failure Conditions negb if_present]. rewrite Hf, Hv. cbn [negb].
  destruct (Z.ltb_spec MaxStatusConditions (slen cs)); [lia|]. destruct (_ <=? _); auto.
Qed.

Lemma built_within b t s : status_inv b t s -> status_within s.
Proof.
  intros (p & a & x & c & f & st & co & cs & -> & [_ Hr [Hf _] _ (Hv & Hs & Ho)]). rewrite !Forall_cons in Hr. destruct Hr as (Ha & Hb & Hc & _).
  split; cbn; try done.
  - split_and!; by apply (valid_option_within validateArtifactRef _ _ valid_artifact_within).
  - by apply (valid_option_within valid_failure _ _ valid_failure_within).
  - split_and!; [done|by apply (valid_list_within validateCondition _ _ valid_condition_within)|done].
Qed.

(** C3. A status that any setters built from the empty one, where the times given
    do not go back, is valid unless it is too large, and the projection leaves it
    alone; its phase is empty or reached from Pending by the events of the
    lifecycle; only a failed run has a failure; a start time means a phase past
    Pending, a completion time a terminal phase and a start time, and these are in
    order and not in the future.  When no phase was set without a clock
    ([SetPhase], [SetFailure]), a phase past Pending also has a start time and a
    terminal phase a completion time. *)
Theorem status_lifecycle time_json b t s (H : built b t s) :
  (ValidateAgentRunStatus time_json s = None \/ ValidateAgentRunStatus time_json s = Some ErrStatusTooLarge) /\
  BoundedAgentRunStatus s = s /\
  (Status_Phase s = "" \/ exists events, lifecycle_trace PhasePending events (Status_Phase s)) /\
  (Status_Failure s <> None -> Status_Phase s = PhaseFailed) /\
  (Status_Phase s ∈ [""; PhasePending] -> StartedAt s = None) /\
  (IsTerminal (Status_Phase s) = false -> CompletedAt s = None) /\
  (forall started, StartedAt s = Some started -> 0 < started <= t) /\
  (forall completed, CompletedAt s = Some completed -> exists started, StartedAt s = Some started /\ started <= completed <= t) /\
  (b = true -> (StartedAt s = None -> Status_Phase s ∈ [""; PhasePending]) /\ (CompletedAt s = None -> IsTerminal (Status_Phase s) = false)).
Proof.
  apply built_inv in H as [_ H]. split; [by eapply built_valid|]. split; [by eapply bounded_id, built_within|].
  destruct H as (p & a & x & c & f & st & co & cs & -> & [Hp _ [_ Hf] [H1 H2 H3 H4 H5] _]). by split_and!.
Qed.

Definition ready : Condition := MkCondition "Ready" ConditionTrue "Prepared" "" 1 5.
Definition pack : ArtifactRef := MkArtifactRef "s3://artifacts/pack.json" ("sha256:" ++ String.concat "" (repeat "a" 64)) "context" "pack" "" 12.
Definition failed_run : AgentRunStatus :=
  simple_status PhaseFailed None (Some pack) None (Some (MkFailure "workspace" "no disk" false)) (Some 7) (Some 9) [ready].

Lemma status_lifecycle_witness :
  built true 9 failed_run /\ StartedAt failed_run = Some 7 /\ (Status_Failure failed_run <> None -> Status_Phase failed_run = PhaseFailed).
Proof.
  assert (H : built true 9 failed_run).
  { apply (built_step true 7 9 (OpFailure "workspace" "no disk") (simple_status PhaseCloning None (Some pack) None None (Some 7) None [ready])); [|lia|by vm_compute].
    apply (built_step true 7 7 (OpPhase PhaseCloning) (simple_status PhasePending None (Some pack) None None None None [ready])); [|lia|by vm_compute].
    apply (built_step true 5 7 (OpContextPack pack) (simple_status PhasePending None None None None None None [ready])); [|lia|by vm_compute].
    apply (built_step true 5 5 (OpCondition ready) (simple_status PhasePending None None None None None None [])); [|lia|by vm_compute].
    apply (built_step true 5 5 (OpPhase PhasePending) empty_status); [constructor; lia|lia|by vm_compute]. }
  split; [exact H|]. split; [reflexivity|]. apply (status_lifecycle (fun n => JInt n) true 9 failed_run H).
Defined.

Lemma projection_exact_witness :
  BoundedAgentRunStatus failed_run = failed_run /\ Encode (fun n => JInt n) failed_run = Ok (marshalRaw (fun n => JInt n) failed_run).
Proof.
  apply (projection_exact (fun n => JInt n) failed_run); [by vm_compute|]. split; [apply NoDup_singleton|repeat constructor].
Defined.
