(* ===== verification/EffectSystem.v ===== *)
(** * Publications and tool calls on one ledger

    The publisher keeps to the discipline of clients, as the broker does, and so of
    all that claim one effect at most one acts. *)

From S2P Require Import Prelude GoStrings Digest GoTime Store Effects LedgerProtocol Retention RetentionApply LedgerSystem Client.
From S2P Require Import ClientSystem Url Publish Publisher ToolPolicy BrokerData BrokerPolicy BrokerCalls BrokerCallsSpec.
Local Open Scope go_scope.
Local Open Scope string_scope.
Local Open Scope Z_scope.
Local Open Scope list_scope.

Lemma commitOutcome_passive {A : Type} prepared o (k : bool -> pub A) : (forall b, passive (k b)) -> passive (commitOutcome prepared o k).
Proof. intros H [e|]; cbn; [|auto]. intros [x|]; auto. Qed.

Lemma unknown_passive prepared : passive (publish_unknown prepared).
Proof. by apply commitOutcome_passive. Qed.
Lemma failed_passive prepared code e : passive (failed prepared code e).
Proof. apply commitOutcome_passive. by intros []. Qed.
Lemma replay_passive prepared : passive (replay prepared).
Proof. intros [o|]; [|done]. repeat case_match; done. Qed.
Lemma refuse_passive prepared e code err : passive (refuse prepared e code err).
Proof. unfold refuse. case_match; [apply failed_passive|apply unknown_passive]. Qed.

Lemma granted_claimless prepared : claimless (publish_granted prepared).
Proof.
  assert (Hu := passive_claimless _ (unknown_passive prepared)).
  assert (Hf := fun code e => passive_claimless _ (failed_passive prepared code e)).
  assert (Hr := fun e code err => passive_claimless _ (refuse_passive prepared e code err)).
  unfold publish_granted, CallGitHub. cbv zeta. intros [ref|e]; [|apply Hr]. case_match; [apply Hu|]. case_match; [apply Hf|].
  intros [branch|e]; [|apply Hr]. case_match; [apply Hu|]. intros [commit|e]; [|apply Hr]. case_match; [apply Hu|].
  intros [pr|e]; [|apply Hr]. case_match; [apply Hu|]. intros [[]|e]; [|apply Hu].
  apply passive_claimless, commitOutcome_passive. by intros [].
Qed.

Lemma publish_disciplined r : disciplined (Publish r).
Proof.
  unfold Publish. case_match; [done|]. case_match; [done|]. destruct (prepare r) as [prepared|e]; [|by destruct e].
  intros [[ex un oc] [e|]] Hn; [by destruct e; cbn; auto|]. cbn [Unknown Execute].
  destruct un; [split; [apply passive_claimless|right]; apply replay_passive|].
  destruct ex; [|split; [apply passive_claimless|right]; apply replay_passive]. cbn [orb negb].
  split; [apply granted_claimless|left]. destruct (Hn eq_refl) as [c Hc]. cbn in Hc. subst oc. by exists c.
Qed.

(** ** A request *)

Definition sample_files : list FileChange := [MkFile "a.txt" "100644" false (Some [0x68; 0x69])].
Definition sample_image : string := "ghcr.io/acme/agent@" +:+ digestBytes [3].
Definition sample_raw : list Z := bytes "diff".
Definition sample_patch : Patch :=
  MkPatch (digestBytes sample_raw) sample_raw (match DigestForPatch sample_files with Ok d => d | Err _ => "" end) sample_files.
Definition sample_request : Request :=
  MkRequest "run-1" "demo" (MkRepository "acme" "widget") "main" (of_bytes (repeat 0x61 40)) sample_patch (digestBytes [4])
    (MkGate GateShadow "Accepted" (digestBytes [5])) sample_image sample_image None None PublishPullRequest "" [].

Notation actor := (client (service_sum GitHub Surroundings) (answer + call_answer)).
Definition publication (r : Request) : actor := left_client inl (Publish r).
Definition tool_call (b : Broker) (request : ToolCallRequest) : actor := right_client inr (CallTool b request).

Inductive actors : actor -> Prop :=
| actor_publishes r : actors (publication r)
| actor_calls b request : actors (tool_call b request).

Lemma actors_disciplined p : actors p -> disciplined p.
Proof.
  intros [r|b request]; apply embed_disciplined; try done; [apply publish_disciplined|apply call_disciplined].
Qed.

(** C40. Of all publications and tool calls that ever run, however they
    interleave with each other, with other users of the ledger and with retention,
    and whatever GitHub, the tool servers and the store answer: one that calls
    GitHub or invokes a tool that is not a read has claimed its effect, and of
    those that claimed the same effect at most one does so. *)
Theorem effects_act_once l s0 st i j ri rj
  (Hr : rtc (cstep l actors) (MkSystem (s0, []) [] []) st)
  (Hi : (i, ri) ∈ calls st) (Ai : acts ri = true) (Hj : (j, rj) ∈ calls st) (Aj : acts rj = true) :
  exists ci cj, fst <$> clients st !! i = Some (Some ci) /\ fst <$> clients st !! j = Some (Some cj) /\
    (Claim_EffectKey ci = Claim_EffectKey cj -> i = j).
Proof. by eapply (claimed_once l actors actors_disciplined). Qed.

(** ** A run *)

Definition sample_publisher_ledger : Ledger := MkLedger "agents-gateway/v3/publish-effects".
Definition sample_time : Time := MkTime 2024 2 29 23 59 59 120 0.

(** Two publications of one request; the first has begun to ask GitHub. *)
Lemma effects_act_once_witness : exists st g,
  rtc (cstep sample_publisher_ledger actors) (MkSystem (∅, []) [] []) st /\ length (clients st) = 2%nat /\
  (0%nat, g) ∈ calls st /\ acts g = true /\
  forall j gj, (j, gj) ∈ calls st -> acts gj = true -> exists c cj, fst <$> clients st !! 0%nat = Some (Some c) /\
    fst <$> clients st !! j = Some (Some cj) /\ (Claim_EffectKey c = Claim_EffectKey cj -> 0%nat = j).
Proof.
  assert (Hcomp : match prepare sample_request with
    | Ok p => match (run sample_time (claim_call sample_publisher_ledger (publish_claim p)) ∅).1 with Granted _ => true | _ => false end
    | Err _ => false end = true) by (vm_compute; reflexivity).
  destruct (prepare sample_request) as [p|] eqn:Hp; [|discriminate Hcomp].
  set (l := sample_publisher_ledger) in *. set (pub := publication sample_request).
  assert (Hpub : exists k, pub = CallClaim (publish_claim p) k /\
    forall c, k (MkDecision true false (Some c), None) = left_client inl (publish_granted p)).
  { unfold pub, publication, Publish. rewrite Hp. eexists. split; reflexivity. }
  destruct Hpub as (k & Hpub & Hk).
  set (cl := claim_call l (publish_claim p)). set (r1 := run sample_time cl ∅).
  assert (Hg : exists c, r1.1 = Granted c).
  { revert Hcomp. change (run sample_time (claim_call l (publish_claim p)) ∅) with r1. generalize (r1.1). intros rep Hrep.
    destruct rep as [c| |]; [exists c; reflexivity|discriminate Hrep..]. }
  destruct Hg as [c Hg].
  assert (Hsteps : rtc (step (ledger_user l)) (∅, [cl]) (r1.2, [Ret (Granted c)])).
  { rewrite <- Hg. apply (run_steps _ sample_time cl eq_refl ∅ [] []). }
  assert (Hc : exists g kg, (left_client inl (publish_granted p) : actor) = CallService g kg /\ acts g = true /\
    exists a : service_answer (service_sum GitHub Surroundings) g, True).
  { unfold publish_granted. eexists _, _. split_and!; [reflexivity..|]. by exists (Err ErrGitHubOther). }
  destruct Hc as (g & kg & Hcall & Hact & ans & _).
  set (st := MkSystem (r1.2, [Ret (Granted c)]) [(Some (publish_claim p), Running (kg ans)); (None, Running pub)] [(0%nat, g)]).
  assert (Hr : rtc (cstep l actors) (MkSystem (∅, []) [] []) st).
  { eapply rtc_l; [apply (cstep_start l actors _ pub), actor_publishes|].
    eapply rtc_l; [apply (cstep_start l actors _ pub), actor_publishes|]. cbn [ledger_part clients calls app].
    eapply rtc_l; [apply (cstep_claim l actors _ 0 None (publish_claim p) k); cbn; by rewrite <- Hpub|]. cbn.
    etransitivity; [apply lift_steps, Hsteps|].
    eapply rtc_l; [apply (cstep_claimed l actors _ 0 (Some (publish_claim p)) 0 k (MkDecision true false (Some c), None)); [done|done|by eexists]|].
    cbn. rewrite Hk, Hcall.
    eapply rtc_l; [apply (cstep_service l actors _ 0 (Some (publish_claim p)) g kg ans); done|]. cbn. apply rtc_refl. }
  assert (Hin : (0%nat, g) ∈ calls st) by (by left).
  exists st, g. split_and!; [exact Hr|reflexivity|exact Hin|exact Hact|]. intros j gj Hj Aj.
  exact (effects_act_once l ∅ st 0 j g gj Hr Hin Hact Hj Aj).
Defined.
