(* ===== verification/RuntimeProto.v ===== *)
(** * The runtime protocol (src/v3/pkg/runtimeproto/protocol.go and
    src/v3/pkg/proto/runtime.go)

    Frames of the agw.runtime.v1 JSONL boundary: their parsing, schema, encoding,
    order and redaction.  A raw message is its text.  [checkJSONShape] walks
    documents that the strict parser has accepted before, so it is a walk over the
    parsed value; a number is a token if it is in the range of [float64].  All
    schema errors are [Invalid]: which of several the code reports depends on the
    order of a Go map.  A reader is the list of the bytes it still yields. *)

From stdpp Require Import pretty.
From S2P Require Import Prelude Order GoStrings Digest Digits GoTime GoJson Unmarshal StrictJson StrictJsonSpec RawJson.
Local Open Scope go_scope.
Local Open Scope string_scope.
Local Open Scope Z_scope.
Local Open Scope list_scope.

Definition ProtocolVersion : string := "agw.runtime.v1".
Definition KindEvent : string := "event".
Definition KindRequest : string := "request".

Definition EventRunStarted : string := "run.started".
Definition EventHeartbeat : string := "heartbeat".
Definition EventAssistantMessage : string := "assistant.message".
Definition EventModelRequested : string := "model.requested".
Definition EventModelCompleted : string := "model.completed".
Definition EventToolRequested : string := "tool.requested".
Definition EventToolCompleted : string := "tool.completed".
Definition EventApprovalRequested : string := "approval.requested".
Definition EventApprovalResolved : string := "approval.resolved".
Definition EventArtifactCreated : string := "artifact.created".
Definition EventRunCompleted : string := "run.completed".
Definition EventRunFailed : string := "run.failed".
Definition EventRunCancelled : string := "run.cancelled".
Definition EventUnknownEffect : string := "run.unknown_effect".

Definition RequestRunStart : string := "run.start".
Definition RequestInput : string := "input".
Definition RequestToolResult : string := "tool.result".
Definition RequestApproval : string := "approval.result".
Definition RequestCancel : string := "run.cancel".
Definition RequestPing : string := "ping".

Record Envelope : Type := MkEnvelope {
  Protocol : string; Kind : string; Type_ : string; RunID : string; Seq : Z; Terminal : bool; Data : list Z
}.

Definition MaxFrameBytes : Z := Z.shiftl 1 20.
Definition MaxDataBytes : Z := Z.shiftl 768 10.
Definition maxProtocolStringBytes : Z := 256.
Definition maxTextBytes : Z := Z.shiftl 64 10.
Definition maxObjectFields : Z := 64.
Definition maxArrayItems : Z := 256.
Definition maxJSONDepth : Z := 32.

Inductive proto_error : Type := ErrFrameTooLarge | ErrBlankFrame | ErrEOF | Invalid | OutOfFuel.

(** ** The shape of a document *)

(** The number is below the midpoint between the largest [float64] and the next
    power of two: [strconv.ParseFloat] succeeds. *)
Definition float64_limit : Z := 2 ^ 1024 - 2 ^ 970.
Definition float64_range (d : decimal) : bool :=
  let n := digits_val (significand d) in
  if 310 <? slen (significand d) + exponent d then false
  else if 0 <=? exponent d then n * 10 ^ exponent d <? float64_limit
  else n <? float64_limit * 10 ^ (- exponent d).

Fixpoint walkValue (depth : Z) (v : Value) : bool :=
  (depth <=? maxJSONDepth) &&
  match v with
  | objectValue members => (slen members <=? maxObjectFields) && forallb (fun m => walkValue (depth + 1) m.2) members
  | arrayValue items => (slen items <=? maxArrayItems) && forallb (walkValue (depth + 1)) items
  | stringValue s => len s <=? maxTextBytes
  | numberValue d => float64_range d
  | booleanValue _ | nullValue => true
  end.

Definition checkJSONShape (raw : list Z) : bool :=
  match parse raw with Ok v => walkValue 0 v | Err _ => false end.
Definition validateJSONShape (raw : list Z) : bool := checkJSONShape raw.

(** ** Raw values *)

Fixpoint raw_items_loop (fuel : nat) (l : list Z) : option (list (list Z)) :=
  match fuel with
  | O => None
  | S fuel =>
    match parseValue fuel 1 l with
    | Err _ => None
    | Ok (_, l1) =>
      let item := take (length l - length l1) l in
      match consume rbracket (skipSpace l1) with
      | Some _ => Some [item]
      | None =>
        match consume comma (skipSpace l1) with
        | None => None
        | Some l2 => cons item <$> raw_items_loop fuel (skipSpace l2)
        end
      end
    end
  end.
(** [json.Unmarshal] of an accepted document into a slice of raw messages. *)
Definition raw_items (document : list Z) : option (list (list Z)) :=
  let l := skipSpace document in
  match consume lbracket l with
  | None => None
  | Some l1 =>
    match consume rbracket (skipSpace l1) with
    | Some _ => Some []
    | None => raw_items_loop (value_fuel l - 2) (skipSpace l1)
    end
  end.

Definition unmarshal_uint64 (raw : list Z) : option Z :=
  if raw =?= bytes "null" then Some 0
  else if bool_decide (raw = []) || negb (forallb is_digit raw) || (2 ^ 64 - 1 <? digits_val raw) then None
  else Some (digits_val raw).

Definition raw_null (raw : list Z) : bool := trim_space raw =?= bytes "null".
Definition opens_with (b : Z) (raw : list Z) : bool := bool_decide (head (trim_space raw) = Some b).

(** ** Schemas *)

Definition check : Type := list Z -> bool.
Record fieldRule : Type := MkRule { required : bool; rule_check : check }.
Definition objectSchema : Type := list (string * fieldRule).
Definition requiredField (c : check) : fieldRule := MkRule true c.
Definition optionalField (c : check) : fieldRule := MkRule false c.

Definition objectFields (raw : list Z) : option (list (string * list Z)) := raw_fields raw.

Definition field_ok (fields : list (string * list Z)) (name : string) (rule : fieldRule) : bool :=
  match member name fields with
  | None => negb (required rule)
  | Some value => if bool_decide (trim_space value = []) || raw_null value then false else rule_check rule value
  end.
Definition validateObject (raw : list Z) (schema : objectSchema) : bool :=
  validateJSONShape raw &&
  match objectFields raw with
  | None => false
  | Some fields =>
    forallb (fun f => bool_decide (f.1 ∈ map fst schema)) fields && forallb (fun r => field_ok fields r.1 r.2) schema
  end.

Definition validateString (max : Z) (nonEmpty : bool) : check := fun raw =>
  match unmarshal_string raw with
  | None => false
  | Some value => (len value <=? max) && negb (bool_decide (0 ∈ bytes value)) && negb (nonEmpty && (TrimSpace value =?= ""))
  end.
Definition validateIdentifier : check := validateString maxProtocolStringBytes true.
Definition validateReference : check := validateString maxTextBytes true.
Definition validateText : check := validateString maxTextBytes false.
Definition validateNonEmptyText : check := validateString maxTextBytes true.
Definition validateUint : check := fun raw => bool_decide (is_Some (unmarshal_uint64 raw)).
Definition validateNonNegativeInt : check := fun raw => match unmarshal_int64 raw with Some n => 0 <=? n | None => false end.

Definition validateDigest : check := fun raw =>
  validateString maxProtocolStringBytes true raw &&
  match unmarshal_string raw with
  | None => false
  | Some value => (len value =? 7 + 64) && HasPrefix value "sha256:" && forallb is_lower_hex (runes (of_bytes (drop 7 (bytes value))))
  end.

Definition validateBoundedJSON : check := fun raw => validateJSONShape raw && negb (raw_null raw).
Definition validateJSONObjectValue : check := fun raw => opens_with lbrace raw && validateBoundedJSON raw.
Definition validateResultSummary : check := fun raw =>
  negb (bool_decide (trim_space raw = []) || raw_null raw) && (opens_with quote raw || opens_with lbrace raw) && validateBoundedJSON raw.
Definition validateError : check := fun raw =>
  negb (bool_decide (trim_space raw = []) || raw_null raw) &&
  (if opens_with quote raw then validateString maxTextBytes true raw
   else if negb (opens_with lbrace raw) then false
   else validateObject raw [("code", requiredField validateIdentifier); ("message", requiredField validateText)]).
Definition validateArtifact : check := fun raw =>
  validateObject raw [("id", requiredField validateIdentifier); ("uri", requiredField validateReference); ("digest", requiredField validateDigest);
    ("size_bytes", requiredField validateNonNegativeInt); ("media_type", optionalField validateIdentifier)].

Definition array_of (item : check) : check := fun raw =>
  match raw_items raw with
  | None => false
  | Some values => (slen values <=? maxArrayItems) && forallb item values
  end.
Definition validateArtifactArray : check := array_of validateArtifact.
Definition validateStringArray : check := array_of validateNonEmptyText.
Definition validatePinnedReferenceArray : check := array_of (fun value =>
  validateObject value [("ref", requiredField validateReference); ("digest", requiredField validateDigest)]).
Definition validateEnvironmentArray : check := array_of (fun value =>
  validateObject value [("name", requiredField validateIdentifier); ("ref", requiredField validateReference)]).

(** [time.Parse] of [time.RFC3339Nano]: its strict reader, and then the layout
    itself, which also takes an hour of one digit, a comma before the fraction and
    offsets up to 24 hours and 60 minutes. *)
Definition time_hour (l : list Z) : option (Z * list Z) :=
  match l with
  | a :: b :: _ => if is_digit a && negb (is_digit b) then time_uint 1 0 9 l else time_uint 2 0 23 l
  | _ => time_uint 1 0 9 l
  end.
Definition skip_fraction (l : list Z) : list Z :=
  match l with
  | p :: d :: _ => if ((p =? dot) || (p =? 0x2C)) && is_digit d then (span_digits (drop 1 l)).2 else l
  | _ => l
  end.
Definition layout_zone (l : list Z) : bool :=
  match l with
  | s :: rest =>
    if s =? char_Z then bool_decide (rest = [])
    else ((s =? dash) || (s =? plus)) &&
      bool_decide (is_Some ('(_, l1) ← time_uint 2 0 24 rest; l2 ← time_sep colon_byte l1; '(_, l3) ← time_uint 2 0 60 l2;
                            if bool_decide (l3 = []) then Some tt else None))
  | [] => false
  end.
Definition time_Parse (value : string) : bool :=
  bool_decide (is_Some (parseRFC3339 (bytes value))) ||
  match '(year, l) ← time_uint 4 0 9999 (bytes value); l ← time_sep dash l; '(month, l) ← time_uint 2 1 12 l; l ← time_sep dash l;
        '(day, l) ← time_uint 2 1 (daysIn month year) l; l ← time_sep char_T l; '(_, l) ← time_hour l; l ← time_sep colon_byte l;
        '(_, l) ← time_uint 2 0 59 l; l ← time_sep colon_byte l; '(_, l) ← time_uint 2 0 59 l; Some (skip_fraction l) with
  | Some l => layout_zone l
  | None => false
  end.
Definition validateDeadline : check := fun raw =>
  validateString maxProtocolStringBytes true raw && match unmarshal_string raw with Some value => time_Parse value | None => false end.

Definition validateRevision : check := fun raw =>
  validateObject raw [("kind", requiredField validateIdentifier); ("name", requiredField validateIdentifier); ("digest", requiredField validateDigest)].
Definition validateExecutionContract : check := fun raw =>
  validateObject raw
    [("agent", requiredField validateRevision); ("sandbox_profile", requiredField validateRevision); ("skill_set", optionalField validateRevision);
     ("tool_set", optionalField validateRevision); ("model_route", optionalField validateRevision);
     ("inline_skills", optionalField validatePinnedReferenceArray); ("instructions_ref", requiredField validateReference);
     ("instructions", requiredField validateNonEmptyText); ("verification_ref", optionalField validateReference);
     ("verification", optionalField validateStringArray); ("environment", optionalField validateEnvironmentArray)].
Definition validateRunStart (raw : list Z) : bool :=
  validateObject raw
    [("organization_id", requiredField validateIdentifier); ("project_id", requiredField validateIdentifier); ("run_id", requiredField validateIdentifier);
     ("workflow_name", requiredField validateIdentifier); ("step_id", requiredField validateIdentifier); ("agent_ref", requiredField validateReference);
     ("input_ref", optionalField validateReference); ("dependency_output", optionalField validateArtifactArray);
     ("execution", requiredField validateExecutionContract)].

(** The schema of the data of an event. *)
Definition event_schema (typ : string) : option objectSchema :=
  if typ =?= EventRunStarted then Some [("agent_id", requiredField validateIdentifier); ("sandbox_id", requiredField validateIdentifier)]
  else if typ =?= EventHeartbeat then Some []
  else if typ =?= EventAssistantMessage then
    Some [("message", optionalField validateText); ("content", optionalField validateText); ("role", optionalField validateIdentifier)]
  else if typ =?= EventModelRequested then Some [("model", requiredField validateIdentifier)]
  else if typ =?= EventModelCompleted then
    Some [("model", optionalField validateIdentifier); ("status", optionalField validateIdentifier); ("input_tokens", optionalField validateUint);
          ("output_tokens", optionalField validateUint); ("response", optionalField validateBoundedJSON)]
  else if typ =?= EventToolRequested then
    Some [("request_id", requiredField validateIdentifier); ("tool", requiredField validateIdentifier);
          ("arguments", optionalField validateJSONObjectValue); ("effect_key", optionalField validateIdentifier)]
  else if typ =?= EventToolCompleted then
    Some [("request_id", requiredField validateIdentifier); ("status", requiredField validateIdentifier);
          ("result", optionalField validateBoundedJSON); ("error", optionalField validateError)]
  else if typ =?= EventApprovalRequested then
    Some [("approval_id", requiredField validateIdentifier); ("reason", optionalField validateText); ("effect_key", optionalField validateIdentifier)]
  else if typ =?= EventApprovalResolved then
    Some [("approval_id", requiredField validateIdentifier); ("decision", requiredField validateIdentifier); ("actor", optionalField validateIdentifier)]
  else if typ =?= EventArtifactCreated then
    Some [("artifact_id", requiredField validateIdentifier); ("artifact", optionalField validateArtifact); ("output_role", optionalField validateIdentifier)]
  else if typ =?= EventRunCompleted then
    Some [("result", requiredField validateResultSummary); ("output", optionalField validateArtifact);
          ("sandbox_acceptance", optionalField validateIdentifier)]
  else if typ =?= EventRunFailed then Some [("error", requiredField validateError)]
  else if typ =?= EventRunCancelled then Some [("reason", requiredField validateText)]
  else if typ =?= EventUnknownEffect then Some [("effect_id", requiredField validateIdentifier); ("reason", optionalField validateText)]
  else None.

Definition validateEventData (typ : string) (raw : list Z) : bool :=
  match event_schema typ with
  | None => false
  | Some schema =>
    validateObject raw schema &&
    (if typ =?= EventAssistantMessage then
       match objectFields raw with
       | None => false
       | Some fields => bool_decide (is_Some (member "message" fields)) || bool_decide (is_Some (member "content" fields))
       end
     else true)
  end.

Definition validateRequestData (typ : string) (raw : list Z) : bool :=
  if typ =?= RequestRunStart then validateRunStart raw
  else if typ =?= RequestInput then validateObject raw [("reference", requiredField validateReference)]
  else if typ =?= RequestToolResult then
    validateObject raw [("request_id", requiredField validateIdentifier); ("status", requiredField validateIdentifier);
      ("result", optionalField validateBoundedJSON); ("error", optionalField validateError)]
  else if typ =?= RequestApproval then validateObject raw [("approval_id", requiredField validateIdentifier); ("decision", requiredField validateIdentifier)]
  else if typ =?= RequestCancel then validateObject raw [("reason", requiredField validateText); ("deadline", optionalField validateDeadline)]
  else if typ =?= RequestPing then validateObject raw []
  else false.

(** ** Envelopes *)

Definition knownEvent (t : string) : bool :=
  bool_decide (t ∈ [EventRunStarted; EventHeartbeat; EventAssistantMessage; EventModelRequested; EventModelCompleted; EventToolRequested;
    EventToolCompleted; EventApprovalRequested; EventApprovalResolved; EventArtifactCreated; EventRunCompleted; EventRunFailed; EventRunCancelled;
    EventUnknownEffect]).
Definition knownRequest (t : string) : bool :=
  bool_decide (t ∈ [RequestRunStart; RequestInput; RequestToolResult; RequestApproval; RequestCancel; RequestPing]).
Definition isTerminalEvent (t : string) : bool := bool_decide (t ∈ [EventRunCompleted; EventRunFailed; EventRunCancelled; EventUnknownEffect]).

Definition validateEvent (frame : Envelope) : bool :=
  bool_decide (Terminal frame = isTerminalEvent (Type_ frame)) && knownEvent (Type_ frame) && validateEventData (Type_ frame) (Data frame).
Definition validateRequest (frame : Envelope) : bool :=
  negb (Terminal frame) && knownRequest (Type_ frame) && validateRequestData (Type_ frame) (Data frame).

Definition ValidateEnvelope (frame : Envelope) : bool :=
  (Protocol frame =?= ProtocolVersion) && ((Kind frame =?= KindEvent) || (Kind frame =?= KindRequest)) &&
  (Type_ frame !=? "") && (len (Type_ frame) <=? maxProtocolStringBytes) &&
  (TrimSpace (RunID frame) !=? "") && (len (RunID frame) <=? maxProtocolStringBytes) && negb (Seq frame =? 0) &&
  (let trimmedData := trim_space (Data frame) in
   negb (bool_decide (trimmedData = []) || bool_decide (trimmedData = bytes "null")) &&
   bool_decide (head trimmedData = Some lbrace) && is_ok (ValidateObject trimmedData)) &&
  (if Kind frame =?= KindEvent then validateEvent frame else validateRequest frame).

Definition envelope_names : list string := ["protocol"; "kind"; "type"; "run_id"; "seq"; "terminal"; "data"].
(** [json.Decoder.Decode] of one member: a null leaves a string, a number or a
    boolean as it was, and is the text of a raw message. *)
Definition set_member (frame : Envelope) (m : string * list Z) : result proto_error Envelope :=
  let '(key, raw) := m in
  let text (set : string -> Envelope) :=
    if raw =?= bytes "null" then Ok frame else match unmarshal_string raw with Some s => Ok (set s) | None => Err Invalid end in
  let 'MkEnvelope p k t r s b d := frame in
  match field_of envelope_names key with
  | None => Err Invalid
  | Some name =>
    if name =?= "protocol" then text (fun x => MkEnvelope x k t r s b d)
    else if name =?= "kind" then text (fun x => MkEnvelope p x t r s b d)
    else if name =?= "type" then text (fun x => MkEnvelope p k x r s b d)
    else if name =?= "run_id" then text (fun x => MkEnvelope p k t x s b d)
    else if name =?= "seq" then
      if raw =?= bytes "null" then Ok frame
      else match unmarshal_uint64 raw with Some n => Ok (MkEnvelope p k t r n b d) | None => Err Invalid end
    else if name =?= "terminal" then
      if raw =?= bytes "null" then Ok frame
      else if raw =?= bytes "true" then Ok (MkEnvelope p k t r s true d)
      else if raw =?= bytes "false" then Ok (MkEnvelope p k t r s false d) else Err Invalid
    else Ok (MkEnvelope p k t r s b raw)
  end.

Definition newline : Z := 0x0A.
Definition trim_suffix_byte (b : Z) (l : list Z) : list Z := if bool_decide (last l = Some b) then removelast l else l.

Definition ParseLine (line : list Z) : result proto_error Envelope :=
  let line := trim_suffix_byte 0x0D (trim_suffix_byte newline line) in
  if (slen line =? 0) || (slen (trim_space line) =? 0) then Err ErrBlankFrame
  else if MaxFrameBytes <? slen line then Err ErrFrameTooLarge
  else if negb (is_ok (Validate line)) then Err Invalid
  else if negb (checkJSONShape line) then Err Invalid
  else
    match raw_fields line with
    | None => Err Invalid
    | Some fields =>
      let? out := fold_result set_member (MkEnvelope "" "" "" "" 0 false []) fields in
      if MaxDataBytes <? slen (Data out) then Err ErrFrameTooLarge
      else if ValidateEnvelope out then Ok out else Err Invalid
    end.

(** [json.Marshal] of a valid envelope. *)
Definition marshal_envelope (frame : Envelope) : list Z :=
  lbrace :: commas [json_string (bytes "protocol") ++ colon :: json_string (bytes (Protocol frame));
    json_string (bytes "kind") ++ colon :: json_string (bytes (Kind frame));
    json_string (bytes "type") ++ colon :: json_string (bytes (Type_ frame));
    json_string (bytes "run_id") ++ colon :: json_string (bytes (RunID frame));
    json_string (bytes "seq") ++ colon :: Marshal (JInt (Seq frame));
    json_string (bytes "terminal") ++ colon :: Marshal (JBool (Terminal frame));
    json_string (bytes "data") ++ colon :: compact false (Data frame)] ++ [rbrace].

Definition EncodeLine (frame : Envelope) : result proto_error (list Z) :=
  if negb (ValidateEnvelope frame) then Err Invalid
  else
    let data := marshal_envelope frame in
    if MaxFrameBytes <? slen data then Err ErrFrameTooLarge else Ok (data ++ [newline]).

(** ** Reading lines *)

Definition readerBytes : nat := 65536.
(** [bufio.Reader.ReadSlice] of a newline, with whether it was found. *)
Definition ReadSlice (input : list Z) : list Z * bool * list Z :=
  let window := take readerBytes input in
  match list_find (fun b => b = newline) window with
  | Some (i, _) => (take (S i) input, true, drop (S i) input)
  | None => (window, false, drop (length window) input)
  end.
Fixpoint next_line (fuel : nat) (line input : list Z) : result proto_error (list Z) * list Z :=
  match fuel with
  | O => (Err OutOfFuel, input)
  | S fuel =>
    let '(chunk, found, rest) := ReadSlice input in
    let line := line ++ chunk in
    if MaxFrameBytes + 1 <? slen line then (Err ErrFrameTooLarge, rest)
    else if found : bool then (Ok line, rest)
    else if bool_decide (length chunk = readerBytes) then next_line fuel line rest
    else if bool_decide (line = []) then (Err ErrEOF, rest)
    else (Ok line, rest)
  end.
Definition Decoder_Next (input : list Z) : result proto_error Envelope * list Z :=
  let '(line, rest) := next_line (S (length input)) [] input in
  (let? line := line in ParseLine line, rest).

(** ** The order of events *)

Record SequenceValidator : Type := MkSequence { seq_runID : string; lastSeq : Z; started : bool; seq_terminal : bool }.
Definition new_sequence : SequenceValidator := MkSequence "" 0 false false.

(** The verdict and the validator after the frame; the first valid frame fixes the
    run even if it is refused. *)
Definition Sequence_Accept (v : SequenceValidator) (frame : Envelope) : bool * SequenceValidator :=
  if Kind frame !=? KindEvent then (false, v)
  else if negb (ValidateEnvelope frame) then (false, v)
  else
    let v := if seq_runID v =?= "" then MkSequence (RunID frame) (lastSeq v) (started v) (seq_terminal v) else v in
    if RunID frame !=? seq_runID v then (false, v)
    else if seq_terminal v then (false, v)
    else if negb (Seq frame =? (lastSeq v + 1) mod 2 ^ 64) then (false, v)
    else if negb (started v) && (Type_ frame !=? EventRunStarted) then (false, v)
    else if started v && (Type_ frame =?= EventRunStarted) then (false, v)
    else (true, MkSequence (seq_runID v) (Seq frame) (started v || (Type_ frame =?= EventRunStarted)) (seq_terminal v || Terminal frame)).

(** ** Redaction *)

(** What a hook answers for a value: an error, a replacement, or nothing. *)
Definition RedactionHook : Type := string -> list Z -> result unit (option (list Z)).

Definition marshal_items (items : list (list Z)) : list Z := lbracket :: commas (map (compact false) items) ++ [rbracket].

Fixpoint redactValue (fuel : nat) (hook : RedactionHook) (raw : list Z) (path : string) : result proto_error (list Z) :=
  match fuel with
  | O => Err OutOfFuel
  | S fuel =>
    match hook path raw with
    | Err _ => Err Invalid
    | Ok (Some replacement) => if bool_decide (is_Some (parse_tree replacement)) then Ok replacement else Err Invalid
    | Ok None =>
      let trimmed := trim_space raw in
      if bool_decide (head trimmed = Some lbrace) then
        match raw_fields trimmed with
        | None => Err Invalid
        | Some obj =>
          let? fields := fold_result (fun acc f => let? child := redactValue fuel hook f.2 (path +:+ "." +:+ f.1) in Ok (acc ++ [(f.1, child)])) [] obj in
          Ok (marshal_fields fields)
        end
      else if bool_decide (head trimmed = Some lbracket) then
        match raw_items trimmed with
        | None => Err Invalid
        | Some values =>
          let? items := fold_result (fun acc i => let? child := redactValue fuel hook i.2 (path +:+ "[" +:+ pretty (Z.of_nat i.1) +:+ "]") in Ok (acc ++ [child]))
                          [] (imap pair values) in
          Ok (marshal_items items)
        end
      else Ok trimmed
    end
  end.

Definition with_data (frame : Envelope) (data : list Z) : Envelope :=
  MkEnvelope (Protocol frame) (Kind frame) (Type_ frame) (RunID frame) (Seq frame) (Terminal frame) data.

Definition ApplyRedaction (frame : Envelope) (hook : option RedactionHook) : result proto_error Envelope :=
  match hook with
  | None => Ok frame
  | Some hook =>
    if negb (ValidateEnvelope frame) then Err Invalid
    else
      let? data := redactValue (S (length (Data frame))) hook (Data frame) "data" in
      if MaxDataBytes <? slen data then Err ErrFrameTooLarge
      else if ValidateEnvelope (with_data frame data) then Ok (with_data frame data) else Err Invalid
  end.

(** ** Fuel

    The loops over raw values and over lines have enough fuel. *)

Lemma raw_members_shorter fuel : forall l fields, (3 * length l <= fuel)%nat -> raw_members fuel l = Some fields ->
  Forall (fun f => (length f.2 <= length l)%nat) fields.
Proof.
  induction fuel as [|fuel IH]; intros l fields Hfuel H; [done|]. cbn [raw_members] in H.
  pose proof (parseString_reads l) as H0. destruct (parseString l) as [[key l1]|] eqn:E1; [|done]. cbn in H0.
  pose proof (skipSpace_length l1) as H1. destruct (consume colon (skipSpace l1)) as [l2|] eqn:E2; [|done]. apply consume_some in E2. rewrite E2 in H1. cbn in H1.
  pose proof (skipSpace_length l2) as H2. pose proof (proj1 (values_read fuel) 1 (skipSpace l2) ltac:(lia)) as H3.
  destruct (parseValue _ _ _) as [[v l3]|] eqn:E3; [|done]. cbn in H3.
  assert (Hf : (length (take (length (skipSpace l2) - length l3) (skipSpace l2)) <= length l)%nat) by (rewrite length_take; lia).
  destruct (consume rbrace _); [injection H as <-; by apply Forall_singleton|]. pose proof (skipSpace_length l3) as H4.
  destruct (consume comma (skipSpace l3)) as [l5|] eqn:E5; [|done]. apply consume_some in E5. rewrite E5 in H4. cbn in H4. pose proof (skipSpace_length l5) as H5.
  destruct (raw_members fuel (skipSpace l5)) as [rest|] eqn:E6; [|done]. injection H as <-. apply IH in E6; [|lia].
  constructor; [done|]. eapply Forall_impl; [exact E6|]. intros f Hl. cbn beta in *. lia.
Qed.
Lemma raw_fields_shorter document fields : raw_fields document = Some fields -> Forall (fun f => (length f.2 < length document)%nat) fields.
Proof.
  unfold raw_fields. pose proof (skipSpace_length document) as H0. destruct (consume lbrace _) as [l1|] eqn:E; [|done]. apply consume_some in E. rewrite E in *. cbn in H0.
  pose proof (skipSpace_length l1) as H1. destruct (consume rbrace _); [intros [= <-]; constructor|]. unfold value_fuel. cbn [length]. intros H.
  apply raw_members_shorter in H; [|lia]. eapply Forall_impl; [exact H|]. intros f Hl. cbn beta in *. lia.
Qed.

Lemma raw_items_shorter fuel : forall l items, (3 * length l + 4 <= fuel)%nat -> raw_items_loop fuel l = Some items -> Forall (fun i => (length i <= length l)%nat) items.
Proof.
  induction fuel as [|fuel IH]; intros l items Hfuel H; [done|]. cbn [raw_items_loop] in H. pose proof (proj1 (values_read fuel) 1 l ltac:(lia)) as H1.
  destruct (parseValue _ _ _) as [[v l1]|]; [|done]. cbn in H1. assert (Hf : (length (take (length l - length l1) l) <= length l)%nat) by (rewrite length_take; lia).
  destruct (consume rbracket _); [injection H as <-; by apply Forall_singleton|]. pose proof (skipSpace_length l1) as H2.
  destruct (consume comma (skipSpace l1)) as [l2|] eqn:E; [|done]. apply consume_some in E. rewrite E in H2. cbn in H2. pose proof (skipSpace_length l2) as H3.
  destruct (raw_items_loop fuel (skipSpace l2)) as [rest|] eqn:E6; [|done]. injection H as <-. apply IH in E6; [|lia].
  constructor; [done|]. eapply Forall_impl; [exact E6|]. intros f Hl. cbn beta in *. lia.
Qed.
Lemma raw_list_shorter document items : raw_items document = Some items -> Forall (fun i => (length i < length document)%nat) items.
Proof.
  unfold raw_items. pose proof (skipSpace_length document) as H0. destruct (consume lbracket _) as [l1|] eqn:E; [|done]. apply consume_some in E. rewrite E in *. cbn in H0.
  pose proof (skipSpace_length l1) as H1. destruct (consume rbracket _); [intros [= <-]; constructor|]. unfold value_fuel. cbn [length]. intros H.
  apply raw_items_shorter in H; [|lia]. eapply Forall_impl; [exact H|]. intros f Hl. cbn beta in *. lia.
Qed.

(** Every item of an accepted array is found. *)
Lemma raw_items_found fuel : forall items l values rest, array_loop fuel 0 items l = Ok (arrayValue values, rest) ->
  exists texts, raw_items_loop fuel l = Some texts /\ length values = (length items + length texts)%nat.
Proof.
  induction fuel as [|fuel IH]; intros items l values rest H; [done|]. cbn [array_loop] in H. cbn [raw_items_loop]. destruct (_ <=? _) in H; [done|]. change (0 + 1) with 1 in H.
  destruct (parseValue fuel 1 l) as [[v l1]|]; [|done]. cbn [result_bind] in H. destruct (consume rbracket (skipSpace l1)) as [r|].
  - injection H as <- <-. eexists. split; [done|]. rewrite length_app. cbn. lia.
  - destruct (consume comma (skipSpace l1)) as [l2|]; [|done]. apply IH in H as (texts & -> & E). eexists. split; [done|]. rewrite E, length_app. cbn. lia.
Qed.

Lemma strip_length encs fuel : forall l, (length (strip_front encs fuel l) <= length l)%nat.
Proof. induction fuel as [|fuel IH]; intros l; [done|]. cbn [strip_front]. destruct (find _ _) as [e|]; [|done]. etransitivity; [apply IH|]. rewrite length_drop. lia. Qed.
Lemma trim_length l : (length (trim_space l) <= length l)%nat.
Proof.
  unfold trim_space. rewrite length_rev. etransitivity; [apply strip_length|]. rewrite length_rev. apply strip_length.
Qed.

Lemma fold_no_fuel {S A : Type} (step : S -> A -> result proto_error S) items : (forall acc x, x ∈ items -> step acc x <> Err OutOfFuel) ->
  forall acc, fold_result step acc items <> Err OutOfFuel.
Proof.
  induction items as [|x items IH]; intros H acc; [done|]. cbn [fold_result]. pose proof (H acc x ltac:(by left)) as Hx. destruct (step acc x) as [acc'|e]; cbn [result_bind]; [|done].
  apply IH. intros a y Hy. apply H. by right.
Qed.

(** Redaction ends. *)
Lemma redact_ends fuel hook : forall raw path, (length raw < fuel)%nat -> redactValue fuel hook raw path <> Err OutOfFuel.
Proof.
  induction fuel as [|fuel IH]; intros raw path Hl; [lia|]. cbn [redactValue]. destruct (hook path raw) as [[replacement|]|]; [by case_bool_decide| |done].
  pose proof (trim_length raw) as Ht. case_bool_decide as E1.
  - destruct (raw_fields (trim_space raw)) as [obj|] eqn:E; [|done]. apply raw_fields_shorter in E. rewrite Forall_forall in E.
    destruct (fold_result _ [] obj) as [fields|e] eqn:Ef; [done|]. cbn [result_bind]. intros [= ->]. revert Ef. apply fold_no_fuel. intros acc f Hin.
    pose proof (IH f.2 (path +:+ "." +:+ f.1)) as Hc. apply E in Hin. destruct (redactValue _ _ _ _); [done|]. cbn [result_bind]. intros [= ->]. by apply Hc; [lia|].
  - case_bool_decide; [|done]. destruct (raw_items (trim_space raw)) as [values|] eqn:E; [|done]. apply raw_list_shorter in E. rewrite Forall_lookup in E.
    destruct (fold_result _ [] (imap pair values)) as [items|e] eqn:Ef; [done|]. cbn [result_bind]. intros [= ->]. revert Ef. apply fold_no_fuel. intros acc i (k & x & -> & Hin)%elem_of_lookup_imap.
    pose proof (IH x (path +:+ "[" +:+ pretty (Z.of_nat k) +:+ "]")) as Hc. apply E in Hin. cbn [fst snd]. destruct (redactValue _ _ _ _); [done|]. cbn [result_bind].
    intros [= ->]. by apply Hc; [lia|].
Qed.

(** Reading a line ends. *)
Lemma next_line_ends fuel : forall line input, (length input < fuel)%nat -> (next_line fuel line input).1 <> Err OutOfFuel.
Proof.
  induction fuel as [|fuel IH]; intros line input Hl; [lia|]. cbn [next_line]. destruct (ReadSlice input) as [[chunk found] rest] eqn:E.
  destruct (_ <? _) in |- *; [done|]. destruct found; [done|]. case_bool_decide as Hc; [|by case_bool_decide]. apply IH. revert E Hc. unfold ReadSlice.
  destruct (list_find _ _) as [[i b]|]; [done|]. intros [= <- <-] Hc. rewrite Hc, length_drop. assert (0 < readerBytes)%nat by (by apply Nat.ltb_lt).
  rewrite length_take in Hc. lia.
Qed.
