(* ===== verification/RuntimeEvents.v ===== *)
(** * Runtime events (src/v3/internal/runtimeevents: store.go, record.go,
    collector.go and finalize.go)

    The collector stores every accepted event as an immutable object with a
    sequence index; a completion record is written once a terminal event and the
    exit of the process are both known.  The repository reads records and replays
    streams.  A call is a program of requests to the context, the object store and
    the output ([eprog]); the collector's mutex makes each call one such program on
    its state.  A hash is the list of the bytes written to it. *)

From stdpp Require Import pretty.
From S2P Require Import Prelude Order GoStrings Digest Digits GoTime GoJson Unmarshal StrictJson RawJson Canonical Url RuntimeProto.
Local Open Scope go_scope.
Local Open Scope string_scope.
Local Open Scope Z_scope.
Local Open Scope list_scope.

Definition schemaVersion : Z := 1.
Definition MaxIndexBytes : Z := Z.shiftl 16 10.
Definition MaxManifestBytes : Z := Z.shiftl 16 10.
Definition MaxCompletionBytes : Z := Z.shiftl 32 10.
Definition MaxStreamBytes : Z := Z.shiftl 1 40.
Definition maxRunUIDBytes : Z := 256.
Definition maxSummaryBytes : Z := 128.
Definition maxArtifactURI : Z := 1024.
Definition maxArtifactKind : Z := 64.
Definition maxArtifactName : Z := 128.
Definition maxMediaType : Z := 128.
(** [maxStreamFrames] is two to this power. *)
Definition frame_bits : nat := 32.
Definition maxStreamFrames : Z := Z.shiftl 1 32.
Definition maxStoreKeyBytes : Z := 512.
Definition DefaultWindowFrames : Z := 32.
Definition DefaultWindowBytes : Z := Z.shiftl 256 10.
Definition maxWindowFrames : Z := 128.
Definition maxWindowBytes : Z := Z.shiftl 1 20.

(** [ErrRejected] wraps the error that ended a stream; the last two are the error
    of the context and those of a writer. *)
Inductive events_error : Type :=
| ErrInvalid | ErrInvalidFrame | ErrWrongRun | ErrSequence | ErrStreamClosed | ErrNoTerminal | ErrProcessExitUnknown | ErrProcessExitFailed
| ErrNotReady | ErrMissing | ErrCorrupt | ErrConflict | ErrAmbiguous | ErrStoreUnavailable | ErrStoreInvalid | ErrNonCanonical | ErrStreamTooLarge
| ErrRejected (cause : events_error)
| ContextDone
| WriteFailed.
#[global] Instance events_error_eq_dec : EqDecision events_error.
Proof. solve_decision. Defined.

(** ** Requests *)

Inductive get_error : Type := GetNotFound | GetAmbiguous | GetFailed.

(** A put answers whether it created the object and its URI, or an error; a write
    answers how many bytes it took, or an error. *)
Inductive eprog (A : Type) : Type :=
| ERet (a : A)
| EContext (k : bool -> eprog A)
| EPut (key : string) (body : list Z) (contentType : string) (k : option (bool * string) -> eprog A)
| EGet (key : string) (k : result get_error (list Z) -> eprog A)
| EWrite (body : list Z) (k : option Z -> eprog A).
Arguments ERet {A} _.
Arguments EContext {A} _.
Arguments EPut {A} _ _ _ _.
Arguments EGet {A} _ _.
Arguments EWrite {A} _ _.

Fixpoint ebind {A B : Type} (m : eprog A) (f : A -> eprog B) : eprog B :=
  match m with
  | ERet a => f a
  | EContext k => EContext (fun r => ebind (k r) f)
  | EPut key body contentType k => EPut key body contentType (fun r => ebind (k r) f)
  | EGet key k => EGet key (fun r => ebind (k r) f)
  | EWrite body k => EWrite body (fun r => ebind (k r) f)
  end.
(** The next part of a call that goes on only without an error. *)
Definition ethen {E A B : Type} (m : eprog (result E A)) (f : A -> eprog (result E B)) : eprog (result E B) :=
  ebind m (fun r => match r with Ok a => f a | Err e => ERet (Err e) end).
Notation "'do' x := m 'in' k" := (ebind m (fun x => k)) (at level 200, x pattern, m at level 100, k at level 200, right associativity) : go_scope.
Notation "'do?' x := m 'in' k" := (ethen m (fun x => k)) (at level 200, x pattern, m at level 100, k at level 200, right associativity) : go_scope.

(** At most [2 ^ n] rounds of a loop. *)
Fixpoint rounds {S R : Type} (n : nat) (step : S -> eprog (S + R)) (s : S) : eprog (S + R) :=
  match n with
  | O => step s
  | Datatypes.S n => do r := rounds n step s in match r with inl s' => rounds n step s' | inr x => ERet (inr x) end
  end.

(** ** Names and keys *)

Definition controls : string := of_bytes [0; 0x0D; 0x0A].
Definition name_char (r : Z) : bool := between 0x61 0x7A r || between 0x41 0x5A r || is_digit r || (r =? 0x2E) || (r =? 0x5F) || (r =? 0x2D).

Definition validRunUID (value : string) : bool :=
  negb ((value =?= "") || (maxRunUIDBytes <? len value) || negb (ValidString value) || (TrimSpace value =?= "") || ContainsAny value controls ||
        Contains value ".." || (value =?= ".") || (value =?= "..")) &&
  forallb name_char (runes value).

Definition canonicalDigestHex (value : string) : bool := (len value =? 64) && forallb is_lower_hex (runes value).
Definition isValidSpecDigest (value : string) : bool :=
  (len value =? 7 + 64) && HasPrefix value "sha256:" && canonicalDigestHex (of_bytes (drop 7 (bytes value))).
Definition validIdentityDigest (value : string) : bool := (len value =? 64) && forallb is_lower_hex (runes value).
Definition validBaseSHA (value : string) : bool := ((len value =? 40) || (len value =? 64)) && forallb is_lower_hex (runes value).

Definition digestHex (digest : string) : string := TrimPrefix digest DigestPrefix.
Definition identityDigestHex (runUID specDigest : string) : string := EncodeToString (Sha256.Sum256 (bytes runUID ++ 0 :: bytes specDigest)).
Definition runPrefix (runUID : string) : string := "runs/" +:+ runUID.
Definition streamKey (runUID streamDigest : string) : string := runPrefix runUID +:+ "/runtime-events/streams/" +:+ digestHex streamDigest +:+ ".json".
Definition frameKey (runUID lineDigest : string) : string := runPrefix runUID +:+ "/runtime-events/frames/" +:+ digestHex lineDigest +:+ ".jsonl".
Definition indexKey (runUID identityDigest : string) (seq : Z) : string :=
  runPrefix runUID +:+ "/runtime-events/index/" +:+ identityDigest +:+ "/" +:+ of_bytes (padded 20 seq) +:+ ".json".
Definition CompletionKey (runUID specDigest : string) : result events_error string :=
  if negb (validRunUID runUID) || negb (ValidDigest specDigest) then Err ErrInvalid
  else Ok (runPrefix runUID +:+ "/runtime-events/completions/" +:+ identityDigestHex runUID specDigest +:+ ".json").

Definition safeURI (value : string) : bool :=
  negb ((value =?= "") || (maxArtifactURI <? len value) || negb (ValidString value) || ContainsAny value (of_bytes [0; 0x0D; 0x0A; 0x40; 0x3F; 0x23])) &&
  match url_Parse value with
  | None => false
  | Some parsed =>
    negb (has_user parsed || (Host parsed =?= "") || (RawQuery parsed !=? "") || (Fragment parsed !=? "")) &&
    ((Scheme parsed =?= "s3") || (Scheme parsed =?= "https"))
  end.

Definition validateGeneratedKey (key : string) : bool :=
  negb ((key =?= "") || (maxStoreKeyBytes <? len key) || ContainsAny key controls || Contains key ".." || HasPrefix key "/").

(** ** Records *)

Definition TerminalCompleted : string := "run.completed".
Definition TerminalFailed : string := "run.failed".
Definition TerminalCancelled : string := "run.cancelled".
Definition TerminalUnknownEffect : string := "run.unknown_effect".

Record ArtifactRef : Type := MkArtifact { URI : string; Digest_ : string; Artifact_Kind : string; Name : string; MediaType : string; SizeBytes : Z }.
Record TerminalSummary : Type := MkSummary { ErrorCode : string; EffectID : string; OutputPresent : bool }.
Record CompletionRecord : Type := MkCompletion {
  Completion_SchemaVersion : Z; Completion_RunUID : string; Completion_SpecDigest : string; Completion_BaseSHA : string;
  Completion_TerminalType : string; Completion_TerminalSeq : Z; EventStream : ArtifactRef; Summary : TerminalSummary
}.
Record frameIndex : Type := MkIndex {
  Index_SchemaVersion : Z; Index_IdentityDigest : string; Index_RunUID : string; Index_SpecDigest : string; Index_Seq : Z; LineDigest : string;
  Index_SizeBytes : Z
}.
Record streamManifest : Type := MkManifest {
  Manifest_SchemaVersion : Z; Manifest_IdentityDigest : string; Manifest_RunUID : string; Manifest_SpecDigest : string; FrameCount : Z;
  Manifest_SizeBytes : Z; StreamDigest : string; Manifest_TerminalType : string; Manifest_TerminalSeq : Z
}.

Definition maxFrameStorageBytes : Z := MaxFrameBytes + 1.

Definition validTerminalType (value : string) : bool :=
  bool_decide (value ∈ [TerminalCompleted; TerminalFailed; TerminalCancelled; TerminalUnknownEffect]).
Definition safeDescriptor (value : string) : bool :=
  negb ((value =?= "") || ContainsAny value controls) && forallb (fun r => name_char r || (r =? 0x2F)) (runes value).
Definition safeSummaryIdentifier (value : string) : bool := (value =?= "") || (safeDescriptor value && (len value <=? maxSummaryBytes)).

Definition validateArtifactRef (ref : ArtifactRef) : bool :=
  safeURI (URI ref) && ValidDigest (Digest_ ref) && (0 <? SizeBytes ref) && (SizeBytes ref <=? MaxStreamBytes) &&
  (Artifact_Kind ref !=? "") && (len (Artifact_Kind ref) <=? maxArtifactKind) && safeDescriptor (Artifact_Kind ref) &&
  (Name ref !=? "") && (len (Name ref) <=? maxArtifactName) && safeDescriptor (Name ref) &&
  (MediaType ref !=? "") && (len (MediaType ref) <=? maxMediaType) && negb (ContainsAny (MediaType ref) controls).

Definition summary_bounded (summary : TerminalSummary) : bool :=
  (len (ErrorCode summary) <=? maxSummaryBytes) && (len (EffectID summary) <=? maxSummaryBytes) && safeSummaryIdentifier (ErrorCode summary) &&
  safeSummaryIdentifier (EffectID summary).

Definition validateCompletion (record : CompletionRecord) : bool :=
  (Completion_SchemaVersion record =? schemaVersion) && validRunUID (Completion_RunUID record) && ValidDigest (Completion_SpecDigest record) &&
  validBaseSHA (Completion_BaseSHA record) && negb (Completion_TerminalSeq record =? 0) && validTerminalType (Completion_TerminalType record) &&
  validateArtifactRef (EventStream record) && summary_bounded (Summary record) &&
  ((Completion_TerminalType record =?= TerminalFailed) || (ErrorCode (Summary record) =?= "")) &&
  ((Completion_TerminalType record =?= TerminalUnknownEffect) || (EffectID (Summary record) =?= "")) &&
  ((Completion_TerminalType record =?= TerminalCompleted) || negb (OutputPresent (Summary record))).

Definition validateFrameIndex (index : frameIndex) : bool :=
  (Index_SchemaVersion index =? schemaVersion) && validRunUID (Index_RunUID index) && ValidDigest (Index_SpecDigest index) &&
  validIdentityDigest (Index_IdentityDigest index) && (Index_IdentityDigest index =?= identityDigestHex (Index_RunUID index) (Index_SpecDigest index)) &&
  negb (Index_Seq index =? 0) && (Index_Seq index <=? maxStreamFrames) && ValidDigest (LineDigest index) && negb (Index_SizeBytes index =? 0) &&
  (Index_SizeBytes index <=? maxFrameStorageBytes).

Definition validateManifest (manifest : streamManifest) : bool :=
  (Manifest_SchemaVersion manifest =? schemaVersion) && validRunUID (Manifest_RunUID manifest) && ValidDigest (Manifest_SpecDigest manifest) &&
  validIdentityDigest (Manifest_IdentityDigest manifest) &&
  (Manifest_IdentityDigest manifest =?= identityDigestHex (Manifest_RunUID manifest) (Manifest_SpecDigest manifest)) &&
  negb (FrameCount manifest =? 0) && (FrameCount manifest <=? maxStreamFrames) && negb (Manifest_SizeBytes manifest =? 0) &&
  (Manifest_SizeBytes manifest <=? MaxStreamBytes) && ValidDigest (StreamDigest manifest) && validTerminalType (Manifest_TerminalType manifest) &&
  (Manifest_TerminalSeq manifest =? FrameCount manifest).

(** ** Their JSON *)

Definition index_json (i : frameIndex) : json :=
  JObject [("schemaVersion", JInt (Index_SchemaVersion i)); ("identityDigest", JString (Index_IdentityDigest i)); ("runUID", JString (Index_RunUID i));
    ("specDigest", JString (Index_SpecDigest i)); ("seq", JInt (Index_Seq i)); ("lineDigest", JString (LineDigest i)); ("sizeBytes", JInt (Index_SizeBytes i))].
Definition manifest_json (m : streamManifest) : json :=
  JObject [("schemaVersion", JInt (Manifest_SchemaVersion m)); ("identityDigest", JString (Manifest_IdentityDigest m));
    ("runUID", JString (Manifest_RunUID m)); ("specDigest", JString (Manifest_SpecDigest m)); ("frameCount", JInt (FrameCount m));
    ("sizeBytes", JInt (Manifest_SizeBytes m)); ("streamDigest", JString (StreamDigest m)); ("terminalType", JString (Manifest_TerminalType m));
    ("terminalSeq", JInt (Manifest_TerminalSeq m))].
Definition artifact_json (r : ArtifactRef) : json :=
  JObject ([("uri", JString (URI r)); ("digest", JString (Digest_ r))] ++ omit_empty "kind" (Artifact_Kind r) ++ omit_empty "name" (Name r) ++
    omit_empty "mediaType" (MediaType r) ++ (if SizeBytes r =? 0 then [] else [("sizeBytes", JInt (SizeBytes r))])).
Definition summary_json (s : TerminalSummary) : json :=
  JObject (omit_empty "errorCode" (ErrorCode s) ++ omit_empty "effectId" (EffectID s) ++ (if OutputPresent s then [("outputPresent", JBool true)] else [])).
Definition completion_json (r : CompletionRecord) : json :=
  JObject [("schemaVersion", JInt (Completion_SchemaVersion r)); ("runUID", JString (Completion_RunUID r)); ("specDigest", JString (Completion_SpecDigest r));
    ("baseSHA", JString (Completion_BaseSHA r)); ("terminalType", JString (Completion_TerminalType r)); ("terminalSeq", JInt (Completion_TerminalSeq r));
    ("eventStream", artifact_json (EventStream r)); ("summary", summary_json (Summary r))].

Definition canonicalBytes (value : json) : result events_error (list Z) :=
  match Normalize (Marshal value) with Ok body => Ok body | Err _ => Err ErrInvalid end.
Definition canonicalIndex (index : frameIndex) : result events_error (list Z) :=
  if validateFrameIndex index then canonicalBytes (index_json index) else Err ErrInvalid.
Definition canonicalManifest (manifest : streamManifest) : result events_error (list Z) :=
  if validateManifest manifest then canonicalBytes (manifest_json manifest) else Err ErrInvalid.
Definition canonicalRecord (record : CompletionRecord) : result events_error (list Z) :=
  if validateCompletion record then canonicalBytes (completion_json record) else Err ErrInvalid.

Definition uint_field (v : option tree) : option Z :=
  match v with
  | None | Some VNull => Some 0
  | Some (VNumber lexeme) => unmarshal_uint64 lexeme
  | _ => None
  end.
Definition bool_field (v : option tree) : option bool :=
  match v with
  | None | Some VNull => Some false
  | Some (VBool b) => Some b
  | _ => None
  end.

Definition index_names : list string := ["schemaVersion"; "identityDigest"; "runUID"; "specDigest"; "seq"; "lineDigest"; "sizeBytes"].
Definition read_index : list (string * tree) -> option frameIndex := known index_names (fun o =>
  let f := field index_names o in
  version ← int_field (f "schemaVersion"); identity ← string_field (f "identityDigest"); uid ← string_field (f "runUID");
  spec ← string_field (f "specDigest"); seq ← uint_field (f "seq"); line ← string_field (f "lineDigest"); size ← uint_field (f "sizeBytes");
  Some (MkIndex version identity uid spec seq line size)).
Definition manifest_names : list string :=
  ["schemaVersion"; "identityDigest"; "runUID"; "specDigest"; "frameCount"; "sizeBytes"; "streamDigest"; "terminalType"; "terminalSeq"].
Definition read_manifest : list (string * tree) -> option streamManifest := known manifest_names (fun o =>
  let f := field manifest_names o in
  version ← int_field (f "schemaVersion"); identity ← string_field (f "identityDigest"); uid ← string_field (f "runUID");
  spec ← string_field (f "specDigest"); count ← uint_field (f "frameCount"); size ← uint_field (f "sizeBytes");
  digest ← string_field (f "streamDigest"); kind ← string_field (f "terminalType"); seq ← uint_field (f "terminalSeq");
  Some (MkManifest version identity uid spec count size digest kind seq)).
Definition artifact_names : list string := ["uri"; "digest"; "kind"; "name"; "mediaType"; "sizeBytes"].
Definition read_artifact : list (string * tree) -> option ArtifactRef := known artifact_names (fun o =>
  let f := field artifact_names o in
  uri ← string_field (f "uri"); digest ← string_field (f "digest"); kind ← string_field (f "kind"); name ← string_field (f "name");
  media ← string_field (f "mediaType"); size ← int_field (f "sizeBytes");
  Some (MkArtifact uri digest kind name media size)).
Definition summary_names : list string := ["errorCode"; "effectId"; "outputPresent"].
Definition read_summary : list (string * tree) -> option TerminalSummary := known summary_names (fun o =>
  let f := field summary_names o in
  code ← string_field (f "errorCode"); effect ← string_field (f "effectId"); output ← bool_field (f "outputPresent");
  Some (MkSummary code effect output)).
Definition completion_names : list string :=
  ["schemaVersion"; "runUID"; "specDigest"; "baseSHA"; "terminalType"; "terminalSeq"; "eventStream"; "summary"].
Definition read_completion : list (string * tree) -> option CompletionRecord := known completion_names (fun o =>
  let f := field completion_names o in
  version ← int_field (f "schemaVersion"); uid ← string_field (f "runUID"); spec ← string_field (f "specDigest"); base ← string_field (f "baseSHA");
  kind ← string_field (f "terminalType"); seq ← uint_field (f "terminalSeq"); stream ← struct_field read_artifact (f "eventStream");
  summary ← struct_field read_summary (f "summary");
  Some (MkCompletion version uid spec base kind seq stream summary)).

Definition decodeCanonicalObject {A : Type} (body : list Z) (maxBytes : Z) (read : list (string * tree) -> option A) : result events_error A :=
  if (slen body =? 0) || (maxBytes <? slen body) || negb (is_ok (ValidateObject body)) then Err ErrCorrupt
  else if match Normalize body with Ok normalized => negb (bool_decide (normalized = body)) | Err _ => true end then Err ErrNonCanonical
  else match parse_tree body ≫= struct_item read with
  | None => Err ErrCorrupt
  | Some a => Ok a
  end.

(** ** Frames *)

Definition terminalType (eventType : string) : option string :=
  if eventType =?= EventRunCompleted then Some TerminalCompleted
  else if eventType =?= EventRunFailed then Some TerminalFailed
  else if eventType =?= EventRunCancelled then Some TerminalCancelled
  else if eventType =?= EventUnknownEffect then Some TerminalUnknownEffect
  else None.

(** [json.Unmarshal] of an object into a struct with the string field [code]. *)
Definition code_member (code : string) (m : string * list Z) : result events_error string :=
  match field_of ["code"] m.1 with
  | None => Ok code
  | Some _ => if m.2 =?= bytes "null" then Ok code else match unmarshal_string m.2 with Some s => Ok s | None => Err ErrInvalidFrame end
  end.

Definition summary_of (frame : Envelope) (fields : list (string * list Z)) : result events_error TerminalSummary :=
  if Type_ frame =?= EventRunCompleted then Ok (MkSummary "" "" (bool_decide (is_Some (member "output" fields))))
  else if Type_ frame =?= EventRunFailed then
    match member "error" fields with
    | None => Ok (MkSummary "" "" false)
    | Some errorValue =>
      if opens_with lbrace errorValue then
        match raw_fields errorValue with
        | None => Err ErrInvalidFrame
        | Some details => let? code := fold_result code_member "" details in Ok (MkSummary code "" false)
        end
      else Ok (MkSummary "" "" false)
    end
  else if Type_ frame =?= EventUnknownEffect then
    match member "effect_id" fields with
    | None => Err ErrInvalidFrame
    | Some raw =>
      if raw =?= bytes "null" then Ok (MkSummary "" "" false)
      else match unmarshal_string raw with Some effect => Ok (MkSummary "" effect false) | None => Err ErrInvalidFrame end
    end
  else Ok (MkSummary "" "" false).

Definition terminalSummary (frame : Envelope) : result events_error TerminalSummary :=
  if negb (bool_decide (is_Some (terminalType (Type_ frame)))) || negb (Terminal frame) then Err ErrInvalidFrame
  else match raw_fields (Data frame) with
  | None => Err ErrInvalidFrame
  | Some fields =>
    let? summary := summary_of frame fields in
    if summary_bounded summary then Ok summary else Err ErrInvalidFrame
  end.

Definition has_newline (body : list Z) : bool := bool_decide (last body = Some newline).
Definition parseStoredLine (body : list Z) : result events_error Envelope :=
  if (slen body =? 0) || negb (has_newline body) then Err ErrCorrupt
  else match ParseLine body with Ok frame => Ok frame | Err _ => Err ErrCorrupt end.

Definition canonicalLine (frame : Envelope) : option (list Z) :=
  match EncodeLine frame with
  | Err _ => None
  | Ok encoded => match Normalize (trim_space encoded) with Ok normalized => Some (normalized ++ [newline]) | Err _ => None end
  end.

(** ** The store *)

Definition store_get (key : string) : eprog (result events_error (list Z)) :=
  if negb (validateGeneratedKey key) then ERet (Err ErrInvalid)
  else EGet key (fun r => ERet (match r with
    | Ok body => Ok body
    | Err GetNotFound => Err ErrMissing
    | Err GetAmbiguous => Err ErrAmbiguous
    | Err GetFailed => Err ErrStoreUnavailable
    end)).

Definition putImmutable (key : string) (body : list Z) (contentType : string) (maxBytes : Z) : eprog (result events_error string) :=
  if negb (validateGeneratedKey key) || (slen body =? 0) || (maxBytes <? slen body) then ERet (Err ErrInvalid)
  else EPut key body contentType (fun r =>
    match r with
    | None => ERet (Err ErrAmbiguous)
    | Some (created, uri) =>
      if negb (safeURI uri) then ERet (Err ErrStoreInvalid)
      else if created : bool then ERet (Ok uri)
      else EGet key (fun r => ERet (match r with
        | Err _ => Err ErrAmbiguous
        | Ok existing => if bool_decide (existing = body) then Ok uri else Err ErrConflict
        end))
    end).

(** ** The repository *)

Definition LoadCompletion (runUID specDigest : string) : eprog (result events_error CompletionRecord) :=
  match CompletionKey runUID specDigest with
  | Err e => ERet (Err e)
  | Ok key =>
    do? body := store_get key in
    ERet (match decodeCanonicalObject body MaxCompletionBytes read_completion with
    | Err _ => Err ErrCorrupt
    | Ok record =>
      if negb (validateCompletion record) || (Completion_RunUID record !=? runUID) || (Completion_SpecDigest record !=? specDigest)
      then Err ErrCorrupt else Ok record
    end)
  end.

(** One frame of a stored stream: its index and its line. *)
Definition read_frame (runUID identity : string) (seq : Z) : eprog (result events_error (frameIndex * list Z)) :=
  do? indexBody := store_get (indexKey runUID identity seq) in
  match decodeCanonicalObject indexBody MaxIndexBytes read_index with
  | Err _ => ERet (Err ErrCorrupt)
  | Ok index =>
    if negb (validateFrameIndex index) || (Index_IdentityDigest index !=? identity) || negb (Index_Seq index =? seq) then ERet (Err ErrCorrupt)
    else
      do? frameBody := store_get (frameKey runUID (LineDigest index)) in
      ERet (if (slen frameBody =? 0) || (maxFrameStorageBytes <? slen frameBody) || negb (has_newline frameBody) ||
               (digestBytes frameBody !=? LineDigest index)
            then Err ErrCorrupt else Ok (index, frameBody))
  end.

(** The frame of a stored line that is canonical and of the stated size. *)
Definition stored_frame (runUID : string) (seq : Z) (index : frameIndex) (frameBody : list Z) : result events_error Envelope :=
  match parseStoredLine frameBody with
  | Err _ => Err ErrCorrupt
  | Ok frame =>
    if (RunID frame !=? runUID) || negb (Seq frame =? seq) || (Kind frame !=? "event") then Err ErrCorrupt
    else if negb (bool_decide (canonicalLine frame = Some frameBody)) || negb (slen frameBody =? Index_SizeBytes index) then Err ErrCorrupt
    else Ok frame
  end.

(** [writeAll]: every write that succeeds takes at least a byte. *)
Fixpoint writeAll (fuel : nat) (body : list Z) : eprog (result events_error unit) :=
  match fuel, body with
  | _, [] => ERet (Ok tt)
  | O, _ => ERet (Err WriteFailed)
  | Datatypes.S fuel, _ =>
    EWrite body (fun r =>
      match r with
      | None => ERet (Err WriteFailed)
      | Some written => if (written <=? 0) || (slen body <? written) then ERet (Err WriteFailed) else writeAll fuel (drop (Z.to_nat written) body)
      end)
  end.

Record StreamInfo : Type := MkInfo {
  Info_RunUID : string; Info_SpecDigest : string; Info_FrameCount : Z; Info_SizeBytes : Z; Info_Digest : string; Info_TerminalType : string;
  Info_TerminalSeq : Z
}.

(** The state of the loop of [WriteJSONL]: the sequence number, the bytes so far
    and the terminal event. *)
Record replay : Type := MkReplay { replay_seq : Z; replay_stream : list Z; terminalSeen : string; replay_terminalSeq : Z }.

Definition replay_step (runUID : string) (manifest : streamManifest) (s : replay) : eprog (replay + result events_error replay) :=
  if FrameCount manifest <? replay_seq s then ERet (inr (Ok s))
  else EContext (fun alive =>
    if negb alive then ERet (inr (Err ContextDone))
    else
      let seq := replay_seq s in
      do r := read_frame runUID (Manifest_IdentityDigest manifest) seq in
      match r with
      | Err e => ERet (inr (Err e))
      | Ok (index, frameBody) =>
        match stored_frame (Manifest_RunUID manifest) seq index frameBody with
        | Err e => ERet (inr (Err e))
        | Ok frame =>
          if terminalSeen s !=? "" then ERet (inr (Err ErrCorrupt))
          else if Terminal frame && negb (seq =? FrameCount manifest) then ERet (inr (Err ErrCorrupt))
          else
            do w := writeAll (length frameBody) frameBody in
            match w with
            | Err e => ERet (inr (Err e))
            | Ok _ =>
              ERet (inl (MkReplay (seq + 1) (replay_stream s ++ frameBody) (if Terminal frame then Type_ frame else terminalSeen s)
                           (if Terminal frame then seq else replay_terminalSeq s)))
            end
        end
      end).

Definition WriteJSONL (runUID : string) (ref : ArtifactRef) : eprog (result events_error StreamInfo) :=
  if negb (validRunUID runUID) then ERet (Err ErrInvalid)
  else if negb (validateArtifactRef ref) then ERet (Err ErrCorrupt)
  else
    do? body := store_get (streamKey runUID (Digest_ ref)) in
    match decodeCanonicalObject body MaxManifestBytes read_manifest with
    | Err _ => ERet (Err ErrCorrupt)
    | Ok manifest =>
      if negb (validateManifest manifest) || (Manifest_RunUID manifest !=? runUID) || (StreamDigest manifest !=? Digest_ ref) ||
         negb (Manifest_SizeBytes manifest =? SizeBytes ref)
      then ERet (Err ErrCorrupt)
      else
        do r := rounds frame_bits (replay_step runUID manifest) (MkReplay 1 [] "" 0) in
        ERet (let? s := (match r with inl s => Ok s | inr r => r end) in
              if (terminalSeen s =?= "") || negb (replay_terminalSeq s =? Manifest_TerminalSeq manifest) ||
                 (terminalSeen s !=? Manifest_TerminalType manifest) || negb (slen (replay_stream s) =? Manifest_SizeBytes manifest) ||
                 (digestBytes (replay_stream s) !=? StreamDigest manifest)
              then Err ErrCorrupt
              else Ok (MkInfo (Manifest_RunUID manifest) (Manifest_SpecDigest manifest) (FrameCount manifest) (slen (replay_stream s))
                         (StreamDigest manifest) (terminalSeen s) (replay_terminalSeq s)))
    end.

(** ** Completion *)

Record ProcessExit_ : Type := MkExit { Code : Z; Known : bool }.

(** The manifest and the record of a whole stream, as [finalizeLocked] and
    [FinalizeObservedExit] write them. *)
Record stream_end : Type := MkEnd { end_stream : list Z; end_count : Z; end_terminal : string; end_seq : Z; end_summary : TerminalSummary }.

Definition end_manifest (runUID specDigest : string) (e : stream_end) : streamManifest :=
  MkManifest schemaVersion (identityDigestHex runUID specDigest) runUID specDigest (end_count e) (slen (end_stream e)) (digestBytes (end_stream e))
    (end_terminal e) (end_seq e).
Definition end_record (runUID specDigest baseSHA uri : string) (e : stream_end) : CompletionRecord :=
  MkCompletion schemaVersion runUID specDigest baseSHA (end_terminal e) (end_seq e)
    (MkArtifact uri (digestBytes (end_stream e)) "runtime-event-stream" "events.jsonl" "application/x-ndjson" (slen (end_stream e))) (end_summary e).

Definition finalize (runUID specDigest baseSHA : string) (e : stream_end) : eprog (result events_error CompletionRecord) :=
  match canonicalManifest (end_manifest runUID specDigest e) with
  | Err _ => ERet (Err ErrInvalid)
  | Ok manifestBody =>
    do? manifestURI := putImmutable (streamKey runUID (digestBytes (end_stream e))) manifestBody "application/vnd.agw.runtime-stream+json" MaxManifestBytes in
    let record := end_record runUID specDigest baseSHA manifestURI e in
    match canonicalRecord record with
    | Err _ => ERet (Err ErrInvalid)
    | Ok recordBody =>
      match CompletionKey runUID specDigest with
      | Err e => ERet (Err e)
      | Ok key =>
        do? _ := putImmutable key recordBody "application/json" MaxCompletionBytes in
        ERet (Ok record)
      end
    end
  end.

(** The state of the loop of [FinalizeObservedExit], and what it ends with. *)
Record rebuild : Type := MkRebuild { rebuild_seq : Z; rebuild_stream : list Z; rebuild_sequence : SequenceValidator }.

Definition rebuild_step (runUID specDigest : string) (s : rebuild) : eprog (rebuild + result events_error stream_end) :=
  let identity := identityDigestHex runUID specDigest in
  let seq := rebuild_seq s in
  do r := store_get (indexKey runUID identity seq) in
  match r with
  | Err ErrMissing => ERet (inr (Err ErrNoTerminal))
  | Err e => ERet (inr (Err e))
  | Ok indexBody =>
    match decodeCanonicalObject indexBody MaxIndexBytes read_index with
    | Err _ => ERet (inr (Err ErrCorrupt))
    | Ok index =>
      if negb (validateFrameIndex index) || (Index_IdentityDigest index !=? identity) || (Index_RunUID index !=? runUID) ||
         (Index_SpecDigest index !=? specDigest) || negb (Index_Seq index =? seq) then ERet (inr (Err ErrCorrupt))
      else
        do r := store_get (frameKey runUID (LineDigest index)) in
        match r with
        | Err e => ERet (inr (Err e))
        | Ok frameBody =>
          if (slen frameBody =? 0) || (maxFrameStorageBytes <? slen frameBody) || negb (has_newline frameBody) ||
             (digestBytes frameBody !=? LineDigest index) || negb (slen frameBody =? Index_SizeBytes index) then ERet (inr (Err ErrCorrupt))
          else match parseStoredLine frameBody with
          | Err _ => ERet (inr (Err ErrCorrupt))
          | Ok frame =>
            if (RunID frame !=? runUID) || negb (Seq frame =? seq) || (Kind frame !=? "event") then ERet (inr (Err ErrCorrupt))
            else
              let '(accepted, sequence) := Sequence_Accept (rebuild_sequence s) frame in
              if negb accepted then ERet (inr (Err ErrCorrupt))
              else if negb (bool_decide (canonicalLine frame = Some frameBody)) then ERet (inr (Err ErrCorrupt))
              else if MaxStreamBytes - slen frameBody <? slen (rebuild_stream s) then ERet (inr (Err ErrStreamTooLarge))
              else
                let stream := rebuild_stream s ++ frameBody in
                if negb (Terminal frame) then ERet (inl (MkRebuild (seq + 1) stream sequence))
                else match terminalType (Type_ frame), terminalSummary frame with
                | Some terminal, Ok summary =>
                  do next := store_get (indexKey runUID identity (seq + 1)) in
                  ERet (inr (match next with
                    | Ok _ => Err ErrCorrupt
                    | Err ErrMissing => Ok (MkEnd stream seq terminal seq summary)
                    | Err e => Err e
                    end))
                | _, _ => ERet (inr (Err ErrCorrupt))
                end
          end
        end
    end
  end.

Definition FinalizeObservedExit (runUID specDigest baseSHA : string) (exit : ProcessExit_) : eprog (result events_error CompletionRecord) :=
  if negb (validRunUID runUID) || negb (isValidSpecDigest specDigest) || negb (validBaseSHA baseSHA) || negb (Known exit) then ERet (Err ErrInvalid)
  else EContext (fun alive =>
    if negb alive then ERet (Err ContextDone)
    else
      do existing := LoadCompletion runUID specDigest in
      match existing with
      | Ok record => ERet (if Completion_BaseSHA record !=? baseSHA then Err ErrConflict else Ok record)
      | Err ErrMissing =>
        do r := rounds frame_bits (rebuild_step runUID specDigest) (MkRebuild 1 [] new_sequence) in
        match r with
        | inl _ => ERet (Err ErrNoTerminal)
        | inr (Err e) => ERet (Err e)
        | inr (Ok e) =>
          if (end_terminal e =?= TerminalCompleted) && negb (Code exit =? 0) then ERet (Err ErrProcessExitFailed)
          else finalize runUID specDigest baseSHA e
        end
      | Err e => ERet (Err e)
      end).

(** ** The collector *)

Record Options : Type := MkOptions { WindowFrames : Z; WindowBytes : Z; Redactor : option RedactionHook }.
Record FrameProjection : Type := MkProjection { Projection_Seq : Z; Projection_Type : string; Projection_Bytes : Z; Projection_Terminal : bool }.

(** The bytes after the last [b], or all. *)
Definition after_last (b : Z) (l : list Z) : list Z := default l (last (split_bytes b l)).
Definition sensitive_names : list string :=
  ["token"; "access_token"; "refresh_token"; "api_key"; "apikey"; "password"; "secret"; "client_secret"; "private_key"; "authorization"; "cookie";
   "credential"; "credentials"].
Definition sensitivePath (path : string) : bool :=
  let part := after_last 0x5D (after_last 0x2E (bytes path)) in
  let cut := fun b => (b =? 0x20) || (b =? 0x09) || (b =? 0x22) in
  let trimmed := of_bytes (trim_right cut (trim_left cut part)) in
  existsb (fun name => bool_decide (map lower_rune (runes trimmed) = bytes name)) sensitive_names.
Definition composeRedactors (extra : option RedactionHook) : RedactionHook := fun path value =>
  if sensitivePath path then Ok (Some (json_string (bytes "[REDACTED]")))
  else match extra with None => Ok None | Some extra => extra path value end.

(** What a collector is made with, and its state. *)
Record collector_config : Type := MkConfig {
  c_runUID : string; c_specDigest : string; c_baseSHA : string; c_windowMax : Z; c_windowByte : Z; c_redactor : RedactionHook
}.
Record collector : Type := MkCollector {
  window : list FrameProjection; windowSize : Z; nextSeq : Z; sequence : SequenceValidator; acceptedFrames : Z; acceptedBytes : Z; streamHash : list Z;
  c_terminalType : string; c_terminalSeq : Z; terminalSum : TerminalSummary; processExited : bool; completion : option CompletionRecord;
  terminalError : option events_error; fatal : option events_error
}.

Definition NewCollector (runUID specDigest baseSHA : string) (options : Options) : result events_error (collector_config * collector) :=
  if negb (validRunUID runUID) || negb (isValidSpecDigest specDigest) || negb (validBaseSHA baseSHA) then Err ErrInvalid
  else
    let windowFrames := if WindowFrames options =? 0 then DefaultWindowFrames else WindowFrames options in
    let windowBytes := if WindowBytes options =? 0 then DefaultWindowBytes else WindowBytes options in
    if (windowFrames <? 1) || (maxWindowFrames <? windowFrames) || (windowBytes <? 1) || (maxWindowBytes <? windowBytes) then Err ErrInvalid
    else Ok (MkConfig runUID specDigest baseSHA windowFrames windowBytes (composeRedactors (Redactor options)),
             MkCollector [] 0 1 new_sequence 0 0 [] "" 0 (MkSummary "" "" false) false None None None).

Definition set_fatal (c : collector) (e : option events_error) : collector :=
  MkCollector (window c) (windowSize c) (nextSeq c) (sequence c) (acceptedFrames c) (acceptedBytes c) (streamHash c) (c_terminalType c) (c_terminalSeq c)
    (terminalSum c) (processExited c) (completion c) (terminalError c) e.
Definition set_sequence (c : collector) (s : SequenceValidator) : collector :=
  MkCollector (window c) (windowSize c) (nextSeq c) s (acceptedFrames c) (acceptedBytes c) (streamHash c) (c_terminalType c) (c_terminalSeq c)
    (terminalSum c) (processExited c) (completion c) (terminalError c) (fatal c).
Definition set_terminal (c : collector) (kind : string) (seq : Z) (summary : TerminalSummary) : collector :=
  MkCollector (window c) (windowSize c) (nextSeq c) (sequence c) (acceptedFrames c) (acceptedBytes c) (streamHash c) kind seq summary (processExited c)
    (completion c) (terminalError c) (fatal c).
Definition set_exited (c : collector) (e : option events_error) : collector :=
  MkCollector (window c) (windowSize c) (nextSeq c) (sequence c) (acceptedFrames c) (acceptedBytes c) (streamHash c) (c_terminalType c) (c_terminalSeq c)
    (terminalSum c) true (completion c) e (fatal c).
Definition set_completion (c : collector) (record : CompletionRecord) : collector :=
  MkCollector (window c) (windowSize c) (nextSeq c) (sequence c) (acceptedFrames c) (acceptedBytes c) (streamHash c) (c_terminalType c) (c_terminalSeq c)
    (terminalSum c) (processExited c) (Some record) (terminalError c) (fatal c).

(** The error is returned and every later call returns it again. *)
Definition rejectLocked (c : collector) (e : events_error) : events_error * collector :=
  match fatal c with
  | Some e => (e, c)
  | None => (ErrRejected e, set_fatal c (Some (ErrRejected e)))
  end.

(** The front of the window is dropped until it is within its bounds. *)
Fixpoint shrink (maxFrames maxBytes : Z) (frames : list FrameProjection) (size : Z) : list FrameProjection * Z :=
  match frames with
  | [] => ([], size)
  | first :: rest =>
    if (maxFrames <? slen frames) || (maxBytes <? size) then shrink maxFrames maxBytes rest (size - Projection_Bytes first) else (frames, size)
  end.
Definition appendProjectionLocked (config : collector_config) (frame : FrameProjection) (w : list FrameProjection) (size : Z) : list FrameProjection * Z :=
  if c_windowByte config <? Projection_Bytes frame then ([], 0)
  else shrink (c_windowMax config) (c_windowByte config) (w ++ [frame]) (size + Projection_Bytes frame).

Definition append_frame (config : collector_config) (c : collector) (frame : Envelope) (lineBytes : list Z) : collector :=
  let '(w, size) := appendProjectionLocked config (MkProjection (Seq frame) (Type_ frame) (slen lineBytes) (Terminal frame)) (window c) (windowSize c) in
  MkCollector w size (nextSeq c + 1) (sequence c) (acceptedFrames c + 1) (acceptedBytes c + slen lineBytes) (streamHash c ++ lineBytes) (c_terminalType c)
    (c_terminalSeq c) (terminalSum c) (processExited c) (completion c) (terminalError c) (fatal c).

Definition frame_index (config : collector_config) (seq : Z) (lineBytes : list Z) : frameIndex :=
  MkIndex schemaVersion (identityDigestHex (c_runUID config) (c_specDigest config)) (c_runUID config) (c_specDigest config) seq (digestBytes lineBytes)
    (slen lineBytes).
Definition persistFrameLocked (config : collector_config) (frame : Envelope) (lineBytes : list Z) : eprog (result events_error unit) :=
  do? _ := putImmutable (frameKey (c_runUID config) (digestBytes lineBytes)) lineBytes "application/x-ndjson" maxFrameStorageBytes in
  match canonicalIndex (frame_index config (Seq frame) lineBytes) with
  | Err _ => ERet (Err ErrInvalid)
  | Ok body =>
    do? _ := putImmutable (indexKey (c_runUID config) (identityDigestHex (c_runUID config) (c_specDigest config)) (Seq frame)) body
               "application/json" MaxIndexBytes in
    ERet (Ok tt)
  end.

(** What a line becomes before it is stored: the frame, its canonical line and
    the collector with its sequence validator advanced. *)
Definition prepare_line (config : collector_config) (c : collector) (line : list Z) : result events_error (Envelope * list Z) * collector :=
  match ParseLine line with
  | Err _ => (Err ErrInvalidFrame, c)
  | Ok frame =>
    if Kind frame !=? KindEvent then (Err ErrInvalidFrame, c)
    else if RunID frame !=? c_runUID config then (Err ErrWrongRun, c)
    else
      let '(accepted, v) := Sequence_Accept (sequence c) frame in
      let c := set_sequence c v in
      if negb accepted then (Err ErrSequence, c)
      else match ApplyRedaction frame (Some (c_redactor config)) with
      | Err _ => (Err ErrInvalidFrame, c)
      | Ok frame =>
        if RunID frame !=? c_runUID config then (Err ErrWrongRun, c)
        else match canonicalLine frame with
        | None => (Err ErrInvalidFrame, c)
        | Some lineBytes =>
          if maxFrameStorageBytes <? slen lineBytes then (Err ErrInvalidFrame, c)
          else if MaxStreamBytes - slen lineBytes <? acceptedBytes c then (Err ErrStreamTooLarge, c)
          else (Ok (frame, lineBytes), c)
        end
      end
  end.

Definition rejected (c : collector) (e : events_error) : option events_error * collector :=
  let '(e, c) := rejectLocked c e in (Some e, c).

Definition Accept (config : collector_config) (c : collector) (line : list Z) : eprog (option events_error * collector) :=
  match fatal c with
  | Some e => ERet (Some e, c)
  | None =>
    if processExited c then ERet (rejected c ErrStreamClosed)
    else if c_terminalType c !=? "" then ERet (rejected c ErrSequence)
    else EContext (fun alive =>
      if negb alive then ERet (rejected c ErrAmbiguous)
      else
        let '(prepared, c) := prepare_line config c line in
        match prepared with
        | Err e => ERet (rejected c e)
        | Ok (frame, lineBytes) =>
          do persisted := persistFrameLocked config frame lineBytes in
          ERet (match persisted with
          | Err e => rejected c e
          | Ok _ =>
            let c := append_frame config c frame lineBytes in
            if negb (Terminal frame) then (None, c)
            else match terminalType (Type_ frame) with
            | None => rejected c ErrInvalidFrame
            | Some kind =>
              match terminalSummary frame with
              | Err e => rejected c e
              | Ok summary => (None, set_terminal c kind (Seq frame) summary)
              end
            end
          end)
        end)
  end.

Definition collector_end (c : collector) : stream_end :=
  MkEnd (streamHash c) (acceptedFrames c) (c_terminalType c) (c_terminalSeq c) (terminalSum c).

Definition ProcessExit (config : collector_config) (c : collector) (exit : ProcessExit_) : eprog (result events_error CompletionRecord * collector) :=
  match completion c, fatal c with
  | Some record, _ => ERet (Ok record, c)
  | None, Some e => ERet (Err e, c)
  | None, None =>
    if processExited c then ERet (Err (default ErrStreamClosed (terminalError c)), c)
    else if c_terminalType c =?= "" then ERet (Err ErrNoTerminal, set_exited c (Some ErrNoTerminal))
    else if negb (Known exit) then ERet (Err ErrProcessExitUnknown, set_exited c (Some ErrProcessExitUnknown))
    else if (c_terminalType c =?= TerminalCompleted) && negb (Code exit =? 0) then
      ERet (Err ErrProcessExitFailed, set_exited c (Some ErrProcessExitFailed))
    else
      let c := set_exited c (terminalError c) in
      do r := finalize (c_runUID config) (c_specDigest config) (c_baseSHA config) (collector_end c) in
      ERet (match r with
      | Err e => let '(e, c) := rejectLocked c e in (Err e, c)
      | Ok record => (Ok record, set_completion c record)
      end)
  end.
Definition Finish (config : collector_config) (c : collector) (exitCode : Z) : eprog (result events_error CompletionRecord * collector) :=
  ProcessExit config c (MkExit exitCode true).

Definition Completion (c : collector) : result events_error CompletionRecord :=
  match completion c, terminalError c, fatal c with
  | Some record, _, _ => Ok record
  | None, Some e, _ => Err e
  | None, None, Some e => Err e
  | None, None, None => Err ErrNotReady
  end.

Record Projection_ : Type := MkView {
  View_RunUID : string; View_SpecDigest : string; View_AcceptedFrames : Z; View_AcceptedBytes : Z; View_NextSeq : Z; View_TerminalType : string;
  View_TerminalSeq : Z; View_ProcessExited : bool; View_Finalized : bool; View_Window : list FrameProjection
}.
Definition Projection (config : collector_config) (c : collector) : Projection_ :=
  MkView (c_runUID config) (c_specDigest config) (acceptedFrames c) (acceptedBytes c) (nextSeq c) (c_terminalType c) (c_terminalSeq c) (processExited c)
    (bool_decide (is_Some (completion c))) (window c).
