(* ===== verification/RuntimeReplay.v ===== *)
(** * Runtime events: what the repository reads

    The index of a frame, the manifest of a stream and its completion record are
    read back from their canonical bytes.  The order of events that the sequence
    validator accepts; the undisturbed run of a program; and that a stream which
    [FinalizeObservedExit] completes is replayed by [WriteJSONL]. *)

From stdpp Require Import pretty.
From S2P Require Import Prelude Order GoStrings Utf8 Digest Digits GoTime GoJson Unmarshal UnmarshalSpec StrictJson StrictJsonSpec RawJson.
From S2P Require Import StrictJsonMarshal RuntimeProto RuntimeEvents.
Local Open Scope go_scope.
Local Open Scope string_scope.
Local Open Scope Z_scope.
Local Open Scope list_scope.

(** ** Texts *)

Lemma ascii_runes_text (P : Z -> bool) s : (forall r, P r = true -> 0 < r < 0x80) -> forallb P (runes s) = true -> len s <= maxStringBytes -> wf_string s = true.
Proof.
  intros HP H Hl. unfold runes in H. rewrite decode_forall_ascii in H by (intros r Hr%HP; lia). apply ascii_text; [|done].
  apply forallb_true in H. eapply Forall_impl; [exact H|]. apply HP.
Qed.

Lemma hex_rune r : is_lower_hex r = true -> 0 < r < 0x80.
Proof. intros H%lower_hex_bounds. lia. Qed.
Lemma name_char_rune r : name_char r = true -> 0 < r < 0x80.
Proof. unfold name_char, is_digit. rewrite !orb_true_iff, !between_spec, !Z.eqb_eq. lia. Qed.

Lemma uid_text s : validRunUID s = true -> wf_string s = true.
Proof.
  unfold validRunUID. rewrite andb_true_iff, negb_true_iff, !orb_false_iff, Z.ltb_ge. intros [[[[[[[[_ Hl] _] _] _] _] _] _] H].
  apply (ascii_runes_text name_char); [apply name_char_rune|done|]. change maxStringBytes with 65536. unfold maxRunUIDBytes in Hl. lia.
Qed.
Lemma identity_text s : validIdentityDigest s = true -> wf_string s = true.
Proof.
  unfold validIdentityDigest. rewrite andb_true_iff, Z.eqb_eq. intros [Hl H]. apply (ascii_runes_text is_lower_hex); [apply hex_rune|done|].
  change maxStringBytes with 65536. lia.
Qed.
Lemma base_text s : validBaseSHA s = true -> wf_string s = true.
Proof.
  unfold validBaseSHA. rewrite andb_true_iff, orb_true_iff, !Z.eqb_eq. intros [Hl H]. apply (ascii_runes_text is_lower_hex); [apply hex_rune|done|].
  change maxStringBytes with 65536. lia.
Qed.
Lemma summary_text s : safeSummaryIdentifier s = true -> wf_string s = true.
Proof.
  unfold safeSummaryIdentifier, safeDescriptor. rewrite orb_true_iff, !andb_true_iff, bool_decide_eq_true, Z.leb_le. intros [->|[[_ H] Hl]]; [done|].
  apply (ascii_runes_text (fun r => name_char r || (r =? 0x2F))); [|done|change maxStringBytes with 65536; unfold maxSummaryBytes in Hl; lia].
  intros r. rewrite orb_true_iff, Z.eqb_eq. intros [?%name_char_rune| ->]; lia.
Qed.
Lemma terminal_text s : validTerminalType s = true -> wf_string s = true /\ s <> "".
Proof. unfold validTerminalType. rewrite bool_decide_eq_true, !elem_of_cons, elem_of_nil. by intros [->|[->|[->|[->|[]]]]]. Qed.

Lemma uri_text s : safeURI s = true -> wf_string s = true.
Proof.
  unfold safeURI. rewrite andb_true_iff, negb_true_iff, !orb_false_iff, negb_false_iff, Z.ltb_ge. intros [[[[_ Hl] Hv] Hc] _].
  unfold wf_string. change maxStringBytes with 65536. unfold maxArtifactURI in Hl. rewrite Hv, (proj2 (Z.leb_le _ _)) by lia. rewrite andb_true_r. cbn [andb].
  apply forallb_true, Forall_forall. intros b Hb. apply Z.ltb_lt. pose proof (bytes_range s) as Hr. rewrite Forall_forall in Hr. specialize (Hr b Hb).
  unfold is_byte in Hr. destruct (Z.eq_dec b 0) as [->|]; [|lia]. exfalso. unfold ContainsAny in Hc.
  assert (H : existsb (fun b => bool_decide (b ∈ bytes (of_bytes [0; 0x0D; 0x0A; 0x40; 0x3F; 0x23]))) (bytes s) = true); [|congruence].
  apply existsb_true. exists 0. split; [done|]. reflexivity.
Qed.

(** ** Numbers *)

Lemma uint_read n : 0 <= n < 2 ^ 63 -> uint_field (Some (tree_of (JInt n))) = Some n.
Proof.
  intros Hn. cbn [tree_of uint_field]. destruct n as [|p|p]; [done| |lia]. change (bytes (pretty (Zpos p))) with (bytes (pretty p)).
  destruct (pretty_positive_digits p) as (l & -> & Hd & Hv & b & k & -> & Hb). unfold unmarshal_uint64.
  rewrite bool_decide_eq_false_2, (bool_decide_eq_false_2 (_ = [])), digits_forallb by (try done; intros E; apply Forall_inv in Hd; injection E as -> _; done).
  cbn [negb orb]. rewrite Hv, (proj2 (Z.ltb_ge _ _)) by lia. done.
Qed.

(** ** Canonical objects *)

Lemma decode_canonical {A : Type} (fields : list (string * json)) (read : list (string * tree) -> option A) body maxBytes a :
  strict_json 0 (JObject fields) = true -> canonicalBytes (JObject fields) = Ok body -> slen body <= maxBytes ->
  struct_item read (tree_of (sorted_json (JObject fields))) = Some a -> decodeCanonicalObject body maxBytes read = Ok a.
Proof.
  intros Hs Hb Hl Hr. unfold canonicalBytes in Hb.
  destruct (Z.ltb_spec MaxDocumentBytes (slen (Marshal (JObject fields)))) as [Hlt|Hle]; [by rewrite Normalize_large in Hb|].
  rewrite Normalize_marshal in Hb by done. apply (f_equal (fun r => match r with Ok x => x | Err _ => [] end)) in Hb. cbv beta iota in Hb. subst body.
  destruct (normal_form_stable _ Hs Hle) as [Hn Hp]. unfold decodeCanonicalObject.
  assert (Hz : (slen (Marshal (sorted_json (JObject fields))) =? 0) = false) by (cbn [sorted_json Marshal]; apply Z.eqb_neq; unfold slen; cbn [length]; lia).
  rewrite Hz, (proj2 (Z.ltb_ge _ _) Hl). unfold ValidateObject. rewrite Hp, Hn. cbn [result_bind sorted_json value_of is_object negb is_ok orb].
  rewrite bool_decide_eq_true_2 by done. cbn [negb]. change (JObject (sort_on fst String.compare (map (fun f => (f.1, sorted_json f.2)) fields))) with (sorted_json (JObject fields)).
  rewrite parse_tree_sorted by done. cbn [mbind option_bind]. by rewrite Hr.
Qed.

Lemma frame_index_reads i body : canonicalIndex i = Ok body -> 0 <= Index_Seq i -> 0 <= Index_SizeBytes i -> slen body <= MaxIndexBytes ->
  decodeCanonicalObject body MaxIndexBytes read_index = Ok i.
Proof.
  unfold canonicalIndex. destruct (validateFrameIndex i) eqn:Hv; [|done]. intros Hb H1 H2 Hl. unfold validateFrameIndex in Hv.
  rewrite !andb_true_iff, !negb_true_iff, Z.eqb_eq, !Z.leb_le in Hv. destruct Hv as [[[[[[[[[Hsv Huid] Hspec] Hid] _] _] Hseq] Hline] _] Hsize].
  change maxStreamFrames with (2 ^ 32) in Hseq. change maxFrameStorageBytes with 1048577 in Hsize.
  assert (int64 (Index_Seq i) = true /\ int64 (Index_SizeBytes i) = true) as [Hi1 Hi2] by (unfold int64; rewrite !between_spec; lia).
  apply uid_text in Huid. apply ValidDigest_text in Hspec as [Hspec _]. apply identity_text in Hid. apply ValidDigest_text in Hline as [Hline _].
  eapply decode_canonical; [|exact Hb|exact Hl|].
  - unfold index_json. strict_struct. by rewrite Hsv.
  - unfold read_index. read_known. read_fields. rewrite !uint_read, int_read by (lia || by rewrite Hsv). by destruct i.
Qed.

Lemma stream_manifest_reads m body : canonicalManifest m = Ok body -> 0 <= FrameCount m -> 0 <= Manifest_SizeBytes m -> slen body <= MaxManifestBytes ->
  decodeCanonicalObject body MaxManifestBytes read_manifest = Ok m.
Proof.
  unfold canonicalManifest. destruct (validateManifest m) eqn:Hv; [|done]. intros Hb H1 H2 Hl. unfold validateManifest in Hv.
  rewrite !andb_true_iff, !negb_true_iff, !Z.eqb_eq, !Z.leb_le in Hv. destruct Hv as [[[[[[[[[[[Hsv Huid] Hspec] Hid] _] _] Hcount] _] Hsize] Hdig] Hterm] Hseq].
  change maxStreamFrames with (2 ^ 32) in Hcount. change MaxStreamBytes with (2 ^ 40) in Hsize.
  assert (int64 (FrameCount m) = true /\ int64 (Manifest_SizeBytes m) = true) as [Hi1 Hi2] by (unfold int64; rewrite !between_spec; lia).
  apply uid_text in Huid. apply ValidDigest_text in Hspec as [Hspec _], Hdig as [Hdig _]. apply identity_text in Hid. apply terminal_text in Hterm as [Hterm _].
  eapply decode_canonical; [|exact Hb|exact Hl|].
  - unfold manifest_json. strict_struct; [by rewrite Hsv|by rewrite Hseq].
  - unfold read_manifest. read_known. read_fields. rewrite !uint_read, int_read by (lia || by rewrite Hsv). by destruct m.
Qed.

(** ** The completion record *)

Lemma bool_read b : bool_field (Some (tree_of (JBool b))) = Some b.
Proof. done. Qed.

Lemma summary_strict depth s : depth < maxDepth -> summary_bounded s = true -> strict_json depth (summary_json s) = true.
Proof.
  intros Hd. unfold summary_bounded. rewrite !andb_true_iff. intros [[_ H1%summary_text] H2%summary_text]. unfold summary_json, omit_empty.
  destruct (ErrorCode s =?= ""), (EffectID s =?= ""), (OutputPresent s); cbn [app]; strict_struct; cbn [strict_json]; by rewrite (proj2 (Z.leb_le _ _)) by lia.
Qed.
Lemma summary_reads s : summary_bounded s = true -> struct_item read_summary (tree_of (sorted_json (summary_json s))) = Some s.
Proof.
  unfold summary_bounded. rewrite !andb_true_iff. intros [[_ H1%summary_text%wf_string_valid] H2%summary_text%wf_string_valid].
  destruct s as [code effect output]. cbn [ErrorCode EffectID OutputPresent] in *. unfold summary_json, omit_empty, read_summary. cbn [ErrorCode EffectID OutputPresent].
  case_bool_decide as E1; case_bool_decide as E2; destruct output; cbn [app];
    (match goal with |- struct_item (known ?names ?decode) (tree_of (sorted_json (JObject ?fields))) = _ =>
       destruct (known_sorted names decode fields) as [E Hf]; [reflexivity|]; rewrite E; clear E end);
    cbv zeta; rewrite (Hf "errorCode"), (Hf "effectId"), (Hf "outputPresent"); clear Hf; cbn [map fst snd sorted_json]; read_fields;
    change (string_field None) with (Some ""); cbn [mbind option_bind]; rewrite ?bool_read; cbn [mbind option_bind bool_field]; by rewrite ?E1, ?E2.
Qed.

(** The reference of a stream. *)
Definition stream_ref (uri : string) (e : stream_end) : ArtifactRef :=
  MkArtifact uri (digestBytes (end_stream e)) "runtime-event-stream" "events.jsonl" "application/x-ndjson" (slen (end_stream e)).

Lemma stream_ref_parts uri e : validateArtifactRef (stream_ref uri e) = true ->
  wf_string uri = true /\ 0 < slen (end_stream e) /\ int64 (slen (end_stream e)) = true /\ wf_string (digestBytes (end_stream e)) = true.
Proof.
  unfold validateArtifactRef. rewrite !andb_true_iff. intros ((((((((((((Hu%uri_text & _) & Hpos) & Hsz) & _) & _) & _) & _) & _) & _) & _) & _) & _).
  cbn [SizeBytes URI stream_ref] in *. change MaxStreamBytes with (2 ^ 40) in Hsz. apply Z.ltb_lt in Hpos. apply Z.leb_le in Hsz.
  split_and!; [done|done|unfold int64; rewrite between_spec; lia|]. by apply ValidDigest_text, ValidDigest_digestBytes.
Qed.
Lemma stream_ref_strict depth uri e : depth < maxDepth -> validateArtifactRef (stream_ref uri e) = true -> strict_json depth (artifact_json (stream_ref uri e)) = true.
Proof.
  intros Hd (Hu & Hpos & Hi & Hdig)%stream_ref_parts.
  unfold artifact_json. cbn [URI Digest_ Artifact_Kind Name MediaType SizeBytes stream_ref]. change (omit_empty ?k ?v) with [(k, JString v)]. cbn [app].
  rewrite (proj2 (Z.eqb_neq _ _)) by lia. cbn [app]. strict_struct.
Qed.
Lemma stream_ref_reads uri e : validateArtifactRef (stream_ref uri e) = true ->
  struct_item read_artifact (tree_of (sorted_json (artifact_json (stream_ref uri e)))) = Some (stream_ref uri e).
Proof.
  intros (Hu & Hpos & Hi & Hdig)%stream_ref_parts.
  unfold artifact_json. cbn [URI Digest_ Artifact_Kind Name MediaType SizeBytes stream_ref]. change (omit_empty ?k ?v) with [(k, JString v)]. cbn [app].
  rewrite (proj2 (Z.eqb_neq _ _)) by lia. cbn [app]. unfold read_artifact. read_known. read_fields. done.
Qed.

Lemma completion_reads uid spec base uri e body : canonicalRecord (end_record uid spec base uri e) = Ok body -> 0 <= end_seq e < 2 ^ 63 ->
  slen body <= MaxCompletionBytes -> decodeCanonicalObject body MaxCompletionBytes read_completion = Ok (end_record uid spec base uri e).
Proof.
  unfold canonicalRecord. destruct (validateCompletion _) eqn:Hv; [|done]. intros Hb Hseq Hl. unfold validateCompletion in Hv. rewrite !andb_true_iff in Hv.
  destruct Hv as ((((((((((_ & Huid) & Hspec) & Hbase) & _) & Hterm) & Hart) & Hsum) & _) & _) & _).
  cbn [end_record Completion_RunUID Completion_SpecDigest Completion_BaseSHA Completion_TerminalType EventStream Summary] in *. fold (stream_ref uri e) in Hart.
  apply uid_text in Huid. apply ValidDigest_text in Hspec as [Hspec _]. apply base_text in Hbase. apply terminal_text in Hterm as [Hterm _].
  assert (Hi : int64 (end_seq e) = true) by (unfold int64; rewrite between_spec; lia).
  pose proof (stream_ref_strict 1 uri e eq_refl Hart) as Hs1. pose proof (summary_strict 1 _ eq_refl Hsum) as Hs2.
  pose proof (stream_ref_reads uri e Hart) as Hr1. pose proof (summary_reads _ Hsum) as Hr2. revert Hs1 Hs2 Hr1 Hr2 Hb.
  unfold completion_json, end_record. cbn [Completion_SchemaVersion Completion_RunUID Completion_SpecDigest Completion_BaseSHA Completion_TerminalType Completion_TerminalSeq EventStream Summary].
  fold (stream_ref uri e). generalize (artifact_json (stream_ref uri e)) (summary_json (end_summary e)). intros ja js Hs1 Hs2 Hr1 Hr2 Hb.
  eapply decode_canonical; [|exact Hb|exact Hl|].
  - strict_struct.
  - unfold read_completion. read_known. read_fields. rewrite uint_read by lia. cbn [mbind option_bind].
    change (struct_field read_artifact (Some (tree_of (sorted_json ja)))) with (struct_item read_artifact (tree_of (sorted_json ja))). rewrite Hr1. cbn [mbind option_bind].
    change (struct_field read_summary (Some (tree_of (sorted_json js)))) with (struct_item read_summary (tree_of (sorted_json js))). by rewrite Hr2.
Qed.

(** ** The order of events *)

Fixpoint accepts (v : SequenceValidator) (frames : list Envelope) : option SequenceValidator :=
  match frames with
  | [] => Some v
  | f :: rest => let '(accepted, v') := Sequence_Accept v f in if accepted : bool then accepts v' rest else None
  end.

Lemma accepts_app v frames rest : accepts v (frames ++ rest) = v' ← accepts v frames; accepts v' rest.
Proof.
  revert v. induction frames as [|f frames IH]; intros v; [done|]. cbn [app accepts]. destruct (Sequence_Accept v f) as [[|] v']; [apply IH|done].
Qed.

(** Events of one run, numbered from one; the first and only the first starts the
    run, and nothing follows a terminal event. *)
Record event_stream (uid : string) (frames : list Envelope) : Prop := {
  es_valid : Forall (fun f => ValidateEnvelope f = true /\ Kind f = KindEvent /\ RunID f = uid) frames;
  es_seq : forall i f, frames !! i = Some f -> Seq f = Z.of_nat i + 1;
  es_start : forall i f, frames !! i = Some f -> (Type_ f = EventRunStarted <-> i = 0%nat);
  es_terminal : forall i f, frames !! i = Some f -> Terminal f = true -> S i = length frames
}.

Definition ends_run (frames : list Envelope) : bool := match last frames with Some f => Terminal f | None => false end.
(** The validator after a stream. *)
Definition sequence_after (uid : string) (frames : list Envelope) : SequenceValidator :=
  match frames with [] => new_sequence | _ => MkSequence uid (slen frames) true (ends_run frames) end.

Lemma stream_prefix uid frames f : event_stream uid (frames ++ [f]) -> event_stream uid frames /\ ends_run frames = false.
Proof.
  intros [Hv Hs Ht He]. assert (Hl : forall i g, frames !! i = Some g -> (frames ++ [f]) !! i = Some g) by (intros i g Hi; by apply lookup_app_l_Some).
  split; [constructor|].
  - by apply Forall_app in Hv as [? _].
  - intros i g Hi. apply Hs. by apply Hl.
  - intros i g Hi. by apply (Ht i g), Hl.
  - intros i g Hi Hg. pose proof (He i g (Hl _ _ Hi) Hg) as E. rewrite length_app in E. cbn in E. apply lookup_lt_Some in Hi. lia.
  - unfold ends_run. destruct (last frames) as [g|] eqn:E; [|done]. rewrite last_lookup in E. destruct (Terminal g) eqn:Hg; [|done].
    pose proof (He _ g (Hl _ _ E) Hg) as El. rewrite length_app in El. cbn in El. destruct frames; [done|cbn in *; lia].
Qed.

Lemma stream_snoc uid frames f : event_stream uid frames -> ends_run frames = false -> ValidateEnvelope f = true -> Kind f = KindEvent -> RunID f = uid ->
  Seq f = slen frames + 1 -> (Type_ f = EventRunStarted <-> frames = []) -> event_stream uid (frames ++ [f]).
Proof.
  intros [Hv Hs Ht He] Hend Hvf Hk Hr Hseq Hty.
  assert (Hcase : forall i g, (frames ++ [f]) !! i = Some g -> frames !! i = Some g \/ (i = length frames /\ g = f)).
  { intros i g [Hi|[Hge Hi]]%lookup_app_Some; [by left|]. right. apply list_lookup_singleton_Some in Hi as [Hi ->]. split; [lia|done]. }
  constructor.
  - apply Forall_app. split; [done|]. by apply Forall_singleton.
  - intros i g [Hi|[-> ->]]%Hcase; [by apply Hs|]. unfold slen in Hseq. lia.
  - intros i g [Hi|[-> ->]]%Hcase; [by apply Ht|]. rewrite Hty. by destruct frames.
  - intros i g [Hi|[-> ->]]%Hcase Hg; [|rewrite length_app; cbn; lia]. exfalso. pose proof (He i g Hi Hg) as El. unfold ends_run in Hend.
    rewrite last_lookup, <- El in Hend. cbn [pred] in Hend. rewrite Hi in Hend. congruence.
Qed.

Lemma envelope_run f : ValidateEnvelope f = true -> RunID f <> "".
Proof. unfold ValidateEnvelope. rewrite !andb_true_iff. intros H E. destruct_and! H. by rewrite E in *. Qed.

Lemma sequence_after_snoc uid frames f : sequence_after uid (frames ++ [f]) = MkSequence uid (slen frames + 1) true (Terminal f).
Proof. unfold sequence_after, ends_run. rewrite last_snoc. unfold slen. rewrite length_app. cbn. destruct frames; cbn [app]; f_equal; lia. Qed.

(** One more event. *)
Lemma sequence_step uid frames f : uid <> "" -> slen frames + 1 < 2 ^ 64 -> (frames = [] -> ValidateEnvelope f = true -> RunID f = uid) ->
  (Sequence_Accept (sequence_after uid frames) f).1 = true <->
  ends_run frames = false /\ ValidateEnvelope f = true /\ Kind f = KindEvent /\ RunID f = uid /\ Seq f = slen frames + 1 /\
  (Type_ f = EventRunStarted <-> frames = []).
Proof.
  intros Hu Hl Hfirst. unfold Sequence_Accept. destruct (bool_decide_reflect (Kind f = KindEvent)) as [Hk|Hk]; cbn [negb]; [|split; [done|tauto]].
  destruct (ValidateEnvelope f) eqn:Hv; cbn [negb]; [|split; [done|by intros (_ & ? & _)]].
  set (w := if seq_runID (sequence_after uid frames) =?= "" then _ else _).
  assert (Ew : w = MkSequence uid (slen frames) (negb (bool_decide (frames = []))) (ends_run frames)).
  { unfold w. destruct frames as [|g frames]; [by rewrite <- (Hfirst eq_refl eq_refl)|]. cbn [sequence_after seq_runID]. by rewrite !bool_decide_eq_false_2. }
  rewrite Ew. cbn [seq_runID lastSeq started seq_terminal]. rewrite Z.mod_small by (unfold slen in *; lia).
  destruct (bool_decide_reflect (RunID f = uid)) as [Hr|Hr]; cbn [negb]; [|split; [done|tauto]].
  destruct (ends_run frames); [split; [done|by intros (? & _)]|].
  destruct (Z.eqb_spec (Seq f) (slen frames + 1)) as [Hq|Hq]; cbn [negb]; [|split; [done|tauto]].
  destruct (bool_decide_reflect (frames = [])) as [He|He], (bool_decide_reflect (Type_ f = EventRunStarted)) as [Ht|Ht]; cbn; (split; [try done|]); try tauto.
Qed.
Lemma sequence_moves uid frames f : uid <> "" -> (frames = [] -> RunID f = uid) -> (Sequence_Accept (sequence_after uid frames) f).1 = true ->
  slen frames + 1 < 2 ^ 64 -> (Sequence_Accept (sequence_after uid frames) f).2 = sequence_after uid (frames ++ [f]).
Proof.
  intros Hu Hfirst H Hl. apply sequence_step in H as (He & Hv & Hk & Hr & Hq & Ht); [|done|done|by intros ? ?; apply Hfirst].
  rewrite sequence_after_snoc. unfold Sequence_Accept. rewrite Hk, Hv. change (bool_decide (KindEvent = KindEvent)) with true. cbn [negb].
  set (w := if seq_runID (sequence_after uid frames) =?= "" then _ else _).
  assert (Ew : w = MkSequence uid (slen frames) (negb (bool_decide (frames = []))) false).
  { unfold w. destruct frames as [|g frames]; [by rewrite <- (Hfirst eq_refl)|]. cbn [sequence_after seq_runID]. by rewrite He, !bool_decide_eq_false_2. }
  rewrite Ew. cbn [seq_runID lastSeq started seq_terminal]. rewrite Z.mod_small by (unfold slen in *; lia). rewrite Hr, Hq, Z.eqb_refl, bool_decide_eq_true_2 by done.
  cbn [negb]. destruct (bool_decide_reflect (frames = [])) as [E|E], (bool_decide_reflect (Type_ f = EventRunStarted)) as [Et|Et]; cbn [negb andb orb]; try done; tauto.
Qed.

(** The validator accepts exactly the streams. *)
Lemma accepts_stream uid frames v : uid <> "" -> slen frames < 2 ^ 64 -> Forall (fun f => RunID f = uid) frames ->
  (accepts new_sequence frames = Some v <-> event_stream uid frames /\ v = sequence_after uid frames).
Proof.
  intros Hu. revert v. induction frames as [|f frames IH] using rev_ind; intros v Hl Hr; [split; [intros [= <-]; by split; [constructor|]|by intros [_ ->]]|].
  unfold slen in Hl. rewrite length_app in Hl. cbn [length] in Hl. apply Forall_app in Hr as [Hr Hrf]. rewrite Forall_singleton in Hrf.
  rewrite accepts_app. assert (Hl' : slen frames + 1 < 2 ^ 64) by (unfold slen; lia). split.
  - destruct (accepts new_sequence frames) as [w|]; [|done]. destruct (proj1 (IH w ltac:(unfold slen; lia) Hr) eq_refl) as [Hs ->]. cbn [mbind option_bind accepts].
    pose proof (sequence_moves uid frames f Hu (fun _ => Hrf)) as Hm. pose proof (sequence_step uid frames f Hu Hl' (fun _ _ => Hrf)) as Hst.
    destruct (Sequence_Accept _ f) as [[|] w]; [|done]. cbn [fst snd] in *. destruct Hst as [Hst _]. destruct (Hst eq_refl) as (He & Hv & Hk & _ & Hq & Ht).
    intros [= <-]. split; [by apply stream_snoc|by apply Hm].
  - intros [Hs ->]. destruct (stream_prefix _ _ _ Hs) as [Hp He]. rewrite (proj2 (IH _ ltac:(unfold slen; lia) Hr) (conj Hp eq_refl)). cbn [mbind option_bind accepts].
    assert (Hok : (Sequence_Accept (sequence_after uid frames) f).1 = true).
    { apply sequence_step; [done|done|done|]. destruct Hs as [Hv Hq Ht _]. apply Forall_app in Hv as [_ Hv]. apply Forall_singleton in Hv as (? & ? & ?).
      assert (Hlast : (frames ++ [f]) !! length frames = Some f) by (by rewrite lookup_app_r, Nat.sub_diag).
      split_and!; try done; [by rewrite (Hq _ _ Hlast)|]. rewrite (Ht _ _ Hlast). by destruct frames. }
    pose proof (sequence_moves uid frames f Hu (fun _ => Hrf) Hok Hl') as Hm. destruct (Sequence_Accept _ f) as [b w]. cbn [fst snd] in *. by subst.
Qed.

(** ** Undisturbed runs *)

Notation objects := (gmap string (list Z)).

Section Run.
Context (uri_of : string -> string).

(** The context lives, the store answers, and the output takes everything. *)
Fixpoint erun {A : Type} (m : eprog A) (s : objects) (out : list Z) : A * objects * list Z :=
  match m with
  | ERet a => (a, s, out)
  | EContext k => erun (k true) s out
  | EPut key body _ k =>
    match s !! key with
    | Some _ => erun (k (Some (false, uri_of key))) s out
    | None => erun (k (Some (true, uri_of key))) (<[key := body]> s) out
    end
  | EGet key k => erun (k (match s !! key with Some body => Ok body | None => Err GetNotFound end)) s out
  | EWrite body k => erun (k (Some (slen body))) s (out ++ body)
  end.

Lemma erun_bind {A B : Type} (m : eprog A) (f : A -> eprog B) s out :
  erun (ebind m f) s out = let '(a, s', out') := erun m s out in erun (f a) s' out'.
Proof.
  revert s out. induction m as [a|k IH|key body ct k IH|key k IH|body k IH]; intros s out; cbn [ebind erun]; try done; try apply IH.
  destruct (s !! key); apply IH.
Qed.

(** What a read answers. *)
Definition object_at (s : objects) (key : string) : result events_error (list Z) :=
  if validateGeneratedKey key then match s !! key with Some body => Ok body | None => Err ErrMissing end else Err ErrInvalid.
Lemma erun_get key s out : erun (store_get key) s out = (object_at s key, s, out).
Proof. unfold store_get, object_at. destruct (validateGeneratedKey key); [|done]. cbn [negb erun]. by destruct (s !! key). Qed.

Lemma object_found s key body : object_at s key = Ok body <-> validateGeneratedKey key = true /\ s !! key = Some body.
Proof. unfold object_at. destruct (validateGeneratedKey key), (s !! key); split; try done; [by intros [= ->]|by intros [_ [= ->]]|by intros []..]. Qed.
Lemma object_missing s key : object_at s key = Err ErrMissing <-> validateGeneratedKey key = true /\ s !! key = None.
Proof. unfold object_at. destruct (validateGeneratedKey key), (s !! key); split; try done; by intros []. Qed.

(** Writing an immutable object: it is there afterwards, and nothing else changed. *)
Lemma erun_put key body ct maxBytes s out uri s' out' : erun (putImmutable key body ct maxBytes) s out = (Ok uri, s', out') ->
  out' = out /\ uri = uri_of key /\ safeURI uri = true /\ validateGeneratedKey key = true /\ 0 < slen body <= maxBytes /\
  s' = <[key := body]> s /\ (s !! key = None \/ s !! key = Some body).
Proof.
  unfold putImmutable. destruct (_ || _) eqn:E in |- *; [done|]. rewrite !orb_false_iff, negb_false_iff, Z.eqb_neq, Z.ltb_ge in E. destruct E as [[Hk Hz] Hl].
  assert (Hb : 0 < slen body) by (unfold slen in *; lia).
  cbn [erun]. destruct (s !! key) as [existing|] eqn:Es.
  - destruct (safeURI (uri_of key)) eqn:Hu; [|done]. cbn [negb erun]. rewrite Es. case_bool_decide as Eb; [|done]. subst existing. intros [= <- <- <-].
    rewrite insert_id by done. by split_and!; [..|right].
  - destruct (safeURI (uri_of key)) eqn:Hu; [|done]. cbn [negb erun]. intros [= <- <- <-]. by split_and!; [..|left].
Qed.
Lemma put_erun key body ct maxBytes s out : validateGeneratedKey key = true -> 0 < slen body <= maxBytes -> safeURI (uri_of key) = true ->
  s !! key = None \/ s !! key = Some body -> erun (putImmutable key body ct maxBytes) s out = (Ok (uri_of key), <[key := body]> s, out).
Proof.
  intros Hk Hl Hu Hs. unfold putImmutable. rewrite Hk, (proj2 (Z.eqb_neq _ _)), (proj2 (Z.ltb_ge _ _)) by lia. cbn [negb orb erun].
  destruct Hs as [Hs|Hs]; rewrite Hs, Hu; cbn [negb erun]; [done|]. rewrite Hs, bool_decide_eq_true_2, insert_id by done. done.
Qed.

(** ** Loops *)

Section Loops.
Context {S R : Type} (step : S -> eprog (S + R)).

(** [k] rounds that go on. *)
Inductive chain : nat -> S -> objects -> list Z -> S -> objects -> list Z -> Prop :=
| chain_nil st s out : chain 0 st s out st s out
| chain_cons k st s out st1 s1 out1 st' s' out' :
    erun (step st) s out = (inl st1, s1, out1) -> chain k st1 s1 out1 st' s' out' -> chain (Datatypes.S k) st s out st' s' out'.

Lemma chain_app j k st s out st1 s1 out1 st' s' out' :
  chain j st s out st1 s1 out1 -> chain k st1 s1 out1 st' s' out' -> chain (j + k) st s out st' s' out'.
Proof.
  revert st s out. induction j as [|j IH]; intros st s out H1 H2; inversion H1; subst; [done|]. cbn. econstructor; [eassumption|by apply IH].
Qed.
Lemma chain_split j k st s out st' s' out' : chain (j + k) st s out st' s' out' ->
  exists st1 s1 out1, chain j st s out st1 s1 out1 /\ chain k st1 s1 out1 st' s' out'.
Proof.
  revert st s out. induction j as [|j IH]; intros st s out H; [by eexists _, _, _; split; [constructor|]|]. inversion H as [|? ? ? ? ? ? ? ? ? ? Hs Hc]; subst.
  apply IH in Hc as (c & sc & oc & H1 & H2). exists c, sc, oc. split; [|exact H2]. by econstructor.
Qed.

Lemma double n : (2 ^ Datatypes.S n = 2 ^ n + 2 ^ n)%nat.
Proof. cbn. lia. Qed.

Lemma rounds_full n : forall st s out st' s' out', chain (2 ^ n) st s out st' s' out' -> erun (rounds n step st) s out = (inl st', s', out').
Proof.
  induction n as [|n IH]; intros st s out st' s' out' H.
  - inversion H as [|? ? ? ? ? ? ? ? ? ? Hs Hc]; subst. inversion Hc; subst. exact Hs.
  - rewrite double in H. apply chain_split in H as (st1 & s1 & out1 & H1%IH & H2%IH). cbn [rounds]. rewrite erun_bind, H1. exact H2.
Qed.

Lemma rounds_stop n : forall k st s out st1 s1 out1 r s' out', (k < 2 ^ n)%nat -> chain k st s out st1 s1 out1 ->
  erun (step st1) s1 out1 = (inr r, s', out') -> erun (rounds n step st) s out = (inr r, s', out').
Proof.
  induction n as [|n IH]; intros k st s out st1 s1 out1 r s' out' Hk Hc Hr.
  - assert (k = 0%nat) as -> by (cbn in Hk; lia). by inversion Hc; subst.
  - cbn [rounds]. rewrite erun_bind. destruct (decide (k < 2 ^ n)%nat) as [Hlt|Hge].
    + by rewrite (IH k st s out st1 s1 out1 r s' out') by done.
    + assert (Hj : exists j, (k = 2 ^ n + j)%nat) by (exists (k - 2 ^ n)%nat; lia). destruct Hj as [j ->].
      apply chain_split in Hc as (st2 & s2 & out2 & H1%rounds_full & H2). rewrite H1. eapply IH; [|exact H2|exact Hr]. rewrite double in Hk. lia.
Qed.

Lemma rounds_inv n : forall st s out r s' out', erun (rounds n step st) s out = (r, s', out') ->
  match r with
  | inl st' => chain (2 ^ n) st s out st' s' out'
  | inr _ => exists k st1 s1 out1, (k < 2 ^ n)%nat /\ chain k st s out st1 s1 out1 /\ erun (step st1) s1 out1 = (r, s', out')
  end.
Proof.
  induction n as [|n IH]; intros st s out r s' out' H.
  - cbn [rounds] in H. destruct r as [st'|r]; [by econstructor; [exact H|constructor]|]. exists 0%nat, st, s, out. by split_and!; [cbn; lia|constructor|].
  - cbn [rounds] in H. rewrite erun_bind in H. destruct (erun (rounds n step st) s out) as [[[st1|r1] s1] out1] eqn:E1; apply IH in E1.
    + apply IH in H. rewrite double. destruct r as [st'|r]; [by eapply chain_app|].
      destruct H as (k & st2 & s2 & out2 & Hk & Hc & Hr). exists (2 ^ n + k)%nat, st2, s2, out2. split_and!; [lia|by eapply chain_app|done].
    + cbn [erun] in H. injection H as <- <- <-. destruct E1 as (k & st2 & s2 & out2 & Hk & Hc & Hr). exists k, st2, s2, out2. split_and!; [rewrite double; lia|done|done].
Qed.
End Loops.

Lemma chain_one {S R : Type} (step : S -> eprog (S + R)) st s out st' s' out' :
  erun (step st) s out = (inl st', s', out') -> chain step 1 st s out st' s' out'.
Proof. intros H. econstructor; [exact H|constructor]. Qed.

Lemma uid_nonempty uid : validRunUID uid = true -> uid <> "".
Proof. by intros H ->. Qed.

(** ** Stored frames *)

Section Stream.
Context (uid spec : string).
Let identity := identityDigestHex uid spec.

(** The store holds the line of the event [f] under its number. *)
Definition stored (s : objects) (seq : Z) (f : Envelope) (l : list Z) : Prop :=
  exists indexBody index,
    object_at s (indexKey uid identity seq) = Ok indexBody /\ decodeCanonicalObject indexBody MaxIndexBytes read_index = Ok index /\
    validateFrameIndex index = true /\ Index_IdentityDigest index = identity /\ Index_Seq index = seq /\
    object_at s (frameKey uid (LineDigest index)) = Ok l /\ digestBytes l = LineDigest index /\ slen l = Index_SizeBytes index /\
    0 < slen l <= maxFrameStorageBytes /\ has_newline l = true /\ parseStoredLine l = Ok f /\
    RunID f = uid /\ Seq f = seq /\ Kind f = KindEvent /\ canonicalLine f = Some l.

Lemma rebuild_round st s out r s' out' : erun (rebuild_step uid spec st) s out = (r, s', out') -> s' = s /\ out' = out /\
  match r with
  | inl st' => exists f l, stored s (rebuild_seq st) f l /\ Sequence_Accept (rebuild_sequence st) f = (true, rebuild_sequence st') /\
      Terminal f = false /\ rebuild_seq st' = rebuild_seq st + 1 /\ rebuild_stream st' = rebuild_stream st ++ l
  | inr (Ok e) => exists f l v, stored s (rebuild_seq st) f l /\ Sequence_Accept (rebuild_sequence st) f = (true, v) /\ Terminal f = true /\
      terminalType (Type_ f) = Some (end_terminal e) /\ terminalSummary f = Ok (end_summary e) /\
      object_at s (indexKey uid identity (rebuild_seq st + 1)) = Err ErrMissing /\
      end_stream e = rebuild_stream st ++ l /\ end_count e = rebuild_seq st /\ end_seq e = rebuild_seq st
  | inr (Err _) => True
  end.
Proof.
  unfold rebuild_step. fold identity. rewrite erun_bind, erun_get.
  destruct (object_at s (indexKey uid identity (rebuild_seq st))) as [body|e] eqn:E1; [|by destruct e; intros [= <- <- <-]].
  destruct (decodeCanonicalObject body MaxIndexBytes read_index) as [index|] eqn:E2; [|by intros [= <- <- <-]].
  destruct (_ || _) eqn:C1 in |- *; [by intros [= <- <- <-]|]. rewrite !orb_false_iff, !negb_false_iff, !bool_decide_eq_true, Z.eqb_eq in C1. destruct C1 as ((((Hv & Hid) & _) & _) & Hseq).
  rewrite erun_bind, erun_get. destruct (object_at s (frameKey uid (LineDigest index))) as [l|] eqn:E3; [|by intros [= <- <- <-]].
  destruct (_ || _) eqn:C2 in |- *; [by intros [= <- <- <-]|]. rewrite !orb_false_iff, !negb_false_iff, !bool_decide_eq_true, !Z.eqb_eq, Z.eqb_neq, Z.ltb_ge in C2.
  destruct C2 as ((((Hz & Hmax) & Hnl) & Hdig) & Hsize).
  destruct (parseStoredLine l) as [f|] eqn:E4; [|by intros [= <- <- <-]].
  destruct (_ || _) eqn:C3 in |- *; [by intros [= <- <- <-]|]. rewrite !orb_false_iff, !negb_false_iff, !bool_decide_eq_true, Z.eqb_eq in C3. destruct C3 as ((Hrun & Hfs) & Hk).
  destruct (Sequence_Accept (rebuild_sequence st) f) as [accepted v] eqn:E5. destruct accepted; cbn [negb]; [|by intros [= <- <- <-]].
  case_bool_decide as E6; cbn [negb]; [|by intros [= <- <- <-]]. destruct (_ <? _) in |- *; [by intros [= <- <- <-]|].
  assert (Hst : stored s (rebuild_seq st) f l) by (exists body, index; split_and!; try done; unfold slen in *; lia).
  destruct (Terminal f) eqn:Ht; cbn [negb]; [|intros [= <- <- <-]; split_and!; [done..|]; by exists f, l].
  destruct (terminalType (Type_ f)) as [kind|] eqn:E7, (terminalSummary f) as [summary|] eqn:E8; try by intros [= <- <- <-].
  rewrite erun_bind, erun_get. destruct (object_at s (indexKey uid identity (rebuild_seq st + 1))) as [|e] eqn:E9; [by intros [= <- <- <-]|].
  destruct e; try by intros [= <- <- <-]. intros [= <- <- <-]. split_and!; [done..|]. by exists f, l, v.
Qed.

Definition stored_all (s : objects) (fl : list (Envelope * list Z)) : Prop := forall i p, fl !! i = Some p -> stored s (Z.of_nat i + 1) p.1 p.2.
Notation lines fl := (concat (map snd fl)).

Lemma stored_all_snoc s fl f l : stored_all s fl -> stored s (slen fl + 1) f l -> stored_all s (fl ++ [(f, l)]).
Proof.
  intros Hall Hst i p [Hi|[Hge Hi]]%lookup_app_Some; [by apply Hall|]. apply list_lookup_singleton_Some in Hi as [Hi <-].
  replace i with (length fl) by lia. exact Hst.
Qed.
Lemma stored_all_run s fl : stored_all s fl -> Forall (fun f => RunID f = uid) (map fst fl).
Proof.
  intros H. apply Forall_map, Forall_forall. intros p [i Hi]%list_elem_of_lookup. apply H in Hi. by destruct Hi as (? & ? & ? & ? & ? & ? & ? & ? & ? & ? & ? & ? & ? & ? & ? & ?).
Qed.
Lemma lines_snoc (fl : list (Envelope * list Z)) f l : lines (fl ++ [(f, l)]) = lines fl ++ l.
Proof. rewrite map_app, concat_app. cbn. by rewrite app_nil_r. Qed.
Lemma slen_snoc {A : Type} (l : list A) x : slen (l ++ [x]) = slen l + 1.
Proof. unfold slen. rewrite length_app. cbn. lia. Qed.

Lemma rebuild_chain k : forall st s out s' out', chain (rebuild_step uid spec) k (MkRebuild 1 [] new_sequence) s out st s' out' -> s' = s /\ out' = out /\
  exists fl, length fl = k /\ stored_all s fl /\ accepts new_sequence (map fst fl) = Some (rebuild_sequence st) /\ rebuild_seq st = slen fl + 1 /\
    rebuild_stream st = lines fl.
Proof.
  induction k as [|k IH]; intros st s out s' out' H; [inversion H; subst; split_and!; [done..|]; by exists []|].
  rewrite <- Nat.add_1_r in H. apply chain_split in H as (st1 & s1 & out1 & H1 & H2). apply IH in H1 as (-> & -> & fl & Hl & Hall & Hacc & Hseq & Hstr).
  inversion H2 as [|? ? ? ? ? ? ? ? ? ? Hs Hc]; subst. inversion Hc; subst. apply rebuild_round in Hs as (-> & -> & f & l & Hst & Ha & _ & Hseq' & Hstr').
  split_and!; [done..|]. exists (fl ++ [(f, l)]). rewrite slen_snoc, lines_snoc, map_app, accepts_app, Hacc. cbn [mbind option_bind map accepts fst].
  rewrite Ha. rewrite Hseq in Hst. rewrite Hseq', Hseq, Hstr', Hstr. split_and!; [rewrite length_app; cbn; lia|by apply stored_all_snoc|done|done|done].
Qed.

Lemma rounds_bound n : (n < 2 ^ frame_bits)%nat <-> Z.of_nat n < maxStreamFrames.
Proof. rewrite Nat2Z.inj_lt, Nat2Z.inj_pow. reflexivity. Qed.

(** What the loop of [FinalizeObservedExit] ends with. *)
Lemma rebuild_end s out e s' out' : uid <> "" ->
  erun (rounds frame_bits (rebuild_step uid spec) (MkRebuild 1 [] new_sequence)) s out = (inr (Ok e), s', out') -> s' = s /\ out' = out /\
  exists fl f l, stored_all s (fl ++ [(f, l)]) /\ event_stream uid (map fst fl ++ [f]) /\ Terminal f = true /\ slen fl < maxStreamFrames /\
    terminalType (Type_ f) = Some (end_terminal e) /\ terminalSummary f = Ok (end_summary e) /\
    object_at s (indexKey uid identity (slen fl + 2)) = Err ErrMissing /\
    end_stream e = lines fl ++ l /\ end_count e = slen fl + 1 /\ end_seq e = slen fl + 1.
Proof.
  intros Hu H. apply rounds_inv in H as (k & st & s1 & out1 & Hk & Hc & Hs). apply rounds_bound in Hk. apply rebuild_chain in Hc as (-> & -> & fl & <- & Hall & Hacc & Hseq & Hstr).
  apply rebuild_round in Hs as (-> & -> & f & l & v & Hst & Ha & Ht & Hty & Hsum & Hnext & Hes & Hec & Heq). rewrite Hseq in *. rewrite Hstr in Hes.
  split_and!; [done..|]. exists fl, f, l. assert (Hall' : stored_all s (fl ++ [(f, l)])) by (by apply stored_all_snoc).
  pose proof (stored_all_run _ _ Hall') as Hrun. rewrite map_app in Hrun. cbn [map fst] in Hrun. change maxStreamFrames with (2 ^ 32) in *.
  assert (Hacc' : accepts new_sequence (map fst fl ++ [f]) = Some v) by (rewrite accepts_app, Hacc; cbn [mbind option_bind accepts]; by rewrite Ha).
  apply (accepts_stream uid) in Hacc' as [Hev _]; [|done|rewrite slen_snoc; unfold slen; rewrite length_map; lia|done].
  split_and!; try done. by replace (slen fl + 2) with (slen fl + 1 + 1) by lia.
Qed.

(** ** Replay *)

Lemma write_all l s out : erun (writeAll (length l) l) s out = (Ok tt, s, out ++ l).
Proof.
  destruct l as [|b l]; [cbn; by rewrite app_nil_r|]. cbn [length writeAll erun]. rewrite (proj2 (Z.leb_gt _ _)), Z.ltb_irrefl by (unfold slen; cbn [length]; lia).
  cbn [orb]. unfold slen at 1. rewrite Nat2Z.id, drop_all. by destruct (length l).
Qed.

Lemma replay_round m st s out f l : stored s (replay_seq st) f l -> replay_seq st <= FrameCount m -> Manifest_IdentityDigest m = identity ->
  Manifest_RunUID m = uid -> terminalSeen st = "" -> (Terminal f = true -> replay_seq st = FrameCount m) ->
  erun (replay_step uid m st) s out = (inl (MkReplay (replay_seq st + 1) (replay_stream st ++ l) (if Terminal f then Type_ f else "")
    (if Terminal f then replay_seq st else replay_terminalSeq st)), s, out ++ l).
Proof.
  intros (body & index & E1 & E2 & Hv & Hid & Hseq & E3 & Hdig & Hsize & Hlen & Hnl & E4 & Hrun & Hfs & Hk & Hcan) Hle Hmi Hmr Hts Hterm.
  unfold replay_step. rewrite (proj2 (Z.ltb_ge _ _)) by done. cbn [erun negb]. unfold read_frame, ethen. rewrite Hmi. fold identity.
  rewrite !erun_bind, erun_get, E1, E2, Hv, Hid, Hseq, Z.eqb_refl, bool_decide_eq_true_2 by done. cbn [negb orb].
  rewrite !erun_bind, erun_get, E3. cbn [erun]. rewrite (proj2 (Z.eqb_neq _ _)), (proj2 (Z.ltb_ge _ _)), Hnl, Hdig, bool_decide_eq_true_2 by (done || lia). cbn [negb orb].
  unfold stored_frame. rewrite E4, Hrun, Hmr, Hfs, Hk, Hcan, Hsize, !Z.eqb_refl. change (bool_decide (KindEvent = "event")) with true.
  rewrite !bool_decide_eq_true_2 by done. cbn [negb orb]. rewrite Hts. change (bool_decide ("" = "")) with true. cbn [negb].
  destruct (Terminal f); cbn [andb]; [rewrite Hterm, Z.eqb_refl by done; cbn [negb]|]; by rewrite erun_bind, write_all.
Qed.

Lemma replay_chain m s out fl : stored_all s fl -> slen fl <= FrameCount m -> Manifest_IdentityDigest m = identity -> Manifest_RunUID m = uid ->
  Forall (fun p => Terminal p.1 = false) fl ->
  chain (replay_step uid m) (length fl) (MkReplay 1 [] "" 0) s out (MkReplay (slen fl + 1) (lines fl) "" 0) s (out ++ lines fl).
Proof.
  intros Hall Hle Hmi Hmr. induction fl as [|[f l] fl IH] using rev_ind; intros Hnt; [cbn; rewrite app_nil_r; constructor|].
  apply Forall_app in Hnt as [Hnt Hf]. rewrite Forall_singleton in Hf. cbn [fst] in Hf. rewrite slen_snoc in Hle. rewrite length_app, lines_snoc, slen_snoc.
  assert (Hst : stored s (slen fl + 1) f l) by (apply (Hall (length fl) (f, l)); by rewrite lookup_app_r, Nat.sub_diag).
  eapply chain_app; [apply IH; [|lia|done]|]; [intros i p Hi; apply Hall; by apply lookup_app_l_Some|].
  apply chain_one. rewrite (replay_round m _ s _ f l); [|done|cbn [replay_seq]; lia|done..|congruence]. cbn [replay_seq replay_stream replay_terminalSeq]. by rewrite Hf, <- app_assoc.
Qed.

Lemma terminal_kind t kind : terminalType t = Some kind -> kind = t /\ validTerminalType t = true /\ t <> "".
Proof. unfold terminalType. repeat (case_bool_decide as E; [intros [= <-]; subst t; split_and!; [reflexivity|reflexivity|discriminate]|clear E]). done. Qed.

(** The loop of [WriteJSONL] on a stored stream. *)
Lemma replay_end m s out fl f l : stored_all s (fl ++ [(f, l)]) -> FrameCount m = slen fl + 1 -> slen fl < maxStreamFrames ->
  Manifest_IdentityDigest m = identity -> Manifest_RunUID m = uid -> Forall (fun p => Terminal p.1 = false) fl -> Terminal f = true -> Type_ f <> "" ->
  exists r, erun (rounds frame_bits (replay_step uid m) (MkReplay 1 [] "" 0)) s out = (r, s, out ++ lines fl ++ l) /\
    match r with inl st => Ok st | inr r => r end = Ok (MkReplay (slen fl + 2) (lines fl ++ l) (Type_ f) (slen fl + 1)).
Proof.
  intros Hall Hc Hlt Hmi Hmr Hnt Ht Hty.
  assert (Hst : stored s (slen fl + 1) f l) by (apply (Hall (length fl) (f, l)); by rewrite lookup_app_r, Nat.sub_diag).
  assert (Hch : chain (replay_step uid m) (length fl + 1) (MkReplay 1 [] "" 0) s out (MkReplay (slen fl + 2) (lines fl ++ l) (Type_ f) (slen fl + 1)) s (out ++ lines fl ++ l)).
  { eapply chain_app; [apply (replay_chain m s out fl); [|lia|done..]|]; [intros i p Hi; apply Hall; by apply lookup_app_l_Some|].
    apply chain_one. rewrite (replay_round m _ s _ f l); [|done|cbn [replay_seq]; lia|done..]. cbn [replay_seq replay_stream]. rewrite Ht, <- app_assoc. by replace (slen fl + 1 + 1) with (slen fl + 2) by lia. }
  destruct (decide (length fl + 1 < 2 ^ frame_bits)%nat) as [Hl|Hl].
  - exists (inr (Ok (MkReplay (slen fl + 2) (lines fl ++ l) (Type_ f) (slen fl + 1)))). split; [|done]. eapply rounds_stop; [exact Hl|exact Hch|].
    unfold replay_step. cbn [replay_seq]. rewrite (proj2 (Z.ltb_lt _ _)) by lia. done.
  - assert (E : (length fl + 1 = 2 ^ frame_bits)%nat) by (apply rounds_bound in Hlt; lia). rewrite E in Hch. eexists. split; [by apply rounds_full|done].
Qed.

(** ** Completion *)

Lemma key_parts key : CompletionKey uid spec = Ok key ->
  validRunUID uid = true /\ ValidDigest spec = true /\ key = runPrefix uid +:+ "/runtime-events/completions/" +:+ identity +:+ ".json".
Proof. unfold CompletionKey. destruct (_ || _) eqn:E in |- *; [done|]. rewrite orb_false_iff, !negb_false_iff in E. destruct E. by intros [= <-]. Qed.

(** The keys of the parts of a stream are apart. *)
Lemma index_stream_key seq d : indexKey uid identity seq <> streamKey uid d.
Proof. by intros H%(inj (String.append _)). Qed.
Lemma frame_stream_key d d' : frameKey uid d <> streamKey uid d'.
Proof. by intros H%(inj (String.append _)). Qed.
Lemma index_completion_key seq key : CompletionKey uid spec = Ok key -> indexKey uid identity seq <> key.
Proof. intros (_ & _ & ->)%key_parts H%(inj (String.append _)). done. Qed.
Lemma frame_completion_key d key : CompletionKey uid spec = Ok key -> frameKey uid d <> key.
Proof. intros (_ & _ & ->)%key_parts H%(inj (String.append _)). done. Qed.
Lemma stream_completion_key d key : CompletionKey uid spec = Ok key -> streamKey uid d <> key.
Proof. intros (_ & _ & ->)%key_parts H%(inj (String.append _)). done. Qed.

Lemma object_insert s key key' body : key <> key' -> object_at (<[key' := body]> s) key = object_at s key.
Proof. intros H. unfold object_at. by rewrite lookup_insert_ne. Qed.

Lemma finalize_run base e s out record s' out' : erun (finalize uid spec base e) s out = (Ok record, s', out') ->
  let skey := streamKey uid (digestBytes (end_stream e)) in
  out' = out /\ record = end_record uid spec base (uri_of skey) e /\
  exists mbody rbody key, CompletionKey uid spec = Ok key /\ canonicalManifest (end_manifest uid spec e) = Ok mbody /\ canonicalRecord record = Ok rbody /\
    slen mbody <= MaxManifestBytes /\ slen rbody <= MaxCompletionBytes /\ validateGeneratedKey skey = true /\ validateGeneratedKey key = true /\
    s' = <[key := rbody]> (<[skey := mbody]> s).
Proof.
  intros H skey. revert H. unfold finalize. destruct (canonicalManifest _) as [mbody|] eqn:Hm; [|done]. unfold ethen. rewrite erun_bind. fold skey.
  destruct (erun (putImmutable skey _ _ _) s out) as [[[uri|] s1] out1] eqn:E1; [|done]. apply erun_put in E1 as (-> & -> & _ & Hk1 & Hl1 & -> & _).
  destruct (canonicalRecord _) as [rbody|] eqn:Hr; [|done]. destruct (CompletionKey uid spec) as [key|] eqn:Hk; [|done]. rewrite erun_bind.
  destruct (erun (putImmutable key _ _ _) _ out) as [[[uri|] s2] out2] eqn:E2; [|done]. apply erun_put in E2 as (-> & _ & _ & Hk2 & Hl2 & -> & _).
  intros [= <- <- <-]. split_and!; [done..|]. exists mbody, rbody, key. split_and!; try done; lia.
Qed.

Lemma stored_kept key body s seq f l : (forall seq, indexKey uid identity seq <> key) -> (forall d, frameKey uid d <> key) ->
  stored s seq f l -> stored (<[key := body]> s) seq f l.
Proof. intros Hi Hf (b & index & E1 & E2 & H1 & H2 & H3 & E3 & H). exists b, index. by rewrite !object_insert. Qed.

(** The record is found again. *)
Lemma load_record s out key body record : CompletionKey uid spec = Ok key -> validateGeneratedKey key = true -> s !! key = Some body ->
  decodeCanonicalObject body MaxCompletionBytes read_completion = Ok record -> validateCompletion record = true ->
  Completion_RunUID record = uid -> Completion_SpecDigest record = spec -> erun (LoadCompletion uid spec) s out = (Ok record, s, out).
Proof.
  intros Hk Hg Hb Hd Hv Hr Hs. unfold LoadCompletion, ethen. rewrite Hk, erun_bind, erun_get, (proj2 (object_found _ _ _) (conj Hg Hb)). cbn [erun].
  rewrite Hd, Hv, Hr, Hs, !bool_decide_eq_true_2 by done. done.
Qed.

(** The stream is found again. *)
Lemma write_stream s out e body uri fl f l : let skey := streamKey uid (digestBytes (end_stream e)) in
  canonicalManifest (end_manifest uid spec e) = Ok body -> slen body <= MaxManifestBytes -> validateGeneratedKey skey = true -> s !! skey = Some body ->
  validRunUID uid = true -> validateArtifactRef (stream_ref uri e) = true -> stored_all s (fl ++ [(f, l)]) -> Forall (fun p => Terminal p.1 = false) fl ->
  Terminal f = true -> slen fl < maxStreamFrames -> end_terminal e = Type_ f -> Type_ f <> "" -> end_stream e = lines fl ++ l ->
  end_count e = slen fl + 1 -> end_seq e = slen fl + 1 ->
  erun (WriteJSONL uid (stream_ref uri e)) s out =
    (Ok (MkInfo uid spec (slen fl + 1) (slen (lines fl ++ l)) (digestBytes (lines fl ++ l)) (Type_ f) (slen fl + 1)), s, out ++ lines fl ++ l).
Proof.
  intros skey Hm Hl Hg Hb Hu Ha Hall Hnt Ht Hlt Hty Hne Hes Hec Heq. unfold WriteJSONL, ethen. rewrite Hu, Ha. cbn [negb stream_ref Digest_ SizeBytes]. fold skey.
  rewrite erun_bind, erun_get, (proj2 (object_found _ _ _) (conj Hg Hb)).
  rewrite (stream_manifest_reads _ _ Hm) by (cbn [end_manifest FrameCount Manifest_SizeBytes]; unfold slen in *; lia).
  unfold canonicalManifest in Hm. destruct (validateManifest _) eqn:Hv; [|done]. cbn [negb end_manifest Manifest_RunUID StreamDigest Manifest_SizeBytes orb].
  rewrite Z.eqb_refl, !bool_decide_eq_true_2 by done. cbn [negb orb]. rewrite erun_bind. fold (end_manifest uid spec e).
  destruct (replay_end (end_manifest uid spec e) s out fl f l) as (r & Hr & Hres); [done..|]. rewrite Hr. cbn [erun]. rewrite Hres.
  cbn [result_bind terminalSeen replay_terminalSeq replay_stream end_manifest Manifest_TerminalSeq Manifest_TerminalType Manifest_SizeBytes StreamDigest Manifest_RunUID Manifest_SpecDigest FrameCount].
  rewrite Hes, Heq, Hec, Hty, !Z.eqb_refl, (bool_decide_eq_false_2 _ Hne), !bool_decide_eq_true_2 by done. done.
Qed.
End Stream.
End Run.

Notation lines fl := (concat (map snd fl)).

Lemma run_terminals uid fl f : event_stream uid (map fst fl ++ [f]) -> Forall (fun p : Envelope * list Z => Terminal p.1 = false) fl.
Proof.
  intros H. apply Forall_forall. intros p [i Hi]%list_elem_of_lookup. destruct (Terminal p.1) eqn:Ht; [|done]. exfalso.
  assert (Hl : (map fst fl ++ [f]) !! i = Some p.1) by (apply lookup_app_l_Some; by rewrite list_lookup_fmap, Hi).
  pose proof (es_terminal _ _ H i _ Hl Ht) as E. rewrite length_app, length_map in E. cbn in E. apply lookup_lt_Some in Hi. lia.
Qed.
Lemma stored_canonical uid spec s fl : stored_all uid spec s fl -> Forall (fun p => canonicalLine p.1 = Some p.2) fl.
Proof.
  intros H. apply Forall_forall. intros p [i Hi]%list_elem_of_lookup. apply H in Hi. by destruct Hi as (? & ? & ? & ? & ? & ? & ? & ? & ? & ? & ? & ? & ? & ? & ? & ? & ?).
Qed.

(** What [FinalizeObservedExit] does when it succeeds without a record before. *)
Lemma finalize_exit uri_of uid spec base exit s out record s' out' key : CompletionKey uid spec = Ok key -> s !! key = None ->
  erun uri_of (FinalizeObservedExit uid spec base exit) s out = (Ok record, s', out') ->
  out' = out /\ isValidSpecDigest spec = true /\ validBaseSHA base = true /\ exists fl f l e,
    stored_all uid spec s (fl ++ [(f, l)]) /\ event_stream uid (map fst fl ++ [f]) /\ Terminal f = true /\ slen fl < maxStreamFrames /\
    terminalType (Type_ f) = Some (end_terminal e) /\ terminalSummary f = Ok (end_summary e) /\
    end_stream e = lines fl ++ l /\ end_count e = slen fl + 1 /\ end_seq e = slen fl + 1 /\ (end_terminal e = TerminalCompleted -> Code exit = 0) /\
    erun uri_of (finalize uid spec base e) s out = (Ok record, s', out').
Proof.
  intros Hk Hn. unfold FinalizeObservedExit. destruct (_ || _) eqn:C in |- *; [done|]. rewrite !orb_false_iff, !negb_false_iff in C. destruct C as (((Hu & Hsp) & Hba) & _).
  cbn [erun negb]. rewrite erun_bind.
  unfold LoadCompletion, ethen. rewrite Hk, erun_bind, erun_get. unfold object_at. rewrite Hn. destruct (validateGeneratedKey key); [|done]. cbn [erun].
  rewrite erun_bind. destruct (erun uri_of (rounds _ _ _) s out) as [[[st|[e|]] s1] out1] eqn:E; [done| |done].
  apply rebuild_end in E as (-> & -> & fl & f & l & Hall & Hev & Ht & Hlt & Hty & Hsum & _ & Hes & Hec & Heq); [|by apply uid_nonempty].
  destruct (_ && _) eqn:C in |- *; [done|]. intros Hf. pose proof Hf as Hf'. apply finalize_run in Hf' as [-> _]. split_and!; [done..|].
  exists fl, f, l, e. split_and!; try done. intros Hc. rewrite Hc in C. change (bool_decide (TerminalCompleted = TerminalCompleted)) with true in C. cbn [andb] in C.
  by apply negb_false_iff, Z.eqb_eq in C.
Qed.

(** C10. On a store that answers, a completion that [FinalizeObservedExit] creates
    is a stream that can be read back: the record is loaded unchanged, every later
    finalisation with a known exit returns it, and the stored lines are those of
    events of the run numbered from one, started by the first and ended by the
    last, whose type, number and summary the record holds; a run is completed only
    with exit code zero.  [WriteJSONL] of the reference in the record writes exactly
    these lines and reports their number, size and digest. *)
Theorem completion_replays uri_of uid spec base exit s out record s' out' key : CompletionKey uid spec = Ok key -> s !! key = None ->
  erun uri_of (FinalizeObservedExit uid spec base exit) s out = (Ok record, s', out') ->
  out' = out /\ erun uri_of (LoadCompletion uid spec) s' out = (Ok record, s', out) /\
  (forall exit', Known exit' = true -> erun uri_of (FinalizeObservedExit uid spec base exit') s' out = (Ok record, s', out)) /\
  exists fl f l, stored_all uid spec s (fl ++ [(f, l)]) /\ event_stream uid (map fst fl ++ [f]) /\ Terminal f = true /\
    Completion_TerminalType record = Type_ f /\ Completion_TerminalSeq record = Seq f /\ terminalSummary f = Ok (Summary record) /\
    (Type_ f = EventRunCompleted -> Code exit = 0) /\
    erun uri_of (WriteJSONL uid (EventStream record)) s' out =
      (Ok (MkInfo uid spec (slen fl + 1) (slen (lines fl ++ l)) (digestBytes (lines fl ++ l)) (Type_ f) (slen fl + 1)), s', out ++ lines fl ++ l).
Proof.
  intros Hk Hn H. apply (finalize_exit _ _ _ _ _ _ _ _ _ _ key) in H as (-> & Hsp & Hba & fl & f & l & e & Hall & Hev & Ht & Hlt & Hty & Hsum & Hes & Hec & Heq & Hcode & Hf); [|done..].
  apply finalize_run in Hf as (_ & Hrec & mbody & rbody & key' & Hk' & Hm & Hr & Hlm & Hlr & Hgs & Hgk & Hs'). rewrite Hk in Hk'. injection Hk' as <-.
  destruct (terminal_kind _ _ Hty) as (Hkind & _ & Hne). destruct (key_parts _ _ _ Hk) as (Hu & _ & _).
  assert (Hseq : Seq f = slen fl + 1).
  { rewrite (es_seq _ _ Hev (length fl) f); [done|]. by rewrite lookup_app_r, length_map, Nat.sub_diag by (by rewrite length_map). }
  assert (Hvalid : validateCompletion record = true) by (unfold canonicalRecord in Hr; by destruct (validateCompletion record)).
  assert (Hload : forall out, erun uri_of (LoadCompletion uid spec) s' out = (Ok record, s', out)).
  { intros o. apply (load_record _ _ _ _ _ key rbody); [done|done|by rewrite Hs', lookup_insert_eq| |done|by rewrite Hrec|by rewrite Hrec].
    rewrite Hrec in Hr |- *. apply completion_reads; [done| |done]. change maxStreamFrames with (2 ^ 32) in Hlt. unfold slen in *. lia. }
  split_and!; [done|apply Hload| |].
  - intros exit' Hx. unfold FinalizeObservedExit. rewrite Hu, Hsp, Hba, Hx. cbn [negb orb erun]. rewrite erun_bind, Hload, Hrec. cbn [Completion_BaseSHA end_record erun].
    by rewrite bool_decide_eq_true_2.
  - exists fl, f, l. rewrite Hrec. cbn [Completion_TerminalType Completion_TerminalSeq Summary EventStream end_record].
    split_and!; [done..|by rewrite Heq|done|by intros E; apply Hcode; rewrite Hkind, E|]. fold (stream_ref (uri_of (streamKey uid (digestBytes (end_stream e)))) e).
    apply (write_stream _ _ _ _ _ _ mbody); try done; [|unfold validateCompletion in Hvalid; rewrite !andb_true_iff, Hrec in Hvalid; by destruct_and! Hvalid| |by eapply run_terminals].
    + rewrite Hs', lookup_insert_ne, lookup_insert_eq; [done|]. intros E. by apply (stream_completion_key _ _ (digestBytes (end_stream e)) _ Hk).
    + intros i p Hi%Hall. rewrite Hs'.
      apply stored_kept; [by intros; apply index_completion_key|by intros; apply (frame_completion_key uid spec)|].
      apply stored_kept; [intros; apply index_stream_key|intros; apply frame_stream_key|done].
Qed.
