(* ===== verification/RuntimeRecovery.v ===== *)
(** * Runtime events: what a collector keeps, integrity of replay, and recovery

    Any history of calls of a collector, with every answer of the context and of
    the object store: the events it has accepted, what it has stored of them, its
    window and its completion record.  A replay that succeeds has written the
    referenced stream whatever the store answered; and a stream whose collector is
    gone is completed from the store with the record that the collector would have
    written. *)

From S2P Require Import Prelude Order GoStrings Digest Digits GoTime GoJson Unmarshal StrictJson RawJson RuntimeProto RuntimeEvents RuntimeReplay.
Local Open Scope go_scope.
Local Open Scope string_scope.
Local Open Scope Z_scope.
Local Open Scope list_scope.

(** ** Runs with any answers *)

Inductive request : Type :=
| RContext (alive : bool)
| RPut (key : string) (body : list Z) (r : option (bool * string))
| RGet (key : string) (r : result get_error (list Z))
| RWrite (body : list Z) (r : option Z).

Inductive runs {A : Type} : eprog A -> list request -> A -> Prop :=
| runs_ret a : runs (ERet a) [] a
| runs_context k r t a : runs (k r) t a -> runs (EContext k) (RContext r :: t) a
| runs_put key body ct k r t a : runs (k r) t a -> runs (EPut key body ct k) (RPut key body r :: t) a
| runs_get key k r t a : runs (k r) t a -> runs (EGet key k) (RGet key r :: t) a
| runs_write body k r t a : runs (k r) t a -> runs (EWrite body k) (RWrite body r :: t) a.

Lemma runs_bind {A B : Type} (m : eprog A) (f : A -> eprog B) t b : runs (ebind m f) t b ->
  exists t1 t2 a, t = t1 ++ t2 /\ runs m t1 a /\ runs (f a) t2 b.
Proof.
  revert t. induction m as [a|k IH|key body ct k IH|key k IH|body k IH]; intros t H; cbn [ebind] in H; [by exists [], t, a; split_and!; [|constructor|]| | | |];
    inversion H as [|? r t' ? Hr|? ? ? ? r t' ? Hr|? ? r t' ? Hr|? ? r t' ? Hr]; subst; apply IH in Hr as (t1 & t2 & a & -> & H1 & H2);
    eexists (_ :: t1), t2, a; split_and!; [done|by constructor|done|done|by constructor|done|done|by constructor|done|done|by constructor|done].
Qed.
Lemma runs_ret_inv {A : Type} (a b : A) t : runs (ERet a) t b -> t = [] /\ b = a.
Proof. by inversion 1. Qed.

(** The store has said that it holds [body] under the valid [key]: it created the
    object, or it had one and gave it back. *)
Definition confirmed (t : list request) (key : string) (body : list Z) : Prop :=
  validateGeneratedKey key = true /\
  ((exists uri, RPut key body (Some (true, uri)) ∈ t) \/ ((exists uri, RPut key body (Some (false, uri)) ∈ t) /\ RGet key (Ok body) ∈ t)).

Lemma confirmed_l t t' key body : confirmed t key body -> confirmed (t ++ t') key body.
Proof. intros [Hk [[uri H]|[[uri H] H']]]; (split; [done|]); [left|right; split]; try exists uri; apply elem_of_app; by left. Qed.
Lemma confirmed_r t t' key body : confirmed t' key body -> confirmed (t ++ t') key body.
Proof. intros [Hk [[uri H]|[[uri H] H']]]; (split; [done|]); [left|right; split]; try exists uri; apply elem_of_app; by right. Qed.
#[export] Hint Resolve confirmed_l confirmed_r : core.

Lemma put_confirms key body ct maxBytes t uri : runs (putImmutable key body ct maxBytes) t (Ok uri) ->
  confirmed t key body /\ 0 < slen body <= maxBytes /\ safeURI uri = true.
Proof.
  unfold putImmutable. destruct (_ || _) eqn:C in |- *; [by intros [_ ?]%runs_ret_inv|]. rewrite !orb_false_iff, negb_false_iff, Z.eqb_neq, Z.ltb_ge in C. destruct C as [[Hk Hz] Hl].
  assert (Hb : 0 < slen body <= maxBytes) by (unfold slen in *; lia).
  intros H. inversion H as [| |? ? ? ? r t' ? Hr| |]; subst. destruct r as [[created u]|]; [|by apply runs_ret_inv in Hr as [_ ?]].
  destruct (safeURI u) eqn:Hu; cbn [negb] in Hr; [|by apply runs_ret_inv in Hr as [_ ?]]. destruct created.
  - apply runs_ret_inv in Hr as [-> [= ->]]. split; [|done]. split; [done|]. left. exists u. set_solver.
  - inversion Hr as [| | |? ? g t'' ? Hg|]; subst. apply runs_ret_inv in Hg as [-> Hg]. destruct g as [existing|]; [|done].
    case_bool_decide as E; [|done]. subst existing. injection Hg as ->. split; [|done]. split; [done|]. right. split; [exists u|]; set_solver.
Qed.

(** ** The window *)

Definition projection_of (p : Envelope * list Z) : FrameProjection := MkProjection (Seq p.1) (Type_ p.1) (slen p.2) (Terminal p.1).
Definition window_size (w : list FrameProjection) : Z := foldr (fun p n => Projection_Bytes p + n) 0 w.

Lemma shrink_spec maxFrames maxBytes : forall w size w' size', 0 <= maxFrames -> 0 <= maxBytes -> size = window_size w -> shrink maxFrames maxBytes w size = (w', size') ->
  w' `suffix_of` w /\ size' = window_size w' /\ slen w' <= maxFrames /\ window_size w' <= maxBytes.
Proof.
  induction w as [|p w IH]; intros size w' size' Hf Hb -> H; cbn [shrink] in H; [injection H as <- <-; split_and!; [done|done|unfold slen; cbn; lia|cbn; lia]|].
  destruct (_ || _) eqn:C in H.
  - apply IH in H as (Hs & -> & Hl & Hz); [|done..|cbn [window_size foldr]; fold (window_size w); lia]. split_and!; [|done..]. by apply suffix_cons_r.
  - injection H as <- <-. rewrite orb_false_iff, !Z.ltb_ge in C. by destruct C.
Qed.
Lemma window_size_app w w' : window_size (w ++ w') = window_size w + window_size w'.
Proof. induction w as [|p w IH]; [done|]. cbn [app window_size foldr] in *. fold (window_size (w ++ w')) (window_size w). lia. Qed.

(** ** The invariant *)

(** The event and the line that a call has added. *)
Definition added (config : collector_config) (c : collector) (line : list Z) (c' : collector) : list (Envelope * list Z) :=
  if acceptedFrames c' =? acceptedFrames c then [] else match prepare_line config c line with (Ok p, _) => [p] | _ => [] end.

(** A collector, the requests made, the exits reported and the events accepted. *)
Inductive reached (config : collector_config) : collector -> list request -> list ProcessExit_ -> list (Envelope * list Z) -> Prop :=
| reached_new runUID specDigest baseSHA options c : NewCollector runUID specDigest baseSHA options = Ok (config, c) -> reached config c [] [] []
| reached_accept c t exits fl line t' e c' : reached config c t exits fl -> runs (Accept config c line) t' (e, c') ->
    reached config c' (t ++ t') exits (fl ++ added config c line c')
| reached_exit c t exits fl exit t' r c' : reached config c t exits fl -> runs (ProcessExit config c exit) t' (r, c') ->
    reached config c' (t ++ t') (exits ++ [exit]) fl.

Section Collector.
Context (config : collector_config).
Notation uid := (c_runUID config).
Notation spec := (c_specDigest config).
Notation lines fl := (concat (map snd fl)).

Record config_ok : Prop := {
  config_uid : validRunUID uid = true;
  config_spec : isValidSpecDigest spec = true;
  config_base : validBaseSHA (c_baseSHA config) = true;
  config_frames : 1 <= c_windowMax config <= maxWindowFrames;
  config_bytes : 1 <= c_windowByte config <= maxWindowBytes
}.

(** The line and its index are stored. *)
Definition durable (t : list request) (seq : Z) (l : list Z) : Prop :=
  confirmed t (frameKey uid (digestBytes l)) l /\ 0 < slen l <= maxFrameStorageBytes /\
  exists body, canonicalIndex (frame_index config seq l) = Ok body /\ confirmed t (indexKey uid (identityDigestHex uid spec) seq) body /\
    slen body <= MaxIndexBytes.

(** The terminal event of a collector is the last one. *)
Definition terminal_event (c : collector) (frames : list Envelope) : Prop :=
  exists f, last frames = Some f /\ Terminal f = true /\ terminalType (Type_ f) = Some (c_terminalType c) /\ c_terminalSeq c = Seq f /\
    terminalSummary f = Ok (terminalSum c).

(** The record describes the whole stream, and it and its manifest are stored. *)
Definition completed (c : collector) (t : list request) (exits : list ProcessExit_) (record : CompletionRecord) : Prop :=
  processExited c = true /\ c_terminalType c <> "" /\
  (exists exit, exit ∈ exits /\ Known exit = true /\ (c_terminalType c = TerminalCompleted -> Code exit = 0)) /\
  exists uri manifest body key, record = end_record uid spec (c_baseSHA config) uri (collector_end c) /\
    canonicalManifest (end_manifest uid spec (collector_end c)) = Ok manifest /\ canonicalRecord record = Ok body /\ CompletionKey uid spec = Ok key /\
    confirmed t (streamKey uid (digestBytes (streamHash c))) manifest /\ confirmed t key body.

Record collector_inv (c : collector) (t : list request) (exits : list ProcessExit_) (fl : list (Envelope * list Z)) : Prop := {
  inv_stream : event_stream uid (map fst fl);
  inv_lines : Forall (fun p => canonicalLine p.1 = Some p.2) fl;
  inv_durable : forall i p, fl !! i = Some p -> durable t (Z.of_nat i + 1) p.2;
  inv_counts : nextSeq c = slen fl + 1 /\ acceptedFrames c = slen fl /\ acceptedBytes c = slen (lines fl) /\ streamHash c = lines fl;
  inv_bounds : slen fl <= maxStreamFrames /\ slen (lines fl) <= MaxStreamBytes;
  inv_window : window c `suffix_of` map projection_of fl /\ windowSize c = window_size (window c) /\ slen (window c) <= c_windowMax config /\
    windowSize c <= c_windowByte config;
  inv_sequence : fatal c = None -> sequence c = sequence_after uid (map fst fl);
  inv_terminal : (c_terminalType c <> "" -> terminal_event c (map fst fl)) /\ (c_terminalType c = "" -> fatal c = None -> ends_run (map fst fl) = false);
  inv_completion : forall record, completion c = Some record -> completed c t exits record
}.

Lemma durable_l t t' seq l : durable t seq l -> durable (t ++ t') seq l.
Proof. intros (H & Hl & body & Hb & H' & Hs). split_and!; auto; [lia..|]. exists body. auto. Qed.
Lemma durable_r t t' seq l : durable t' seq l -> durable (t ++ t') seq l.
Proof. intros (H & Hl & body & Hb & H' & Hs). split_and!; auto; [lia..|]. exists body. auto. Qed.
Lemma completed_l c t t' exits exits' record : completed c t exits record -> completed c (t ++ t') (exits ++ exits') record.
Proof.
  intros (H1 & H2 & (exit & Hin & H3) & uri & m & b & key & H). split_and!; [done|done|exists exit; split; [set_solver|done]|].
  exists uri, m, b, key. destruct H as (? & ? & ? & ? & ? & ?). split_and!; auto.
Qed.

(** More requests and a change of the error state. *)
Lemma inv_grow c t exits fl t' exits' : collector_inv c t exits fl -> collector_inv c (t ++ t') (exits ++ exits') fl.
Proof. intros [H1 H2 H3 H4 H5 H6 H7 H8 H9]. split; try done; [intros i p Hi; by apply durable_l, H3|intros record Hr; by apply completed_l, H9]. Qed.
Lemma inv_rejected c t exits fl v e r c' : collector_inv c t exits fl -> rejectLocked (set_sequence c v) e = (r, c') -> collector_inv c' t exits fl.
Proof.
  intros [H1 H2 H3 H4 H5 H6 H7 H8 H9]. unfold rejectLocked. destruct (fatal (set_sequence c v)) as [e'|] eqn:E; intros [= <- <-]; cbn [fatal set_sequence] in E.
  - split; try done. intros Hn. cbn in Hn. congruence.
  - split; try done. split; [apply H8|done].
Qed.
Lemma set_sequence_same c : set_sequence c (sequence c) = c.
Proof. by destruct c. Qed.

Lemma redaction_keeps frame hook f : ApplyRedaction frame (Some hook) = Ok f -> ValidateEnvelope f = true /\ exists data, f = with_data frame data.
Proof.
  unfold ApplyRedaction. destruct (ValidateEnvelope frame); cbn [negb]; [|done]. destruct (redactValue _ _ _ _) as [data|]; [|done]. cbn [result_bind].
  destruct (_ <? _) in |- *; [done|]. destruct (ValidateEnvelope (with_data frame data)) eqn:E; [|done]. intros [= <-]. split; [done|]. by exists data.
Qed.

(** A prepared line is the next event of the stream. *)
Lemma prepare_spec c line r c' frames : uid <> "" -> slen frames + 1 < 2 ^ 64 -> event_stream uid frames -> sequence c = sequence_after uid frames ->
  prepare_line config c line = (r, c') -> exists v, c' = set_sequence c v /\
  match r with
  | Err _ => True
  | Ok (f, l) => v = sequence_after uid (frames ++ [f]) /\ event_stream uid (frames ++ [f]) /\ canonicalLine f = Some l /\ slen l <= maxFrameStorageBytes /\
      acceptedBytes c + slen l <= MaxStreamBytes
  end.
Proof.
  intros Hu Hl Hev Hseq. unfold prepare_line. destruct (ParseLine line) as [frame|]; [|intros [= <- <-]; exists (sequence c); by rewrite set_sequence_same].
  case_bool_decide as Hk; cbn [negb]; [|intros [= <- <-]; exists (sequence c); by rewrite set_sequence_same].
  case_bool_decide as Hr; cbn [negb]; [|intros [= <- <-]; exists (sequence c); by rewrite set_sequence_same]. rewrite Hseq.
  pose proof (sequence_step uid frames frame Hu Hl (fun _ _ => Hr)) as Hstep. pose proof (sequence_moves uid frames frame Hu (fun _ => Hr)) as Hmove.
  destruct (Sequence_Accept (sequence_after uid frames) frame) as [accepted v]. cbn [fst snd] in *.
  destruct accepted; cbn [negb]; [|intros [= <- <-]; by exists v]. destruct (proj1 Hstep eq_refl) as (He & _ & _ & _ & Hq & Ht). rewrite (Hmove eq_refl Hl).
  destruct (ApplyRedaction frame _) as [f|] eqn:Ha; [|intros [= <- <-]; by eexists]. apply redaction_keeps in Ha as [Hv [data ->]]. cbn [RunID with_data].
  rewrite (bool_decide_eq_true_2 _ Hr). cbn [negb]. destruct (canonicalLine _) as [l|] eqn:Hc; [|intros [= <- <-]; by eexists].
  destruct (Z.ltb_spec maxFrameStorageBytes (slen l)); [intros [= <- <-]; by eexists|].
  destruct (Z.ltb_spec (MaxStreamBytes - slen l) (acceptedBytes (set_sequence c (sequence_after uid (frames ++ [frame]))))) as [|Hb]; intros [= <- <-]; eexists; (split; [done|]); [done|].
  cbn [acceptedBytes set_sequence] in Hb. split_and!; [by rewrite !sequence_after_snoc| |done|done|lia]. apply stream_snoc; try done.
Qed.

(** The part of a collector that counts. *)
Definition kept (c : collector) := (window c, windowSize c, (nextSeq c, acceptedFrames c, acceptedBytes c, streamHash c), completion c).

Lemma append_window c t exits fl f l : config_ok -> collector_inv c t exits fl -> let c' := append_frame config c f l in
  window c' `suffix_of` map projection_of (fl ++ [(f, l)]) /\ windowSize c' = window_size (window c') /\ slen (window c') <= c_windowMax config /\
  windowSize c' <= c_windowByte config.
Proof.
  intros Hok H c'. destruct (inv_window _ _ _ _ H) as (Hs & Hz & _ & _). pose proof (config_frames Hok) as Hf. pose proof (config_bytes Hok) as Hb. unfold c', append_frame, appendProjectionLocked. cbn [Projection_Bytes].
  destruct (Z.ltb_spec (c_windowByte config) (slen l)); [cbn; split_and!; [apply suffix_nil|done|unfold slen; cbn; lia|lia]|].
  destruct (shrink _ _ _ _) as [w size] eqn:E. apply shrink_spec in E as (H1 & -> & H2 & H3); [|lia|lia|rewrite window_size_app, Hz; cbn; lia]. cbn [window windowSize].
  split_and!; [|done..]. etransitivity; [exact H1|]. rewrite map_app. by apply suffix_app.
Qed.

Lemma inv_append c t exits fl t' f l c' : config_ok -> collector_inv c t exits fl -> completion c = None -> event_stream uid (map fst fl ++ [f]) ->
  canonicalLine f = Some l -> durable t' (slen fl + 1) l -> slen fl + 1 <= maxStreamFrames -> acceptedBytes c + slen l <= MaxStreamBytes ->
  kept c' = kept (append_frame config c f l) -> (fatal c' = None -> sequence c' = sequence_after uid (map fst fl ++ [f])) ->
  (c_terminalType c' <> "" -> terminal_event c' (map fst fl ++ [f])) -> (c_terminalType c' = "" -> fatal c' = None -> Terminal f = false) ->
  collector_inv c' (t ++ t') exits (fl ++ [(f, l)]).
Proof.
  intros Hok H Hc Hev Hl Hd Hn Hb Hk Hseq Ht1 Ht2. destruct (append_window c t exits fl f l Hok H) as (W1 & W2 & W3 & W4). destruct H as [H1 H2 H3 H4 H5 _ _ _ _].
  unfold append_frame in *. destruct (appendProjectionLocked _ _ _ _) as [w size]. cbn [window windowSize] in *. injection Hk as K1 K2 K3 K4 K5 K6 Hcomp.
  cbn [window windowSize nextSeq acceptedFrames acceptedBytes streamHash completion] in *. rewrite map_app in W1. destruct H4 as (E1 & E2 & E3 & E4).
  assert (Hlines : concat (map snd (fl ++ [(f, l)])) = lines fl ++ l) by (rewrite map_app, concat_app; cbn; by rewrite app_nil_r).
  split; rewrite ?K1, ?K2, ?K3, ?K4, ?K5, ?K6, ?Hlines, ?map_app; cbn [map fst]; try done.
  - apply Forall_app. split; [done|]. by apply Forall_singleton.
  - intros i p [Hi|[Hge Hi]]%lookup_app_Some; [by apply durable_l, H3|]. apply list_lookup_singleton_Some in Hi as [Hi <-]. replace i with (length fl) by lia.
    by apply durable_r.
  - rewrite slen_snoc, E1, E2, E3, E4. split_and!; try lia; [unfold slen; rewrite length_app; lia|done].
  - rewrite slen_snoc. rewrite E3 in Hb. split; [done|]. unfold slen in *. rewrite length_app. lia.
  - split; [done|]. intros E Hf. unfold ends_run. rewrite last_snoc. by apply Ht2.
  - intros record Hr. rewrite Hcomp, Hc in Hr. done.
Qed.

(** ** Calls *)

Lemma inv_refuse c t exits fl t' v e r c' : collector_inv c t exits fl -> (r, c') = rejected (set_sequence c v) e -> collector_inv c' (t ++ t') exits fl.
Proof.
  intros H E. unfold rejected in E. destruct (rejectLocked _ e) as [r' c''] eqn:Er. injection E as _ ->. rewrite <- (app_nil_r exits).
  apply inv_grow. by eapply inv_rejected.
Qed.
Lemma inv_refuse_same c t exits fl t' e r c' : collector_inv c t exits fl -> (r, c') = rejected c e -> collector_inv c' (t ++ t') exits fl.
Proof. intros H E. rewrite <- (set_sequence_same c) in E. by eapply inv_refuse. Qed.

Lemma refused_error c e r c' : (r, c') = rejected c e -> r <> None.
Proof. unfold rejected. destruct (rejectLocked c e). by intros [= -> _]. Qed.

Lemma persist_durable f l t : runs (persistFrameLocked config f l) t (Ok ()) -> durable t (Seq f) l /\ Seq f <= maxStreamFrames.
Proof.
  unfold persistFrameLocked, ethen. intros (t1 & t2 & r & -> & H1 & H2)%runs_bind. destruct r as [uri|]; [|by apply runs_ret_inv in H2 as [_ ?]].
  apply put_confirms in H1 as (H1 & Hl1 & _). destruct (canonicalIndex _) as [body|] eqn:Hb; [|by apply runs_ret_inv in H2 as [_ ?]].
  apply runs_bind in H2 as (t3 & t4 & r & -> & H2 & H3). destruct r as [uri'|]; [|by apply runs_ret_inv in H3 as [_ ?]]. apply put_confirms in H2 as (H2 & Hl2 & _).
  split; [split_and!; [auto|lia|lia|exists body; split_and!; [done|auto|lia]]|]. unfold canonicalIndex in Hb. destruct (validateFrameIndex _) eqn:Hv; [|done].
  unfold validateFrameIndex in Hv. rewrite !andb_true_iff in Hv. destruct_and! Hv. by apply Z.leb_le.
Qed.

Lemma stream_seq fl (f : Envelope) : event_stream uid (map fst (fl : list (Envelope * list Z)) ++ [f]) -> Seq f = slen fl + 1.
Proof. intros H. rewrite (es_seq _ _ H (length fl) f); [done|]. by rewrite lookup_app_r, length_map, Nat.sub_diag by (by rewrite length_map). Qed.

(** The last part of [Accept]. *)
Lemma append_case c f l e c' frames : let c1 := append_frame config (set_sequence c (sequence_after uid frames)) f l in fatal c = None -> c_terminalType c = "" ->
  (e, c') = (if negb (Terminal f) then (None, c1)
             else match terminalType (Type_ f) with
             | None => rejected c1 ErrInvalidFrame
             | Some kind => match terminalSummary f with Err x => rejected c1 x | Ok summary => (None, set_terminal c1 kind (Seq f) summary) end
             end) ->
  kept c' = kept (append_frame config c f l) /\ (fatal c' = None -> sequence c' = sequence_after uid frames) /\
  (c_terminalType c' <> "" -> Terminal f = true /\ terminalType (Type_ f) = Some (c_terminalType c') /\ c_terminalSeq c' = Seq f /\
     terminalSummary f = Ok (terminalSum c')) /\
  (c_terminalType c' = "" -> fatal c' = None -> Terminal f = false).
Proof.
  intros c1 Hf Ht. assert (Hk : kept c1 = kept (append_frame config c f l)) by (unfold c1, append_frame; cbn [window windowSize set_sequence]; by destruct (appendProjectionLocked _ _ _ _)).
  assert (H1 : fatal c1 = None /\ c_terminalType c1 = "" /\ sequence c1 = sequence_after uid frames) by (unfold c1, append_frame; by destruct (appendProjectionLocked _ _ _ _)).
  destruct H1 as (Hf1 & Ht1 & Hs1). clearbody c1. unfold rejected, rejectLocked. rewrite Hf1.
  destruct (Terminal f); cbn [negb]; [|intros [= _ ->]; by split_and!].
  destruct (terminalType (Type_ f)) as [kind|] eqn:Hty; [|intros [= _ ->]; split_and!; try done; by intros []].
  destruct (terminalSummary f) as [summary|]; intros [= _ ->]; (split_and!; try done). cbn. intros ->. by destruct (terminal_kind _ _ Hty) as (<- & _ & ?).
Qed.

Lemma accept_inv c t exits fl line t' e c' : config_ok -> collector_inv c t exits fl -> runs (Accept config c line) t' (e, c') ->
  (e <> None /\ collector_inv c' (t ++ t') exits fl) \/
  exists f l c1, prepare_line config c line = (Ok (f, l), c1) /\ collector_inv c' (t ++ t') exits (fl ++ [(f, l)]).
Proof.
  intros Hok H. unfold Accept. destruct (fatal c) as [e'|] eqn:Hf.
  { intros [-> [= -> ->]]%runs_ret_inv. left. split; [done|]. rewrite <- (app_nil_r exits). by apply inv_grow. }
  destruct (processExited c) eqn:Hp; [intros [-> E]%runs_ret_inv; left; split; [by eapply refused_error|by eapply inv_refuse_same]|].
  case_bool_decide as Ht; cbn [negb]; [|intros [-> E]%runs_ret_inv; left; split; [by eapply refused_error|by eapply inv_refuse_same]].
  intros Hr. inversion Hr as [|? alive t1 ? Hr1| | |]; subst. destruct alive; cbn [negb] in Hr1; [|apply runs_ret_inv in Hr1 as [-> E]; left; split; [by eapply refused_error|by eapply inv_refuse_same]].
  destruct (prepare_line config c line) as [r c1] eqn:Epre. destruct (inv_bounds _ _ _ _ H) as [Hn _]. change maxStreamFrames with (2 ^ 32) in Hn.
  pose proof Epre as Epre'. apply (prepare_spec _ _ _ _ (map fst fl)) in Epre' as (v & -> & Hspec);
    [|apply uid_nonempty, Hok|unfold slen in *; rewrite length_map; lia|by eapply inv_stream|by eapply inv_sequence].
  destruct r as [[f l]|]; [|apply runs_ret_inv in Hr1 as [-> E]; left; split; [by eapply refused_error|by eapply inv_refuse]]. destruct Hspec as (-> & Hev & Hl & _ & Hb).
  apply runs_bind in Hr1 as (t2 & t3 & persisted & -> & H2 & H3). destruct persisted as [[]|]; [|apply runs_ret_inv in H3 as [-> E]; left; split; [by eapply refused_error|by eapply inv_refuse]].
  apply persist_durable in H2 as [Hd Hmax]. rewrite (stream_seq _ _ Hev) in Hd, Hmax. apply runs_ret_inv in H3 as [-> E]. rewrite app_nil_r. right. eexists f, l, _. split; [done|].
  assert (Hc : completion c = None) by (destruct (completion c) as [record|] eqn:Hc; [|done]; apply (inv_completion _ _ _ _ H) in Hc as [Hc _]; congruence).
  assert (Hd' : durable (RContext true :: t2) (slen fl + 1) l) by (by apply (durable_r [RContext true])).
  destruct (append_case c f l e c' _ Hf Ht E) as (Hk & Hseq & Ht1 & Ht2).
  apply (inv_append c); try done. intros He. destruct (Ht1 He) as (? & ? & ? & ?). exists f. by rewrite last_snoc.
Qed.

Lemma finalize_confirms e t record : runs (finalize uid spec (c_baseSHA config) e) t (Ok record) ->
  exists uri manifest body key, record = end_record uid spec (c_baseSHA config) uri e /\ canonicalManifest (end_manifest uid spec e) = Ok manifest /\
    canonicalRecord record = Ok body /\ CompletionKey uid spec = Ok key /\ confirmed t (streamKey uid (digestBytes (end_stream e))) manifest /\ confirmed t key body.
Proof.
  unfold finalize, ethen. destruct (canonicalManifest _) as [manifest|] eqn:Hm; [|by intros [_ ?]%runs_ret_inv]. intros (t1 & t2 & r & -> & H1 & H2)%runs_bind.
  destruct r as [uri|]; [|by apply runs_ret_inv in H2 as [_ ?]]. apply put_confirms in H1 as (H1 & _).
  destruct (canonicalRecord _) as [body|] eqn:Hb; [|by apply runs_ret_inv in H2 as [_ ?]]. destruct (CompletionKey _ _) as [key|] eqn:Hk; [|by apply runs_ret_inv in H2 as [_ ?]].
  apply runs_bind in H2 as (t3 & t4 & r & -> & H2 & H3). destruct r as [uri'|]; [|by apply runs_ret_inv in H3 as [_ ?]]. apply put_confirms in H2 as (H2 & _).
  apply runs_ret_inv in H3 as [-> [= ->]]. exists uri, manifest, body, key. split_and!; auto.
Qed.

Lemma inv_exited c t exits fl e : collector_inv c t exits fl -> completion c = None -> collector_inv (set_exited c e) t exits fl.
Proof. intros [H1 H2 H3 H4 H5 H6 H7 H8 H9] Hc. split; try done. intros record Hr. cbn in Hr. congruence. Qed.
Lemma inv_completed c t exits fl record : collector_inv c t exits fl -> completed (set_completion c record) t exits record ->
  collector_inv (set_completion c record) t exits fl.
Proof. intros [H1 H2 H3 H4 H5 H6 H7 H8 H9] Hc. split; try done. intros record' Hr. cbn in Hr. injection Hr as <-. done. Qed.

Lemma exit_inv c t exits fl exit t' r c' : collector_inv c t exits fl -> runs (ProcessExit config c exit) t' (r, c') ->
  collector_inv c' (t ++ t') (exits ++ [exit]) fl /\ (forall record, r = Ok record -> completion c' = Some record).
Proof.
  intros H. unfold ProcessExit. destruct (completion c) as [record|] eqn:Hc; [intros [-> [= -> ->]]%runs_ret_inv; split; [by apply inv_grow|by intros ? [= <-]]|].
  destruct (fatal c) as [e|] eqn:Hf; [intros [-> [= -> ->]]%runs_ret_inv; split; [by apply inv_grow|by intros ? [= <-]]|].
  destruct (processExited c); [intros [-> [= -> ->]]%runs_ret_inv; split; [by apply inv_grow|by intros ? [= <-]]|].
  case_bool_decide as Ht; [intros [-> [= -> ->]]%runs_ret_inv; by split; [apply inv_grow, inv_exited|]|].
  destruct (Known exit) eqn:Hk; cbn [negb]; [|intros [-> [= -> ->]]%runs_ret_inv; by split; [apply inv_grow, inv_exited|]].
  destruct (_ && _) eqn:Hx in |- *; [intros [-> [= -> ->]]%runs_ret_inv; by split; [apply inv_grow, inv_exited|]|].
  assert (H' : collector_inv (set_exited c (terminalError c)) t exits fl) by (by apply inv_exited).
  intros (t1 & t2 & x & -> & H1 & H2)%runs_bind. apply runs_ret_inv in H2 as [-> E]. rewrite app_nil_r. destruct x as [record|e].
  - injection E as -> ->. split; [|by intros ? [= <-]]. apply inv_completed; [by apply inv_grow|]. apply finalize_confirms in H1 as (uri & m & b & key & E1 & E2 & E3 & E4 & E5 & E6).
    split_and!; [done|done| |].
    + exists exit. split_and!; [set_solver|done|]. cbn [c_terminalType set_completion set_exited]. intros E. rewrite E in Hx.
      change (bool_decide (TerminalCompleted = TerminalCompleted)) with true in Hx. cbn [andb] in Hx. by apply negb_false_iff, Z.eqb_eq in Hx.
    + exists uri, m, b, key. split_and!; auto.
  - rewrite <- (set_sequence_same (set_exited c _)) in E. destruct (rejectLocked _ e) as [e' c''] eqn:Er. injection E as -> ->. split; [|done]. apply inv_grow. by eapply inv_rejected.
Qed.
End Collector.

(** ** Histories *)

Lemma new_inv config runUID specDigest baseSHA options c : NewCollector runUID specDigest baseSHA options = Ok (config, c) ->
  config_ok config /\ collector_inv config c [] [] [].
Proof.
  unfold NewCollector. destruct (_ || _) eqn:C in |- *; [done|]. rewrite !orb_false_iff, !negb_false_iff in C. destruct C as [[Hu Hs] Hb]. cbv zeta.
  destruct (_ || _) eqn:C in |- *; [done|]. rewrite !orb_false_iff, !Z.ltb_ge in C. intros [= <- <-]. split; [split; cbn; try done; lia|].
  split; cbn; try done; try (unfold slen; cbn; lia). split; [done|]. split_and!; try done; unfold slen; cbn; lia.
Qed.

Lemma accept_added config c t exits fl line t' e c' : config_ok config -> collector_inv config c t exits fl -> runs (Accept config c line) t' (e, c') ->
  collector_inv config c' (t ++ t') exits (fl ++ added config c line c') /\ (e = None -> added config c line c' <> []).
Proof.
  intros Hok H Hr. destruct (inv_counts _ _ _ _ _ H) as (_ & En & _). unfold added.
  destruct (accept_inv _ _ _ _ _ _ _ _ _ Hok H Hr) as [[He H']|(f & l & c1 & -> & H')]; destruct (inv_counts _ _ _ _ _ H') as (_ & En' & _).
  - rewrite En, En', Z.eqb_refl, app_nil_r. done.
  - rewrite slen_snoc in En'. rewrite (proj2 (Z.eqb_neq _ _)) by lia. done.
Qed.

Lemma reached_config config c t exits fl : reached config c t exits fl -> config_ok config.
Proof. induction 1 as [? ? ? ? ? H%new_inv| |]; tauto. Qed.
Lemma reached_inv config c t exits fl : reached config c t exits fl -> collector_inv config c t exits fl.
Proof.
  induction 1 as [? ? ? ? ? [_ H]%new_inv|c t exits fl line t' e c' Hr IH H|c t exits fl exit t' r c' Hr IH H]; [done| |].
  - eapply accept_added; [by eapply reached_config|done|done].
  - by eapply exit_inv.
Qed.

(** C28. For every history of calls of a collector, with any answers of the context
    and of the store: the accepted events are a stream of the run, numbered from
    one without gaps, started by the first event and closed by a terminal one;
    their number, size and hash are those of their canonical lines, within the
    bounds, and the store has confirmed each line and its index; the window is a
    suffix of the stream within its own bounds; a terminal event is remembered with
    its summary; a completion record is there only after a terminal event and a
    known exit, with code zero for a completed run, describes the whole stream, and
    the store has confirmed it and the manifest.  A line is acknowledged only when
    its event has been added to the stream, and an exit only with such a record. *)
Theorem collector_history config c t exits fl : reached config c t exits fl -> collector_inv config c t exits fl /\
  (forall line t' c', runs (Accept config c line) t' (None, c') -> exists p, added config c line c' = [p] /\ collector_inv config c' (t ++ t') exits (fl ++ [p])) /\
  (forall exit t' record c', runs (ProcessExit config c exit) t' (Ok record, c') -> completed config c' (t ++ t') (exits ++ [exit]) record).
Proof.
  intros H. pose proof (reached_config _ _ _ _ _ H) as Hok. pose proof (reached_inv _ _ _ _ _ H) as Hi. split_and!; [done| |].
  - intros line t' c' Hr. destruct (accept_added _ _ _ _ _ _ _ _ _ Hok Hi Hr) as [H' Hne]. specialize (Hne eq_refl). revert H' Hne. unfold added.
    destruct (_ =? _) in |- *; [done|]. destruct (prepare_line config c line) as [[p|] ?]; [|done]. intros H' _. by exists p.
  - intros exit t' record c' Hr. destruct (exit_inv _ _ _ _ _ _ _ _ _ Hi Hr) as [Hi' Hc]. by eapply inv_completion, Hc.
Qed.

Notation lines fl := (concat (map snd fl)).

(** ** Loops *)

Lemma rounds_runs {S R : Type} (step : S -> eprog (S + R)) (I : S -> list request -> Prop) (P : R -> list request -> Prop) :
  (forall st t t' st', I st t -> runs (step st) t' (inl st') -> I st' (t ++ t')) ->
  (forall st t t' r, I st t -> runs (step st) t' (inr r) -> P r (t ++ t')) ->
  forall n st t t' x, I st t -> runs (rounds n step st) t' x -> match x with inl st' => I st' (t ++ t') | inr r => P r (t ++ t') end.
Proof.
  intros Hl Hr. induction n as [|n IH]; intros st t t' x Hi H; cbn [rounds] in H; [destruct x; eauto|].
  apply runs_bind in H as (t1 & t2 & y & -> & H1 & H2). apply (IH st t) in H1; [|done]. destruct y as [st1|r].
  - rewrite app_assoc. by apply (IH st1).
  - apply runs_ret_inv in H2 as [-> ->]. by rewrite app_nil_r.
Qed.

(** ** What a writer has taken *)

Definition written (t : list request) : list Z :=
  concat (map (fun r => match r with RWrite body (Some n) => take (Z.to_nat n) body | _ => [] end) t).
Lemma bytes_written_app t t' : written (t ++ t') = written t ++ written t'.
Proof. unfold written. by rewrite map_app, concat_app. Qed.

Lemma get_written key t r : runs (store_get key) t r -> written t = [].
Proof.
  unfold store_get. destruct (negb _); [by intros [-> _]%runs_ret_inv|]. intros H. inversion H as [| | |? ? a t' ? Hr|]; subst. by apply runs_ret_inv in Hr as [-> _].
Qed.
Lemma write_all_written fuel : forall body t, runs (writeAll fuel body) t (Ok tt) -> written t = body.
Proof.
  induction fuel as [|fuel IH]; intros [|b body] t H; cbn [writeAll] in H; try (by apply runs_ret_inv in H as [-> ?]).
  inversion H as [| | | |? ? n t' ? Hr]; subst. destruct n as [n|]; [|by apply runs_ret_inv in Hr as [_ ?]].
  destruct (_ || _) in Hr; [by apply runs_ret_inv in Hr as [_ ?]|]. apply IH in Hr. change (RWrite (b :: body) (Some n) :: t') with ([RWrite (b :: body) (Some n)] ++ t').
  rewrite bytes_written_app, Hr. unfold written. cbn [map concat]. by rewrite app_nil_r, take_drop.
Qed.

(** ** Integrity *)

(** Lines of events of the run, numbered from one. *)
Definition numbered (uid : string) (fl : list (Envelope * list Z)) : Prop :=
  forall i p, fl !! i = Some p -> ParseLine p.2 = Ok p.1 /\ RunID p.1 = uid /\ Seq p.1 = Z.of_nat i + 1 /\ Kind p.1 = KindEvent /\ canonicalLine p.1 = Some p.2.

Lemma numbered_snoc uid fl f l : numbered uid fl -> ParseLine l = Ok f -> RunID f = uid -> Seq f = slen fl + 1 -> Kind f = KindEvent -> canonicalLine f = Some l ->
  numbered uid (fl ++ [(f, l)]).
Proof.
  intros H H1 H2 H3 H4 H5 i p [Hi|[Hge Hi]]%lookup_app_Some; [by apply H|]. apply list_lookup_singleton_Some in Hi as [Hi <-]. by replace i with (length fl) by lia.
Qed.

Lemma stored_frame_spec uid seq index l f : stored_frame uid seq index l = Ok f ->
  ParseLine l = Ok f /\ RunID f = uid /\ Seq f = seq /\ Kind f = KindEvent /\ canonicalLine f = Some l.
Proof.
  unfold stored_frame, parseStoredLine. destruct (_ || _) in |- *; [done|]. destruct (ParseLine l) as [g|]; [|done].
  destruct (_ || _) eqn:C1 in |- *; [done|]. rewrite !orb_false_iff, !negb_false_iff, !bool_decide_eq_true, Z.eqb_eq in C1.
  destruct (_ || _) eqn:C2 in |- *; [done|]. rewrite !orb_false_iff, !negb_false_iff, !bool_decide_eq_true in C2. intros [= <-]. by destruct C1 as [[? ?] ?], C2.
Qed.

Lemma parse_valid l f : ParseLine l = Ok f -> ValidateEnvelope f = true.
Proof.
  unfold ParseLine. cbv zeta. destruct (_ || _) in |- *; [done|]. destruct (_ <? _) in |- *; [done|]. destruct (negb _) in |- *; [done|]. destruct (negb _) in |- *; [done|].
  destruct (raw_fields _) as [fields|]; [|done]. destruct (fold_result _ _ _) as [g|]; [|done]. cbn [result_bind]. destruct (_ <? _) in |- *; [done|].
  destruct (ValidateEnvelope g) eqn:E; [|done]. by intros [= <-].
Qed.
Lemma envelope_type f : ValidateEnvelope f = true -> Type_ f <> "".
Proof. unfold ValidateEnvelope. rewrite !andb_true_iff. intros H E. destruct_and! H. by rewrite E in *. Qed.

(** The state of a replay and what has been written. *)
Definition replayed (uid : string) (count : Z) (t0 : list Z) (st : replay) (t : list request) : Prop :=
  exists fl, numbered uid fl /\ replay_seq st = slen fl + 1 /\ replay_stream st = lines fl /\ written t = t0 ++ lines fl /\
    match terminalSeen st =?= "" with
    | true => Forall (fun p => Terminal p.1 = false) fl
    | false => exists f, last (map fst fl) = Some f /\ Terminal f = true /\ Type_ f = terminalSeen st /\ replay_terminalSeq st = slen fl /\
        Forall (fun p => Terminal p.1 = false) (removelast fl) /\ slen fl = count
    end.

Lemma read_frame_written uid identity seq t r : runs (read_frame uid identity seq) t r -> written t = [].
Proof.
  unfold read_frame, ethen. intros (t1 & t2 & a & -> & H1 & H2)%runs_bind. apply get_written in H1. rewrite bytes_written_app, H1. cbn [app].
  destruct a as [body|]; [|by apply runs_ret_inv in H2 as [-> _]]. destruct (decodeCanonicalObject _ _ _) as [index|]; [|by apply runs_ret_inv in H2 as [-> _]].
  destruct (_ || _) in H2; [by apply runs_ret_inv in H2 as [-> _]|]. apply runs_bind in H2 as (t3 & t4 & b & -> & H2 & H3). apply get_written in H2.
  rewrite bytes_written_app, H2. by destruct b; apply runs_ret_inv in H3 as [-> _].
Qed.

Lemma replay_moves uid m t0 st t t' x : replayed (Manifest_RunUID m) (FrameCount m) t0 st t -> runs (replay_step uid m st) t' x ->
  match x with
  | inl st' => replayed (Manifest_RunUID m) (FrameCount m) t0 st' (t ++ t')
  | inr (Ok st') => replayed (Manifest_RunUID m) (FrameCount m) t0 st' (t ++ t')
  | inr (Err _) => True
  end.
Proof.
  intros (fl & Hn & Hseq & Hstr & Hw & Ht). unfold replay_step. destruct (_ <? _) in |- *.
  { intros [-> ->]%runs_ret_inv. rewrite app_nil_r. by exists fl. }
  intros H. inversion H as [|? alive t1 ? H1| | |]; subst. destruct alive; cbn [negb] in H1; [|by apply runs_ret_inv in H1 as [_ ->]].
  apply runs_bind in H1 as (t2 & t3 & r & -> & H2 & H3). apply read_frame_written in H2. destruct r as [[index l]|]; [|by apply runs_ret_inv in H3 as [_ ->]].
  destruct (stored_frame _ _ index l) as [f|] eqn:Hf; [|by apply runs_ret_inv in H3 as [_ ->]]. apply stored_frame_spec in Hf as (P1 & P2 & P3 & P4 & P5).
  destruct (bool_decide (terminalSeen st = "")) eqn:Hts; cbn [negb] in H3; [|by apply runs_ret_inv in H3 as [_ ->]].
  destruct (_ && _) eqn:C in H3; [by apply runs_ret_inv in H3 as [_ ->]|]. apply runs_bind in H3 as (t4 & t5 & w & -> & H4 & H5).
  destruct w as [[]|]; [|by apply runs_ret_inv in H5 as [_ ->]]. apply write_all_written in H4. apply runs_ret_inv in H5 as [-> ->]. apply bool_decide_eq_true in Hts.
  exists (fl ++ [(f, l)]). rewrite slen_snoc, map_app, concat_app. cbn [replay_seq replay_stream terminalSeen replay_terminalSeq map snd concat]. rewrite app_nil_r.
  split_and!; [by apply numbered_snoc; rewrite <- ?Hseq|by rewrite Hseq|by rewrite Hstr| |].
  - change (RContext true :: t2 ++ t4 ++ []) with ([RContext true] ++ t2 ++ t4 ++ []). rewrite !bytes_written_app, H2, H4, Hw. cbn. by rewrite !app_nil_r, app_assoc.
  - destruct (Terminal f) eqn:Hterm; [|rewrite Hts; cbn; apply Forall_app; by split; [|apply Forall_singleton]].
    cbn [andb] in C. apply negb_false_iff, Z.eqb_eq in C.
    assert (Hne : Type_ f <> "") by (by eapply envelope_type, parse_valid).
    rewrite bool_decide_eq_false_2 by done. exists f. rewrite map_app, removelast_last, Hseq. cbn [map fst]. rewrite last_snoc. split_and!; try done. by rewrite <- C.
Qed.

(** C17. Whatever the context, the store and the writer answer, a replay that
    succeeds has written exactly the referenced bytes: their digest and size are
    those of the reference, and they are the canonical lines of valid events of the
    run, numbered from one without gaps, of which the last and only the last is
    terminal; the reported counts are theirs. *)
Theorem replay_faithful uid ref t info : runs (WriteJSONL uid ref) t (Ok info) ->
  digestBytes (written t) = Digest_ ref /\ slen (written t) = SizeBytes ref /\
  exists fl f, written t = lines fl /\ numbered uid fl /\ last (map fst fl) = Some f /\ Terminal f = true /\
    Forall (fun p => Terminal p.1 = false) (removelast fl) /\
    info = MkInfo uid (Info_SpecDigest info) (slen fl) (slen (written t)) (digestBytes (written t)) (Type_ f) (Seq f).
Proof.
  unfold WriteJSONL. destruct (negb _); [by intros [_ ?]%runs_ret_inv|]. destruct (negb _); [by intros [_ ?]%runs_ret_inv|].
  unfold ethen. intros (t1 & t2 & r & -> & H1 & H2)%runs_bind. apply get_written in H1. destruct r as [body|]; [|by apply runs_ret_inv in H2 as [_ ?]].
  destruct (decodeCanonicalObject _ _ _) as [m|]; [|by apply runs_ret_inv in H2 as [_ ?]]. destruct (_ || _) eqn:C in H2; [by apply runs_ret_inv in H2 as [_ ?]|].
  rewrite !orb_false_iff, !negb_false_iff, !bool_decide_eq_true, Z.eqb_eq in C. destruct C as (((Hm & Hu) & Hd) & Hs).
  apply runs_bind in H2 as (t3 & t4 & x & -> & H2 & H3). apply runs_ret_inv in H3 as [-> E]. rewrite app_nil_r.
  assert (Hr : exists st, match x with inl st => Ok st | inr r => r end = Ok st /\ replayed uid (FrameCount m) [] st t3).
  { rewrite <- Hu. apply (rounds_runs _ (replayed (Manifest_RunUID m) (FrameCount m) [])
      (fun r t => match r with Ok st => replayed (Manifest_RunUID m) (FrameCount m) [] st t | Err _ => True end)) with (t := []) in H2.
    - destruct x as [st|[st|]]; [by exists st..|done].
    - intros st u u' st' Hi Hst. by apply (replay_moves _ _ _ _ _ _ _ Hi Hst).
    - intros st u u' r Hi Hst. by apply (replay_moves _ _ _ _ _ _ _ Hi Hst).
    - exists []. split_and!; [by intros i p Hi|done..|by apply Forall_nil]. }
  destruct Hr as (st & Ex & fl & Hn & Hseq & Hstr & Hw & Ht). rewrite Ex in E. cbn [result_bind] in E.
  destruct (_ || _) eqn:C in E; [done|]. rewrite !orb_false_iff, !negb_false_iff, !bool_decide_eq_true, !Z.eqb_eq in C. destruct C as ((((C1 & C2) & C3) & C4) & C5).
  rewrite C1 in Ht. destruct Ht as (f & Hl & Hf & Hty & Hts & Hnt & Hc). cbn [app] in Hw. rewrite bytes_written_app, H1, Hw. cbn [app]. rewrite Hstr in *.
  split_and!; [by rewrite C5|by rewrite C4|]. exists fl, f. split_and!; try done.
  assert (Hfs : Seq f = slen fl).
  { rewrite last_lookup, length_map, list_lookup_fmap in Hl. destruct (fl !! pred (length fl)) as [p|] eqn:Ep; [|done]. injection Hl as <-.
    destruct (Hn _ _ Ep) as (_ & _ & -> & _). apply lookup_lt_Some in Ep. unfold slen. lia. }
  injection E as ->. cbn [Info_SpecDigest]. by rewrite Hu, Hty, Hts, Hfs, Hc, C5.
Qed.

(** ** Recovery *)

Section Recovery.
Context (uri_of : string -> string) (config : collector_config).
Notation uid := (c_runUID config).
Notation spec := (c_specDigest config).
Notation identity := (identityDigestHex uid spec).

(** The store holds the line of the event [f], with the index that the collector
    writes for it. *)
Definition held (s : gmap string (list Z)) (seq : Z) (f : Envelope) (l : list Z) : Prop :=
  exists body, object_at s (indexKey uid identity seq) = Ok body /\ decodeCanonicalObject body MaxIndexBytes read_index = Ok (frame_index config seq l) /\
    validateFrameIndex (frame_index config seq l) = true /\ object_at s (frameKey uid (digestBytes l)) = Ok l /\ 0 < slen l <= maxFrameStorageBytes /\
    parseStoredLine l = Ok f /\ has_newline l = true /\ RunID f = uid /\ Seq f = seq /\ Kind f = KindEvent /\ canonicalLine f = Some l.

(** One round of the loop of [FinalizeObservedExit]. *)
Lemma rebuild_go st s out f l v : held s (rebuild_seq st) f l -> Sequence_Accept (rebuild_sequence st) f = (true, v) ->
  slen (rebuild_stream st) + slen l <= MaxStreamBytes ->
  erun uri_of (rebuild_step uid spec st) s out =
    if Terminal f then
      match terminalType (Type_ f), terminalSummary f with
      | Some kind, Ok summary =>
        (inr (match object_at s (indexKey uid identity (rebuild_seq st + 1)) with
              | Ok _ => Err ErrCorrupt
              | Err ErrMissing => Ok (MkEnd (rebuild_stream st ++ l) (rebuild_seq st) kind (rebuild_seq st) summary)
              | Err e => Err e
              end), s, out)
      | _, _ => (inr (Err ErrCorrupt), s, out)
      end
    else (inl (MkRebuild (rebuild_seq st + 1) (rebuild_stream st ++ l) v), s, out).
Proof.
  intros (body & E1 & E2 & Hv & E3 & Hl & E4 & Hnl & Hr & Hq & Hk & Hc) Ha Hb. unfold rebuild_step. rewrite erun_bind, erun_get, E1, E2, Hv.
  cbn [frame_index Index_IdentityDigest Index_RunUID Index_SpecDigest Index_Seq LineDigest Index_SizeBytes negb orb].
  rewrite Z.eqb_refl, !bool_decide_eq_true_2 by done. cbn [negb orb]. rewrite erun_bind, erun_get, E3.
  rewrite (proj2 (Z.eqb_neq _ _)), (proj2 (Z.ltb_ge _ _)), Hnl, Z.eqb_refl, bool_decide_eq_true_2 by (done || lia). cbn [negb orb].
  rewrite E4, Hr, Hq, Hk, Z.eqb_refl. change (bool_decide (KindEvent = "event")) with true. rewrite bool_decide_eq_true_2 by done. cbn [negb orb].
  rewrite Ha. cbn [negb]. rewrite Hc, bool_decide_eq_true_2 by done. cbn [negb]. rewrite (proj2 (Z.ltb_ge _ _)) by lia.
  destruct (Terminal f); cbn [negb]; [|done]. destruct (terminalType (Type_ f)), (terminalSummary f); try done. by rewrite erun_bind, erun_get.
Qed.

Lemma sequence_next frames f : uid <> "" -> slen frames + 1 < 2 ^ 64 -> event_stream uid (frames ++ [f]) ->
  Sequence_Accept (sequence_after uid frames) f = (true, sequence_after uid (frames ++ [f])).
Proof.
  intros Hu Hl Hev. assert (Hlast : (frames ++ [f]) !! length frames = Some f) by (by rewrite lookup_app_r, Nat.sub_diag).
  pose proof (es_valid _ _ Hev) as Hv. apply Forall_app in Hv as [_ Hv]. apply Forall_singleton in Hv as (Hv & Hk & Hr).
  assert (Hok : (Sequence_Accept (sequence_after uid frames) f).1 = true).
  { apply sequence_step; [done..|]. split_and!; try done; [by apply stream_prefix in Hev as []|by rewrite (es_seq _ _ Hev _ _ Hlast)|].
    rewrite (es_start _ _ Hev _ _ Hlast). by destruct frames. }
  pose proof (sequence_moves uid frames f Hu (fun _ => Hr) Hok Hl) as Hm. destruct (Sequence_Accept _ f). cbn [fst snd] in *. by subst.
Qed.

Definition held_all (s : gmap string (list Z)) (gl : list (Envelope * list Z)) : Prop := forall i p, gl !! i = Some p -> held s (Z.of_nat i + 1) p.1 p.2.
Lemma held_snoc s gl f l : held_all s (gl ++ [(f, l)]) -> held_all s gl /\ held s (slen gl + 1) f l.
Proof.
  intros H. split; [intros i p Hi; by apply H, lookup_app_l_Some|]. apply (H (length gl) (f, l)). by rewrite lookup_app_r, Nat.sub_diag.
Qed.

Lemma rebuild_prefix s out gl : uid <> "" -> held_all s gl -> event_stream uid (map fst gl) -> ends_run (map fst gl) = false ->
  slen gl < 2 ^ 63 -> slen (lines gl) <= MaxStreamBytes ->
  chain uri_of (rebuild_step uid spec) (length gl) (MkRebuild 1 [] new_sequence) s out (MkRebuild (slen gl + 1) (lines gl) (sequence_after uid (map fst gl))) s out.
Proof.
  intros Hu. induction gl as [|[f l] gl IH] using rev_ind; intros Hall Hev Hend Hn Hb; [constructor|]. apply held_snoc in Hall as [Hall Hf].
  rewrite slen_snoc in Hn |- *. rewrite lines_snoc in Hb |- *. rewrite map_app in Hev, Hend |- *. cbn [map fst] in *. destruct (stream_prefix _ _ _ Hev) as [Hev' Hend'].
  assert (Hb' : slen (lines gl) + slen l <= MaxStreamBytes) by (unfold slen in *; rewrite length_app in Hb; lia).
  rewrite length_app. eapply chain_app; [apply IH; try done; [lia|unfold slen in *; lia]|]. apply chain_one.
  rewrite (rebuild_go _ s out f l (sequence_after uid (map fst gl ++ [f]))); [|done| |done].
  - unfold ends_run in Hend. rewrite last_snoc in Hend. by rewrite Hend.
  - apply sequence_next; [done|unfold slen in *; rewrite length_map; lia|done].
Qed.

Lemma rebuild_whole s out gl f l kind summary : uid <> "" -> held_all s (gl ++ [(f, l)]) -> event_stream uid (map fst gl ++ [f]) -> Terminal f = true ->
  slen gl < maxStreamFrames -> slen (lines gl ++ l) <= MaxStreamBytes -> terminalType (Type_ f) = Some kind -> terminalSummary f = Ok summary ->
  object_at s (indexKey uid identity (slen gl + 2)) = Err ErrMissing ->
  erun uri_of (rounds frame_bits (rebuild_step uid spec) (MkRebuild 1 [] new_sequence)) s out =
    (inr (Ok (MkEnd (lines gl ++ l) (slen gl + 1) kind (slen gl + 1) summary)), s, out).
Proof.
  intros Hu Hall Hev Ht Hn Hb Hkind Hsum Hnext. change maxStreamFrames with (2 ^ 32) in Hn. apply held_snoc in Hall as [Hall Hf]. destruct (stream_prefix _ _ _ Hev) as [Hev' Hend'].
  assert (Hb' : slen (lines gl) + slen l <= MaxStreamBytes) by (unfold slen in *; rewrite length_app in Hb; lia).
  eapply (rounds_stop _ _ _ (length gl)); [by apply rounds_bound|apply rebuild_prefix; try done; [lia|unfold slen in *; lia]|].
  rewrite (rebuild_go _ s out f l (sequence_after uid (map fst gl ++ [f]))); [|done| |done].
  - rewrite Ht, Hkind, Hsum. cbn [rebuild_seq rebuild_stream]. replace (slen gl + 1 + 1) with (slen gl + 2) by lia. by rewrite Hnext.
  - apply sequence_next; [done|unfold slen in *; rewrite length_map; lia|done].
Qed.
End Recovery.

(** The stored line of an event reads back as the event with its data in canonical
    form. *)
Definition rereads (p : Envelope * list Z) : Prop :=
  exists data, ParseLine p.2 = Ok (with_data p.1 data) /\ canonicalLine (with_data p.1 data) = Some p.2 /\
    terminalSummary (with_data p.1 data) = terminalSummary p.1.
Definition reread (p : Envelope * list Z) : Envelope * list Z := (match ParseLine p.2 with Ok f => f | Err _ => p.1 end, p.2).

Lemma reread_data p : rereads p -> exists data, reread p = (with_data p.1 data, p.2) /\ ParseLine p.2 = Ok (with_data p.1 data) /\
  canonicalLine (with_data p.1 data) = Some p.2 /\ terminalSummary (with_data p.1 data) = terminalSummary p.1.
Proof. intros (data & E & H). exists data. unfold reread. by rewrite E. Qed.
Lemma reread_lines fl : lines (map reread fl) = lines fl.
Proof. by rewrite map_map. Qed.

Lemma reread_stream uid fl : Forall rereads fl -> event_stream uid (map fst fl) -> event_stream uid (map fst (map reread fl)).
Proof.
  intros Hre [Hv Hs Ht He].
  assert (Hl : forall i g, map fst (map reread fl) !! i = Some g -> exists f data, map fst fl !! i = Some f /\ g = with_data f data /\ ValidateEnvelope g = true).
  { intros i g Hi. rewrite !list_lookup_fmap in Hi. destruct (fl !! i) as [p|] eqn:Ei; [|done].
    pose proof (Forall_lookup_1 _ _ _ _ Hre Ei) as (data & E1 & E2 & _)%reread_data. cbn [fmap option_fmap option_map] in Hi. rewrite E1 in Hi. injection Hi as <-.
    exists p.1, data. rewrite list_lookup_fmap, Ei. split_and!; [done..|]. by eapply parse_valid. }
  split.
  - apply Forall_lookup. intros i g (f & data & Hf & -> & Hg)%Hl. pose proof (Forall_lookup_1 _ _ _ _ Hv Hf) as (_ & ? & ?). done.
  - intros i g (f & data & Hf & -> & _)%Hl. by apply (Hs _ _ Hf).
  - intros i g (f & data & Hf & -> & _)%Hl. by apply (Ht _ _ Hf).
  - intros i g (f & data & Hf & -> & _)%Hl Hg. rewrite !length_map. apply (He _ _ Hf) in Hg. by rewrite length_map in Hg.
Qed.

Lemma line_newline f l : canonicalLine f = Some l -> has_newline l = true.
Proof.
  unfold canonicalLine. destruct (EncodeLine f) as [encoded|]; [|done]. destruct (Normalize _) as [normalized|]; [|done]. intros [= <-].
  apply bool_decide_eq_true. by rewrite last_snoc.
Qed.

Lemma durable_held config s t seq f l : (forall key body, confirmed t key body -> s !! key = Some body) -> 0 <= seq -> durable config t seq l ->
  ParseLine l = Ok f -> RunID f = c_runUID config -> Seq f = seq -> Kind f = KindEvent -> canonicalLine f = Some l -> held config s seq f l.
Proof.
  intros Hs Hseq (H1 & Hl & body & Hb & H2 & Hlb) Hp Hr Hq Hk Hc. exists body. pose proof (line_newline _ _ Hc) as Hnl.
  split_and!; [apply object_found; split; [apply H2|by apply Hs]|apply frame_index_reads; [done|done|cbn; lia|done]| |apply object_found; split; [apply H1|by apply Hs]|lia|lia| |done..].
  - unfold canonicalIndex in Hb. by destruct (validateFrameIndex _).
  - unfold parseStoredLine. rewrite (proj2 (Z.eqb_neq _ _)), Hnl, Hp by lia. done.
Qed.

Lemma reached_held config c t exits fl s : reached config c t exits fl -> (forall key body, confirmed t key body -> s !! key = Some body) ->
  Forall rereads fl -> held_all config s (map reread fl).
Proof.
  intros H%reached_inv Hs Hre i g Hi. rewrite list_lookup_fmap in Hi. destruct (fl !! i) as [p|] eqn:Ei; [|done]. injection Hi as <-.
  pose proof (Forall_lookup_1 _ _ _ _ Hre Ei) as (data & E1 & E2 & E3 & _)%reread_data. rewrite E1. cbn [fst snd].
  assert (Hf : map fst fl !! i = Some p.1) by (by rewrite list_lookup_fmap, Ei). pose proof (inv_stream _ _ _ _ _ H) as Hev.
  pose proof (Forall_lookup_1 _ _ _ _ (es_valid _ _ Hev) Hf) as (_ & Hk & Hr).
  eapply durable_held; [done|lia|by eapply inv_durable|done|done|exact (es_seq _ _ Hev _ _ Hf)|done|done].
Qed.

(** The loop of [FinalizeObservedExit] finds what the collector has. *)
Lemma recovered_end uri_of config c t exits fl s out : reached config c t exits fl -> c_terminalType c <> "" -> Forall rereads fl ->
  (forall key body, confirmed t key body -> s !! key = Some body) ->
  object_at s (indexKey (c_runUID config) (identityDigestHex (c_runUID config) (c_specDigest config)) (acceptedFrames c + 1)) = Err ErrMissing ->
  erun uri_of (rounds frame_bits (rebuild_step (c_runUID config) (c_specDigest config)) (MkRebuild 1 [] new_sequence)) s out = (inr (Ok (collector_end c)), s, out).
Proof.
  intros H Ht Hre Hs Hnext. pose proof (reached_held _ _ _ _ _ _ H Hs Hre) as Hheld. pose proof (config_uid _ (reached_config _ _ _ _ _ H)) as Hu. apply uid_nonempty in Hu.
  apply reached_inv in H. pose proof (reread_stream _ _ Hre (inv_stream _ _ _ _ _ H)) as Hev. destruct (inv_counts _ _ _ _ _ H) as (_ & En & _ & Eh).
  destruct (inv_bounds _ _ _ _ _ H) as [Hn Hb]. destruct (proj1 (inv_terminal _ _ _ _ _ H) Ht) as (f & Hlast & Hf & Hty & Hseq & Hsum).
  destruct fl as [|[f' l] fl _] using rev_ind; [done|]. rewrite !map_app in *. cbn [map fst] in *. rewrite last_snoc in Hlast. injection Hlast as ->.
  apply Forall_app in Hre as [_ Hre]. rewrite Forall_singleton in Hre. apply reread_data in Hre as (data & E1 & _ & _ & E2). cbn [fst snd] in *.
  rewrite E1 in *. cbn [map fst] in *. rewrite slen_snoc in *. rewrite concat_app in Hb, Eh. cbn [map snd concat] in Hb, Eh. rewrite app_nil_r in Hb, Eh.
  assert (Hsl : slen (map reread fl) = slen fl) by (unfold slen; by rewrite length_map).
  assert (Hfs : Seq f = slen fl + 1).
  { rewrite (es_seq _ _ (inv_stream _ _ _ _ _ H) (length fl) f); [done|]. rewrite map_app, lookup_app_r, length_map, Nat.sub_diag by (by rewrite length_map). done. }
  rewrite (rebuild_whole uri_of config s out (map reread fl) (with_data f data) l (c_terminalType c) (terminalSum c));
    [|done|done|done|done|lia|by rewrite reread_lines|done|by rewrite E2|rewrite Hsl, <- Hnext, En; f_equal; f_equal; lia].
  unfold collector_end. by rewrite reread_lines, Hsl, Hseq, Hfs, En, Eh.
Qed.

(** C38. Recovery.  Let a collector, in any history, have accepted a terminal
    event, not been rejected and not seen the exit; its process may be gone.  Take
    a store that holds what was confirmed, whose lines read back, and that has
    neither a completion record nor an index after the last event.  For a known
    exit, [FinalizeObservedExit] on the undisturbed store succeeds exactly when
    [ProcessExit] of the collector would, with the same record and the same store.
    A rejected collector never completes, while its store does:
    [trailing_line_recovers]. *)
Theorem recovery_agrees uri_of config c t exits fl s out exit key : reached config c t exits fl -> fatal c = None -> processExited c = false ->
  c_terminalType c <> "" -> Forall rereads fl -> (forall key body, confirmed t key body -> s !! key = Some body) -> Known exit = true ->
  CompletionKey (c_runUID config) (c_specDigest config) = Ok key -> object_at s key = Err ErrMissing ->
  object_at s (indexKey (c_runUID config) (identityDigestHex (c_runUID config) (c_specDigest config)) (acceptedFrames c + 1)) = Err ErrMissing ->
  forall record s', erun uri_of (FinalizeObservedExit (c_runUID config) (c_specDigest config) (c_baseSHA config) exit) s out = (Ok record, s', out) <->
    exists c', erun uri_of (ProcessExit config c exit) s out = ((Ok record, c'), s', out).
Proof.
  intros H Hf Hp Ht Hre Hs Hk Hkey Hnone Hnext record s'. pose proof (reached_config _ _ _ _ _ H) as Hok.
  assert (Hc : completion c = None).
  { destruct (completion c) as [r|] eqn:E; [|done]. apply (inv_completion _ _ _ _ _ (reached_inv _ _ _ _ _ H)) in E as [E _]. congruence. }
  unfold FinalizeObservedExit, ProcessExit. rewrite (config_uid _ Hok), (config_spec _ Hok), (config_base _ Hok), Hk, Hc, Hf, Hp, bool_decide_eq_false_2 by done.
  cbn [negb orb erun]. unfold LoadCompletion, ethen. rewrite Hkey, !erun_bind, erun_get, Hnone. cbn [erun].
  rewrite erun_bind, (recovered_end _ _ _ _ _ _ _ _ H) by done. change (end_terminal (collector_end c)) with (c_terminalType c).
  destruct (_ && _) in |- *; cbn [erun]; [split; [done|by intros [? ?]]|]. rewrite erun_bind.
  change (collector_end (set_exited c (terminalError c))) with (collector_end c).
  destruct (erun uri_of (finalize _ _ _ _) s out) as [[[r|e] s1] out1]; cbn [erun].
  - split; [intros [= -> -> ->]; by eexists|by intros (c' & [= -> _ -> ->])].
  - split; [done|]. intros [c' E]. by destruct (rejectLocked _ e).
Qed.

(** A line after the terminal event rejects the collector without a request, and
    the collector then refuses to complete; the store is as before. *)
Lemma trailing_line_rejected uri_of config c line s out exit :
  fatal c = None -> processExited c = false -> completion c = None -> c_terminalType c <> "" ->
  exists e c', erun uri_of (Accept config c line) s out = ((Some e, c'), s, out) /\
    erun uri_of (ProcessExit config c' exit) s out = ((Err e, c'), s, out).
Proof.
  intros Hf Hp Hc Ht. unfold Accept. rewrite Hf, Hp, (bool_decide_eq_false_2 _ Ht). cbn.
  unfold rejected, rejectLocked. rewrite Hf. cbn. eexists _, _. split; [reflexivity|]. unfold ProcessExit. cbn. by rewrite Hc.
Qed.

(** ** An example *)

(** The requests of an undisturbed run. *)
Fixpoint trace {A : Type} (uri_of : string -> string) (m : eprog A) (s : gmap string (list Z)) : list request :=
  match m with
  | ERet _ => []
  | EContext k => RContext true :: trace uri_of (k true) s
  | EPut key body _ k =>
    match s !! key with
    | Some _ => RPut key body (Some (false, uri_of key)) :: trace uri_of (k (Some (false, uri_of key))) s
    | None => RPut key body (Some (true, uri_of key)) :: trace uri_of (k (Some (true, uri_of key))) (<[key := body]> s)
    end
  | EGet key k =>
    let r := match s !! key with Some body => Ok body | None => Err GetNotFound end in RGet key r :: trace uri_of (k r) s
  | EWrite body k => RWrite body (Some (slen body)) :: trace uri_of (k (Some (slen body))) s
  end.

Lemma trace_runs {A : Type} uri_of (m : eprog A) : forall s out, runs m (trace uri_of m s) (erun uri_of m s out).1.1.
Proof.
  induction m as [a|k IH|key body ct k IH|key k IH|body k IH]; intros s out; cbn [trace erun]; [constructor|by constructor| |by constructor|by constructor].
  destruct (s !! key); by constructor.
Qed.

(** The store holds what the requests say. *)
Definition honest (s : gmap string (list Z)) (t : list request) : Prop :=
  Forall (fun r => match r with RPut key body (Some (true, _)) | RGet key (Ok body) => s !! key = Some body | _ => True end) t.

Lemma honest_confirmed s t key body : honest s t -> confirmed t key body -> s !! key = Some body.
Proof. unfold honest. rewrite Forall_forall. intros H [_ [[uri Hin]|[_ Hin]]]; by apply H in Hin. Qed.
Lemma trace_honest {A : Type} uri_of (m : eprog A) : forall s out t, honest s t -> honest (erun uri_of m s out).1.2 (t ++ trace uri_of m s).
Proof.
  induction m as [a|k IH|key body ct k IH|key k IH|body k IH]; intros s out t Ht; cbn [trace erun]; [by rewrite app_nil_r| | | |];
    try (destruct (s !! key) eqn:E); rewrite cons_middle, app_assoc; apply IH; apply Forall_app; (split; [|apply Forall_singleton]); try done.
  - eapply Forall_impl; [exact Ht|]. intros [|k' b' [[[] u]|]|k' [b'|]|]; try done; (destruct (decide (k' = key)) as [->|]; [congruence|by rewrite lookup_insert_ne]).
  - by rewrite lookup_insert_eq.
Qed.

Lemma reached_line uri_of config c t exits fl line s out : reached config c t exits fl ->
  let c' := (erun uri_of (Accept config c line) s out).1.1.2 in
  reached config c' (t ++ trace uri_of (Accept config c line) s) exits (fl ++ added config c line c').
Proof.
  intros H. eapply (reached_accept _ _ _ _ _ _ _ (erun uri_of (Accept config c line) s out).1.1.1); [exact H|]. rewrite <- surjective_pairing. apply trace_runs.
Qed.

#[local] Opaque erun trace.

(** A run that starts and completes. *)
Definition text (s : string) : string := of_bytes [quote] +:+ s +:+ of_bytes [quote].
Definition event_line (typ seq terminal data : string) : list Z :=
  bytes ("{" +:+ text "protocol" +:+ ":" +:+ text ProtocolVersion +:+ "," +:+ text "kind" +:+ ":" +:+ text KindEvent +:+ "," +:+ text "type" +:+ ":" +:+
    text typ +:+ "," +:+ text "run_id" +:+ ":" +:+ text "run-1" +:+ "," +:+ text "seq" +:+ ":" +:+ seq +:+ "," +:+ text "terminal" +:+ ":" +:+ terminal +:+
    "," +:+ text "data" +:+ ":" +:+ data +:+ "}").
Definition line1 : list Z :=
  event_line EventRunStarted "1" "false" ("{" +:+ text "agent_id" +:+ ":" +:+ text "a" +:+ "," +:+ text "sandbox_id" +:+ ":" +:+ text "s" +:+ "}").
Definition line2 : list Z := event_line EventRunCompleted "2" "true" ("{" +:+ text "result" +:+ ":" +:+ text "ok" +:+ "}").

Definition sample_hex : string := "0123456789abcdef0123456789abcdef".
Definition sample_spec : string := "sha256:" +:+ sample_hex +:+ sample_hex.
Definition sample_base : string := sample_hex +:+ "01234567".
Definition sample_uri (key : string) : string := "s3://bucket/" +:+ key.
Definition sample_config : collector_config := MkConfig "run-1" sample_spec sample_base 32 262144 (composeRedactors None).
Definition sample_new : collector := MkCollector [] 0 1 new_sequence 0 0 [] "" 0 (MkSummary "" "" false) false None None None.

Definition sample_step (c : collector) (s : gmap string (list Z)) (line : list Z) := erun sample_uri (Accept sample_config c line) s [].
Definition sample_trace (c : collector) (s : gmap string (list Z)) (line : list Z) : list request := trace sample_uri (Accept sample_config c line) s.
Definition sample_c1 : collector := (sample_step sample_new ∅ line1).1.1.2.
Definition sample_s1 : gmap string (list Z) := (sample_step sample_new ∅ line1).1.2.
Definition sample_c2 : collector := (sample_step sample_c1 sample_s1 line2).1.1.2.
Definition sample_s2 : gmap string (list Z) := (sample_step sample_c1 sample_s1 line2).1.2.
Definition sample_t : list request := ([] ++ sample_trace sample_new ∅ line1) ++ sample_trace sample_c1 sample_s1 line2.
Definition sample_fl : list (Envelope * list Z) := ([] ++ added sample_config sample_new line1 sample_c1) ++ added sample_config sample_c1 line2 sample_c2.
Definition sample_exit : ProcessExit_ := MkExit 0 true.

Lemma sample_reached : reached sample_config sample_c2 sample_t [] sample_fl.
Proof.
  apply reached_line, reached_line. apply (reached_new _ "run-1" sample_spec sample_base (MkOptions 0 0 None)). reflexivity.
Qed.
Lemma sample_honest : honest sample_s2 sample_t.
Proof. unfold sample_t, sample_s2, sample_trace, sample_step. apply trace_honest. unfold sample_s1, sample_step. apply trace_honest. by apply Forall_nil. Qed.

(** A hook may give a value that nests as deep as the data may, one level too deep
    for the line: the collector accepts the event, and its stored line is refused by
    [ParseLine]. *)
Definition deep (n : nat) : list Z := bytes ("{" +:+ text "a" +:+ ":") ++ replicate n lbracket ++ replicate n rbracket ++ [rbrace].
Definition deep_config : collector_config :=
  MkConfig "run-1" sample_spec sample_base 32 262144 (composeRedactors (Some (fun path _ => Ok (if path =?= "data.result" then Some (deep 31) else None)))).
Lemma accepted_line_unreadable : match prepare_line deep_config sample_new line1 with
  | (Ok _, c1) =>
    match prepare_line deep_config c1 line2 with
    | (Ok (f, l), _) => bool_decide (canonicalLine f = Some l) && negb (is_ok (ParseLine l))
    | _ => false
    end
  | _ => false
  end = true.
Proof. vm_compute. reflexivity. Qed.

(** The record that completes the run, and its replay. *)
Definition sample_key : string := match CompletionKey "run-1" sample_spec with Ok key => key | Err _ => "" end.
Definition sample_final := erun sample_uri (FinalizeObservedExit "run-1" sample_spec sample_base sample_exit) sample_s2 [].
Definition result_ref (r : result events_error CompletionRecord) : ArtifactRef :=
  match r with Ok record => EventStream record | Err _ => MkArtifact "" "" "" "" "" 0 end.
Definition sample_ref : ArtifactRef := result_ref sample_final.1.1.
Definition sample_replay : eprog (result events_error StreamInfo) := WriteJSONL "run-1" sample_ref.

Lemma sample_key_ok : CompletionKey "run-1" sample_spec = Ok sample_key.
Proof. unfold sample_key. destruct (CompletionKey _ _) eqn:E; [done|]. exfalso. revert E. unfold CompletionKey. by vm_compute. Qed.
Lemma sample_facts : fatal sample_c2 = None /\ processExited sample_c2 = false /\ c_terminalType sample_c2 = TerminalCompleted /\
  object_at sample_s2 sample_key = Err ErrMissing /\
  object_at sample_s2 (indexKey "run-1" (identityDigestHex "run-1" sample_spec) (acceptedFrames sample_c2 + 1)) = Err ErrMissing /\
  is_ok sample_final.1.1 = true /\ sample_final.2 = [] /\ is_ok (erun sample_uri sample_replay sample_final.1.2 []).1.1 = true.
Proof. vm_compute. split_and!; reflexivity. Qed.

(** For the run above, the collector refuses to complete and the store completes. *)
Lemma trailing_line_recovers : exists e c3, sample_step sample_c2 sample_s2 line2 = ((Some e, c3), sample_s2, []) /\
  erun sample_uri (ProcessExit sample_config c3 sample_exit) sample_s2 [] = ((Err e, c3), sample_s2, []) /\
  is_ok sample_final.1.1 = true.
Proof.
  destruct sample_facts as (Hf & Hp & Ht & _ & _ & Hok & _).
  destruct (trailing_line_rejected sample_uri sample_config sample_c2 line2 sample_s2 [] sample_exit) as (e & c3 & Ha & Hx);
    [exact Hf|exact Hp|vm_compute; reflexivity|rewrite Ht; discriminate|].
  exists e, c3. unfold sample_step. split; [exact Ha|]. split; [exact Hx|exact Hok].
Qed.

Lemma sample_rereads : Forall rereads sample_fl.
Proof.
  let fl := eval vm_compute in sample_fl in assert (E : sample_fl = fl) by (vm_compute; reflexivity); rewrite E.
  repeat constructor; (match goal with |- rereads (?f, ?l) => exists (match ParseLine l with Ok g => Data g | Err _ => [] end) end);
    vm_compute; split_and!; reflexivity.
Qed.

Lemma collector_history_witness : reached sample_config sample_c2 sample_t [] sample_fl /\ collector_inv sample_config sample_c2 sample_t [] sample_fl /\
  c_terminalType sample_c2 = TerminalCompleted.
Proof.
  split; [exact sample_reached|]. split; [exact (proj1 (collector_history _ _ _ _ _ sample_reached))|]. exact (proj1 (proj2 (proj2 sample_facts))).
Defined.

Lemma completion_replays_witness : CompletionKey "run-1" sample_spec = Ok sample_key /\ sample_s2 !! sample_key = None /\
  exists record s', sample_final = (Ok record, s', []) /\ erun sample_uri (LoadCompletion "run-1" sample_spec) s' [] = (Ok record, s', []).
Proof.
  destruct sample_facts as (_ & _ & _ & Hm & _ & Hok & _). apply object_missing in Hm as [_ Hm].
  split; [exact sample_key_ok|]. split; [exact Hm|]. destruct sample_final as [[[record|e] s'] out'] eqn:E; [|discriminate].
  destruct (completion_replays sample_uri "run-1" sample_spec sample_base sample_exit sample_s2 [] record s' out' sample_key sample_key_ok Hm E) as (-> & Hl & _).
  exists record, s'. split; [reflexivity|exact Hl].
Defined.

Lemma replay_faithful_witness : exists t info, runs sample_replay t (Ok info) /\ digestBytes (written t) = Digest_ sample_ref.
Proof.
  pose proof (trace_runs sample_uri sample_replay sample_final.1.2 []) as Hr. destruct sample_facts as (_ & _ & _ & _ & _ & _ & _ & Hok).
  destruct ((erun sample_uri sample_replay sample_final.1.2 []).1.1) as [info|e]; [|discriminate]. eexists _, info. split; [exact Hr|].
  exact (proj1 (replay_faithful _ _ _ _ Hr)).
Defined.

Lemma recovery_agrees_witness : Forall rereads sample_fl /\ exists record s' c', sample_final = (Ok record, s', []) /\
  erun sample_uri (ProcessExit sample_config sample_c2 sample_exit) sample_s2 [] = ((Ok record, c'), s', []).
Proof.
  split; [exact sample_rereads|]. destruct sample_facts as (Hf & Hp & Ht & Hm & Hn & Hok & Ho & _).
  assert (Hne : c_terminalType sample_c2 <> "") by (rewrite Ht; discriminate).
  destruct sample_final as [[[record|e] s'] out'] eqn:E; [|discriminate]. cbn [snd] in Ho. subst out'.
  destruct (proj1 (recovery_agrees sample_uri sample_config sample_c2 sample_t [] sample_fl sample_s2 [] sample_exit sample_key sample_reached
    Hf Hp Hne sample_rereads (fun key body => honest_confirmed _ _ key body sample_honest) eq_refl sample_key_ok Hm Hn record s') E) as [c' Hc].
  exists record, s', c'. split; [reflexivity|exact Hc].
Defined.
